(* ===== verification/_CoqProject ===== *)
-Q . S2P
Prelude.v
Bitmap.v
Interfaces.v
Memory.v
Pmm.v
Heap.v
Shm.v
CString.v
Sha256.v
Mailbox.v
Pci.v
Driver.v
Paging.v
Vfs.v
VfsPipe.v
Ramdisk.v
Lufirafs.v
LufirafsView.v
LufirafsDisk.v
LufirafsDemo.v
LufirafsFile.v
LufirafsDir.v
Users.v
UsersText.v
UsersLogin.v
ProcessEnv.v
Process.v
ProcessRing.v
ProcessSched.v
ProcessInv.v
ProcessLife.v
ProcessCreate.v
ProcessSteps.v
ProcessExit.v
ProcessSignals.v
ProcessFork.v
ProcessTick.v
ProcessSafe.v
ProcessDemo.v
Input.v
InputConsole.v
InputTyping.v
InputDesk.v
InputDevices.v
InputHid.v
Ramfs.v
RamfsTree.v
RamfsOps.v
RamfsUnlink.v
RamfsFile.v
RamfsUnmount.v
RamfsOpen.v
RamfsDemo.v
Mmap.v
MmapSpace.v
PagingFrames.v
MmapPages.v
MmapCalls.v
MmapString.v
MmapDemo.v
LufirafsPath.v
LufirafsVfs.v
LufirafsFd.v
LufirafsOpen.v
LufirafsVfsDemo.v
