(* ===== verification/Prelude.v ===== *)
(** LufiraOS: a verification development of the kernel.

    * The program

    LufiraOS is a 64-bit x86 kernel with its own boot loaders, drivers, file systems and user
    programs.  This development covers the kernel's core: memory (physical frames, page tables, heap,
    shared regions), the C library routines it is built on, processes with their scheduler and signals,
    mailboxes between processes, PCI enumeration and the privileges of user-space drivers, open files
    and pipes, the kernel's own file system and the RAM file system, keyboard, mouse and console input,
    and user accounts.  The parts call each other as follows: page tables take frames from the physical
    allocator; shared regions take frames and heap blocks; the virtual file system and LufiraFS take
    heap blocks; LufiraFS reads and writes sectors of a disk; the RAM file system keeps its nodes in the heap and its
    open files in the VFS; key and mouse events go to the mailbox of the window server or to the
    console input of the VFS; the account database is two files of LufiraFS;
    the memory calls map frames and shared regions into a process, and bus addresses for a driver;
    processes take blocks, address spaces, descriptor tables and stacks from the others; everything
    uses the memory and string routines.

    * How code is modelled

    Every definition is a shallow embedding of the function of the same name.  A w-bit integer is a
    [Z] and each place where the C code can wrap writes the wrap out ([u32 (a + b)]).  State is a
    record per component (the static variables and heap objects of its C file) threaded through the
    state monad [M]; [None] is a fault, an access outside the object the code owns, so a theorem
    [wp m Q s] says that the run from [s] returns, touches nothing it should not, and ends in [Q].
    Error codes are values.  Loops are [for_range] and [for_acc], or recursion with fuel where the
    bound is not a counter; the theorems are about runs that return, so they also show that the fuel
    is enough.  Objects in the kernel heap are a finite map from their address, so aliasing and
    use after free are visible.

    Kernel code is not preempted: system calls run with interrupts masked (FMASK) and the timer
    switches only user code.  A call is therefore atomic except where it blocks in the scheduler;
    those points split a function into sections, and the interleavings of sections are a step
    relation (mailboxes, pipes).  The process component models the scheduler itself: an operation that
    gives the processor away says so in its result, what it does when it runs again is a definition of
    its own, and a run of the kernel is a sequence of operations, timer ticks and idle rounds.

    Components meet at the classes of Interfaces.v: [PageAllocator], [BlockAllocator] and
    [BlockDevice] state what frames, heap blocks and sectors promise; clients are proved against the
    classes, Pmm.v and Heap.v provide instances, and Ramdisk.v provides a disk on which the theorems
    can be run (the disk drivers talk to hardware and are not modelled).  [ProcessEnv], of ProcessEnv.v,
    is what process.c relies on in the other components; ProcessDemo.v instantiates it with a ledger of
    live blocks.

    * Files

    - Prelude.v, Bitmap.v, Interfaces.v: integers, the monad and its rules, arrays, bit maps, classes.
    - Memory.v: kernel/lib/string.c, the memory routines: byte arrays with overlap.
    - Pmm.v: kernel/system/mm/pmm.c.  The frame bitmap, the memory map given by the loader, the scan.
    - Heap.v: kernel/system/mm/heap.c.  The block list with its headers; splitting and merging.
    - Shm.v: kernel/system/mm/shm.c.  Shared regions, reference counts, attachments.
    - CString.v: kernel/lib/string.c and the shell's word matching.
    - Sha256.v: kernel/lib/sha256.c.
    - Mailbox.v: kernel/system/ipc/mailbox.c with the parts of process.c it relies on.
    - Pci.v: kernel/drivers/pci/pci.c.  Configuration space, bus walk, BARs.
    - Driver.v: kernel/system/driver/driver.c.  Claims of devices, MMIO and port permissions.
    - Paging.v: kernel/system/mm/paging.c.  Four-level tables in a frame store.
    - Mmap.v: the memory calls of kernel/system/syscall/syscall.c ([sys_mmap], [sys_munmap], [sys_mmap_mmio], [sys_dma_alloc],
      [sys_shm_create], [sys_shm_attach]) and [validate_user_string]; MmapSpace.v, PagingFrames.v, MmapPages.v, MmapCalls.v,
      MmapString.v, MmapDemo.v: the address space of a process, the frames that mapping and unmapping take and give back, runs of pages, the
      outcomes of mmap and munmap, strings, and a machine.
    - Vfs.v, VfsPipe.v: kernel/fs/vfs/vfs.c.  Open files, descriptors, pipes, the console device.
    - Ramdisk.v, Lufirafs.v, LufirafsView.v, LufirafsFile.v, LufirafsDir.v, LufirafsDisk.v,
      LufirafsDemo.v: kernel/fs/lufirafs/lufirafs.c.  The operations, the view of the image and disk they
      keep, the contents of files, directories and paths, layout with sync and mount, and an image on
      which the theorems are run.
    - LufirafsVfs.v, LufirafsFd.v, LufirafsPath.v, LufirafsOpen.v, LufirafsVfsDemo.v:
      kernel/fs/lufirafs/lufirafs_vfs.c.  The operations by which the VFS reaches LufiraFS (its model is taken over a heap;
      here that heap is the [world] of LufiraFS, of private records and of credentials), reading and writing through descriptors, path lookup, opening, and a machine.
    - Ramfs.v, RamfsTree.v, RamfsOps.v, RamfsUnlink.v, RamfsFile.v, RamfsUnmount.v, RamfsOpen.v, RamfsDemo.v:
      kernel/fs/ramfs/ramfs.c.  The operations, nodes as trees, directories and the map from paths to
      entries, removing, contents of files, unmounting, mounting and opening, and a machine.
    - Input.v: kernel/drivers/keyboard/keyboard.c, mouse/mouse.c, usb/usb_hid.c and input/input.c;
      InputConsole.v, InputTyping.v, InputDesk.v, InputDevices.v, InputHid.v: the console ring as a
      queue, the keyboard's decoding, a machine, the mouse and the cursor, HID reports and initialisation.
    - Users.v, UsersText.v, UsersLogin.v: kernel/system/users/users.c.  The operations on /etc/passwd and
      /etc/shadow, the text they write and read, authentication and changes of password.
    - ProcessEnv.v, Process.v: kernel/system/process/process.c.  What it relies on, its state and its
      operations.
    - ProcessRing.v, ProcessInv.v, ProcessSched.v, ProcessLife.v, ProcessSteps.v: the ring as a cycle,
      the invariant of the process table, [schedule], registration and reaping, how a call may change
      the other processes.
    - ProcessCreate.v, ProcessExit.v, ProcessSignals.v, ProcessFork.v, ProcessTick.v: outcomes of
      creation, exit, signals, fork and the timer tick; ProcessSafe.v: sequences of these operations;
      ProcessDemo.v: a machine that runs them.

    * What the theorems show

    - Allocation: the heap's blocks always tile the region, allocation returns an unused block and
      release merges with both neighbours; frames are handed out once; both scans are exact (they fail
      only when nothing fits), and the instances discharge the interfaces.
    - Page tables: mapping makes exactly one page translate, unmapping removes exactly one, and the
      check of user pointers accepts exactly the ranges mapped for user mode.
    - Memory calls: under any sequence of calls the regions and reusable ranges of a process do not overlap; mmap maps fresh
      zeroed frames of its own or gives everything back, munmap undoes it; a string argument is accepted only if the process can
      read all of it.
    - Sharing: regions live exactly as long as they are attached, and are released once.
    - Libraries: the memory and string routines equal their specifications, SHA-256 equals the
      definition of FIPS 180-4 under any split of the input.
    - Communication: messages arrive once and in order, a pipe is a lossless bounded byte stream under
      every interleaving, sleepers have a reason to sleep, polling is exact.
    - Devices: enumeration finds every function, BAR sizing restores the registers, drivers reach only
      what they claimed.
    - LufiraFS: a write stores a prefix and changes nothing else in any file, a read returns the
      contents, and what was written is read back; directory entries are found under their names and
      paths resolve along them; a synced image is what a later mount reads; opening gives a descriptor on the
      inode of the path, and what is written through a descriptor is read back through it.
    - RAM file system: on the map from paths to entries, mkdir and open insert, unlink removes, a write
      replaces the contents of one file, unmounting frees a mount and nothing else; nodes and data blocks
      have one owner each.
    - Input: typed text reaches the reader of the console, or the window server, once and in order;
      packets decode to the movements they encode; the cursor stays on the screen.
    - Accounts: records written are the records parsed, a password set is the one that authenticates,
      and other accounts are untouched.
    - Processes: the table, ring and process tree stay consistent under every sequence of operations;
      the scheduler runs a ready process and every ready process within one round; fork copies exactly
      what it shares, exit and wait release a process once, signals arrive and return.

    Where the code departs from its comments the theorems say what the code does; theorems of the
    demonstration files show at concrete inputs where it goes wrong.

    * Bounds

    Sizes are those of the code (16 descriptors, 4096-byte pipes, 32-message mailboxes, 8192-byte
    blocks, 12 direct and 2048 indirect blocks).  Fuel is derived from the size of the input: the
    length of a path, the number of blocks touched, the number of list nodes; the theorems prove it
    enough.  Hypotheses on sizes (such as offset plus count below 2^32) mark where the C arithmetic
    would wrap.

    * Not modelled

    Boot loaders, console drawing, the USB controller, AHCI and NVMe, the serial port, interrupt and
    descriptor tables and timers: protocols with hardware or firmware that the repository does not
    define.  The saving and loading of registers is a function of the process model.  The dispatch of
    system calls with the calls that copy arguments and call another component, ACPI parsing, the host program that makes a LufiraFS image, and the FAT, exFAT and ext2 file
    systems: not modelled; the file systems are arguments of the VFS model. *)

From Stdlib Require Export ZArith Lia.
From stdpp Require Export base tactics numbers list gmap.

#[global] Open Scope Z_scope.
Set Default Goal Selector "!".

(** * Machine integers

    A w-bit C integer is a [Z]; every place where the C code can wrap writes
    the conversion out. *)

Definition u8 (x : Z) : Z := x mod 2 ^ 8.
Definition u16 (x : Z) : Z := x mod 2 ^ 16.
Definition u32 (x : Z) : Z := x mod 2 ^ 32.
Definition u64 (x : Z) : Z := x mod 2 ^ 64.
Definition i32 (x : Z) : Z := (x + 2 ^ 31) mod 2 ^ 32 - 2 ^ 31.

(** Value of a byte read through a (signed, on x86-64) [char] lvalue. *)
Definition schar (b : Z) : Z := if b <? 128 then b else b - 256.

Definition is_u8 (x : Z) : Prop := 0 <= x < 2 ^ 8.
Definition is_u16 (x : Z) : Prop := 0 <= x < 2 ^ 16.
Definition is_u32 (x : Z) : Prop := 0 <= x < 2 ^ 32.
Definition is_u64 (x : Z) : Prop := 0 <= x < 2 ^ 64.

Create HintDb lufira.

Lemma u8_range x : is_u8 (u8 x).
Proof. apply Z.mod_pos_bound; lia. Qed.
Lemma u16_range x : is_u16 (u16 x).
Proof. apply Z.mod_pos_bound; lia. Qed.
Lemma u32_range x : is_u32 (u32 x).
Proof. apply Z.mod_pos_bound; lia. Qed.
Lemma u64_range x : is_u64 (u64 x).
Proof. apply Z.mod_pos_bound; lia. Qed.

Lemma u8_small x : is_u8 x -> u8 x = x.
Proof. intros; by apply Z.mod_small. Qed.
Lemma u16_small x : is_u16 x -> u16 x = x.
Proof. intros; by apply Z.mod_small. Qed.
Lemma u32_small x : is_u32 x -> u32 x = x.
Proof. intros; by apply Z.mod_small. Qed.
Lemma u64_small x : is_u64 x -> u64 x = x.
Proof. intros; by apply Z.mod_small. Qed.
Lemma i32_small x : - 2 ^ 31 <= x < 2 ^ 31 -> i32 x = x.
Proof. intros. unfold i32. rewrite Z.mod_small; lia. Qed.

#[export] Hint Resolve u8_range u16_range u32_range u64_range : lufira.

(** * A state monad with faults

    [M St A] runs from a state and either faults ([None]: an access outside the
    object the code owns) or yields a result and the next state. *)

Definition M (St A : Type) : Type := St -> option (A * St).

#[export] Instance M_ret St : MRet (M St) := fun A a s => Some (a, s).
#[export] Instance M_bind St : MBind (M St) := fun A B k m s =>
  match m s with
  | Some (a, s') => k a s'
  | None => None
  end.

Definition get {St} : M St St := fun s => Some (s, s).
Definition gets {St A} (f : St -> A) : M St A := fun s => Some (f s, s).
Definition modify {St} (f : St -> St) : M St unit := fun s => Some (tt, f s).
Definition fault {St A} : M St A := fun _ => None.
Definition lift {St A} (o : option A) : M St A := fun s =>
  match o with Some a => Some (a, s) | None => None end.

(** Weakest precondition: the run does not fault and its outcome satisfies [Q]. *)
Definition wp {St A} (m : M St A) (Q : A -> St -> Prop) (s : St) : Prop :=
  match m s with
  | Some (a, s') => Q a s'
  | None => False
  end.

#[global] Arguments wp : simpl never.
#[global] Arguments M_bind : simpl never.
#[global] Arguments M_ret : simpl never.

Section wp_rules.
Context {St : Type}.

Lemma wp_ret {A} (a : A) (Q : A -> St -> Prop) s : Q a s -> wp (mret a) Q s.
Proof. done. Qed.

Lemma wp_bind {A B} (m : M St A) (k : A -> M St B) Q s :
  wp m (fun a s' => wp (k a) Q s') s -> wp (m ≫= k) Q s.
Proof. unfold wp, mbind, M_bind. by destruct (m s) as [[??]|]. Qed.

Lemma wp_mono {A} (m : M St A) (P Q : A -> St -> Prop) s :
  wp m P s -> (forall a s', P a s' -> Q a s') -> wp m Q s.
Proof. unfold wp. destruct (m s) as [[??]|]; naive_solver. Qed.

Lemma wp_Some {A} (m : M St A) Q s a s' :
  m s = Some (a, s') -> Q a s' -> wp m Q s.
Proof. unfold wp. by intros ->. Qed.

Lemma wp_inv {A} (m : M St A) Q s :
  wp m Q s -> exists a s', m s = Some (a, s') /\ Q a s'.
Proof. unfold wp. destruct (m s) as [[a s']|]; naive_solver. Qed.

Lemma wp_get Q (s : St) : Q s s -> wp get Q s.
Proof. done. Qed.
Lemma wp_gets {A} (f : St -> A) Q s : Q (f s) s -> wp (gets f) Q s.
Proof. done. Qed.
Lemma wp_modify (f : St -> St) Q s : Q tt (f s) -> wp (modify f) Q s.
Proof. done. Qed.
Lemma wp_lift {A} (o : option A) a Q (s : St) : o = Some a -> Q a s -> wp (lift o) Q s.
Proof. by intros ->. Qed.

Lemma wp_run {A} (m : M St A) Q s a s' : wp m Q s -> m s = Some (a, s') -> Q a s'.
Proof. unfold wp. intros H E. by rewrite E in H. Qed.

Lemma bind_Some {A B} (m : M St A) (k : A -> M St B) s a s' :
  m s = Some (a, s') -> (m ≫= k) s = k a s'.
Proof. unfold mbind, M_bind. by intros ->. Qed.

Lemma bind_inv {A B} (m : M St A) (k : A -> M St B) s b s'' : (m ≫= k) s = Some (b, s'') ->
  exists a s', m s = Some (a, s') /\ k a s' = Some (b, s'').
Proof. unfold mbind, M_bind. destruct (m s) as [[a s']|]; [|done]. eauto. Qed.
End wp_rules.

(** One symbolic step of a [wp] goal. *)
Ltac wstep :=
  lazymatch goal with
  | |- wp (mbind _ _) _ _ => apply wp_bind
  | |- wp (M_bind _ _ _ _ _) _ _ => apply wp_bind
  | |- wp (mret _) _ _ => apply wp_ret
  | |- wp (M_ret _ _ _) _ _ => apply wp_ret
  | |- wp get _ _ => apply wp_get
  | |- wp (gets _) _ _ => apply wp_gets
  | |- wp (modify _) _ _ => apply wp_modify
  end; cbv beta iota.
Ltac wsteps := repeat wstep.

(** * Counted loops with early exit

    [for_range lo hi body] is [for (i = lo; i < hi; i++) body(i)]; a body that
    yields [Some r] leaves the loop with [r] ([return] or [break]), [None]
    continues. *)

Fixpoint for_loop {St R} (n : nat) (i : Z) (body : Z -> M St (option R)) : M St (option R) :=
  match n with
  | O => mret None
  | S n =>
      r ← body i;
      match r with
      | Some v => mret (Some v)
      | None => for_loop n (i + 1) body
      end
  end.

Definition for_range {St R} (lo hi : Z) (body : Z -> M St (option R)) : M St (option R) :=
  for_loop (Z.to_nat (hi - lo)) lo body.

Section loop_rules.
Context {St R : Type}.
Implicit Types (body : Z -> M St (option R)).

(** Invariant rule. *)
Lemma wp_for_range (I : Z -> St -> Prop) (Q : option R -> St -> Prop) lo hi body s :
  I lo s ->
  lo <= hi ->
  (forall i s', lo <= i < hi -> I i s' ->
     wp (body i) (fun r s'' => match r with Some v => Q (Some v) s'' | None => I (i + 1) s'' end) s') ->
  (forall s', I hi s' -> Q None s') ->
  wp (for_range lo hi body) Q s.
Proof.
  intros HI Hle Hstep Hend. unfold for_range.
  assert (forall n i s', lo <= i -> i + Z.of_nat n = hi -> I i s' ->
            wp (for_loop n i body) Q s') as Hgen.
  { induction n as [|n IH]; intros i s' Hlo Hn Hi; simpl.
    - apply wp_ret, Hend. by replace hi with i by lia.
    - apply wp_bind. eapply wp_mono; [apply Hstep; [lia|done]|].
      intros [v|] s''; [apply wp_ret|]. intros. apply IH; [lia..|done]. }
  apply Hgen; [lia..|done].
Qed.

(** A loop whose range is empty does nothing. *)
Lemma for_range_empty lo hi body s :
  hi <= lo -> for_range lo hi body s = Some (None, s).
Proof. intros. unfold for_range. by replace (Z.to_nat (hi - lo)) with 0%nat by lia. Qed.

(** Search loops: iterations whose test [p] fails leave the state alone, the
    first one whose test holds leaves the loop. *)
Lemma wp_for_search (p : Z -> bool) (Q : option R -> St -> Prop) lo hi body s :
  (forall i, lo <= i < hi -> p i = false -> body i s = Some (None, s)) ->
  (forall i, lo <= i < hi -> p i = true -> (forall j, lo <= j < i -> p j = false) ->
     wp (body i) (fun r s' => match r with Some v => Q (Some v) s' | None => False end) s) ->
  ((forall j, lo <= j < hi -> p j = false) -> Q None s) ->
  wp (for_range lo hi body) Q s.
Proof.
  intros Hskip Hhit Hend.
  destruct (decide (hi <= lo)) as [Hle|Hgt].
  { unfold wp. rewrite for_range_empty by lia. apply Hend. lia. }
  apply (wp_for_range (fun i s' => s' = s /\ forall j, lo <= j < i -> p j = false));
    [split; [done|lia]|lia| |].
  - intros i s' Hi [-> Hpre]. destruct (p i) eqn:Hp.
    + eapply wp_mono; [by apply Hhit|]. by intros [v|] s'.
    + unfold wp. rewrite Hskip by done. split; [done|].
      intros j Hj. destruct (decide (j = i)) as [->|]; [done|]. apply Hpre; lia.
  - intros s' [-> Hpre]. by apply Hend.
Qed.
End loop_rules.

(** The same loop with local variables [acc] carried from one iteration to the
    next; [inr r] leaves the loop. *)
Fixpoint acc_loop {St A R} (n : nat) (i : Z) (acc : A) (body : Z -> A -> M St (A + R)) : M St (A + R) :=
  match n with
  | O => mret (inl acc)
  | S n =>
      r ← body i acc;
      match r with
      | inl acc' => acc_loop n (i + 1) acc' body
      | inr v => mret (inr v)
      end
  end.

Definition for_acc {St A R} (lo hi : Z) (acc : A) (body : Z -> A -> M St (A + R)) : M St (A + R) :=
  acc_loop (Z.to_nat (hi - lo)) lo acc body.

Lemma wp_for_acc {St A R} (I : Z -> A -> St -> Prop) (Q : A + R -> St -> Prop) lo hi acc
    (body : Z -> A -> M St (A + R)) s :
  I lo acc s ->
  lo <= hi ->
  (forall i a s', lo <= i < hi -> I i a s' ->
     wp (body i a) (fun r s'' => match r with inl a' => I (i + 1) a' s'' | inr v => Q (inr v) s'' end) s') ->
  (forall a s', I hi a s' -> Q (inl a) s') ->
  wp (for_acc lo hi acc body) Q s.
Proof.
  intros HI Hle Hstep Hend. unfold for_acc.
  assert (forall n i a s', lo <= i -> i + Z.of_nat n = hi -> I i a s' ->
            wp (acc_loop n i a body) Q s') as Hgen.
  { induction n as [|n IH]; intros i a s' Hlo Hn Hi; simpl.
    - apply wp_ret, Hend. by replace hi with i by lia.
    - apply wp_bind. eapply wp_mono; [apply Hstep; [lia|done]|].
      intros [a'|v] s''; [|by intros; apply wp_ret]. intros. apply IH; [lia..|done]. }
  apply Hgen; [lia..|done].
Qed.

(** * Arrays: lists indexed by [Z], with out-of-range access visible *)

Definition zget {A} (l : list A) (i : Z) : option A :=
  if 0 <=? i then l !! Z.to_nat i else None.

Definition zset {A} (l : list A) (i : Z) (x : A) : option (list A) :=
  if (0 <=? i) && (i <? Z.of_nat (length l)) then Some (<[Z.to_nat i := x]> l) else None.

Definition zlen {A} (l : list A) : Z := Z.of_nat (length l).

Section zlist.
Context {A : Type}.
Implicit Types (l : list A) (i j : Z).

Lemma zget_Some l i : 0 <= i < zlen l -> exists x, zget l i = Some x.
Proof.
  intros H. unfold zget, zlen in *. rewrite (proj2 (Z.leb_le 0 i)) by lia.
  apply lookup_lt_is_Some. lia.
Qed.

Lemma zget_range l i x : zget l i = Some x -> 0 <= i < zlen l.
Proof.
  unfold zget, zlen. destruct (0 <=? i) eqn:E; [|done].
  intros H%lookup_lt_Some. lia.
Qed.

Lemma zset_in l i x : 0 <= i < zlen l -> zset l i x = Some (<[Z.to_nat i := x]> l).
Proof. intros H. unfold zset, zlen in *. by rewrite (proj2 (Z.leb_le 0 i)), (proj2 (Z.ltb_lt i _)) by lia. Qed.

Lemma zset_len l i x l' : zset l i x = Some l' -> zlen l' = zlen l.
Proof. unfold zset, zlen. case_match; intros; simplify_eq. by rewrite length_insert. Qed.

Lemma zget_insert_eq l i x : 0 <= i < zlen l -> zget (<[Z.to_nat i := x]> l) i = Some x.
Proof.
  intros H. unfold zget, zlen in *. rewrite (proj2 (Z.leb_le 0 i)) by lia.
  apply list_lookup_insert_eq. lia.
Qed.

Lemma zget_insert_ne l i j x : 0 <= i -> i <> j -> zget (<[Z.to_nat i := x]> l) j = zget l j.
Proof.
  intros Hi H. unfold zget. destruct (0 <=? j) eqn:E; [|done].
  apply list_lookup_insert_ne. lia.
Qed.

Lemma zlen_insert l n x : zlen (<[n := x]> l) = zlen l.
Proof. unfold zlen. by rewrite length_insert. Qed.

Lemma zlen_nonneg l : 0 <= zlen l.
Proof. unfold zlen. lia. Qed.

Lemma zget_replicate n (x : A) i : 0 <= i < Z.of_nat n -> zget (replicate n x) i = Some x.
Proof.
  intros H. unfold zget. rewrite (proj2 (Z.leb_le 0 i)) by lia.
  apply lookup_replicate. split; [done|lia].
Qed.

Lemma Forall_insert_z (P : A -> Prop) l n x : Forall P l -> P x -> Forall P (<[n := x]> l).
Proof. intros. by apply Forall_insert. Qed.
End zlist.

Lemma zget_empty {A} i : zget (@nil A) i = None.
Proof. unfold zget. by destruct (0 <=? i). Qed.
Lemma zget_cons_0 {A} (x : A) l : zget (x :: l) 0 = Some x.
Proof. done. Qed.
Lemma zget_cons_S {A} (x : A) l k : 0 <= k -> zget (x :: l) (k + 1) = zget l k.
Proof.
  intros Hk. unfold zget. rewrite (proj2 (Z.leb_le 0 (k + 1))), (proj2 (Z.leb_le 0 k)) by lia.
  by replace (Z.to_nat (k + 1)) with (S (Z.to_nat k)) by lia.
Qed.
Lemma zlen_cons {A} (x : A) l : zlen (x :: l) = zlen l + 1.
Proof. unfold zlen. simpl. lia. Qed.

Lemma seqZ_app lo n m : 0 <= n -> 0 <= m -> seqZ lo (n + m) = seqZ lo n ++ seqZ (lo + n) m.
Proof.
  intros Hn Hm. apply list_eq. intros k. destruct (decide (Z.of_nat k < n + m)) as [Hk|Hk].
  - rewrite lookup_seqZ_lt by lia. destruct (decide (Z.of_nat k < n)).
    + rewrite lookup_app_l by (rewrite length_seqZ; lia). by rewrite lookup_seqZ_lt by lia.
    + rewrite lookup_app_r by (rewrite length_seqZ; lia). rewrite length_seqZ, lookup_seqZ_lt by lia. f_equal. lia.
  - rewrite lookup_seqZ_ge by lia. rewrite lookup_app_r by (rewrite length_seqZ; lia). rewrite length_seqZ, lookup_seqZ_ge by lia. done.
Qed.

Create Rewrite HintDb lufira_len.
#[export] Hint Rewrite @zlen_insert @length_insert @length_app @length_replicate : lufira_len.
