(* ===== verification/Bitmap.v ===== *)
(** Bitmaps packed in bytes, as pmm.c and lufirafs.c keep them: bit [i] lives in
    byte [i / 8] under the mask [1 << (i % 8)].  The three accessors are the C
    expressions; an index outside the byte array faults.  The lemmas relate them
    to the boolean view [bit] and to the number of set bits [countb]. *)

From S2P Require Import Prelude.

Implicit Types (bm : list Z) (i k : Z).

Definition bm_mask (i : Z) : Z := Z.shiftl 1 (i mod 8).

Definition bm_test (bm : list Z) (i : Z) : option bool :=
  b ← zget bm (i / 8); Some (negb (Z.land b (bm_mask i) =? 0)).

Definition bm_set (bm : list Z) (i : Z) : option (list Z) :=
  b ← zget bm (i / 8); zset bm (i / 8) (u8 (Z.lor b (bm_mask i))).

Definition bm_clear (bm : list Z) (i : Z) : option (list Z) :=
  b ← zget bm (i / 8); zset bm (i / 8) (u8 (Z.land b (Z.lnot (bm_mask i)))).

(** The bit as a boolean; [false] outside the array. *)
Definition bit (bm : list Z) (i : Z) : bool := default false (bm_test bm i).

Lemma testbit_one n : Z.testbit 1 n = (n =? 0).
Proof.
  destruct (Z.eqb_spec n 0) as [->|Hn]; [done|].
  destruct (decide (n < 0)); [by apply Z.testbit_neg_r|].
  apply (Z.bits_above_log2 1 n); simpl; lia.
Qed.

Lemma testbit_mask i k : 0 <= k -> Z.testbit (bm_mask i) k = (k =? i mod 8).
Proof.
  intros Hk. unfold bm_mask. rewrite Z.shiftl_spec, testbit_one by lia.
  apply eq_true_iff_eq. rewrite !Z.eqb_eq. lia.
Qed.

Lemma land_mask_testbit b i :
  negb (Z.land b (bm_mask i) =? 0) = Z.testbit b (i mod 8).
Proof.
  pose proof (Z.mod_pos_bound i 8 ltac:(lia)).
  destruct (Z.eqb_spec (Z.land b (bm_mask i)) 0) as [E|E]; simpl.
  - assert (Z.testbit (Z.land b (bm_mask i)) (i mod 8) = false) as Ht by (rewrite E; apply Z.bits_0).
    rewrite Z.land_spec, testbit_mask, Z.eqb_refl, andb_true_r in Ht by lia. done.
  - symmetry. destruct (Z.testbit b (i mod 8)) eqn:Eb; [done|]. exfalso. apply E.
    apply Z.bits_inj'. intros n Hn. rewrite Z.land_spec, Z.bits_0, testbit_mask by lia.
    destruct (Z.eqb_spec n (i mod 8)) as [->|]; [by rewrite Eb|]. by rewrite andb_false_r.
Qed.

Lemma div8_range bm i : 0 <= i < 8 * zlen bm -> 0 <= i / 8 < zlen bm.
Proof. intros. split; [apply Z.div_pos; lia|apply Z.div_lt_upper_bound; lia]. Qed.

Lemma bm_test_bit bm i : 0 <= i < 8 * zlen bm -> bm_test bm i = Some (bit bm i).
Proof.
  intros Hi. unfold bit, bm_test. destruct (zget_Some bm (i / 8) (div8_range _ _ Hi)) as [b ->].
  done.
Qed.

(** Reading back byte [k / 8] after an update of byte [i / 8]. *)
Lemma bit_update bm i v b k :
  zget bm (i / 8) = Some b ->
  bit (<[Z.to_nat (i / 8) := v]> bm) k =
    if k / 8 =? i / 8 then Z.testbit v (k mod 8) else bit bm k.
Proof.
  intros Hb. pose proof (zget_range _ _ _ Hb) as Hr. unfold bit, bm_test.
  destruct (Z.eqb_spec (k / 8) (i / 8)) as [->|Hne].
  - rewrite zget_insert_eq by lia. simpl. by rewrite land_mask_testbit.
  - rewrite zget_insert_ne by lia. done.
Qed.

Lemma bit_zget bm i b : zget bm (i / 8) = Some b -> bit bm i = Z.testbit b (i mod 8).
Proof. intros Hb. unfold bit, bm_test. rewrite Hb. simpl. apply land_mask_testbit. Qed.

Lemma mod_eq_same_byte i k : k / 8 = i / 8 -> (k mod 8 =? i mod 8) = (k =? i).
Proof.
  intros H. pose proof (Z.div_mod k 8 ltac:(lia)). pose proof (Z.div_mod i 8 ltac:(lia)).
  apply eq_true_iff_eq. rewrite !Z.eqb_eq. lia.
Qed.

Lemma bm_set_spec bm i : 0 <= i < 8 * zlen bm ->
  exists bm', bm_set bm i = Some bm' /\ zlen bm' = zlen bm /\
    forall k, bit bm' k = (k =? i) || bit bm k.
Proof.
  intros Hi. pose proof (div8_range _ _ Hi) as Hd. unfold bm_set.
  destruct (zget_Some bm (i / 8) Hd) as [b Hb]. rewrite Hb. simpl.
  rewrite zset_in by done. eexists. split; [done|]. split; [apply zlen_insert|].
  intros k. rewrite (bit_update _ _ _ _ _ Hb).
  pose proof (Z.mod_pos_bound k 8 ltac:(lia)).
  destruct (Z.eqb_spec (k / 8) (i / 8)) as [Hk|Hk].
  - unfold u8. rewrite Z.mod_pow2_bits_low, Z.lor_spec, testbit_mask by lia.
    rewrite mod_eq_same_byte by done. rewrite <- Hk in Hb. rewrite (bit_zget _ _ _ Hb).
    apply orb_comm.
  - destruct (Z.eqb_spec k i) as [->|]; [done|]. done.
Qed.

Lemma bm_clear_spec bm i : 0 <= i < 8 * zlen bm ->
  exists bm', bm_clear bm i = Some bm' /\ zlen bm' = zlen bm /\
    forall k, bit bm' k = negb (k =? i) && bit bm k.
Proof.
  intros Hi. pose proof (div8_range _ _ Hi) as Hd. unfold bm_clear.
  destruct (zget_Some bm (i / 8) Hd) as [b Hb]. rewrite Hb. simpl.
  rewrite zset_in by done. eexists. split; [done|]. split; [apply zlen_insert|].
  intros k. rewrite (bit_update _ _ _ _ _ Hb).
  pose proof (Z.mod_pos_bound k 8 ltac:(lia)).
  destruct (Z.eqb_spec (k / 8) (i / 8)) as [Hk|Hk].
  - unfold u8. rewrite Z.mod_pow2_bits_low, Z.land_spec, Z.lnot_spec, testbit_mask by lia.
    rewrite mod_eq_same_byte by done. rewrite <- Hk in Hb. rewrite (bit_zget _ _ _ Hb).
    apply andb_comm.
  - destruct (Z.eqb_spec k i) as [->|]; [done|]. done.
Qed.

Lemma bit_out bm i : i < 0 \/ 8 * zlen bm <= i -> bit bm i = false.
Proof.
  intros Hi. unfold bit, bm_test. destruct (zget bm (i / 8)) eqn:E; [|done].
  apply zget_range in E. pose proof (Z.div_mod i 8 ltac:(lia)).
  pose proof (Z.mod_pos_bound i 8 ltac:(lia)). lia.
Qed.

Lemma bit_zeros n i : bit (replicate n 0) i = false.
Proof.
  unfold bit, bm_test. destruct (zget (replicate n 0) (i / 8)) eqn:E; [|done].
  unfold zget in E. case_match; [|done]. apply lookup_replicate in E as [-> _]. done.
Qed.

(** * Number of indices below [n] where [f] holds *)

Fixpoint countb (f : Z -> bool) (n : nat) : Z :=
  match n with
  | O => 0
  | S n => countb f n + Z.b2z (f (Z.of_nat n))
  end.

Lemma countb_ext f g n : (forall j, 0 <= j < Z.of_nat n -> f j = g j) -> countb f n = countb g n.
Proof. intros H. induction n as [|n IH]; simpl; [done|]. rewrite IH, H by (intros; try apply H; lia). done. Qed.

Lemma countb_range f n : 0 <= countb f n <= Z.of_nat n.
Proof. induction n as [|n IH]; simpl countb; [lia|]. destruct (f (Z.of_nat n)); simpl Z.b2z; lia. Qed.

Lemma countb_flip f g n i : 0 <= i < Z.of_nat n -> f i = false -> g i = true ->
  (forall j, 0 <= j < Z.of_nat n -> j <> i -> g j = f j) -> countb g n = countb f n + 1.
Proof.
  intros Hi Hf Hg Hrest. induction n as [|n IH]; [lia|]. simpl.
  destruct (decide (i = Z.of_nat n)) as [->|Hne].
  - rewrite Hf, Hg, (countb_ext g f n); [simpl; lia|]. intros j Hj. apply Hrest; lia.
  - rewrite IH, (Hrest (Z.of_nat n)) by (intros; try apply Hrest; lia). lia.
Qed.

Lemma countb_full f n : countb f n = Z.of_nat n -> forall j, 0 <= j < Z.of_nat n -> f j = true.
Proof.
  induction n as [|n IH]; intros H j Hj; [lia|]. simpl in H.
  pose proof (countb_range f n). destruct (f (Z.of_nat n)) eqn:E; simpl in H; [|lia].
  destruct (decide (j = Z.of_nat n)) as [->|]; [done|]. apply IH; lia.
Qed.

Lemma countb_pos f n i : 0 <= i < Z.of_nat n -> f i = true -> 0 < countb f n.
Proof.
  intros Hi Hf. induction n as [|n IH]; [lia|]. simpl. pose proof (countb_range f n).
  destruct (decide (i = Z.of_nat n)) as [->|]; [rewrite Hf; simpl; lia|].
  destruct (f (Z.of_nat n)); simpl; [lia|]. rewrite Z.add_0_r. apply IH. lia.
Qed.
