(* ===== verification/Interfaces.v ===== *)
(** Interfaces between components, as classes of operations with their laws: the
    clients (page tables, shared memory, file system) are proved against these and
    the providing components discharge them with instances. *)

From S2P Require Import Prelude.

(** Scheduling states of a process (process.h). *)
Inductive process_state :=
  PROCESS_READY | PROCESS_RUNNING | PROCESS_BLOCKED | PROCESS_SLEEPING | PROCESS_TERMINATED | PROCESS_STOPPED.

#[export] Instance process_state_eq_dec : EqDecision process_state.
Proof. solve_decision. Defined.

(** A 4 KiB physical frame other than frame 0, in the 52-bit physical space. *)
Definition is_frame (f : Z) : Prop := 0 < f < 2 ^ 52 /\ f mod 4096 = 0.

(** What the page-frame allocator promises ([pmm_alloc_page], [pmm_free_page]). *)
Class PageAllocator (St : Type) := {
  pa_wf : St -> Prop;
  pa_managed : St -> Z -> Prop;  (* frames the allocator may hand out *)
  pa_free : St -> Z -> Prop;     (* frames that are free now *)
  pa_alloc : M St Z;
  pa_release : Z -> M St unit;
  pa_alloc_spec : forall s, pa_wf s ->
    wp pa_alloc (fun r s' => pa_wf s' /\ (forall f, pa_managed s' f <-> pa_managed s f) /\
      ((is_frame r /\ pa_managed s r /\ pa_free s r /\
        forall f, is_frame f -> (pa_free s' f <-> pa_free s f /\ f <> r))
       \/ (r = 0 /\ s' = s /\ forall f, is_frame f -> pa_managed s f -> ~ pa_free s f))) s;
  pa_release_spec : forall s r, pa_wf s -> is_frame r -> pa_managed s r ->
    wp (pa_release r) (fun _ s' => pa_wf s' /\ (forall f, pa_managed s' f <-> pa_managed s f) /\
      forall f, is_frame f -> (pa_free s' f <-> pa_free s f \/ f = r)) s;
}.

(** What the kernel heap promises ([kmalloc], [kfree]): [ba_rep s live] when [live] are the
    pointers handed out and not yet released. *)
Class BlockAllocator (St : Type) := {
  ba_rep : St -> gset Z -> Prop;
  ba_alloc : Z -> M St Z;
  ba_release : Z -> M St unit;
  ba_alloc_spec : forall s live n, ba_rep s live -> 0 < n -> n + 32 <= 2 ^ 64 ->
    wp (ba_alloc n) (fun p s' => (p = 0 /\ s' = s) \/
      (p <> 0 /\ (p ∉ live) /\ ba_rep s' ({[p]} ∪ live))) s;
  ba_release_spec : forall s live p, ba_rep s live -> (p ∈ live) ->
    wp (ba_release p) (fun _ s' => ba_rep s' (live ∖ {[p]})) s;
}.

(** What a disk promises ([disk_read_sectors], [disk_write_sectors]).  [bd_sector d i] are the 512
    bytes of sector [i]; [bd_good d i] when transfers of sector [i] succeed.  A failed write may have
    changed any of its sectors. *)
Class BlockDevice (D : Type) := {
  bd_sector : D -> Z -> list Z;
  bd_good : D -> Z -> Prop;
  bd_read : Z -> Z -> M D (option (list Z));
  bd_write : Z -> Z -> list Z -> M D bool;
  bd_sector_ok : forall d i, length (bd_sector d i) = 512%nat /\ Forall is_u8 (bd_sector d i);
  bd_read_spec : forall d lba n, 0 <= n ->
    wp (bd_read lba n) (fun r d' => (forall i, bd_sector d' i = bd_sector d i) /\ (forall i, bd_good d' i <-> bd_good d i) /\
      match r with
      | Some l => l = concat (bd_sector d <$> seqZ lba n)
      | None => exists i, lba <= i < lba + n /\ ~ bd_good d i
      end) d;
  bd_write_spec : forall d lba n l, 0 <= n -> zlen l = 512 * n -> Forall is_u8 l ->
    wp (bd_write lba n l) (fun r d' => (forall i, bd_good d' i <-> bd_good d i) /\
      (forall i, ~ lba <= i < lba + n -> bd_sector d' i = bd_sector d i) /\
      if r then concat (bd_sector d' <$> seqZ lba n) = l
      else exists i, lba <= i < lba + n /\ ~ bd_good d i) d;
}.
