(* ===== verification/Memory.v ===== *)
(** Byte-addressed memory and little-endian words: the part of the C abstract machine the
    string routines, the page tables and the file-system images share.  A memory maps the
    addresses of the objects the code owns to bytes; every other access faults. *)

From S2P Require Import Prelude.

Definition mem : Type := gmap Z Z.

Definition load8 (a : Z) : M mem Z := fun m =>
  match m !! a with Some v => Some (v, m) | None => None end.

Definition store8 (a v : Z) : M mem unit := fun m =>
  match m !! a with Some _ => Some (tt, <[a := v]> m) | None => None end.

(** Little-endian words of [n] bytes. *)
Fixpoint le_split (n : nat) (w : Z) : list Z :=
  match n with
  | O => []
  | S n => w mod 256 :: le_split n (w / 256)
  end.

Fixpoint le_combine (l : list Z) : Z :=
  match l with
  | [] => 0
  | b :: l => b + 256 * le_combine l
  end.

Fixpoint load_bytes (n : nat) (a : Z) : M mem (list Z) :=
  match n with
  | O => mret []
  | S n => b ← load8 a; l ← load_bytes n (a + 1); mret (b :: l)
  end.

Fixpoint store_bytes (a : Z) (l : list Z) : M mem unit :=
  match l with
  | [] => mret tt
  | b :: l => store8 a b;; store_bytes (a + 1) l
  end.

Definition load64 (a : Z) : M mem Z := l ← load_bytes 8 a; mret (le_combine l).
Definition store64 (a w : Z) : M mem unit := store_bytes a (le_split 8 w).

(** * Little-endian lemmas *)

Lemma length_le_split n w : length (le_split n w) = n.
Proof. revert w; induction n as [|n IH]; intros w; simpl; [done|by rewrite IH]. Qed.

Lemma le_split_bytes n w : Forall is_u8 (le_split n w).
Proof.
  revert w; induction n as [|n IH]; intros w; simpl; constructor; [|done].
  unfold is_u8. pose proof (Z.mod_pos_bound w 256). lia.
Qed.

Lemma le_split_combine l : Forall is_u8 l -> le_split (length l) (le_combine l) = l.
Proof.
  induction 1 as [|b l Hb Hl IH]; simpl; [done|]. unfold is_u8 in Hb. f_equal.
  - rewrite Z.mul_comm, Z.mod_add by lia. apply Z.mod_small. lia.
  - rewrite Z.mul_comm, Z.div_add, Z.div_small by lia. done.
Qed.

Lemma le_combine_split n w : le_combine (le_split n w) = w mod 256 ^ Z.of_nat n.
Proof.
  revert w; induction n as [|n IH]; intros w.
  { simpl. by rewrite Z.mod_1_r. }
  cbn [le_split le_combine]. rewrite IH, Nat2Z.inj_succ, Z.pow_succ_r by lia.
  rewrite (Z.rem_mul_r w 256 (256 ^ Z.of_nat n)) by lia. lia.
Qed.

Lemma le_combine_range l : Forall is_u8 l -> 0 <= le_combine l < 256 ^ zlen l.
Proof.
  unfold zlen. induction 1 as [|b l Hb Hl IH]; cbn [le_combine length]; [done|].
  rewrite Nat2Z.inj_succ, Z.pow_succ_r by lia. unfold is_u8 in Hb. lia.
Qed.

Lemma le_combine_app l1 l2 : le_combine (l1 ++ l2) = le_combine l1 + 256 ^ zlen l1 * le_combine l2.
Proof.
  unfold zlen. induction l1 as [|b l IH]; cbn [le_combine length app]; [lia|].
  rewrite IH, Nat2Z.inj_succ, Z.pow_succ_r by lia. lia.
Qed.

(** * Effect of stores *)

(** [written f p n m m']: [m'] is [m] with the [n] bytes at [p] set to [f]. *)
Definition written (f : Z -> Z) (p n : Z) (m m' : mem) : Prop :=
  forall a, m' !! a = if (p <=? a) && (a <? p + n) then Some (f a) else m !! a.

Definition mapped (p n : Z) (m : mem) : Prop :=
  forall a, p <= a < p + n -> is_Some (m !! a).

Definition mem_ok (m : mem) : Prop := forall a v, m !! a = Some v -> is_u8 v.

(** Content of the [n] bytes at [p]. *)
Definition bytes_at (m : mem) (p : Z) (n : nat) : list Z :=
  (fun i : nat => default 0 (m !! (p + Z.of_nat i))) <$> seq 0 n.

Definition byte_of (m : mem) (a : Z) : Z := default 0 (m !! a).

Lemma written_nil f p m : written f p 0 m m.
Proof. intros a. destruct ((p <=? a) && (a <? p + 0)) eqn:E; [lia|done]. Qed.

Lemma written_app f p n k m m1 m2 :
  0 <= n -> 0 <= k ->
  written f p n m m1 -> written f (p + n) k m1 m2 -> written f p (n + k) m m2.
Proof.
  intros Hn Hk H1 H2 a. rewrite H2, H1.
  destruct ((p + n <=? a) && (a <? p + n + k)) eqn:E1, ((p <=? a) && (a <? p + n)) eqn:E2,
    ((p <=? a) && (a <? p + (n + k))) eqn:E3; (done || lia).
Qed.

(** The piece written second may lie below the first (a loop running backwards). *)
Lemma written_app_back f p n k m m1 m2 :
  0 <= n -> 0 <= k ->
  written f (p + n) k m m1 -> written f p n m1 m2 -> written f p (n + k) m m2.
Proof.
  intros Hn Hk H1 H2 a. rewrite H2, H1.
  destruct ((p + n <=? a) && (a <? p + n + k)) eqn:E1, ((p <=? a) && (a <? p + n)) eqn:E2,
    ((p <=? a) && (a <? p + (n + k))) eqn:E3; (done || lia).
Qed.

Lemma written_ext f g p n m m' :
  (forall a, p <= a < p + n -> f a = g a) -> written f p n m m' -> written g p n m m'.
Proof.
  intros Hfg H a. rewrite H. destruct ((p <=? a) && (a <? p + n)) eqn:E; [|done].
  by rewrite Hfg by lia.
Qed.

Lemma written_mapped f p n q k m m' : written f p n m m' -> mapped q k m -> mapped q k m'.
Proof. intros H Hq a Ha. rewrite H. case_match; [done|by apply Hq]. Qed.

Lemma written_other f p n m m' a : written f p n m m' -> ~ (p <= a < p + n) -> m' !! a = m !! a.
Proof. intros H Ha. rewrite H. case_match; [lia|done]. Qed.

Lemma written_ok f p n m m' :
  (forall a, p <= a < p + n -> is_u8 (f a)) -> written f p n m m' -> mem_ok m -> mem_ok m'.
Proof.
  intros Hf H Hm a v. rewrite H. case_match eqn:E; [|apply Hm].
  intros [= <-]. apply Hf. lia.
Qed.

Lemma written_unique f p n m m1 m2 : written f p n m m1 -> written f p n m m2 -> m1 = m2.
Proof. intros H1 H2. apply map_eq. intros a. by rewrite H1, H2. Qed.

Lemma mapped_sub p n q k m : mapped p n m -> p <= q -> q + k <= p + n -> mapped q k m.
Proof. intros H ?? a ?. apply H. lia. Qed.

Lemma byte_of_Some m a : is_Some (m !! a) -> m !! a = Some (byte_of m a).
Proof. unfold byte_of. by intros [v ->]. Qed.

Lemma byte_of_u8 m a : mem_ok m -> is_u8 (byte_of m a).
Proof. intros H. unfold byte_of. destruct (m !! a) eqn:E; simpl; [by eapply H|done]. Qed.

Lemma wp_load8 Q m a : is_Some (m !! a) -> Q (byte_of m a) m -> wp (load8 a) Q m.
Proof. intros H. unfold wp, load8. by rewrite (byte_of_Some m a H). Qed.

Lemma wp_store8 Q m a v :
  is_Some (m !! a) -> (forall m', written (fun _ => v) a 1 m m' -> Q tt m') -> wp (store8 a v) Q m.
Proof.
  intros [w H] HQ. unfold wp, store8. rewrite H. apply HQ. intros b.
  destruct ((a <=? b) && (b <? a + 1)) eqn:E.
  - replace b with a by lia. apply lookup_insert_eq.
  - apply lookup_insert_ne. lia.
Qed.

Lemma wp_store_bytes Q m a l :
  mapped a (zlen l) m ->
  (forall m', written (fun b => default 0 (zget l (b - a))) a (zlen l) m m' -> Q tt m') ->
  wp (store_bytes a l) Q m.
Proof.
  revert a m. induction l as [|b l IH]; intros a m Hm HQ; simpl.
  { wstep. apply HQ, written_nil. }
  assert (zlen (b :: l) = 1 + zlen l) as Hlen by (unfold zlen; simpl; lia).
  pose proof (zlen_nonneg l).
  wstep. apply wp_store8; [apply Hm; lia|]. intros m1 H1.
  apply IH.
  { eapply written_mapped; [done|]. eapply mapped_sub; [done|lia..]. }
  intros m2 H2. apply HQ. rewrite Hlen. eapply (written_app _ _ 1 (zlen l)); [lia..| |].
  - eapply written_ext; [|exact H1]. intros c Hc. by replace (c - a) with 0 by lia.
  - eapply written_ext; [|exact H2]. intros c Hc. unfold zget.
    rewrite !(proj2 (Z.leb_le 0 _)) by lia.
    by replace (Z.to_nat (c - a)) with (S (Z.to_nat (c - (a + 1)))) by lia.
Qed.

Lemma zget_bytes_at m p n i :
  0 <= i < Z.of_nat n -> zget (bytes_at m p n) i = Some (byte_of m (p + i)).
Proof.
  intros Hi. unfold zget, bytes_at. rewrite (proj2 (Z.leb_le 0 _)) by lia.
  rewrite list_lookup_fmap, lookup_seq_lt by lia. simpl. unfold byte_of. do 3 f_equal. lia.
Qed.

Lemma length_bytes_at m p n : length (bytes_at m p n) = n.
Proof. unfold bytes_at. by rewrite length_fmap, length_seq. Qed.

Lemma bytes_at_S m p n : bytes_at m p (S n) = byte_of m p :: bytes_at m (p + 1) n.
Proof.
  unfold bytes_at, byte_of. cbn [seq fmap list_fmap]. rewrite Z.add_0_r. f_equal.
  rewrite <- seq_shift. rewrite <- list_fmap_compose. apply list_fmap_ext.
  intros _ x _. unfold compose. do 2 f_equal. lia.
Qed.

Lemma bytes_at_u8 m p n : mem_ok m -> Forall is_u8 (bytes_at m p n).
Proof. intros H. unfold bytes_at. apply Forall_fmap, Forall_true. intros. by apply byte_of_u8. Qed.

Lemma wp_load_bytes Q m a n :
  mapped a (Z.of_nat n) m -> Q (bytes_at m a n) m -> wp (load_bytes n a) Q m.
Proof.
  revert a Q. induction n as [|n IH]; intros a Q Hm HQ; cbn [load_bytes].
  { by wstep. }
  wstep. apply wp_load8; [apply Hm; lia|]. wstep. apply IH.
  { eapply mapped_sub; [done|lia..]. }
  wstep. by rewrite bytes_at_S in HQ.
Qed.

Lemma wp_load64 Q m a : mapped a 8 m -> Q (le_combine (bytes_at m a 8)) m -> wp (load64 a) Q m.
Proof. intros Hm HQ. unfold load64. wstep. apply wp_load_bytes; [done|]. by wstep. Qed.

Lemma wp_store64 Q m a w :
  mapped a 8 m ->
  (forall m', written (fun b => default 0 (zget (le_split 8 w) (b - a))) a 8 m m' -> Q tt m') ->
  wp (store64 a w) Q m.
Proof.
  intros Hm HQ. unfold store64.
  assert (zlen (le_split 8 w) = 8) as Hl by (unfold zlen; by rewrite length_le_split).
  apply wp_store_bytes; rewrite Hl; done.
Qed.

(** * Byte arrays

    A C array is a list; [splice l off src] is [memcpy(l + off, src, n)] into it, which faults
    when it does not fit. *)
Definition splice {A} (l : list A) (off : Z) (src : list A) : option (list A) :=
  if (0 <=? off) && (off + zlen src <=? zlen l)
  then Some (take (Z.to_nat off) l ++ src ++ drop (Z.to_nat (off + zlen src)) l)
  else None.

Section splice.
Context {A : Type}.
Implicit Types (l src : list A).

Lemma splice_in l off src :
  0 <= off -> off + zlen src <= zlen l ->
  splice l off src = Some (take (Z.to_nat off) l ++ src ++ drop (Z.to_nat (off + zlen src)) l).
Proof. intros. unfold splice. by rewrite (proj2 (Z.leb_le 0 off)), (proj2 (Z.leb_le _ _)) by lia. Qed.

Lemma splice_len l off src l' : splice l off src = Some l' -> zlen l' = zlen l.
Proof.
  unfold splice. case_match eqn:E; [|done]. intros [= <-]. unfold zlen in *.
  rewrite !length_app, length_take, length_drop. lia.
Qed.

Lemma zlen_app l1 l2 : zlen (l1 ++ l2) = zlen l1 + zlen l2.
Proof. unfold zlen. rewrite length_app. lia. Qed.

Lemma zget_app_l l1 l2 i : i < zlen l1 -> zget (l1 ++ l2) i = zget l1 i.
Proof.
  intros H. unfold zget, zlen in *. destruct (0 <=? i) eqn:E; [|done].
  apply lookup_app_l. lia.
Qed.

Lemma zget_app_r l1 l2 i : zlen l1 <= i -> zget (l1 ++ l2) i = zget l2 (i - zlen l1).
Proof.
  intros H. unfold zget, zlen in *. rewrite !(proj2 (Z.leb_le 0 _)) by lia.
  rewrite lookup_app_r by lia. f_equal. lia.
Qed.

Lemma zget_splice l off src l' i :
  splice l off src = Some l' ->
  zget l' i = if (off <=? i) && (i <? off + zlen src) then zget src (i - off) else zget l i.
Proof.
  unfold splice. case_match eqn:E; [|done]. intros [= <-].
  apply andb_prop in E as [E0 E1]. apply Z.leb_le in E0, E1.
  destruct (decide (i < 0)) as [Hneg|Hpos].
  { rewrite (proj2 (Z.leb_gt off i)) by lia. unfold zget. by rewrite (proj2 (Z.leb_gt 0 i)). }
  assert (zlen (take (Z.to_nat off) l) = off) as Ht by (unfold zlen in *; rewrite length_take; lia).
  destruct (decide (i < off)).
  { rewrite zget_app_l by lia. rewrite (proj2 (Z.leb_gt off i)) by lia. simpl.
    unfold zget. rewrite (proj2 (Z.leb_le 0 i)) by lia. apply lookup_take_lt. lia. }
  rewrite zget_app_r, Ht by lia. rewrite (proj2 (Z.leb_le off i)) by lia. simpl.
  destruct (i <? off + zlen src) eqn:E2.
  { apply zget_app_l. lia. }
  pose proof (zlen_nonneg src).
  rewrite zget_app_r by lia. unfold zget.
  rewrite (proj2 (Z.leb_le 0 (i - off - zlen src))), (proj2 (Z.leb_le 0 i)) by lia.
  rewrite lookup_drop. f_equal. lia.
Qed.

Lemma splice_mid l1 mid l2 src off :
  off = zlen l1 -> zlen src = zlen mid -> splice (l1 ++ mid ++ l2) off src = Some (l1 ++ src ++ l2).
Proof.
  intros -> Hlen. pose proof (zlen_nonneg l1). pose proof (zlen_nonneg l2).
  rewrite splice_in by (rewrite ?zlen_app; lia). rewrite take_app_length' by (unfold zlen; lia).
  do 3 f_equal. rewrite app_assoc. apply drop_app_length'. rewrite length_app. unfold zlen in *. lia.
Qed.
End splice.
