(* ===== verification/Pmm.v ===== *)
(** Physical memory manager (src/kernel/system/mm/pmm.c).

    The state is pmm.c's four static variables plus the interrupt flag that
    [pmm_lock]/[pmm_unlock] save, clear and restore.  [bitmap] is the byte array
    the C code places at [bitmap_phys]; writing past it faults.  A boot memory map
    is the list of its descriptors ([map + i * desc_size] is entry [i]). *)

From S2P Require Import Prelude Bitmap Interfaces.

Definition PAGE_SIZE : Z := 4096.
Definition BITMAP_ENTRY_SIZE : Z := 8.
Definition EfiConventionalMemory : Z := 7.

Record efi_memory_descriptor := {
  Type_ : Z;
  PhysicalStart : Z;
  VirtualStart : Z;
  NumberOfPages : Z;
  Attribute_ : Z;
}.

Record pmm := mk_pmm {
  bitmap : list Z;
  total_pages : Z;
  used_pages : Z;
  next_free_page : Z;
  intr : bool;            (* EFLAGS.IF *)
}.

Definition set_bitmap (bm : list Z) (s : pmm) : pmm :=
  mk_pmm bm (total_pages s) (used_pages s) (next_free_page s) (intr s).
Definition set_total (n : Z) (s : pmm) : pmm :=
  mk_pmm (bitmap s) n (used_pages s) (next_free_page s) (intr s).
Definition set_used (n : Z) (s : pmm) : pmm :=
  mk_pmm (bitmap s) (total_pages s) n (next_free_page s) (intr s).
Definition set_next (n : Z) (s : pmm) : pmm :=
  mk_pmm (bitmap s) (total_pages s) (used_pages s) n (intr s).
Definition set_intr (b : bool) (s : pmm) : pmm :=
  mk_pmm (bitmap s) (total_pages s) (used_pages s) (next_free_page s) b.

(** * Operations *)

Definition bitmap_set (page : Z) : M pmm unit := fun s =>
  bm ← bm_set (bitmap s) page; Some (tt, set_bitmap bm s).

Definition bitmap_clear (page : Z) : M pmm unit := fun s =>
  bm ← bm_clear (bitmap s) page; Some (tt, set_bitmap bm s).

Definition bitmap_test (page : Z) : M pmm bool := fun s =>
  b ← bm_test (bitmap s) page; Some (b, s).

Definition pmm_lock : M pmm bool := fun s => Some (intr s, set_intr false s).
Definition pmm_unlock (flags : bool) : M pmm unit := modify (set_intr flags).

(** One pass of [pmm_alloc_page] over [lo, hi). *)
Definition alloc_scan (flags : bool) (lo hi : Z) : M pmm (option Z) :=
  for_range lo hi (fun i =>
    t ← bitmap_test i;
    if negb t then
      _ ← bitmap_set i;
      _ ← modify (fun s => set_used (u64 (used_pages s + 1)) s);
      _ ← modify (set_next (i + 1));
      _ ← pmm_unlock flags;
      mret (Some (u64 (i * PAGE_SIZE)))
    else mret None).

Definition pmm_alloc_page : M pmm Z :=
  flags ← pmm_lock;
  s ← get;
  r ← alloc_scan flags (next_free_page s) (total_pages s);
  match r with
  | Some phys => mret phys
  | None =>
      s ← get;
      r ← alloc_scan flags 512 (next_free_page s);
      match r with
      | Some phys => mret phys
      | None => _ ← pmm_unlock flags; mret 0
      end
  end.

(** [for (p = 0; p < n; p++) bitmap_set(start + p)] and its clearing twin. *)
Definition set_run (start n : Z) : M pmm unit :=
  _ ← for_range (R := unit) 0 n (fun p => _ ← bitmap_set (u64 (start + p)); mret None);
  mret tt.

Definition clear_run (start n : Z) : M pmm unit :=
  _ ← for_range (R := unit) 0 n (fun p => _ ← bitmap_clear (u64 (start + p)); mret None);
  mret tt.

Definition pmm_alloc_contiguous_pages (count : Z) : M pmm Z :=
  if count =? 0 then mret 0 else
  flags ← pmm_lock;
  s ← get;
  r ← for_acc 0 (total_pages s) (0, 0) (fun i '(run_start, run_len) =>
        t ← bitmap_test i;
        if negb t then
          let run_start := if run_len =? 0 then i else run_start in
          let run_len := run_len + 1 in
          if run_len =? count then
            _ ← for_range (R := unit) run_start (run_start + count)
                  (fun p => _ ← bitmap_set p; mret None);
            _ ← modify (fun s => set_used (u64 (used_pages s + count)) s);
            _ ← pmm_unlock flags;
            mret (inr (u64 (run_start * PAGE_SIZE)))
          else mret (inl (run_start, run_len))
        else mret (inl (run_start, 0)));
  match r with
  | inr phys => mret phys
  | inl _ => _ ← pmm_unlock flags; mret 0
  end.

Definition pmm_free_page (phys : Z) : M pmm unit :=
  let page := phys / PAGE_SIZE in
  s ← get;
  if total_pages s <=? page then mret tt else
  flags ← pmm_lock;
  t ← bitmap_test page;
  if negb t then pmm_unlock flags else
  _ ← bitmap_clear page;
  _ ← modify (fun s => set_used (u64 (used_pages s - 1)) s);
  pmm_unlock flags.

Definition pmm_get_total_pages : M pmm Z := gets total_pages.
Definition pmm_get_used_pages : M pmm Z := gets used_pages.

(** ** Initialisation *)

Definition max_phys_step (max_phys : Z) (d : efi_memory_descriptor) : Z :=
  if negb (Type_ d =? EfiConventionalMemory) then max_phys else
  let end_ := u64 (PhysicalStart d + u64 (NumberOfPages d * PAGE_SIZE)) in
  if max_phys <? end_ then end_ else max_phys.

Definition find_max_phys (descs : list efi_memory_descriptor) : Z :=
  foldl max_phys_step 0 descs.

Definition count_total_pages (max_phys : Z) : Z :=
  if max_phys mod PAGE_SIZE =? 0 then max_phys / PAGE_SIZE else max_phys / PAGE_SIZE + 1.

Definition compute_bitmap_size (total : Z) : Z :=
  (total + BITMAP_ENTRY_SIZE - 1) / BITMAP_ENTRY_SIZE.

(** One descriptor of the search for the bitmap's place; the accumulator is
    [best_size] with [bitmap_phys] ([None] while [bitmap_found == 0]). *)
Definition bitmap_place_step (kernel_base kernel_end bitmap_size : Z)
    (acc : Z * option Z) (d : efi_memory_descriptor) : Z * option Z :=
  if negb (Type_ d =? EfiConventionalMemory) then acc else
  let block_start := PhysicalStart d in
  let block_size := u64 (NumberOfPages d * PAGE_SIZE) in
  let block_end := u64 (block_start + block_size) in
  if negb ((block_end <=? kernel_base) || (kernel_end <=? block_start)) then acc else
  if (bitmap_size <=? block_size) && (acc.1 <? block_size)
  then (block_size, Some block_start) else acc.

(** The largest conventional block that can hold the bitmap and does not meet the
    kernel. *)
Definition find_bitmap_phys (descs : list efi_memory_descriptor) (kernel_base kernel_size bitmap_size : Z)
    : option Z :=
  let kernel_end := u64 (kernel_base + kernel_size) in
  (foldl (bitmap_place_step kernel_base kernel_end bitmap_size) (0, None) descs).2.

(** The loop that frees every conventional descriptor. *)
Fixpoint release_conventional (descs : list efi_memory_descriptor) : M pmm unit :=
  match descs with
  | [] => mret tt
  | d :: rest =>
      if negb (Type_ d =? EfiConventionalMemory) then release_conventional rest else
      _ ← clear_run (PhysicalStart d / PAGE_SIZE) (NumberOfPages d);
      release_conventional rest
  end.

(** The pages taken out again: low memory, the first 2 MiB, the bitmap itself, the kernel
    image and the optional reserved range. *)
Definition reserve_regions (bitmap_phys bitmap_size kernel_base kernel_size reserved_base reserved_size : Z)
    : M pmm unit :=
  _ ← set_run 0 256;
  _ ← set_run 0 512;
  _ ← set_run (bitmap_phys / PAGE_SIZE) ((bitmap_size + PAGE_SIZE - 1) / PAGE_SIZE);
  _ ← set_run (kernel_base / PAGE_SIZE) (u64 (kernel_size + PAGE_SIZE - 1) / PAGE_SIZE);
  if negb (reserved_base =? 0) && negb (reserved_size =? 0) then
    set_run (reserved_base / PAGE_SIZE) (u64 (reserved_size + PAGE_SIZE - 1) / PAGE_SIZE)
  else mret tt.

(** [used_pages = 0; for (i ...) if (bitmap_test(i)) used_pages++;] *)
Definition count_used : M pmm unit :=
  _ ← modify (set_used 0);
  s ← get;
  _ ← for_range (R := unit) 0 (total_pages s) (fun i =>
        t ← bitmap_test i;
        if (t : bool) then _ ← modify (fun s => set_used (u64 (used_pages s + 1)) s); mret None
        else mret None);
  mret tt.

(** [false]: no place for the bitmap, the kernel halts. *)
Definition pmm_init (descs : list efi_memory_descriptor)
    (kernel_base kernel_size reserved_base reserved_size : Z) : M pmm bool :=
  let total := count_total_pages (find_max_phys descs) in
  _ ← modify (set_total total);
  let bitmap_size := compute_bitmap_size total in
  match find_bitmap_phys descs kernel_base kernel_size bitmap_size with
  | None => mret false
  | Some bitmap_phys =>
      _ ← modify (set_bitmap (replicate (Z.to_nat bitmap_size) 0));
      _ ← set_run 0 total;
      _ ← release_conventional descs;
      _ ← reserve_regions bitmap_phys bitmap_size kernel_base kernel_size reserved_base reserved_size;
      _ ← count_used;
      _ ← modify (set_next 512);
      mret true
  end.

(** * Invariant *)

Definition page_used (s : pmm) (p : Z) : bool := bit (bitmap s) p.

(** The bitmap covers exactly the pages below [total_pages], [used_pages] is the
    number of set bits, pages 0..511 are never free and the watermark stays in
    the allocatable range. *)
Record pmm_wf (s : pmm) : Prop := {
  wf_total : 512 <= total_pages s <= 2 ^ 40;
  wf_len : zlen (bitmap s) = compute_bitmap_size (total_pages s);
  wf_used : used_pages s = countb (page_used s) (Z.to_nat (total_pages s));
  wf_next : 512 <= next_free_page s <= total_pages s;
  wf_low : forall p, 0 <= p < 512 -> page_used s p = true;
}.

(** Marking exactly page [p], keeping the map's shape. *)
Record pmm_marks (p : Z -> bool) (s s' : pmm) : Prop := {
  marks_total : total_pages s' = total_pages s;
  marks_len : zlen (bitmap s') = zlen (bitmap s);
  marks_bits : forall k, page_used s' k = p k || page_used s k;
}.

Lemma bitmap_size_covers total : 0 <= total -> total <= 8 * compute_bitmap_size total.
Proof.
  intros. unfold compute_bitmap_size, BITMAP_ENTRY_SIZE.
  pose proof (Z.div_mod (total + 8 - 1) 8 ltac:(lia)).
  pose proof (Z.mod_pos_bound (total + 8 - 1) 8 ltac:(lia)). lia.
Qed.

Lemma wf_in_bitmap s p : pmm_wf s -> 0 <= p < total_pages s -> 0 <= p < 8 * zlen (bitmap s).
Proof.
  intros Hwf Hp. rewrite (wf_len s Hwf).
  pose proof (bitmap_size_covers (total_pages s) ltac:(lia)). lia.
Qed.

(** * The bit accessors as equations *)

Lemma bitmap_test_run p s : 0 <= p < 8 * zlen (bitmap s) ->
  bitmap_test p s = Some (page_used s p, s).
Proof. intros H. unfold bitmap_test. by rewrite bm_test_bit. Qed.

Lemma bitmap_set_run p s : 0 <= p < 8 * zlen (bitmap s) ->
  exists bm, bitmap_set p s = Some (tt, set_bitmap bm s) /\ zlen bm = zlen (bitmap s) /\
    forall k, bit bm k = (k =? p) || page_used s k.
Proof.
  intros H. destruct (bm_set_spec _ _ H) as (bm & E & Hl & Hb). exists bm.
  unfold bitmap_set. rewrite E. done.
Qed.

Lemma bitmap_clear_run p s : 0 <= p < 8 * zlen (bitmap s) ->
  exists bm, bitmap_clear p s = Some (tt, set_bitmap bm s) /\ zlen bm = zlen (bitmap s) /\
    forall k, bit bm k = negb (k =? p) && page_used s k.
Proof.
  intros H. destruct (bm_clear_spec _ _ H) as (bm & E & Hl & Hb). exists bm.
  unfold bitmap_clear. rewrite E. done.
Qed.

(** * Allocation of one page *)

(** What a successful allocation of page [i] under saved flags [fl] leaves. *)
Definition after_alloc (fl : bool) (i : Z) (s s' : pmm) : Prop :=
  exists bm, s' = mk_pmm bm (total_pages s) (used_pages s + 1) (i + 1) fl /\
    zlen bm = zlen (bitmap s) /\
    forall k, bit bm k = (k =? i) || page_used s k.

Lemma alloc_scan_spec fl lo hi s :
  pmm_wf s -> 512 <= lo -> hi <= total_pages s ->
  wp (alloc_scan fl lo hi) (fun r s' =>
    match r with
    | Some phys => exists i, lo <= i < hi /\ phys = i * PAGE_SIZE /\ page_used s i = false /\
                     (forall j, lo <= j < i -> page_used s j = true) /\ after_alloc fl i s s'
    | None => s' = s /\ forall j, lo <= j < hi -> page_used s j = true
    end) s.
Proof.
  intros Hwf Hlo Hhi.
  pose proof (countb_range (page_used s) (Z.to_nat (total_pages s))).
  pose proof (wf_used s Hwf). pose proof (wf_total s Hwf).
  apply (wp_for_search (fun i => negb (page_used s i))).
  - intros i Hi Hp%negb_false_iff. erewrite bind_Some by (apply bitmap_test_run, wf_in_bitmap; [done|lia]).
    by rewrite Hp.
  - intros i Hi Hp%negb_true_iff Hpre.
    assert (0 <= i < 8 * zlen (bitmap s)) as Hin by (apply wf_in_bitmap; [done|lia]).
    unfold wp. erewrite bind_Some by (by apply bitmap_test_run). rewrite Hp. simpl.
    destruct (bitmap_set_run i s Hin) as (bm & E & Hl & Hb).
    erewrite bind_Some by exact E. cbn.
    exists i. split; [lia|]. split.
    { unfold u64, PAGE_SIZE. apply Z.mod_small. lia. }
    split; [done|]. split.
    { intros j Hj. by apply negb_false_iff, Hpre. }
    exists bm. split; [|done]. unfold set_intr, set_next, set_used, set_bitmap. simpl.
    rewrite u64_small; [done|]. unfold is_u64. lia.
  - intros Hall. split; [done|]. intros j Hj. by apply negb_false_iff, Hall.
Qed.

Lemma after_alloc_wf fl i s s' :
  pmm_wf s -> 512 <= i < total_pages s -> page_used s i = false ->
  after_alloc fl i s s' -> pmm_wf s'.
Proof.
  intros Hwf Hi Hfree (bm & -> & Hl & Hb). destruct Hwf as [Ht Hlen Hu Hn Hlow].
  split; simpl; [done| |..|].
  - congruence.
  - rewrite Hu. symmetry. apply (countb_flip _ _ _ i); unfold page_used; simpl.
    + lia.
    + done.
    + by rewrite Hb, Z.eqb_refl.
    + intros j _ Hj. rewrite Hb. by rewrite (proj2 (Z.eqb_neq j i) Hj).
  - lia.
  - intros p Hp. unfold page_used; simpl. rewrite Hb, Hlow by lia. apply orb_true_r.
Qed.

Lemma set_intr_wf b s : pmm_wf s -> pmm_wf (set_intr b s).
Proof. by intros []. Qed.
#[export] Hint Resolve set_intr_wf : lufira.

(** The outcome of [pmm_alloc_page]: a page that was free, now used and nothing else
    changed; or 0, and then no page at all was free. *)
Definition alloc_outcome (s : pmm) (phys : Z) (s' : pmm) : Prop :=
  (exists i, 512 <= i < total_pages s /\ phys = i * PAGE_SIZE /\ page_used s i = false /\
     after_alloc (intr s) i s s')
  \/ (phys = 0 /\ s' = s /\ forall p, 0 <= p < total_pages s -> page_used s p = true).

Lemma wp_lock Q s : Q (intr s) (set_intr false s) -> wp pmm_lock Q s.
Proof. done. Qed.

Lemma unlock_locked s : set_intr (intr s) (set_intr false s) = s.
Proof. by destruct s. Qed.

Lemma pmm_alloc_page_outcome s :
  pmm_wf s -> wp pmm_alloc_page (fun phys s' => pmm_wf s' /\ alloc_outcome s phys s') s.
Proof.
  intros Hwf. pose proof (wf_next s Hwf) as Hn. pose proof (set_intr_wf false s Hwf) as Hwf0.
  unfold pmm_alloc_page. wstep. apply wp_lock. wsteps.
  eapply wp_mono; [apply (alloc_scan_spec (intr s) _ _ _ Hwf0); simpl; lia|].
  intros [phys|] s1; simpl.
  - intros (i & Hi & -> & Hfree & _ & Haft). wsteps. split.
    + eapply (after_alloc_wf _ i); [exact Hwf0|simpl in *; lia|done|exact Haft].
    + left. exists i. refine (conj _ (conj eq_refl (conj Hfree Haft))). simpl in Hi; lia.
  - intros [-> Hall]. wsteps.
    eapply wp_mono; [apply (alloc_scan_spec (intr s) _ _ _ Hwf0); simpl; lia|].
    intros [phys|] s2; simpl.
    + intros (i & Hi & -> & Hfree & _ & Haft). wsteps. split.
      * eapply (after_alloc_wf _ i); [exact Hwf0|simpl in *; lia|done|exact Haft].
      * left. exists i. refine (conj _ (conj eq_refl (conj Hfree Haft))). simpl in Hi; lia.
    + intros [-> Hall']. wstep. apply wp_modify. wsteps. rewrite unlock_locked. split; [done|].
      right. split; [done|]. split; [done|]. intros p Hp.
      destruct (decide (p < 512)); [apply (wf_low _ Hwf); lia|].
      destruct (decide (p < next_free_page s)); [apply Hall'; lia|apply Hall; lia].
Qed.

Lemma page_used_set bm s k : page_used (set_bitmap bm s) k = bit bm k.
Proof. done. Qed.

(** * Runs of pages *)

(** A loop that sets the bits [base + i] for [lo <= i < hi], whatever expression
    [g] the code indexes with. *)
Lemma mark_loop_spec (g : Z -> Z) base lo hi s :
  lo <= hi -> (forall i, lo <= i < hi -> g i = base + i) ->
  0 <= base + lo -> base + hi <= 8 * zlen (bitmap s) ->
  wp (for_range (R := unit) lo hi (fun p => _ ← bitmap_set (g p); mret None))
     (fun _ s' => exists bm, s' = set_bitmap bm s /\ zlen bm = zlen (bitmap s) /\
        forall k, bit bm k = ((base + lo <=? k) && (k <? base + hi)) || page_used s k) s.
Proof.
  intros Hle Hg Hs Hb.
  apply (wp_for_range (fun i s' => exists bm, s' = set_bitmap bm s /\ zlen bm = zlen (bitmap s) /\
     forall k, bit bm k = ((base + lo <=? k) && (k <? base + i)) || page_used s k)).
  - exists (bitmap s). split; [by destruct s|]. split; [done|]. intros k.
    by replace ((base + lo <=? k) && (k <? base + lo)) with false by lia.
  - done.
  - intros i ? Hi (bm & -> & Hl & Hbm). rewrite Hg by done.
    destruct (bitmap_set_run (base + i) (set_bitmap bm s)) as (bm' & E & Hl' & Hbm').
    { simpl. lia. }
    unfold wp. erewrite bind_Some by exact E. exists bm'. split; [done|].
    split; [simpl in Hl'; lia|]. intros k. rewrite Hbm', page_used_set, Hbm.
    destruct (page_used s k); [by rewrite !orb_true_r|]. rewrite !orb_false_r. lia.
  - done.
Qed.

Lemma set_run_spec start n s :
  0 <= start -> 0 <= n -> start + n <= 8 * zlen (bitmap s) -> start + n <= 2 ^ 64 ->
  wp (set_run start n) (fun _ s' => exists bm, s' = set_bitmap bm s /\ zlen bm = zlen (bitmap s) /\
     forall k, bit bm k = ((start <=? k) && (k <? start + n)) || page_used s k) s.
Proof.
  intros Hs Hn Hb H64. unfold set_run. wstep.
  eapply wp_mono; [apply (mark_loop_spec _ start)|].
  - done.
  - intros. apply u64_small. unfold is_u64. lia.
  - lia.
  - done.
  - intros _ s' (bm & -> & Hl & Hbm). wstep. exists bm. by rewrite Z.add_0_r in Hbm.
Qed.

Lemma clear_run_spec start n s :
  0 <= start -> 0 <= n -> start + n <= 8 * zlen (bitmap s) -> start + n <= 2 ^ 64 ->
  wp (clear_run start n) (fun _ s' => exists bm, s' = set_bitmap bm s /\ zlen bm = zlen (bitmap s) /\
     forall k, bit bm k = negb ((start <=? k) && (k <? start + n)) && page_used s k) s.
Proof.
  intros Hs Hn Hb H64. unfold clear_run. wstep.
  apply (wp_for_range (fun i s' => exists bm, s' = set_bitmap bm s /\ zlen bm = zlen (bitmap s) /\
     forall k, bit bm k = negb ((start <=? k) && (k <? start + i)) && page_used s k)).
  - exists (bitmap s). split; [by destruct s|]. split; [done|]. intros k.
    by replace ((start <=? k) && (k <? start + 0)) with false by lia.
  - done.
  - intros i ? Hi (bm & -> & Hl & Hbm). rewrite u64_small by (unfold is_u64; lia).
    destruct (bitmap_clear_run (start + i) (set_bitmap bm s)) as (bm' & E & Hl' & Hbm').
    { simpl. lia. }
    unfold wp. erewrite bind_Some by exact E. exists bm'. split; [done|].
    split; [simpl in Hl'; lia|]. intros k. rewrite Hbm', page_used_set, Hbm.
    destruct (page_used s k); [|by rewrite !andb_false_r]. rewrite !andb_true_r. lia.
  - intros s' (bm & -> & Hl & Hbm). wstep. by exists bm.
Qed.

(** Setting a run of [n] free pages raises the count by [n]. *)
Lemma countb_run f g n start len : 0 <= start -> 0 <= len -> start + len <= Z.of_nat n ->
  (forall k, start <= k < start + len -> f k = false) ->
  (forall k, 0 <= k < Z.of_nat n -> g k = ((start <=? k) && (k <? start + len)) || f k) ->
  countb g n = countb f n + len.
Proof.
  intros Hs Hl. revert len Hl g. refine (natlike_ind _ _ _).
  - intros g Hn Hf Hg. rewrite Z.add_0_r. apply countb_ext. intros j Hj. rewrite Hg by done.
    by replace ((start <=? j) && (j <? start + 0)) with false by lia.
  - intros len Hlen IH g Hn Hf Hg.
    set (h := fun k => ((start <=? k) && (k <? start + len)) || f k).
    rewrite (countb_flip h g n (start + len)).
    + rewrite (IH h); [lia|lia| |done]. intros k Hk. apply Hf. lia.
    + lia.
    + unfold h. rewrite Hf by lia. lia.
    + rewrite Hg, Hf by lia. unfold Z.succ. lia.
    + intros j Hj Hne. rewrite Hg by lia. unfold h, Z.succ. f_equal. lia.
Qed.

(** * Contiguous allocation *)

Definition free_run (s : pmm) (start n : Z) : Prop :=
  0 <= start /\ start + n <= total_pages s /\ forall k, start <= k < start + n -> page_used s k = false.

(** Locals of the search at page [i]: the current run ends at [i], is maximal on
    its left, and no run of [count] pages ends at or before [i]. *)
Record run_inv (s : pmm) (count i : Z) (acc : Z * Z) : Prop := {
  run_bounds : 0 <= acc.2 <= i /\ acc.2 < count;
  run_start_ok : acc.2 <> 0 -> acc.1 = i - acc.2;
  run_free : forall k, i - acc.2 <= k < i -> page_used s k = false;
  run_left : i - acc.2 = 0 \/ page_used s (i - acc.2 - 1) = true;
  run_none : forall start, start + count <= i -> ~ free_run s start count;
}.

Lemma run_inv_used s count i acc : 0 <= i -> page_used s i = true -> run_inv s count i acc ->
  run_inv s count (i + 1) (acc.1, 0).
Proof.
  intros Hi Hu []. split; simpl; try lia.
  - right. by replace (i + 1 - 0 - 1) with i by lia.
  - intros start Hst Hrun. destruct (decide (start + count <= i)) as [|]; [by eapply run_none0|].
    destruct Hrun as (_ & _ & Hf). rewrite Hf in Hu by lia. done.
Qed.

Lemma run_inv_free s count i acc : 0 <= i -> page_used s i = false -> run_inv s count i acc ->
  acc.2 + 1 <> count ->
  run_inv s count (i + 1) (if acc.2 =? 0 then i else acc.1, acc.2 + 1).
Proof.
  intros Hi Hu [Hb Hst Hf Hl Hn] Hc. split; simpl; try lia.
  - intros _. destruct (Z.eqb_spec acc.2 0); [lia|]. rewrite Hst; lia.
  - intros k Hk. destruct (decide (k = i)) as [->|]; [done|]. apply Hf; lia.
  - destruct Hl as [Hl|Hl]; [left; lia|right].
    by replace (i + 1 - (acc.2 + 1) - 1) with (i - acc.2 - 1) by lia.
  - intros start Hs Hrun. destruct (decide (start + count <= i)) as [|]; [by eapply Hn|].
    destruct Hrun as (H0 & _ & Hfr). destruct Hl as [Hl|Hl]; [lia|].
    rewrite Hfr in Hl by lia. done.
Qed.

(** A run of [count] pages starting at [start], the lowest one, is now used. *)
Definition contiguous_hit (s : pmm) (count phys : Z) (s' : pmm) : Prop :=
  exists start bm, phys = start * PAGE_SIZE /\ free_run s start count /\
    (forall st, st < start -> ~ free_run s st count) /\
    s' = mk_pmm bm (total_pages s) (used_pages s + count) (next_free_page s) (intr s) /\
    zlen bm = zlen (bitmap s) /\
    forall k, bit bm k = ((start <=? k) && (k <? start + count)) || page_used s k.

Lemma contiguous_hit_wf s count phys s' :
  0 < count -> pmm_wf s -> contiguous_hit s count phys s' -> pmm_wf s'.
Proof.
  intros Hc [Ht Hlen Hu Hn Hlow] (start & bm & _ & (H0 & Hend & Hfree) & _ & -> & Hl & Hb).
  split; simpl; [done|congruence| |done|].
  - rewrite Hu. symmetry. apply (countb_run _ _ _ start count); [lia..|done|].
    intros k _. apply Hb.
  - intros p Hp. unfold page_used; simpl. rewrite Hb, Hlow by lia. apply orb_true_r.
Qed.

(** The iteration that completes a run at page [i]. *)
Lemma contiguous_take s count i acc :
  pmm_wf s -> 0 <= i < total_pages s -> 0 < count < 2 ^ 32 -> page_used s i = false ->
  run_inv s count i acc -> acc.2 + 1 = count ->
  wp (_ ← for_range (R := unit) (if acc.2 =? 0 then i else acc.1)
           ((if acc.2 =? 0 then i else acc.1) + count) (fun p => _ ← bitmap_set p; mret None);
      _ ← modify (fun s => set_used (u64 (used_pages s + count)) s);
      _ ← pmm_unlock (intr s);
      mret (inr (u64 ((if acc.2 =? 0 then i else acc.1) * PAGE_SIZE))))
     (fun (r : (Z * Z) + Z) s' => match r with inl _ => False | inr phys => contiguous_hit s count phys s' end)
     (set_intr false s).
Proof.
  intros Hwf Hi Hc Hfree [Hb Hst Hf Hl Hn] Hlen.
  pose proof (wf_total s Hwf) as Ht. pose proof (countb_range (page_used s) (Z.to_nat (total_pages s))).
  pose proof (wf_used s Hwf).
  replace (if acc.2 =? 0 then i else acc.1) with (i + 1 - count)
    by (destruct (Z.eqb_spec acc.2 0); lia).
  wstep. eapply wp_mono; [apply (mark_loop_spec _ 0)|].
  - lia.
  - intros; lia.
  - lia.
  - simpl. pose proof (wf_in_bitmap s i Hwf Hi). lia.
  - intros _ s' (bm & -> & Hlb & Hbm). wsteps. apply wp_modify. wstep.
    exists (i + 1 - count), bm. split.
    { apply u64_small. unfold is_u64, PAGE_SIZE. lia. }
    split.
    { split; [lia|]. split; [lia|]. intros k Hk. destruct (decide (k = i)) as [->|]; [done|]. apply Hf; lia. }
    split.
    { intros st Hst'. apply Hn. lia. }
    split.
    { simpl. unfold set_intr, set_used, set_bitmap; simpl. rewrite u64_small; [done|]. unfold is_u64. lia. }
    split; [done|]. intros k. rewrite Hbm. done.
Qed.

Lemma pmm_alloc_contiguous_outcome s count :
  pmm_wf s -> 0 < count < 2 ^ 32 ->
  wp (pmm_alloc_contiguous_pages count) (fun phys s' => pmm_wf s' /\
     (contiguous_hit s count phys s' \/
      (phys = 0 /\ s' = s /\ forall start, ~ free_run s start count))) s.
Proof.
  intros Hwf Hc. pose proof (wf_total s Hwf) as Ht. unfold pmm_alloc_contiguous_pages.
  rewrite (proj2 (Z.eqb_neq count 0)) by lia. wstep. apply wp_lock. wsteps. simpl.
  apply (wp_for_acc (fun i acc s' => s' = set_intr false s /\ run_inv s count i acc)).
  - split; [done|]. split; simpl; try lia. intros start Hs (H0 & _). lia.
  - lia.
  - intros i [rs rl] ? Hi [-> Hinv].
    assert (0 <= i < 8 * zlen (bitmap s)) by (apply wf_in_bitmap; [done|lia]).
    unfold wp at 1. erewrite bind_Some by (by apply bitmap_test_run).
    change (page_used (set_intr false s) i) with (page_used s i).
    destruct (page_used s i) eqn:Hu; cbn [negb]; cbv beta iota.
    + split; [done|]. by apply (run_inv_used _ _ _ (rs, rl)); [lia| |].
    + destruct (Z.eqb_spec (rl + 1) count) as [Hlen|Hne].
      * eapply wp_mono; [apply (contiguous_take s count i (rs, rl)); [done|lia..|done|done|done]|].
        intros [?|phys] s'; [done|]. intros Hhit. wstep.
        split; [by eapply contiguous_hit_wf; [|exact Hwf|exact Hhit]; lia|by left].
      * split; [done|]. apply (run_inv_free _ _ _ (rs, rl)); [lia|done..].
  - intros [rs rl] ? [-> Hinv]. wstep. apply wp_modify. wstep. rewrite unlock_locked.
    split; [done|]. right. split; [done|]. split; [done|]. intros start Hrun.
    eapply (run_none _ _ _ _ Hinv start); [|exact Hrun]. by destruct Hrun as (_ & ? & _).
Qed.

(** * Release *)

Lemma pmm_free_page_outcome s phys :
  pmm_wf s -> 0 <= phys ->
  wp (pmm_free_page phys) (fun _ s' =>
    if (phys / PAGE_SIZE <? total_pages s) && page_used s (phys / PAGE_SIZE) then
      exists bm, s' = mk_pmm bm (total_pages s) (used_pages s - 1) (next_free_page s) (intr s) /\
        zlen bm = zlen (bitmap s) /\
        forall k, bit bm k = negb (k =? phys / PAGE_SIZE) && page_used s k
    else s' = s) s.
Proof.
  intros Hwf Hp. set (page := phys / PAGE_SIZE).
  assert (0 <= page) by (apply Z.div_pos; unfold PAGE_SIZE; lia).
  pose proof (wf_total s Hwf). pose proof (countb_range (page_used s) (Z.to_nat (total_pages s))).
  pose proof (wf_used s Hwf).
  unfold pmm_free_page. fold page. wsteps.
  destruct (Z.leb_spec (total_pages s) page) as [Hge|Hlt].
  { rewrite (proj2 (Z.ltb_ge page _)) by lia. by wstep. }
  rewrite (proj2 (Z.ltb_lt page _)) by lia. wstep. apply wp_lock.
  assert (0 <= page < 8 * zlen (bitmap s)) as Hin by (apply wf_in_bitmap; [done|lia]).
  unfold wp at 1. erewrite bind_Some by (by apply bitmap_test_run).
  change (page_used (set_intr false s) page) with (page_used s page).
  destruct (page_used s page) eqn:Hu; cbn [negb]; cbv beta iota.
  - destruct (bitmap_clear_run page (set_intr false s) Hin) as (bm & E & Hl & Hb).
    erewrite bind_Some by exact E. cbn. exists bm. split; [|done].
    unfold set_intr, set_used, set_bitmap; simpl. rewrite u64_small; [done|]. unfold is_u64.
    pose proof (countb_pos (page_used s) (Z.to_nat (total_pages s)) page ltac:(lia) Hu). lia.
  - unfold pmm_unlock, modify. by rewrite unlock_locked.
Qed.

(** * Initialisation from the boot memory map *)

Definition conv (d : efi_memory_descriptor) : bool := Type_ d =? EfiConventionalMemory.
Definition desc_end (d : efi_memory_descriptor) : Z := PhysicalStart d + NumberOfPages d * PAGE_SIZE.

(** Firmware guarantees: conventional ranges are page aligned and lie in the
    52-bit physical address space of the architecture. *)
Definition desc_ok (d : efi_memory_descriptor) : Prop :=
  conv d = true -> 0 <= PhysicalStart d /\ PhysicalStart d mod PAGE_SIZE = 0 /\
    0 <= NumberOfPages d /\ desc_end d <= 2 ^ 52.

Definition in_pages (start n k : Z) : bool := (start <=? k) && (k <? start + n).
Definition in_desc (k : Z) (d : efi_memory_descriptor) : bool :=
  conv d && in_pages (PhysicalStart d / PAGE_SIZE) (NumberOfPages d) k.

Lemma desc_ok_u64 d : desc_ok d -> conv d = true ->
  u64 (NumberOfPages d * PAGE_SIZE) = NumberOfPages d * PAGE_SIZE /\
  u64 (PhysicalStart d + u64 (NumberOfPages d * PAGE_SIZE)) = desc_end d.
Proof.
  intros Hok Hc. destruct (Hok Hc) as (H0 & _ & Hn & He). unfold desc_end, PAGE_SIZE in *.
  rewrite (u64_small (NumberOfPages d * 4096)) by (unfold is_u64; lia).
  split; [done|]. apply u64_small. unfold is_u64. lia.
Qed.

(** [find_max_phys] bounds the end of every conventional range and is 0 or attained. *)
Lemma find_max_phys_spec descs : Forall desc_ok descs ->
  0 <= find_max_phys descs <= 2 ^ 52 /\
  forall d, d ∈ descs -> conv d = true -> desc_end d <= find_max_phys descs.
Proof.
  intros Hok. unfold find_max_phys.
  assert (forall m, 0 <= m <= 2 ^ 52 -> let r := foldl max_phys_step m descs in
    m <= r <= 2 ^ 52 /\ forall d, d ∈ descs -> conv d = true -> desc_end d <= r) as Hgen;
    [|destruct (Hgen 0 ltac:(lia)); split; [lia|done]].
  induction Hok as [|d descs Hd Hok IH]; intros m Hm; simpl.
  { split; [lia|]. intros d Hd. by apply elem_of_nil in Hd. }
  set (m' := max_phys_step m d).
  assert (m <= m' <= 2 ^ 52 /\ (conv d = true -> desc_end d <= m')) as [Hm' Hcd].
  { unfold m', max_phys_step. change (Type_ d =? EfiConventionalMemory) with (conv d).
    destruct (conv d) eqn:Hc; simpl; [|split; [lia|done]].
    destruct (desc_ok_u64 d Hd Hc) as [_ ->]. destruct (Hd Hc) as (? & _ & ? & ?).
    destruct (Z.ltb_spec m (desc_end d)); split; intros; lia. }
  destruct (IH m' ltac:(lia)) as [Hr Hrest]. split; [lia|].
  intros e [->|He]%elem_of_cons Hce; [specialize (Hcd Hce); lia|by apply Hrest].
Qed.

(** The block chosen for the bitmap is conventional, large enough and disjoint from
    the kernel image. *)
Lemma find_bitmap_phys_spec descs kb ks bs b : Forall desc_ok descs ->
  find_bitmap_phys descs kb ks bs = Some b ->
  exists d, d ∈ descs /\ conv d = true /\ b = PhysicalStart d /\
    bs <= NumberOfPages d * PAGE_SIZE /\ (desc_end d <= kb \/ u64 (kb + ks) <= PhysicalStart d).
Proof.
  intros Hok. unfold find_bitmap_phys.
  set (good b := exists d, d ∈ descs /\ conv d = true /\ b = PhysicalStart d /\
    bs <= NumberOfPages d * PAGE_SIZE /\ (desc_end d <= kb \/ u64 (kb + ks) <= PhysicalStart d)).
  assert (forall ds acc, (forall d, d ∈ ds -> d ∈ descs) ->
    (forall b, acc.2 = Some b -> good b) -> forall b, (foldl (bitmap_place_step kb (u64 (kb + ks)) bs) acc ds).2 = Some b -> good b) as Hgen;
    [|apply Hgen; [done|by simpl]].
  intros ds. induction ds as [|d ds IH]; intros [best found] Hin Hacc b'; [apply Hacc|].
  simpl. apply IH; [set_solver|]. intros b''. unfold bitmap_place_step.
  change (Type_ d =? EfiConventionalMemory) with (conv d).
  destruct (conv d) eqn:Hc; simpl; [|apply Hacc].
  assert (d ∈ descs) as Hd by set_solver.
  destruct (desc_ok_u64 d (proj1 (Forall_forall _ _) Hok d Hd) Hc) as [Hsz Hend].
  rewrite Hend, Hsz.
  destruct (negb _) eqn:Hov; [apply Hacc|]. destruct (_ && _) eqn:Hfit; [|apply Hacc].
  simpl. intros [= <-]. exists d. repeat split; [done..|lia|lia].
Qed.

Lemma release_conventional_spec descs s :
  Forall desc_ok descs -> zlen (bitmap s) <= 2 ^ 56 ->
  (forall d, d ∈ descs -> conv d = true ->
     PhysicalStart d / PAGE_SIZE + NumberOfPages d <= 8 * zlen (bitmap s)) ->
  wp (release_conventional descs) (fun _ s' => exists bm, s' = set_bitmap bm s /\
     zlen bm = zlen (bitmap s) /\ forall k, bit bm k = negb (existsb (in_desc k) descs) && page_used s k) s.
Proof.
  intros Hok. revert s. induction Hok as [|d descs Hd Hok IH]; intros s H56 Hend; simpl.
  { wstep. exists (bitmap s). by destruct s. }
  change (Type_ d =? EfiConventionalMemory) with (conv d). unfold in_desc at 1.
  destruct (conv d) eqn:Hc; cbn [negb].
  - destruct (Hd Hc) as (H0 & _ & Hn & _).
    assert (0 <= PhysicalStart d / PAGE_SIZE) by (apply Z.div_pos; unfold PAGE_SIZE; lia).
    specialize (Hend d ltac:(set_solver) Hc) as Hde.
    wstep. eapply wp_mono; [apply clear_run_spec; lia|].
    intros _ s1 (bm & -> & Hl & Hb). eapply wp_mono.
    { apply IH; simpl; rewrite Hl; [done|]. intros; apply Hend; [set_solver|done]. }
    intros _ s2 (bm2 & -> & Hl2 & Hb2). exists bm2. split; [done|]. split; [simpl in Hl2; lia|].
    intros k. rewrite Hb2, page_used_set, Hb. unfold in_pages. rewrite negb_orb. simpl.
    rewrite (andb_comm (negb (_ && _)) (negb (existsb _ _))). by rewrite andb_assoc.
  - apply IH; [done|]. intros; apply Hend; [set_solver|done].
Qed.

Lemma count_used_spec s : 0 <= total_pages s < 2 ^ 60 -> total_pages s <= 8 * zlen (bitmap s) ->
  wp count_used (fun _ s' =>
    s' = set_used (countb (page_used s) (Z.to_nat (total_pages s))) s) s.
Proof.
  intros Ht Hb. unfold count_used. wsteps.
  apply (wp_for_range (fun i s' => s' = set_used (countb (page_used s) (Z.to_nat i)) s)).
  - done.
  - simpl. lia.
  - intros i ? Hi ->. simpl in Hi. unfold wp.
    erewrite bind_Some by (apply bitmap_test_run; simpl; lia).
    change (page_used (set_used _ s) i) with (page_used s i).
    replace (Z.to_nat (i + 1)) with (S (Z.to_nat i)) by lia. simpl countb. rewrite Z2Nat.id by lia.
    pose proof (countb_range (page_used s) (Z.to_nat i)).
    destruct (page_used s i); cbn; [|by rewrite Z.add_0_r].
    unfold set_used at 1; simpl. rewrite u64_small; [done|unfold is_u64; lia].
  - intros ? ->. by wstep.
Qed.

(** What the boot code must hand over for the bitmap to cover everything that gets
    marked: well-formed descriptors, at least 2 MiB of memory, and kernel and
    reserved ranges inside the managed memory. *)
Definition range_managed (total base size : Z) : Prop :=
  0 <= base /\ 0 <= size /\ size + PAGE_SIZE - 1 < 2 ^ 64 /\
  base / PAGE_SIZE + (size + PAGE_SIZE - 1) / PAGE_SIZE <= total.

Record boot_ok (descs : list efi_memory_descriptor) (kb ks rb rs : Z) : Prop := {
  boot_descs : Forall desc_ok descs;
  boot_total : 512 <= count_total_pages (find_max_phys descs);
  boot_kernel : range_managed (count_total_pages (find_max_phys descs)) kb ks;
  boot_reserved : rb = 0 \/ rs = 0 \/ range_managed (count_total_pages (find_max_phys descs)) rb rs;
}.

Lemma count_total_bounds m : 0 <= m <= 2 ^ 52 ->
  0 <= count_total_pages m <= 2 ^ 40 /\ m <= count_total_pages m * PAGE_SIZE.
Proof.
  intros Hm. unfold count_total_pages, PAGE_SIZE. pose proof (Z.div_mod m 4096 ltac:(lia)).
  pose proof (Z.mod_pos_bound m 4096 ltac:(lia)). destruct (Z.eqb_spec (m mod 4096) 0); lia.
Qed.

Lemma desc_pages_managed descs d : Forall desc_ok descs -> d ∈ descs -> conv d = true ->
  0 <= PhysicalStart d / PAGE_SIZE /\
  PhysicalStart d / PAGE_SIZE + NumberOfPages d <= count_total_pages (find_max_phys descs).
Proof.
  intros Hok Hd Hc. destruct (find_max_phys_spec _ Hok) as [Hm Hmax]. specialize (Hmax d Hd Hc).
  destruct (proj1 (Forall_forall _ _) Hok d Hd Hc) as (H0 & Ha & Hn & _).
  pose proof (count_total_bounds _ Hm) as [_ Ht]. unfold desc_end, PAGE_SIZE in *.
  pose proof (Z.div_mod (PhysicalStart d) 4096 ltac:(lia)). lia.
Qed.

Lemma ceil_pages_le n pages : n <= pages * PAGE_SIZE -> (n + PAGE_SIZE - 1) / PAGE_SIZE <= pages.
Proof.
  unfold PAGE_SIZE. intros. pose proof (Z.div_mod (n + 4096 - 1) 4096 ltac:(lia)).
  pose proof (Z.mod_pos_bound (n + 4096 - 1) 4096 ltac:(lia)). lia.
Qed.

Lemma bitmap_size_bounds total : 0 <= total <= 2 ^ 40 ->
  0 <= compute_bitmap_size total <= 2 ^ 50 /\ total <= 8 * compute_bitmap_size total.
Proof.
  intros H. pose proof (bitmap_size_covers total ltac:(lia)).
  unfold compute_bitmap_size, BITMAP_ENTRY_SIZE in *.
  pose proof (Z.div_mod (total + 8 - 1) 8 ltac:(lia)).
  pose proof (Z.mod_pos_bound (total + 8 - 1) 8 ltac:(lia)). lia.
Qed.

(** The page is not conventional memory, or lies in one of the reserved ranges. *)
Definition init_used descs kb ks rb rs (bitmap_phys bitmap_size k : Z) : bool :=
  negb (existsb (in_desc k) descs) || (k <? 512)
  || in_pages (bitmap_phys / PAGE_SIZE) ((bitmap_size + PAGE_SIZE - 1) / PAGE_SIZE) k
  || in_pages (kb / PAGE_SIZE) ((ks + PAGE_SIZE - 1) / PAGE_SIZE) k
  || (negb (rb =? 0) && negb (rs =? 0) && in_pages (rb / PAGE_SIZE) ((rs + PAGE_SIZE - 1) / PAGE_SIZE) k).

(** The optional reserved range of the last marking step. *)
Lemma reserve_spec rb rs total s :
  rb = 0 \/ rs = 0 \/ range_managed total rb rs -> total <= 8 * zlen (bitmap s) -> total <= 2 ^ 40 ->
  wp (if negb (rb =? 0) && negb (rs =? 0)
      then set_run (rb / PAGE_SIZE) (u64 (rs + PAGE_SIZE - 1) / PAGE_SIZE) else mret tt)
   (fun _ s' => exists bm, s' = set_bitmap bm s /\ zlen bm = zlen (bitmap s) /\
     forall k, bit bm k = (negb (rb =? 0) && negb (rs =? 0) &&
       in_pages (rb / PAGE_SIZE) ((rs + PAGE_SIZE - 1) / PAGE_SIZE) k) || page_used s k) s.
Proof.
  intros Hr Hb Ht. destruct (negb (rb =? 0) && negb (rs =? 0)) eqn:E.
  - destruct Hr as [->|[->|(H0 & H1 & H2 & H3)]]; [simpl in E; lia|simpl in E; lia|].
    assert (0 <= rb / PAGE_SIZE) by (apply Z.div_pos; unfold PAGE_SIZE; lia).
    assert (0 <= (rs + PAGE_SIZE - 1) / PAGE_SIZE) by (apply Z.div_pos; unfold PAGE_SIZE; lia).
    rewrite u64_small by (unfold is_u64, PAGE_SIZE in *; lia). apply set_run_spec; lia.
  - wstep. exists (bitmap s). by destruct s.
Qed.

(** The marking steps, composed on one bit. *)
Lemma init_bits total descs kb ks rb rs bp bs k (z : bool) :
  0 <= k < total ->
  (negb (rb =? 0) && negb (rs =? 0) && in_pages (rb / PAGE_SIZE) ((rs + PAGE_SIZE - 1) / PAGE_SIZE) k
   || (in_pages (kb / PAGE_SIZE) ((ks + PAGE_SIZE - 1) / PAGE_SIZE) k
   || (in_pages (bp / PAGE_SIZE) ((bs + PAGE_SIZE - 1) / PAGE_SIZE) k
   || (in_pages 0 512 k || (in_pages 0 256 k
   || negb (existsb (in_desc k) descs) && (in_pages 0 total k || z))))))
  = init_used descs kb ks rb rs bp bs k.
Proof.
  intros Hk. unfold init_used.
  assert (in_pages 0 total k = true) as -> by (unfold in_pages; lia).
  assert (in_pages 0 512 k || in_pages 0 256 k = (k <? 512)) as <- by (unfold in_pages; lia).
  by repeat match goal with |- context [in_pages ?a ?b k] => destruct (in_pages a b k) end;
    destruct (existsb (in_desc k) descs), (rb =? 0), (rs =? 0).
Qed.

Lemma pmm_init_outcome descs kb ks rb rs s :
  boot_ok descs kb ks rb rs ->
  let total := count_total_pages (find_max_phys descs) in
  let bs := compute_bitmap_size total in
  wp (pmm_init descs kb ks rb rs) (fun ok s' =>
    match find_bitmap_phys descs kb ks bs with
    | None => ok = false
    | Some bp => ok = true /\ pmm_wf s' /\ intr s' = intr s /\ total_pages s' = total /\
        forall k, 0 <= k < total -> page_used s' k = init_used descs kb ks rb rs bp bs k
    end) s.
Proof.
  intros [Hok Htot (Hk0 & Hk1 & Hk2 & Hk3) Hres] total bs. fold total in Htot, Hk3, Hres.
  destruct (find_max_phys_spec _ Hok) as [Hm _]. pose proof (count_total_bounds _ Hm) as [Hmax _].
  fold total in Hmax. destruct (bitmap_size_bounds total Hmax) as [Hbs Hcov]. fold bs in Hbs, Hcov.
  unfold pmm_init. fold total bs. wstep. wstep.
  destruct (find_bitmap_phys descs kb ks bs) as [bp|] eqn:Hbp; [|by wstep].
  destruct (find_bitmap_phys_spec _ _ _ _ _ Hok Hbp) as (d & Hd & Hc & -> & Hfit & _).
  destruct (desc_pages_managed _ _ Hok Hd Hc) as [Hd0 Hd1].
  pose proof (ceil_pages_le _ _ Hfit) as Hcl. fold total in Hd1.
  wsteps. set (s1 := set_bitmap _ (set_total total s)).
  assert (zlen (bitmap s1) = bs) as Hl1 by (unfold s1, zlen; simpl; rewrite length_replicate; lia).
  eapply wp_mono; [apply set_run_spec; lia|]. intros _ s2 (bm2 & -> & Hl2 & Hb2). wstep.
  eapply wp_mono.
  { apply release_conventional_spec; [done|simpl; lia|].
    intros e He Hce. destruct (desc_pages_managed _ _ Hok He Hce) as [_ He1]. simpl. lia. }
  intros _ s3 (bm3 & -> & Hl3 & Hb3). simpl in Hl3.
  wstep. unfold reserve_regions.
  wstep. eapply wp_mono; [apply set_run_spec; simpl; lia|]. intros _ s4 (bm4 & -> & Hl4 & Hb4).
  wstep. eapply wp_mono; [apply set_run_spec; simpl in *; lia|]. intros _ s5 (bm5 & -> & Hl5 & Hb5).
  assert (0 <= (bs + PAGE_SIZE - 1) / PAGE_SIZE) by (apply Z.div_pos; unfold PAGE_SIZE; lia).
  wstep. eapply wp_mono; [apply set_run_spec; simpl in *; lia|]. intros _ s6 (bm6 & -> & Hl6 & Hb6).
  assert (0 <= kb / PAGE_SIZE) by (apply Z.div_pos; unfold PAGE_SIZE; lia).
  assert (0 <= (ks + PAGE_SIZE - 1) / PAGE_SIZE) by (apply Z.div_pos; unfold PAGE_SIZE in *; lia).
  rewrite (u64_small (ks + PAGE_SIZE - 1)) by (unfold is_u64, PAGE_SIZE in *; lia).
  wstep. eapply wp_mono; [apply set_run_spec; simpl in *; lia|]. intros _ s7 (bm7 & -> & Hl7 & Hb7).
  eapply wp_mono; [apply (reserve_spec _ _ total); [done|simpl in *; lia|lia]|].
  intros _ s8 (bm8 & -> & Hl8 & Hb8).
  wstep. eapply wp_mono; [apply count_used_spec; simpl in *; lia|]. intros _ s9 ->. wsteps.
  assert (forall k, 0 <= k < total -> bit bm8 k = init_used descs kb ks rb rs (PhysicalStart d) bs k) as Hbits.
  { intros k Hk. rewrite Hb8, page_used_set, Hb7, page_used_set, Hb6, page_used_set, Hb5,
      page_used_set, Hb4, page_used_set, Hb3, page_used_set, Hb2.
    apply init_bits; lia. }
  simpl in *. split; [done|]. split; [|by repeat split; auto].
  split; simpl; [lia|lia|done|lia|].
  intros p Hp. unfold page_used; simpl. rewrite Hbits by lia. unfold init_used.
  rewrite (proj2 (Z.ltb_lt p 512)) by lia. by rewrite orb_true_r.
Qed.

Lemma free_outcome_wf s phys s' : pmm_wf s -> 512 <= phys / PAGE_SIZE ->
  (if (phys / PAGE_SIZE <? total_pages s) && page_used s (phys / PAGE_SIZE) then
      exists bm, s' = mk_pmm bm (total_pages s) (used_pages s - 1) (next_free_page s) (intr s) /\
        zlen bm = zlen (bitmap s) /\
        forall k, bit bm k = negb (k =? phys / PAGE_SIZE) && page_used s k
    else s' = s) -> pmm_wf s'.
Proof.
  intros Hwf Hp. destruct (_ && _) eqn:E; [|by intros ->].
  apply andb_true_iff in E as [E1 E2]. intros (bm & -> & Hl & Hb).
  destruct Hwf as [Ht Hlen Hu Hn Hlow]. split; simpl; [done|congruence| |done|].
  - rewrite Hu. set (g := page_used (mk_pmm _ _ _ _ _)).
    rewrite (countb_flip g (page_used s) _ (phys / PAGE_SIZE)); [lia|lia| |done|]; unfold g, page_used; simpl.
    + by rewrite Hb, Z.eqb_refl.
    + intros j _ Hj. rewrite Hb. by rewrite (proj2 (Z.eqb_neq j _) Hj).
  - intros p Hpp. unfold page_used; simpl. rewrite Hb, Hlow by lia.
    by rewrite (proj2 (Z.eqb_neq p _)) by lia.
Qed.

(** * The page-allocator interface *)

Definition frame_free (s : pmm) (f : Z) : Prop :=
  512 <= f / PAGE_SIZE < total_pages s /\ page_used s (f / PAGE_SIZE) = false.

Lemma frame_div f g : is_frame f -> is_frame g -> f / PAGE_SIZE = g / PAGE_SIZE -> f = g.
Proof.
  unfold is_frame, PAGE_SIZE. intros [_ Hf] [_ Hg] E.
  pose proof (Z.div_mod f 4096 ltac:(lia)). pose proof (Z.div_mod g 4096 ltac:(lia)). lia.
Qed.

Lemma page_frame i : 512 <= i < 2 ^ 40 -> is_frame (i * PAGE_SIZE) /\ i * PAGE_SIZE / PAGE_SIZE = i.
Proof.
  intros Hi. unfold is_frame, PAGE_SIZE. rewrite Z.mod_mul, Z.div_mul by lia. split; [split; [lia|done]|done].
Qed.

Definition frame_managed (s : pmm) (f : Z) : Prop := 512 <= f / PAGE_SIZE < total_pages s.

Lemma pmm_pa_alloc s : pmm_wf s ->
  wp pmm_alloc_page (fun r s' => pmm_wf s' /\ (forall f, frame_managed s' f <-> frame_managed s f) /\
    ((is_frame r /\ frame_managed s r /\ frame_free s r /\
      forall f, is_frame f -> (frame_free s' f <-> frame_free s f /\ f <> r))
     \/ (r = 0 /\ s' = s /\ forall f, is_frame f -> frame_managed s f -> ~ frame_free s f))) s.
Proof.
  intros Hwf. eapply wp_mono; [by apply pmm_alloc_page_outcome|].
  intros r s' [Hwf' [(i & Hi & -> & Hfree & bm & -> & Hl & Hb)|(-> & -> & Hall)]];
    (split; [done|]); (split; [done|]); [left|right; split_and!; [done..|]; intros f _ _ [Hr Hu]; by rewrite Hall in Hu by lia].
  pose proof (wf_total s Hwf). destruct (page_frame i ltac:(lia)) as [Hfr Hdiv].
  unfold frame_managed, frame_free. rewrite Hdiv. split; [done|]. split; [lia|]. split; [done|].
  intros f Hf. simpl. unfold page_used at 1; simpl. rewrite Hb.
  destruct (Z.eqb_spec (f / PAGE_SIZE) i) as [E|E]; simpl.
  - split; [by intros [_ ?]|]. intros [_ Hne]. destruct Hne. apply (frame_div f); [done..|by rewrite Hdiv].
  - split; [|by intros [? _]]. intros ?. split; [done|]. intros ->. by rewrite Hdiv in E.
Qed.

Lemma pmm_pa_release s r : pmm_wf s -> is_frame r -> frame_managed s r ->
  wp (pmm_free_page r) (fun _ s' => pmm_wf s' /\ (forall f, frame_managed s' f <-> frame_managed s f) /\
      forall f, is_frame f -> (frame_free s' f <-> frame_free s f \/ f = r)) s.
Proof.
  intros Hwf Hr Hm. eapply wp_mono; [apply pmm_free_page_outcome; [done|destruct Hr; lia]|].
  unfold frame_managed in Hm.
  intros ? s' Hout. cbv beta in Hout. split; [eapply free_outcome_wf; [exact Hwf| |exact Hout]; lia|].
  revert Hout. case_match eqn:E0.
  - intros (bm & -> & Hl & Hb). split; [done|]. intros f Hf.
    unfold frame_free. simpl. unfold page_used at 1; simpl. rewrite Hb.
    destruct (Z.eqb_spec (f / PAGE_SIZE) (r / PAGE_SIZE)) as [E|E]; simpl.
    + apply frame_div in E as ->; [|done..]. split; [by right|done].
    + split; [by left|]. intros [?| ->]; [done|by destruct E].
  - intros ->. split; [done|]. intros f Hf. split; [by left|]. intros [?| ->]; [done|].
    split; [done|]. destruct (page_used s (r / PAGE_SIZE)) eqn:Eu; [|done]. lia.
Qed.

#[export] Instance pmm_allocator : PageAllocator pmm := {|
  pa_wf := pmm_wf;
  pa_managed := frame_managed;
  pa_free := frame_free;
  pa_alloc := pmm_alloc_page;
  pa_release := pmm_free_page;
  pa_alloc_spec := pmm_pa_alloc;
  pa_release_spec := pmm_pa_release;
|}.

(** * A decidable form of the invariant, for concrete states *)

Definition pmm_wfb (s : pmm) : bool :=
  (512 <=? total_pages s) && (total_pages s <=? 2 ^ 40)
  && (zlen (bitmap s) =? compute_bitmap_size (total_pages s))
  && (used_pages s =? countb (page_used s) (Z.to_nat (total_pages s)))
  && (512 <=? next_free_page s) && (next_free_page s <=? total_pages s)
  && forallb (page_used s) (seqZ 0 512).

Lemma pmm_wfb_wf s : pmm_wfb s = true -> pmm_wf s.
Proof.
  unfold pmm_wfb. rewrite !andb_true_iff, forallb_forall. intros [[[[[[]]]]] Hlow].
  split; [lia..|]. intros p Hp. apply Hlow, list_elem_of_In, elem_of_seqZ. lia.
Qed.

(** A 520-page machine: pages 0..512 used, watermark at 516. *)
Definition demo_pmm : pmm := mk_pmm (replicate 64 255 ++ [1]) 520 513 516 true.

(** The same machine after three contiguous pages, one page, and one release. *)
Definition demo_pmm1 : pmm := mk_pmm (replicate 64 255 ++ [15]) 520 516 516 true.
Definition demo_pmm2 : pmm := mk_pmm (replicate 64 255 ++ [31]) 520 517 517 true.
Definition demo_pmm3 : pmm := mk_pmm (replicate 64 255 ++ [29]) 520 516 517 true.

(** 3 MiB of conventional memory above 1 MiB, kernel at 2 MiB. *)
Definition demo_descs : list efi_memory_descriptor :=
  [ {| Type_ := 7; PhysicalStart := 1048576; VirtualStart := 0; NumberOfPages := 256; Attribute_ := 0 |};
    {| Type_ := 4; PhysicalStart := 0; VirtualStart := 0; NumberOfPages := 160; Attribute_ := 0 |};
    {| Type_ := 7; PhysicalStart := 2162688; VirtualStart := 0; NumberOfPages := 496; Attribute_ := 0 |} ].

(** Any interleaving of the allocator's operations, releases being of memory above
    the permanently reserved first 2 MiB. *)
Inductive pmm_step (s s' : pmm) : Prop :=
| step_alloc r : pmm_alloc_page s = Some (r, s') -> pmm_step s s'
| step_contiguous count r : 0 <= count < 2 ^ 32 ->
    pmm_alloc_contiguous_pages count s = Some (r, s') -> pmm_step s s'
| step_free phys : 512 * PAGE_SIZE <= phys -> pmm_free_page phys s = Some (tt, s') -> pmm_step s s'.

Lemma pmm_step_wf s s' : pmm_wf s -> pmm_step s s' -> pmm_wf s'.
Proof.
  intros Hwf [r Hr|count r Hc Hr|phys Hp Hr].
  - by apply (wp_run _ _ _ _ _ (pmm_alloc_page_outcome s Hwf) Hr).
  - destruct (decide (count = 0)) as [->|]; [by injection Hr as <- <-|].
    by apply (wp_run _ _ _ _ _ (pmm_alloc_contiguous_outcome s count Hwf ltac:(lia)) Hr).
  - assert (512 <= phys / PAGE_SIZE) by (apply Z.div_le_lower_bound; unfold PAGE_SIZE in *; lia).
    eapply free_outcome_wf; [exact Hwf|done|].
    exact (wp_run _ _ _ _ _ (pmm_free_page_outcome s phys Hwf ltac:(unfold PAGE_SIZE in *; lia)) Hr).
Qed.

(** * Properties *)

(** C40: [pmm_alloc_page] never faults, restores the interrupt flag, and either returns
    the address of a page at or above 512 that was free, marking exactly that page and
    counting it, or returns 0, which happens only when no page of memory is free at all
    (the second pass below the watermark leaves nothing unexamined). *)
Theorem pmm_alloc_page_correct s : pmm_wf s ->
  wp pmm_alloc_page (fun phys s' =>
    pmm_wf s' /\ intr s' = intr s /\ total_pages s' = total_pages s /\
    ((exists i, 512 <= i < total_pages s /\ phys = i * PAGE_SIZE /\ page_used s i = false /\
        used_pages s' = used_pages s + 1 /\
        forall k, page_used s' k = (k =? i) || page_used s k)
     \/ (phys = 0 /\ s' = s /\ forall p, 0 <= p < total_pages s -> page_used s p = true))) s.
Proof.
  intros Hwf. eapply wp_mono; [by apply pmm_alloc_page_outcome|].
  intros phys s' [Hwf' [(i & Hi & -> & Hf & bm & -> & Hl & Hb)|(-> & -> & Hall)]].
  - refine (conj Hwf' (conj eq_refl (conj eq_refl (or_introl _)))). by exists i.
  - refine (conj Hwf (conj eq_refl (conj eq_refl (or_intror _)))). done.
Qed.

Lemma pmm_alloc_page_witness :
  exists s', pmm_alloc_page demo_pmm = Some (516 * PAGE_SIZE, s') /\ pmm_wf s' /\ page_used s' 516 = true.
Proof.
  pose proof (pmm_alloc_page_correct demo_pmm (pmm_wfb_wf demo_pmm ltac:(vm_compute; reflexivity))) as H.
  apply wp_inv in H as (r & s' & E & Hwf & _).
  assert (pmm_alloc_page demo_pmm = Some (516 * PAGE_SIZE, mk_pmm (replicate 64 255 ++ [17]) 520 514 517 true)) as E'
    by (vm_compute; reflexivity).
  rewrite E' in E. injection E as <- <-. eexists. split; [exact E'|]. split; [exact Hwf|vm_compute; reflexivity].
Defined.

(** [pmm_alloc_contiguous_pages] is first fit and complete: it returns the lowest run of
    [count] free pages, marks exactly those pages and adds [count] to [used_pages]; it
    returns 0 with the state untouched only if no such run exists. *)
Theorem pmm_alloc_contiguous_correct s count : pmm_wf s -> 0 < count < 2 ^ 32 ->
  wp (pmm_alloc_contiguous_pages count) (fun phys s' => pmm_wf s' /\ intr s' = intr s /\
    ((exists start, phys = start * PAGE_SIZE /\ free_run s start count /\
        (forall st, st < start -> ~ free_run s st count) /\
        used_pages s' = used_pages s + count /\ next_free_page s' = next_free_page s /\
        forall k, page_used s' k = ((start <=? k) && (k <? start + count)) || page_used s k)
     \/ (phys = 0 /\ s' = s /\ forall start, ~ free_run s start count))) s.
Proof.
  intros Hwf Hc. eapply wp_mono; [by apply pmm_alloc_contiguous_outcome|].
  intros phys s' [Hwf' [(start & bm & -> & Hr & Hlow & -> & Hl & Hb)|(-> & -> & Hall)]].
  - split; [done|]. split; [done|]. left. by exists start.
  - split; [done|]. split; [done|]. by right.
Qed.

Lemma pmm_alloc_contiguous_witness :
  exists s', pmm_alloc_contiguous_pages 3 demo_pmm = Some (513 * PAGE_SIZE, s') /\ pmm_wf s'.
Proof.
  pose proof (pmm_alloc_contiguous_correct demo_pmm 3
    (pmm_wfb_wf demo_pmm ltac:(vm_compute; reflexivity)) ltac:(lia)) as H.
  apply wp_inv in H as (r & s' & E & Hwf & _).
  assert (option_map fst (pmm_alloc_contiguous_pages 3 demo_pmm) = Some (513 * PAGE_SIZE)) as E'
    by (vm_compute; reflexivity).
  rewrite E in E'. injection E' as ->. exists s'. split; [exact E|exact Hwf].
Defined.

(** [pmm_free_page] of a used page at or above 512 clears exactly its bit, decrements
    [used_pages] and keeps the invariant; on a free page (a double free) or an address
    beyond memory it changes nothing; the interrupt flag is restored on every path. *)
Theorem pmm_free_page_correct s phys : pmm_wf s -> 512 * PAGE_SIZE <= phys ->
  wp (pmm_free_page phys) (fun _ s' => pmm_wf s' /\ intr s' = intr s /\
    (if (phys / PAGE_SIZE <? total_pages s) && page_used s (phys / PAGE_SIZE) then
       used_pages s' = used_pages s - 1 /\
       forall k, page_used s' k = negb (k =? phys / PAGE_SIZE) && page_used s k
     else s' = s)) s.
Proof.
  intros Hwf Hp.
  assert (512 <= phys / PAGE_SIZE) by (apply Z.div_le_lower_bound; unfold PAGE_SIZE in *; lia).
  eapply wp_mono; [apply pmm_free_page_outcome; [done|unfold PAGE_SIZE in *; lia]|].
  intros ? s' Hout. split; [by eapply free_outcome_wf|]. revert Hout. case_match; [|by intros ->].
  intros (bm & -> & Hl & Hb). done.
Qed.

Lemma pmm_free_page_witness :
  exists s', pmm_free_page (512 * PAGE_SIZE) demo_pmm = Some (tt, s') /\ pmm_wf s' /\ used_pages s' = 512.
Proof.
  pose proof (pmm_free_page_correct demo_pmm (512 * PAGE_SIZE)
    (pmm_wfb_wf demo_pmm ltac:(vm_compute; reflexivity)) ltac:(lia)) as H.
  apply wp_inv in H as ([] & s' & E & Hwf & _).
  assert (option_map (fun r => used_pages r.2) (pmm_free_page (512 * PAGE_SIZE) demo_pmm) = Some 512) as E'
    by (vm_compute; reflexivity).
  rewrite E in E'. injection E' as E'. exists s'. split; [exact E|]. split; [exact Hwf|exact E'].
Defined.

(** Given a boot memory map whose kernel and reserved ranges are managed memory,
    [pmm_init] either halts because no conventional block can hold the bitmap, or ends in
    a well-formed state where a page is free exactly when it is conventional memory outside
    the first 2 MiB, the bitmap's own pages, the kernel image and the reserved range. *)
Theorem pmm_init_correct descs kb ks rb rs s : boot_ok descs kb ks rb rs ->
  let total := count_total_pages (find_max_phys descs) in
  let bs := compute_bitmap_size total in
  wp (pmm_init descs kb ks rb rs) (fun ok s' =>
    match find_bitmap_phys descs kb ks bs with
    | None => ok = false
    | Some bp => ok = true /\ pmm_wf s' /\ intr s' = intr s /\ total_pages s' = total /\
        forall k, 0 <= k < total -> page_used s' k = init_used descs kb ks rb rs bp bs k
    end) s.
Proof. apply pmm_init_outcome. Qed.

Lemma pmm_init_witness :
  exists s', pmm_init demo_descs 2097152 65536 0 0 (mk_pmm [] 0 0 256 true) = Some (true, s') /\
    pmm_wf s' /\ page_used s' 600 = false.
Proof.
  assert (boot_ok demo_descs 2097152 65536 0 0) as Hok.
  { split.
    - repeat constructor; vm_compute; done.
    - vm_compute; done.
    - vm_compute. done.
    - by left. }
  pose proof (pmm_init_correct _ _ _ _ _ (mk_pmm [] 0 0 256 true) Hok) as H.
  apply wp_inv in H as (r & s' & E & H).
  assert (find_bitmap_phys demo_descs 2097152 65536
    (compute_bitmap_size (count_total_pages (find_max_phys demo_descs))) = Some 2162688) as E1
    by (vm_compute; reflexivity).
  rewrite E1 in H. destruct H as (-> & Hwf & _ & _ & Hbits). exists s'.
  split; [exact E|]. split; [exact Hwf|].
  assert (0 <= 600 < count_total_pages (find_max_phys demo_descs)) as Hk
    by (split; vm_compute; [discriminate|reflexivity]).
  transitivity (init_used demo_descs 2097152 65536 0 0 2162688
    (compute_bitmap_size (count_total_pages (find_max_phys demo_descs))) 600);
    [exact (Hbits 600 Hk)|vm_compute; reflexivity].
Defined.

(** Every state reachable from a well-formed one by any sequence of allocations,
    contiguous allocations and releases is well-formed: the count of used pages never
    drifts from the bitmap and the low 2 MiB stay reserved. *)
Theorem pmm_reachable_wf s s' : pmm_wf s -> rtc pmm_step s s' -> pmm_wf s'.
Proof. intros Hwf Hsteps. induction Hsteps; eauto using pmm_step_wf. Qed.

Lemma pmm_reachable_witness :
  exists s', rtc pmm_step demo_pmm s' /\ pmm_wf s' /\ used_pages s' = 516.
Proof.
  assert (rtc pmm_step demo_pmm demo_pmm3) as Hrtc.
  { eapply rtc_l; [apply (step_contiguous demo_pmm demo_pmm1 3 (513 * PAGE_SIZE)); [lia|vm_compute; reflexivity]|].
    eapply rtc_l; [apply (step_alloc demo_pmm1 demo_pmm2 (516 * PAGE_SIZE)); vm_compute; reflexivity|].
    eapply rtc_l; [apply (step_free demo_pmm2 demo_pmm3 (513 * PAGE_SIZE)); [unfold PAGE_SIZE; lia|vm_compute; reflexivity]|].
    apply rtc_refl. }
  exists demo_pmm3. split; [exact Hrtc|]. split; [|vm_compute; reflexivity].
  apply (pmm_reachable_wf demo_pmm demo_pmm3); [apply pmm_wfb_wf; vm_compute; reflexivity|exact Hrtc].
Defined.
