(* ===== verification/Heap.v ===== *)
(** Kernel heap (src/kernel/system/mm/heap.c).

    The heap is modelled at the level of its headers in memory: [hdrs] maps an
    address to the [block_header_t] stored there, with [next]/[prev] as addresses
    (0 is NULL).  Reading a header that memory does not hold faults; storing one
    destroys whatever header bytes it overlaps, including stale ones left behind by
    coalescing.  [chain] ties that memory to a list of blocks, and the abstract
    first-fit allocator [a_malloc]/[a_free] on such lists is what [kmalloc]/[kfree]
    are proved to implement. *)

From S2P Require Import Prelude Interfaces.

Definition HEAP_MAGIC_FREE : Z := 0xDEADBEE1.
Definition HEAP_MAGIC_USED : Z := 0xDEADBEE2.
Definition KERNEL_HEAP_START : Z := 0xFFFF900000000000.
Definition KERNEL_HEAP_SIZE : Z := 16 * 1024 * 1024.
Definition KERNEL_HEAP_END : Z := KERNEL_HEAP_START + KERNEL_HEAP_SIZE.
Definition HDR : Z := 24.   (* sizeof(block_header_t), packed *)

Record block_header := mk_hdr {
  hb_magic : Z;
  hb_size : Z;
  hb_next : Z;
  hb_prev : Z;
}.

Record heap := mk_heap {
  hdrs : gmap Z block_header;
  heap_start : Z;
  heap_initialized : bool;
  heap_intr : bool;
}.

Definition set_hdrs (m : gmap Z block_header) (s : heap) : heap :=
  mk_heap m (heap_start s) (heap_initialized s) (heap_intr s).
Definition set_heap_intr (b : bool) (s : heap) : heap :=
  mk_heap (hdrs s) (heap_start s) (heap_initialized s) b.

(** * Memory accesses *)

(** Storing a header at [a] overwrites every header whose bytes it overlaps. *)
Definition store_hdr (a : Z) (h : block_header) (m : gmap Z block_header) : gmap Z block_header :=
  <[a := h]> (filter (fun kv => HDR <= Z.abs (kv.1 - a)) m).

Definition load (a : Z) : M heap block_header := fun s =>
  h ← hdrs s !! a; Some (h, s).

Definition set_magic (v : Z) (h : block_header) := mk_hdr v (hb_size h) (hb_next h) (hb_prev h).
Definition set_size (v : Z) (h : block_header) := mk_hdr (hb_magic h) v (hb_next h) (hb_prev h).
Definition set_nxt (v : Z) (h : block_header) := mk_hdr (hb_magic h) (hb_size h) v (hb_prev h).
Definition set_prv (v : Z) (h : block_header) := mk_hdr (hb_magic h) (hb_size h) (hb_next h) v.

(** [p->field = v] through a valid header pointer. *)
Definition update (a : Z) (f : block_header -> block_header) : M heap unit := fun s =>
  h ← hdrs s !! a; Some (tt, set_hdrs (<[a := f h]> (hdrs s)) s).

Definition store_new (a : Z) (h : block_header) : M heap unit :=
  modify (fun s => set_hdrs (store_hdr a h (hdrs s)) s).

Definition heap_lock : M heap bool := fun s => Some (heap_intr s, set_heap_intr false s).
Definition heap_unlock (flags : bool) : M heap unit := modify (set_heap_intr flags).

(** * Operations *)

(** The list walk; fuel out is a fault, see [heap_wf]'s theorems for why it never is. *)
Fixpoint find_loop (fuel : nat) (size current : Z) : M heap Z :=
  match fuel with
  | O => fault
  | S fuel =>
      if current =? 0 then mret 0 else
      h ← load current;
      if (hb_magic h =? HEAP_MAGIC_FREE) && (size <=? hb_size h) then mret current
      else find_loop fuel size (hb_next h)
  end.

Definition list_fuel (s : heap) : nat := S (size (hdrs s)).

Definition find_free_block (size : Z) : M heap Z :=
  s ← get; find_loop (list_fuel s) size (heap_start s).

Definition split_block (block size : Z) : M heap unit :=
  h ← load block;
  if size + HDR + 32 <=? hb_size h then
    let new_block := block + size in
    _ ← store_new new_block
          (mk_hdr HEAP_MAGIC_FREE (u32 (hb_size h - size)) (hb_next h) block);
    _ ← (if hb_next h =? 0 then mret tt else update (hb_next h) (set_prv new_block));
    _ ← update block (set_nxt new_block);
    update block (set_size (u32 size))
  else mret tt.

(** The two halves of [merge_blocks]: with the next block, then with the previous. *)
Definition merge_next (block : Z) : M heap unit :=
  h ← load block;
  if hb_next h =? 0 then mret tt else
  n ← load (hb_next h);
  if hb_magic n =? HEAP_MAGIC_FREE then
    _ ← update block (fun h => set_size (u32 (hb_size h + hb_size n)) h);
    _ ← update block (set_nxt (hb_next n));
    if hb_next n =? 0 then mret tt else update (hb_next n) (set_prv block)
  else mret tt.

Definition merge_prev (block : Z) : M heap unit :=
  h ← load block;
  if hb_prev h =? 0 then mret tt else
  p ← load (hb_prev h);
  if hb_magic p =? HEAP_MAGIC_FREE then
    _ ← update (hb_prev h) (fun p => set_size (u32 (hb_size p + hb_size h)) p);
    _ ← update (hb_prev h) (set_nxt (hb_next h));
    if hb_next h =? 0 then mret tt else update (hb_next h) (set_prv (hb_prev h))
  else mret tt.

Definition merge_blocks (block : Z) : M heap unit :=
  _ ← merge_next block; merge_prev block.

(** [(size + 7) & ~7] on a 64-bit [size_t]. *)
Definition align8 (size : Z) : Z := Z.land (u64 (size + 7)) (u64 (Z.lnot 7)).

Definition kmalloc (size : Z) : M heap Z :=
  s ← get;
  if negb (heap_initialized s) || (size =? 0) then mret 0 else
  let size := align8 size in
  let total_size := u64 (size + HDR) in
  flags ← heap_lock;
  block ← find_free_block total_size;
  if block =? 0 then _ ← heap_unlock flags; mret 0 else
  _ ← split_block block total_size;
  _ ← update block (set_magic HEAP_MAGIC_USED);
  _ ← heap_unlock flags;
  mret (block + HDR).

Definition kfree (ptr : Z) : M heap unit :=
  if ptr =? 0 then mret tt else
  flags ← heap_lock;
  let block := ptr - HDR in
  h ← load block;
  if negb (hb_magic h =? HEAP_MAGIC_USED) then heap_unlock flags else
  _ ← update block (set_magic HEAP_MAGIC_FREE);
  _ ← merge_blocks block;
  heap_unlock flags.

Fixpoint stats_loop (fuel : nat) (current used free_bytes : Z) : M heap (Z * Z) :=
  match fuel with
  | O => fault
  | S fuel =>
      if current =? 0 then mret (used, free_bytes) else
      h ← load current;
      if hb_magic h =? HEAP_MAGIC_FREE
      then stats_loop fuel (hb_next h) used (u64 (free_bytes + hb_size h))
      else stats_loop fuel (hb_next h) (u64 (used + hb_size h)) free_bytes
  end.

Definition heap_get_stats : M heap (Z * Z) :=
  flags ← heap_lock;
  s ← get;
  r ← stats_loop (list_fuel s) (heap_start s) 0 0;
  _ ← heap_unlock flags;
  mret r.

(** The first block, created by [heap_init] once the region is mapped. *)
Definition heap_create : M heap unit :=
  _ ← modify (fun s => mk_heap (hdrs s) KERNEL_HEAP_START (heap_initialized s) (heap_intr s));
  _ ← store_new KERNEL_HEAP_START (mk_hdr HEAP_MAGIC_FREE KERNEL_HEAP_SIZE 0 0);
  modify (fun s => mk_heap (hdrs s) (heap_start s) true (heap_intr s)).

(** * The abstract allocator on block lists *)

(** A block is its size (header included) and whether it is in use. *)
Definition block : Type := Z * bool.

(** First fit, splitting when at least a header and 32 bytes remain. *)
Fixpoint a_malloc (need : Z) (bl : list block) : option (Z * list block) :=
  match bl with
  | [] => None
  | (sz, u) :: rest =>
      if negb u && (need <=? sz) then
        Some (0, if need + HDR + 32 <=? sz then (need, true) :: (sz - need, false) :: rest
                 else (sz, true) :: rest)
      else '(off, rest') ← a_malloc need rest; Some (sz + off, (sz, u) :: rest')
  end.

(** Coalesce a freed block with its successor. *)
Definition a_join (sz : Z) (rest : list block) : list block :=
  match rest with
  | (sz', false) :: rest' => (sz + sz', false) :: rest'
  | _ => (sz, false) :: rest
  end.

(** Free the used block at offset [off] and coalesce on both sides; [None] when no used
    block starts there. *)
Fixpoint a_free (off : Z) (bl : list block) : option (list block) :=
  match bl with
  | [] => None
  | (sz, u) :: rest =>
      if off =? 0 then (if u then Some (a_join sz rest) else None)
      else
        rest' ← a_free (off - sz) rest;
        Some (if negb u && (off =? sz) then a_join sz rest' else (sz, u) :: rest')
  end.

(** * Memory that holds a chain of blocks *)

Implicit Types (m : gmap Z block_header) (bl l : list block).

Definition mag (u : bool) : Z := if u then HEAP_MAGIC_USED else HEAP_MAGIC_FREE.

(** Sum of the block sizes. *)
Fixpoint total (bl : list block) : Z :=
  match bl with [] => 0 | b :: rest => b.1 + total rest end.

(** Header addresses of the blocks laid out from [a]. *)
Fixpoint addrs (a : Z) (bl : list block) : list Z :=
  match bl with [] => [] | b :: rest => a :: addrs (a + b.1) rest end.

(** Address of the last block, [prv] for the empty list. *)
Fixpoint last_addr (prv a : Z) (bl : list block) : Z :=
  match bl with [] => prv | b :: rest => last_addr a (a + b.1) rest end.

(** First address of [bl] laid out from [a], or [nxt] when there is no block. *)
Definition head_ptr (a : Z) (bl : list block) (nxt : Z) : Z :=
  match bl with [] => nxt | _ => a end.

(** [m] holds the doubly linked headers of [bl] from address [a]: each block starts where
    the previous one ends, [prv] is before the first and [nxt] after the last. *)
Fixpoint chain m (prv a : Z) bl (nxt : Z) : Prop :=
  match bl with
  | [] => True
  | (sz, u) :: rest =>
      m !! a = Some (mk_hdr (mag u) sz (head_ptr (a + sz) rest nxt) prv) /\
      chain m a (a + sz) rest nxt
  end.

Definition sizes_ok bl : Prop := Forall (fun b => HDR <= b.1) bl.

Lemma total_app l1 l2 : total (l1 ++ l2) = total l1 + total l2.
Proof. induction l1 as [|b l1 IH]; simpl; lia. Qed.

Lemma total_nonneg bl : sizes_ok bl -> 0 <= total bl.
Proof. induction 1; simpl; unfold HDR in *; lia. Qed.

Lemma addrs_range a bl x : sizes_ok bl -> x ∈ addrs a bl -> a <= x <= a + total bl - HDR.
Proof.
  intros Hok. revert a. induction Hok as [|b bl Hb Hok IH]; intros a; simpl.
  - intros Hx. by apply elem_of_nil in Hx.
  - pose proof (total_nonneg bl Hok). unfold HDR in *.
    intros [->|Hx]%elem_of_cons; [lia|]. apply IH in Hx. lia.
Qed.

Lemma addrs_NoDup a bl : sizes_ok bl -> NoDup (addrs a bl).
Proof.
  intros Hok. revert a. induction Hok as [|b bl Hb Hok IH]; intros a; simpl; constructor; [|apply IH].
  intros Hx%addrs_range; [|done]. unfold HDR in *. lia.
Qed.

Lemma addrs_dom m prv a bl nxt x : chain m prv a bl nxt -> x ∈ addrs a bl -> is_Some (m !! x).
Proof.
  revert prv a. induction bl as [|[sz u] bl IH]; intros prv a; simpl.
  - intros _ Hx. by apply elem_of_nil in Hx.
  - intros [Hm Hc] [->|Hx]%elem_of_cons; [by rewrite Hm|]. by eapply IH.
Qed.

(** The fuel the list walks get is enough. *)
Lemma chain_length m prv a bl nxt : sizes_ok bl -> chain m prv a bl nxt -> (length bl <= size m)%nat.
Proof.
  intros Hok Hc. assert (length bl = length (addrs a bl)) as ->.
  { clear. revert a. induction bl; intros; simpl; congruence. }
  rewrite <- size_dom, <- (size_list_to_set (C := gset Z) (addrs a bl)) by by apply addrs_NoDup.
  apply subseteq_size. intros x Hx%elem_of_list_to_set. apply elem_of_dom. by eapply addrs_dom.
Qed.

Lemma chain_ext m m' prv a bl nxt :
  (forall x, x ∈ addrs a bl -> m' !! x = m !! x) -> chain m prv a bl nxt -> chain m' prv a bl nxt.
Proof.
  revert prv a. induction bl as [|[sz u] bl IH]; intros prv a Hx; simpl in *; [done|].
  intros [Hm Hc]. split; [rewrite Hx by set_solver; done|]. apply IH; [set_solver|done].
Qed.

(** Relinking the first block of a chain to another predecessor. *)
Lemma chain_relink m m' prv prv' a bl nxt :
  (forall x, x ∈ addrs a bl -> x <> a -> m' !! x = m !! x) ->
  (bl <> [] -> m' !! a = set_prv prv' <$> m !! a) ->
  sizes_ok bl -> chain m prv a bl nxt -> chain m' prv' a bl nxt.
Proof.
  destruct bl as [|[sz u] bl]; simpl; [done|]. intros Hx Ha [Hs Hok]%Forall_cons [Hm Hc].
  split; [by rewrite Ha, Hm by done|]. eapply chain_ext; [|exact Hc]. intros x Hin.
  apply Hx; [set_solver|]. apply addrs_range in Hin; [|done]. unfold HDR in *; simpl in *; lia.
Qed.

Lemma chain_app m prv a l1 b l2 nxt :
  chain m prv a (l1 ++ b :: l2) nxt <->
  chain m prv a l1 (a + total l1) /\ chain m (last_addr prv a l1) (a + total l1) (b :: l2) nxt.
Proof.
  revert prv a. induction l1 as [|[sz u] l1 IH]; intros prv a.
  - simpl. rewrite Z.add_0_r. tauto.
  - change (((sz, u) :: l1) ++ b :: l2) with ((sz, u) :: (l1 ++ b :: l2)).
    cbn [chain last_addr total fst]. rewrite IH, Z.add_assoc.
    replace (head_ptr (a + sz) (l1 ++ b :: l2) nxt) with (head_ptr (a + sz) l1 (a + sz + total l1)); [tauto|].
    destruct l1; simpl; [lia|done].
Qed.

Lemma addrs_app a l1 l2 : addrs a (l1 ++ l2) = addrs a l1 ++ addrs (a + total l1) l2.
Proof.
  revert a. induction l1 as [|b l1 IH]; intros a; simpl; [by rewrite Z.add_0_r|].
  by rewrite IH, Z.add_assoc.
Qed.

Lemma sizes_ok_app l1 l2 : sizes_ok (l1 ++ l2) <-> sizes_ok l1 /\ sizes_ok l2.
Proof. apply Forall_app. Qed.

Lemma sizes_ok_cons b bl : sizes_ok (b :: bl) <-> HDR <= b.1 /\ sizes_ok bl.
Proof. unfold sizes_ok. by rewrite Forall_cons. Qed.

Lemma lookup_store_far m a h x : x <> a -> HDR <= Z.abs (x - a) -> store_hdr a h m !! x = m !! x.
Proof.
  intros Hne Hfar. unfold store_hdr. rewrite lookup_insert_ne by done.
  destruct (m !! x) as [v|] eqn:E.
  - apply map_lookup_filter_Some. done.
  - apply map_lookup_filter_None. by left.
Qed.

Lemma lookup_store_eq m a h : store_hdr a h m !! a = Some h.
Proof. apply lookup_insert_eq. Qed.

(** * The abstract allocator *)

Lemma a_malloc_inv need bl off bl' : a_malloc need bl = Some (off, bl') ->
  exists l1 sz l2, bl = l1 ++ (sz, false) :: l2 /\ off = total l1 /\ need <= sz /\
    Forall (fun b => b.2 = true \/ b.1 < need) l1 /\
    bl' = l1 ++ (if need + HDR + 32 <=? sz then (need, true) :: (sz - need, false) :: l2
                 else (sz, true) :: l2).
Proof.
  revert off bl'. induction bl as [|[sz u] bl IH]; intros off bl'; simpl; [done|].
  destruct (negb u && (need <=? sz)) eqn:E.
  - intros [= <- <-]. destruct u; [done|]. exists [], sz, bl.
    split; [done|]. split; [done|]. split; [simpl in E; lia|]. done.
  - destruct (a_malloc need bl) as [[o r]|]; [|done]. intros [= <- <-].
    destruct (IH _ _ eq_refl) as (l1 & sz' & l2 & -> & -> & Hle & Hall & ->).
    exists ((sz, u) :: l1), sz', l2. split; [done|]. split; [done|]. split; [done|]. split; [|done].
    constructor; [simpl; destruct u; [by left|right; simpl in E; lia]|done].
Qed.

Lemma a_malloc_none need bl : a_malloc need bl = None -> Forall (fun b => b.2 = true \/ b.1 < need) bl.
Proof.
  induction bl as [|[sz u] bl IH]; simpl; [done|].
  destruct (negb u && (need <=? sz)) eqn:E; [done|].
  destruct (a_malloc need bl) as [[o r]|]; [done|]. intros _. constructor; [|by apply IH].
  simpl. destruct u; [by left|right; simpl in E; lia].
Qed.

Lemma a_free_inv off bl bl' : sizes_ok bl -> a_free off bl = Some bl' ->
  exists l1 sz l2, bl = l1 ++ (sz, true) :: l2 /\ off = total l1 /\
    bl' = match rev l1 with
          | (p, false) :: r => rev r ++ a_join p (a_join sz l2)
          | _ => l1 ++ a_join sz l2
          end.
Proof.
  intros Hok. revert off bl'. induction Hok as [|[sz u] bl Hs Hok IH]; intros off bl'; simpl; [done|].
  destruct (Z.eqb_spec off 0) as [->|Hne].
  - destruct u; [|done]. intros [= <-]. by exists [], sz, bl.
  - destruct (a_free (off - sz) bl) as [r|] eqn:E; [|done]. intros [= <-].
    destruct (IH _ _ E) as (l1 & sz' & l2 & -> & Hoff & ->).
    exists ((sz, u) :: l1), sz', l2. split; [done|]. split; [simpl; lia|].
    apply sizes_ok_app in Hok as [Hok1 _]. simpl rev.
    destruct l1 as [|b l1] using rev_ind; simpl in *.
    + rewrite (proj2 (Z.eqb_eq off sz)) by lia. by destruct u.
    + rewrite rev_unit. simpl. apply sizes_ok_app in Hok1 as [Hok1 [Hb _]%sizes_ok_cons].
      rewrite total_app in Hoff. pose proof (total_nonneg _ Hok1). unfold HDR in *. simpl in *.
      rewrite (proj2 (Z.eqb_neq off sz)) by lia. rewrite andb_false_r. destruct b as [p [|]]; [done|].
      by rewrite rev_unit.
Qed.

(** * The heap invariant *)

Fixpoint coalesced (bl : list block) : Prop :=
  match bl with
  | [] => True
  | b :: rest => (b.2 = false -> forall c, head rest = Some c -> c.2 = true) /\ coalesced rest
  end.

(** The memory holds exactly the blocks [bl], which tile the whole heap region, are
    8-byte sized, and never leave two free neighbours. *)
Record heap_rep (s : heap) bl : Prop := {
  rep_start : heap_start s = KERNEL_HEAP_START;
  rep_init : heap_initialized s = true;
  rep_chain : chain (hdrs s) 0 KERNEL_HEAP_START bl 0;
  rep_sizes : sizes_ok bl;
  rep_total : total bl = KERNEL_HEAP_SIZE;
  rep_align : Forall (fun b => b.1 mod 8 = 0) bl;
  rep_coalesced : coalesced bl;
}.

Lemma load_run a h s : hdrs s !! a = Some h -> load a s = Some (h, s).
Proof. unfold load. by intros ->. Qed.

Lemma update_run a f h s : hdrs s !! a = Some h ->
  update a f s = Some (tt, set_hdrs (<[a := f h]> (hdrs s)) s).
Proof. unfold update. by intros ->. Qed.

Lemma wp_load a h Q s : hdrs s !! a = Some h -> Q h s -> wp (load a) Q s.
Proof. intros H HQ. eapply wp_Some; [by apply load_run|done]. Qed.

Lemma wp_update a f h Q s : hdrs s !! a = Some h ->
  Q tt (set_hdrs (<[a := f h]> (hdrs s)) s) -> wp (update a f) Q s.
Proof. intros H HQ. eapply wp_Some; [by apply update_run|done]. Qed.

Lemma wp_heap_lock Q s : Q (heap_intr s) (set_heap_intr false s) -> wp heap_lock Q s.
Proof. done. Qed.

(** ** Walking the list *)

Lemma find_loop_spec need s fuel prv a bl :
  sizes_ok bl -> 0 < a -> chain (hdrs s) prv a bl 0 -> (length bl < fuel)%nat ->
  wp (find_loop fuel need (head_ptr a bl 0)) (fun r s' => s' = s /\
    r = match a_malloc need bl with Some (off, _) => a + off | None => 0 end) s.
Proof.
  intros Hok. revert fuel prv a. induction Hok as [|[sz u] bl Hs Hok IH]; intros fuel prv a Ha Hc Hf.
  - destruct fuel; [simpl in Hf; lia|]. by apply wp_ret.
  - destruct fuel as [|fuel]; [simpl in Hf; lia|]. simpl in Hc, Hf, Hs. destruct Hc as [Hm Hc].
    cbn [find_loop head_ptr]. rewrite (proj2 (Z.eqb_neq a 0)) by lia. wstep.
    eapply wp_load; [exact Hm|]. cbn [hb_magic hb_size hb_next].
    assert ((mag u =? HEAP_MAGIC_FREE) = negb u) as -> by (by destruct u).
    cbn [a_malloc]. destruct (negb u && (need <=? sz)); [wstep; split; [done|lia]|].
    unfold HDR in Hs. eapply wp_mono; [apply (IH fuel a (a + sz)); [lia|exact Hc|lia]|].
    intros r s' [-> ->]. split; [done|]. destruct (a_malloc need bl) as [[o ?]|]; simpl; [lia|done].
Qed.

Lemma heap_start_pos : 0 < KERNEL_HEAP_START.
Proof. unfold KERNEL_HEAP_START. lia. Qed.

Lemma find_free_block_spec need s bl :
  heap_rep s bl ->
  wp (find_free_block need) (fun r s' => s' = s /\
    r = match a_malloc need bl with Some (off, _) => KERNEL_HEAP_START + off | None => 0 end) s.
Proof.
  intros [Hst Hi Hc Hs Ht _ _]. unfold find_free_block. wsteps. rewrite Hst.
  assert (head_ptr KERNEL_HEAP_START bl 0 = KERNEL_HEAP_START) as Hp.
  { destruct bl; [|done]. simpl in Ht. unfold KERNEL_HEAP_SIZE in Ht. lia. }
  rewrite <- Hp at 1. eapply find_loop_spec; [done|apply heap_start_pos|exact Hc|].
  unfold list_fuel. apply chain_length in Hc; [lia|done].
Qed.

(** ** Splitting and marking *)

(** [if (next) next->prev = p;] for the block list [bl] starting at [a]. *)
Lemma relink_spec a bl p s : 0 < a -> (bl <> [] -> is_Some (hdrs s !! a)) ->
  wp (if head_ptr a bl 0 =? 0 then mret tt else update (head_ptr a bl 0) (set_prv p))
    (fun _ s' => exists m, s' = set_hdrs m s /\ (forall x, x <> a -> m !! x = hdrs s !! x) /\
       (bl <> [] -> m !! a = set_prv p <$> hdrs s !! a)) s.
Proof.
  intros Ha Hin. destruct bl as [|b bl]; cbn [head_ptr].
  - rewrite Z.eqb_refl. wstep. exists (hdrs s). by destruct s.
  - rewrite (proj2 (Z.eqb_neq a 0)) by lia. destruct Hin as [h Hh]; [done|].
    eapply wp_update; [exact Hh|]. eexists. split; [done|]. split.
    + intros x Hx. by rewrite lookup_insert_ne.
    + intros _. by rewrite lookup_insert_eq, Hh.
Qed.

Lemma set_hdrs_twice m m' s : set_hdrs m (set_hdrs m' s) = set_hdrs m s.
Proof. done. Qed.
Lemma hdrs_set m s : hdrs (set_hdrs m s) = m.
Proof. done. Qed.

(** The memory after [split_block] and the magic store of [kmalloc], block by block. *)
Lemma take_block_spec s l1 sz l2 need :
  let b := KERNEL_HEAP_START + total l1 in
  chain (hdrs s) 0 KERNEL_HEAP_START (l1 ++ (sz, false) :: l2) 0 ->
  sizes_ok (l1 ++ (sz, false) :: l2) -> sz < 2 ^ 32 -> HDR <= need <= sz ->
  wp (_ ← split_block b need; update b (set_magic HEAP_MAGIC_USED)) (fun _ s' =>
    exists m, s' = set_hdrs m s /\
    chain m 0 KERNEL_HEAP_START
      (l1 ++ (if need + HDR + 32 <=? sz then (need, true) :: (sz - need, false) :: l2
              else (sz, true) :: l2)) 0) s.
Proof.
  intros b [Hc1 [Hb Hc2]]%chain_app [Hs1 [Hsz Hs2]%sizes_ok_cons]%sizes_ok_app H32 Hneed.
  fold b in Hb, Hc2. simpl in Hsz.
  assert (forall x, x ∈ addrs KERNEL_HEAP_START l1 -> x <= b - HDR) as Hlow.
  { intros x Hx%addrs_range; [|done]. unfold b, HDR in *. lia. }
  assert (forall x, x ∈ addrs (b + sz) l2 -> b + sz <= x) as Hhigh.
  { intros x Hx%addrs_range; [|done]. unfold HDR in *. lia. }
  pose proof (total_nonneg _ Hs1). pose proof heap_start_pos.
  wstep. unfold split_block. wstep. eapply wp_load; [exact Hb|]. cbn [hb_size hb_next].
  destruct (Z.leb_spec (need + HDR + 32) sz) as [Hsplit|Hno].
  - wstep. apply wp_modify. wstep.
    eapply wp_mono; [apply relink_spec|].
    { unfold HDR, b in *; lia. }
    { intros Hl. simpl. rewrite lookup_store_far by (unfold HDR in *; lia).
      destruct l2 as [|[??]]; [done|]. simpl in Hc2. by destruct Hc2 as [-> _]. }
    intros _ ? (m2 & -> & Hoth & Hnx). simpl in Hoth, Hnx. rewrite set_hdrs_twice.
    assert (m2 !! b = Some (mk_hdr HEAP_MAGIC_FREE sz (head_ptr (b + sz) l2 0) (last_addr 0 KERNEL_HEAP_START l1))) as Hb2.
    { rewrite Hoth, lookup_store_far by (unfold HDR in *; lia). exact Hb. }
    wstep. eapply wp_update; [exact Hb2|]. rewrite set_hdrs_twice, hdrs_set.
    eapply wp_update; [apply lookup_insert_eq|]. rewrite set_hdrs_twice, hdrs_set.
    eapply wp_update; [apply lookup_insert_eq|]. rewrite set_hdrs_twice, hdrs_set.
    eexists. split; [done|]. rewrite !insert_insert_eq. cbv [set_magic set_size set_nxt]; simpl.
    rewrite !u32_small by (unfold is_u32, HDR in *; lia).
    apply chain_app. split; [|split; [|split]].
    + eapply chain_ext; [|exact Hc1]. intros x Hx%Hlow.
      rewrite lookup_insert_ne, Hoth, lookup_store_far by (unfold HDR in *; lia). done.
    + apply lookup_insert_eq.
    + fold b. rewrite lookup_insert_ne, Hoth, lookup_store_eq, u32_small by (unfold is_u32, HDR in *; lia).
      by replace (b + need + (sz - need)) with (b + sz) by lia.
    + fold b. replace (b + need + (sz - need)) with (b + sz) by lia.
      eapply chain_relink; [| |exact Hs2|exact Hc2].
      * intros x Hx%Hhigh Hne. rewrite lookup_insert_ne, Hoth, lookup_store_far by (unfold HDR in *; lia). done.
      * intros Hl. rewrite lookup_insert_ne, Hnx, lookup_store_far by (done || unfold HDR in *; lia). done.
  - wstep. eapply wp_update; [exact Hb|]. eexists. split; [done|].
    apply chain_app. split; [|split].
    + eapply chain_ext; [|exact Hc1]. intros x Hx%Hlow. rewrite lookup_insert_ne by (unfold HDR in *; lia). done.
    + apply lookup_insert_eq.
    + eapply chain_ext; [|exact Hc2]. intros x Hx%Hhigh. rewrite lookup_insert_ne by (unfold HDR in *; lia). done.
Qed.

(** ** Coalescing *)

(** [m'] is [m] with the header at [b] replaced and the block after it relinked: what both
    halves of [merge_blocks] do to the block [b] that grows to size [sz]. *)
Lemma grow_chain m m' prv b u sz0 sz l2 :
  sizes_ok l2 -> HDR <= sz ->
  m' !! b = Some (mk_hdr (mag u) sz (head_ptr (b + sz) l2 0) prv) ->
  (forall x, x <> b -> x <> b + sz -> m' !! x = m !! x) ->
  (l2 <> [] -> m' !! (b + sz) = set_prv b <$> m !! (b + sz)) ->
  chain m sz0 (b + sz) l2 0 ->
  chain m' prv b ((sz, u) :: l2) 0.
Proof.
  intros Hs2 Hsz Hb Hoth Hnx Hc. split; [exact Hb|].
  eapply chain_relink; [|exact Hnx|exact Hs2|exact Hc].
  intros x Hx Hne. apply Hoth; [|done]. apply addrs_range in Hx; [|done]. unfold HDR in *. lia.
Qed.

(** The common tail of both halves: [b] absorbs the bytes up to [e]. *)
Lemma absorb_spec s b prv h sz e pe l2 (f : block_header -> block_header) :
  0 < b -> sizes_ok l2 -> hdrs s !! b = Some h -> HDR <= sz -> e = b + sz ->
  hb_size (f h) = sz -> hb_magic (f h) = HEAP_MAGIC_FREE -> hb_prev (f h) = prv ->
  chain (hdrs s) pe e l2 0 ->
  wp (_ ← update b f;
      _ ← update b (set_nxt (head_ptr e l2 0));
      if head_ptr e l2 0 =? 0 then mret tt else update (head_ptr e l2 0) (set_prv b))
    (fun _ s' => exists m, s' = set_hdrs m s /\
       (forall x, x <> b -> x <> e -> m !! x = hdrs s !! x) /\ chain m prv b ((sz, false) :: l2) 0) s.
Proof.
  intros Hb0 Hs2 Hb Hsz -> Hsize Hmag Hprv Hc. unfold HDR in *.
  wstep. eapply wp_update; [exact Hb|]. wstep.
  eapply wp_update; [apply lookup_insert_eq|]. rewrite set_hdrs_twice, hdrs_set, insert_insert_eq.
  eapply wp_mono; [apply relink_spec|].
  - lia.
  - intros Hl. simpl. rewrite lookup_insert_ne by lia. destruct l2 as [|[??]]; [done|].
    simpl in Hc. by destruct Hc as [-> _].
  - intros _ ? (m & -> & Hoth & Hnx). simpl in Hoth, Hnx. rewrite set_hdrs_twice.
    exists m. split; [done|]. split.
    { intros x Hx Hx'. rewrite Hoth, lookup_insert_ne by done. done. }
    eapply (grow_chain (hdrs s)); [done|unfold HDR; lia| | | |exact Hc].
    + rewrite Hoth, lookup_insert_eq by lia. unfold set_nxt. by rewrite Hmag, Hprv, Hsize.
    + intros x Hx1 Hx2. rewrite Hoth, lookup_insert_ne by done. done.
    + intros Hl. rewrite Hnx, lookup_insert_ne by (done || lia). done.
Qed.

Lemma mag_eqb u : (mag u =? HEAP_MAGIC_FREE) = negb u.
Proof. by destruct u. Qed.

Lemma merge_next_spec s b prv sz l2 :
  0 < b -> HDR <= sz -> sizes_ok l2 -> sz + total l2 < 2 ^ 32 ->
  chain (hdrs s) prv b ((sz, false) :: l2) 0 ->
  wp (merge_next b) (fun _ s' => exists m, s' = set_hdrs m s /\
     (forall x, x < b -> m !! x = hdrs s !! x) /\ chain m prv b (a_join sz l2) 0) s.
Proof.
  intros Hb0 Hsz Hs2 H32 [Hb Hc]. unfold merge_next. wstep. eapply wp_load; [exact Hb|].
  cbn [hb_next].
  assert (forall l, l2 = l -> chain (hdrs s) prv b ((sz, false) :: l) 0 ->
    exists m, s = set_hdrs m s /\ (forall x, x < b -> m !! x = hdrs s !! x) /\
      chain m prv b ((sz, false) :: l) 0) as Hsame.
  { intros l _ Hl. exists (hdrs s). by destruct s. }
  destruct l2 as [|[sz2 u2] l3]; cbn [head_ptr].
  - rewrite Z.eqb_refl. wstep. by apply (Hsame []).
  - simpl in Hc. destruct Hc as [Hn Hc]. apply sizes_ok_cons in Hs2 as [Hsz2 Hs3]. simpl in Hsz2, H32.
    pose proof (total_nonneg _ Hs3). unfold HDR in *.
    rewrite (proj2 (Z.eqb_neq (b + sz) 0)) by lia. wstep. eapply wp_load; [exact Hn|].
    cbn [hb_magic hb_size hb_next]. rewrite mag_eqb. destruct u2; cbn [negb a_join].
    + wstep. apply (Hsame ((sz2, true) :: l3)); [done|]. by split; [|split].
    + eapply wp_mono.
      { eapply (absorb_spec s b prv _ (sz + sz2)); [lia|done|exact Hb|..|exact Hc];
          cbn [set_size hb_size hb_magic hb_prev];
          rewrite ?u32_small by (unfold is_u32; lia); (done || unfold HDR; lia). }
      intros _ ? (m & -> & Hoth & Hc'). exists m. split; [done|]. split; [|done]. intros x Hx. apply Hoth; lia.
Qed.

Lemma last_addr_snoc prv a l b : last_addr prv a (l ++ [b]) = a + total l.
Proof. revert prv a. induction l as [|c l IH]; intros; simpl; [lia|]. rewrite IH. lia. Qed.

(** The block list after the backward half: [l1] before the freed block [(sz, false)]. *)
Definition a_join_prev l1 sz l2 : list block :=
  match rev l1 with
  | (p, false) :: r => rev r ++ (p + sz, false) :: l2
  | _ => l1 ++ (sz, false) :: l2
  end.

Lemma merge_prev_spec s l1 sz l2 :
  let b := KERNEL_HEAP_START + total l1 in
  sizes_ok (l1 ++ (sz, false) :: l2) -> total (l1 ++ (sz, false) :: l2) < 2 ^ 32 ->
  chain (hdrs s) 0 KERNEL_HEAP_START (l1 ++ (sz, false) :: l2) 0 ->
  wp (merge_prev b) (fun _ s' => exists m, s' = set_hdrs m s /\ m !! b = hdrs s !! b /\
     chain m 0 KERNEL_HEAP_START (a_join_prev l1 sz l2) 0) s.
Proof.
  intros b Hok H32 Hchain. pose proof Hchain as [Hc1 [Hb Hc2]]%chain_app. fold b in Hb, Hc2.
  apply sizes_ok_app in Hok as [Hs1 [Hsz Hs2]%sizes_ok_cons]. rewrite total_app in H32. simpl in Hsz, H32.
  pose proof (total_nonneg _ Hs1). pose proof (total_nonneg _ Hs2). pose proof heap_start_pos.
  assert (exists m, s = set_hdrs m s /\ m !! b = hdrs s !! b /\
    chain m 0 KERNEL_HEAP_START (l1 ++ (sz, false) :: l2) 0) as Hsame
    by (exists (hdrs s); by destruct s).
  unfold merge_prev, a_join_prev. wstep. eapply wp_load; [exact Hb|]. cbn [hb_prev].
  destruct l1 as [|[p u] l0 _] using rev_ind; [cbn [rev last_addr]; rewrite Z.eqb_refl; by wstep|].
  rewrite rev_unit, last_addr_snoc in *. rewrite total_app in *. simpl total in *.
  apply sizes_ok_app in Hs1 as [Hs0 [Hp _]%sizes_ok_cons]. simpl in Hp.
  pose proof (total_nonneg _ Hs0). unfold HDR in *.
  rewrite (proj2 (Z.eqb_neq (KERNEL_HEAP_START + total l0) 0)) by lia.
  apply chain_app in Hc1 as [Hc0 [Hpm _]]. wstep. eapply wp_load; [exact Hpm|].
  cbn [hb_magic hb_size hb_next]. rewrite mag_eqb. destruct u; cbn [negb]; [by wstep|].
  rewrite rev_involutive.
  eapply wp_mono.
  { eapply (absorb_spec s (KERNEL_HEAP_START + total l0) (last_addr 0 KERNEL_HEAP_START l0) _ (p + sz));
      [lia|exact Hs2|exact Hpm|unfold HDR; lia| |..|exact Hc2];
      cbn [set_size hb_size hb_magic hb_prev]; rewrite ?u32_small by (unfold is_u32; lia); (done || unfold b; rewrite total_app; simpl; lia). }
  intros _ ? (m & -> & Hoth & Hc'). exists m. split; [done|].
  assert (b = KERNEL_HEAP_START + (total l0 + p)) as Hbp by (unfold b; rewrite total_app; simpl; lia).
  split; [apply Hoth; lia|].
  apply chain_app. split; [|exact Hc']. eapply chain_ext; [|exact Hc0].
  intros x Hx. apply addrs_range in Hx; [|done]. unfold HDR in *. apply Hoth; lia.
Qed.

(** ** The block lists stay well formed *)

Record blocks_ok bl : Prop := {
  bo_sizes : sizes_ok bl;
  bo_total : total bl = KERNEL_HEAP_SIZE;
  bo_align : Forall (fun b => b.1 mod 8 = 0) bl;
  bo_coalesced : coalesced bl;
}.

Lemma coalesced_app l1 l2 : coalesced (l1 ++ l2) <->
  coalesced l1 /\ coalesced l2 /\
  (forall x y, last l1 = Some x -> head l2 = Some y -> x.2 = false -> y.2 = true).
Proof.
  induction l1 as [|b l1 IH]; simpl; [naive_solver|]. rewrite IH.
  destruct l1 as [|c l1]; simpl in *; naive_solver.
Qed.

Lemma blocks_rep s bl : heap_rep s bl <->
  heap_start s = KERNEL_HEAP_START /\ heap_initialized s = true /\
  chain (hdrs s) 0 KERNEL_HEAP_START bl 0 /\ blocks_ok bl.
Proof. split; [intros []; repeat split; done|intros (? & ? & ? & []); by split]. Qed.

Lemma a_malloc_ok need bl off bl' : blocks_ok bl -> HDR <= need -> need mod 8 = 0 ->
  a_malloc need bl = Some (off, bl') -> blocks_ok bl'.
Proof.
  intros [Hs Ht Ha Hc] Hn H8 (l1 & sz & l2 & -> & -> & Hle & _ & ->)%a_malloc_inv.
  apply sizes_ok_app in Hs as [Hs1 [Hsz Hs2]%sizes_ok_cons]. rewrite total_app in Ht. simpl in Ht, Hsz.
  apply Forall_app in Ha as [Ha1 [Ha Ha2]%Forall_cons]. simpl in Ha.
  apply coalesced_app in Hc as (Hc1 & [Hnb Hc2] & Hb). simpl in Hnb, Hb. unfold HDR in *.
  destruct (Z.leb_spec (need + 24 + 32) sz); split.
  1,5: apply sizes_ok_app; split; [done|]; unfold sizes_ok; repeat constructor; simpl; unfold HDR; (lia || done).
  1,4: rewrite total_app; simpl; lia.
  1,3: apply Forall_app; split; [done|]; repeat constructor; simpl; try done.
  - rewrite Zminus_mod, Ha, H8. done.
  - apply coalesced_app. simpl. split; [done|]. split; [|naive_solver]. split; [done|]. split; [|done]. naive_solver.
  - apply coalesced_app. simpl. split; [done|]. split; [split; [done|done]|naive_solver].
Qed.

(** What coalescing forward leaves: one free block followed by no free block. *)
Lemma a_join_inv sz l2 : sizes_ok l2 -> Forall (fun b => b.1 mod 8 = 0) l2 -> coalesced l2 -> sz mod 8 = 0 ->
  exists sz' l3, a_join sz l2 = (sz', false) :: l3 /\ sz' + total l3 = sz + total l2 /\ sz <= sz' /\
    sz' mod 8 = 0 /\ sizes_ok l3 /\ Forall (fun b => b.1 mod 8 = 0) l3 /\ coalesced l3 /\
    (forall c, head l3 = Some c -> c.2 = true).
Proof.
  intros Hs Ha Hc H8. destruct l2 as [|[sz2 [|]] l3]; simpl.
  - exists sz, []. split_and!; done.
  - exists sz, ((sz2, true) :: l3). split_and!; try done. by intros ? [= <-].
  - apply sizes_ok_cons in Hs as [Hsz Hs]. apply Forall_cons in Ha as [Ha Ha3]. destruct Hc as [Hh Hc].
    simpl in *. unfold HDR in *. exists (sz + sz2), l3. split_and!; try done; [lia|lia| |].
    + rewrite Zplus_mod, H8, Ha. done.
    + intros c Hc'. by apply Hh.
Qed.

Lemma a_join_prev_ok l1 sz l3 :
  sizes_ok l1 -> sizes_ok l3 -> HDR <= sz -> total l1 + sz + total l3 = KERNEL_HEAP_SIZE ->
  Forall (fun b => b.1 mod 8 = 0) l1 -> Forall (fun b => b.1 mod 8 = 0) l3 -> sz mod 8 = 0 ->
  coalesced l1 -> coalesced l3 -> (forall c, head l3 = Some c -> c.2 = true) ->
  blocks_ok (a_join_prev l1 sz l3).
Proof.
  intros Hs1 Hs3 Hsz Ht Ha1 Ha3 H8 Hc1 Hc3 Hh. unfold a_join_prev.
  destruct l1 as [|[p u] l0 _] using rev_ind.
  - split; simpl in *; [by constructor|lia|by constructor|]. split; [naive_solver|done].
  - rewrite rev_unit. apply sizes_ok_app in Hs1 as [Hs0 [Hp _]%sizes_ok_cons].
    rewrite total_app in Ht. simpl in Ht, Hp. apply Forall_app in Ha1 as [Ha0 [Hap _]%Forall_cons].
    pose proof Hc1 as (Hc0 & _ & Hb)%coalesced_app. simpl in Hap, Hb.
    destruct u; [|rewrite rev_involutive].
    + rewrite <- app_assoc. split.
      * apply sizes_ok_app. split; [done|]. unfold sizes_ok. repeat constructor; done.
      * rewrite total_app. simpl. lia.
      * apply Forall_app. split; [done|]. repeat constructor; done.
      * apply coalesced_app. simpl. split; [done|]. split; [|naive_solver]. split; [done|]. naive_solver.
    + unfold HDR in *. split.
      * apply sizes_ok_app. split; [done|]. unfold sizes_ok. constructor; [simpl; unfold HDR; lia|done].
      * rewrite total_app. simpl. lia.
      * apply Forall_app. split; [done|]. constructor; [|done]. simpl. by rewrite Zplus_mod, Hap, H8.
      * apply coalesced_app. simpl. split; [done|]. split; [naive_solver|]. intros x y Hx [= <-] Hf. simpl in *.
        specialize (Hb x (p, false) Hx eq_refl Hf). done.
Qed.

(** Everything [kfree] needs of [a_free]: where the block was and what replaces it. *)
Lemma a_free_split off bl bl' : blocks_ok bl -> a_free off bl = Some bl' ->
  exists l1 sz l2 sz' l3, bl = l1 ++ (sz, true) :: l2 /\ off = total l1 /\
    a_join sz l2 = (sz', false) :: l3 /\ bl' = a_join_prev l1 sz' l3 /\
    sz' + total l3 = sz + total l2 /\ sizes_ok ((sz', false) :: l3) /\ blocks_ok bl'.
Proof.
  intros [Hs Ht Ha Hc] (l1 & sz & l2 & -> & -> & ->)%a_free_inv; [|done].
  apply sizes_ok_app in Hs as [Hs1 [Hsz Hs2]%sizes_ok_cons]. rewrite total_app in Ht. simpl in Ht, Hsz.
  apply Forall_app in Ha as [Ha1 [Ha Ha2]%Forall_cons]. simpl in Ha.
  apply coalesced_app in Hc as (Hc1 & [_ Hc2] & _).
  destruct (a_join_inv sz l2 Hs2 Ha2 Hc2 Ha) as (sz' & l3 & E & Htot & Hle & H8 & Hs3 & Ha3 & Hc3 & Hh).
  assert (HDR <= sz') by (unfold HDR in *; lia).
  assert (match rev l1 with (p, false) :: r => rev r ++ a_join p (a_join sz l2) | _ => l1 ++ a_join sz l2 end
    = a_join_prev l1 sz' l3) as -> by (unfold a_join_prev; rewrite E; by destruct (rev l1) as [|[? []]]).
  exists l1, sz, l2, sz', l3. split_and!; try done; [by constructor|].
  apply a_join_prev_ok; try done. lia.
Qed.

(** ** Size arithmetic of [kmalloc] *)

Lemma align8_eq size : 0 <= size -> align8 size = 8 * (u64 (size + 7) / 8).
Proof.
  intros Hs. unfold align8. pose proof (u64_range (size + 7)) as Hr. unfold is_u64 in Hr.
  set (x := u64 (size + 7)) in *. change (u64 (Z.lnot 7)) with (Z.shiftl (Z.ones 61) 3).
  transitivity (Z.shiftl (Z.shiftr x 3) 3).
  - apply Z.bits_inj'. intros n Hn. rewrite Z.land_spec, !Z.shiftl_spec by lia.
    destruct (decide (n < 3)); [rewrite !(Z.testbit_neg_r _ (n - 3)) by lia; apply andb_false_r|].
    rewrite Z.shiftr_spec by lia. replace (n - 3 + 3) with n by lia.
    rewrite Z.testbit_ones by lia. destruct (decide (n < 64)).
    + replace ((0 <=? n - 3) && (n - 3 <? 61)) with true by lia. apply andb_true_r.
    + rewrite <- (Z.mod_small x (2 ^ 64)), Z.mod_pow2_bits_high by lia. done.
  - rewrite Z.shiftl_mul_pow2, Z.shiftr_div_pow2 by lia. change (2 ^ 3) with 8. lia.
Qed.

Lemma need_ok size : 0 < size -> size + 32 <= 2 ^ 64 ->
  let need := u64 (align8 size + HDR) in
  need = align8 size + HDR /\ size <= need - HDR < size + 8 /\ HDR <= need /\ need mod 8 = 0.
Proof.
  intros H0 Hmax need. unfold need. rewrite align8_eq by lia.
  rewrite (u64_small (size + 7)) by (unfold is_u64; lia).
  pose proof (Z.div_mod (size + 7) 8 ltac:(lia)). pose proof (Z.mod_pos_bound (size + 7) 8 ltac:(lia)).
  unfold HDR. rewrite u64_small by (unfold is_u64; lia). split; [done|]. split; [lia|]. split; [lia|].
  replace (8 * ((size + 7) / 8) + 24) with (((size + 7) / 8 + 3) * 8) by lia. apply Z.mod_mul. lia.
Qed.

(** * [kmalloc] and [kfree] implement the abstract allocator *)

Lemma unlock_heap m s :
  set_heap_intr (heap_intr s) (set_hdrs m (set_heap_intr false s)) = set_hdrs m s.
Proof. by destruct s. Qed.

Lemma lock_rep s bl : heap_rep s bl -> heap_rep (set_heap_intr false s) bl.
Proof. intros []. by split. Qed.

Lemma wp_bind_assoc {St A B C} (m : M St A) (k : A -> M St B) (k' : B -> M St C) Q s :
  wp (x ← (y ← m; k y); k' x) Q s -> wp (y ← m; x ← k y; k' x) Q s.
Proof. unfold wp, mbind, M_bind. by destruct (m s) as [[??]|]. Qed.

Lemma kmalloc_outcome s bl size : heap_rep s bl -> 0 < size -> size + 32 <= 2 ^ 64 ->
  wp (kmalloc size) (fun p s' =>
    match a_malloc (align8 size + HDR) bl with
    | Some (off, bl') => p = KERNEL_HEAP_START + off + HDR /\ heap_rep s' bl' /\ heap_intr s' = heap_intr s
    | None => p = 0 /\ s' = s
    end) s.
Proof.
  intros Hrep H0 Hmax. destruct (need_ok size H0 Hmax) as (Hneed & _ & Hge & H8).
  pose proof Hrep as (Hst & Hini & Hc & Hok)%blocks_rep. pose proof heap_start_pos.
  unfold kmalloc. wsteps. rewrite Hini, (proj2 (Z.eqb_neq size 0)) by lia. cbn [negb orb].
  wstep. apply wp_heap_lock. wstep. rewrite Hneed in *.
  eapply wp_mono; [apply find_free_block_spec, lock_rep, Hrep|].
  intros block s1 [-> ->]. destruct (a_malloc (align8 size + HDR) bl) as [[off bl']|] eqn:E.
  - pose proof (a_malloc_ok _ _ _ _ Hok Hge H8 E) as Hok'.
    apply a_malloc_inv in E as (l1 & sz & l2 & -> & -> & Hle & _ & ->).
    destruct Hok as [Hs Ht _ _]. pose proof Hs as [Hs1 [Hsz Hs2]%sizes_ok_cons]%sizes_ok_app.
    pose proof (total_nonneg _ Hs1). pose proof (total_nonneg _ Hs2).
    rewrite total_app in Ht. simpl in Ht. unfold KERNEL_HEAP_SIZE in Ht.
    rewrite (proj2 (Z.eqb_neq (KERNEL_HEAP_START + total l1) 0)) by lia.
    apply wp_bind_assoc. wstep.
    eapply wp_mono; [apply (take_block_spec (set_heap_intr false s)); [exact Hc|exact Hs|lia|lia]|].
    intros _ ? (m & -> & Hc'). wstep. apply wp_modify. wstep. rewrite unlock_heap.
    split; [lia|]. split; [|done]. apply blocks_rep. done.
  - rewrite Z.eqb_refl. wstep. apply wp_modify. wstep. split; [done|]. by destruct s.
Qed.

Lemma kfree_outcome s bl off bl' : heap_rep s bl -> a_free off bl = Some bl' ->
  wp (kfree (KERNEL_HEAP_START + off + HDR)) (fun _ s' => heap_rep s' bl' /\ heap_intr s' = heap_intr s /\
     exists h, hdrs s' !! (KERNEL_HEAP_START + off) = Some h /\ hb_magic h = HEAP_MAGIC_FREE) s.
Proof.
  intros (Hst & Hini & Hc & Hok)%blocks_rep Hfree.
  destruct (a_free_split _ _ _ Hok Hfree) as (l1 & sz & l2 & sz' & l3 & -> & -> & Hj & -> & Htot & Hs3 & Hok').
  destruct Hok as [Hs Ht _ _]. pose proof Hs as [Hs1 [Hsz Hs2]%sizes_ok_cons]%sizes_ok_app.
  pose proof (total_nonneg _ Hs1). pose proof (total_nonneg _ Hs2). pose proof heap_start_pos.
  rewrite total_app in Ht. simpl in Ht, Hsz. unfold KERNEL_HEAP_SIZE in Ht.
  apply chain_app in Hc as [Hc1 [Hb Hc2]]. set (b := KERNEL_HEAP_START + total l1) in *.
  assert (forall x, x ∈ addrs KERNEL_HEAP_START l1 -> x < b) as Hlow.
  { intros x Hx%addrs_range; [|done]. unfold b, HDR in *. lia. }
  unfold kfree. rewrite (proj2 (Z.eqb_neq (b + HDR) 0)) by (unfold HDR; lia).
  wstep. apply wp_heap_lock. replace (b + HDR - HDR) with b by lia. wstep.
  eapply wp_load; [exact Hb|]. cbn [hb_magic mag]. rewrite Z.eqb_refl. cbn [negb].
  wstep. eapply wp_update; [exact Hb|]. wstep. unfold merge_blocks. wstep.
  eapply wp_mono.
  { apply (merge_next_spec _ b (last_addr 0 KERNEL_HEAP_START l1) sz l2); [lia|done|done|lia|].
    split; [apply lookup_insert_eq|]. eapply chain_ext; [|exact Hc2].
    intros x Hx%addrs_range; [|done]. simpl. rewrite lookup_insert_ne by (unfold HDR in *; lia). done. }
  intros _ ? (m1 & -> & Hoth1 & Hc1'). rewrite Hj in Hc1'. rewrite set_hdrs_twice.
  eapply wp_mono.
  { apply (merge_prev_spec _ l1 sz' l3).
    - apply sizes_ok_app. done.
    - rewrite total_app. simpl. lia.
    - apply chain_app. split; [|exact Hc1']. eapply chain_ext; [|exact Hc1]. intros x Hx%Hlow.
      rewrite hdrs_set, Hoth1 by done. simpl. by rewrite lookup_insert_ne by lia. }
  intros _ ? (m2 & -> & Hb2 & Hc2'). rewrite set_hdrs_twice. unfold heap_unlock. apply wp_modify.
  rewrite unlock_heap. split; [by apply blocks_rep|]. split; [done|].
  simpl. fold b in Hb2. rewrite Hb2, hdrs_set. destruct Hc1' as [-> _]. by eexists.
Qed.

(** * Where the live blocks are *)

(** Each block of the list with its offset from the start of the heap. *)
Fixpoint layout (a : Z) (bl : list block) : list (Z * block) :=
  match bl with [] => [] | b :: rest => (a, b) :: layout (a + b.1) rest end.

(** A block of [sz] bytes (header included) is in use at offset [off]. *)
Definition used_at (bl : list block) (off sz : Z) : Prop := (off, (sz, true)) ∈ layout 0 bl.

Lemma layout_app a l1 l2 : layout a (l1 ++ l2) = layout a l1 ++ layout (a + total l1) l2.
Proof.
  revert a. induction l1 as [|b l1 IH]; intros a; simpl; [by rewrite Z.add_0_r|].
  by rewrite IH, Z.add_assoc.
Qed.

Lemma layout_range a bl o b : sizes_ok bl -> (o, b) ∈ layout a bl ->
  a <= o /\ o + b.1 <= a + total bl /\ HDR <= b.1.
Proof.
  intros Hok. revert a. induction Hok as [|c bl Hc Hok IH]; intros a; simpl.
  - intros Hx. by apply elem_of_nil in Hx.
  - pose proof (total_nonneg bl Hok). unfold HDR in *.
    intros [[= -> ->]|Hx]%elem_of_cons; [lia|]. apply IH in Hx. lia.
Qed.

Lemma layout_disjoint a bl o1 b1 o2 b2 : sizes_ok bl ->
  (o1, b1) ∈ layout a bl -> (o2, b2) ∈ layout a bl ->
  (o1 = o2 /\ b1 = b2) \/ o1 + b1.1 <= o2 \/ o2 + b2.1 <= o1.
Proof.
  intros Hok. revert a. induction Hok as [|c bl Hc Hok IH]; intros a; simpl.
  - intros Hx. by apply elem_of_nil in Hx.
  - intros [[= -> ->]|H1]%elem_of_cons [[= -> ->]|H2]%elem_of_cons.
    + by left.
    + apply layout_range in H2; [|done]. lia.
    + apply layout_range in H1; [|done]. lia.
    + by eapply IH.
Qed.

Lemma layout_mod8 a bl o b : Forall (fun b => b.1 mod 8 = 0) bl -> a mod 8 = 0 ->
  (o, b) ∈ layout a bl -> o mod 8 = 0.
Proof.
  intros Hok. revert a. induction Hok as [|c bl Hc Hok IH]; intros a Ha; simpl.
  - intros Hx. by apply elem_of_nil in Hx.
  - intros [[= -> ->]|Hx]%elem_of_cons; [done|]. eapply IH; [|exact Hx]. by rewrite Zplus_mod, Hc, Ha.
Qed.

Lemma used_join a sz l2 o z :
  (o, (z, true)) ∈ layout a (a_join sz l2) <-> (o, (z, true)) ∈ layout (a + sz) l2.
Proof.
  destruct l2 as [|[sz2 [|]] l3]; simpl; rewrite ?elem_of_cons; [naive_solver..|].
  rewrite Z.add_assoc. naive_solver.
Qed.

Lemma used_join_prev l1 sz l3 o z :
  used_at (a_join_prev l1 sz l3) o z <->
  (o, (z, true)) ∈ layout 0 l1 \/ (o, (z, true)) ∈ layout (total l1 + sz) l3.
Proof.
  unfold used_at, a_join_prev. destruct l1 as [|[p u] l0 _] using rev_ind.
  - simpl. rewrite elem_of_cons, elem_of_nil. naive_solver.
  - rewrite rev_unit. destruct u; [|rewrite rev_involutive];
      rewrite ?layout_app, ?total_app, ?elem_of_app; simpl;
      rewrite ?elem_of_cons, ?elem_of_nil, ?Z.add_0_r, ?Z.add_assoc; naive_solver.
Qed.

Lemma a_free_used off sz bl : sizes_ok bl -> used_at bl off sz -> exists bl', a_free off bl = Some bl'.
Proof.
  intros Hok. unfold used_at. replace off with (0 + off) at 1 by lia.
  revert off. generalize 0 as a. induction Hok as [|[c u] bl Hc Hok IH]; intros a off; simpl.
  - intros Hx. by apply elem_of_nil in Hx.
  - intros [Heq|Hx]%elem_of_cons.
    + assert (off = 0) as -> by (injection Heq; lia). assert (u = true) as -> by congruence. by eexists.
    + pose proof Hx as Hr%layout_range; [|done]. unfold HDR in *. simpl in *.
      rewrite (proj2 (Z.eqb_neq off 0)) by lia.
      destruct (IH (a + c) (off - c)) as [r ->]; [by replace (a + c + (off - c)) with (a + off) by lia|].
      by eexists.
Qed.

(** With everything freed, coalescing has put the whole region back together. *)
Lemma coalesced_all_free bl : coalesced bl -> bl <> [] -> (forall b, b ∈ bl -> b.2 = false) ->
  bl = [(total bl, false)].
Proof.
  destruct bl as [|[sz u] [|c bl]]; [done|..]; intros [Hn Hc] _ Hall.
  - simpl. rewrite Z.add_0_r. by rewrite <- (Hall (sz, u)) by set_solver.
  - specialize (Hn (Hall (sz, u) ltac:(set_solver)) c eq_refl). rewrite (Hall c) in Hn by set_solver. done.
Qed.

Lemma layout_member a bl b : b ∈ bl -> exists o, (o, b) ∈ layout a bl.
Proof.
  revert a. induction bl as [|c bl IH]; intros a; simpl; [intros Hx; by apply elem_of_nil in Hx|].
  intros [->|Hx]%elem_of_cons; [exists a; set_solver|]. destruct (IH (a + c.1) Hx) as [o Ho]. exists o. set_solver.
Qed.

(** ** Totals *)

Definition used_total (bl : list block) : Z := total (List.filter (fun b => b.2) bl).
Definition free_total (bl : list block) : Z := total (List.filter (fun b => negb b.2) bl).

Lemma used_free_total bl : used_total bl + free_total bl = total bl.
Proof.
  unfold used_total, free_total. induction bl as [|[sz u] bl IH]; simpl; [done|].
  destruct u; simpl; lia.
Qed.

Lemma stats_loop_spec s fuel prv a bl used free_bytes :
  sizes_ok bl -> 0 < a -> chain (hdrs s) prv a bl 0 -> (length bl < fuel)%nat ->
  0 <= used -> 0 <= free_bytes -> used + free_bytes + total bl < 2 ^ 64 ->
  wp (stats_loop fuel (head_ptr a bl 0) used free_bytes) (fun r s' => s' = s /\
    r = (used + used_total bl, free_bytes + free_total bl)) s.
Proof.
  intros Hok. revert fuel prv a used free_bytes.
  induction Hok as [|[sz u] bl Hs Hok IH]; intros fuel prv a used fb Ha Hc Hf Hu Hfb Hmax.
  - destruct fuel; [simpl in Hf; lia|]. cbn [stats_loop head_ptr]. rewrite Z.eqb_refl. wstep.
    split; [done|]. unfold used_total, free_total; simpl. f_equal; lia.
  - destruct fuel as [|fuel]; [simpl in Hf; lia|]. simpl in Hc, Hf, Hs, Hmax. destruct Hc as [Hm Hc].
    pose proof (total_nonneg bl Hok). unfold HDR in Hs.
    cbn [stats_loop head_ptr]. rewrite (proj2 (Z.eqb_neq a 0)) by lia. wstep.
    eapply wp_load; [exact Hm|]. cbn [hb_magic hb_size hb_next]. rewrite mag_eqb.
    destruct u; cbn [negb]; rewrite u64_small by (unfold is_u64; lia);
      (eapply wp_mono; [apply (IH fuel a (a + sz)); [lia|exact Hc|lia..]|];
       intros r s' [-> ->]; split; [done|]; unfold used_total, free_total; simpl; f_equal; lia).
Qed.

Lemma a_malloc_used need bl off bl' : sizes_ok bl -> HDR <= need -> a_malloc need bl = Some (off, bl') ->
  exists sz, need <= sz /\ (forall o z, used_at bl' o z <-> (o = off /\ z = sz) \/ used_at bl o z) /\
    forall o z, used_at bl o z -> o + z <= off \/ off + sz <= o.
Proof.
  intros Hok Hn (l1 & sz & l2 & -> & -> & Hle & _ & ->)%a_malloc_inv.
  exists (if need + HDR + 32 <=? sz then need else sz). split; [destruct (Z.leb_spec (need + HDR + 32) sz); lia|]. split.
  - intros o z. unfold used_at. rewrite !layout_app, !elem_of_app.
    destruct (need + HDR + 32 <=? sz); simpl; rewrite !elem_of_cons.
    + replace (0 + total l1 + need + (sz - need)) with (0 + total l1 + sz) by lia.
      split; [intros [?|[[= -> ->]|[[=]|?]]]|intros [[-> ->]|[?|[[=]|?]]]]; auto.
    + split; [intros [?|[[= -> ->]|?]]|intros [[-> ->]|[?|[[=]|?]]]]; auto.
  - intros o z Hu. destruct (layout_disjoint 0 _ (total l1) (sz, false) o (z, true) Hok) as [[_ [=]]|Hd].
    + rewrite layout_app. set_solver.
    + exact Hu.
    + simpl in Hd. destruct (Z.leb_spec (need + HDR + 32) sz); unfold HDR in *; lia.
Qed.

Lemma kmalloc_used s bl size : heap_rep s bl -> 0 < size -> size + 32 <= 2 ^ 64 ->
  wp (kmalloc size) (fun p s' => heap_intr s' = heap_intr s /\
    ((p = 0 /\ s' = s /\ Forall (fun b => b.2 = true \/ b.1 < align8 size + HDR) bl) \/
     exists off sz bl', p = KERNEL_HEAP_START + off + HDR /\ p mod 8 = 0 /\ heap_rep s' bl' /\
       size <= sz - HDR /\ 0 <= off /\ off + sz <= KERNEL_HEAP_SIZE /\
       (forall o z, used_at bl' o z <-> (o = off /\ z = sz) \/ used_at bl o z) /\
       forall o z, used_at bl o z -> o + z <= off \/ off + sz <= o)) s.
Proof.
  intros Hrep H0 Hmax. destruct (need_ok size H0 Hmax) as (Hneed & Hsz & Hge & _). rewrite Hneed in *.
  eapply wp_mono; [by apply kmalloc_outcome|]. intros p s'. cbv beta.
  destruct (a_malloc (align8 size + HDR) bl) as [[off bl']|] eqn:E.
  - intros (-> & Hrep' & Hi). split; [done|]. right.
    destruct (a_malloc_used _ _ _ _ (rep_sizes _ _ Hrep) Hge E) as (sz & Hle & Hu & Hd).
    assert (used_at bl' off sz) as Hin by (apply Hu; by left).
    pose proof (layout_range _ _ _ _ (rep_sizes _ _ Hrep') Hin) as (? & Hend & _).
    rewrite (rep_total _ _ Hrep') in Hend. simpl in Hend.
    exists off, sz, bl'. split_and!; try done; [|unfold HDR in *; lia].
    pose proof (layout_mod8 0 _ _ _ (rep_align _ _ Hrep') eq_refl Hin) as Hm.
    rewrite Z.add_shuffle0, Zplus_mod, Hm. done.
  - intros [-> ->]. split; [done|]. left. split; [done|]. split; [done|]. by apply a_malloc_none.
Qed.

Lemma kfree_used s bl off sz : heap_rep s bl -> used_at bl off sz ->
  wp (kfree (KERNEL_HEAP_START + off + HDR)) (fun _ s' => heap_intr s' = heap_intr s /\
    exists bl', heap_rep s' bl' /\
      forall o z, used_at bl' o z <-> used_at bl o z /\ o <> off) s.
Proof.
  intros Hrep Hu. pose proof Hrep as (_ & _ & _ & Hok)%blocks_rep.
  destruct (a_free_used off sz bl (rep_sizes _ _ Hrep) Hu) as [bl' E].
  eapply wp_mono; [by apply (kfree_outcome s bl off bl')|].
  intros ? s' (Hrep' & Hi & _). split; [done|]. exists bl'. split; [done|].
  destruct (a_free_split _ _ _ Hok E) as (l1 & z1 & l2 & z2 & l3 & -> & -> & Hj & -> & _ & Hs3 & _).
  intros o z. rewrite used_join_prev. pose proof (used_join (total l1) z1 l2 o z) as Huj. rewrite Hj in Huj.
  simpl in Huj. rewrite elem_of_cons in Huj. unfold used_at. rewrite layout_app, elem_of_app. simpl.
  rewrite elem_of_cons. destruct Hok as [Hs _ _ _]. apply sizes_ok_app in Hs as [Hs1 [Hz Hs2]%sizes_ok_cons].
  pose proof (layout_range 0 l1 o (z, true) Hs1) as Hr1.
  pose proof (layout_range (total l1 + z1) l2 o (z, true) Hs2) as Hr2. unfold HDR in *. simpl in *.
  destruct Huj as [Huj1 Huj2]. split.
  - intros [H1|H1].
    + split; [by left|]. apply Hr1 in H1. lia.
    + assert ((o, (z, true)) ∈ layout (total l1 + z1) l2) as H2 by (apply Huj1; by right).
      split; [by right; right|]. apply Hr2 in H2. lia.
  - intros [[H1|[[= -> ->]|H1]] Hne]; [by left|done|]. right. apply Huj2 in H1 as [[=]|]; done.
Qed.

(** * The block-allocator interface *)

(** [live] are the payload pointers of the blocks in use. *)
Definition heap_live (s : heap) (live : gset Z) : Prop :=
  exists bl, heap_rep s bl /\
    forall p, p ∈ live <-> exists off sz, used_at bl off sz /\ p = KERNEL_HEAP_START + off + HDR.

Lemma heap_ba_alloc s live n : heap_live s live -> 0 < n -> n + 32 <= 2 ^ 64 ->
  wp (kmalloc n) (fun p s' => (p = 0 /\ s' = s) \/
    (p <> 0 /\ (p ∉ live) /\ heap_live s' ({[p]} ∪ live))) s.
Proof.
  intros (bl & Hrep & Hl) H0 Hmax. eapply wp_mono; [by apply kmalloc_used|].
  intros p s' [_ [(-> & -> & _)|(off & sz & bl' & -> & _ & Hrep' & Hsz & Hoff & _ & Hu & Hd)]]; [by left|].
  pose proof heap_start_pos. unfold HDR in *. right. split; [lia|]. split.
  - rewrite Hl. intros (o & z & Huo & E). assert (o = off) as -> by lia.
    pose proof (layout_range _ _ _ _ (rep_sizes _ _ Hrep) Huo) as Hr. unfold HDR in Hr. simpl in Hr.
    apply Hd in Huo. lia.
  - exists bl'. split; [done|]. intros p. rewrite elem_of_union, elem_of_singleton, Hl. split.
    + intros [->|(o & z & Ho & ->)]; [exists off, sz; split; [apply Hu; by left|done]|].
      exists o, z. split; [apply Hu; by right|done].
    + intros (o & z & [[-> ->]|Ho]%Hu & ->); [by left|right; by exists o, z].
Qed.

Lemma heap_ba_release s live p : heap_live s live -> p ∈ live ->
  wp (kfree p) (fun _ s' => heap_live s' (live ∖ {[p]})) s.
Proof.
  intros (bl & Hrep & Hl) (off & sz & Hu & ->)%Hl. eapply wp_mono; [by apply (kfree_used s bl off sz)|].
  intros ? s' (_ & bl' & Hrep' & Hu'). exists bl'. split; [done|]. intros p.
  rewrite elem_of_difference, elem_of_singleton, Hl. split.
  - intros ((o & z & Ho & ->) & Hne). exists o, z. split; [|done]. apply Hu'. split; [done|]. intros ->. done.
  - intros (o & z & [Ho Hne]%Hu' & ->). split; [by exists o, z|]. lia.
Qed.

#[export] Instance heap_allocator : BlockAllocator heap := {|
  ba_rep := heap_live;
  ba_alloc := kmalloc;
  ba_release := kfree;
  ba_alloc_spec := heap_ba_alloc;
  ba_release_spec := heap_ba_release;
|}.

(** * Concrete heaps *)

(** The heap as [heap_init] leaves it: one free block covering the region. *)
Definition demo_heap : heap :=
  mk_heap {[ KERNEL_HEAP_START := mk_hdr HEAP_MAGIC_FREE KERNEL_HEAP_SIZE 0 0 ]} KERNEL_HEAP_START true true.

Lemma demo_heap_rep : heap_rep demo_heap [(KERNEL_HEAP_SIZE, false)].
Proof.
  apply blocks_rep. split; [done|]. split; [done|]. split.
  - split; [apply lookup_singleton_eq|done].
  - split; [repeat constructor; done|done|repeat constructor|by split].
Qed.

(** * Properties *)



(** C2: [kfree] of a pointer to a block in use frees exactly that block (every other block
    in use stays in place), keeps the heap fully coalesced, and restores the interrupt flag. *)
Theorem kfree_correct s bl off sz : heap_rep s bl -> used_at bl off sz ->
  wp (kfree (KERNEL_HEAP_START + off + HDR)) (fun _ s' => heap_intr s' = heap_intr s /\
    exists bl', heap_rep s' bl' /\
      forall o z, used_at bl' o z <-> used_at bl o z /\ o <> off) s.
Proof. apply kfree_used. Qed.

Lemma kfree_correct_witness :
  exists s1 s2, kmalloc 100 demo_heap = Some (KERNEL_HEAP_START + HDR, s1) /\
    kfree (KERNEL_HEAP_START + HDR) s1 = Some (tt, s2) /\ exists bl, heap_rep s2 bl.
Proof.
  pose proof (kmalloc_outcome demo_heap _ 100 demo_heap_rep ltac:(lia) ltac:(lia)) as H.
  apply wp_inv in H as (p & s1 & E & H).
  assert (a_malloc (align8 100 + HDR) [(KERNEL_HEAP_SIZE, false)] =
    Some (0, [(128, true); (KERNEL_HEAP_SIZE - 128, false)])) as Ea by (vm_compute; reflexivity).
  rewrite Ea in H. destruct H as (-> & Hrep & _).
  assert (used_at [(128, true); (KERNEL_HEAP_SIZE - 128, false)] 0 128) as Hu by (by left).
  pose proof (kfree_correct s1 _ 0 128 Hrep Hu) as H.
  apply wp_inv in H as ([] & s2 & E2 & _ & bl' & Hrep2 & _).
  exists s1, s2. split; [exact E|]. split; [exact E2|]. by exists bl'.
Defined.

(** A second [kfree] of the same pointer is recognised by the header's magic, even
    when the block was merged into its neighbour meanwhile, and changes nothing. *)
Theorem kfree_twice s bl off sz : heap_rep s bl -> used_at bl off sz ->
  exists s', kfree (KERNEL_HEAP_START + off + HDR) s = Some (tt, s') /\
             kfree (KERNEL_HEAP_START + off + HDR) s' = Some (tt, s').
Proof.
  intros Hrep Hu. destruct (a_free_used off sz bl (rep_sizes _ _ Hrep) Hu) as [bl' E].
  pose proof (kfree_outcome s bl off bl' Hrep E) as H.
  apply wp_inv in H as ([] & s' & Er & _ & _ & h & Hh & Hm). exists s'. split; [done|].
  apply layout_range in Hu; [|exact (rep_sizes _ _ Hrep)]. pose proof heap_start_pos.
  unfold kfree. rewrite (proj2 (Z.eqb_neq _ 0)) by (unfold HDR; lia).
  erewrite bind_Some by reflexivity. replace (KERNEL_HEAP_START + off + HDR - HDR) with (KERNEL_HEAP_START + off) by lia.
  erewrite bind_Some by (apply load_run; exact Hh). rewrite Hm. cbn. by destruct s'.
Qed.

Lemma kfree_twice_witness :
  exists s1 s2, kmalloc 64 demo_heap = Some (KERNEL_HEAP_START + 0 + HDR, s1) /\
    kfree (KERNEL_HEAP_START + 0 + HDR) s1 = Some (tt, s2) /\
    kfree (KERNEL_HEAP_START + 0 + HDR) s2 = Some (tt, s2).
Proof.
  pose proof (kmalloc_outcome demo_heap _ 64 demo_heap_rep ltac:(lia) ltac:(lia)) as H.
  apply wp_inv in H as (p & s1 & E & H).
  assert (a_malloc (align8 64 + HDR) [(KERNEL_HEAP_SIZE, false)] =
    Some (0, [(88, true); (KERNEL_HEAP_SIZE - 88, false)])) as Ea by (vm_compute; reflexivity).
  rewrite Ea in H. destruct H as (-> & Hrep & _).
  destruct (kfree_twice s1 _ 0 88 Hrep ltac:(by left)) as (s2 & E1 & E2).
  exists s1, s2. split; [exact E|]. split; [exact E1|exact E2].
Defined.

(** Once nothing is in use, coalescing has restored a single free block: a request for
    the whole heap less one header succeeds again (no fragmentation is left behind). *)
Theorem heap_fully_coalesced s bl : heap_rep s bl -> (forall o z, ~ used_at bl o z) ->
  wp (kmalloc (KERNEL_HEAP_SIZE - HDR)) (fun p s' =>
    p = KERNEL_HEAP_START + HDR /\ heap_rep s' [(KERNEL_HEAP_SIZE, true)]) s.
Proof.
  intros Hrep Hno. assert (bl = [(KERNEL_HEAP_SIZE, false)]) as ->.
  { rewrite <- (rep_total _ _ Hrep). apply coalesced_all_free.
    - apply (rep_coalesced _ _ Hrep).
    - intros ->. by pose proof (rep_total _ _ Hrep).
    - intros [z u] Hb. destruct u; [|done]. destruct (layout_member 0 bl _ Hb) as [o Ho]. by destruct (Hno o z). }
  eapply wp_mono; [apply kmalloc_outcome; [exact Hrep|done|done]|]. intros p s'.
  change (a_malloc (align8 (KERNEL_HEAP_SIZE - HDR) + HDR) [(KERNEL_HEAP_SIZE, false)])
    with (Some (0, [(KERNEL_HEAP_SIZE, true)])). by intros (-> & Hr & _).
Qed.

Lemma heap_fully_coalesced_witness :
  exists s', kmalloc (KERNEL_HEAP_SIZE - HDR) demo_heap = Some (KERNEL_HEAP_START + HDR, s') /\
    heap_rep s' [(KERNEL_HEAP_SIZE, true)].
Proof.
  assert (forall o z, ~ used_at [(KERNEL_HEAP_SIZE, false)] o z) as Hno.
  { intros o z Hu. unfold used_at in Hu. simpl in Hu. apply list_elem_of_singleton in Hu. congruence. }
  pose proof (heap_fully_coalesced demo_heap _ demo_heap_rep Hno) as H.
  apply wp_inv in H as (p & s' & E & -> & Hrep). exists s'. split; [exact E|exact Hrep].
Defined.

(** [heap_get_stats] reports the bytes of the blocks in use and of the free blocks, whose
    sum is always the size of the heap, and leaves the heap unchanged. *)
Theorem heap_get_stats_correct s bl : heap_rep s bl ->
  heap_get_stats s = Some ((used_total bl, free_total bl), s) /\
  used_total bl + free_total bl = KERNEL_HEAP_SIZE.
Proof.
  intros Hrep. pose proof Hrep as [Hst _ Hc Hs Ht _ _].
  split; [|by rewrite used_free_total].
  assert (head_ptr KERNEL_HEAP_START bl 0 = KERNEL_HEAP_START) as Hp.
  { destruct bl; [|done]. simpl in Ht. unfold KERNEL_HEAP_SIZE in Ht. lia. }
  assert (wp heap_get_stats (fun r s' => s' = s /\ r = (used_total bl, free_total bl)) s) as Hwp.
  { unfold heap_get_stats. wstep. apply wp_heap_lock. wsteps. simpl heap_start. rewrite Hst, <- Hp at 1.
    eapply wp_mono.
    - eapply stats_loop_spec; [done|apply heap_start_pos|exact Hc| |done|done|].
      + unfold list_fuel. apply chain_length in Hc; [simpl; lia|done].
      + rewrite Ht. done.
    - intros r s' [-> ->]. wstep. apply wp_modify. wstep. split; [by destruct s|done]. }
  apply wp_inv in Hwp as (r & s' & E & -> & ->). done.
Qed.

Lemma heap_get_stats_witness : heap_get_stats demo_heap = Some ((0, KERNEL_HEAP_SIZE), demo_heap).
Proof. exact (proj1 (heap_get_stats_correct demo_heap _ demo_heap_rep)). Defined.

(** Any interleaving of allocations, releases of live blocks, releases of already freed
    pointers, and stores by the owners of live blocks into their own payload (which may
    clobber the bytes of stale headers there). *)
Inductive heap_step bl (s : heap) : list block -> heap -> Prop :=
| hstep_malloc size p s' bl' : 0 < size -> size + 32 <= 2 ^ 64 ->
    kmalloc size s = Some (p, s') ->
    bl' = match a_malloc (align8 size + HDR) bl with Some (_, b) => b | None => bl end ->
    heap_step bl s bl' s'
| hstep_free off sz s' bl' : used_at bl off sz -> a_free off bl = Some bl' ->
    kfree (KERNEL_HEAP_START + off + HDR) s = Some (tt, s') -> heap_step bl s bl' s'
| hstep_refree p h s' : hdrs s !! (p - HDR) = Some h -> hb_magic h <> HEAP_MAGIC_USED ->
    kfree p s = Some (tt, s') -> heap_step bl s bl s'
| hstep_store off sz m : used_at bl off sz ->
    (forall x, x + HDR <= KERNEL_HEAP_START + off + HDR \/ KERNEL_HEAP_START + off + sz <= x ->
       m !! x = hdrs s !! x) ->
    heap_step bl s bl (set_hdrs m s).

Lemma addrs_layout a bl x : x ∈ addrs a bl <-> exists b, (x, b) ∈ layout a bl.
Proof.
  revert a. induction bl as [|c bl IH]; intros a; simpl.
  - split; [intros Hx; by apply elem_of_nil in Hx|intros [b Hx]; by apply elem_of_nil in Hx].
  - rewrite elem_of_cons, IH. split.
    + intros [->|[b Hb]]; [exists c; set_solver|exists b; set_solver].
    + intros [b [[= -> ->]|Hb]%elem_of_cons]; [by left|right; by exists b].
Qed.

Lemma layout_shift a d bl o b : (o, b) ∈ layout a bl <-> (o + d, b) ∈ layout (a + d) bl.
Proof.
  revert a. induction bl as [|c bl IH]; intros a; simpl; [split; intros Hx; by apply elem_of_nil in Hx|].
  rewrite !elem_of_cons, IH, <- Z.add_assoc, (Z.add_comm c.1 d), Z.add_assoc.
  split; (intros [[= E ->]|?]; [left; f_equal; lia|by right]).
Qed.

(** C8: Every interleaving of allocations, releases, double releases and stores inside live
    payloads preserves the heap invariant, so the block list keeps tiling the heap. *)
Theorem heap_step_invariant s bl s' bl' : heap_rep s bl -> heap_step bl s bl' s' -> heap_rep s' bl'.
Proof.
  intros Hrep [size p s1 bl1 H0 Hmax E ->|off sz s1 bl1 Hu Ef E|p h s1 Hh Hm E|off sz m Hu Hsame].
  - pose proof (wp_run _ _ _ _ _ (kmalloc_outcome s bl size Hrep H0 Hmax) E) as H. cbv beta in H.
    destruct (a_malloc (align8 size + HDR) bl) as [[o b]|]; [by destruct H as (_ & ? & _)|].
    by destruct H as [_ ->].
  - by apply (wp_run _ _ _ _ _ (kfree_outcome s bl off bl1 Hrep Ef) E).
  - unfold kfree in E. destruct (p =? 0); [injection E as <-; done|].
    erewrite bind_Some in E by reflexivity. erewrite bind_Some in E by (apply load_run; exact Hh).
    rewrite (proj2 (Z.eqb_neq _ _) Hm) in E. injection E as <-. by destruct s.
  - apply blocks_rep in Hrep as (Hst & Hi & Hc & Hok). apply blocks_rep. split; [done|]. split; [done|].
    split; [|done]. eapply chain_ext; [|exact Hc]. intros x [b Hb]%addrs_layout. apply Hsame.
    apply (layout_shift _ (- KERNEL_HEAP_START)) in Hb. rewrite Z.add_opp_diag_r in Hb.
    destruct (layout_disjoint 0 bl _ _ _ _ (bo_sizes _ Hok) Hb Hu) as [[? _]|Hd]; unfold HDR; [lia|].
    apply layout_range in Hb; [|apply (bo_sizes _ Hok)]. unfold HDR in *. simpl in *. lia.
Qed.

Lemma heap_step_witness :
  exists s1 s2 bl2, heap_step [(KERNEL_HEAP_SIZE, false)] demo_heap
      [(128, true); (KERNEL_HEAP_SIZE - 128, false)] s1 /\
    heap_step [(128, true); (KERNEL_HEAP_SIZE - 128, false)] s1 bl2 s2 /\ heap_rep s2 bl2.
Proof.
  destruct (kmalloc 100 demo_heap) as [[p s1]|] eqn:E; [|vm_compute in E; discriminate E].
  assert (heap_step [(KERNEL_HEAP_SIZE, false)] demo_heap [(128, true); (KERNEL_HEAP_SIZE - 128, false)] s1) as H1
    by (apply (hstep_malloc _ _ 100 p); [lia|lia|exact E|vm_compute; reflexivity]).
  pose proof (heap_step_invariant _ _ _ _ demo_heap_rep H1) as Hrep1.
  assert (heap_step [(128, true); (KERNEL_HEAP_SIZE - 128, false)] s1
    [(128, true); (KERNEL_HEAP_SIZE - 128, false)] (set_hdrs (hdrs s1) s1)) as H2
    by (apply (hstep_store _ _ 0 128); [by left|intros; reflexivity]).
  exists s1, (set_hdrs (hdrs s1) s1), [(128, true); (KERNEL_HEAP_SIZE - 128, false)].
  split; [exact H1|]. split; [exact H2|]. exact (heap_step_invariant _ _ _ _ Hrep1 H2).
Defined.

(** [kmalloc] does not guard the rounding of its argument: a request for [2^64 - 1] bytes
    wraps to an empty payload and succeeds with a 24-byte block, and one for [2^64 - 24]
    bytes computes a total of 0, splits the first block at offset 0 and leaves its header
    linked to itself. *)
Theorem kmalloc_size_overflow :
  (exists s, kmalloc (2 ^ 64 - 1) demo_heap = Some (KERNEL_HEAP_START + HDR, s) /\
     hb_size <$> hdrs s !! KERNEL_HEAP_START = Some HDR) /\
  (exists s, kmalloc (2 ^ 64 - 24) demo_heap = Some (KERNEL_HEAP_START + HDR, s) /\
     hb_next <$> hdrs s !! KERNEL_HEAP_START = Some KERNEL_HEAP_START).
Proof. split; eexists; split; [vm_compute; reflexivity..|vm_compute; reflexivity| |]; vm_compute; reflexivity. Qed.
