(* ===== verification/Shm.v ===== *)
(** Model of kernel/system/mm/shm.c: the registry of shared mmap regions.  A region counts one
    reference per mapped page of every process; the release of the last one gives the frames
    back.  The registry is a client of the page allocator and of the kernel heap and is modelled
    against their interfaces. *)

From S2P Require Import Prelude Memory Interfaces Pmm Heap.

Definition MAX_SHARED_REGIONS : Z := 16.
Definition MAX_SHARED_REGION_PAGES : Z := 4096.

Record shared_region := mk_region {
  in_use : bool;
  refcount : Z;          (* int *)
  num_pages : Z;         (* uint64_t *)
  pages_ptr : Z;         (* uint64_t *pages, 0 is NULL *)
  pages : list Z;        (* what the array at [pages_ptr] holds *)
}.

Definition no_region : shared_region := mk_region false 0 0 0 [].

Section shm.
Context {PS HS : Type} `{!PageAllocator PS} `{!BlockAllocator HS}.

Record shm := mk_shm {
  g_regions : list shared_region;
  frames : PS;
  kheap : HS;
}.

Definition set_region (i : Z) (r : shared_region) : M shm unit := fun s =>
  l ← zset (g_regions s) i r; Some (tt, mk_shm l (frames s) (kheap s)).

Definition get_region (i : Z) : M shm shared_region := fun s =>
  r ← zget (g_regions s) i; Some (r, s).

Definition on_frames {A} (m : M PS A) : M shm A := fun s =>
  '(a, p) ← m (frames s); Some (a, mk_shm (g_regions s) p (kheap s)).

Definition on_heap {A} (m : M HS A) : M shm A := fun s =>
  '(a, h) ← m (kheap s); Some (a, mk_shm (g_regions s) (frames s) h).

Definition shm_init : M shm unit :=
  for_range (R := unit) 0 MAX_SHARED_REGIONS (fun i => set_region i no_region;; mret None);;
  mret tt.

Definition shm_create (pgs : list Z) (n : Z) : M shm Z :=
  if (n =? 0) || (MAX_SHARED_REGION_PAGES <? n) then mret (-1) else
  slot ← for_range 0 MAX_SHARED_REGIONS (fun i =>
           r ← get_region i;
           mret (if negb (in_use r) then Some i else None));
  match slot with
  | None => mret (-1)
  | Some slot =>
      copy ← on_heap (ba_alloc (u64 (n * 8)));
      if copy =? 0 then mret (-1) else
      content ← lift (if n <=? zlen pgs then Some (take (Z.to_nat n) pgs) else None);
      set_region slot (mk_region true (i32 n) n copy content);;
      mret slot
  end.

(** The guard shared by the operations on an id. *)
Definition live_region (id : Z) : M shm (option shared_region) :=
  if (id <? 0) || (MAX_SHARED_REGIONS <=? id) then mret None
  else r ← get_region id; mret (if in_use r then Some r else None).

Definition shm_add_ref (id : Z) : M shm unit :=
  r ← live_region id;
  match r with
  | None => mret tt
  | Some r => set_region id (mk_region (in_use r) (i32 (refcount r + 1)) (num_pages r) (pages_ptr r) (pages r))
  end.

Definition shm_release (id : Z) : M shm unit :=
  r ← live_region id;
  match r with
  | None => mret tt
  | Some r =>
      let r := mk_region (in_use r) (i32 (refcount r - 1)) (num_pages r) (pages_ptr r) (pages r) in
      set_region id r;;
      if 0 <? refcount r then mret tt else
      for_range (R := unit) 0 (num_pages r) (fun i =>
        f ← lift (zget (pages r) i); on_frames (pa_release f);; mret None);;
      on_heap (ba_release (pages_ptr r));;
      set_region id (mk_region false (refcount r) 0 0 [])
  end.

(** [pages_out] receives the first [min n max_pages] frames; [num_pages_out] may be null. *)
Definition shm_get_pages (id max_pages : Z) : M shm (Z * list Z * Z) :=
  r ← live_region id;
  match r with
  | None => mret (-1, [], 0)
  | Some r =>
      let n := if max_pages <? num_pages r then max_pages else num_pages r in
      out ← lift (if n <=? zlen (pages r) then Some (take (Z.to_nat n) (pages r)) else None);
      mret (0, out, num_pages r)
  end.

Definition shm_get_num_pages (id : Z) : M shm Z :=
  r ← live_region id;
  mret (match r with None => 0 | Some r => num_pages r end).

Definition shm_find_region_by_page (phys : Z) : M shm Z :=
  r ← for_range 0 MAX_SHARED_REGIONS (fun i =>
        r ← get_region i;
        if negb (in_use r) then mret None else
        for_range 0 (num_pages r) (fun p =>
          f ← lift (zget (pages r) p);
          mret (if f =? phys then Some i else None)));
  mret (default (-1) r).

(** * Invariant *)

(** The frames of a live region are allocated and known to the page allocator. *)
Definition held (p : PS) (f : Z) : Prop := is_frame f /\ pa_managed p f /\ ~ pa_free p f.

Record region_ok (p : PS) (r : shared_region) : Prop := {
  ro_refs : 1 <= refcount r < 2 ^ 31;
  ro_count : 1 <= num_pages r <= MAX_SHARED_REGION_PAGES;
  ro_len : zlen (pages r) = num_pages r;
  ro_nodup : NoDup (pages r);
  ro_held : Forall (held p) (pages r);
}.

(** Region [i] is live and is [r]. *)
Definition region_at (s : shm) (i : Z) (r : shared_region) : Prop :=
  zget (g_regions s) i = Some r /\ in_use r = true.

Record shm_wf (s : shm) : Prop := {
  sw_len : zlen (g_regions s) = MAX_SHARED_REGIONS;
  sw_frames : pa_wf (frames s);
  sw_regions : forall i r, region_at s i r -> region_ok (frames s) r;
  sw_disjoint : forall i j r r', region_at s i r -> region_at s j r' -> i <> j ->
    pages_ptr r <> pages_ptr r' /\ forall f, f ∈ pages r -> ~ (f ∈ pages r');
  sw_heap : exists live, ba_rep (kheap s) live /\ forall i r, region_at s i r -> pages_ptr r ∈ live;
}.

Lemma wp_get_region Q s i r : zget (g_regions s) i = Some r -> Q r s -> wp (get_region i) Q s.
Proof. intros H HQ. unfold wp, get_region. by rewrite H. Qed.

Lemma wp_set_region Q s i r :
  0 <= i < zlen (g_regions s) ->
  Q tt (mk_shm (<[Z.to_nat i := r]> (g_regions s)) (frames s) (kheap s)) -> wp (set_region i r) Q s.
Proof. intros H HQ. unfold wp, set_region. by rewrite zset_in. Qed.

Lemma wp_on_frames {A} (m : M PS A) Q s :
  wp m (fun a p => Q a (mk_shm (g_regions s) p (kheap s))) (frames s) -> wp (on_frames m) Q s.
Proof. unfold wp, on_frames. by destruct (m (frames s)) as [[a p]|]. Qed.

Lemma wp_on_heap {A} (m : M HS A) Q s :
  wp m (fun a h => Q a (mk_shm (g_regions s) (frames s) h)) (kheap s) -> wp (on_heap m) Q s.
Proof. unfold wp, on_heap. by destruct (m (kheap s)) as [[a p]|]. Qed.

Lemma wp_live_region Q s id :
  zlen (g_regions s) = MAX_SHARED_REGIONS ->
  ((exists r, region_at s id r /\ Q (Some r) s) \/ ((forall r, ~ region_at s id r) /\ Q None s)) ->
  wp (live_region id) Q s.
Proof.
  intros Hl HQ. unfold live_region. destruct (_ || _) eqn:E.
  { wstep. destruct HQ as [(r & [Hr _] & _)|[_ HQ]]; [|done].
    apply zget_range in Hr. rewrite Hl in Hr. unfold MAX_SHARED_REGIONS in *. lia. }
  destruct (zget_Some (g_regions s) id) as [r Hr]; [rewrite Hl; unfold MAX_SHARED_REGIONS in *; lia|].
  wstep. eapply wp_get_region; [done|]. wstep.
  destruct HQ as [(r' & [Hr' Hu] & HQ)|[Hno HQ]].
  - rewrite Hr in Hr'. injection Hr' as ->. by rewrite Hu.
  - destruct (in_use r) eqn:Hu; [|done]. by destruct (Hno r).
Qed.

(** Looking up a region after a slot was overwritten. *)
Lemma region_at_set s p h i r j r' :
  0 <= i < zlen (g_regions s) ->
  region_at (mk_shm (<[Z.to_nat i := r]> (g_regions s)) p h) j r' <-> (j = i /\ r' = r /\ in_use r = true) \/ (j <> i /\ region_at s j r').
Proof.
  intros Hi. unfold region_at. simpl. destruct (decide (j = i)) as [->|Hne].
  - rewrite zget_insert_eq by done. naive_solver.
  - rewrite zget_insert_ne by lia. naive_solver.
Qed.

Lemma region_index s i r : shm_wf s -> region_at s i r -> 0 <= i < zlen (g_regions s).
Proof. intros _ [H _]. by eapply zget_range. Qed.

(** ** Adding a reference, dropping one that is not the last *)

Lemma set_refs_wf s id r n :
  shm_wf s -> region_at s id r -> 1 <= n < 2 ^ 31 ->
  shm_wf (mk_shm (<[Z.to_nat id := mk_region (in_use r) n (num_pages r) (pages_ptr r) (pages r)]>
                    (g_regions s)) (frames s) (kheap s)).
Proof.
  intros Hwf Hr Hn. pose proof (region_index _ _ _ Hwf Hr) as Hid.
  set (r1 := mk_region _ _ _ _ _). set (s1 := mk_shm _ _ _).
  assert (forall j r', region_at s1 j r' -> exists r0, region_at s j r0 /\
    (refcount r' = refcount r0 \/ refcount r' = n) /\ num_pages r' = num_pages r0 /\
    pages_ptr r' = pages_ptr r0 /\ pages r' = pages r0) as Hback.
  { intros j r' H. apply region_at_set in H; [|done].
    destruct H as [(-> & -> & _)|(_ & H)]; [exists r; naive_solver|exists r'; naive_solver]. }
  destruct Hwf as [Hl Hf Hreg Hdis (live & Hlive & Hptr)]. split.
  - simpl. by rewrite zlen_insert.
  - done.
  - intros j r' (r0 & H0 & Hc & Hn' & _ & Hp)%Hback. destruct (Hreg _ _ H0).
    split; rewrite ?Hn', ?Hp; try done. destruct Hc as [->| ->]; done.
  - intros i j r' r'' (a & Ha & _ & _ & Hpa & Hga)%Hback (b & Hb & _ & _ & Hpb & Hgb)%Hback Hne.
    rewrite Hpa, Hpb, Hga, Hgb. by eapply Hdis.
  - exists live. split; [done|]. intros j r' (r0 & H0 & _ & _ & -> & _)%Hback. by eapply Hptr.
Qed.

Lemma shm_add_ref_outcome s id r :
  shm_wf s -> region_at s id r -> refcount r < 2 ^ 31 - 1 ->
  wp (shm_add_ref id) (fun _ s' => shm_wf s' /\ frames s' = frames s /\
    region_at s' id (mk_region true (refcount r + 1) (num_pages r) (pages_ptr r) (pages r)) /\
    forall j r', j <> id -> (region_at s' j r' <-> region_at s j r')) s.
Proof.
  intros Hwf Hr Hmax. pose proof (region_index _ _ _ Hwf Hr) as Hid.
  destruct (sw_regions _ Hwf _ _ Hr) as [Href _ _ _ _].
  unfold shm_add_ref. wstep. apply wp_live_region; [apply Hwf|]. left. exists r. split; [done|].
  apply wp_set_region; [done|]. rewrite i32_small by lia. split; [by apply set_refs_wf; try lia|].
  split; [done|]. split.
  - apply region_at_set; [done|]. left. destruct Hr as [_ ->]. done.
  - intros j r' Hne. rewrite region_at_set by done. naive_solver.
Qed.

(** ** Releasing the frames of a region *)

Lemma release_frames_spec (l : list Z) s :
  pa_wf (frames s) -> NoDup l -> Forall (held (frames s)) l ->
  wp (for_range (R := unit) 0 (zlen l) (fun i =>
        f ← lift (zget l i); on_frames (pa_release f);; mret None))
     (fun _ s' => g_regions s' = g_regions s /\ kheap s' = kheap s /\ pa_wf (frames s') /\
        (forall f, pa_managed (frames s') f <-> pa_managed (frames s) f) /\
        forall f, is_frame f -> (pa_free (frames s') f <-> pa_free (frames s) f \/ f ∈ l)) s.
Proof.
  intros Hwf Hnd Hh.
  apply (wp_for_range (fun i s' => g_regions s' = g_regions s /\ kheap s' = kheap s /\ pa_wf (frames s') /\
        (forall f, pa_managed (frames s') f <-> pa_managed (frames s) f) /\
        forall f, is_frame f -> (pa_free (frames s') f <-> pa_free (frames s) f \/ f ∈ take (Z.to_nat i) l))).
  - repeat split; try done.
    + intros. by left.
    + intros [?|H0]; [done|]. by apply elem_of_nil in H0.
  - apply zlen_nonneg.
  - intros i s' Hi (Hg & Hk & Hw & Hm & Hf). destruct (zget_Some l i Hi) as [f Hfi].
    assert (l !! Z.to_nat i = Some f) as Hfi'.
    { unfold zget in Hfi. by rewrite (proj2 (Z.leb_le 0 i)) in Hfi by lia. }
    pose proof (list_elem_of_lookup_2 _ _ _ Hfi') as Hin.
    destruct (proj1 (Forall_forall _ _) Hh f Hin) as (Hfr & Hman & _).
    wstep. eapply wp_lift; [exact Hfi|]. wstep. apply wp_on_frames.
    eapply wp_mono; [apply pa_release_spec; [done|done|by apply Hm]|].
    intros ? p (Hw' & Hm' & Hf'). wstep. simpl. repeat split; try done.
    + intros. by apply Hm, Hm'.
    + intros. by apply Hm', Hm.
    + rewrite Hf', Hf by done. replace (Z.to_nat (i + 1)) with (S (Z.to_nat i)) by lia.
      rewrite (take_S_r _ _ _ Hfi'), elem_of_app, list_elem_of_singleton. naive_solver.
    + rewrite Hf', Hf by done. replace (Z.to_nat (i + 1)) with (S (Z.to_nat i)) by lia.
      rewrite (take_S_r _ _ _ Hfi'), elem_of_app, list_elem_of_singleton. naive_solver.
  - intros s' (Hg & Hk & Hw & Hm & Hf). repeat split; try done.
    + apply Hm.
    + apply Hm.
    + rewrite Hf, take_ge by (done || unfold zlen; lia). done.
    + rewrite Hf, take_ge by (done || unfold zlen; lia). done.
Qed.

Lemma drop_region_wf s s' id r h live :
  shm_wf s -> region_at s id r ->
  (forall j r', region_at s' j r' -> j <> id /\ region_at s j r') ->
  zlen (g_regions s') = MAX_SHARED_REGIONS -> pa_wf (frames s') ->
  (forall f, pa_managed (frames s') f <-> pa_managed (frames s) f) ->
  (forall f, is_frame f -> (pa_free (frames s') f <-> pa_free (frames s) f \/ f ∈ pages r)) ->
  kheap s' = h -> ba_rep h (live ∖ {[pages_ptr r]}) ->
  (forall i r', region_at s i r' -> pages_ptr r' ∈ live) ->
  shm_wf s'.
Proof.
  intros [Hl Hf Hreg Hdis _] Hr Hback Hl' Hw Hm Hfr Hk Hba Hlive. split; [done|done| | |].
  - intros j r' [Hne Hj]%Hback. destruct (Hreg _ _ Hj) as [? ? ? ? Hh]. split; try done.
    apply Forall_forall. intros f Hin. destruct (proj1 (Forall_forall _ _) Hh f Hin) as (H1 & H2 & H3).
    split; [done|]. split; [by apply Hm|]. rewrite Hfr by done. intros [?|Hin']; [done|].
    by destruct (Hdis _ _ _ _ Hj Hr Hne) as [_ H0]; destruct (H0 f Hin).
  - intros i j r1 r2 [_ Hi]%Hback [_ Hj]%Hback. by eapply Hdis.
  - exists (live ∖ {[pages_ptr r]}). rewrite Hk. split; [done|].
    intros j r' [Hne Hj]%Hback. apply elem_of_difference. split; [by eapply Hlive|].
    apply not_elem_of_singleton. by destruct (Hdis _ _ _ _ Hj Hr Hne) as [? _].
Qed.

(** What a release does to the registry, by the number of references left. *)
Record release_effect (s : shm) (id : Z) (s' : shm) : Prop := {
  re_none : (forall r, ~ region_at s id r) -> s' = s;
  re_more : forall r, region_at s id r -> 1 < refcount r -> frames s' = frames s /\
    region_at s' id (mk_region true (refcount r - 1) (num_pages r) (pages_ptr r) (pages r));
  re_last : forall r, region_at s id r -> refcount r = 1 ->
    (forall r', ~ region_at s' id r') /\
    forall f, is_frame f -> (pa_free (frames s') f <-> pa_free (frames s) f \/ f ∈ pages r);
  re_other : forall j r, j <> id -> (region_at s' j r <-> region_at s j r);
}.

Lemma region_at_fun s i r r' : region_at s i r -> region_at s i r' -> r = r'.
Proof. intros [H _] [H' _]. congruence. Qed.

Lemma shm_release_outcome s id :
  shm_wf s -> wp (shm_release id) (fun _ s' => shm_wf s' /\ release_effect s id s') s.
Proof.
  intros Hwf. unfold shm_release. wstep. apply wp_live_region; [apply Hwf|].
  destruct (zget (g_regions s) id) as [r|] eqn:Hz.
  2: { right. assert (forall r, ~ region_at s id r) as Hno by (intros r [H _]; congruence).
       split; [done|]. wstep. split; [done|]. split; try done; intros r Hr; by destruct (Hno r). }
  destruct (in_use r) eqn:Hu.
  2: { right. assert (forall r, ~ region_at s id r) as Hno by (intros r' [H H']; congruence).
       split; [done|]. wstep. split; [done|]. split; try done; intros r' Hr; by destruct (Hno r'). }
  assert (region_at s id r) as Hr by done. left. exists r. split; [done|].
  pose proof (region_index _ _ _ Hwf Hr) as Hid.
  destruct (sw_regions _ Hwf _ _ Hr) as [Href Hcnt Hlen Hnd Hheld].
  wstep. apply wp_set_region; [done|]. cbn [refcount num_pages pages pages_ptr].
  rewrite i32_small by lia. destruct (0 <? refcount r - 1) eqn:E.
  { wstep. split; [apply set_refs_wf; [done|done|lia]|].
    assert (forall r', region_at s id r' -> r' = r) as Hun by (intros; by eapply region_at_fun).
    split.
    - intros Hno. by destruct (Hno r).
    - intros r' ->%Hun _. split; [done|]. apply region_at_set; [done|]. left. by rewrite Hu.
    - intros r' ->%Hun. lia.
    - intros j r' Hne. rewrite region_at_set by done. naive_solver. }
  destruct (sw_heap _ Hwf) as (live & Hba & Hptr).
  wstep. rewrite <- Hlen. eapply wp_mono; [apply release_frames_spec; [apply Hwf|done|done]|].
  intros ? s2 (Hg & Hk & Hw & Hm & Hf). cbn [g_regions kheap frames] in *.
  wstep. apply wp_on_heap. rewrite Hk.
  eapply wp_mono; [apply (ba_release_spec _ live); [done|by eapply Hptr]|]. intros ? h Hba'.
  apply wp_set_region; cbn [g_regions frames kheap]; rewrite Hg; [by rewrite zlen_insert|].
  rewrite list_insert_insert_eq. 
  assert (forall r', region_at s id r' -> r' = r) as Hun by (intros; by eapply region_at_fun).
  split.
  - apply (drop_region_wf s _ id r h live); [done|exact Hr| | |exact Hw|exact Hm|exact Hf|done|exact Hba'|exact Hptr]; simpl.
    + intros j r' [(_ & -> & [=])|?]%region_at_set; [|done]. done.
    + rewrite zlen_insert. apply Hwf.
  - split; simpl.
    + intros Hno. by destruct (Hno r).
    + intros r' ->%Hun. lia.
    + intros r' ->%Hun _. split; [|done]. intros r' [(_ & -> & [=])|[? _]]%region_at_set; done.
    + intros j r' Hne. rewrite region_at_set by done. naive_solver.
Qed.

(** ** Creating a region *)

(** The frames a caller may register: allocated, distinct, in no region yet. *)
Record fresh_pages (s : shm) (l : list Z) : Prop := {
  fp_nodup : NoDup l;
  fp_held : Forall (held (frames s)) l;
  fp_new : forall i r f, region_at s i r -> f ∈ pages r -> ~ (f ∈ l);
}.

Lemma find_slot_spec s :
  zlen (g_regions s) = MAX_SHARED_REGIONS ->
  wp (for_range 0 MAX_SHARED_REGIONS (fun i =>
        r ← get_region i; mret (if negb (in_use r) then Some i else None)))
     (fun o s' => s' = s /\
        match o with
        | Some i => 0 <= i < MAX_SHARED_REGIONS /\ forall r, ~ region_at s i r
        | None => forall i, 0 <= i < MAX_SHARED_REGIONS -> exists r, region_at s i r
        end) s.
Proof.
  intros Hl. apply (wp_for_range (fun i s' => s' = s /\ forall j, 0 <= j < i -> exists r, region_at s j r)).
  - split; [done|lia].
  - done.
  - intros i s' Hi [-> Hpre]. destruct (zget_Some (g_regions s) i) as [r Hr]; [by rewrite Hl|].
    wstep. eapply wp_get_region; [done|]. wstep. destruct (in_use r) eqn:Hu; cbn [negb].
    + split; [done|]. intros j Hj. destruct (decide (j = i)) as [->|]; [by exists r|]. apply Hpre. lia.
    + split; [done|]. split; [done|]. intros r' [H1 H2]. congruence.
  - intros s' [-> H]. done.
Qed.

Lemma shm_create_outcome s pgs n :
  shm_wf s -> 1 <= n <= MAX_SHARED_REGION_PAGES -> n <= zlen pgs -> fresh_pages s (take (Z.to_nat n) pgs) ->
  wp (shm_create pgs n) (fun id s' => shm_wf s' /\ frames s' = frames s /\
    ((id = -1 /\ g_regions s' = g_regions s) \/
     (0 <= id < MAX_SHARED_REGIONS /\ (forall r, ~ region_at s id r) /\
      (exists p, region_at s' id (mk_region true n n p (take (Z.to_nat n) pgs))) /\
      forall j r, j <> id -> (region_at s' j r <-> region_at s j r)))) s.
Proof.
  intros Hwf Hn Hlen [Hnd Hheld Hnew]. pose proof Hwf as [Hl Hf Hreg Hdis (live & Hba & Hptr)].
  unfold shm_create, MAX_SHARED_REGION_PAGES in *. destruct (_ || _) eqn:E0; [lia|]. clear E0.
  wstep. eapply wp_mono; [by apply find_slot_spec|]. intros o s' [-> Ho].
  destruct o as [slot|]; [|wstep; split; [done|]; split; [done|]; by left].
  destruct Ho as [Hslot Hfree]. wstep. apply wp_on_heap. rewrite u64_small by (unfold is_u64; lia).
  eapply wp_mono; [apply (ba_alloc_spec _ live); [done|lia|lia]|].
  intros p h [[-> ->]|(Hp & Hnew' & Hba')].
  { rewrite Z.eqb_refl. wstep. split; [|split; [done|by left]]. by destruct s. }
  rewrite (proj2 (Z.eqb_neq p 0)) by done. wstep. eapply wp_lift.
  { by rewrite (proj2 (Z.leb_le n (zlen pgs))) by lia. }
  wstep. apply wp_set_region; [simpl; by rewrite Hl|]. wstep. rewrite i32_small by lia. simpl.
  set (r1 := mk_region true n n p _).
  assert (forall j r, region_at (mk_shm (<[Z.to_nat slot := r1]> (g_regions s)) (frames s) h) j r <->
     (j = slot /\ r = r1) \/ (j <> slot /\ region_at s j r)) as Hat.
  { intros j r. rewrite region_at_set by (by rewrite Hl). naive_solver. }
  split; [|split; [done|]].
  - split; simpl.
    + by rewrite zlen_insert.
    + done.
    + intros j r [[-> ->]|[_ Hj]]%Hat; [|by eapply Hreg].
      split; simpl; [lia|unfold MAX_SHARED_REGION_PAGES; lia| |done|done].
      unfold zlen in *. rewrite length_take. lia.
    + intros i j r r' [[-> ->]|[Hi Hri]]%Hat [[-> ->]|[Hj Hrj]]%Hat Hne; [done|..|by eapply Hdis]; simpl.
      * split; [intros ->; by apply Hnew', (Hptr j)|]. intros f Hin Hin'. by eapply Hnew.
      * split; [intros <-; by apply Hnew', (Hptr i)|]. intros f Hin Hin'. by eapply Hnew.
    + exists ({[p]} ∪ live). split; [done|]. intros j r [[-> ->]|[_ Hj]]%Hat; [set_solver|].
      apply elem_of_union_r. by eapply Hptr.
  - right. split; [done|]. split; [done|]. split; [exists p; apply Hat; by left|].
    intros j r Hne. rewrite Hat. naive_solver.
Qed.

(** ** Lookup by frame *)

Lemma find_page_spec (s : shm) r (i phys : Z) :
  zlen (pages r) = num_pages r ->
  wp (for_range 0 (num_pages r) (fun p =>
        f ← lift (zget (pages r) p); mret (if f =? phys then Some i else None)))
     (fun o s' => s' = s /\
        match o with Some j => j = i /\ phys ∈ pages r | None => ~ (phys ∈ pages r) end) s.
Proof.
  intros Hl. rewrite <- Hl.
  apply (wp_for_range (fun p s' => s' = s /\ ~ (phys ∈ take (Z.to_nat p) (pages r)))).
  - split; [done|]. intros H. by apply elem_of_nil in H.
  - apply zlen_nonneg.
  - intros p s' Hp [-> Hno]. destruct (zget_Some (pages r) p Hp) as [f Hf].
    assert (pages r !! Z.to_nat p = Some f) as Hf'.
    { unfold zget in Hf. by rewrite (proj2 (Z.leb_le 0 p)) in Hf by lia. }
    wstep. eapply wp_lift; [exact Hf|]. wstep. destruct (Z.eqb_spec f phys) as [->|Hne].
    + split; [done|]. split; [done|]. by eapply list_elem_of_lookup_2.
    + split; [done|]. replace (Z.to_nat (p + 1)) with (S (Z.to_nat p)) by lia.
      rewrite (take_S_r _ _ _ Hf'), elem_of_app, list_elem_of_singleton. naive_solver.
  - intros s' [-> H]. rewrite take_ge in H by (unfold zlen; lia). done.
Qed.

Lemma shm_find_outcome s phys :
  shm_wf s ->
  wp (shm_find_region_by_page phys) (fun id s' => s' = s /\
    ((id = -1 /\ forall i r, region_at s i r -> ~ (phys ∈ pages r)) \/
     exists r, region_at s id r /\ phys ∈ pages r)) s.
Proof.
  intros Hwf. unfold shm_find_region_by_page. wstep. pose proof (sw_len _ Hwf) as Hl.
  apply (wp_for_range (fun i s' => s' = s /\ forall j r, j < i -> region_at s j r -> ~ (phys ∈ pages r))).
  - split; [done|]. intros j r Hj [Hz _]. apply zget_range in Hz. lia.
  - done.
  - intros i s' Hi [-> Hpre]. destruct (zget_Some (g_regions s) i) as [r Hr]; [by rewrite Hl|].
    wstep. eapply wp_get_region; [done|]. destruct (in_use r) eqn:Hu; cbn [negb].
    + eapply wp_mono; [apply find_page_spec, (sw_regions _ Hwf i); done|].
      intros [v|] s' [-> Ho].
      * destruct Ho as [-> Hin]. wstep. split; [done|]. right. exists r. done.
      * split; [done|]. intros j r' Hj Hr'. destruct (decide (j = i)) as [->|]; [|eapply Hpre; [|done]; lia].
        destruct Hr' as [Hr' _]. congruence.
    + wstep. split; [done|]. intros j r' Hj Hr'. destruct (decide (j = i)) as [->|].
      * destruct Hr' as [Hr' Hu']. congruence.
      * eapply Hpre; [|done]. lia.
  - intros s' [-> H]. wstep. split; [done|]. left. split; [done|]. intros i r Hr.
    eapply H; [|done]. destruct Hr as [Hz _]. apply zget_range in Hz. lia.
Qed.

(** [k] releases of the same region, as the unmapping of [k] of its pages performs. *)
Fixpoint releases (k : nat) (id : Z) : M shm unit :=
  match k with
  | O => mret tt
  | S k => shm_release id;; releases k id
  end.

Lemma releases_outcome k s id r :
  shm_wf s -> region_at s id r -> Z.of_nat k <= refcount r ->
  wp (releases k id) (fun _ s' => shm_wf s' /\
    (Z.of_nat k < refcount r -> frames s' = frames s /\
       region_at s' id (mk_region true (refcount r - Z.of_nat k) (num_pages r) (pages_ptr r) (pages r))) /\
    (Z.of_nat k = refcount r -> (forall r', ~ region_at s' id r') /\
       forall f, is_frame f -> (pa_free (frames s') f <-> pa_free (frames s) f \/ f ∈ pages r)) /\
    forall j r', j <> id -> (region_at s' j r' <-> region_at s j r')) s.
Proof.
  revert s r. induction k as [|k IH]; intros s r Hwf Hr Hk; cbn [releases].
  { wstep. pose proof (ro_refs _ _ (sw_regions _ Hwf _ _ Hr)). split; [done|].
    split; [|split; [lia|done]]. intros _. split; [done|]. rewrite Z.sub_0_r. destruct Hr as [Hz Hu].
    destruct r; simpl in *; subst; done. }
  wstep. eapply wp_mono; [by apply shm_release_outcome|]. intros ? s1 [Hwf1 [_ Hmore Hlast Hoth]].
  destruct (decide (refcount r = 1)) as [H1|Hn1].
  - assert (k = 0%nat) as -> by lia. cbn [releases]. wstep. destruct (Hlast r Hr H1) as [Hgone Hfree].
    split; [done|]. split; [lia|]. split; [done|]. done.
  - destruct (Hmore r Hr) as [Hfr Hr1]; [lia|].
    eapply wp_mono; [eapply IH; [done|exact Hr1|simpl; lia]|]. simpl.
    intros ? s2 (Hwf2 & Hlt & Heq & Hoth2). rewrite Hfr in *. split; [done|]. split; [|split].
    + intros Hk'. destruct Hlt as [-> Hr2]; [lia|]. split; [done|].
      by replace (refcount r - Z.of_nat (S k)) with (refcount r - 1 - Z.of_nat k) by lia.
    + intros Hk'. apply Heq. lia.
    + intros j r' Hne. by rewrite Hoth2, Hoth.
Qed.

(** * Properties *)

(** Registering frames the caller holds either fails with [-1], leaving the registry as it
    was, or fills a free slot with exactly those frames and one reference per page; other regions
    and the page allocator are untouched, and no frame is in two regions. *)
Theorem shm_create_correct (s : shm) (pgs : list Z) (n : Z)
    (Hwf : shm_wf s) (Hn : 1 <= n <= MAX_SHARED_REGION_PAGES) (Hlen : n <= zlen pgs)
    (Hfresh : fresh_pages s (take (Z.to_nat n) pgs)) :
  exists id s', shm_create pgs n s = Some (id, s') /\ shm_wf s' /\ frames s' = frames s /\
    ((id = -1 /\ g_regions s' = g_regions s) \/
     (0 <= id < MAX_SHARED_REGIONS /\ (forall r, ~ region_at s id r) /\
      (exists p, region_at s' id (mk_region true n n p (take (Z.to_nat n) pgs))) /\
      forall j r, j <> id -> (region_at s' j r <-> region_at s j r))).
Proof. by apply wp_inv, shm_create_outcome. Qed.

(** C16: The frames of a region are given back exactly when its last reference goes: while fewer
    releases than references have happened the page allocator is untouched and the region still
    there; the release that brings the count to zero removes the region and frees its frames and
    no other, and other regions never notice. *)
Theorem shm_lifecycle (s : shm) (id : Z) (r : shared_region) (k : nat)
    (Hwf : shm_wf s) (Hr : region_at s id r) (Hk : Z.of_nat k <= refcount r) :
  exists s', releases k id s = Some (tt, s') /\ shm_wf s' /\
    (Z.of_nat k < refcount r -> frames s' = frames s /\
       region_at s' id (mk_region true (refcount r - Z.of_nat k) (num_pages r) (pages_ptr r) (pages r))) /\
    (Z.of_nat k = refcount r -> (forall r', ~ region_at s' id r') /\
       forall f, is_frame f -> (pa_free (frames s') f <-> pa_free (frames s) f \/ f ∈ pages r)) /\
    (forall j r', j <> id -> (region_at s' j r' <-> region_at s j r')).
Proof.
  destruct (wp_inv _ _ _ (releases_outcome k s id r Hwf Hr Hk)) as ([] & s' & E & H). by exists s'.
Qed.

(** [shm_find_region_by_page] finds the one live region that holds a frame, and returns [-1]
    exactly when there is none; [shm_add_ref] on the region adds one reference and nothing else. *)
Theorem shm_lookup_correct (s : shm) (phys : Z) (Hwf : shm_wf s) :
  exists id, shm_find_region_by_page phys s = Some (id, s) /\
    (id = -1 <-> forall i r, region_at s i r -> ~ (phys ∈ pages r)) /\
    (forall i r, region_at s i r -> phys ∈ pages r -> i = id) /\
    (forall r, region_at s id r -> refcount r < 2 ^ 31 - 1 ->
       exists s', shm_add_ref id s = Some (tt, s') /\ shm_wf s' /\ frames s' = frames s /\
         region_at s' id (mk_region true (refcount r + 1) (num_pages r) (pages_ptr r) (pages r))).
Proof.
  destruct (wp_inv _ _ _ (shm_find_outcome s phys Hwf)) as (id & s' & E & -> & H).
  exists id. split; [done|]. split; [|split].
  - destruct H as [[-> Hno]|(r & Hr & Hin)]; [done|]. split.
    + intros ->. destruct Hr as [Hz _]. apply zget_range in Hz. lia.
    + intros Hno. by destruct (Hno id r).
  - intros i r Hr Hin. destruct H as [[_ Hno]|(r' & Hr' & Hin')]; [by destruct (Hno i r)|].
    destruct (decide (i = id)) as [|Hne]; [done|].
    destruct (sw_disjoint _ Hwf _ _ _ _ Hr Hr' Hne) as [_ Hd]. by destruct (Hd phys).
  - intros r Hr Hmax. destruct (wp_inv _ _ _ (shm_add_ref_outcome s id r Hwf Hr Hmax)) as ([] & s' & ? & ? & ? & ? & _).
    by exists s'.
Qed.
End shm.

(** ** A registry over the real allocators *)

Definition demo_shm : shm (PS := pmm) (HS := heap) :=
  mk_shm (replicate 16 no_region) demo_pmm demo_heap.

Lemma demo_no_region i r : ~ region_at demo_shm i r.
Proof.
  intros [Hz Hu]. unfold zget in Hz. destruct (0 <=? i); [|done].
  apply lookup_replicate in Hz as [-> _]. done.
Qed.

Lemma demo_shm_wf : shm_wf demo_shm.
Proof.
  split.
  - done.
  - apply pmm_wfb_wf. vm_compute. reflexivity.
  - intros i r H. by destruct (demo_no_region i r).
  - intros i j r r' H. by destruct (demo_no_region i r).
  - exists ∅. split.
    + exists [(KERNEL_HEAP_SIZE, false)]. split; [apply demo_heap_rep|]. intros p. split; [set_solver|].
      intros (off & sz & Hu & _). unfold used_at in Hu. simpl in Hu. apply list_elem_of_singleton in Hu. congruence.
    + intros i r H. by destruct (demo_no_region i r).
Qed.

(** Frame 512 is allocated in [demo_pmm]. *)
Lemma demo_held : held demo_pmm (512 * 4096).
Proof.
  split; [|split].
  - split; [lia|reflexivity].
  - split; [vm_compute; discriminate|vm_compute; reflexivity].
  - intros [_ H]. vm_compute in H. discriminate H.
Qed.

Lemma demo_fresh : fresh_pages demo_shm (take (Z.to_nat 1) [512 * 4096]).
Proof.
  split.
  - apply NoDup_singleton.
  - constructor; [exact demo_held|constructor].
  - intros i r f H. by destruct (demo_no_region i r).
Qed.

Lemma shm_create_witness :
  exists s', shm_create [512 * 4096] 1 demo_shm = Some (0, s') /\ exists p, region_at s' 0 (mk_region true 1 1 p [512 * 4096]).
Proof.
  destruct (shm_create_correct demo_shm [512 * 4096] 1 demo_shm_wf) as (id & s' & E & _ & _ & H).
  - unfold MAX_SHARED_REGION_PAGES. lia.
  - unfold zlen. simpl. lia.
  - exact demo_fresh.
  - assert (option_map fst (shm_create [512 * 4096] 1 demo_shm) = Some 0) as E' by (vm_compute; reflexivity).
    rewrite E in E'. injection E' as ->. exists s'. split; [exact E|].
    destruct H as [[H _]|(_ & _ & H & _)]; [discriminate H|exact H].
Defined.

Lemma demo_region : exists s r, shm_wf (PS := pmm) (HS := heap) s /\ region_at s 0 r /\ refcount r = 1 /\ pages r = [512 * 4096] /\ frames s = demo_pmm.
Proof.
  destruct (wp_inv _ _ _ (shm_create_outcome demo_shm [512 * 4096] 1 demo_shm_wf
    ltac:(unfold MAX_SHARED_REGION_PAGES; lia) ltac:(unfold zlen; simpl; lia) demo_fresh))
    as (id & s' & E & Hwf & Hf & H).
  assert (option_map fst (shm_create [512 * 4096] 1 demo_shm) = Some 0) as E' by (vm_compute; reflexivity).
  rewrite E in E'. injection E' as ->.
  destruct H as [[H _]|(_ & _ & [p H] & _)]; [discriminate H|].
  exists s', (mk_region true 1 1 p (take (Z.to_nat 1) [512 * 4096])).
  split; [exact Hwf|]. split; [exact H|]. split; [reflexivity|]. split; [reflexivity|exact Hf].
Qed.

Lemma shm_lifecycle_witness :
  exists s s', releases (PS := pmm) (HS := heap) 1 0 s = Some (tt, s') /\ pa_free (frames s') (512 * 4096).
Proof.
  destruct demo_region as (s & r & Hwf & Hr & H1 & Hp & Hf).
  destruct (shm_lifecycle s 0 r 1 Hwf Hr) as (s' & E & _ & _ & Hlast & _); [rewrite H1; lia|].
  exists s, s'. split; [exact E|]. destruct Hlast as [_ Hfree]; [rewrite H1; reflexivity|].
  apply Hfree; [split; [lia|reflexivity]|]. right. rewrite Hp. left.
Defined.

Lemma shm_lookup_witness :
  exists s, shm_find_region_by_page (PS := pmm) (HS := heap) (512 * 4096) s = Some (0, s).
Proof.
  destruct demo_region as (s & r & Hwf & Hr & H1 & Hp & Hf).
  destruct (shm_lookup_correct s (512 * 4096) Hwf) as (id & E & _ & Hid & _).
  exists s. assert (0 = id) as <-; [|exact E]. apply (Hid 0 r Hr). rewrite Hp. left.
Defined.
