(* ===== verification/CString.v ===== *)
(** Model of kernel/lib/string.c: the word-at-a-time memory routines over byte memory, and the
    string and token routines over C strings.

    A [const char *] argument of a routine that only reads is the list of the bytes from the
    pointer to the end of its object; reading past that end faults ([None]).  [char] is signed,
    so comparisons of characters go through [schar]. *)

From S2P Require Import Prelude Memory.

(** * Memory routines *)

(** [while (n > 0 && ((uintptr_t)p & 7)) { *p++ = byte; n--; }]: the advanced pointer and what
    is left of [n]. *)
Fixpoint memset_head (n : nat) (p byte : Z) : M mem (Z * nat) :=
  match n with
  | O => mret (p, O)
  | S n' => if Z.land p 7 =? 0 then mret (p, n) else store8 p byte;; memset_head n' (p + 1) byte
  end.

Fixpoint memset_tail (n : nat) (p byte : Z) : M mem unit :=
  match n with
  | O => mret tt
  | S n => store8 p byte;; memset_tail n (p + 1) byte
  end.

Definition memset (s c n : Z) : M mem Z :=
  let byte := u8 c in
  '(p, n) ← memset_head (Z.to_nat n) s byte;
  let n := Z.of_nat n in
  '(p, n) ← (if 8 <=? n then
               let word := u64 (byte * 0x0101010101010101) in
               let words := n / 8 in
               for_range (R := unit) 0 words (fun i => store64 (p + 8 * i) word;; mret None);;
               mret (p + words * 8, n - words * 8)
             else mret (p, n));
  memset_tail (Z.to_nat n) p byte;;
  mret s.

Fixpoint memcpy_head (n : nat) (d s : Z) : M mem (Z * Z * nat) :=
  match n with
  | O => mret (d, s, O)
  | S n' =>
      if Z.land d 7 =? 0 then mret (d, s, n)
      else b ← load8 s; store8 d b;; memcpy_head n' (d + 1) (s + 1)
  end.

(** [while (n--) *d++ = *s++;] *)
Fixpoint copy_fwd (n : nat) (d s : Z) : M mem unit :=
  match n with
  | O => mret tt
  | S n => b ← load8 s; store8 d b;; copy_fwd n (d + 1) (s + 1)
  end.

(** [while (n--) *--d = *--s;] *)
Fixpoint copy_back (n : nat) (d s : Z) : M mem unit :=
  match n with
  | O => mret tt
  | S n => b ← load8 (s - 1); store8 (d - 1) b;; copy_back n (d - 1) (s - 1)
  end.

Definition memcpy (dest src n : Z) : M mem Z :=
  '(d, s, n) ←
    (if Z.land (Z.lxor dest src) 7 =? 0 then
       '(d, s, n) ← memcpy_head (Z.to_nat n) dest src;
       let n := Z.of_nat n in
       if 8 <=? n then
         let words := n / 8 in
         for_range (R := unit) 0 words
           (fun i => w ← load64 (s + 8 * i); store64 (d + 8 * i) w;; mret None);;
         mret (d + words * 8, s + words * 8, n - words * 8)
       else mret (d, s, n)
     else mret (dest, src, n));
  copy_fwd (Z.to_nat n) d s;;
  mret dest.

Definition memmove (dest src n : Z) : M mem Z :=
  if (dest =? src) || (n =? 0) then mret dest
  else if dest <? src then copy_fwd (Z.to_nat n) dest src;; mret dest
  else copy_back (Z.to_nat n) (dest + n) (src + n);; mret dest.

Fixpoint memcmp (a b : list Z) (n : nat) : option Z :=
  match n with
  | O => Some 0
  | S n =>
      match a, b with
      | x :: a, y :: b => if x =? y then memcmp a b n else Some (x - y)
      | _, _ => None
      end
  end.

(** [while ( *src) *dest++ = *src++; *dest = 0;] with the source at [src] in the same memory;
    the fuel bounds the length of the string. *)
Fixpoint strcpy_loop (fuel : nat) (d s : Z) : M mem unit :=
  match fuel with
  | O => fault
  | S fuel =>
      c ← load8 s;
      if c =? 0 then store8 d 0 else store8 d c;; strcpy_loop fuel (d + 1) (s + 1)
  end.

Definition strcpy (dest src : Z) : M mem Z := fun m =>
  (strcpy_loop (S (size m)) dest src;; mret dest) m.

(** * String routines *)

Fixpoint strlen (s : list Z) : option Z :=
  match s with
  | [] => None
  | c :: s => if c =? 0 then Some 0 else n ← strlen s; Some (1 + n)
  end.

Fixpoint strcmp (s1 s2 : list Z) : option Z :=
  match s1, s2 with
  | c1 :: r1, c2 :: r2 =>
      if negb (c1 =? 0) && (c1 =? c2) then strcmp r1 r2 else Some (c1 - c2)
  | _, _ => None
  end.

(** The loop of [strncmp], entered with [n] already decremented. *)
Fixpoint strncmp_loop (n : nat) (s1 s2 : list Z) : option Z :=
  match s1, s2 with
  | c1 :: r1, c2 :: r2 =>
      match n with
      | O => Some (c1 - c2)
      | S n => if negb (c1 =? 0) && (c1 =? c2) then strncmp_loop n r1 r2 else Some (c1 - c2)
      end
  | _, _ => None
  end.

Definition strncmp (s1 s2 : list Z) (n : nat) : option Z :=
  match n with
  | O => Some 0
  | S n => strncmp_loop n s1 s2
  end.

Definition to_lower (c : Z) : Z := if (65 <=? schar c) && (schar c <=? 90) then c + 32 else c.

Fixpoint strcmp_case_insensitive (s1 s2 : list Z) : option Z :=
  match s1, s2 with
  | c1 :: r1, c2 :: r2 =>
      if negb (c1 =? 0) && negb (c2 =? 0) then
        if to_lower c1 =? to_lower c2 then strcmp_case_insensitive r1 r2
        else Some (schar (to_lower c1) - schar (to_lower c2))
      else Some (schar (to_lower c1) - schar (to_lower c2))
  | _, _ => None
  end.

Definition is_blank (c : Z) : bool := (c =? 32) || (c =? 9).

Fixpoint skip_spaces (s : list Z) : option (list Z) :=
  match s with
  | [] => None
  | c :: r => if is_blank c then skip_spaces r else Some s
  end.

Fixpoint token_length (s : list Z) : option Z :=
  match s with
  | [] => None
  | c :: r => if (c =? 0) || is_blank c then Some 0 else n ← token_length r; Some (1 + n)
  end.

Fixpoint token_equals (s word : list Z) : option bool :=
  match word with
  | [] => None
  | w :: word' =>
      if w =? 0 then match s with [] => None | c :: _ => Some ((c =? 0) || is_blank c) end
      else match s with
           | [] => None
           | c :: r => if c =? w then token_equals r word' else Some false
           end
  end.

Definition help_words : list (list Z) :=
  [ [45; 104; 101; 108; 112; 0]; [45; 45; 104; 101; 108; 112; 0]; [45; 104; 0] ].

(** [None] for the argument is a null pointer. *)
Definition is_help_flag (args : option (list Z)) : option bool :=
  match args with
  | None => Some false
  | Some s =>
      r1 ← token_equals s [45; 104; 101; 108; 112; 0];
      if r1 : bool then Some true else
      r2 ← token_equals s [45; 45; 104; 101; 108; 112; 0];
      if r2 : bool then Some true else
      token_equals s [45; 104; 0]
  end.

Definition is_digit (c : Z) : bool := (48 <=? c) && (c <=? 57).

Fixpoint atoi_loop (s : list Z) (result : Z) : option Z :=
  match s with
  | [] => None
  | c :: s => if is_digit c then atoi_loop s (i32 (i32 (result * 10) + (c - 48))) else Some result
  end.

Definition atoi (str : list Z) : option Z :=
  match str with
  | [] => None
  | c :: r =>
      let '(sign, str) := if c =? 45 then (-1, r) else (1, str) in
      result ← atoi_loop str 0;
      Some (i32 (sign * result))
  end.

Definition hex_digit (c : Z) : option Z :=
  if (48 <=? c) && (c <=? 57) then Some (c - 48)
  else if (97 <=? c) && (c <=? 102) then Some (c - 97 + 10)
  else if (65 <=? c) && (c <=? 70) then Some (c - 65 + 10)
  else None.

Fixpoint hex_loop (s : list Z) (result : Z) : option Z :=
  match s with
  | [] => None
  | c :: s =>
      if c =? 0 then Some result
      else match hex_digit c with
           | Some digit => hex_loop s (i32 (i32 (result * 16) + digit))
           | None => Some result
           end
  end.

Definition hex_to_int (hex : list Z) : option Z := hex_loop hex 0.

(** * C strings as byte strings *)

(** [is_cstr l s]: the object [l] starts with the string [s] and its terminator. *)
Definition is_cstr (l s : list Z) : Prop :=
  exists rest, l = s ++ 0 :: rest /\ Forall (fun c => is_u8 c /\ c <> 0) s.

(** The string of [s] up to the first blank. *)
Fixpoint first_token (s : list Z) : list Z :=
  match s with
  | [] => []
  | c :: s => if is_blank c then [] else c :: first_token s
  end.

(** Byte-wise lexicographic order, a proper prefix being smaller. *)
Fixpoint lex_lt (s1 s2 : list Z) : bool :=
  match s1, s2 with
  | _, [] => false
  | [], _ :: _ => true
  | a :: s1, b :: s2 => (a <? b) || ((a =? b) && lex_lt s1 s2)
  end.

(** Decimal digits of a number, most significant first. *)
Definition dec_value (digits : list Z) : Z := fold_left (fun v d => v * 10 + (d - 48)) digits 0.
Definition hex_value (digits : list Z) : Z :=
  fold_left (fun v c => v * 16 + default 0 (hex_digit c)) digits 0.

(** * The memory routines against their byte-wise specification *)

Lemma memset_head_spec n p byte m :
  mapped p (Z.of_nat n) m ->
  wp (memset_head n p byte)
     (fun r m' => exists k, 0 <= k /\ r.1 = p + k /\ k + Z.of_nat r.2 = Z.of_nat n /\
                            written (fun _ => byte) p k m m') m.
Proof.
  revert p m. induction n as [|n IH]; intros p m Hm; cbn [memset_head].
  { wstep. exists 0. cbn. repeat split; [lia..|apply written_nil]. }
  case_match.
  { wstep. exists 0. cbn [fst snd]. repeat split; [lia..|apply written_nil]. }
  wstep. apply wp_store8; [apply Hm; lia|]. intros m1 H1.
  eapply wp_mono; [apply IH|].
  { eapply written_mapped; [done|]. eapply mapped_sub; [done|lia..]. }
  intros [p' n'] m2 (k & Hk & Hp & Hn & H2). cbn [fst snd] in *.
  exists (1 + k). repeat split; [lia..|]. eapply written_app; [lia|lia|done|done].
Qed.

Lemma memset_tail_spec n p byte m :
  mapped p (Z.of_nat n) m ->
  wp (memset_tail n p byte) (fun _ m' => written (fun _ => byte) p (Z.of_nat n) m m') m.
Proof.
  revert p m. induction n as [|n IH]; intros p m Hm; cbn [memset_tail].
  { wstep. apply written_nil. }
  wstep. apply wp_store8; [apply Hm; lia|]. intros m1 H1.
  eapply wp_mono; [apply IH|].
  { eapply written_mapped; [done|]. eapply mapped_sub; [done|lia..]. }
  intros ? m2 H2. cbv beta in H2. replace (Z.of_nat (S n)) with (1 + Z.of_nat n) by lia.
  eapply written_app; [lia|lia|done|done].
Qed.

(** The word stored by [memset] is eight copies of the byte. *)
Lemma memset_word byte i :
  is_u8 byte -> 0 <= i < 8 ->
  default 0 (zget (le_split 8 (u64 (byte * 0x0101010101010101))) i) = byte.
Proof.
  intros Hb Hi. unfold is_u8 in Hb.
  rewrite u64_small by (unfold is_u64; lia).
  replace (byte * 0x0101010101010101) with (le_combine (replicate 8 byte))
    by (cbn [replicate le_combine]; lia).
  pose proof (le_split_combine (replicate 8 byte)) as E. rewrite length_replicate in E.
  rewrite E by (by apply Forall_replicate). by rewrite zget_replicate.
Qed.

Lemma memset_words_spec words p byte m :
  is_u8 byte -> 0 <= words -> mapped p (8 * words) m ->
  wp (for_range (R := unit) 0 words
        (fun i => store64 (p + 8 * i) (u64 (byte * 0x0101010101010101));; mret None))
     (fun _ m' => written (fun _ => byte) p (8 * words) m m') m.
Proof.
  intros Hb Hw Hm.
  apply (wp_for_range (fun i m' => written (fun _ => byte) p (8 * i) m m')); [apply written_nil|lia| |done].
  intros i m' Hi H. wstep. apply wp_store64.
  { eapply written_mapped; [done|]. eapply mapped_sub; [done|lia..]. }
  intros m2 H2. wstep. replace (8 * (i + 1)) with (8 * i + 8) by lia.
  eapply written_app; [lia|lia|done|].
  eapply written_ext; [|exact H2]. intros a Ha. apply memset_word; [done|lia].
Qed.

Lemma memset_spec s c n m :
  0 <= n -> mapped s n m ->
  wp (memset s c n) (fun r m' => r = s /\ written (fun _ => u8 c) s n m m') m.
Proof.
  intros Hn Hm. unfold memset. wstep. eapply wp_mono; [apply memset_head_spec|].
  { by rewrite Z2Nat.id by lia. }
  intros [p k] m1 (h & Hh & Hp & Hk & H1). cbn [fst snd] in *. subst p.
  rewrite Z2Nat.id in Hk by lia.
  assert (mapped (s + h) (Z.of_nat k) m1) as Hm1.
  { eapply written_mapped; [done|]. eapply mapped_sub; [done|lia..]. }
  wstep.
  assert (wp (if 8 <=? Z.of_nat k
     then for_range (R := unit) 0 (Z.of_nat k / 8)
            (fun i => store64 (s + h + 8 * i) (u64 (u8 c * 72340172838076673));; mret None);;
          mret (s + h + Z.of_nat k / 8 * 8, Z.of_nat k - Z.of_nat k / 8 * 8)
     else mret (s + h, Z.of_nat k))
    (fun r m' => exists w, 0 <= w /\ r.1 = s + h + w /\ w + r.2 = Z.of_nat k /\ 0 <= r.2 /\
       written (fun _ => u8 c) (s + h) w m1 m') m1) as Hmid.
  { case_match.
    - pose proof (Z.mul_div_le (Z.of_nat k) 8). wstep. eapply wp_mono.
      { apply memset_words_spec; [apply u8_range|apply Z.div_pos; lia|].
        eapply mapped_sub; [done|lia..]. }
      intros ? m' H'. wstep. exists (8 * (Z.of_nat k / 8)). cbn [fst snd].
      pose proof (Z.div_pos (Z.of_nat k) 8).
      repeat split; [lia..|exact H'].
    - wstep. exists 0. cbn [fst snd]. repeat split; [lia..|apply written_nil]. }
  eapply wp_mono; [exact Hmid|].
  intros [p' k'] m2 (w & Hw & Hp' & Hk' & Hk0 & H2). cbn [fst snd] in *. subst p'.
  wstep. eapply wp_mono; [apply memset_tail_spec|].
  { rewrite Z2Nat.id by lia. eapply written_mapped; [done|]. eapply mapped_sub; [done|lia..]. }
  intros ? m3 H3. cbv beta in H3. rewrite Z2Nat.id in H3 by lia. wstep. split; [done|].
  replace n with (h + (w + k')) by lia.
  eapply written_app; [lia|lia|done|]. eapply written_app; [lia|lia|done|done].
Qed.

(** ** Copies

    [mv m d s] is the byte a copy from [s] to [d] writes at an address of the destination. *)
Definition mv (m : mem) (d s a : Z) : Z := byte_of m (a - d + s).

(** Source bytes that no longer have their value are not read again: [k] bytes from the start of
    the ranges are done, and the rest of the source still holds what [m] holds. *)
Definition src_intact (m m' : mem) (s n : Z) : Prop :=
  forall a, s <= a < s + n -> m' !! a = m !! a.

Lemma copy_fwd_spec n m0 d0 s0 d s m :
  mapped d (Z.of_nat n) m -> mapped s (Z.of_nat n) m -> src_intact m0 m s (Z.of_nat n) ->
  (d <= s \/ s + Z.of_nat n <= d) -> d - d0 = s - s0 ->
  wp (copy_fwd n d s) (fun _ m' => written (mv m0 d0 s0) d (Z.of_nat n) m m') m.
Proof.
  revert d s m. induction n as [|n IH]; intros d s m Hd Hs Hi Hdis Hds; cbn [copy_fwd].
  { wstep. apply written_nil. }
  wstep. apply wp_load8; [apply Hs; lia|]. wstep. apply wp_store8; [apply Hd; lia|].
  intros m1 H1.
  assert (written (mv m0 d0 s0) d 1 m m1) as H1'.
  { eapply written_ext; [|exact H1]. intros a Ha. unfold mv, byte_of.
    replace (a - d0 + s0) with s by lia. by rewrite Hi by lia. }
  eapply wp_mono; [apply IH|].
  - eapply written_mapped; [done|]. eapply mapped_sub; [exact Hd|lia..].
  - eapply written_mapped; [done|]. eapply mapped_sub; [exact Hs|lia..].
  - intros a Ha. rewrite (written_other _ _ _ _ _ _ H1) by lia. apply Hi. lia.
  - lia.
  - lia.
  - intros ? m2 H2. replace (Z.of_nat (S n)) with (1 + Z.of_nat n) by lia.
    eapply written_app; [lia|lia|done|done].
Qed.

Lemma copy_back_spec n m0 d0 s0 d s m :
  mapped (d - Z.of_nat n) (Z.of_nat n) m -> mapped (s - Z.of_nat n) (Z.of_nat n) m ->
  src_intact m0 m (s - Z.of_nat n) (Z.of_nat n) ->
  s <= d -> d - d0 = s - s0 ->
  wp (copy_back n d s) (fun _ m' => written (mv m0 d0 s0) (d - Z.of_nat n) (Z.of_nat n) m m') m.
Proof.
  revert d s m. induction n as [|n IH]; intros d s m Hd Hs Hi Hdis Hds; cbn [copy_back].
  { wstep. replace (d - Z.of_nat 0) with d by lia. apply written_nil. }
  wstep. apply wp_load8; [apply Hs; lia|]. wstep. apply wp_store8; [apply Hd; lia|].
  intros m1 H1.
  assert (written (mv m0 d0 s0) (d - 1) 1 m m1) as H1'.
  { eapply written_ext; [|exact H1]. intros a Ha. unfold mv, byte_of.
    replace (a - d0 + s0) with (s - 1) by lia. by rewrite Hi by lia. }
  eapply wp_mono; [apply IH|].
  - eapply written_mapped; [done|]. eapply mapped_sub; [exact Hd|lia..].
  - eapply written_mapped; [done|]. eapply mapped_sub; [exact Hs|lia..].
  - intros a Ha. rewrite (written_other _ _ _ _ _ _ H1) by lia. apply Hi. lia.
  - lia.
  - lia.
  - intros ? m2 H2. cbv beta in H2. replace (d - Z.of_nat (S n)) with (d - 1 - Z.of_nat n) by lia.
    replace (Z.of_nat (S n)) with (Z.of_nat n + 1) by lia.
    eapply (written_app_back _ (d - 1 - Z.of_nat n)); [lia|lia| |exact H2].
    by replace (d - 1 - Z.of_nat n + Z.of_nat n) with (d - 1) by lia.
Qed.

Section copies.
Context (m0 : mem) (d0 s0 : Z) (Hok : mem_ok m0).

Lemma mv_u8 a : is_u8 (mv m0 d0 s0 a).
Proof. by apply byte_of_u8. Qed.

Lemma memcpy_head_spec n d s m :
  mapped d (Z.of_nat n) m -> mapped s (Z.of_nat n) m -> src_intact m0 m s (Z.of_nat n) ->
  (d <= s \/ s + Z.of_nat n <= d) -> d - d0 = s - s0 ->
  wp (memcpy_head n d s)
     (fun r m' => exists k, 0 <= k /\ r.1 = (d + k, s + k) /\ k + Z.of_nat r.2 = Z.of_nat n /\
                            written (mv m0 d0 s0) d k m m') m.
Proof.
  revert d s m. induction n as [|n IH]; intros d s m Hd Hs Hi Hdis Hds; cbn [memcpy_head].
  { wstep. exists 0. cbn [fst snd]. rewrite !Z.add_0_r. repeat split; [lia..|apply written_nil]. }
  case_match.
  { wstep. exists 0. cbn [fst snd]. rewrite !Z.add_0_r. repeat split; [lia..|apply written_nil]. }
  wstep. apply wp_load8; [apply Hs; lia|]. wstep. apply wp_store8; [apply Hd; lia|].
  intros m1 H1.
  assert (written (mv m0 d0 s0) d 1 m m1) as H1'.
  { eapply written_ext; [|exact H1]. intros a Ha. unfold mv, byte_of.
    replace (a - d0 + s0) with s by lia. by rewrite Hi by lia. }
  eapply wp_mono; [apply IH|].
  - eapply written_mapped; [done|]. eapply mapped_sub; [exact Hd|lia..].
  - eapply written_mapped; [done|]. eapply mapped_sub; [exact Hs|lia..].
  - intros a Ha. rewrite (written_other _ _ _ _ _ _ H1) by lia. apply Hi. lia.
  - lia.
  - lia.
  - intros [[d' s'] n'] m2 (k & Hk & [= -> ->] & Hn & H2). cbn [fst snd] in *.
    exists (1 + k). repeat split; [lia|by rewrite !Z.add_assoc|lia|].
    eapply written_app; [lia|lia|done|done].
Qed.

(** A 64-bit load and store moves eight bytes. *)
Lemma wp_copy_word Q d s m :
  mem_ok m -> mapped d 8 m -> mapped s 8 m -> src_intact m0 m s 8 -> d - d0 = s - s0 ->
  (forall m', written (mv m0 d0 s0) d 8 m m' -> Q tt m') ->
  wp (w ← load64 s; store64 d w) Q m.
Proof.
  intros Hm Hd Hs Hi Hds HQ. wstep. apply wp_load64; [done|]. apply wp_store64; [done|].
  intros m' H. apply HQ. eapply written_ext; [|exact H]. intros a Ha.
  pose proof (le_split_combine (bytes_at m s 8) (bytes_at_u8 _ _ _ Hm)) as E.
  rewrite length_bytes_at in E. rewrite E, zget_bytes_at by lia. cbn [default from_option id].
  unfold mv, byte_of. rewrite Hi by lia. do 2 f_equal. lia.
Qed.

Lemma memcpy_words_spec words d s m :
  mem_ok m -> 0 <= words -> mapped d (8 * words) m -> mapped s (8 * words) m ->
  src_intact m0 m s (8 * words) -> (d <= s \/ s + 8 * words <= d) -> d - d0 = s - s0 ->
  wp (for_range (R := unit) 0 words
        (fun i => w ← load64 (s + 8 * i); store64 (d + 8 * i) w;; mret None))
     (fun _ m' => written (mv m0 d0 s0) d (8 * words) m m') m.
Proof.
  intros Hm Hw Hd Hs Hi Hdis Hds.
  apply (wp_for_range (fun i m' => written (mv m0 d0 s0) d (8 * i) m m')); [apply written_nil|lia| |done].
  intros i m' Hi' H.
  assert (wp (w ← load64 (s + 8 * i); store64 (d + 8 * i) w)
    (fun _ m'' => written (mv m0 d0 s0) d (8 * (i + 1)) m m'') m') as Hstep.
  { apply wp_copy_word; [| | | |lia|].
    - eapply written_ok; [|done|done]. intros. apply mv_u8.
    - eapply written_mapped; [done|]. eapply mapped_sub; [exact Hd|lia..].
    - eapply written_mapped; [done|]. eapply mapped_sub; [exact Hs|lia..].
    - intros a Ha. rewrite (written_other _ _ _ _ _ _ H) by lia. apply Hi. lia.
    - intros m2 H2. replace (8 * (i + 1)) with (8 * i + 8) by lia.
      eapply written_app; [lia|lia|done|done]. }
  clear -Hstep. unfold wp, mbind, M_bind in *. destruct (load64 (s + 8 * i) m') as [[w m1]|]; [|done].
  destruct (store64 (d + 8 * i) w m1) as [[? m2]|]; [|done]. exact Hstep.
Qed.

Lemma memcpy_words_phase n d s m :
  mem_ok m -> 0 <= n -> mapped d n m -> mapped s n m ->
  src_intact m0 m s n -> (d <= s \/ s + n <= d) -> d - d0 = s - s0 ->
  wp (if 8 <=? n then
        for_range (R := unit) 0 (n / 8)
          (fun i => w ← load64 (s + 8 * i); store64 (d + 8 * i) w;; mret None);;
        mret (d + n / 8 * 8, s + n / 8 * 8, n - n / 8 * 8)
      else mret (d, s, n))
     (fun r m' => exists w, 0 <= w /\ r.1 = (d + w, s + w) /\ w + r.2 = n /\ 0 <= r.2 /\
                            written (mv m0 d0 s0) d w m m') m.
Proof.
  intros Hm Hn Hd Hs Hi Hdis Hds. case_match.
  - pose proof (Z.mul_div_le n 8). pose proof (Z.div_pos n 8). wstep. eapply wp_mono.
    { apply memcpy_words_spec; [done|lia| | | |lia|done].
      - eapply mapped_sub; [exact Hd|lia..].
      - eapply mapped_sub; [exact Hs|lia..].
      - intros a Ha. apply Hi. lia. }
    intros ? m' H'. wstep. exists (8 * (n / 8)). cbn [fst snd].
    rewrite (Z.mul_comm _ 8). repeat split; [lia..|exact H'].
  - wstep. exists 0. cbn [fst snd]. rewrite !Z.add_0_r. repeat split; [lia..|apply written_nil].
Qed.
End copies.

Lemma memcpy_spec dest src n m :
  mem_ok m -> 0 <= n -> mapped dest n m -> mapped src n m ->
  (dest <= src \/ src + n <= dest) ->
  wp (memcpy dest src n) (fun r m' => r = dest /\ written (mv m dest src) dest n m m') m.
Proof.
  intros Hok Hn Hd Hs Hdis. unfold memcpy. wstep.
  eapply wp_mono with (P := fun r m' => exists w, 0 <= w /\ r.1 = (dest + w, src + w) /\
    w + r.2 = n /\ 0 <= r.2 /\ written (mv m dest src) dest w m m').
  - case_match.
    + wstep. eapply wp_mono; [apply (memcpy_head_spec m dest src); rewrite ?Z2Nat.id by lia; solve [done | lia]|].
      intros [[d s] k] m1 (h & Hh & [= -> ->] & Hk & H1). cbn [fst snd] in *.
      rewrite Z2Nat.id in Hk by lia.
      eapply wp_mono; [apply (memcpy_words_phase m dest src)|].
      * done.
      * eapply written_ok; [|exact H1|done]. intros. by apply mv_u8.
      * lia.
      * eapply written_mapped; [done|]. eapply mapped_sub; [exact Hd|lia..].
      * eapply written_mapped; [done|]. eapply mapped_sub; [exact Hs|lia..].
      * intros a Ha. apply (written_other _ _ _ _ _ _ H1). lia.
      * lia.
      * lia.
      * intros [[d s] k'] m2 (w & Hw & [= -> ->] & Hk' & Hk0 & H2). cbn [fst snd] in *.
        exists (h + w). rewrite !Z.add_assoc. repeat split; [lia..|]. 
        eapply written_app; [lia|lia|done|done].
    + wstep. exists 0. cbn [fst snd]. rewrite !Z.add_0_r. repeat split; [lia..|apply written_nil].
  - intros [[d s] k] m1 (w & Hw & [= -> ->] & Hk & Hk0 & H1). cbn [fst snd] in *.
    wstep. eapply wp_mono; [apply (copy_fwd_spec _ m dest src)|]; rewrite ?Z2Nat.id by lia.
    + eapply written_mapped; [done|]. eapply mapped_sub; [exact Hd|lia..].
    + eapply written_mapped; [done|]. eapply mapped_sub; [exact Hs|lia..].
    + intros a Ha. apply (written_other _ _ _ _ _ _ H1). lia.
    + lia.
    + lia.
    + intros ? m2 H2. cbv beta in H2. wstep. split; [done|]. rewrite <- Hk.
      eapply written_app; [lia|lia|done|done].
Qed.

Lemma memmove_spec dest src n m :
  0 <= n -> mapped dest n m -> mapped src n m ->
  wp (memmove dest src n) (fun r m' => r = dest /\ written (mv m dest src) dest n m m') m.
Proof.
  intros Hn Hd Hs. unfold memmove. case_match eqn:E1; [|case_match eqn:E2].
  - wstep. split; [done|]. intros a. case_match; [|done].
    rewrite (byte_of_Some m a) by (apply Hd; lia). unfold mv. do 2 f_equal. lia.
  - wstep. eapply wp_mono; [apply (copy_fwd_spec _ m dest src); rewrite ?Z2Nat.id by lia; try done; lia|].
    intros ? m' H'. rewrite Z2Nat.id in H' by lia. by wstep.
  - wstep. eapply wp_mono; [apply (copy_back_spec _ m dest src); rewrite ?Z2Nat.id by lia|].
    + by replace (dest + n - n) with dest by lia.
    + by replace (src + n - n) with src by lia.
    + by intros a Ha.
    + lia.
    + lia.
    + intros ? m' H'. rewrite Z2Nat.id in H' by lia. wstep.
      by replace (dest + n - n) with dest in H' by lia.
Qed.

(** * C strings *)

Lemma is_cstr_nil r : is_cstr (0 :: r) [].
Proof. exists r. done. Qed.

Lemma is_cstr_inv l s :
  is_cstr l s ->
  match s with
  | [] => exists r, l = 0 :: r
  | c :: s' => exists r, l = c :: r /\ is_u8 c /\ c <> 0 /\ is_cstr r s'
  end.
Proof.
  intros (rest & -> & Hs). destruct s as [|c s]; [by exists rest|].
  apply Forall_cons in Hs as [[Hc Hc0] Hs]. exists (s ++ 0 :: rest).
  repeat split; try done; [apply Hc|apply Hc|]. by exists rest.
Qed.

Lemma strlen_spec l s : is_cstr l s -> strlen l = Some (zlen s).
Proof.
  revert l. induction s as [|c s IH]; intros l H%is_cstr_inv.
  { by destruct H as [r ->]. }
  destruct H as (r & -> & Hc & Hc0 & Hr). simpl. rewrite (proj2 (Z.eqb_neq c 0)) by done.
  rewrite (IH _ Hr). unfold zlen. simpl. f_equal. lia.
Qed.

(** What a three-way comparison result says about two keys. *)
Definition compares (r : Z) (s1 s2 : list Z) : Prop :=
  (r = 0 <-> s1 = s2) /\ (r < 0 <-> lex_lt s1 s2 = true).

Lemma lex_lt_irrefl s : lex_lt s s = false.
Proof. induction s as [|c s IH]; simpl; [done|]. rewrite IH, Z.ltb_irrefl. by rewrite andb_false_r. Qed.

Lemma compares_nil : compares 0 [] [].
Proof. done. Qed.
Lemma compares_lt c s : is_u8 c -> c <> 0 -> compares (0 - c) [] (c :: s).
Proof. intros [??] ?. split; simpl; split; intros; (done || lia). Qed.
Lemma compares_gt c s : is_u8 c -> c <> 0 -> compares (c - 0) (c :: s) [].
Proof. intros [??] ?. split; simpl; split; intros; (done || lia). Qed.
Lemma compares_ne c1 c2 s1 s2 : c1 <> c2 -> compares (c1 - c2) (c1 :: s1) (c2 :: s2).
Proof.
  intros Hne. split; simpl; split.
  - lia.
  - by intros [= ??].
  - intros. by rewrite (proj2 (Z.ltb_lt c1 c2)) by lia.
  - rewrite (proj2 (Z.eqb_neq c1 c2)) by done. simpl. rewrite orb_false_r. lia.
Qed.
Lemma compares_cons r c s1 s2 : compares r s1 s2 -> compares r (c :: s1) (c :: s2).
Proof.
  intros [H1 H2]. split; simpl; rewrite ?Z.ltb_irrefl, ?Z.eqb_refl; simpl; [|done].
  rewrite H1. naive_solver.
Qed.

Lemma strcmp_spec l1 l2 s1 s2 :
  is_cstr l1 s1 -> is_cstr l2 s2 -> exists r, strcmp l1 l2 = Some r /\ compares r s1 s2.
Proof.
  revert l1 l2 s2. induction s1 as [|c1 s1 IH]; intros l1 l2 s2 H1%is_cstr_inv H2%is_cstr_inv.
  - destruct H1 as [r1 ->]. destruct s2 as [|c2 s2].
    + destruct H2 as [r2 ->]. by exists 0.
    + destruct H2 as (r2 & -> & ? & ? & _). eexists; split; [done|]. by apply compares_lt.
  - destruct H1 as (r1 & -> & Hc1 & Hn1 & H1). destruct s2 as [|c2 s2].
    + destruct H2 as [r2 ->]. simpl. rewrite (proj2 (Z.eqb_neq c1 0)) by done.
      eexists; split; [done|]. by apply compares_gt.
    + destruct H2 as (r2 & -> & Hc2 & Hn2 & H2). simpl. rewrite (proj2 (Z.eqb_neq c1 0)) by done.
      cbn [negb andb]. destruct (Z.eqb_spec c1 c2) as [->|Hne].
      * destruct (IH _ _ _ H1 H2) as (r & Hr & Hc). exists r. split; [done|]. by apply compares_cons.
      * eexists; split; [done|]. by apply compares_ne.
Qed.

Lemma strncmp_loop_spec n l1 l2 s1 s2 :
  is_cstr l1 s1 -> is_cstr l2 s2 ->
  exists r, strncmp_loop n l1 l2 = Some r /\ compares r (take (S n) s1) (take (S n) s2).
Proof.
  revert n l1 l2 s2. induction s1 as [|c1 s1 IH]; intros n l1 l2 s2 H1%is_cstr_inv H2%is_cstr_inv.
  - destruct H1 as [r1 ->]. destruct s2 as [|c2 s2].
    + destruct H2 as [r2 ->]. exists 0. split; [by destruct n|done].
    + destruct H2 as (r2 & -> & ? & ? & _). exists (0 - c2).
      split; [by destruct n|]. cbn [take]. by apply compares_lt.
  - destruct H1 as (r1 & -> & Hc1 & Hn1 & H1). destruct s2 as [|c2 s2].
    + destruct H2 as [r2 ->]. exists (c1 - 0). split; [|cbn [take]; by apply compares_gt].
      destruct n; simpl; [done|]. by rewrite (proj2 (Z.eqb_neq c1 0)).
    + destruct H2 as (r2 & -> & Hc2 & Hn2 & H2).
      destruct (Z.eqb_spec c1 c2) as [->|Hne].
      * destruct n as [|n].
        -- exists 0. simpl. rewrite Z.sub_diag. split; [done|]. cbn [take]. by apply compares_cons.
        -- destruct (IH n _ _ _ H1 H2) as (r & Hr & Hc). exists r.
           split; [|cbn [take]; by apply compares_cons].
           simpl. by rewrite (proj2 (Z.eqb_neq c2 0)), Z.eqb_refl.
      * exists (c1 - c2). split; [|cbn [take]; by apply compares_ne].
        destruct n; simpl; [done|]. by rewrite (proj2 (Z.eqb_neq c1 c2)), andb_false_r.
Qed.

Lemma strncmp_spec n l1 l2 s1 s2 :
  is_cstr l1 s1 -> is_cstr l2 s2 ->
  exists r, strncmp l1 l2 n = Some r /\ compares r (take n s1) (take n s2).
Proof.
  intros H1 H2. destruct n as [|n]; [by exists 0|]. by apply strncmp_loop_spec.
Qed.

Lemma to_lower_nonzero c : is_u8 c -> c <> 0 -> is_u8 (to_lower c) /\ to_lower c <> 0.
Proof. unfold is_u8, to_lower, schar. intros. repeat case_match; lia. Qed.

Lemma schar_inj a b : is_u8 a -> is_u8 b -> schar a = schar b -> a = b.
Proof. unfold is_u8, schar. intros. repeat case_match; lia. Qed.

Lemma strcmp_ci_spec l1 l2 s1 s2 :
  is_cstr l1 s1 -> is_cstr l2 s2 ->
  exists r, strcmp_case_insensitive l1 l2 = Some r /\ (r = 0 <-> to_lower <$> s1 = to_lower <$> s2).
Proof.
  assert (forall a b, is_u8 a -> is_u8 b -> schar a - schar b = 0 <-> a = b) as Hdiff.
  { intros a b Ha Hb. split; [|by intros ->; lia]. intros. apply schar_inj; [done..|lia]. }
  revert l1 l2 s2. induction s1 as [|c1 s1 IH]; intros l1 l2 s2 H1%is_cstr_inv H2%is_cstr_inv.
  - destruct H1 as [r1 ->]. destruct s2 as [|c2 s2].
    + destruct H2 as [r2 ->]. by exists 0.
    + destruct H2 as (r2 & -> & Hc2 & Hn2 & _). destruct (to_lower_nonzero c2) as [??]; [done..|].
      simpl. eexists; split; [done|]. rewrite Hdiff by done. split; [by intros|done].
  - destruct H1 as (r1 & -> & Hc1 & Hn1 & H1). destruct (to_lower_nonzero c1) as [??]; [done..|].
    destruct s2 as [|c2 s2].
    + destruct H2 as [r2 ->]. simpl. rewrite andb_false_r. eexists; split; [done|].
      rewrite Hdiff by done. split; [by intros|done].
    + destruct H2 as (r2 & -> & Hc2 & Hn2 & H2). destruct (to_lower_nonzero c2) as [??]; [done..|].
      simpl. rewrite (proj2 (Z.eqb_neq c1 0)), (proj2 (Z.eqb_neq c2 0)) by done. cbn [negb andb].
      destruct (Z.eqb_spec (to_lower c1) (to_lower c2)) as [He|Hne].
      * destruct (IH _ _ _ H1 H2) as (r & Hr & Hc). exists r. split; [done|].
        rewrite Hc, He. split; [intros E; exact (f_equal (cons _) E)|by intros [= ?]].
      * eexists; split; [done|]. rewrite Hdiff by done. by split; [|intros [= ??]].
Qed.

Lemma token_length_spec l s : is_cstr l s -> token_length l = Some (zlen (first_token s)).
Proof.
  revert l. induction s as [|c s IH]; intros l H%is_cstr_inv.
  { by destruct H as [r ->]. }
  destruct H as (r & -> & Hc & Hc0 & Hr). simpl. rewrite (proj2 (Z.eqb_neq c 0)) by done.
  simpl. destruct (is_blank c); [done|]. rewrite (IH _ Hr). unfold zlen. simpl. f_equal. lia.
Qed.

Lemma token_equals_cons c s w word :
  w <> 0 ->
  token_equals (c :: s) (w :: word) = if c =? w then token_equals s word else Some false.
Proof. intros H%Z.eqb_neq. unfold token_equals; fold token_equals. by rewrite H. Qed.

Lemma token_equals_spec l s lw w :
  is_cstr l s -> is_cstr lw w -> Forall (fun c => is_blank c = false) w ->
  token_equals l lw = Some (bool_decide (first_token s = w)).
Proof.
  revert l s lw. induction w as [|c w IH]; intros l s lw H1 H2%is_cstr_inv Hb.
  - destruct H2 as [r2 ->]. apply is_cstr_inv in H1. destruct s as [|c s].
    + by destruct H1 as [r1 ->].
    + destruct H1 as (r1 & -> & Hc & Hn & _).
      change (token_equals (c :: r1) (0 :: r2)) with (Some ((c =? 0) || is_blank c)).
      rewrite (proj2 (Z.eqb_neq c 0)) by done. cbn [orb first_token].
      by destruct (is_blank c).
  - destruct H2 as (r2 & -> & Hc2 & Hn2 & H2). apply Forall_cons in Hb as [Hbc Hb].
    apply is_cstr_inv in H1.
    destruct s as [|c1 s].
    + destruct H1 as [r1 ->]. rewrite token_equals_cons by done.
      by rewrite (proj2 (Z.eqb_neq 0 c)) by done.
    + destruct H1 as (r1 & -> & Hc1 & Hn1 & H1). rewrite token_equals_cons by done.
      cbn [first_token].
      destruct (Z.eqb_spec c1 c) as [->|Hne].
      * rewrite Hbc, (IH _ _ _ H1 H2 Hb). f_equal. apply bool_decide_ext. naive_solver.
      * f_equal. symmetry. apply bool_decide_false. case_match; naive_solver.
Qed.

Lemma is_help_flag_spec l s :
  is_cstr l s ->
  is_help_flag (Some l) = Some (bool_decide (first_token s ∈ map (removelast (A:=Z)) help_words)).
Proof.
  intros H. unfold is_help_flag.
  assert (forall w, Forall (fun c => is_u8 c /\ c <> 0) w -> is_cstr (w ++ [0]) w) as Hw.
  { intros w Hw. by exists []. }
  assert (forall w, Forall (fun c => is_u8 c /\ c <> 0) w -> Forall (fun c => is_blank c = false) w ->
    token_equals l (w ++ [0]) = Some (bool_decide (first_token s = w))) as Heq.
  { intros w ??. eapply token_equals_spec; [done|by apply Hw|done]. }
  pose proof (Heq [45; 104; 101; 108; 112]) as E1.
  pose proof (Heq [45; 45; 104; 101; 108; 112]) as E2.
  pose proof (Heq [45; 104]) as E3. cbn [app] in E1, E2, E3.
  rewrite E1 by (repeat constructor; (done || unfold is_u8; lia)).
  rewrite E2 by (repeat constructor; (done || unfold is_u8; lia)).
  rewrite E3 by (repeat constructor; (done || unfold is_u8; lia)).
  cbn [mbind option_bind help_words map removelast].
  repeat case_bool_decide; set_solver.
Qed.

(** ** Numbers *)

Lemma dec_value_snoc l d : dec_value (l ++ [d]) = dec_value l * 10 + (d - 48).
Proof. unfold dec_value. by rewrite fold_left_app. Qed.

Lemma dec_fold_mono l v : 0 <= v -> Forall (fun d => is_digit d = true) l ->
  v <= fold_left (fun v d => v * 10 + (d - 48)) l v.
Proof.
  intros Hv H. revert v Hv. induction H as [|d l Hd Hl IH]; intros v Hv; simpl; [lia|].
  cbv beta in Hd. unfold is_digit in Hd. pose proof (IH (v * 10 + (d - 48)) ltac:(lia)). lia.
Qed.

Lemma atoi_loop_spec digits c r v :
  Forall (fun d => is_digit d = true) digits -> is_digit c = false ->
  0 <= v -> fold_left (fun v d => v * 10 + (d - 48)) digits v < 2 ^ 31 ->
  atoi_loop (digits ++ c :: r) v = Some (fold_left (fun v d => v * 10 + (d - 48)) digits v).
Proof.
  intros Hd Hc. revert v. induction Hd as [|d l Hd Hl IH]; intros v Hv Hlt; simpl in *.
  { by rewrite Hc. }
  cbv beta in Hd. rewrite Hd. unfold is_digit in Hd.
  pose proof (dec_fold_mono l (v * 10 + (d - 48)) ltac:(lia) Hl).
  rewrite (i32_small (v * 10)), i32_small by lia. apply IH; lia.
Qed.

(** ** strcpy *)

(** The string [s] and its terminator are in memory at [p]. *)
Fixpoint cstr_in (m : mem) (p : Z) (s : list Z) : Prop :=
  match s with
  | [] => m !! p = Some 0
  | c :: s => m !! p = Some c /\ c <> 0 /\ cstr_in m (p + 1) s
  end.

Lemma cstr_in_mapped m p s : cstr_in m p s -> mapped p (zlen s + 1) m.
Proof.
  unfold zlen. revert p. induction s as [|c s IH]; intros p; cbn [cstr_in length].
  - intros H a Ha. replace a with p by lia. by exists 0.
  - intros (H & _ & Hs) a Ha. destruct (decide (a = p)) as [->|]; [by exists c|].
    apply (IH _ Hs). lia.
Qed.

(** A mapped range is no longer than the memory: enough fuel for every terminated string. *)
Lemma mapped_size p n m : mapped p (Z.of_nat n) m -> (n <= size m)%nat.
Proof.
  intros H. rewrite <- (size_dom (D := gset Z) m).
  replace n with (size (list_to_set (seqZ p (Z.of_nat n)) : gset Z)).
  - apply subseteq_size. intros a Ha. apply elem_of_list_to_set, elem_of_seqZ in Ha.
    apply elem_of_dom, H. lia.
  - rewrite size_list_to_set by apply NoDup_seqZ. rewrite length_seqZ. lia.
Qed.

Lemma cstr_in_ext m m' p s : (forall a, p <= a <= p + zlen s -> m' !! a = m !! a) -> cstr_in m p s -> cstr_in m' p s.
Proof.
  unfold zlen. revert p. induction s as [|c s IH]; intros p Hm; cbn [cstr_in length] in *.
  - by rewrite Hm by lia.
  - intros (H & Hc & Hs). rewrite Hm by lia. repeat split; [done..|]. apply IH; [|done].
    intros. apply Hm. lia.
Qed.

Lemma strcpy_loop_spec fuel m0 d0 s0 d p s m :
  (length s < fuel)%nat -> cstr_in m p s -> src_intact m0 m p (zlen s + 1) ->
  mapped d (zlen s + 1) m -> (d + zlen s < p \/ p + zlen s < d) -> d - d0 = p - s0 ->
  wp (strcpy_loop fuel d p) (fun _ m' => written (mv m0 d0 s0) d (zlen s + 1) m m') m.
Proof.
  unfold zlen. revert fuel d p m. induction s as [|c s IH]; intros fuel d p m Hf Hs Hi Hd Hdis Hds;
    (destruct fuel as [|fuel]; [simpl in Hf; lia|]); cbn [strcpy_loop cstr_in length] in *; wstep.
  - assert (byte_of m p = 0) as E by (unfold byte_of; by rewrite Hs).
    apply wp_load8; [by exists 0|]. rewrite E. change (0 =? 0) with true. cbv iota.
    apply wp_store8; [apply Hd; lia|]. intros m1 H1. eapply written_ext; [|exact H1].
    intros a Ha. unfold mv, byte_of. replace (a - d0 + s0) with p by lia.
    rewrite <- Hi by lia. by rewrite Hs.
  - destruct Hs as (Hp & Hc & Hs).
    assert (byte_of m p = c) as E by (unfold byte_of; by rewrite Hp).
    apply wp_load8; [by exists c|]. rewrite E, (proj2 (Z.eqb_neq c 0)) by done. wstep.
    apply wp_store8; [apply Hd; lia|]. intros m1 H1.
    assert (written (mv m0 d0 s0) d 1 m m1) as H1'.
    { eapply written_ext; [|exact H1]. intros a Ha. unfold mv, byte_of.
      replace (a - d0 + s0) with p by lia. rewrite <- Hi by lia. by rewrite Hp. }
    eapply wp_mono; [apply IH|].
    + lia.
    + eapply cstr_in_ext; [|exact Hs]. unfold zlen. intros a Ha.
      apply (written_other _ _ _ _ _ _ H1). lia.
    + intros a Ha. rewrite (written_other _ _ _ _ _ _ H1) by lia. apply Hi. lia.
    + eapply written_mapped; [done|]. eapply mapped_sub; [exact Hd|lia..].
    + lia.
    + lia.
    + intros ? m2 H2. cbv beta in H2. rewrite Nat2Z.inj_succ.
      replace (Z.succ (Z.of_nat (length s)) + 1) with (1 + (Z.of_nat (length s) + 1)) by lia.
      eapply written_app; [lia|lia|done|done].
Qed.

(** * Properties *)

(** Memory of the examples: 40 bytes [i * 7 mod 256] from address 4093. *)
Definition demo_mem : mem :=
  list_to_map ((fun i : nat => (4093 + Z.of_nat i, u8 (7 * Z.of_nat i + 3))) <$> seq 0 40).

(** The booleans by which the examples discharge the side conditions. *)
Definition mappedb (p : Z) (n : nat) (m : mem) : bool :=
  forallb (fun i : nat => match m !! (p + Z.of_nat i) with Some _ => true | None => false end) (seq 0 n).

Lemma mappedb_ok p n m : mappedb p n m = true -> mapped p (Z.of_nat n) m.
Proof.
  unfold mappedb. rewrite forallb_forall. intros H a Ha.
  specialize (H (Z.to_nat (a - p))). replace (p + Z.of_nat (Z.to_nat (a - p))) with a in H by lia.
  destruct (m !! a) eqn:E; [by eexists|]. rewrite in_seq in H. exfalso.
  apply diff_false_true, H. lia.
Qed.

Lemma mem_ok_map m : map_Forall (fun _ v => is_u8 v) m -> mem_ok m.
Proof. done. Qed.

Lemma demo_mem_ok : mem_ok demo_mem.
Proof.
  intros a v H. unfold demo_mem in H. apply elem_of_list_to_map_2 in H.
  apply list_elem_of_fmap in H as (i & [= -> ->] & _). apply u8_range.
Qed.

(** [memset] returns its argument and sets exactly the [n] bytes at [s] to the low byte of
    [c], whatever the alignment of [s] and the split into prefix, 64-bit words and tail: the
    result is the memory a byte-by-byte loop would produce, and nothing outside is touched. *)
Theorem memset_correct (s c n : Z) (m : mem)
    (Hn : 0 <= n) (Hmap : mapped s n m) :
  exists m', memset s c n m = Some (s, m') /\
    (forall a, m' !! a = if (s <=? a) && (a <? s + n) then Some (u8 c) else m !! a) /\
    memset_tail (Z.to_nat n) s (u8 c) m = Some (tt, m').
Proof.
  destruct (wp_inv _ _ _ (memset_spec s c n m Hn Hmap)) as (r & m' & Hrun & -> & H).
  exists m'. split; [done|]. split; [done|].
  destruct (wp_inv _ _ _ (memset_tail_spec (Z.to_nat n) s (u8 c) m ltac:(by rewrite Z2Nat.id)))
    as ([] & m2 & Hrun2 & H2).
  rewrite Z2Nat.id in H2 by done. by rewrite (written_unique _ _ _ _ _ _ H H2).
Qed.

Lemma memset_witness :
  exists m', memset 4093 (-1) 30 demo_mem = Some (4093, m') /\ m' !! 4122 = Some 255 /\ m' !! 4123 = Some (u8 213).
Proof.
  destruct (memset_correct 4093 (-1) 30 demo_mem) as (m' & H & Hm & _).
  - lia.
  - apply (mappedb_ok _ 30). by vm_compute.
  - exists m'. split; [exact H|]. rewrite !Hm. split; [by vm_compute|by vm_compute].
Defined.

(** [memcpy] copies the [n] bytes at [src] to [dest] and touches nothing else, on the
    64-bit path (both pointers congruent modulo 8) and on the byte path alike; it is also right
    for overlapping ranges as long as the destination does not start inside the source. *)
Theorem memcpy_correct (dest src n : Z) (m : mem)
    (Hok : mem_ok m) (Hn : 0 <= n) (Hd : mapped dest n m) (Hs : mapped src n m)
    (Hov : dest <= src \/ src + n <= dest) :
  exists m', memcpy dest src n m = Some (dest, m') /\
    (forall a, dest <= a < dest + n -> m' !! a = m !! (a - dest + src)) /\
    (forall a, ~ (dest <= a < dest + n) -> m' !! a = m !! a).
Proof.
  destruct (wp_inv _ _ _ (memcpy_spec dest src n m Hok Hn Hd Hs Hov)) as (r & m' & Hrun & -> & H).
  exists m'. repeat split; [done| |].
  - intros a Ha. rewrite H. case_match; [|lia]. symmetry. apply byte_of_Some, Hs. lia.
  - intros a Ha. by apply (written_other _ _ _ _ _ _ H).
Qed.

Lemma memcpy_witness :
  exists m', memcpy 4094 4102 20 demo_mem = Some (4094, m') /\ m' !! 4094 = demo_mem !! 4102.
Proof.
  destruct (memcpy_correct 4094 4102 20 demo_mem) as (m' & H & Hm & _).
  - apply demo_mem_ok.
  - lia.
  - apply (mappedb_ok _ 20). by vm_compute.
  - apply (mappedb_ok _ 20). by vm_compute.
  - lia.
  - exists m'. split; [exact H|]. apply Hm. lia.
Defined.

(** [memmove] copies the bytes [src] held before the call whatever the overlap of the two
    ranges, and touches nothing outside the destination. *)
Theorem memmove_correct (dest src n : Z) (m : mem)
    (Hn : 0 <= n) (Hd : mapped dest n m) (Hs : mapped src n m) :
  exists m', memmove dest src n m = Some (dest, m') /\
    (forall a, dest <= a < dest + n -> m' !! a = m !! (a - dest + src)) /\
    (forall a, ~ (dest <= a < dest + n) -> m' !! a = m !! a).
Proof.
  destruct (wp_inv _ _ _ (memmove_spec dest src n m Hn Hd Hs)) as (r & m' & Hrun & -> & H).
  exists m'. repeat split; [done| |].
  - intros a Ha. rewrite H. case_match; [|lia]. symmetry. apply byte_of_Some, Hs. lia.
  - intros a Ha. by apply (written_other _ _ _ _ _ _ H).
Qed.

Lemma memmove_witness :
  exists m', memmove 4100 4097 20 demo_mem = Some (4100, m') /\ m' !! 4119 = demo_mem !! 4116.
Proof.
  destruct (memmove_correct 4100 4097 20 demo_mem) as (m' & H & Hm & _).
  - lia.
  - apply (mappedb_ok _ 20). by vm_compute.
  - apply (mappedb_ok _ 20). by vm_compute.
  - exists m'. split; [exact H|]. apply (Hm 4119). lia.
Defined.

(** On C strings the comparison routines decide equality and order: [strcmp] returns 0
    exactly on equal strings and a negative number exactly when the first is smaller in byte-wise
    lexicographic order, [strncmp] does the same on the first [n] characters, and the
    case-insensitive comparison returns 0 exactly when the strings agree up to [to_lower].  No
    byte behind either terminator is read. *)
Theorem string_comparisons (l1 l2 s1 s2 : list Z) (n : nat)
    (H1 : is_cstr l1 s1) (H2 : is_cstr l2 s2) :
  (exists r, strcmp l1 l2 = Some r /\ (r = 0 <-> s1 = s2) /\ (r < 0 <-> lex_lt s1 s2 = true)) /\
  (exists r, strncmp l1 l2 n = Some r /\ (r = 0 <-> take n s1 = take n s2) /\
             (r < 0 <-> lex_lt (take n s1) (take n s2) = true)) /\
  (exists r, strcmp_case_insensitive l1 l2 = Some r /\ (r = 0 <-> to_lower <$> s1 = to_lower <$> s2)).
Proof.
  split; [by apply strcmp_spec|]. split; [by apply strncmp_spec|by apply strcmp_ci_spec].
Qed.

Lemma string_comparisons_witness :
  exists r, strcmp [97; 98; 0; 5] [97; 99; 0] = Some r /\ r < 0.
Proof.
  destruct (string_comparisons [97; 98; 0; 5] [97; 99; 0] [97; 98] [97; 99] 1) as [(r & Hr & _ & Hlt) _].
  - exists [5]. split; [reflexivity|]. repeat constructor; unfold is_u8; lia.
  - exists []. split; [reflexivity|]. repeat constructor; unfold is_u8; lia.
  - exists r. split; [exact Hr|]. apply Hlt. reflexivity.
Defined.

(** Command words are matched exactly: [token_equals] holds iff the first blank-delimited
    token of the line is the word, [token_length] is that token's length, and [is_help_flag]
    holds iff the token is one of [-help], [--help] and [-h]. *)
Theorem token_matching (l s lw w : list Z)
    (H : is_cstr l s) (Hw : is_cstr lw w) (Hb : Forall (fun c => is_blank c = false) w) :
  token_equals l lw = Some (bool_decide (first_token s = w)) /\
  token_length l = Some (zlen (first_token s)) /\
  is_help_flag (Some l) = Some (bool_decide (first_token s ∈ map (removelast (A:=Z)) help_words)).
Proof.
  split; [by apply token_equals_spec|]. split; [by apply token_length_spec|by apply is_help_flag_spec].
Qed.

Lemma token_matching_witness :
  token_equals [108; 115; 32; 45; 104; 0] [108; 115; 0] = Some true.
Proof.
  destruct (token_matching [108; 115; 32; 45; 104; 0] [108; 115; 32; 45; 104] [108; 115; 0] [108; 115])
    as [-> _].
  - exists []. split; [reflexivity|]. repeat constructor; unfold is_u8; lia.
  - exists []. split; [reflexivity|]. repeat constructor; unfold is_u8; lia.
  - repeat constructor.
  - vm_compute. reflexivity.
Defined.

(** [strcpy] copies a terminated string and its terminator, nothing more, to a disjoint
    destination that has room for it, and leaves the rest of memory alone. *)
Theorem strcpy_correct (dest src : Z) (s : list Z) (m : mem)
    (Hs : cstr_in m src s) (Hd : mapped dest (zlen s + 1) m)
    (Hdis : dest + zlen s < src \/ src + zlen s < dest) :
  exists m', strcpy dest src m = Some (dest, m') /\ cstr_in m' dest s /\
    (forall a, ~ (dest <= a <= dest + zlen s) -> m' !! a = m !! a).
Proof.
  pose proof (cstr_in_mapped _ _ _ Hs) as Hsm.
  assert (length s < S (size m))%nat as Hfuel.
  { pose proof (mapped_size src (length s) m). unfold zlen in Hsm.
    assert (mapped src (Z.of_nat (length s)) m); [eapply mapped_sub; [exact Hsm|lia..]|naive_solver lia]. }
  destruct (wp_inv _ _ _ (strcpy_loop_spec _ m dest src dest src s m Hfuel Hs ltac:(by intros a Ha)
    Hd Hdis ltac:(lia))) as ([] & m' & Hrun & H).
  exists m'. split; [unfold strcpy; by rewrite (bind_Some _ _ _ _ _ Hrun)|]. split.
  - assert (forall a, dest <= a <= dest + zlen s -> m' !! a = m !! (a - dest + src)) as Hcp.
    { intros a Ha. rewrite H. case_match; [|lia]. symmetry. apply byte_of_Some, Hsm. lia. }
    clear -Hs Hcp. unfold zlen in *. replace src with (dest + (src - dest)) in Hs by lia.
    assert (forall d t, dest <= d -> d + Z.of_nat (length t) = dest + Z.of_nat (length s) ->
      cstr_in m (d + (src - dest)) t -> cstr_in m' d t) as Hgen.
    { intros d t. revert d. induction t as [|c t IH]; intros d Hd Hlen; cbn [cstr_in length] in *.
      - rewrite Hcp by lia. by replace (d - dest + src) with (d + (src - dest)) by lia.
      - intros (Hc & Hn & Ht). rewrite Hcp by lia.
        replace (d - dest + src) with (d + (src - dest)) by lia. repeat split; [done..|].
        apply IH; [lia..|]. by replace (d + 1 + (src - dest)) with (d + (src - dest) + 1) by lia. }
    apply Hgen; [lia..|done].
  - intros a Ha. apply (written_other _ _ _ _ _ _ H). lia.
Qed.

Definition demo_str_mem : mem := list_to_map [(10, 104); (11, 105); (12, 0); (20, 1); (21, 1); (22, 1); (23, 1)].

Lemma strcpy_witness : exists m', strcpy 20 10 demo_str_mem = Some (20, m') /\ cstr_in m' 20 [104; 105].
Proof.
  destruct (strcpy_correct 20 10 [104; 105] demo_str_mem) as (m' & H & Hc & _).
  - cbn [cstr_in]. repeat split; (reflexivity || lia).
  - apply (mappedb_ok _ 3). by vm_compute.
  - right. unfold zlen. simpl. lia.
  - exists m'. split; [exact H|exact Hc].
Defined.

(** [atoi] reads the decimal value of a number that fits an [int], with an optional minus
    sign, and stops at the first character that is not a digit. *)
Theorem atoi_correct (digits : list Z) (c : Z) (r : list Z)
    (Hd : Forall (fun d => is_digit d = true) digits) (Hc : is_digit c = false)
    (Hfirst : digits <> []) (Hfit : dec_value digits < 2 ^ 31) :
  atoi (digits ++ c :: r) = Some (dec_value digits) /\
  atoi (45 :: digits ++ c :: r) = Some (- dec_value digits).
Proof.
  pose proof (dec_fold_mono digits 0 ltac:(lia) Hd) as Hpos. fold (dec_value digits) in Hpos.
  pose proof (atoi_loop_spec digits c r 0 Hd Hc ltac:(lia) Hfit) as Hl. fold (dec_value digits) in Hl.
  split.
  - destruct digits as [|d digits]; [done|]. cbn [app atoi] in *.
    apply Forall_cons in Hd as [Hd _]. unfold is_digit in Hd.
    rewrite (proj2 (Z.eqb_neq d 45)) by lia. rewrite Hl. cbn [mbind option_bind].
    rewrite i32_small by lia. f_equal. lia.
  - cbn [atoi]. change (45 =? 45) with true. cbv iota. rewrite Hl. cbn [mbind option_bind].
    by rewrite i32_small by lia.
Qed.

Lemma atoi_witness : atoi [45; 52; 50; 0] = Some (-42).
Proof.
  destruct (atoi_correct [52; 50] 0 []) as [_ H].
  - repeat constructor.
  - reflexivity.
  - discriminate.
  - reflexivity.
  - exact H.
Defined.
