(* ===== verification/Sha256.v ===== *)
(** Model of kernel/lib/sha256.c (the password hash of users.c): the compression function and
    the incremental interface [sha256_init], [sha256_update], [sha256_final].  The reference is
    the padded-message definition of FIPS 180-4. *)

From S2P Require Import Prelude Memory.

Definition SHA256_DIGEST_SIZE : Z := 32.
Definition SHA256_BLOCK_SIZE : Z := 64.

(** The table of the source, a row of four constants per line. *)
Definition row (a b c d : Z) : list Z := [a; b; c; d].

Definition K : list Z :=
  row 0x428A2F98 0x71374491 0xB5C0FBCF 0xE9B5DBA5 ++
  row 0x3956C25B 0x59F111F1 0x923F82A4 0xAB1C5ED5 ++
  row 0xD807AA98 0x12835B01 0x243185BE 0x550C7DC3 ++
  row 0x72BE5D74 0x80DEB1FE 0x9BDC06A7 0xC19BF174 ++
  row 0xE49B69C1 0xEFBE4786 0x0FC19DC6 0x240CA1CC ++
  row 0x2DE92C6F 0x4A7484AA 0x5CB0A9DC 0x76F988DA ++
  row 0x983E5152 0xA831C66D 0xB00327C8 0xBF597FC7 ++
  row 0xC6E00BF3 0xD5A79147 0x06CA6351 0x14292967 ++
  row 0x27B70A85 0x2E1B2138 0x4D2C6DFC 0x53380D13 ++
  row 0x650A7354 0x766A0ABB 0x81C2C92E 0x92722C85 ++
  row 0xA2BFE8A1 0xA81A664B 0xC24B8B70 0xC76C51A3 ++
  row 0xD192E819 0xD6990624 0xF40E3585 0x106AA070 ++
  row 0x19A4C116 0x1E376C08 0x2748774C 0x34B0BCB5 ++
  row 0x391C0CB3 0x4ED8AA4A 0x5B9CCA4F 0x682E6FF3 ++
  row 0x748F82EE 0x78A5636F 0x84C87814 0x8CC70208 ++
  row 0x90BEFFFA 0xA4506CEB 0xBEF9A3F7 0xC67178F2.

Record sha256_ctx := mk_ctx {
  state : list Z;        (* uint32_t state[8] *)
  total_len : Z;         (* uint64_t *)
  blk : list Z;          (* uint8_t block[64] *)
  block_len : Z;         (* uint32_t *)
}.

(** Array read inside the array's bounds (established by [w_len] and the callers). *)
Definition at_ (l : list Z) (i : Z) : Z := default 0 (zget l i).

Definition rotr32 (v n : Z) : Z := Z.lor (Z.shiftr v n) (u32 (Z.shiftl v (32 - n))).

Definition load_be (block : list Z) (i : Z) : Z :=
  Z.lor (Z.lor (Z.lor (Z.shiftl (at_ block (i * 4)) 24) (Z.shiftl (at_ block (i * 4 + 1)) 16))
               (Z.shiftl (at_ block (i * 4 + 2)) 8)) (at_ block (i * 4 + 3)).

Definition extend (w : list Z) (i : Z) : Z :=
  let s0 := Z.lxor (Z.lxor (rotr32 (at_ w (i - 15)) 7) (rotr32 (at_ w (i - 15)) 18))
                   (Z.shiftr (at_ w (i - 15)) 3) in
  let s1 := Z.lxor (Z.lxor (rotr32 (at_ w (i - 2)) 17) (rotr32 (at_ w (i - 2)) 19))
                   (Z.shiftr (at_ w (i - 2)) 10) in
  u32 (u32 (u32 (at_ w (i - 16) + s0) + at_ w (i - 7)) + s1).

(** The message schedule [w[64]], filled from index 0 up: a cell is appended when the C code
    stores it. *)
Definition w_block (block : list Z) : list Z :=
  fold_left (fun w i => w ++ [load_be block (Z.of_nat i)]) (seq 0 16) [].
Definition w_extend (w : list Z) : list Z :=
  fold_left (fun w i => w ++ [extend w (Z.of_nat i)]) (seq 16 48) w.

Definition regs : Type := Z * Z * Z * Z * Z * Z * Z * Z.

Definition round (w : list Z) (r : regs) (i : Z) : regs :=
  let '(a, b, c, d, e, f, g, h) := r in
  let S1 := Z.lxor (Z.lxor (rotr32 e 6) (rotr32 e 11)) (rotr32 e 25) in
  let ch := Z.lxor (Z.land e f) (Z.land (u32 (Z.lnot e)) g) in
  let t1 := u32 (h + S1 + ch + at_ K i + at_ w i) in
  let S0 := Z.lxor (Z.lxor (rotr32 a 2) (rotr32 a 13)) (rotr32 a 22) in
  let maj := Z.lxor (Z.lxor (Z.land a b) (Z.land a c)) (Z.land b c) in
  let t2 := u32 (S0 + maj) in
  (u32 (t1 + t2), a, b, c, u32 (d + t1), e, f, g).

Definition sha256_compress (st : list Z) (block : list Z) : list Z :=
  let w := w_extend (w_block block) in
  let r0 := (at_ st 0, at_ st 1, at_ st 2, at_ st 3, at_ st 4, at_ st 5, at_ st 6, at_ st 7) in
  let '(a, b, c, d, e, f, g, h) := fold_left (fun r i => round w r (Z.of_nat i)) (seq 0 64) r0 in
  [ u32 (at_ st 0 + a); u32 (at_ st 1 + b); u32 (at_ st 2 + c); u32 (at_ st 3 + d);
    u32 (at_ st 4 + e); u32 (at_ st 5 + f); u32 (at_ st 6 + g); u32 (at_ st 7 + h) ].

Definition H0 : list Z :=
  [ 0x6a09e667; 0xbb67ae85; 0x3c6ef372; 0xa54ff53a;
    0x510e527f; 0x9b05688c; 0x1f83d9ab; 0x5be0cd19 ].

(** [sha256_init] sets everything but the bytes of [block]. *)
Definition sha256_init (ctx : sha256_ctx) : sha256_ctx := mk_ctx H0 0 (blk ctx) 0.

Fixpoint update_loop (fuel : nat) (st p : list Z) : list Z * list Z :=
  match fuel with
  | O => (st, p)
  | S fuel =>
      if SHA256_BLOCK_SIZE <=? zlen p
      then update_loop fuel (sha256_compress st (take 64 p)) (drop 64 p)
      else (st, p)
  end.

(** The full-block loop and the tail copy of [sha256_update]. *)
Definition update_rest (ctx : sha256_ctx) (p : list Z) : option sha256_ctx :=
  let '(st, p) := update_loop (length p) (state ctx) p in
  if 0 <? zlen p then
    b ← splice (blk ctx) 0 p;
    Some (mk_ctx st (total_len ctx) b (u32 (zlen p)))
  else Some (mk_ctx st (total_len ctx) (blk ctx) (block_len ctx)).

Definition sha256_update (ctx : sha256_ctx) (data : list Z) : option sha256_ctx :=
  let len := zlen data in
  let ctx := mk_ctx (state ctx) (u64 (total_len ctx + len)) (blk ctx) (block_len ctx) in
  if 0 <? block_len ctx then
    let need := u32 (SHA256_BLOCK_SIZE - block_len ctx) in
    let take_ := if len <? need then len else need in
    b ← splice (blk ctx) (block_len ctx) (take (Z.to_nat take_) data);
    let bl := block_len ctx + take_ in
    let p := drop (Z.to_nat take_) data in
    if bl <? SHA256_BLOCK_SIZE then Some (mk_ctx (state ctx) (total_len ctx) b bl)
    else update_rest (mk_ctx (sha256_compress (state ctx) b) (total_len ctx) b 0) p
  else update_rest ctx data.

Definition be_bytes8 (v : Z) : list Z := (fun i => u8 (Z.shiftr v (56 - Z.of_nat i * 8))) <$> seq 0 8.
Definition be_bytes4 (v : Z) : list Z :=
  [u8 (Z.shiftr v 24); u8 (Z.shiftr v 16); u8 (Z.shiftr v 8); u8 v].

Definition sha256_final (ctx : sha256_ctx) : option (list Z) :=
  let bit_len := u64 (total_len ctx * 8) in
  b ← zset (blk ctx) (block_len ctx) 0x80;
  let bl := block_len ctx + 1 in
  '(st, b, bl) ← (if 56 <? bl then
                    b ← splice b bl (replicate (Z.to_nat (SHA256_BLOCK_SIZE - bl)) 0);
                    Some (sha256_compress (state ctx) b, b, 0)
                  else Some (state ctx, b, bl));
  b ← splice b bl (replicate (Z.to_nat (56 - bl)) 0);
  b ← splice b 56 (be_bytes8 bit_len);
  Some (sha256_compress st b ≫= be_bytes4).

(** The context is a local variable: its bytes are arbitrary ([ctx]) before [sha256_init]. *)
Definition sha256 (ctx : sha256_ctx) (data : list Z) : option (list Z) :=
  ctx ← sha256_update (sha256_init ctx) data;
  sha256_final ctx.

(** * FIPS 180-4 reference: pad the message, compress its 64-byte blocks in order *)

Fixpoint absorb (n : nat) (st l : list Z) : list Z :=
  match n with
  | O => st
  | S n => absorb n (sha256_compress st (take 64 l)) (drop 64 l)
  end.

Definition be64 (v : Z) : list Z := reverse (le_split 8 v).

(** One bit, zeros up to 56 modulo 64 bytes, the length in bits on 64 bits. *)
Definition pad (msg : list Z) : list Z :=
  msg ++ 0x80 :: replicate (Z.to_nat ((55 - zlen msg) mod 64)) 0 ++ be64 (8 * zlen msg).

Definition sha256_spec (msg : list Z) : list Z :=
  absorb (length (pad msg) / 64) H0 (pad msg) ≫= be_bytes4.

Definition ctx0 : sha256_ctx := mk_ctx [] 0 (replicate 64 0) 0.

(** * Streaming *)

Lemma absorb_app n k st l1 l2 :
  length l1 = (64 * n)%nat -> absorb (n + k) st (l1 ++ l2) = absorb k (absorb n st l1) l2.
Proof.
  revert st l1. induction n as [|n IH]; intros st l1 Hl; cbn [absorb Nat.add].
  { destruct l1; [done|simpl in Hl; lia]. }
  rewrite take_app_le, drop_app_le by lia. apply IH. rewrite length_drop. lia.
Qed.

Lemma absorb_prefix n st l1 l2 :
  (64 * n <= length l1)%nat -> absorb n st (l1 ++ l2) = absorb n st l1.
Proof.
  revert st l1. induction n as [|n IH]; intros st l1 Hl; cbn [absorb]; [done|].
  rewrite take_app_le, drop_app_le by lia. apply IH. rewrite length_drop. lia.
Qed.

Lemma update_loop_spec fuel st p :
  (length p <= fuel)%nat ->
  exists n, update_loop fuel st p = (absorb n st p, drop (64 * n) p) /\
            (64 * n <= length p < 64 * n + 64)%nat.
Proof.
  revert st p. induction fuel as [|fuel IH]; intros st p Hf; cbn [update_loop].
  { exists 0%nat. simpl. split; [done|lia]. }
  unfold SHA256_BLOCK_SIZE, zlen. destruct (64 <=? Z.of_nat (length p)) eqn:E.
  - destruct (IH (sha256_compress st (take 64 p)) (drop 64 p)) as (n & -> & Hn).
    { rewrite length_drop. lia. }
    rewrite length_drop in Hn. exists (S n). cbn [absorb]. rewrite drop_drop.
    replace (64 * S n)%nat with (64 + 64 * n)%nat by lia. split; [done|lia].
  - exists 0%nat. split; [done|lia].
Qed.

(** The context after [msg]: whole blocks absorbed, the tail in the buffer. *)
Definition ctx_rep (ctx : sha256_ctx) (msg : list Z) : Prop :=
  exists n full tail, msg = full ++ tail /\ length full = (64 * n)%nat /\ (length tail < 64)%nat /\
    state ctx = absorb n H0 full /\ total_len ctx = u64 (zlen msg) /\
    length (blk ctx) = 64%nat /\ block_len ctx = zlen tail /\ take (length tail) (blk ctx) = tail.

Lemma init_rep ctx : length (blk ctx) = 64%nat -> ctx_rep (sha256_init ctx) [].
Proof. intros. exists 0%nat, [], []. repeat split; simpl; (done || lia). Qed.

Lemma splice_take (l src l' : list Z) (off : Z) :
  splice l off src = Some l' -> take (Z.to_nat (off + zlen src)) l' = take (Z.to_nat off) l ++ src.
Proof.
  unfold splice. case_match eqn:E; [|done]. intros [= <-].
  apply andb_prop in E as [E0%Z.leb_le E1%Z.leb_le]. rewrite app_assoc.
  apply take_app_length'. unfold zlen in *. rewrite length_app, length_take. lia.
Qed.

Lemma update_rest_spec ctx n full p :
  length full = (64 * n)%nat -> state ctx = absorb n H0 full ->
  total_len ctx = u64 (zlen (full ++ p)) -> length (blk ctx) = 64%nat -> block_len ctx = 0 ->
  exists ctx', update_rest ctx p = Some ctx' /\ ctx_rep ctx' (full ++ p).
Proof.
  intros Hfull Hst Htot Hblk Hbl. unfold update_rest.
  destruct (update_loop_spec (length p) (state ctx) p) as (k & -> & Hk); [lia|].
  set (tl := drop (64 * k) p). assert (length tl = (length p - 64 * k)%nat) as Htl by apply length_drop.
  assert (full ++ p = (full ++ take (64 * k) p) ++ tl) as Hsplit.
  { unfold tl. by rewrite <- app_assoc, take_drop. }
  assert (length (full ++ take (64 * k) p) = (64 * (n + k))%nat) as Hlen.
  { rewrite length_app, length_take. lia. }
  assert (absorb k (state ctx) p = absorb (n + k) H0 (full ++ take (64 * k) p)) as Hab.
  { rewrite absorb_app, <- Hst by done.
    rewrite <- (take_drop (64 * k) p) at 1. apply absorb_prefix. rewrite length_take. lia. }
  destruct (0 <? zlen tl) eqn:E.
  - rewrite splice_in by (unfold zlen; lia). cbn [mbind option_bind]. eexists. split; [done|].
    exists (n + k)%nat, (full ++ take (64 * k) p), tl. cbn [state total_len blk block_len].
    repeat split; [done|done|lia|done|done| | |].
    + rewrite !length_app, length_take, length_drop. unfold zlen. lia.
    + apply u32_small. unfold is_u32, zlen. lia.
    + change (Z.to_nat 0) with 0%nat. by rewrite take_0, app_nil_l, take_app_length.
  - eexists. split; [done|]. exists (n + k)%nat, (full ++ take (64 * k) p), tl.
    assert (length tl = 0%nat) as H0l by (unfold zlen in E; lia).
    cbn [state total_len blk block_len].
    repeat split; [done|done|lia|done|done|done| |].
    + unfold zlen. lia.
    + rewrite H0l. symmetry. by apply length_zero_iff_nil.
Qed.

Lemma update_rep ctx msg data :
  ctx_rep ctx msg ->
  exists ctx', sha256_update ctx data = Some ctx' /\ ctx_rep ctx' (msg ++ data).
Proof.
  intros (n & full & tail & -> & Hfull & Htail & Hst & Htot & Hblk & Hbl & Hbuf).
  unfold sha256_update. cbn [state total_len blk block_len].
  assert (u64 (total_len ctx + zlen data) = u64 (zlen ((full ++ tail) ++ data))) as Htot'.
  { rewrite Htot. unfold u64. rewrite Zplus_mod_idemp_l. f_equal. unfold zlen.
    rewrite !length_app. lia. }
  destruct (0 <? block_len ctx) eqn:E0.
  2: { assert (tail = []) as ->. { destruct tail; [done|]. unfold zlen in Hbl. simpl in Hbl. lia. }
       rewrite app_nil_r in *. apply (update_rest_spec _ n); [done..|].
       cbn. unfold zlen in Hbl. simpl in Hbl. lia. }
  unfold SHA256_BLOCK_SIZE. rewrite (u32_small (64 - _)) by (unfold is_u32, zlen in *; lia).
  set (t := if zlen data <? 64 - block_len ctx then zlen data else 64 - block_len ctx).
  assert (0 <= t <= zlen data /\ t <= 64 - block_len ctx /\
          (t = zlen data \/ t = 64 - block_len ctx)) as Ht.
  { unfold t, zlen in *. case_match; lia. }
  assert (zlen (take (Z.to_nat t) data) = t) as Htl by (unfold zlen in *; rewrite length_take; lia).
  rewrite splice_in by (rewrite ?Htl; unfold zlen in *; lia). cbn [mbind option_bind].
  set (b := take _ (blk ctx) ++ _ ++ _).
  assert (length b = 64%nat) as Hb.
  { unfold b. rewrite !length_app, !length_take, length_drop, Htl. unfold zlen in *. lia. }
  assert (take (Z.to_nat (block_len ctx + t)) b = tail ++ take (Z.to_nat t) data) as Hbt.
  { unfold b. replace (Z.to_nat (block_len ctx)) with (length tail) by (unfold zlen in *; lia).
    rewrite Hbuf, app_assoc. apply take_app_length'.
    rewrite length_app, length_take. unfold zlen in *. lia. }
  destruct (block_len ctx + t <? 64) eqn:E1.
  - assert (t = zlen data) as Htd by lia. eexists. split; [done|].
    rewrite <- app_assoc. exists n, full, (tail ++ data). cbn [state total_len blk block_len].
    rewrite (take_ge data) in Hbt by (unfold zlen in *; lia).
    repeat split; [done| |done| |done| |].
    + rewrite length_app. unfold zlen in *. lia.
    + by rewrite app_assoc.
    + unfold zlen in *. rewrite length_app. lia.
    + rewrite <- Hbt at 2. f_equal. rewrite length_app. unfold zlen in *. lia.
  - assert (block_len ctx + t = 64) as H64 by lia. rewrite H64 in Hbt.
    rewrite take_ge in Hbt by lia.
    replace ((full ++ tail) ++ data) with ((full ++ b) ++ drop (Z.to_nat t) data) in *.
    2: { rewrite Hbt, <- !app_assoc. by rewrite take_drop. }
    apply (update_rest_spec _ (n + 1)); cbn [state total_len blk block_len]; [|  |done..].
    + rewrite length_app. lia.
    + rewrite absorb_app, <- Hst by done. cbn [absorb]. by rewrite take_ge by lia.
Qed.

(** ** Final block(s) *)

Lemma be64_length v : length (be64 v) = 8%nat.
Proof. unfold be64. by rewrite length_reverse, length_le_split. Qed.

Lemma be_bytes8_be64 v : be_bytes8 v = be64 v.
Proof.
  unfold be_bytes8, be64. cbn [seq fmap list_fmap le_split].
  unfold reverse. cbn [rev_append]. unfold u8.
  rewrite !Z.shiftr_div_pow2 by lia. change (2 ^ 8) with 256.
  rewrite !Z.div_div by lia.
  repeat (f_equal; try (by rewrite Z.div_1_r)).
Qed.

Lemma be64_mod v : be64 (v mod 2 ^ 64) = be64 v.
Proof.
  unfold be64. f_equal. change (2 ^ 64) with (256 ^ Z.of_nat 8).
  rewrite <- le_combine_split.
  pose proof (le_split_combine (le_split 8 v) (le_split_bytes 8 v)) as H.
  by rewrite length_le_split in H.
Qed.

(** [memset] of the gap and the length field complete a block of which [pre] is fixed. *)
Lemma final_block (pre r e : list Z) :
  length (pre ++ r) = 64%nat -> zlen pre <= 56 -> length e = 8%nat ->
  exists b, splice (pre ++ r) (zlen pre) (replicate (Z.to_nat (56 - zlen pre)) 0) = Some b /\
            splice b 56 e = Some (pre ++ replicate (Z.to_nat (56 - zlen pre)) 0 ++ e).
Proof.
  intros Hlen Hpre He. rewrite length_app in Hlen. unfold zlen in *.
  set (z := replicate _ 0).
  assert (length z = (56 - length pre)%nat) as Hz by (unfold z; rewrite length_replicate; lia).
  exists (pre ++ z ++ drop (length z) r). split.
  - rewrite <- (take_drop (length z) r) at 1. apply splice_mid; [done|].
    unfold zlen. rewrite length_take. lia.
  - rewrite app_assoc. rewrite <- (app_nil_r (drop _ _)).
    rewrite (splice_mid (pre ++ z)); [by rewrite app_nil_r, <- app_assoc|..];
      unfold zlen; rewrite ?length_app, ?length_drop; lia.
Qed.

Section spec_blocks.
Context (n : nat) (full tail : list Z) (Hfull : length full = (64 * n)%nat) (Htail : (length tail < 64)%nat).
Let len := zlen (full ++ tail).

Lemma len_eq : len = 64 * Z.of_nat n + zlen tail.
Proof. unfold len, zlen. rewrite length_app. lia. Qed.

(** The padded message is [full] and one block, or [full] and two. *)
Lemma spec_one_block :
  zlen tail <= 55 ->
  sha256_spec (full ++ tail) =
  sha256_compress (absorb n H0 full)
    ((tail ++ [128]) ++ replicate (Z.to_nat (56 - zlen (tail ++ [128]))) 0 ++ be64 (8 * len)) ≫= be_bytes4.
Proof.
  intros Ht. unfold sha256_spec, pad. fold len.
  assert ((55 - len) mod 64 = 55 - zlen tail) as ->.
  { rewrite len_eq. symmetry. apply (Zmod_unique _ _ (- Z.of_nat n)); unfold zlen in *; lia. }
  replace (56 - zlen (tail ++ [128])) with (55 - zlen tail) by (rewrite zlen_app; unfold zlen; simpl; lia).
  set (z := replicate _ 0). set (b := (tail ++ [128]) ++ z ++ be64 (8 * len)).
  assert (length b = 64%nat) as Hb.
  { unfold b, z. rewrite !length_app, length_replicate, be64_length. unfold zlen in *. simpl. lia. }
  replace ((full ++ tail) ++ 128 :: z ++ be64 (8 * len)) with (full ++ b)
    by (unfold b; by rewrite <- !app_assoc).
  replace (length (full ++ b) / 64)%nat with (n + 1)%nat.
  2: { rewrite !length_app, Hfull, Hb. apply Nat.div_unique_exact; lia. }
  rewrite absorb_app by done. cbn [absorb]. by rewrite take_ge by lia.
Qed.

Lemma spec_two_blocks :
  55 < zlen tail ->
  sha256_spec (full ++ tail) =
  sha256_compress
    (sha256_compress (absorb n H0 full) ((tail ++ [128]) ++ replicate (Z.to_nat (64 - (zlen tail + 1))) 0))
    (replicate 56 0 ++ be64 (8 * len)) ≫= be_bytes4.
Proof.
  intros Ht. unfold sha256_spec, pad. fold len.
  assert ((55 - len) mod 64 = (63 - zlen tail) + 56) as ->.
  { rewrite len_eq. symmetry. apply (Zmod_unique _ _ (- Z.of_nat n - 1)); unfold zlen in *; lia. }
  replace (Z.to_nat (63 - zlen tail + 56)) with (Z.to_nat (64 - (zlen tail + 1)) + 56)%nat
    by (unfold zlen in *; lia).
  rewrite replicate_add. set (z := replicate (Z.to_nat _) 0). set (b1 := (tail ++ [128]) ++ z).
  set (b2 := replicate 56 0 ++ be64 (8 * len)).
  assert (length b1 = 64%nat) as Hb1.
  { unfold b1, z. rewrite !length_app, length_replicate. unfold zlen in *. simpl. lia. }
  assert (length b2 = 64%nat) as Hb2 by (unfold b2; by rewrite length_app, length_replicate, be64_length).
  replace ((full ++ tail) ++ 128 :: (z ++ replicate 56 0) ++ be64 (8 * len)) with (full ++ b1 ++ b2)
    by (unfold b1, b2; by rewrite <- !app_assoc).
  replace (length (full ++ b1 ++ b2) / 64)%nat with (n + 2)%nat.
  2: { rewrite !length_app, Hfull, Hb1, Hb2. apply Nat.div_unique_exact; lia. }
  rewrite absorb_app by done. cbn [absorb].
  rewrite take_app_length', drop_app_length' by done. by rewrite take_ge by lia.
Qed.
End spec_blocks.

Lemma final_spec ctx msg :
  ctx_rep ctx msg -> sha256_final ctx = Some (sha256_spec msg).
Proof.
  intros (n & full & tail & -> & Hfull & Htail & Hst & Htot & Hblk & Hbl & Hbuf).
  unfold sha256_final. set (len := zlen (full ++ tail)) in *.
  assert (be_bytes8 (u64 (total_len ctx * 8)) = be64 (8 * len)) as ->.
  { rewrite be_bytes8_be64, Htot. unfold u64. rewrite Zmult_mod_idemp_l, be64_mod. f_equal. lia. }
  rewrite zset_in by (unfold zlen in *; lia). cbn [mbind option_bind].
  replace (Z.to_nat (block_len ctx)) with (length tail) by (unfold zlen in *; lia).
  rewrite insert_take_drop, Hbuf, Hbl by lia.
  set (r := drop (S (length tail)) (blk ctx)).
  assert (length r = (63 - length tail)%nat) as Hr by (unfold r; rewrite length_drop; lia).
  replace (tail ++ 128 :: r) with ((tail ++ [128]) ++ r) by (by rewrite <- app_assoc).
  assert (zlen tail + 1 = zlen (tail ++ [128])) as Hpre by (rewrite zlen_app; unfold zlen; simpl; lia).
  destruct (56 <? zlen tail + 1) eqn:E.
  - unfold SHA256_BLOCK_SIZE. rewrite <- (app_nil_r r).
    rewrite (splice_mid (tail ++ [128])), app_nil_r.
    2: done.
    2: { unfold zlen in *. rewrite length_replicate. lia. }
    cbn [mbind option_bind]. rewrite Hst.
    set (b1 := (tail ++ [128]) ++ _).
    assert (length b1 = 64%nat) as Hb1.
    { unfold b1. rewrite !length_app, length_replicate. unfold zlen in *. simpl. lia. }
    destruct (final_block [] b1 (be64 (8 * len))) as (b & Hz & He); [done|done|apply be64_length|].
    change (zlen []) with 0 in Hz, He. change (Z.to_nat (56 - 0)) with 56%nat in *.
    rewrite app_nil_l in Hz. rewrite Hz. cbn [mbind option_bind]. rewrite He. cbn [mbind option_bind].
    by rewrite (spec_two_blocks n) by (done || lia).
  - cbn [mbind option_bind]. rewrite Hst, Hpre.
    destruct (final_block (tail ++ [128]) r (be64 (8 * len))) as (b & Hz & He).
    + rewrite !length_app. simpl. lia.
    + lia.
    + apply be64_length.
    + rewrite Hz. cbn [mbind option_bind]. rewrite He. cbn [mbind option_bind].
      by rewrite (spec_one_block n) by (done || lia).
Qed.

(** * The message schedule *)

Lemma rotr32_testbit v n i :
  is_u32 v -> 0 < n < 32 -> 0 <= i < 32 -> Z.testbit (rotr32 v n) i = Z.testbit v ((i + n) mod 32).
Proof.
  intros Hv Hn Hi. unfold rotr32. rewrite Z.lor_spec, Z.shiftr_spec by lia. unfold u32.
  rewrite Z.mod_pow2_bits_low, Z.shiftl_spec by lia.
  assert (forall j, 32 <= j -> Z.testbit v j = false) as Hhigh.
  { intros j Hj. rewrite <- (Z.mod_small v (2 ^ 32)) by exact Hv. by rewrite Z.mod_pow2_bits_high by lia. }
  destruct (decide (i + n < 32)).
  - rewrite (Z.mod_small (i + n)) by lia. rewrite (Z.testbit_neg_r v (i - (32 - n))) by lia. apply orb_false_r.
  - rewrite Hhigh by lia. rewrite orb_false_l. f_equal.
    apply (Zmod_unique _ _ 1); lia.
Qed.

Lemma length_w_block block : length (w_block block) = 16%nat.
Proof. reflexivity. Qed.

Lemma w_block_at block i : 0 <= i < 16 -> at_ (w_block block) i = load_be block i.
Proof.
  intros Hi. unfold at_, zget. rewrite (proj2 (Z.leb_le 0 i)) by lia.
  assert (exists k, i = Z.of_nat k /\ (k < 16)%nat) as (k & -> & Hk) by (exists (Z.to_nat i); lia).
  rewrite Nat2Z.id. do 16 (destruct k as [|k]; [reflexivity|]). lia.
Qed.

(** Appending never changes the cells already stored. *)
Lemma at_app_l (w l : list Z) i : i < zlen w -> at_ (w ++ l) i = at_ w i.
Proof. intros. unfold at_. by rewrite zget_app_l. Qed.

(** FIPS 180-4, 6.2.2: the cells of the schedule satisfy the recurrence. *)
Definition schedule_ok (w : list Z) : Prop :=
  forall i, 16 <= i < zlen w -> at_ w i = extend w i.

Lemma extend_take w1 w2 i : 16 <= i <= zlen w1 -> extend (w1 ++ w2) i = extend w1 i.
Proof. intros Hi. unfold extend. by rewrite !at_app_l by lia. Qed.

Lemma w_extend_ok n w :
  length w = 16%nat ->
  let w' := fold_left (fun w i => w ++ [extend w (Z.of_nat i)]) (seq 16 n) w in
  length w' = (16 + n)%nat /\ schedule_ok w' /\ (forall i, i < 16 -> at_ w' i = at_ w i).
Proof.
  intros Hw. induction n as [|n IH]; cbn zeta.
  { simpl. split; [done|]. split; [|done]. intros i Hi. unfold zlen in Hi. lia. }
  rewrite seq_S, fold_left_app. cbn [fold_left]. cbn zeta in IH.
  set (w' := fold_left _ (seq 16 n) w) in *. destruct IH as (Hlen & Hok & Hpre).
  assert (zlen w' = 16 + Z.of_nat n) as Hz by (unfold zlen; lia).
  split; [rewrite length_app; simpl; lia|]. split.
  - intros i Hi. rewrite zlen_app in Hi. change (zlen [_]) with 1 in Hi.
    destruct (decide (i < zlen w')).
    + rewrite at_app_l, extend_take by lia. apply Hok. lia.
    + replace i with (zlen w') by lia. rewrite extend_take by lia. unfold at_.
      rewrite zget_app_r, Z.sub_diag by lia. simpl. f_equal. lia.
  - intros i Hi. rewrite at_app_l by lia. by apply Hpre.
Qed.

Lemma w_extend_spec w :
  length w = 16%nat ->
  length (w_extend w) = 64%nat /\ schedule_ok (w_extend w) /\ (forall i, i < 16 -> at_ (w_extend w) i = at_ w i).
Proof. intros Hw. unfold w_extend. exact (w_extend_ok 48 w Hw). Qed.

(** ** Sizes *)

Lemma compress_shape st b :
  length (sha256_compress st b) = 8%nat /\ Forall is_u32 (sha256_compress st b).
Proof.
  unfold sha256_compress. set (r := fold_left _ _ _).
  destruct r as [[[[[[[a b'] c] d] e] f] g] h]. split; [done|].
  repeat constructor; apply u32_range.
Qed.

Lemma absorb_shape n st l :
  length st = 8%nat -> length (absorb n st l) = 8%nat.
Proof.
  revert st l. induction n as [|n IH]; intros st l Hs; cbn [absorb]; [done|].
  apply IH, compress_shape.
Qed.

Lemma digest_shape st : length st = 8%nat -> length (st ≫= be_bytes4) = 32%nat /\ Forall is_u8 (st ≫= be_bytes4).
Proof.
  intros Hs. split.
  - do 8 (destruct st as [|? st]; [done|]). by destruct st.
  - apply Forall_bind, Forall_true. intros x. unfold be_bytes4. repeat constructor; apply u8_range.
Qed.

Fixpoint sha256_updates (ctx : sha256_ctx) (chunks : list (list Z)) : option sha256_ctx :=
  match chunks with
  | [] => Some ctx
  | c :: chunks => ctx ← sha256_update ctx c; sha256_updates ctx chunks
  end.

Lemma updates_rep chunks ctx msg :
  ctx_rep ctx msg -> exists ctx', sha256_updates ctx chunks = Some ctx' /\ ctx_rep ctx' (msg ++ concat chunks).
Proof.
  revert ctx msg. induction chunks as [|c cs IH]; intros ctx msg H; cbn [sha256_updates concat].
  { exists ctx. by rewrite app_nil_r. }
  destruct (update_rep ctx msg c H) as (ctx1 & -> & H1). cbn [mbind option_bind].
  destruct (IH _ _ H1) as (ctx2 & -> & H2). exists ctx2. by rewrite app_assoc.
Qed.

(** * Properties *)

(** C13: However a message is cut into [sha256_update] calls (empty, short and block-spanning
    pieces included), [sha256_final] never leaves the 64-byte buffer and returns the FIPS 180-4
    digest of the concatenation: the compression of the padded message block by block, as 32
    bytes.  The one-shot [sha256] is the case of a single piece. *)
Theorem sha256_streaming (ctx : sha256_ctx) (chunks : list (list Z))
    (Hblk : length (blk ctx) = 64%nat) :
  (exists ctx', sha256_updates (sha256_init ctx) chunks = Some ctx' /\
                sha256_final ctx' = Some (sha256_spec (concat chunks))) /\
  sha256 ctx (concat chunks) = Some (sha256_spec (concat chunks)) /\
  length (sha256_spec (concat chunks)) = Z.to_nat SHA256_DIGEST_SIZE /\
  Forall is_u8 (sha256_spec (concat chunks)).
Proof.
  split; [|split].
  - destruct (updates_rep chunks _ _ (init_rep ctx Hblk)) as (ctx' & -> & H').
    exists ctx'. split; [done|]. by apply final_spec.
  - unfold sha256. destruct (update_rep _ _ (concat chunks) (init_rep ctx Hblk)) as (ctx' & -> & H').
    by apply final_spec in H'.
  - apply digest_shape, absorb_shape. done.
Qed.

Lemma sha256_streaming_witness :
  sha256_updates (sha256_init ctx0) [[97]; []; [98; 99]] ≫= sha256_final = Some (sha256_spec [97; 98; 99]).
Proof.
  destruct (sha256_streaming ctx0 [[97]; []; [98; 99]]) as [(ctx' & H1 & H2) _]; [reflexivity|].
  rewrite H1. exact H2.
Defined.

(** The message schedule is the one of FIPS 180-4: 64 words, the first 16 the big-endian
    words of the block, each later one the recurrence over earlier cells; and [rotr32] is the
    32-bit rotation. *)
Theorem sha256_schedule_fips (block : list Z) (v n : Z) (Hv : is_u32 v) (Hn : 0 < n < 32) :
  let w := w_extend (w_block block) in
  zlen w = 64 /\
  (forall i, 0 <= i < 16 -> at_ w i = load_be block i) /\
  (forall i, 16 <= i < 64 -> at_ w i = extend w i) /\
  (forall i, 0 <= i < 32 -> Z.testbit (rotr32 v n) i = Z.testbit v ((i + n) mod 32)).
Proof.
  destruct (w_extend_spec (w_block block) (length_w_block block)) as (Hlen & Hok & Hpre).
  cbv zeta. assert (zlen (w_extend (w_block block)) = 64) as Hz by (unfold zlen; by rewrite Hlen).
  split; [exact Hz|]. split; [|split].
  - intros i Hi. rewrite Hpre by lia. by apply w_block_at.
  - intros i Hi. apply Hok. lia.
  - intros i Hi. by apply rotr32_testbit.
Qed.

Lemma sha256_schedule_witness : Z.testbit (rotr32 1 7) 25 = true.
Proof.
  destruct (sha256_schedule_fips [] 1 7) as (_ & _ & _ & H); [unfold is_u32; lia|lia|].
  rewrite H by lia. reflexivity.
Defined.

(** The published test vectors of SHA-256 for the empty message, [abc] and the 56-byte
    two-block message. *)
Theorem sha256_vectors :
  sha256 ctx0 [] =
    Some [0xe3;0xb0;0xc4;0x42;0x98;0xfc;0x1c;0x14;0x9a;0xfb;0xf4;0xc8;0x99;0x6f;0xb9;0x24;
          0x27;0xae;0x41;0xe4;0x64;0x9b;0x93;0x4c;0xa4;0x95;0x99;0x1b;0x78;0x52;0xb8;0x55] /\
  sha256 ctx0 [97; 98; 99] =
    Some [0xba;0x78;0x16;0xbf;0x8f;0x01;0xcf;0xea;0x41;0x41;0x40;0xde;0x5d;0xae;0x22;0x23;
          0xb0;0x03;0x61;0xa3;0x96;0x17;0x7a;0x9c;0xb4;0x10;0xff;0x61;0xf2;0x00;0x15;0xad] /\
  sha256 ctx0 ((fun i : nat => 97 + Z.of_nat (i / 4 + i mod 4)) <$> seq 0 56) =
    Some [0x24;0x8d;0x6a;0x61;0xd2;0x06;0x38;0xb8;0xe5;0xc0;0x26;0x93;0x0c;0x3e;0x60;0x39;
          0xa3;0x3c;0xe4;0x59;0x64;0xff;0x21;0x67;0xf6;0xec;0xed;0xd4;0x19;0xdb;0x06;0xc1].
Proof. vm_compute. repeat split. Qed.
