(* ===== verification/Mailbox.v ===== *)
(** Model of kernel/system/ipc/mailbox.c: every process owns a ring of 32 messages;
    [mailbox_send] appends to another process's ring and wakes its owner, [mailbox_recv] takes
    the oldest message of the caller's own ring, polling with a deadline or blocking.

    A process is named by its pid ([process_t *] is the pid of the entry in [process_list]). *)

From S2P Require Import Prelude Memory Interfaces.

Definition MAX_IPC_MSG_PAYLOAD : Z := 96.
Definition MAX_IPC_MAILBOX_SLOTS : Z := 32.

Record ipc_msg := mk_msg {
  sender_pid : Z;
  len : Z;
  payload : list Z;      (* uint8_t payload[96] *)
}.

Record ipc_mailbox := mk_mbox {
  slots : list ipc_msg;  (* 32 slots *)
  head : Z;
  tail : Z;
  count : Z;
  waiter : option Z;     (* process_t *, the pid of the blocked owner *)
}.

(** The fields of [process_t] the mailbox code touches. *)
Record process := mk_proc {
  pid : Z;
  pstate : process_state;
  mbox : ipc_mailbox;
}.

Record kernel := mk_kernel {
  process_list : list process;
  current_process : option Z;
  intr : bool;           (* EFLAGS.IF *)
}.

Definition set_procs (l : list process) (k : kernel) : kernel := mk_kernel l (current_process k) (intr k).
Definition set_if (b : bool) (k : kernel) : kernel := mk_kernel (process_list k) (current_process k) b.

(** [process_find_by_pid] (process.c) walks the circular list from its head. *)
Definition process_find_by_pid (p : Z) (k : kernel) : option process :=
  List.find (fun q => pid q =? p) (process_list k).

(** Store through a [process_t *]. *)
Fixpoint update_proc (p : Z) (f : process -> process) (l : list process) : list process :=
  match l with
  | [] => []
  | q :: l => if pid q =? p then f q :: l else q :: update_proc p f l
  end.

Definition put_mbox (p : Z) (mb : ipc_mailbox) : M kernel unit :=
  modify (fun k => set_procs (update_proc p (fun q => mk_proc (pid q) (pstate q) mb) (process_list k)) k).

Definition put_state (p : Z) (st : process_state) : M kernel unit :=
  modify (fun k => set_procs (update_proc p (fun q => mk_proc (pid q) st (mbox q)) (process_list k)) k).

Definition mailbox_lock : M kernel bool := fun k => Some (intr k, set_if false k).
Definition mailbox_unlock (flags : bool) : M kernel unit := modify (set_if flags).

Definition mailbox_init (mb : ipc_mailbox) : ipc_mailbox := mk_mbox (slots mb) 0 0 0 None.

(** The critical section of [mailbox_send] on the destination's ring: the new ring and the
    process to wake, or [None] when it is full. *)
Definition enqueue (mb : ipc_mailbox) (sender : Z) (data : list Z) (n : Z) : option (option (ipc_mailbox * option Z)) :=
  if MAX_IPC_MAILBOX_SLOTS <=? count mb then Some None else
  slot ← zget (slots mb) (tail mb);
  pl ← (if 0 <? n then
          (if n <=? zlen data then splice (payload slot) 0 (take (Z.to_nat n) data) else None)
        else Some (payload slot));
  sl ← zset (slots mb) (tail mb) (mk_msg sender n pl);
  Some (Some (mk_mbox sl (head mb) ((tail mb + 1) `rem` MAX_IPC_MAILBOX_SLOTS) (count mb + 1) None, waiter mb)).

(** [mailbox_send] up to [mailbox_unlock]: the return value and the waiter still to be woken. *)
Definition send_commit (dest_pid sender : Z) (data : list Z) (n : Z) : M kernel (Z * option Z) :=
  if MAX_IPC_MSG_PAYLOAD <? n then mret (-1, None) else
  d ← gets (process_find_by_pid dest_pid);
  match d with
  | None => mret (-1, None)
  | Some dest =>
      flags ← mailbox_lock;
      r ← lift (enqueue (mbox dest) sender data n);
      match r with
      | None => mailbox_unlock flags;; mret (-2, None)
      | Some (mb, w) => put_mbox dest_pid mb;; mailbox_unlock flags;; mret (0, w)
      end
  end.

(** The wake-up, outside the critical section. *)
Definition send_wake (w : option Z) : M kernel unit :=
  match w with None => mret tt | Some p => put_state p PROCESS_READY end.

Definition mailbox_send (dest_pid sender : Z) (data : list Z) (n : Z) : M kernel Z :=
  '(r, w) ← send_commit dest_pid sender data n;
  send_wake w;;
  mret r.

(** One round of the [for (;;)] of [mailbox_recv]. *)
Inductive round :=
| Got (m : ipc_msg)      (* return 0, message copied out *)
| Fail                   (* return -1 *)
| Poll                   (* unlocked, about to [process_sleep(10)] *)
| Block.                 (* waiter set, PROCESS_BLOCKED, about to [schedule()] with IF clear *)

Definition dequeue (mb : ipc_mailbox) : option (ipc_msg * ipc_mailbox) :=
  slot ← zget (slots mb) (head mb);
  Some (slot, mk_mbox (slots mb) ((head mb + 1) `rem` MAX_IPC_MAILBOX_SLOTS) (tail mb) (count mb - 1) (waiter mb)).

Definition recv_round (timeout_ms elapsed_ms : Z) : M kernel round :=
  c ← gets current_process;
  match c with
  | None => mret Fail
  | Some self =>
      p ← gets (process_find_by_pid self);
      match p with
      | None => fault
      | Some p =>
          let mb := mbox p in
          flags ← mailbox_lock;
          if 0 <? count mb then
            '(m, mb') ← lift (dequeue mb);
            put_mbox self mb';; mailbox_unlock flags;; mret (Got m)
          else if timeout_ms =? 0 then mailbox_unlock flags;; mret Fail
          else if 0 <? timeout_ms then
            (if timeout_ms <=? elapsed_ms then mailbox_unlock flags;; mret Fail
             else mailbox_unlock flags;; mret Poll)
          else
            put_mbox self (mk_mbox (slots mb) (head mb) (tail mb) (count mb) (Some self));;
            put_state self PROCESS_BLOCKED;;
            mret Block
      end
  end.

(** The loop.  [sleep] is [process_sleep(10)] and [sched] is [schedule()]: whatever other
    processes and interrupt handlers do until the caller runs again. *)
Fixpoint recv_loop (fuel : nat) (sleep sched : M kernel unit) (timeout_ms elapsed_ms : Z) : M kernel (option ipc_msg) :=
  match fuel with
  | O => fault
  | S fuel =>
      r ← recv_round timeout_ms elapsed_ms;
      match r with
      | Got m => mret (Some m)
      | Fail => mret None
      | Poll => sleep;; recv_loop fuel sleep sched timeout_ms (elapsed_ms + 10)
      | Block => sched;; recv_loop fuel sleep sched timeout_ms elapsed_ms
      end
  end.

Definition mailbox_recv (fuel : nat) (sleep sched : M kernel unit) (timeout_ms : Z) : M kernel (option ipc_msg) :=
  recv_loop fuel sleep sched timeout_ms 0.

(** * The ring as a queue *)

Definition view (m : ipc_msg) : Z * list Z := (sender_pid m, take (Z.to_nat (len m)) (payload m)).

Record msg_ok (m : ipc_msg) : Prop := {
  mo_len : 0 <= len m <= MAX_IPC_MSG_PAYLOAD;
  mo_payload : zlen (payload m) = MAX_IPC_MSG_PAYLOAD;
}.

Definition slot_at (mb : ipc_mailbox) (i : Z) : option ipc_msg :=
  zget (slots mb) ((head mb + i) mod MAX_IPC_MAILBOX_SLOTS).

(** [q] are the queued messages, oldest first. *)
Record mb_rep (mb : ipc_mailbox) (q : list (Z * list Z)) : Prop := {
  mr_slots : zlen (slots mb) = MAX_IPC_MAILBOX_SLOTS;
  mr_msgs : Forall msg_ok (slots mb);
  mr_head : 0 <= head mb < MAX_IPC_MAILBOX_SLOTS;
  mr_count : count mb = zlen q;
  mr_room : zlen q <= MAX_IPC_MAILBOX_SLOTS;
  mr_tail : tail mb = (head mb + count mb) mod MAX_IPC_MAILBOX_SLOTS;
  mr_queue : forall i v, zget q i = Some v -> exists m, slot_at mb i = Some m /\ view m = v;
}.

Lemma ring_index h i :
  0 <= h < MAX_IPC_MAILBOX_SLOTS -> 0 <= i <= MAX_IPC_MAILBOX_SLOTS ->
  (h + i) mod MAX_IPC_MAILBOX_SLOTS =
  if h + i <? MAX_IPC_MAILBOX_SLOTS then h + i else h + i - MAX_IPC_MAILBOX_SLOTS.
Proof.
  unfold MAX_IPC_MAILBOX_SLOTS. intros Hh Hi. destruct (h + i <? 32) eqn:E.
  - apply Z.mod_small. lia.
  - symmetry. apply (Zmod_unique _ _ 1); lia.
Qed.

Lemma rem_mod a : 0 <= a -> a `rem` MAX_IPC_MAILBOX_SLOTS = a mod MAX_IPC_MAILBOX_SLOTS.
Proof. intros. apply Z.rem_mod_nonneg; unfold MAX_IPC_MAILBOX_SLOTS; lia. Qed.

Lemma enqueue_full mb q sender data n :
  mb_rep mb q -> zlen q = MAX_IPC_MAILBOX_SLOTS -> enqueue mb sender data n = Some None.
Proof.
  intros H Hq. unfold enqueue. rewrite (mr_count _ _ H), Hq. by rewrite Z.leb_refl.
Qed.

Lemma enqueue_room mb q sender data n :
  mb_rep mb q -> zlen q < MAX_IPC_MAILBOX_SLOTS -> 0 <= n <= MAX_IPC_MSG_PAYLOAD -> n <= zlen data ->
  exists mb', enqueue mb sender data n = Some (Some (mb', waiter mb)) /\ waiter mb' = None /\
    mb_rep mb' (q ++ [(sender, take (Z.to_nat n) data)]).
Proof.
  intros [Hs Hm Hh Hc Hr Ht Hq] Hlt Hn Hd.
  assert (0 <= tail mb < MAX_IPC_MAILBOX_SLOTS) as Htl.
  { rewrite Ht. apply Z.mod_pos_bound. done. }
  destruct (zget_Some (slots mb) (tail mb)) as [slot Hslot]; [by rewrite Hs|].
  assert (msg_ok slot) as [_ Hpl].
  { eapply Forall_lookup_1; [exact Hm|]. unfold zget in Hslot. by rewrite (proj2 (Z.leb_le 0 _)) in Hslot by lia. }
  unfold enqueue. rewrite (proj2 (Z.leb_gt _ _)) by lia. rewrite Hslot. cbn [mbind option_bind].
  assert (exists pl, (if 0 <? n then
       (if n <=? zlen data then splice (payload slot) 0 (take (Z.to_nat n) data) else None)
     else Some (payload slot)) = Some pl /\ zlen pl = MAX_IPC_MSG_PAYLOAD /\
     take (Z.to_nat n) pl = take (Z.to_nat n) data) as (pl & -> & Hpl' & Htake).
  { assert (zlen (take (Z.to_nat n) data) = n) as Hl by (unfold zlen in *; rewrite length_take; lia).
    destruct (0 <? n) eqn:E0.
    - rewrite (proj2 (Z.leb_le n _)) by lia. rewrite splice_in by lia. eexists. split; [done|]. split.
      + change (Z.to_nat 0) with 0%nat. rewrite take_0, app_nil_l, zlen_app, Hl.
        unfold zlen in *. rewrite length_drop. lia.
      + change (Z.to_nat 0) with 0%nat. rewrite take_0, app_nil_l. apply take_app_length'.
        unfold zlen in Hl. lia.
    - exists (payload slot). assert (n = 0) as -> by lia. done. }
  cbn [mbind option_bind]. rewrite zset_in by (by rewrite Hs). cbn [mbind option_bind].
  eexists. split; [done|]. split; [done|].
  set (msg := mk_msg sender n pl).
  assert (zlen (q ++ [(sender, take (Z.to_nat n) data)]) = zlen q + 1) as Hq1.
  { rewrite zlen_app. done. }
  split; simpl.
  - by rewrite zlen_insert.
  - apply Forall_insert; [done|]. split; simpl; [done|done].
  - done.
  - lia.
  - lia.
  - rewrite rem_mod, Ht, Zplus_mod_idemp_l by lia. f_equal. lia.
  - intros i v Hi. pose proof (zget_range _ _ _ Hi) as Hir. rewrite Hq1 in Hir.
    unfold slot_at. simpl. destruct (decide (i < zlen q)) as [Hlt'|Hge].
    + rewrite zget_app_l in Hi by done. destruct (Hq i v Hi) as (m & Hsl & Hv).
      exists m. split; [|done]. unfold slot_at in Hsl. rewrite zget_insert_ne; [done|lia|].
      rewrite Ht, Hc. rewrite !ring_index by lia. unfold MAX_IPC_MAILBOX_SLOTS in *. repeat case_match; lia.
    + assert (i = zlen q) as -> by lia. rewrite zget_app_r, Z.sub_diag in Hi by lia.
      injection Hi as <-. exists msg. rewrite <- Hc, <- Ht, zget_insert_eq by (by rewrite Hs).
      split; [done|]. unfold view, msg. simpl. by rewrite Htake.
Qed.

Lemma dequeue_spec mb v q :
  mb_rep mb (v :: q) ->
  exists m mb', dequeue mb = Some (m, mb') /\ view m = v /\ mb_rep mb' q /\ waiter mb' = waiter mb.
Proof.
  intros [Hs Hm Hh Hc Hr Ht Hq].
  assert (zlen (v :: q) = zlen q + 1) as Hl by (unfold zlen; simpl; lia). pose proof (zlen_nonneg q).
  destruct (Hq 0 v eq_refl) as (m & Hsl & Hv). unfold slot_at in Hsl.
  rewrite Z.add_0_r, Z.mod_small in Hsl by done.
  unfold dequeue. rewrite Hsl. cbn [mbind option_bind]. exists m. eexists. split; [done|]. split; [done|].
  split; [|done]. rewrite rem_mod by lia. split; simpl.
  - done.
  - done.
  - apply Z.mod_pos_bound. done.
  - lia.
  - lia.
  - rewrite Ht, Zplus_mod_idemp_l. f_equal. lia.
  - intros i w Hi. pose proof (zget_range _ _ _ Hi).
    destruct (Hq (i + 1) w) as (m' & Hsl' & Hv').
    { unfold zget in *. rewrite (proj2 (Z.leb_le 0 i)) in Hi by lia. rewrite (proj2 (Z.leb_le 0 (i + 1))) by lia.
      by replace (Z.to_nat (i + 1)) with (S (Z.to_nat i)) by lia. }
    exists m'. split; [|done]. unfold slot_at in *. simpl. rewrite Zplus_mod_idemp_l.
    by replace (head mb + 1 + i) with (head mb + (i + 1)) by lia.
Qed.

(** ** Processes *)

Lemma find_update p f l q :
  (forall x, pid (f x) = pid x) ->
  List.find (fun x => pid x =? q) (update_proc p f l) =
  if q =? p then f <$> List.find (fun x => pid x =? q) l else List.find (fun x => pid x =? q) l.
Proof.
  intros Hf. induction l as [|x l IH]; simpl; [by destruct (q =? p)|].
  destruct (pid x =? p) eqn:E1; simpl.
  - rewrite Hf. destruct (pid x =? q) eqn:E2.
    + by replace (q =? p) with true by lia.
    + destruct (q =? p) eqn:E3; [lia|done].
  - destruct (pid x =? q) eqn:E2.
    + by replace (q =? p) with false by lia.
    + exact IH.
Qed.

Lemma find_set_procs p f k q :
  (forall x, pid (f x) = pid x) ->
  process_find_by_pid q (set_procs (update_proc p f (process_list k)) k) =
  if q =? p then f <$> process_find_by_pid q k else process_find_by_pid q k.
Proof. apply find_update. Qed.

Lemma find_set_if b k q : process_find_by_pid q (set_if b k) = process_find_by_pid q k.
Proof. done. Qed.

(** Two kernels whose processes, looked up by pid, agree. *)
Definition same_procs (k k' : kernel) : Prop := forall q, process_find_by_pid q k' = process_find_by_pid q k.

Lemma wp_mailbox_lock Q k : Q (intr k) (set_if false k) -> wp mailbox_lock Q k.
Proof. done. Qed.

(** What a completed [send_commit] did. *)
Lemma send_commit_outcome k dest_pid sender data n dest q :
  process_find_by_pid dest_pid k = Some dest -> mb_rep (mbox dest) q ->
  0 <= n -> n <= zlen data ->
  wp (send_commit dest_pid sender data n) (fun r k' =>
    intr k' = intr k /\ current_process k' = current_process k /\
    ((MAX_IPC_MSG_PAYLOAD < n /\ r = (-1, None) /\ same_procs k k') \/
     (n <= MAX_IPC_MSG_PAYLOAD /\ zlen q = MAX_IPC_MAILBOX_SLOTS /\ r = (-2, None) /\ same_procs k k') \/
     (n <= MAX_IPC_MSG_PAYLOAD /\ zlen q < MAX_IPC_MAILBOX_SLOTS /\ r = (0, waiter (mbox dest)) /\
      exists mb', mb_rep mb' (q ++ [(sender, take (Z.to_nat n) data)]) /\ waiter mb' = None /\
        forall p, process_find_by_pid p k' =
          if p =? dest_pid then Some (mk_proc (pid dest) (pstate dest) mb') else process_find_by_pid p k))) k.
Proof.
  intros Hdest Hrep Hn Hd. unfold send_commit. destruct (MAX_IPC_MSG_PAYLOAD <? n) eqn:E.
  { wstep. split; [done|]. split; [done|]. left. split; [lia|done]. }
  wstep. apply wp_gets. rewrite Hdest. wstep. apply wp_mailbox_lock.
  wstep. destruct (decide (zlen q = MAX_IPC_MAILBOX_SLOTS)) as [Hfull|Hroom].
  - eapply wp_lift; [by eapply enqueue_full|]. cbv beta iota. wstep. apply wp_modify. wstep.
    split; [done|]. split; [done|]. right; left. split; [lia|]. done.
  - pose proof (mr_room _ _ Hrep).
    destruct (enqueue_room (mbox dest) q sender data n) as (mb' & He & Hw & Hrep'); [done|lia|lia|done|].
    eapply wp_lift; [exact He|]. cbv beta iota. wstep. apply wp_modify. wstep. apply wp_modify. wstep.
    split; [done|]. split; [done|]. right; right. split; [lia|]. split; [lia|]. split; [done|].
    exists mb'. split; [done|]. split; [done|]. intros p. rewrite find_set_if, find_set_procs by done.
    rewrite find_set_if. destruct (Z.eqb_spec p dest_pid) as [->|]; [by rewrite Hdest|done].
Qed.

Definition blocked_on (p : process) (self : Z) : process :=
  mk_proc (pid p) PROCESS_BLOCKED
    (mk_mbox (slots (mbox p)) (head (mbox p)) (tail (mbox p)) (count (mbox p)) (Some self)).

(** What one round of [mailbox_recv] does, by the state of the ring and the timeout. *)
Definition recv_effect (k : kernel) (self : Z) (p : process) (q : list (Z * list Z)) (t e : Z)
    (r : round) (k' : kernel) : Prop :=
  match q with
  | v :: q' =>
      exists m mb', r = Got m /\ view m = v /\ intr k' = intr k /\ mb_rep mb' q' /\
        waiter mb' = waiter (mbox p) /\
        forall x, process_find_by_pid x k' =
          if x =? self then Some (mk_proc (pid p) (pstate p) mb') else process_find_by_pid x k
  | [] =>
      if t <? 0 then
        r = Block /\ intr k' = false /\
        forall x, process_find_by_pid x k' =
          if x =? self then Some (blocked_on p self) else process_find_by_pid x k
      else r = (if t <=? e then Fail else Poll) /\ intr k' = intr k /\ same_procs k k'
  end.

Lemma recv_round_outcome k self p q t e :
  current_process k = Some self -> process_find_by_pid self k = Some p -> mb_rep (mbox p) q -> 0 <= e ->
  wp (recv_round t e) (fun r k' => current_process k' = Some self /\ recv_effect k self p q t e r k') k.
Proof.
  intros Hc Hp Hrep He. unfold recv_round. wstep. apply wp_gets. rewrite Hc. wstep. apply wp_gets. rewrite Hp.
  wstep. apply wp_mailbox_lock. pose proof (mr_count _ _ Hrep) as Hcnt. destruct q as [|v q].
  - assert ((0 <? count (mbox p)) = false) as -> by (by rewrite Hcnt). destruct (Z.eqb_spec t 0) as [->|Ht].
    { wstep. apply wp_modify. wstep. split; [done|]. unfold recv_effect.
      change (0 <? 0) with false. cbv iota. rewrite (proj2 (Z.leb_le 0 e)) by done.
      split; [done|]. split; [done|by intros x]. }
    unfold recv_effect. destruct (0 <? t) eqn:E0.
    { rewrite (proj2 (Z.ltb_ge t 0)) by lia.
      destruct (t <=? e); wstep; apply wp_modify; wstep;
        (split; [done|]); (split; [done|]); (split; [done|by intros x]). }
    rewrite (proj2 (Z.ltb_lt t 0)) by lia.
    wstep. apply wp_modify. wstep. apply wp_modify. wstep. split; [done|]. split; [done|]. split; [done|].
    intros x. rewrite !find_set_procs, find_set_if by done.
    destruct (Z.eqb_spec x self) as [->|]; [by rewrite Hp|done].
  - assert ((0 <? count (mbox p)) = true) as ->.
    { rewrite Hcnt. unfold zlen. apply Z.ltb_lt. simpl. lia. }
    destruct (dequeue_spec _ _ _ Hrep) as (m & mb' & Hd & Hv & Hrep' & Hw).
    wstep. eapply wp_lift; [exact Hd|]. cbv beta iota. wstep. apply wp_modify. wstep. apply wp_modify. wstep.
    split; [done|]. exists m, mb'. repeat split; try done; try apply Hrep'.
    intros x. rewrite find_set_if, find_set_procs, find_set_if by done.
    destruct (Z.eqb_spec x self) as [->|]; [by rewrite Hp|done].
Qed.

(** * Interleavings

    [wakes] are the processes a sender has taken off a ring and not yet made ready: the store
    to [waiter->state] happens after [mailbox_unlock]. *)

Record sys := mk_sys { kern : kernel; wakes : list Z }.

Definition runnable (st : process_state) : bool :=
  match st with PROCESS_READY | PROCESS_RUNNING => true | _ => false end.

Definition set_current (p : Z) (k : kernel) : kernel := mk_kernel (process_list k) (Some p) (intr k).

Inductive sys_step (s : sys) : sys -> Prop :=
| step_send dest_pid sender data n r w k' :
    0 <= n <= zlen data ->
    send_commit dest_pid sender data n (kern s) = Some ((r, w), k') ->
    sys_step s (mk_sys k' (match w with Some p => p :: wakes s | None => wakes s end))
| step_wake l1 l2 p k' :
    wakes s = l1 ++ p :: l2 ->
    send_wake (Some p) (kern s) = Some (tt, k') ->
    sys_step s (mk_sys k' (l1 ++ l2))
| step_recv self p t e r k' :
    process_find_by_pid self (kern s) = Some p -> runnable (pstate p) = true -> 0 <= e ->
    recv_round t e (set_current self (kern s)) = Some (r, k') ->
    sys_step s (mk_sys k' (wakes s)).

(** A blocked receiver has an empty ring with itself as the waiter, or its wake-up is on the way. *)
Definition proc_inv (w : list Z) (x : Z) (p : process) : Prop :=
  pid p = x /\ (waiter (mbox p) = None \/ waiter (mbox p) = Some x) /\
  exists q, mb_rep (mbox p) q /\
    (pstate p = PROCESS_BLOCKED -> (q = [] /\ waiter (mbox p) = Some x) \/ x ∈ w).

Definition sys_inv (s : sys) : Prop :=
  forall x p, process_find_by_pid x (kern s) = Some p -> proc_inv (wakes s) x p.

Lemma send_commit_absent k dest_pid sender data n :
  process_find_by_pid dest_pid k = None -> send_commit dest_pid sender data n k = Some ((-1, None), k).
Proof. intros H. unfold send_commit. case_match; [done|]. erewrite bind_Some by done. by rewrite H. Qed.

Lemma proc_inv_mono w w' x p : (forall y, y ∈ w -> y ∈ w') -> proc_inv w x p -> proc_inv w' x p.
Proof.
  intros Hw (H1 & H2 & q & Hq & Hb). split; [done|]. split; [done|]. exists q. split; [done|].
  intros [?|?]%Hb; auto.
Qed.

Lemma sys_step_inv s s' : sys_inv s -> sys_step s s' -> sys_inv s'.
Proof.
  intros Hinv [dest_pid sender data n r w k' Hn E|l1 l2 p k' Hw E|self p t e r k' Hp Hrun He E] x px; simpl.
  - destruct (process_find_by_pid dest_pid (kern s)) as [dest|] eqn:Hd.
    2: { rewrite (send_commit_absent _ _ _ _ _ Hd) in E. simplify_eq. by apply Hinv. }
    destruct (Hinv _ _ Hd) as (Hpid & Hwt & q & Hq & Hb).
    pose proof (wp_run _ _ _ _ _ (send_commit_outcome _ _ sender data n _ _ Hd Hq ltac:(lia) ltac:(lia)) E) as Ho.
    destruct Ho as (_ & _ & [(_ & Hr & Hs)|[(_ & _ & Hr & Hs)|(_ & _ & Hr & mb' & Hrep' & Hw' & Hs)]]);
      rewrite Hs; injection Hr as -> ->.
    + by apply Hinv.
    + by apply Hinv.
    + destruct (Z.eqb_spec x dest_pid) as [->|Hne].
      * intros [= <-]. split; [done|]. split; [by left|]. eexists. split; [exact Hrep'|].
        simpl. intros [[_ ->]|Hin]%Hb; right; [by left|]. case_match; [by right|done].
      * intros Hx%Hinv. eapply proc_inv_mono; [|exact Hx]. intros y. case_match; [by right|done].
  - unfold send_wake, put_state, modify in E. injection E as <-. rewrite find_set_procs by done.
    destruct (Z.eqb_spec x p) as [->|Hne].
    + destruct (process_find_by_pid p (kern s)) as [p0|] eqn:Hp; [|done]. simpl. intros [= <-].
      destruct (Hinv _ _ Hp) as (H1 & H2 & q & Hq & _). split; [done|]. split; [done|].
      exists q. split; [done|]. done.
    + intros (H1 & H2 & q & Hq & Hb)%Hinv. split; [done|]. split; [done|]. exists q. split; [done|].
      rewrite Hw in Hb. intros [?|Hin]%Hb; [by left|right]. set_solver.
  - destruct (Hinv _ _ Hp) as (Hpid & Hwt & q & Hq & Hb).
    pose proof (wp_run _ _ _ _ _ (recv_round_outcome (set_current self (kern s)) self p q t e eq_refl Hp Hq He) E)
      as [_ Ho]. unfold recv_effect in Ho. destruct q as [|v q].
    + destruct (t <? 0).
      * destruct Ho as (-> & _ & Hs). rewrite Hs. destruct (Z.eqb_spec x self) as [->|]; [|by apply Hinv].
        intros [= <-]. split; [done|]. split; [by right|]. exists []. split; [|by left].
        destruct Hq; by split.
      * destruct Ho as (_ & _ & Hs). rewrite Hs. by apply Hinv.
    + destruct Ho as (m & mb' & -> & Hv & _ & Hrep' & Hw' & Hs). rewrite Hs.
      destruct (Z.eqb_spec x self) as [->|]; [|by apply Hinv].
      intros [= <-]. split; [done|]. cbn [mbox pstate]. rewrite Hw'. split; [done|]. exists q. split; [done|].
      intros Hbl. rewrite Hbl in Hrun. done.
Qed.

Inductive reachable (s : sys) : sys -> Prop :=
| reach_refl : reachable s s
| reach_step s1 s2 : reachable s s1 -> sys_step s1 s2 -> reachable s s2.

Lemma reachable_inv s s' : sys_inv s -> reachable s s' -> sys_inv s'.
Proof. intros Hi. induction 1; [done|]. by eapply sys_step_inv. Qed.

(** ** The bounded wait *)

(** The caller is the current process and its ring is well formed. *)
Definition recv_ready (self : Z) (k : kernel) : Prop :=
  current_process k = Some self /\ exists p q, process_find_by_pid self k = Some p /\ mb_rep (mbox p) q.

Lemma recv_effect_ready k self p q t e r k' :
  current_process k' = Some self -> process_find_by_pid self k = Some p -> mb_rep (mbox p) q -> 0 <= t ->
  recv_effect k self p q t e r k' -> recv_ready self k'.
Proof.
  intros Hc Hp Hrep Ht He. split; [done|]. unfold recv_effect in He. destruct q as [|v q].
  - rewrite (proj2 (Z.ltb_ge t 0)) in He by lia. destruct He as (_ & _ & Hs). exists p, []. by rewrite Hs.
  - destruct He as (m & mb' & _ & _ & _ & Hrep' & _ & Hs). rewrite Hs, Z.eqb_refl. by eexists _, q.
Qed.

Lemma recv_loop_bounded fuel sleep sched self t e k :
  (forall k, recv_ready self k -> exists k', sleep k = Some (tt, k') /\ recv_ready self k') ->
  0 <= t -> 0 <= e -> t - e < 10 * (Z.of_nat fuel - 1) -> (0 < fuel)%nat -> recv_ready self k ->
  exists r k', recv_loop fuel sleep sched t e k = Some (r, k') /\ recv_ready self k'.
Proof.
  intros Hsleep Ht. revert e k. induction fuel as [|fuel IH]; intros e k He Hfuel Hpos [Hc (p & q & Hp & Hq)]; [lia|].
  pose proof (recv_round_outcome k self p q t e Hc Hp Hq He) as Ho.
  apply wp_inv in Ho as (r & k1 & Er & Hc1 & Heff).
  pose proof (recv_effect_ready _ _ _ _ _ _ _ _ Hc1 Hp Hq Ht Heff) as Hr1.
  cbn [recv_loop]. rewrite (bind_Some _ _ _ _ _ Er). unfold recv_effect in Heff. destruct q as [|v q].
  - rewrite (proj2 (Z.ltb_ge t 0)) in Heff by lia. destruct Heff as (-> & _ & _).
    destruct (t <=? e) eqn:E; [by eexists _, k1|].
    destruct (Hsleep k1 Hr1) as (k2 & E2 & Hr2). rewrite (bind_Some _ _ _ _ _ E2).
    apply IH; [lia|lia|lia|done].
  - destruct Heff as (m & mb' & -> & _). by eexists _, k1.
Qed.

(** * A small system *)

Definition empty_box : ipc_mailbox :=
  mk_mbox (replicate 32 (mk_msg 0 0 (replicate 96 0))) 0 0 0 None.

Lemma empty_box_rep : mb_rep empty_box [].
Proof.
  split; unfold MAX_IPC_MAILBOX_SLOTS; cbn [slots head tail count empty_box].
  - done.
  - apply Forall_replicate. split; [unfold MAX_IPC_MSG_PAYLOAD; cbn; lia|done].
  - lia.
  - done.
  - done.
  - done.
  - intros i v Hi%zget_range. unfold zlen in Hi. simpl in Hi. lia.
Qed.

Definition demo_kernel : kernel :=
  mk_kernel [mk_proc 7 PROCESS_RUNNING empty_box; mk_proc 9 PROCESS_READY empty_box] (Some 7) true.

Lemma demo_inv : sys_inv (mk_sys demo_kernel []).
Proof.
  intros x p Hp. unfold process_find_by_pid in Hp.
  cbn [List.find pid process_list demo_kernel kern] in Hp.
  assert ((x = 7 /\ p = mk_proc 7 PROCESS_RUNNING empty_box) \/ (x = 9 /\ p = mk_proc 9 PROCESS_READY empty_box)) as H.
  { destruct (7 =? x) eqn:E7; [left; split; [lia|congruence]|].
    destruct (9 =? x) eqn:E9; [right; split; [lia|congruence]|done]. }
  destruct H as [[-> ->]|[-> ->]]; (split; [done|]); (split; [by left|]); exists []; (split; [exact empty_box_rep|done]).
Qed.

(** The mailbox part of [terminate_process_by_signal] (process.c): the process is marked dead,
    its mailbox and the [waiter] in it stay as they are until it is reaped. *)
Definition terminate_process_by_signal (p : Z) : M kernel unit :=
  q ← gets (process_find_by_pid p);
  match q with
  | Some q => if decide (pstate q = PROCESS_TERMINATED) then mret tt else put_state p PROCESS_TERMINATED
  | None => mret tt
  end.

(** * Properties *)

(** C14: Rings are FIFO queues of at most 32 messages.  A send of at most 96 bytes to a process
    whose ring has room appends exactly the sender and the bytes, and hands over its waiter; on
    a full ring it returns -2 and on an oversized message -1, changing no ring; interrupts are
    restored either way.  A receive takes the oldest message when there is one. *)
Theorem mailbox_fifo (k : kernel) (dest_pid sender : Z) (data : list Z) (n : Z) (dest : process)
    (q : list (Z * list Z)) (t e : Z)
    (Hdest : process_find_by_pid dest_pid k = Some dest) (Hrep : mb_rep (mbox dest) q)
    (Hn : 0 <= n <= zlen data) (He : 0 <= e) :
  (exists r k', mailbox_send dest_pid sender data n k = Some (r, k') /\ intr k' = intr k /\
     ((n <= MAX_IPC_MSG_PAYLOAD /\ zlen q < MAX_IPC_MAILBOX_SLOTS /\ r = 0 /\
       exists d', process_find_by_pid dest_pid k' = Some d' /\
                  mb_rep (mbox d') (q ++ [(sender, take (Z.to_nat n) data)]) /\ waiter (mbox d') = None) \/
      (n <= MAX_IPC_MSG_PAYLOAD /\ zlen q = MAX_IPC_MAILBOX_SLOTS /\ r = -2 /\ same_procs k k') \/
      (MAX_IPC_MSG_PAYLOAD < n /\ r = -1 /\ same_procs k k'))) /\
  (exists r k', recv_round t e (set_current dest_pid k) = Some (r, k') /\
     match q with
     | v :: q' => exists m d', r = Got m /\ view m = v /\ process_find_by_pid dest_pid k' = Some d' /\ mb_rep (mbox d') q'
     | [] => forall m, r <> Got m
     end).
Proof.
  split.
  - destruct (wp_inv _ _ _ (send_commit_outcome k dest_pid sender data n dest q Hdest Hrep
      ltac:(lia) ltac:(lia))) as ([r w] & k1 & E & Hi & _ & Ho).
    unfold mailbox_send. rewrite (bind_Some _ _ _ _ _ E).
    destruct Ho as [(Hl & [= -> ->] & Hs)|[(Hl & Hq & [= -> ->] & Hs)|(Hl & Hq & [= -> ->] & mb' & Hrep' & Hw & Hs)]].
    + exists (-1), k1. split; [done|]. split; [done|]. by right; right.
    + exists (-2), k1. split; [done|]. split; [done|]. by right; left.
    + exists 0. destruct (waiter (mbox dest)) as [w|]; eexists; (split; [reflexivity|]); (split; [exact Hi|]); left;
        (split; [done|]); (split; [done|]); (split; [done|]).
      * rewrite find_set_procs by done. destruct (dest_pid =? w).
        -- rewrite Hs, Z.eqb_refl. eexists. split; [reflexivity|]. done.
        -- rewrite Hs, Z.eqb_refl. eexists. split; [reflexivity|]. done.
      * rewrite Hs, Z.eqb_refl. eexists. split; [reflexivity|]. done.
  - destruct (wp_inv _ _ _ (recv_round_outcome (set_current dest_pid k) dest_pid dest q t e eq_refl Hdest Hrep He))
      as (r & k1 & E & _ & Ho). exists r, k1. split; [done|]. unfold recv_effect in Ho.
    destruct q as [|v q].
    + intros m ->. destruct (t <? 0); [by destruct Ho|]. destruct Ho as [Ho _]. by destruct (t <=? e).
    + destruct Ho as (m & mb' & -> & Hv & _ & Hrep' & _ & Hs). exists m. eexists. split; [done|]. split; [done|].
      rewrite Hs, Z.eqb_refl. split; [reflexivity|done].
Qed.

Lemma mailbox_fifo_witness :
  exists k', mailbox_send 9 7 [1; 2; 3] 3 demo_kernel = Some (0, k') /\
    exists d, process_find_by_pid 9 k' = Some d /\ mb_rep (mbox d) [(7, [1; 2; 3])].
Proof.
  destruct (mailbox_fifo demo_kernel 9 7 [1; 2; 3] 3 (mk_proc 9 PROCESS_READY empty_box) [] 0 0)
    as [(r & k' & E & _ & H) _].
  - reflexivity.
  - exact empty_box_rep.
  - unfold zlen. simpl. lia.
  - lia.
  - destruct H as [(_ & _ & -> & d & Hd & Hrep & _)|[(_ & Hc & _)|(Hc & _)]].
    + exists k'. split; [exact E|]. exists d. split; [exact Hd|exact Hrep].
    + discriminate Hc.
    + unfold MAX_IPC_MSG_PAYLOAD in Hc. lia.
Defined.



(** A receive with a timeout of [t >= 0] milliseconds returns after at most [t / 10 + 1]
    sleeps of 10 ms, whatever other processes do meanwhile. *)
Theorem mailbox_recv_terminates (self t : Z) (k : kernel) (sleep sched : M kernel unit)
    (Hsleep : forall k, recv_ready self k -> exists k', sleep k = Some (tt, k') /\ recv_ready self k')
    (Ht : 0 <= t) (Hk : recv_ready self k) :
  exists r k', mailbox_recv (Z.to_nat (t / 10) + 2) sleep sched t k = Some (r, k') /\ recv_ready self k'.
Proof.
  apply recv_loop_bounded; [done|done|lia| |lia|done].
  pose proof (Z.div_pos t 10). pose proof (Z.div_mod t 10). pose proof (Z.mod_pos_bound t 10). lia.
Qed.

Lemma mailbox_recv_terminates_witness :
  exists k', mailbox_recv 7 (mret tt) (mret tt) 50 demo_kernel = Some (None, k').
Proof.
  destruct (mailbox_recv_terminates 7 50 demo_kernel (mret tt) (mret tt)) as (r & k' & E & _).
  - intros k Hk. exists k. split; [reflexivity|exact Hk].
  - lia.
  - split; [reflexivity|]. exists (mk_proc 7 PROCESS_RUNNING empty_box), []. split; [reflexivity|exact empty_box_rep].
  - change (Z.to_nat (50 / 10) + 2)%nat with 7%nat in E.
    assert (option_map fst (mailbox_recv 7 (mret tt) (mret tt) 50 demo_kernel) = Some None) as Hn
      by (vm_compute; reflexivity).
    rewrite E in Hn. injection Hn as ->. exists k'. exact E.
Defined.

(** [mailbox_send] makes its waiter ready without looking at its state: a process killed
    while blocked in [mailbox_recv] keeps its [waiter] pointer, so a message sent before it is
    reaped puts the dead process back on the run queue. *)
Theorem mailbox_send_revives_killed :
  exists k1 k2 k3,
    recv_round (-1) 0 demo_kernel = Some (Block, k1) /\
    terminate_process_by_signal 7 k1 = Some (tt, k2) /\
    option_map pstate (process_find_by_pid 7 k2) = Some PROCESS_TERMINATED /\
    mailbox_send 7 9 [42] 1 k2 = Some (0, k3) /\
    option_map pstate (process_find_by_pid 7 k3) = Some PROCESS_READY.
Proof.
  eexists _, _, _. split; [vm_compute; reflexivity|]. split; [vm_compute; reflexivity|].
  split; [vm_compute; reflexivity|]. split; vm_compute; reflexivity.
Qed.
