(* ===== verification/Pci.v ===== *)
(** Model of kernel/drivers/pci/pci.c: configuration mechanism #1, enumeration of the bus, BAR
    sizing and the command register.

    The hardware is the configuration space behind ports 0xCF8/0xCFC: a map from configuration
    addresses to registers, each with the bits software can change ([reg_wmask]) and the
    write-one-to-clear bits ([reg_w1c], as in the status register).  An absent register reads as
    all ones. *)

From S2P Require Import Prelude Memory.

Definition PCI_CONFIG_ADDRESS : Z := 0xCF8.
Definition PCI_CONFIG_DATA : Z := 0xCFC.
Definition PCI_VENDOR_ID : Z := 0x00.
Definition PCI_DEVICE_ID : Z := 0x02.
Definition PCI_COMMAND : Z := 0x04.
Definition PCI_STATUS : Z := 0x06.
Definition PCI_REVISION_ID : Z := 0x08.
Definition PCI_PROG_IF : Z := 0x09.
Definition PCI_SUBCLASS : Z := 0x0A.
Definition PCI_CLASS_CODE : Z := 0x0B.
Definition PCI_HEADER_TYPE : Z := 0x0E.
Definition PCI_BAR0 : Z := 0x10.
Definition PCI_INTERRUPT_LINE : Z := 0x3C.
Definition PCI_INTERRUPT_PIN : Z := 0x3D.
Definition PCI_COMMAND_IO : Z := 1.
Definition PCI_COMMAND_MEMORY : Z := 2.
Definition PCI_COMMAND_BUS_MASTER : Z := 4.
Definition PCI_COMMAND_INT_DISABLE : Z := 0x400.
Definition PCI_HEADER_MULTIFUNCTION : Z := 0x80.
Definition PCI_BAR_MEMORY_64 : Z := 0x04.
Definition PCI_BAR_MEMORY_TYPE_MASK : Z := 0x06.
Definition PCI_BAR_PREFETCHABLE : Z := 0x08.
Definition PCI_MAX_DEVICES : Z := 256.

Record pci_device := mk_dev {
  bus : Z; device : Z; function : Z;
  vendor_id : Z; device_id : Z;
  command : Z; status : Z;
  revision_id : Z; prog_if : Z; subclass : Z; class_code : Z;
  header_type : Z;
  interrupt_line : Z; interrupt_pin : Z;
}.

Record pci_bar := mk_bar {
  bar_address : Z;
  bar_size : Z;
  is_io : bool;
  is_64bit : bool;
  prefetchable : bool;
}.

Record cfg_reg := mk_reg { reg_val : Z; reg_wmask : Z; reg_w1c : Z }.

Record pci := mk_pci {
  cfg : gmap Z cfg_reg;           (* configuration space *)
  conf_addr : Z;                  (* the CONFIG_ADDRESS latch *)
  pci_devices : list pci_device;  (* pci_devices[256] *)
  pci_device_count : Z;
  pci_intr : bool;                (* EFLAGS.IF *)
}.

Definition set_cfg (c : gmap Z cfg_reg) (s : pci) : pci :=
  mk_pci c (conf_addr s) (pci_devices s) (pci_device_count s) (pci_intr s).
Definition set_conf (a : Z) (s : pci) : pci :=
  mk_pci (cfg s) a (pci_devices s) (pci_device_count s) (pci_intr s).
Definition set_devs (l : list pci_device) (n : Z) (s : pci) : pci :=
  mk_pci (cfg s) (conf_addr s) l n (pci_intr s).
Definition set_pintr (b : bool) (s : pci) : pci :=
  mk_pci (cfg s) (conf_addr s) (pci_devices s) (pci_device_count s) b.

(** A register after the 32-bit value [w] is written to it. *)
Definition reg_write (r : cfg_reg) (w : Z) : cfg_reg :=
  mk_reg (Z.land (Z.lor (Z.land (reg_val r) (u32 (Z.lnot (reg_wmask r)))) (Z.land w (reg_wmask r)))
                 (u32 (Z.lnot (Z.land w (reg_w1c r)))))
         (reg_wmask r) (reg_w1c r).

Definition rd32 (c : gmap Z cfg_reg) (a : Z) : Z :=
  match c !! a with Some r => reg_val r | None => 0xFFFFFFFF end.

Definition outl (port value : Z) : M pci unit := modify (fun s =>
  if port =? PCI_CONFIG_ADDRESS then set_conf value s
  else if port =? PCI_CONFIG_DATA then
    match cfg s !! conf_addr s with
    | Some r => set_cfg (<[conf_addr s := reg_write r value]> (cfg s)) s
    | None => s
    end
  else s).

Definition inl_port (port : Z) : M pci Z := gets (fun s =>
  if port =? PCI_CONFIG_DATA then rd32 (cfg s) (conf_addr s) else conf_addr s).

Definition pci_make_address (bus device function offset : Z) : Z :=
  Z.lor (Z.lor (Z.lor (Z.lor 0x80000000 (Z.shiftl bus 16)) (Z.shiftl device 11)) (Z.shiftl function 8))
        (Z.land offset 0xFC).

Definition pci_cli_save : M pci bool := fun s => Some (pci_intr s, set_pintr false s).
Definition pci_restore (flags : bool) : M pci unit := modify (set_pintr flags).

Definition pci_config_read32 (bus device function offset : Z) : M pci Z :=
  let address := pci_make_address bus device function offset in
  flags ← pci_cli_save;
  outl PCI_CONFIG_ADDRESS address;;
  value ← inl_port PCI_CONFIG_DATA;
  pci_restore flags;;
  mret value.

Definition pci_config_read16 (bus device function offset : Z) : M pci Z :=
  value ← pci_config_read32 bus device function offset;
  let shift := Z.land offset 2 * 8 in
  mret (u16 (Z.land (Z.shiftr value shift) 0xFFFF)).

Definition pci_config_read8 (bus device function offset : Z) : M pci Z :=
  value ← pci_config_read32 bus device function offset;
  let shift := Z.land offset 3 * 8 in
  mret (u8 (Z.land (Z.shiftr value shift) 0xFF)).

Definition pci_config_write32 (bus device function offset value : Z) : M pci unit :=
  let address := pci_make_address bus device function offset in
  flags ← pci_cli_save;
  outl PCI_CONFIG_ADDRESS address;;
  outl PCI_CONFIG_DATA value;;
  pci_restore flags.

Definition pci_config_write16 (bus device function offset value : Z) : M pci unit :=
  old_value ← pci_config_read32 bus device function offset;
  let shift := Z.land offset 2 * 8 in
  let mask := u32 (Z.shiftl 0xFFFF shift) in
  let old_value := Z.land old_value (u32 (Z.lnot mask)) in
  let old_value := Z.lor old_value (u32 (Z.shiftl value shift)) in
  pci_config_write32 bus device function offset old_value.

Definition pci_config_write8 (bus device function offset value : Z) : M pci unit :=
  old_value ← pci_config_read32 bus device function offset;
  let shift := Z.land offset 3 * 8 in
  let mask := u32 (Z.shiftl 0xFF shift) in
  let old_value := Z.land old_value (u32 (Z.lnot mask)) in
  let old_value := Z.lor old_value (u32 (Z.shiftl value shift)) in
  pci_config_write32 bus device function offset old_value.

(** * Enumeration *)

Definition pci_function_exists (bus device function : Z) : M pci bool :=
  vendor_id ← pci_config_read16 bus device function PCI_VENDOR_ID;
  mret (negb (vendor_id =? 0xFFFF)).

Definition pci_register_device (bus device function : Z) : M pci unit :=
  n ← gets pci_device_count;
  if PCI_MAX_DEVICES <=? n then mret tt else
  vendor_id ← pci_config_read16 bus device function PCI_VENDOR_ID;
  device_id ← pci_config_read16 bus device function PCI_DEVICE_ID;
  command ← pci_config_read16 bus device function PCI_COMMAND;
  status ← pci_config_read16 bus device function PCI_STATUS;
  revision_id ← pci_config_read8 bus device function PCI_REVISION_ID;
  prog_if ← pci_config_read8 bus device function PCI_PROG_IF;
  subclass ← pci_config_read8 bus device function PCI_SUBCLASS;
  class_code ← pci_config_read8 bus device function PCI_CLASS_CODE;
  header_type ← pci_config_read8 bus device function PCI_HEADER_TYPE;
  interrupt_line ← pci_config_read8 bus device function PCI_INTERRUPT_LINE;
  interrupt_pin ← pci_config_read8 bus device function PCI_INTERRUPT_PIN;
  s ← get;
  l ← lift (zset (pci_devices s) n
        (mk_dev bus device function vendor_id device_id command status
                revision_id prog_if subclass class_code header_type interrupt_line interrupt_pin));
  modify (set_devs l (n + 1)).

Definition pci_scan_function (bus device function : Z) : M pci unit :=
  e ← pci_function_exists bus device function;
  if negb e then mret tt else pci_register_device bus device function.

Definition pci_scan_device (bus device : Z) : M pci unit :=
  e ← pci_function_exists bus device 0;
  if negb e then mret tt else
  header_type ← pci_config_read8 bus device 0 PCI_HEADER_TYPE;
  pci_scan_function bus device 0;;
  if negb (Z.land header_type PCI_HEADER_MULTIFUNCTION =? 0) then
    for_range (R := unit) 1 8 (fun function => pci_scan_function bus device function;; mret None);;
    mret tt
  else mret tt.

Definition pci_scan_bus (bus : Z) : M pci unit :=
  for_range (R := unit) 0 32 (fun device => pci_scan_device bus device;; mret None);;
  mret tt.

Definition pci_scan : M pci unit :=
  modify (fun s => set_devs (pci_devices s) 0 s);;
  for_range (R := unit) 0 256 (fun bus => pci_scan_bus (u8 bus);; mret None);;
  mret tt.

Definition pci_init : M pci unit :=
  modify (fun s => set_devs (pci_devices s) 0 s);;
  pci_scan.

Definition pci_get_device_count : M pci Z := gets pci_device_count.

Definition pci_get_device (index : Z) : M pci (option pci_device) :=
  s ← get;
  if pci_device_count s <=? index then mret None
  else d ← lift (zget (pci_devices s) index); mret (Some d).

(** The three linear searches of the device table. *)
Definition find_in_table (p : pci_device -> bool) : M pci (option pci_device) :=
  n ← gets pci_device_count;
  for_range 0 n (fun i =>
    s ← get;
    d ← lift (zget (pci_devices s) i);
    mret (if p d then Some d else None)).

Definition pci_find_device (vid did : Z) : M pci (option pci_device) :=
  find_in_table (fun d => (vendor_id d =? vid) && (device_id d =? did)).
Definition pci_find_class (cc sc : Z) : M pci (option pci_device) :=
  find_in_table (fun d => (class_code d =? cc) && (subclass d =? sc)).
Definition pci_find_class_if (cc sc pi : Z) : M pci (option pci_device) :=
  find_in_table (fun d => (class_code d =? cc) && (subclass d =? sc) && (prog_if d =? pi)).

(** * Base address registers *)

(** The result code and the BAR; on a code other than 0 the BAR is as cleared. *)
Definition no_bar : pci_bar := mk_bar 0 0 false false false.

Definition not32 (x : Z) : Z := u32 (Z.lnot x).
Definition not64 (x : Z) : Z := u64 (Z.lnot x).

Definition pci_get_bar (dev : pci_device) (bar_index : Z) : M pci (Z * pci_bar) :=
  if 6 <=? bar_index then mret (-2, no_bar) else
  let offset := u8 (PCI_BAR0 + bar_index * 4) in
  let read := pci_config_read32 (bus dev) (device dev) (function dev) in
  let write := pci_config_write32 (bus dev) (device dev) (function dev) in
  original ← read offset;
  if original =? 0 then mret (1, no_bar) else
  if negb (Z.land original 1 =? 0) then
    write offset 0xFFFFFFFF;;
    probe ← read offset;
    write offset original;;
    let base := Z.land original (not32 3) in
    let mask := Z.land probe (not32 3) in
    let size := if (mask =? 0) || (mask =? 0xFFFFFFFF) then 0 else u32 (not32 mask + 1) in
    mret (0, mk_bar base size true false false)
  else
    let pf := negb (Z.land original PCI_BAR_PREFETCHABLE =? 0) in
    let memory_type := Z.land original PCI_BAR_MEMORY_TYPE_MASK in
    if memory_type =? PCI_BAR_MEMORY_64 then
      if 5 <=? bar_index then mret (-3, mk_bar 0 0 false false pf) else
      upper ← read (offset + 4);
      let original_address := Z.lor (Z.shiftl upper 32) (Z.land original (not64 0xF)) in
      write offset 0xFFFFFFFF;;
      write (offset + 4) 0xFFFFFFFF;;
      probe_low ← read offset;
      probe_high ← read (offset + 4);
      write offset original;;
      write (offset + 4) upper;;
      let probe_address := Z.lor (Z.shiftl probe_high 32) (Z.land probe_low (not64 0xF)) in
      if (probe_address =? 0) || (probe_address =? 0xFFFFFFFFFFFFFFFF)
      then mret (0, mk_bar original_address 0 false true pf)
      else mret (0, mk_bar original_address (u64 (not64 probe_address + 1)) false true pf)
    else
      write offset 0xFFFFFFFF;;
      probe ← read offset;
      write offset original;;
      let base := u32 (Z.land original (not64 0xF)) in
      let mask := u32 (Z.land probe (not64 0xF)) in
      let size := if (mask =? 0) || (mask =? 0xFFFFFFFF) then 0 else u32 (not32 mask + 1) in
      mret (0, mk_bar base size false false pf).

(** * Command register *)

Definition pci_get_command (dev : pci_device) : M pci Z :=
  pci_config_read16 (bus dev) (device dev) (function dev) PCI_COMMAND.
Definition pci_set_command (dev : pci_device) (command : Z) : M pci unit :=
  pci_config_write16 (bus dev) (device dev) (function dev) PCI_COMMAND command.

Definition pci_enable_io (dev : pci_device) : M pci unit :=
  c ← pci_get_command dev; pci_set_command dev (Z.lor c PCI_COMMAND_IO).
Definition pci_enable_memory (dev : pci_device) : M pci unit :=
  c ← pci_get_command dev; pci_set_command dev (Z.lor c PCI_COMMAND_MEMORY).
Definition pci_enable_bus_master (dev : pci_device) : M pci unit :=
  c ← pci_get_command dev; pci_set_command dev (Z.lor c PCI_COMMAND_BUS_MASTER).
Definition pci_disable_interrupts (dev : pci_device) : M pci unit :=
  c ← pci_get_command dev; pci_set_command dev (Z.lor c PCI_COMMAND_INT_DISABLE).
Definition pci_enable_interrupts (dev : pci_device) : M pci unit :=
  c ← pci_get_command dev; pci_set_command dev (u16 (Z.land c (Z.lnot PCI_COMMAND_INT_DISABLE))).

(** * Bit lemmas *)

Lemma testbit_u w x i : 0 <= w -> 0 <= i -> Z.testbit (x mod 2 ^ w) i = (i <? w) && Z.testbit x i.
Proof.
  intros Hw Hi. destruct (Z.ltb_spec i w); [by rewrite Z.mod_pow2_bits_low|by rewrite Z.mod_pow2_bits_high by lia].
Qed.

Lemma testbit_not32 x i : 0 <= i -> Z.testbit (not32 x) i = (i <? 32) && negb (Z.testbit x i).
Proof. intros Hi. unfold not32, u32. by rewrite testbit_u, Z.lnot_spec by lia. Qed.

Lemma testbit_not64 x i : 0 <= i -> Z.testbit (not64 x) i = (i <? 64) && negb (Z.testbit x i).
Proof. intros Hi. unfold not64, u64. by rewrite testbit_u, Z.lnot_spec by lia. Qed.

Lemma u32_high v i : is_u32 v -> 32 <= i -> Z.testbit v i = false.
Proof.
  intros Hv Hi. rewrite <- (u32_small v Hv). unfold u32. rewrite testbit_u by lia.
  by rewrite (proj2 (Z.ltb_ge i 32)).
Qed.

Lemma bits_ext a b : (forall i, 0 <= i -> Z.testbit a i = Z.testbit b i) -> a = b.
Proof. apply Z.bits_inj'. Qed.

(** The mask of an address register decoding [2^k] bytes: bits [k] to 63. *)
Definition size_mask (k : Z) : Z := Z.shiftl (Z.ones (64 - k)) k.

Lemma testbit_size_mask k i : 0 <= k <= 64 -> 0 <= i ->
  Z.testbit (size_mask k) i = (k <=? i) && (i <? 64).
Proof.
  intros Hk Hi. unfold size_mask. rewrite Z.shiftl_spec by done. destruct (Z.leb_spec k i).
  - rewrite Z.testbit_ones_nonneg by lia. simpl. destruct (Z.ltb_spec i 64), (Z.ltb_spec (i - k) (64 - k)); (done || lia).
  - by rewrite Z.testbit_neg_r by lia.
Qed.

Lemma size_mask_eq k : 0 <= k <= 64 -> size_mask k = 2 ^ 64 - 2 ^ k.
Proof.
  intros Hk. unfold size_mask. rewrite Z.shiftl_mul_pow2, Z.ones_equiv by lia.
  replace (2 ^ 64) with (2 ^ (64 - k) * 2 ^ k) by (rewrite <- Z.pow_add_r by lia; f_equal; lia). lia.
Qed.

(** The register part of a mask below bit 32. *)
Lemma size_mask_low k : 0 <= k <= 32 -> u32 (size_mask k) = 2 ^ 32 - 2 ^ k.
Proof.
  intros Hk. rewrite size_mask_eq by lia. unfold u32.
  assert (0 < 2 ^ k <= 2 ^ 32) by (split; [lia|apply Z.pow_le_mono_r; lia]).
  symmetry. apply (Zmod_unique _ _ (2 ^ 32 - 1)); lia.
Qed.

(** * Configuration accesses *)

Record reg_ok (r : cfg_reg) : Prop := {
  rok_val : is_u32 (reg_val r);
  rok_mask : is_u32 (reg_wmask r);
  rok_w1c : reg_w1c r = 0;
}.

Lemma reg_write_val r w : reg_ok r ->
  reg_val (reg_write r w) = Z.land (Z.lor (Z.land (reg_val r) (not32 (reg_wmask r))) (Z.land w (reg_wmask r))) 0xFFFFFFFF.
Proof. intros [_ _ Hc]. unfold reg_write. rewrite Hc, Z.land_0_r. done. Qed.

Lemma land_ones32 i : 0 <= i -> Z.testbit 0xFFFFFFFF i = (i <? 32).
Proof. intros. change 0xFFFFFFFF with (Z.ones 32). rewrite Z.testbit_ones_nonneg by lia. done. Qed.

(** Probing a register and writing its value back restores it. *)
Lemma reg_restore r x : reg_ok r -> reg_write (reg_write r x) (reg_val r) = r.
Proof.
  destruct r as [v m c]. intros [Hv Hm Hc]. simpl in *. subst c.
  unfold reg_write. simpl. f_equal. rewrite !Z.land_0_r. change (u32 (Z.lnot 0)) with 0xFFFFFFFF.
  fold (not32 m). apply bits_ext. intros i Hi.
  repeat (rewrite Z.land_spec || rewrite Z.lor_spec). rewrite !land_ones32, !testbit_not32 by done.
  destruct (Z.ltb_spec i 32).
  - by destruct (Z.testbit v i), (Z.testbit m i), (Z.testbit x i).
  - rewrite andb_false_r. symmetry. by apply u32_high.
Qed.

(** Configuration space after a write. *)
Definition wcfg (c : gmap Z cfg_reg) (a v : Z) : gmap Z cfg_reg :=
  match c !! a with Some r => <[a := reg_write r v]> c | None => c end.

(** State [s] with configuration space [c] and latch [a]. *)
Definition at_cfg (c : gmap Z cfg_reg) (a : Z) (s : pci) : pci :=
  mk_pci c a (pci_devices s) (pci_device_count s) (pci_intr s).

Lemma at_cfg_id s : s = at_cfg (cfg s) (conf_addr s) s.
Proof. by destruct s. Qed.

Section access.
Context (b d f : Z).
Abbreviation addr := (pci_make_address b d f).

Lemma read32_run o c a s :
  pci_config_read32 b d f o (at_cfg c a s) = Some (rd32 c (addr o), at_cfg c (addr o) s).
Proof. done. Qed.

Lemma write32_run o v c a s :
  pci_config_write32 b d f o v (at_cfg c a s) = Some (tt, at_cfg (wcfg c (addr o) v) (addr o) s).
Proof.
  unfold pci_config_write32, wcfg, mbind, M_bind, pci_cli_save, outl, modify. simpl.
  by destruct (c !! addr o).
Qed.

Lemma wp_read32 Q o c a s :
  Q (rd32 c (addr o)) (at_cfg c (addr o) s) -> wp (pci_config_read32 b d f o) Q (at_cfg c a s).
Proof. intros H. eapply wp_Some; [apply read32_run|done]. Qed.

Lemma wp_write32 Q o v c a s :
  Q tt (at_cfg (wcfg c (addr o) v) (addr o) s) -> wp (pci_config_write32 b d f o v) Q (at_cfg c a s).
Proof. intros H. eapply wp_Some; [apply write32_run|done]. Qed.
End access.

Lemma rd32_wcfg_eq c a r v : c !! a = Some r -> rd32 (wcfg c a v) a = reg_val (reg_write r v).
Proof. intros H. unfold rd32, wcfg. by rewrite H, lookup_insert_eq. Qed.

Lemma rd32_wcfg_ne c a a' v : a <> a' -> rd32 (wcfg c a v) a' = rd32 c a'.
Proof. intros H. unfold rd32, wcfg. destruct (c !! a); [|done]. by rewrite lookup_insert_ne. Qed.

Lemma wcfg_comm c a a' v v' : a <> a' -> wcfg (wcfg c a v) a' v' = wcfg (wcfg c a' v') a v.
Proof.
  intros Hne. unfold wcfg. destruct (c !! a) as [r|] eqn:E, (c !! a') as [r'|] eqn:E'; rewrite ?E, ?E'; try done.
  - rewrite !lookup_insert_ne, E, E' by done. by apply insert_insert_ne.
  - by rewrite lookup_insert_ne, E' by done.
  - by rewrite lookup_insert_ne, E by done.
Qed.

(** Probe and restore leave the whole space as it was. *)
Lemma wcfg_restore c a r x : c !! a = Some r -> reg_ok r -> wcfg (wcfg c a x) a (reg_val r) = c.
Proof.
  intros H Hr. unfold wcfg. rewrite H, lookup_insert_eq, insert_insert_eq, reg_restore by done.
  by apply insert_id.
Qed.

Lemma addr_low b d f o : Z.land (pci_make_address b d f o) 0xFF = Z.land o 0xFC.
Proof.
  apply bits_ext. intros i Hi. unfold pci_make_address.
  rewrite !Z.land_spec, !Z.lor_spec, Z.land_spec, !Z.shiftl_spec by done.
  change 255 with (Z.ones 8). rewrite Z.testbit_ones_nonneg by lia.
  destruct (Z.ltb_spec i 8).
  - rewrite !(Z.testbit_neg_r _ (i - _)) by lia. rewrite !orb_false_r.
    assert (Z.testbit 0x80000000 i = false) as ->.
    { change 0x80000000 with (2 ^ 31). apply Z.pow2_bits_false. lia. }
    by rewrite orb_false_l, andb_true_r.
  - rewrite andb_false_r. symmetry. change 252 with (Z.land (Z.ones 8) 252).
    rewrite Z.land_spec, Z.testbit_ones_nonneg by lia. rewrite (proj2 (Z.ltb_ge i 8)) by lia. by rewrite andb_false_r.
Qed.

(** * BAR sizing *)

Lemma mod_small_bits x k t j :
  0 <= t -> x mod 2 ^ k < 2 ^ t -> t <= j < k -> Z.testbit x j = false.
Proof.
  intros Ht Hx Hj. rewrite <- (Z.mod_pow2_bits_low x k j) by lia.
  assert (0 <= x mod 2 ^ k) by (apply Z.mod_pos_bound, Z.pow_pos_nonneg; lia).
  rewrite <- (Z.mod_small (x mod 2 ^ k) (2 ^ t)) by lia. apply Z.mod_pow2_bits_high. lia.
Qed.

(** What a probe with all ones reads back. *)
Lemma probe_bits v m i :
  is_u32 v -> is_u32 m -> 0 <= i ->
  Z.testbit (reg_val (reg_write (mk_reg v m 0) 0xFFFFFFFF)) i = (i <? 32) && (Z.testbit m i || Z.testbit v i).
Proof.
  intros Hv Hm Hi. rewrite reg_write_val by done. cbn [reg_val reg_wmask].
  rewrite Z.land_spec, Z.lor_spec, !Z.land_spec, !land_ones32, testbit_not32 by done.
  destruct (i <? 32), (Z.testbit v i), (Z.testbit m i); done.
Qed.

Lemma not_low64 t i : 0 <= t <= 32 -> 0 <= i -> Z.testbit (not64 (2 ^ t - 1)) i = (i <? 64) && (t <=? i).
Proof.
  intros Ht Hi. rewrite testbit_not64 by done. replace (2 ^ t - 1) with (Z.ones t) by (rewrite Z.ones_equiv; lia).
  rewrite Z.testbit_ones_nonneg by lia. f_equal. destruct (Z.ltb_spec i t), (Z.leb_spec t i); (done || lia).
Qed.

Lemma not_low32 t i : 0 <= t <= 32 -> 0 <= i -> Z.testbit (not32 (2 ^ t - 1)) i = (i <? 32) && (t <=? i).
Proof.
  intros Ht Hi. rewrite testbit_not32 by done. replace (2 ^ t - 1) with (Z.ones t) by (rewrite Z.ones_equiv; lia).
  rewrite Z.testbit_ones_nonneg by lia. f_equal. destruct (Z.ltb_spec i t), (Z.leb_spec t i); (done || lia).
Qed.

(** Clearing the flag bits of an address register. *)
Lemma strip_flags v t m :
  is_u32 v -> 0 <= t <= 32 -> (forall i, 0 <= i < 32 -> Z.testbit m i = (t <=? i)) ->
  Z.land v m = 2 ^ t * (v / 2 ^ t).
Proof.
  intros Hv Ht Hm. rewrite Z.mul_comm, <- Z.shiftl_mul_pow2, <- Z.shiftr_div_pow2 by lia.
  rewrite <- Z.ldiff_ones_r by lia. apply bits_ext. intros i Hi.
  rewrite Z.land_spec, Z.ldiff_spec, Z.testbit_ones_nonneg by lia.
  destruct (Z.ltb_spec i 32).
  - rewrite Hm by lia. f_equal. destruct (Z.ltb_spec i t), (Z.leb_spec t i); (done || lia).
  - by rewrite (u32_high v i).
Qed.

Lemma probe_mask v k t m :
  is_u32 v -> 0 <= t <= k -> k < 32 -> v mod 2 ^ k < 2 ^ t ->
  (forall i, 0 <= i < 32 -> Z.testbit m i = (t <=? i)) ->
  Z.land (reg_val (reg_write (mk_reg v (u32 (size_mask k)) 0) 0xFFFFFFFF)) m = 2 ^ 32 - 2 ^ k.
Proof.
  intros Hv Ht Hk Hal Hm. rewrite <- size_mask_low by lia. apply bits_ext. intros i Hi.
  rewrite Z.land_spec, probe_bits by (done || apply u32_range).
  unfold u32. rewrite testbit_u, testbit_size_mask by lia.
  destruct (Z.ltb_spec i 32); [|done]. cbn [andb]. rewrite Hm by lia.
  destruct (Z.leb_spec k i); cbn [andb orb].
  - rewrite (proj2 (Z.ltb_lt i 64)), (proj2 (Z.leb_le t i)) by lia. done.
  - destruct (Z.leb_spec t i); [|by rewrite andb_false_r].
    by rewrite (mod_small_bits v k t) by lia.
Qed.

(** Two's complement of the mask is the size. *)
Lemma mask_size k : 1 <= k < 32 ->
  let mask := 2 ^ 32 - 2 ^ k in
  (if (mask =? 0) || (mask =? 0xFFFFFFFF) then 0 else u32 (not32 mask + 1)) = 2 ^ k.
Proof.
  intros Hk mask.
  assert (2 ^ 1 <= 2 ^ k <= 2 ^ 31) as Hp by (split; apply Z.pow_le_mono_r; lia).
  unfold mask. rewrite (proj2 (Z.eqb_neq _ 0)), (proj2 (Z.eqb_neq _ 0xFFFFFFFF)) by lia. cbn [orb].
  unfold not32, u32. rewrite Zplus_mod_idemp_l. unfold Z.lnot.
  symmetry. apply (Zmod_unique _ _ (-1)); lia.
Qed.

Lemma mask_size64 k : 1 <= k < 64 ->
  ((size_mask k =? 0) || (size_mask k =? 0xFFFFFFFFFFFFFFFF)) = false /\
  u64 (not64 (size_mask k) + 1) = 2 ^ k.
Proof.
  intros Hk. assert (2 ^ 1 <= 2 ^ k <= 2 ^ 63) as Hp by (split; apply Z.pow_le_mono_r; lia).
  rewrite size_mask_eq by lia. split; [lia|].
  unfold not64, u64. rewrite Zplus_mod_idemp_l. unfold Z.lnot.
  symmetry. apply (Zmod_unique _ _ (-1)); lia.
Qed.

(** The 64-bit value of two halves. *)
Lemma testbit_pair hi lo i : is_u32 lo -> 0 <= i ->
  Z.testbit (Z.lor (Z.shiftl hi 32) lo) i = if i <? 32 then Z.testbit lo i else Z.testbit hi (i - 32).
Proof.
  intros Hlo Hi. rewrite Z.lor_spec, Z.shiftl_spec by done. destruct (Z.ltb_spec i 32).
  - by rewrite Z.testbit_neg_r by lia.
  - by rewrite (u32_high lo i), orb_false_r.
Qed.

Lemma pair_add hi lo : is_u32 lo -> Z.lor (Z.shiftl hi 32) lo = hi * 2 ^ 32 + lo.
Proof.
  intros Hlo. rewrite <- Z.shiftl_mul_pow2 by lia. symmetry. apply Z.add_nocarry_lor.
  apply bits_ext. intros i Hi. rewrite Z.land_spec, Z.shiftl_spec, Z.bits_0 by done.
  destruct (decide (i < 32)); [by rewrite Z.testbit_neg_r by lia|].
  rewrite (u32_high lo i) by (done || lia). apply andb_false_r.
Qed.

Lemma probe_mask64 hi lo k :
  is_u32 hi -> is_u32 lo -> 4 <= k < 64 -> (hi * 2 ^ 32 + lo) mod 2 ^ k < 2 ^ 4 ->
  Z.lor (Z.shiftl (reg_val (reg_write (mk_reg hi (Z.shiftr (size_mask k) 32) 0) 0xFFFFFFFF)) 32)
        (Z.land (reg_val (reg_write (mk_reg lo (u32 (size_mask k)) 0) 0xFFFFFFFF)) (not64 0xF)) = size_mask k.
Proof.
  intros Hhi Hlo Hk Hal. rewrite <- pair_add in Hal by done.
  assert (is_u32 (Z.shiftr (size_mask k) 32)) as Hmh.
  { rewrite Z.shiftr_div_pow2, size_mask_eq by lia. assert (0 < 2 ^ k) by lia.
    assert (2 ^ k <= 2 ^ 63) by (apply Z.pow_le_mono_r; lia). split; [apply Z.div_pos; lia|apply Z.div_lt_upper_bound; lia]. }
  apply bits_ext. intros i Hi. rewrite testbit_size_mask by lia.
  change 0xF with (2 ^ 4 - 1). set (pl := reg_val (reg_write (mk_reg lo _ 0) _)).
  set (ph := reg_val (reg_write (mk_reg hi _ 0) _)).
  rewrite Z.lor_spec, Z.shiftl_spec, Z.land_spec, not_low64 by lia.
  assert (forall j, 4 <= j < k -> (if j <? 32 then Z.testbit lo j else Z.testbit hi (j - 32)) = false) as Hz.
  { intros j Hj. rewrite <- testbit_pair by (done || lia). eapply mod_small_bits; [|exact Hal|]; lia. }
  destruct (Z.ltb_spec i 32).
  - rewrite (Z.testbit_neg_r ph) by lia. unfold pl. rewrite probe_bits by (done || apply u32_range).
    unfold u32. rewrite testbit_u, testbit_size_mask by lia. rewrite !(proj2 (Z.ltb_lt i _)) by lia. cbn [andb orb].
    specialize (Hz i). rewrite (proj2 (Z.ltb_lt i 32)) in Hz by lia.
    destruct (Z.leb_spec k i), (Z.leb_spec 4 i); cbn [andb orb]; try lia; try done;
      solve [by rewrite Hz by lia | by rewrite andb_false_r].
  - unfold pl. rewrite (probe_bits lo) by (done || apply u32_range). rewrite (proj2 (Z.ltb_ge i 32)) by lia.
    cbn [andb]. rewrite orb_false_r. unfold ph. rewrite probe_bits by (done || lia).
    rewrite Z.shiftr_spec, testbit_size_mask by lia. replace (i - 32 + 32) with i by lia.
    specialize (Hz i). rewrite (proj2 (Z.ltb_ge i 32)) in Hz by lia.
    destruct (Z.leb_spec k i), (Z.ltb_spec (i - 32) 32), (Z.ltb_spec i 64); cbn [andb orb]; try lia; try done.
    by rewrite Hz by lia.
Qed.

(** ** The three kinds of BAR

    [decodes c dev i bar]: register [i] of the device is a base address register of [2^k] bytes
    ([bar]'s size) with software-writable bits [k] and up, aligned as the hardware keeps it. *)

Definition bar_addr (dev : pci_device) (i : Z) : Z :=
  pci_make_address (bus dev) (device dev) (function dev) (PCI_BAR0 + 4 * i).

Inductive decodes (c : gmap Z cfg_reg) (dev : pci_device) (i : Z) : pci_bar -> Prop :=
| dec_io v k : 2 <= k < 32 -> is_u32 v -> Z.land v 1 <> 0 -> v mod 2 ^ k < 2 ^ 2 ->
    c !! bar_addr dev i = Some (mk_reg v (u32 (size_mask k)) 0) ->
    decodes c dev i (mk_bar (4 * (v / 4)) (2 ^ k) true false false)
| dec_mem32 v k : 4 <= k < 32 -> is_u32 v -> v <> 0 -> Z.land v 1 = 0 -> Z.land v 6 <> 4 -> v mod 2 ^ k < 2 ^ 4 ->
    c !! bar_addr dev i = Some (mk_reg v (u32 (size_mask k)) 0) ->
    decodes c dev i (mk_bar (16 * (v / 16)) (2 ^ k) false false (negb (Z.land v 8 =? 0)))
| dec_mem64 lo hi k : 4 <= k < 64 -> is_u32 lo -> is_u32 hi -> lo <> 0 -> Z.land lo 1 = 0 -> Z.land lo 6 = 4 ->
    i < 5 -> (hi * 2 ^ 32 + lo) mod 2 ^ k < 2 ^ 4 ->
    c !! bar_addr dev i = Some (mk_reg lo (u32 (size_mask k)) 0) ->
    c !! bar_addr dev (i + 1) = Some (mk_reg hi (Z.shiftr (size_mask k) 32) 0) ->
    decodes c dev i (mk_bar (hi * 2 ^ 32 + 16 * (lo / 16)) (2 ^ k) false true (negb (Z.land lo 8 =? 0))).

Lemma bar_offset i : 0 <= i < 6 -> u8 (PCI_BAR0 + i * 4) = PCI_BAR0 + 4 * i.
Proof. intros Hi. rewrite u8_small; unfold is_u8, PCI_BAR0; lia. Qed.

Lemma bar_addr_ne dev i : 0 <= i < 5 -> bar_addr dev i <> bar_addr dev (i + 1).
Proof.
  intros Hi E. apply (f_equal (fun a => Z.land a 0xFF)) in E. unfold bar_addr in E. rewrite !addr_low in E.
  assert (i = 0 \/ i = 1 \/ i = 2 \/ i = 3 \/ i = 4) as H by lia.
  destruct H as [->|[->|[->|[->| ->]]]]; vm_compute in E; discriminate E.
Qed.

Lemma rd32_Some c a r : c !! a = Some r -> rd32 c a = reg_val r.
Proof. intros H. unfold rd32. by rewrite H. Qed.

Lemma reg_ok_bar v m : is_u32 v -> is_u32 m -> reg_ok (mk_reg v m 0).
Proof. by split. Qed.

Lemma shiftr_mask_u32 k : 0 <= k <= 64 -> is_u32 (Z.shiftr (size_mask k) 32).
Proof.
  intros Hk. rewrite Z.shiftr_div_pow2, size_mask_eq by lia.
  assert (0 < 2 ^ k <= 2 ^ 64) by (split; [lia|apply Z.pow_le_mono_r; lia]).
  split; [apply Z.div_pos; lia|apply Z.div_lt_upper_bound; lia].
Qed.

Lemma get_bar_io dev i v k c a s :
  0 <= i < 6 -> 2 <= k < 32 -> is_u32 v -> Z.land v 1 <> 0 -> v mod 2 ^ k < 2 ^ 2 ->
  c !! bar_addr dev i = Some (mk_reg v (u32 (size_mask k)) 0) ->
  pci_get_bar dev i (at_cfg c a s) =
  Some ((0, mk_bar (4 * (v / 4)) (2 ^ k) true false false), at_cfg c (bar_addr dev i) s).
Proof.
  intros Hi Hk Hv Hio Hal Hc. unfold pci_get_bar, bar_addr in *. rewrite (proj2 (Z.leb_gt 6 i)), bar_offset by lia.
  rewrite (bind_Some _ _ _ _ _ (read32_run _ _ _ _ _ _ _)). cbv beta. rewrite (rd32_Some _ _ _ Hc). cbn [reg_val].
  assert (v <> 0) by (intros ->; done).
  rewrite (proj2 (Z.eqb_neq v 0)), (proj2 (Z.eqb_neq (Z.land v 1) 0)) by done. cbn [negb].
  rewrite (bind_Some _ _ _ _ _ (write32_run _ _ _ _ _ _ _ _)), (bind_Some _ _ _ _ _ (read32_run _ _ _ _ _ _ _)).
  cbv beta. rewrite (bind_Some _ _ _ _ _ (write32_run _ _ _ _ _ _ _ _)).
  rewrite (rd32_wcfg_eq _ _ _ _ Hc).
  pose proof (wcfg_restore _ _ _ 0xFFFFFFFF Hc (reg_ok_bar v _ Hv (u32_range _))) as Hr. cbn [reg_val] in Hr. rewrite Hr.
  assert (forall i, 0 <= i < 32 -> Z.testbit (not32 3) i = (2 <=? i)) as Hm.
  { intros j Hj. change 3 with (2 ^ 2 - 1). rewrite not_low32 by lia. by rewrite (proj2 (Z.ltb_lt j 32)) by lia. }
  rewrite (probe_mask v k 2) by (done || lia). rewrite (strip_flags v 2) by (done || lia).
  pose proof (mask_size k ltac:(lia)) as Hsz. cbv zeta in Hsz. by rewrite Hsz.
Qed.

Lemma not64_15 i : 0 <= i < 32 -> Z.testbit (not64 0xF) i = (4 <=? i).
Proof. intros Hi. change 0xF with (2 ^ 4 - 1). rewrite not_low64 by lia. by rewrite (proj2 (Z.ltb_lt i 64)) by lia. Qed.

Lemma get_bar_mem32 dev i v k c a s :
  0 <= i < 6 -> 4 <= k < 32 -> is_u32 v -> v <> 0 -> Z.land v 1 = 0 -> Z.land v 6 <> 4 -> v mod 2 ^ k < 2 ^ 4 ->
  c !! bar_addr dev i = Some (mk_reg v (u32 (size_mask k)) 0) ->
  pci_get_bar dev i (at_cfg c a s) =
  Some ((0, mk_bar (16 * (v / 16)) (2 ^ k) false false (negb (Z.land v 8 =? 0))), at_cfg c (bar_addr dev i) s).
Proof.
  intros Hi Hk Hv H0 Hio Hty Hal Hc. unfold pci_get_bar, bar_addr in *. rewrite (proj2 (Z.leb_gt 6 i)), bar_offset by lia.
  rewrite (bind_Some _ _ _ _ _ (read32_run _ _ _ _ _ _ _)). cbv beta. rewrite (rd32_Some _ _ _ Hc). cbn [reg_val].
  rewrite (proj2 (Z.eqb_neq v 0)), Hio by done. change (0 =? 0) with true. cbn [negb].
  unfold PCI_BAR_MEMORY_TYPE_MASK, PCI_BAR_MEMORY_64, PCI_BAR_PREFETCHABLE.
  rewrite (proj2 (Z.eqb_neq (Z.land v 6) 4)) by done.
  rewrite (bind_Some _ _ _ _ _ (write32_run _ _ _ _ _ _ _ _)), (bind_Some _ _ _ _ _ (read32_run _ _ _ _ _ _ _)).
  cbv beta. rewrite (bind_Some _ _ _ _ _ (write32_run _ _ _ _ _ _ _ _)).
  rewrite (rd32_wcfg_eq _ _ _ _ Hc).
  pose proof (wcfg_restore _ _ _ 0xFFFFFFFF Hc (reg_ok_bar v _ Hv (u32_range _))) as Hr. cbn [reg_val] in Hr. rewrite Hr.
  rewrite (probe_mask v k 4) by (done || lia || apply not64_15). rewrite (strip_flags v 4) by (done || lia || apply not64_15).
  change (2 ^ 4) with 16. assert (0 < 2 ^ k < 2 ^ 32) by (split; [lia|apply Z.pow_lt_mono_r; lia]).
  rewrite (u32_small (2 ^ 32 - 2 ^ k)) by (unfold is_u32; lia).
  pose proof (mask_size k ltac:(lia)) as Hsz. cbv zeta in Hsz. rewrite Hsz.
  rewrite (u32_small (16 * (v / 16))); [done|]. unfold is_u32 in *.
  pose proof (Z.mul_div_le v 16). pose proof (Z.div_pos v 16). lia.
Qed.

Lemma get_bar_mem64 dev i lo hi k c a s :
  0 <= i < 5 -> 4 <= k < 64 -> is_u32 lo -> is_u32 hi -> lo <> 0 -> Z.land lo 1 = 0 -> Z.land lo 6 = 4 ->
  (hi * 2 ^ 32 + lo) mod 2 ^ k < 2 ^ 4 ->
  c !! bar_addr dev i = Some (mk_reg lo (u32 (size_mask k)) 0) ->
  c !! bar_addr dev (i + 1) = Some (mk_reg hi (Z.shiftr (size_mask k) 32) 0) ->
  pci_get_bar dev i (at_cfg c a s) =
  Some ((0, mk_bar (hi * 2 ^ 32 + 16 * (lo / 16)) (2 ^ k) false true (negb (Z.land lo 8 =? 0))),
        at_cfg c (bar_addr dev (i + 1)) s).
Proof.
  intros Hi Hk Hlo Hhi H0 Hio Hty Hal Hc Hc'. pose proof (bar_addr_ne dev i Hi) as Hne.
  unfold pci_get_bar. rewrite (proj2 (Z.leb_gt 6 i)), bar_offset by lia.
  rewrite (bind_Some _ _ _ _ _ (read32_run _ _ _ _ _ _ _)). cbv beta. fold (bar_addr dev i).
  rewrite (rd32_Some _ _ _ Hc). cbn [reg_val].
  rewrite (proj2 (Z.eqb_neq lo 0)), Hio by done. change (0 =? 0) with true. cbn [negb].
  unfold PCI_BAR_MEMORY_TYPE_MASK, PCI_BAR_MEMORY_64, PCI_BAR_PREFETCHABLE.
  rewrite Hty. change (4 =? 4) with true. cbv iota. rewrite (proj2 (Z.leb_gt 5 i)) by lia.
  replace (PCI_BAR0 + 4 * i + 4) with (PCI_BAR0 + 4 * (i + 1)) by lia.
  rewrite (bind_Some _ _ _ _ _ (read32_run _ _ _ _ _ _ _)). cbv beta. fold (bar_addr dev (i + 1)).
  rewrite (rd32_Some _ _ _ Hc'). cbn [reg_val].
  repeat (rewrite (bind_Some _ _ _ _ _ (write32_run _ _ _ _ _ _ _ _)); cbv beta).
  fold (bar_addr dev i) (bar_addr dev (i + 1)).
  repeat (rewrite (bind_Some _ _ _ _ _ (read32_run _ _ _ _ _ _ _)); cbv beta).
  repeat (rewrite (bind_Some _ _ _ _ _ (write32_run _ _ _ _ _ _ _ _)); cbv beta).
  fold (bar_addr dev i) (bar_addr dev (i + 1)).
  rewrite (rd32_wcfg_ne _ (bar_addr dev (i + 1)) (bar_addr dev i)) by (intros E; by apply Hne).
  rewrite (rd32_wcfg_eq _ _ _ _ Hc).
  rewrite (wcfg_comm c (bar_addr dev i) (bar_addr dev (i + 1))) by done.
  rewrite (rd32_wcfg_ne _ (bar_addr dev i) (bar_addr dev (i + 1))) by done. rewrite (rd32_wcfg_eq _ _ _ _ Hc').
  pose proof (shiftr_mask_u32 k ltac:(lia)) as Hmh.
  assert (wcfg c (bar_addr dev (i + 1)) 0xFFFFFFFF !! bar_addr dev i = Some (mk_reg lo (u32 (size_mask k)) 0)) as Hc1.
  { unfold wcfg. rewrite Hc', lookup_insert_ne by (intros E; by apply Hne). exact Hc. }
  pose proof (wcfg_restore _ _ _ 0xFFFFFFFF Hc1 (reg_ok_bar lo _ Hlo (u32_range _))) as Hr. cbn [reg_val] in Hr. rewrite Hr.
  pose proof (wcfg_restore _ _ _ 0xFFFFFFFF Hc' (reg_ok_bar hi _ Hhi Hmh)) as Hr'. cbn [reg_val] in Hr'. rewrite Hr'.
  rewrite probe_mask64 by done. destruct (mask_size64 k ltac:(lia)) as [-> ->].
  rewrite (strip_flags lo 4) by (done || lia || apply not64_15). change (2 ^ 4) with 16.
  rewrite pair_add; [done|]. unfold is_u32 in *. pose proof (Z.mul_div_le lo 16). pose proof (Z.div_pos lo 16). lia.
Qed.

(** ** Probing is a read

    Whatever the registers of a device hold, [pci_get_bar] returns a function of the
    configuration space and restores it, as long as its registers have no write-one-to-clear
    bits. *)
Definition bars_ok (c : gmap Z cfg_reg) (dev : pci_device) : Prop :=
  forall i r, 0 <= i < 6 -> c !! bar_addr dev i = Some r -> reg_ok r.

Lemma wcfg_undo c a x :
  (forall r, c !! a = Some r -> reg_ok r) -> wcfg (wcfg c a x) a (rd32 c a) = c.
Proof.
  intros H. destruct (c !! a) as [r|] eqn:E.
  - rewrite (rd32_Some _ _ _ E). apply wcfg_restore; [done|by apply H].
  - unfold wcfg. by rewrite E, E.
Qed.

Lemma get_bar_quiet c dev i :
  0 <= i < 6 -> bars_ok c dev ->
  exists r, forall a s, exists a', pci_get_bar dev i (at_cfg c a s) = Some (r, at_cfg c a' s).
Proof.
  intros Hi Hok. unfold pci_get_bar. rewrite (proj2 (Z.leb_gt 6 i)), bar_offset by lia.
  set (ad := pci_make_address (bus dev) (device dev) (function dev) (PCI_BAR0 + 4 * i)).
  assert (forall x, wcfg (wcfg c ad x) ad (rd32 c ad) = c) as Hundo.
  { intros x. apply wcfg_undo. intros r Hr. by apply (Hok i). }
  destruct (rd32 c ad =? 0) eqn:E0.
  { exists (1, no_bar). intros a s. eexists. rewrite (bind_Some _ _ _ _ _ (read32_run _ _ _ _ _ _ _)). cbv beta.
    fold ad. by rewrite E0. }
  destruct (negb (Z.land (rd32 c ad) 1 =? 0)) eqn:E1.
  { eexists. intros a s. eexists. rewrite (bind_Some _ _ _ _ _ (read32_run _ _ _ _ _ _ _)). cbv beta. fold ad.
    rewrite E0, E1. rewrite (bind_Some _ _ _ _ _ (write32_run _ _ _ _ _ _ _ _)), (bind_Some _ _ _ _ _ (read32_run _ _ _ _ _ _ _)).
    cbv beta. rewrite (bind_Some _ _ _ _ _ (write32_run _ _ _ _ _ _ _ _)). fold ad. by rewrite Hundo. }
  destruct (Z.land (rd32 c ad) PCI_BAR_MEMORY_TYPE_MASK =? PCI_BAR_MEMORY_64) eqn:E2.
  2: { eexists. intros a s. eexists. rewrite (bind_Some _ _ _ _ _ (read32_run _ _ _ _ _ _ _)). cbv beta. fold ad.
    rewrite E0, E1, E2. rewrite (bind_Some _ _ _ _ _ (write32_run _ _ _ _ _ _ _ _)), (bind_Some _ _ _ _ _ (read32_run _ _ _ _ _ _ _)).
    cbv beta. rewrite (bind_Some _ _ _ _ _ (write32_run _ _ _ _ _ _ _ _)). fold ad. by rewrite Hundo. }
  destruct (5 <=? i) eqn:E3.
  { eexists. intros a s. eexists. rewrite (bind_Some _ _ _ _ _ (read32_run _ _ _ _ _ _ _)). cbv beta. fold ad.
    by rewrite E0, E1, E2. }
  set (ad' := pci_make_address (bus dev) (device dev) (function dev) (PCI_BAR0 + 4 * i + 4)).
  assert (ad' = bar_addr dev (i + 1)) as Had' by (unfold ad', bar_addr; f_equal; lia).
  assert (ad <> ad') as Hne by (rewrite Had'; apply bar_addr_ne; lia).
  assert (wcfg (wcfg (wcfg (wcfg c ad 0xFFFFFFFF) ad' 0xFFFFFFFF) ad (rd32 c ad)) ad' (rd32 c ad') = c) as Hundo2.
  { rewrite (wcfg_comm _ ad' ad) by (intros E; by apply Hne). rewrite Hundo.
    apply wcfg_undo. rewrite Had'. intros r Hr. apply (Hok (i + 1)); [lia|done]. }
  set (cp := wcfg (wcfg c ad 0xFFFFFFFF) ad' 0xFFFFFFFF) in *.
  destruct ((Z.lor (Z.shiftl (rd32 cp ad') 32) (Z.land (rd32 cp ad) (not64 0xF)) =? 0) ||
            (Z.lor (Z.shiftl (rd32 cp ad') 32) (Z.land (rd32 cp ad) (not64 0xF)) =? 0xFFFFFFFFFFFFFFFF)) eqn:E4;
    eexists; intros a s; eexists; rewrite (bind_Some _ _ _ _ _ (read32_run _ _ _ _ _ _ _)); cbv beta; fold ad;
    rewrite E0, E1, E2; rewrite (bind_Some _ _ _ _ _ (read32_run _ _ _ _ _ _ _)); cbv beta;
    rewrite (bind_Some _ _ _ _ _ (write32_run _ _ _ _ _ _ _ _)), (bind_Some _ _ _ _ _ (write32_run _ _ _ _ _ _ _ _));
    fold ad ad' cp;
    rewrite (bind_Some _ _ _ _ _ (read32_run _ _ _ _ _ _ _)); cbv beta;
    rewrite (bind_Some _ _ _ _ _ (read32_run _ _ _ _ _ _ _)); cbv beta;
    rewrite (bind_Some _ _ _ _ _ (write32_run _ _ _ _ _ _ _ _)), (bind_Some _ _ _ _ _ (write32_run _ _ _ _ _ _ _ _));
    fold ad ad' cp; rewrite E4, Hundo2; reflexivity.
Qed.

(** The BAR [pci_get_bar] reports for register [i], if any. *)
Definition bar_view (c : gmap Z cfg_reg) (dev : pci_device) (i : Z) : option pci_bar :=
  match pci_get_bar dev i (mk_pci c 0 [] 0 true) with
  | Some ((code, bar), _) => if code =? 0 then Some bar else None
  | None => None
  end.

Lemma get_bar_view c dev i a s :
  0 <= i < 6 -> bars_ok c dev ->
  exists code bar a', pci_get_bar dev i (at_cfg c a s) = Some ((code, bar), at_cfg c a' s) /\
    bar_view c dev i = if code =? 0 then Some bar else None.
Proof.
  intros Hi Hok. destruct (get_bar_quiet c dev i Hi Hok) as [[code bar] Hr].
  destruct (Hr a s) as [a' Ha]. destruct (Hr 0 (mk_pci c 0 [] 0 true)) as [a2 H2].
  exists code, bar, a'. split; [done|]. unfold bar_view.
  change (mk_pci c 0 [] 0 true) with (at_cfg c 0 (mk_pci c 0 [] 0 true)) at 1. by rewrite H2.
Qed.

(** * Enumeration against a list of the functions present *)

Definition word16 (c : gmap Z cfg_reg) (b d f o : Z) : Z :=
  u16 (Z.land (Z.shiftr (rd32 c (pci_make_address b d f o)) (Z.land o 2 * 8)) 0xFFFF).
Definition word8 (c : gmap Z cfg_reg) (b d f o : Z) : Z :=
  u8 (Z.land (Z.shiftr (rd32 c (pci_make_address b d f o)) (Z.land o 3 * 8)) 0xFF).

Definition fn_exists (c : gmap Z cfg_reg) (b d f : Z) : bool := negb (word16 c b d f PCI_VENDOR_ID =? 0xFFFF).
Definition multifunction (c : gmap Z cfg_reg) (b d : Z) : bool :=
  negb (Z.land (word8 c b d 0 PCI_HEADER_TYPE) PCI_HEADER_MULTIFUNCTION =? 0).

Definition describe (c : gmap Z cfg_reg) (b d f : Z) : pci_device :=
  mk_dev b d f (word16 c b d f PCI_VENDOR_ID) (word16 c b d f PCI_DEVICE_ID)
    (word16 c b d f PCI_COMMAND) (word16 c b d f PCI_STATUS)
    (word8 c b d f PCI_REVISION_ID) (word8 c b d f PCI_PROG_IF) (word8 c b d f PCI_SUBCLASS)
    (word8 c b d f PCI_CLASS_CODE) (word8 c b d f PCI_HEADER_TYPE)
    (word8 c b d f PCI_INTERRUPT_LINE) (word8 c b d f PCI_INTERRUPT_PIN).

Definition fn_list (c : gmap Z cfg_reg) (b d f : Z) : list pci_device :=
  if fn_exists c b d f then [describe c b d f] else [].
Definition dev_list (c : gmap Z cfg_reg) (b d : Z) : list pci_device :=
  if fn_exists c b d 0 then
    fn_list c b d 0 ++ (if multifunction c b d then seqZ 1 7 ≫= fn_list c b d else [])
  else [].
Definition bus_list (c : gmap Z cfg_reg) (b : Z) : list pci_device := seqZ 0 32 ≫= dev_list c b.
Definition all_list (c : gmap Z cfg_reg) : list pci_device := seqZ 0 256 ≫= bus_list c.

(** The table holds the first 256 of the functions found so far. *)
Record table (c : gmap Z cfg_reg) (i : bool) (l : list pci_device) (s : pci) : Prop := {
  tb_cfg : cfg s = c;
  tb_intr : pci_intr s = i;
  tb_len : zlen (pci_devices s) = PCI_MAX_DEVICES;
  tb_count : pci_device_count s = Z.min PCI_MAX_DEVICES (zlen l);
  tb_list : take (Z.to_nat (pci_device_count s)) (pci_devices s) = take (Z.to_nat PCI_MAX_DEVICES) l;
}.

Section scan.
Context (c : gmap Z cfg_reg) (i0 : bool).

Lemma read16_run b d f o a s :
  pci_config_read16 b d f o (at_cfg c a s) = Some (word16 c b d f o, at_cfg c (pci_make_address b d f o) s).
Proof. done. Qed.
Lemma read8_run b d f o a s :
  pci_config_read8 b d f o (at_cfg c a s) = Some (word8 c b d f o, at_cfg c (pci_make_address b d f o) s).
Proof. done. Qed.

Lemma table_conf l s a : table c i0 l s -> table c i0 l (at_cfg c a s).
Proof. intros []. by split. Qed.

Lemma table_at l s : table c i0 l s -> s = at_cfg c (conf_addr s) s.
Proof. intros []. destruct s; simpl in *. by subst. Qed.

Lemma register_spec b d f l s :
  table c i0 l s -> wp (pci_register_device b d f) (fun _ s' => table c i0 (l ++ [describe c b d f]) s') s.
Proof.
  intros Ht. pose proof Ht as [Hc Hin Hlen Hcnt Hl]. unfold PCI_MAX_DEVICES in *.
  unfold pci_register_device. wstep. apply wp_gets. unfold PCI_MAX_DEVICES.
  assert (zlen (l ++ [describe c b d f]) = zlen l + 1) as Hl1 by (by rewrite zlen_app). pose proof (zlen_nonneg l).
  destruct (256 <=? pci_device_count s) eqn:E.
  { wstep. split; [done|done|done|unfold PCI_MAX_DEVICES; lia|].
    rewrite Hl, take_app_le; [done|]. unfold zlen, PCI_MAX_DEVICES in *. lia. }
  rewrite (table_at _ _ Ht). set (n := pci_device_count s) in *.
  repeat (wstep; eapply wp_Some; [first [apply read16_run|apply read8_run]|cbv beta]).
  wstep. apply wp_get. wstep. eapply wp_lift; [apply zset_in; simpl; lia|]. apply wp_modify.
  split; simpl; [done|done|by rewrite zlen_insert|unfold PCI_MAX_DEVICES; lia|].
  fold (describe c b d f) n. replace (Z.to_nat (n + 1)) with (S (Z.to_nat n)) by lia.
  rewrite (take_S_r _ _ (describe c b d f)).
  2: { apply list_lookup_insert_eq. unfold zlen in Hlen. lia. }
  rewrite take_insert_ge by lia. fold n in Hl. rewrite Hl. unfold PCI_MAX_DEVICES, zlen in *.
  rewrite !take_ge; [done|..]; rewrite ?length_app; simpl; lia.
Qed.

Lemma fn_exists_run b d f l s :
  table c i0 l s ->
  exists a, pci_function_exists b d f s = Some (fn_exists c b d f, at_cfg c a s).
Proof.
  intros Ht. exists (pci_make_address b d f PCI_VENDOR_ID). unfold pci_function_exists.
  pose proof (read16_run b d f PCI_VENDOR_ID (conf_addr s) s) as E. rewrite <- (table_at _ _ Ht) in E.
  by rewrite (bind_Some _ _ _ _ _ E).
Qed.

Lemma scan_function_spec b d f l s :
  table c i0 l s -> wp (pci_scan_function b d f) (fun _ s' => table c i0 (l ++ fn_list c b d f) s') s.
Proof.
  intros Ht. unfold pci_scan_function, fn_list. destruct (fn_exists_run b d f l s Ht) as [a E].
  wstep. eapply wp_Some; [exact E|]. cbv beta. destruct (fn_exists c b d f); cbn [negb].
  - apply register_spec. by apply table_conf.
  - wstep. rewrite app_nil_r. by apply table_conf.
Qed.

(** A loop that appends [g i] at each round appends their concatenation. *)
Lemma loop_appends (g : Z -> list pci_device) (body : Z -> M pci unit) lo n l s :
  (forall i l s, lo <= i < lo + n -> table c i0 l s -> wp (body i) (fun _ s' => table c i0 (l ++ g i) s') s) ->
  0 <= n -> table c i0 l s ->
  wp (for_range (R := unit) lo (lo + n) (fun i => body i;; mret None))
     (fun _ s' => table c i0 (l ++ (seqZ lo n ≫= g)) s') s.
Proof.
  intros Hbody Hn Ht.
  apply (wp_for_range (fun i s' => table c i0 (l ++ (seqZ lo (i - lo) ≫= g)) s')).
  - rewrite Z.sub_diag. simpl. by rewrite app_nil_r.
  - lia.
  - intros i s' Hi Hs'. wstep. eapply wp_mono; [by apply Hbody|]. intros ? s2 H2. wstep.
    replace (i + 1 - lo) with ((i - lo) + 1) by lia. rewrite seqZ_app by lia.
    rewrite bind_app. replace (lo + (i - lo)) with i by lia.
    change (seqZ i 1) with [Z.of_nat 0 + i]. cbn [mbind list_bind]. rewrite app_nil_r.
    change (Z.of_nat 0 + i) with i. by rewrite app_assoc.
  - intros s' Hs'. by replace (lo + n - lo) with n in Hs' by lia.
Qed.

Lemma scan_device_spec b d l s :
  table c i0 l s -> wp (pci_scan_device b d) (fun _ s' => table c i0 (l ++ dev_list c b d) s') s.
Proof.
  intros Ht. unfold pci_scan_device, dev_list. destruct (fn_exists_run b d 0 l s Ht) as [a E].
  wstep. eapply wp_Some; [exact E|]. cbv beta. destruct (fn_exists c b d 0); cbn [negb].
  2: { wstep. rewrite app_nil_r. by apply table_conf. }
  wstep. eapply wp_Some; [apply read8_run|]. cbv beta. wstep.
  eapply wp_mono; [apply scan_function_spec; by apply table_conf|]. intros ? s1 H1.
  unfold multifunction. destruct (negb _).
  - wstep. eapply wp_mono; [apply (loop_appends (fn_list c b d) (pci_scan_function b d) 1 7); [|lia|exact H1]|].
    + intros. by apply scan_function_spec.
    + intros ? s2 H2. wstep. by rewrite app_assoc.
  - wstep. by rewrite app_nil_r.
Qed.

Lemma scan_bus_spec b l s :
  table c i0 l s -> wp (pci_scan_bus b) (fun _ s' => table c i0 (l ++ bus_list c b) s') s.
Proof.
  intros Ht. unfold pci_scan_bus. wstep.
  eapply wp_mono; [apply (loop_appends (dev_list c b) (pci_scan_device b) 0 32); [|lia|exact Ht]|].
  - intros. by apply scan_device_spec.
  - intros ? s2 H2. by wstep.
Qed.
End scan.

Lemma pci_scan_outcome s :
  zlen (pci_devices s) = PCI_MAX_DEVICES ->
  wp pci_scan (fun _ s' => table (cfg s) (pci_intr s) (all_list (cfg s)) s') s.
Proof.
  intros Hl. unfold pci_scan. wstep. apply wp_modify. wstep.
  eapply wp_mono; [apply (loop_appends (cfg s) (pci_intr s) (bus_list (cfg s)) (fun b => pci_scan_bus (u8 b)) 0 256 [])|].
  - intros i l s' Hi Ht. rewrite u8_small by (unfold is_u8; lia). by apply scan_bus_spec.
  - lia.
  - split; simpl; done.
  - intros ? s' H'. by wstep.
Qed.

(** What the enumeration lists. *)
Lemma elem_of_fn_list c b d f x : x ∈ fn_list c b d f <-> fn_exists c b d f = true /\ x = describe c b d f.
Proof. unfold fn_list. destruct (fn_exists c b d f); rewrite ?list_elem_of_singleton, ?elem_of_nil; naive_solver. Qed.

Lemma elem_of_dev_list c b d x : x ∈ dev_list c b d <->
  exists f, 0 <= f < 8 /\ fn_exists c b d 0 = true /\ fn_exists c b d f = true /\
            (f = 0 \/ multifunction c b d = true) /\ x = describe c b d f.
Proof.
  unfold dev_list. destruct (fn_exists c b d 0) eqn:E0; [|rewrite elem_of_nil; naive_solver].
  rewrite elem_of_app, elem_of_fn_list. split.
  - intros [[_ ->]|Hx]; [exists 0; naive_solver lia|]. destruct (multifunction c b d); [|by apply elem_of_nil in Hx].
    apply list_elem_of_bind in Hx as (f & Hx & Hf%elem_of_seqZ). apply elem_of_fn_list in Hx as [Hx ->].
    exists f. naive_solver lia.
  - intros (f & Hf & _ & He & [->|Hm] & ->); [by left|]. destruct (decide (f = 0)) as [->|]; [by left|].
    right. rewrite Hm. apply list_elem_of_bind. exists f. rewrite elem_of_fn_list, elem_of_seqZ. split; [done|lia].
Qed.

Lemma elem_of_all_list c x : x ∈ all_list c <->
  exists b d f, 0 <= b < 256 /\ 0 <= d < 32 /\ 0 <= f < 8 /\ fn_exists c b d 0 = true /\
    fn_exists c b d f = true /\ (f = 0 \/ multifunction c b d = true) /\ x = describe c b d f.
Proof.
  unfold all_list, bus_list. rewrite list_elem_of_bind. setoid_rewrite list_elem_of_bind.
  setoid_rewrite elem_of_dev_list. setoid_rewrite elem_of_seqZ. split.
  - intros (b & (d & (f & H) & Hd) & Hb). exists b, d, f. naive_solver lia.
  - intros (b & d & f & Hb & Hd & H). exists b. split; [|lia]. exists d. split; [|lia]. exists f. naive_solver.
Qed.

(** * The command register *)

Lemma set_command_run dev v r s :
  cfg s !! pci_make_address (bus dev) (device dev) (function dev) PCI_COMMAND = Some r -> is_u16 v ->
  exists a, pci_set_command dev v s =
    Some (tt, at_cfg (<[pci_make_address (bus dev) (device dev) (function dev) PCI_COMMAND :=
                       reg_write r (Z.lor (Z.land (reg_val r) (not32 0xFFFF)) v)]> (cfg s)) a s).
Proof.
  intros Hr Hv. set (ad := pci_make_address _ _ _ _) in *. exists ad.
  rewrite (at_cfg_id s) at 1. unfold pci_set_command, pci_config_write16.
  rewrite (bind_Some _ _ _ _ _ (read32_run _ _ _ _ _ _ _)). cbv beta. fold ad.
  change (Z.land PCI_COMMAND 2 * 8) with 0. change (u32 (Z.shiftl 0xFFFF 0)) with 0xFFFF.
  rewrite Z.shiftl_0_r, (u32_small v) by (unfold is_u32, is_u16 in *; lia).
  rewrite write32_run. fold ad. unfold wcfg. by rewrite Hr, (rd32_Some _ _ _ Hr).
Qed.

Lemma u16_high v i : is_u16 v -> 16 <= i -> Z.testbit v i = false.
Proof.
  intros Hv Hi. rewrite <- (u16_small v Hv). unfold u16. rewrite testbit_u by lia.
  by rewrite (proj2 (Z.ltb_ge i 16)).
Qed.

Lemma u16_lor x y : is_u16 x -> is_u16 y -> is_u16 (Z.lor x y).
Proof.
  intros Hx Hy. assert (u16 (Z.lor x y) = Z.lor x y) as <-; [|apply u16_range].
  apply bits_ext. intros i Hi. unfold u16. rewrite testbit_u, Z.lor_spec by lia.
  destruct (Z.ltb_spec i 16); [done|]. by rewrite !(u16_high _ i).
Qed.

Lemma testbit_ones16 i : 0 <= i -> Z.testbit 0xFFFF i = (i <? 16).
Proof. intros. change 0xFFFF with (Z.ones 16). rewrite Z.testbit_ones_nonneg by lia. done. Qed.

(** The dword after the read-modify-write, bit by bit. *)
Lemma set_command_bits r v i :
  is_u32 (reg_val r) -> is_u16 v -> (forall j, 0 <= j < 16 -> Z.testbit (reg_w1c r) j = false) ->
  0 <= i < 32 ->
  Z.testbit (reg_val (reg_write r (Z.lor (Z.land (reg_val r) (not32 0xFFFF)) v))) i =
  if i <? 16 then (if Z.testbit (reg_wmask r) i then Z.testbit v i else Z.testbit (reg_val r) i)
  else Z.testbit (reg_val r) i && negb (Z.testbit (reg_w1c r) i).
Proof.
  intros Hr Hv Hw Hi. unfold reg_write. cbn [reg_val]. fold (not32 (reg_wmask r)).
  set (w := Z.lor _ v). fold (not32 (Z.land w (reg_w1c r))).
  rewrite Z.land_spec, Z.lor_spec, !Z.land_spec, !testbit_not32, Z.land_spec by lia.
  assert (Z.testbit w i = if i <? 16 then Z.testbit v i else Z.testbit (reg_val r) i) as ->.
  { unfold w. rewrite Z.lor_spec, Z.land_spec, testbit_not32, testbit_ones16 by lia.
    rewrite (proj2 (Z.ltb_lt i 32)) by lia. destruct (Z.ltb_spec i 16); cbn [negb andb].
    - by rewrite andb_false_r.
    - by rewrite andb_true_r, (u16_high v), orb_false_r. }
  rewrite (proj2 (Z.ltb_lt i 32)) by lia. destruct (Z.ltb_spec i 16).
  - rewrite Hw by lia. destruct (Z.testbit (reg_wmask r) i), (Z.testbit v i), (Z.testbit (reg_val r) i); done.
  - destruct (Z.testbit (reg_wmask r) i), (Z.testbit (reg_val r) i), (Z.testbit (reg_w1c r) i); done.
Qed.

(** * Properties *)

(** C15: BAR probing is exact and leaves no trace: for an I/O BAR, a 32-bit or a 64-bit memory BAR
    decoding [2^k] bytes, [pci_get_bar] returns its base, size and flags, and every register of
    the configuration space, which the probe overwrites with ones, has its value back. *)
Theorem pci_get_bar_correct (dev : pci_device) (i : Z) (bar : pci_bar) (s : pci)
    (Hi : 0 <= i < 6) (Hdec : decodes (cfg s) dev i bar) :
  exists a, pci_get_bar dev i s = Some ((0, bar), set_conf a s).
Proof.
  destruct Hdec as [v k Hk Hv Hio Hal Hc|v k Hk Hv H0 Hio Hty Hal Hc|lo hi k Hk Hlo Hhi H0 Hio Hty Hi5 Hal Hc Hc'].
  - exists (bar_addr dev i). rewrite (at_cfg_id s) at 1. by rewrite (get_bar_io dev i v k).
  - exists (bar_addr dev i). rewrite (at_cfg_id s) at 1. by rewrite (get_bar_mem32 dev i v k).
  - exists (bar_addr dev (i + 1)). rewrite (at_cfg_id s) at 1. by rewrite (get_bar_mem64 dev i lo hi k) by (done || lia).
Qed.

(** A sound card at 00:05.0: a 64-bit memory BAR of 1 MiB at 0x1_2340_0000, and an I/O BAR. *)
Definition demo_dev : pci_device := mk_dev 0 5 0 0x8086 0x2415 0 0 0 0 1 4 0 11 1.
Definition demo_cfg : gmap Z cfg_reg :=
  list_to_map
    [ (bar_addr demo_dev 0, mk_reg 0x2340000C (u32 (size_mask 20)) 0);
      (bar_addr demo_dev 1, mk_reg 0x1 (Z.shiftr (size_mask 20) 32) 0);
      (bar_addr demo_dev 2, mk_reg 0xC001 (u32 (size_mask 8)) 0);
      (pci_make_address 0 5 0 0, mk_reg 0x24158086 0 0);
      (pci_make_address 0 5 0 4, mk_reg 0x80000002 0x407 0xF9000000);
      (pci_make_address 0 5 0 8, mk_reg 0x04010000 0 0) ].
Definition demo_pci : pci := mk_pci demo_cfg 0 (replicate 256 demo_dev) 0 true.

Lemma pci_get_bar_witness :
  exists a, pci_get_bar demo_dev 0 demo_pci =
    Some ((0, mk_bar (1 * 2 ^ 32 + 16 * (0x2340000C / 16)) (2 ^ 20) false true (negb (Z.land 0x2340000C 8 =? 0))), set_conf a demo_pci).
Proof.
  apply (pci_get_bar_correct demo_dev 0 _ demo_pci); [lia|].
  apply (dec_mem64 _ _ _ 0x2340000C 1 20); try (unfold is_u32; lia); try discriminate; try reflexivity.
Defined.

(** Enumeration is complete and exact: [pci_scan] fills the table with the functions present
    in bus, device, function order, up to its 256 entries.  A function is listed iff its device
    has a function 0, it answers with a vendor id, and it is function 0 or the device is
    multifunction.  Configuration space and the interrupt flag are left alone. *)
Theorem pci_scan_correct (s : pci) (Hlen : zlen (pci_devices s) = PCI_MAX_DEVICES) :
  exists s', pci_scan s = Some (tt, s') /\ cfg s' = cfg s /\ pci_intr s' = pci_intr s /\
    pci_device_count s' = Z.min PCI_MAX_DEVICES (zlen (all_list (cfg s))) /\
    take (Z.to_nat (pci_device_count s')) (pci_devices s') = take (Z.to_nat PCI_MAX_DEVICES) (all_list (cfg s)) /\
    (forall x, x ∈ all_list (cfg s) <->
       exists b d f, 0 <= b < 256 /\ 0 <= d < 32 /\ 0 <= f < 8 /\ fn_exists (cfg s) b d 0 = true /\
         fn_exists (cfg s) b d f = true /\ (f = 0 \/ multifunction (cfg s) b d = true) /\ x = describe (cfg s) b d f).
Proof.
  destruct (wp_inv _ _ _ (pci_scan_outcome s Hlen)) as ([] & s' & E & [Hc Hi _ Hn Hl]).
  exists s'. split; [done|]. split; [done|]. split; [done|]. split; [done|]. split; [done|].
  apply elem_of_all_list.
Qed.

Lemma pci_scan_witness :
  exists s', pci_scan demo_pci = Some (tt, s') /\ cfg s' = demo_cfg /\ describe demo_cfg 0 5 0 ∈ all_list demo_cfg.
Proof.
  destruct (pci_scan_correct demo_pci) as (s' & E & Hc & _ & _ & _ & Hx).
  - reflexivity.
  - exists s'. split; [exact E|]. split; [exact Hc|]. apply Hx. exists 0, 5, 0.
    repeat split; try lia; vm_compute; reflexivity.
Defined.

(** Enabling bus mastering sets exactly bit 2 of the command register, where it is writable,
    and keeps the other command bits.  The read-modify-write of the whole dword also writes the
    status half back: every write-one-to-clear status bit that was set is cleared. *)
Theorem pci_enable_bus_master_effect (dev : pci_device) (r : cfg_reg) (s : pci)
    (Hr : cfg s !! pci_make_address (bus dev) (device dev) (function dev) PCI_COMMAND = Some r)
    (Hv : is_u32 (reg_val r)) (Hw : forall j, 0 <= j < 16 -> Z.testbit (reg_w1c r) j = false) :
  exists a r', pci_enable_bus_master dev s =
    Some (tt, at_cfg (<[pci_make_address (bus dev) (device dev) (function dev) PCI_COMMAND := r']> (cfg s)) a s) /\
    (forall i, 0 <= i < 16 -> Z.testbit (reg_val r') i =
       Z.testbit (reg_val r) i || ((i =? 2) && Z.testbit (reg_wmask r) i)) /\
    (forall i, 16 <= i < 32 -> Z.testbit (reg_val r') i =
       Z.testbit (reg_val r) i && negb (Z.testbit (reg_w1c r) i)).
Proof.
  set (cmd := word16 (cfg s) (bus dev) (device dev) (function dev) PCI_COMMAND).
  assert (forall i, 0 <= i < 16 -> Z.testbit cmd i = Z.testbit (reg_val r) i) as Hcmd.
  { intros i Hi. unfold cmd, word16. change (Z.land PCI_COMMAND 2 * 8) with 0. rewrite Z.shiftr_0_r.
    unfold u16. rewrite testbit_u, Z.land_spec, testbit_ones16, (rd32_Some _ _ _ Hr) by lia.
    rewrite (proj2 (Z.ltb_lt i 16)) by lia. cbn [andb]. by rewrite andb_true_r. }
  assert (is_u16 (Z.lor cmd PCI_COMMAND_BUS_MASTER)) as Hu.
  { apply u16_lor; [apply u16_range|done]. }
  pose proof (read16_run (cfg s) (bus dev) (device dev) (function dev) PCI_COMMAND (conf_addr s) s) as Eg.
  rewrite <- at_cfg_id in Eg. fold cmd in Eg.
  unfold pci_enable_bus_master, pci_get_command. rewrite (bind_Some _ _ _ _ _ Eg).
  destruct (set_command_run dev (Z.lor cmd PCI_COMMAND_BUS_MASTER) r
    (at_cfg (cfg s) (pci_make_address (bus dev) (device dev) (function dev) PCI_COMMAND) s) Hr Hu) as [a Ea].
  exists a. eexists. split; [exact Ea|]. split; intros i Hi; rewrite set_command_bits by (done || lia).
  - rewrite (proj2 (Z.ltb_lt i 16)) by lia. rewrite Z.lor_spec, Hcmd by lia.
    change PCI_COMMAND_BUS_MASTER with (2 ^ 2). rewrite Z.pow2_bits_eqb, (Z.eqb_sym 2 i) by lia.
    destruct (Z.testbit (reg_wmask r) i); [by rewrite andb_true_r|by rewrite andb_false_r, orb_false_r].
  - by rewrite (proj2 (Z.ltb_ge i 16)) by lia.
Qed.

Lemma pci_enable_bus_master_witness :
  exists a r', pci_enable_bus_master demo_dev demo_pci =
    Some (tt, at_cfg (<[pci_make_address 0 5 0 4 := r']> demo_cfg) a demo_pci) /\
    Z.testbit (reg_val r') 2 = true /\ Z.testbit (reg_val r') 31 = false.
Proof.
  destruct (pci_enable_bus_master_effect demo_dev (mk_reg 0x80000002 0x407 0xF9000000) demo_pci) as (a & r' & E & H1 & H2).
  - vm_compute. reflexivity.
  - unfold is_u32. cbn. lia.
  - intros j Hj. cbn [reg_w1c]. change 0xF9000000 with (Z.shiftl 0xF9 24). rewrite Z.shiftl_spec by lia.
    apply Z.testbit_neg_r. lia.
  - exists a, r'. split; [exact E|]. rewrite H1, H2 by lia. split; reflexivity.
Defined.
