(* ===== verification/Driver.v ===== *)
(** Model of kernel/system/driver/driver.c: which process owns which PCI device, which physical
    addresses and I/O ports that lets it touch, and delivery of hardware interrupts to the
    owning process.  PCI is the model of [Pci]; processes are named by pid and carry their
    scheduling state. *)

From S2P Require Import Prelude Memory Interfaces Pci.

Definition MAX_DRIVER_CLAIMS : Z := 8.
Definition MAX_USER_IRQ : Z := 16.

Record driver_claim := mk_claim {
  claim_in_use : bool;
  claim_owner : Z;
  claim_dev : pci_device;
}.

Record user_irq := mk_irq {
  registered : bool;
  irq_owner : Z;
  pending : Z;            (* uint32_t *)
  irq_waiter : option Z;  (* process_t * *)
}.

Record driver := mk_driver {
  g_claims : list driver_claim;   (* 8 *)
  g_user_irq : list user_irq;     (* 16 *)
  hw : pci;
  pstates : gmap Z process_state; (* state of each process *)
  current : Z;                    (* current_process *)
  unmasked : gset Z;              (* lines [irq_enable] has unmasked *)
  drv_intr : bool;                (* EFLAGS.IF *)
}.

Definition set_claims (l : list driver_claim) (s : driver) : driver :=
  mk_driver l (g_user_irq s) (hw s) (pstates s) (current s) (unmasked s) (drv_intr s).
Definition set_irqs (l : list user_irq) (s : driver) : driver :=
  mk_driver (g_claims s) l (hw s) (pstates s) (current s) (unmasked s) (drv_intr s).
Definition set_hw (p : pci) (s : driver) : driver :=
  mk_driver (g_claims s) (g_user_irq s) p (pstates s) (current s) (unmasked s) (drv_intr s).
Definition set_pstate (p : Z) (st : process_state) (s : driver) : driver :=
  mk_driver (g_claims s) (g_user_irq s) (hw s) (<[p := st]> (pstates s)) (current s) (unmasked s) (drv_intr s).
Definition set_unmasked (u : gset Z) (s : driver) : driver :=
  mk_driver (g_claims s) (g_user_irq s) (hw s) (pstates s) (current s) u (drv_intr s).
Definition set_dintr (b : bool) (s : driver) : driver :=
  mk_driver (g_claims s) (g_user_irq s) (hw s) (pstates s) (current s) (unmasked s) b.

Definition on_hw {A} (m : M pci A) : M driver A := fun s =>
  '(a, p) ← m (hw s); Some (a, set_hw p s).

Definition get_claim (i : Z) : M driver driver_claim := fun s =>
  match zget (g_claims s) i with Some c => Some (c, s) | None => None end.
Definition put_claim (i : Z) (c : driver_claim) : M driver unit := fun s =>
  l ← zset (g_claims s) i c; Some (tt, set_claims l s).
Definition get_irq (i : Z) : M driver user_irq := fun s =>
  match zget (g_user_irq s) i with Some c => Some (c, s) | None => None end.
Definition put_irq (i : Z) (c : user_irq) : M driver unit := fun s =>
  l ← zset (g_user_irq s) i c; Some (tt, set_irqs l s).

Definition driver_lock : M driver bool := fun s => Some (drv_intr s, set_dintr false s).
Definition driver_unlock (flags : bool) : M driver unit := modify (set_dintr flags).

Definition driver_init : M driver unit :=
  for_range (R := unit) 0 MAX_DRIVER_CLAIMS (fun i =>
    c ← get_claim i; put_claim i (mk_claim false (claim_owner c) (claim_dev c));; mret None);;
  for_range (R := unit) 0 MAX_USER_IRQ (fun i =>
    c ← get_irq i; put_irq i (mk_irq false (irq_owner c) 0 None);; mret None);;
  mret tt.

Definition same_bdf (d : pci_device) (b dv f : Z) : bool := (bus d =? b) && (device d =? dv) && (function d =? f).

Definition find_claim_slot (b dv f : Z) : M driver Z :=
  r ← for_range 0 MAX_DRIVER_CLAIMS (fun i =>
        c ← get_claim i;
        mret (if claim_in_use c && same_bdf (claim_dev c) b dv f then Some i else None));
  mret (default (-1) r).

Definition driver_owns_device (pid b dv f : Z) : M driver bool :=
  slot ← find_claim_slot b dv f;
  if 0 <=? slot then c ← get_claim slot; mret (claim_owner c =? pid) else mret false.

Definition driver_is_registered (pid : Z) : M driver bool :=
  r ← for_range 0 MAX_DRIVER_CLAIMS (fun i =>
        c ← get_claim i;
        mret (if claim_in_use c && (claim_owner c =? pid) then Some tt else None));
  mret (match r with Some _ => true | None => false end).

(** The loop shared by [driver_claim_device] and [driver_claim_device_by_class]: [matches] is
    their comparison of ids or of class codes.  The result code and the device copied out. *)
Definition claim_first (pid : Z) (matches : pci_device -> bool) : M driver (Z * option pci_device) :=
  count ← on_hw pci_get_device_count;
  r ← for_range 0 count (fun i =>
        dev ← on_hw (pci_get_device i);
        match dev with
        | None => mret None
        | Some dev =>
            if negb (matches dev) then mret None else
            taken ← find_claim_slot (bus dev) (device dev) (function dev);
            if 0 <=? taken then mret None else
            slot ← for_range 0 MAX_DRIVER_CLAIMS (fun s =>
                     c ← get_claim s;
                     mret (if negb (claim_in_use c) then Some s else None));
            match slot with
            | None => mret (Some (-2, None))
            | Some slot =>
                put_claim slot (mk_claim true pid dev);;
                mret (Some (0, Some dev))
            end
        end);
  mret (default (-1, None) r).

Definition driver_claim_device (pid vid did : Z) : M driver (Z * option pci_device) :=
  claim_first pid (fun d => (vendor_id d =? vid) && (device_id d =? did)).

Definition driver_claim_device_by_class (pid cc sc : Z) : M driver (Z * option pci_device) :=
  claim_first pid (fun d => (class_code d =? cc) && (subclass d =? sc)).

(** The search of [driver_mmio_allowed] and [driver_io_port_allowed] over the BARs of the
    devices a process owns. *)
Definition any_bar (pid : Z) (accept : pci_bar -> bool) : M driver bool :=
  r ← for_range 0 MAX_DRIVER_CLAIMS (fun i =>
        c ← get_claim i;
        if negb (claim_in_use c) || negb (claim_owner c =? pid) then mret None else
        for_range 0 6 (fun b =>
          '(code, bar) ← on_hw (pci_get_bar (claim_dev c) b);
          mret (if negb (code =? 0) then None
                else if accept bar then Some tt else None)));
  mret (match r with Some _ => true | None => false end).

Definition driver_mmio_allowed (pid phys length : Z) : M driver bool :=
  if length =? 0 then mret false else
  any_bar pid (fun bar =>
    negb (is_io bar || (bar_size bar =? 0)) &&
    ((bar_address bar <=? phys) && (u64 (phys + length) <=? u64 (bar_address bar + bar_size bar)))).

Definition driver_io_port_allowed (pid port width : Z) : M driver bool :=
  if width =? 0 then mret false else
  any_bar pid (fun bar =>
    negb (negb (is_io bar) || (bar_size bar =? 0)) &&
    ((bar_address bar <=? port) && (u32 (port + width) <=? u64 (bar_address bar + bar_size bar)))).

Definition driver_release_device (pid b dv f : Z) : M driver Z :=
  slot ← find_claim_slot b dv f;
  if slot <? 0 then mret (-1) else
  c ← get_claim slot;
  if negb (claim_owner c =? pid) then mret (-1) else
  put_claim slot (mk_claim false (claim_owner c) (claim_dev c));;
  mret 0.

Definition driver_release_process (pid : Z) : M driver unit :=
  for_range (R := unit) 0 MAX_DRIVER_CLAIMS (fun i =>
    c ← get_claim i;
    (if claim_in_use c && (claim_owner c =? pid)
     then put_claim i (mk_claim false (claim_owner c) (claim_dev c)) else mret tt);;
    mret None);;
  flags ← driver_lock;
  for_range (R := unit) 0 MAX_USER_IRQ (fun i =>
    u ← get_irq i;
    (if registered u && (irq_owner u =? pid)
     then put_irq i (mk_irq false (irq_owner u) 0 None) else mret tt);;
    mret None);;
  driver_unlock flags.

(** * Interrupt lines *)

Definition driver_irq_register (pid irq : Z) : M driver Z :=
  if MAX_USER_IRQ <=? irq then mret (-1) else
  flags ← driver_lock;
  u ← get_irq irq;
  if registered u && negb (irq_owner u =? pid) then driver_unlock flags;; mret (-2) else
  put_irq irq (mk_irq true pid 0 None);;
  driver_unlock flags;;
  modify (fun s => set_unmasked ({[irq]} ∪ unmasked s) s);;
  mret 0.

(** [driver_irq_notify] up to [driver_unlock]: the waiter still to be woken. *)
Definition notify_commit (irq : Z) : M driver (option Z) :=
  if MAX_USER_IRQ <=? irq then mret None else
  flags ← driver_lock;
  u ← get_irq irq;
  if negb (registered u) then driver_unlock flags;; mret None else
  put_irq irq (mk_irq true (irq_owner u) (u32 (pending u + 1)) None);;
  driver_unlock flags;;
  mret (irq_waiter u).

Definition notify_wake (w : option Z) : M driver unit :=
  match w with None => mret tt | Some p => modify (set_pstate p PROCESS_READY) end.

Definition driver_irq_notify (irq : Z) : M driver unit :=
  w ← notify_commit irq; notify_wake w.

(** One round of the [for (;;)] of [driver_irq_wait]: a return value, or blocked. *)
Definition irq_wait_round (pid irq : Z) : M driver (option Z) :=
  if MAX_USER_IRQ <=? irq then mret (Some (-1)) else
  flags ← driver_lock;
  u ← get_irq irq;
  if negb (registered u) || negb (irq_owner u =? pid) then driver_unlock flags;; mret (Some (-1))
  else if 0 <? pending u then
    put_irq irq (mk_irq (registered u) (irq_owner u) (u32 (pending u - 1)) (irq_waiter u));;
    driver_unlock flags;;
    mret (Some 0)
  else
    c ← gets current;
    put_irq irq (mk_irq (registered u) (irq_owner u) (pending u) (Some c));;
    modify (set_pstate c PROCESS_BLOCKED);;
    mret None.

(** * Claims *)

(** Slot [i] is a live claim. *)
Definition claim_at (s : driver) (i : Z) (c : driver_claim) : Prop :=
  zget (g_claims s) i = Some c /\ claim_in_use c = true.

(** Every device is claimed at most once. *)
Record claims_wf (s : driver) : Prop := {
  cw_len : zlen (g_claims s) = MAX_DRIVER_CLAIMS;
  cw_once : forall i j c c', claim_at s i c -> claim_at s j c' ->
    same_bdf (claim_dev c) (bus (claim_dev c')) (device (claim_dev c')) (function (claim_dev c')) = true -> i = j;
}.

(** [dev] is claimed by someone. *)
Definition claimed (s : driver) (b dv f : Z) : Prop :=
  exists i c, claim_at s i c /\ same_bdf (claim_dev c) b dv f = true.

Lemma same_bdf_refl d : same_bdf d (bus d) (device d) (function d) = true.
Proof. unfold same_bdf. by rewrite !Z.eqb_refl. Qed.

Lemma same_bdf_sym d d' :
  same_bdf d (bus d') (device d') (function d') = same_bdf d' (bus d) (device d) (function d).
Proof. unfold same_bdf. by rewrite (Z.eqb_sym (bus d)), (Z.eqb_sym (device d)), (Z.eqb_sym (function d)). Qed.

Lemma wp_get_claim Q s i c : zget (g_claims s) i = Some c -> Q c s -> wp (get_claim i) Q s.
Proof. intros H HQ. unfold wp, get_claim. by rewrite H. Qed.

Lemma wp_put_claim Q s i c :
  0 <= i < zlen (g_claims s) -> Q tt (set_claims (<[Z.to_nat i := c]> (g_claims s)) s) -> wp (put_claim i c) Q s.
Proof. intros H HQ. unfold wp, put_claim. by rewrite zset_in. Qed.

Lemma claim_at_set s i c j c' :
  0 <= i < zlen (g_claims s) ->
  claim_at (set_claims (<[Z.to_nat i := c]> (g_claims s)) s) j c' <->
  (j = i /\ c' = c /\ claim_in_use c = true) \/ (j <> i /\ claim_at s j c').
Proof.
  intros Hi. unfold claim_at. simpl. destruct (decide (j = i)) as [->|Hne].
  - rewrite zget_insert_eq by done. naive_solver.
  - rewrite zget_insert_ne by lia. naive_solver.
Qed.

(** Searches of the claim table leave the state alone and find the first slot that passes. *)
Lemma claim_search_spec {R} (s : driver) (p : driver_claim -> bool) (g : Z -> R) :
  zlen (g_claims s) = MAX_DRIVER_CLAIMS ->
  wp (for_range 0 MAX_DRIVER_CLAIMS (fun i => c ← get_claim i; mret (if p c then Some (g i) else None)))
     (fun o s' => s' = s /\
        match o with
        | Some v => exists i c, v = g i /\ 0 <= i < MAX_DRIVER_CLAIMS /\ zget (g_claims s) i = Some c /\ p c = true
        | None => forall i c, zget (g_claims s) i = Some c -> p c = false
        end) s.
Proof.
  intros Hl. apply (wp_for_range (fun i s' => s' = s /\ forall j c, j < i -> zget (g_claims s) j = Some c -> p c = false)).
  - split; [done|]. intros j c Hj Hz%zget_range. lia.
  - done.
  - intros i s' Hi [-> Hpre]. destruct (zget_Some (g_claims s) i) as [c Hc]; [by rewrite Hl|].
    wstep. eapply wp_get_claim; [done|]. wstep. destruct (p c) eqn:Hp.
    + split; [done|]. by exists i, c.
    + split; [done|]. intros j c' Hj Hz. destruct (decide (j = i)) as [->|]; [congruence|]. eapply Hpre; [|done]. lia.
  - intros s' [-> H]. split; [done|]. intros i c Hz. eapply H; [|done]. apply zget_range in Hz. lia.
Qed.

Lemma find_claim_slot_spec s b dv f :
  zlen (g_claims s) = MAX_DRIVER_CLAIMS ->
  wp (find_claim_slot b dv f) (fun r s' => s' = s /\
    ((r = -1 /\ ~ claimed s b dv f) \/
     (0 <= r < MAX_DRIVER_CLAIMS /\ exists c, claim_at s r c /\ same_bdf (claim_dev c) b dv f = true))) s.
Proof.
  intros Hl. unfold find_claim_slot. wstep.
  eapply wp_mono; [by apply (claim_search_spec s (fun c => claim_in_use c && same_bdf (claim_dev c) b dv f) (fun i => i))|].
  intros [v|] s' [-> H]; wstep; (split; [done|]).
  - destruct H as (i & c & -> & Hi & Hz & Hp). right. split; [done|]. apply andb_true_iff in Hp as [? ?]. by exists c.
  - left. split; [done|]. intros (i & c & [Hz Hu] & Hs). specialize (H i c Hz). by rewrite Hu, Hs in H.
Qed.

Lemma set_hw_id s : set_hw (hw s) s = s.
Proof. by destruct s. Qed.

Lemma wp_on_hw {A} (m : M pci A) Q s a p : m (hw s) = Some (a, p) -> Q a (set_hw p s) -> wp (on_hw m) Q s.
Proof. intros H HQ. unfold wp, on_hw. by rewrite H. Qed.

(** The device table of the PCI layer, as [pci_scan] leaves it. *)
Definition listed (s : driver) (dev : pci_device) : Prop :=
  exists k, 0 <= k < pci_device_count (hw s) /\ zget (pci_devices (hw s)) k = Some dev.

Lemma claims_wf_add s i pid dev :
  claims_wf s -> 0 <= i < MAX_DRIVER_CLAIMS -> (forall c, ~ claim_at s i c) ->
  ~ claimed s (bus dev) (device dev) (function dev) ->
  claims_wf (set_claims (<[Z.to_nat i := mk_claim true pid dev]> (g_claims s)) s).
Proof.
  intros [Hl Honce] Hi Hfree Hno. split; [simpl; by rewrite zlen_insert|].
  intros j k c c' Hj Hk Hs. apply claim_at_set in Hj; [|by rewrite Hl]. apply claim_at_set in Hk; [|by rewrite Hl].
  destruct Hj as [(-> & -> & _)|[Hji Hj]], Hk as [(-> & -> & _)|[Hki Hk]]; [done|..].
  - destruct Hno. exists k, c'. split; [done|]. by rewrite same_bdf_sym in Hs.
  - destruct Hno. by exists j, c.
  - by eapply Honce.
Qed.

(** Outcome of the claim loop. *)
Record claim_ok (s : driver) (pid : Z) (matches : pci_device -> bool) (dev : pci_device) (s' : driver) : Prop := {
  co_match : matches dev = true;
  co_listed : listed s dev;
  co_free : ~ claimed s (bus dev) (device dev) (function dev);
  co_slot : exists i, claim_at s' i (mk_claim true pid dev) /\ (forall c, ~ claim_at s i c) /\
    forall j c, j <> i -> (claim_at s' j c <-> claim_at s j c);
}.

Lemma claim_first_spec s pid matches :
  claims_wf s -> pci_device_count (hw s) <= zlen (pci_devices (hw s)) ->
  wp (claim_first pid matches) (fun r s' => claims_wf s' /\ hw s' = hw s /\
    match r with
    | (code, Some dev) => code = 0 /\ claim_ok s pid matches dev s'
    | (code, None) => s' = s /\
        ((code = -1 /\ forall dev, listed s dev -> matches dev = true -> claimed s (bus dev) (device dev) (function dev)) \/
         (code = -2 /\ forall i, 0 <= i < MAX_DRIVER_CLAIMS -> exists c, claim_at s i c))
    end) s.
Proof.
  intros Hwf Hcnt. pose proof (cw_len _ Hwf) as Hl. unfold claim_first. wstep.
  eapply wp_on_hw; [done|]. rewrite set_hw_id. wstep.
  destruct (decide (pci_device_count (hw s) <= 0)) as [Hz|Hnz].
  { eapply wp_Some; [apply for_range_empty; lia|]. cbv beta. wstep. cbn [default]. split; [done|]. split; [done|].
    split; [done|]. left. split; [done|]. intros dev (k & Hk & _). lia. }
  apply (wp_for_range (fun k s' => s' = s /\ forall j dev, 0 <= j < k -> zget (pci_devices (hw s)) j = Some dev ->
    matches dev = true -> claimed s (bus dev) (device dev) (function dev))).
  - split; [done|]. lia.
  - lia.
  - intros k s' Hk [-> Hpre]. destruct (zget_Some (pci_devices (hw s)) k) as [dev Hdev]; [lia|].
    assert (forall P : bool, (P = true -> claimed s (bus dev) (device dev) (function dev)) -> matches dev = P ->
      forall j d, 0 <= j < k + 1 -> zget (pci_devices (hw s)) j = Some d -> matches d = true ->
        claimed s (bus d) (device d) (function d)) as Hnext.
    { intros P HP HmP j d Hj Hz Hm. destruct (decide (j = k)) as [->|]; [|eapply (Hpre j); [lia|done|done]].
      rewrite Hdev in Hz. injection Hz as <-. apply HP. congruence. }
    wstep. eapply wp_on_hw.
    { unfold pci_get_device. erewrite bind_Some by done. rewrite (proj2 (Z.leb_gt _ _)) by lia.
      unfold lift. by rewrite Hdev. }
    rewrite set_hw_id. destruct (matches dev) eqn:Hm; cbn [negb].
    2: { wstep. split; [done|]. by apply (Hnext false). }
    wstep. eapply wp_mono; [by apply find_claim_slot_spec|]. intros taken s' [-> [[-> Hno]|(Ht & c & Hc & Hs)]].
    2: { rewrite (proj2 (Z.leb_le 0 taken)) by lia. wstep. split; [done|]. apply (Hnext true); [|done]. intros _. by exists taken, c. }
    change (0 <=? -1) with false. cbv iota. wstep.
    eapply wp_mono; [by apply (claim_search_spec s (fun c => negb (claim_in_use c)) (fun i => i))|].
    intros [slot|] s' [-> Hslot].
    + destruct Hslot as (i & c & -> & Hi & Hz & Hu). apply negb_true_iff in Hu.
      assert (forall c, ~ claim_at s i c) as Hfree by (intros c' [? ?]; congruence).
      wstep. apply wp_put_claim; [by rewrite Hl|]. wstep. wstep. cbn [default].
      split; [by apply claims_wf_add|]. split; [done|]. split; [done|]. split; [done|by exists k|done|].
      exists i. split; [apply claim_at_set; [by rewrite Hl|by left]|]. split; [done|].
      intros j c' Hne. rewrite claim_at_set by (by rewrite Hl). naive_solver.
    + wstep. wstep. cbn [default]. split; [done|]. split; [done|]. split; [done|]. right. split; [done|]. intros i Hi.
      destruct (zget_Some (g_claims s) i) as [c Hc]; [by rewrite Hl|]. exists c. split; [done|].
      specialize (Hslot i c Hc). by apply negb_false_iff in Hslot.
  - intros s' [-> H]. wstep. cbn [default]. split; [done|]. split; [done|]. split; [done|]. left. split; [done|].
    intros dev (k & Hk & Hz) Hm. by eapply H.
Qed.

(** ** Releasing *)

Lemma claims_wf_drop s s' :
  claims_wf s -> zlen (g_claims s') = MAX_DRIVER_CLAIMS ->
  (forall j c, claim_at s' j c -> claim_at s j c) -> claims_wf s'.
Proof. intros [Hl H] Hl' Hsub. split; [done|]. intros i j c c' Hi%Hsub Hj%Hsub. by eapply H. Qed.

Lemma driver_release_device_spec s pid b dv f :
  claims_wf s ->
  wp (driver_release_device pid b dv f) (fun r s' => claims_wf s' /\ hw s' = hw s /\
    ((r = 0 /\ exists i c, claim_at s i c /\ claim_owner c = pid /\ same_bdf (claim_dev c) b dv f = true /\
        forall j c', claim_at s' j c' <-> j <> i /\ claim_at s j c') \/
     (r = -1 /\ s' = s /\ forall i c, claim_at s i c -> same_bdf (claim_dev c) b dv f = true -> claim_owner c <> pid))) s.
Proof.
  intros Hwf. pose proof (cw_len _ Hwf) as Hl. unfold driver_release_device. wstep.
  eapply wp_mono; [by apply find_claim_slot_spec|]. intros slot s' [-> [[-> Hno]|(Hr & c & [Hz Hu] & Hs)]].
  { change (-1 <? 0) with true. cbv iota. wstep. split; [done|]. split; [done|]. right. split; [done|]. split; [done|].
    intros i c Hc Hs. destruct Hno. by exists i, c. }
  rewrite (proj2 (Z.ltb_ge slot 0)) by lia. wstep. eapply wp_get_claim; [done|].
  destruct (Z.eqb_spec (claim_owner c) pid) as [Ho|Ho]; cbn [negb].
  - wstep. apply wp_put_claim; [by rewrite Hl|]. wstep.
    assert (forall j c', claim_at (set_claims (<[Z.to_nat slot := mk_claim false (claim_owner c) (claim_dev c)]> (g_claims s)) s) j c' <->
      j <> slot /\ claim_at s j c') as Hat.
    { intros j c'. rewrite claim_at_set by (by rewrite Hl). simpl. naive_solver. }
    split; [|split; [done|]].
    + apply (claims_wf_drop s); [done|simpl; by rewrite zlen_insert|]. intros j c' [_ ?]%Hat. done.
    + left. split; [done|]. by exists slot, c.
  - wstep. split; [done|]. split; [done|]. right. split; [done|]. split; [done|]. intros i c' [Hi Hui] Hs'.
    assert (i = slot) as ->.
    { apply (cw_once _ Hwf i slot c' c); [done|done|]. unfold same_bdf in *.
      rewrite !andb_true_iff, !Z.eqb_eq in *. destruct Hs as [[-> ->] ->]. done. }
    congruence.
Qed.

(** The two loops of [driver_release_process]. *)
Lemma release_claims_spec s pid :
  zlen (g_claims s) = MAX_DRIVER_CLAIMS ->
  wp (for_range (R := unit) 0 MAX_DRIVER_CLAIMS (fun i =>
        c ← get_claim i;
        (if claim_in_use c && (claim_owner c =? pid)
         then put_claim i (mk_claim false (claim_owner c) (claim_dev c)) else mret tt);;
        mret None))
     (fun _ s' => exists l, s' = set_claims l s /\ zlen l = MAX_DRIVER_CLAIMS /\
        forall j c, claim_at s' j c <-> claim_at s j c /\ claim_owner c <> pid) s.
Proof.
  intros Hl. apply (wp_for_range (fun i s' => exists l, s' = set_claims l s /\ zlen l = MAX_DRIVER_CLAIMS /\
    forall j c, claim_at s' j c <-> claim_at s j c /\ (j < i -> claim_owner c <> pid))).
  - exists (g_claims s). split; [by destruct s|]. split; [done|]. intros j c. split; [|by intros [? _]].
    intros Hc. split; [done|]. destruct Hc as [Hz%zget_range _]. lia.
  - done.
  - intros i s' Hi (l & -> & Hl' & Hat). destruct (zget_Some l i) as [c Hc]; [by rewrite Hl'|].
    wstep. eapply wp_get_claim; [exact Hc|].
    destruct (claim_in_use c && (claim_owner c =? pid)) eqn:E; wstep.
    + apply wp_put_claim; [simpl; by rewrite Hl'|]. wstep.
      exists (<[Z.to_nat i := mk_claim false (claim_owner c) (claim_dev c)]> l).
      split; [done|]. split; [by rewrite zlen_insert|]. intros j c'.
      apply andb_true_iff in E as [Eu Eo]. assert (claim_at (set_claims l s) i c) as Hci by done.
      etransitivity; [exact (claim_at_set (set_claims l s) i _ j c' ltac:(simpl; by rewrite Hl'))|].
      cbn [claim_in_use]. transitivity (j <> i /\ claim_at (set_claims l s) j c'); [naive_solver|].
      rewrite Hat. apply Hat in Hci as [Hci _]. split.
      * intros (Hne & Hj & Ho). split; [done|]. intros Hlt. apply Ho. lia.
      * intros [Hj Ho]. destruct (decide (j = i)) as [->|Hne].
        -- exfalso. assert (c' = c) as -> by (destruct Hj, Hci; congruence). apply Ho; [lia|]. by apply Z.eqb_eq.
        -- split; [done|]. split; [done|]. intros Hlt. apply Ho. lia.
    + wstep. exists l. split; [done|]. split; [done|]. intros j c'. rewrite Hat. split.
      * intros [Hj Ho]. split; [done|]. intros Hlt. destruct (decide (j = i)) as [->|]; [|apply Ho; lia].
        assert (c' = c) as ->.
        { pose proof (proj2 (Hat i c') ltac:(split; [done|lia])) as [Hz' _]. simpl in Hz'. congruence. }
        destruct Hj as [_ Hu]. rewrite Hu in E. by apply Z.eqb_neq.
      * intros [Hj Ho]. split; [done|]. intros Hlt. apply Ho. lia.
  - intros s' (l & -> & Hl' & Hat). exists l. split; [done|]. split; [done|]. intros j c. rewrite Hat. split.
    + intros [Hj Ho]. split; [done|]. apply Ho. destruct Hj as [Hz%zget_range _]. lia.
    + intros [Hj Ho]. done.
Qed.

Lemma wp_get_irq Q s i u : zget (g_user_irq s) i = Some u -> Q u s -> wp (get_irq i) Q s.
Proof. intros H HQ. unfold wp, get_irq. by rewrite H. Qed.

Lemma wp_put_irq Q s i u :
  0 <= i < zlen (g_user_irq s) -> Q tt (set_irqs (<[Z.to_nat i := u]> (g_user_irq s)) s) -> wp (put_irq i u) Q s.
Proof. intros H HQ. unfold wp, put_irq. by rewrite zset_in. Qed.

(** Whoever [pid] was registered for, no line is his afterwards. *)
Definition irq_cleared (pid : Z) (u : user_irq) : user_irq :=
  if registered u && (irq_owner u =? pid) then mk_irq false (irq_owner u) 0 None else u.

Lemma release_irqs_spec s pid :
  zlen (g_user_irq s) = MAX_USER_IRQ ->
  wp (for_range (R := unit) 0 MAX_USER_IRQ (fun i =>
        u ← get_irq i;
        (if registered u && (irq_owner u =? pid)
         then put_irq i (mk_irq false (irq_owner u) 0 None) else mret tt);;
        mret None))
     (fun _ s' => exists l, s' = set_irqs l s /\ zlen l = MAX_USER_IRQ /\
        forall j u, zget (g_user_irq s) j = Some u -> zget l j = Some (irq_cleared pid u)) s.
Proof.
  intros Hl. apply (wp_for_range (fun i s' => exists l, s' = set_irqs l s /\ zlen l = MAX_USER_IRQ /\
    forall j u, zget (g_user_irq s) j = Some u -> zget l j = Some (if j <? i then irq_cleared pid u else u))).
  - exists (g_user_irq s). split; [by destruct s|]. split; [done|]. intros j u Hz. pose proof (zget_range _ _ _ Hz).
    by rewrite (proj2 (Z.ltb_ge j 0)) by lia.
  - done.
  - intros i s' Hi (l & -> & Hl' & Hat). destruct (zget_Some (g_user_irq s) i) as [u Hu]; [by rewrite Hl|].
    pose proof (Hat i u Hu) as Hi'. rewrite Z.ltb_irrefl in Hi'.
    wstep. eapply wp_get_irq; [exact Hi'|].
    assert (forall l2, zget l2 i = Some (irq_cleared pid u) -> (forall j, j <> i -> zget l2 j = zget l j) ->
      forall j w, zget (g_user_irq s) j = Some w -> zget l2 j = Some (if j <? i + 1 then irq_cleared pid w else w)) as Hnext.
    { intros l2 H2 Hoth j w Hw. destruct (decide (j = i)) as [->|Hne].
      - rewrite (proj2 (Z.ltb_lt i (i + 1))) by lia. rewrite H2. congruence.
      - rewrite Hoth by done. rewrite (Hat j w Hw). f_equal.
        destruct (Z.ltb_spec j i), (Z.ltb_spec j (i + 1)); (done || lia). }
    unfold irq_cleared in Hnext at 1. destruct (registered u && (irq_owner u =? pid)) eqn:E; wstep.
    + apply wp_put_irq; [simpl; by rewrite Hl'|]. wstep. eexists. split; [reflexivity|].
      split; [simpl; by rewrite zlen_insert|]. simpl. apply Hnext.
      * by rewrite zget_insert_eq by (by rewrite Hl').
      * intros j Hne. by rewrite zget_insert_ne by lia.
    + wstep. exists l. split; [done|]. split; [done|]. by apply Hnext.
  - intros s' (l & -> & Hl' & Hat). exists l. split; [done|]. split; [done|]. intros j u Hu.
    rewrite (Hat j u Hu). pose proof (zget_range _ _ _ Hu). by rewrite (proj2 (Z.ltb_lt j _)) by lia.
Qed.

Lemma driver_release_process_spec s pid :
  claims_wf s -> zlen (g_user_irq s) = MAX_USER_IRQ ->
  wp (driver_release_process pid) (fun _ s' => claims_wf s' /\ hw s' = hw s /\ drv_intr s' = drv_intr s /\
    (forall j c, claim_at s' j c <-> claim_at s j c /\ claim_owner c <> pid) /\
    (forall j u, zget (g_user_irq s) j = Some u -> zget (g_user_irq s') j = Some (irq_cleared pid u))) s.
Proof.
  intros Hwf Hil. unfold driver_release_process. wstep.
  eapply wp_mono; [apply release_claims_spec; apply Hwf|]. intros ? s1 (l & -> & Hl & Hat).
  wstep. eapply wp_Some; [reflexivity|]. cbv beta. wstep.
  eapply wp_mono; [by apply release_irqs_spec|]. intros ? s2 (li & -> & Hli & Hirq).
  apply wp_modify. split; [|split; [done|split; [done|split]]].
  - apply (claims_wf_drop s); [done|done|]. intros j c Hc. by apply (proj1 (proj1 (Hat j c) Hc)).
  - exact Hat.
  - exact Hirq.
Qed.

(** * Access checks *)

(** [s] with another value in the CONFIG_ADDRESS latch. *)
Definition dconf (a : Z) (s : driver) : driver := set_hw (at_cfg (cfg (hw s)) a (hw s)) s.

Lemma dconf_id s : s = dconf (conf_addr (hw s)) s.
Proof. unfold dconf. rewrite <- at_cfg_id. by rewrite set_hw_id. Qed.

(** Some device of [pid] has a BAR that passes the test. *)
Definition has_bar (s : driver) (pid : Z) (accept : pci_bar -> bool) : Prop :=
  exists i c b bar, claim_at s i c /\ claim_owner c = pid /\ 0 <= b < 6 /\
    bar_view (cfg (hw s)) (claim_dev c) b = Some bar /\ accept bar = true.

Lemma bar_loop_spec s dev (accept : pci_bar -> bool) a :
  bars_ok (cfg (hw s)) dev ->
  wp (for_range (R := unit) 0 6 (fun b =>
        '(code, bar) ← on_hw (pci_get_bar dev b);
        mret (if negb (code =? 0) then None else if accept bar then Some tt else None)))
     (fun o s' => exists a', s' = dconf a' s /\
        match o with
        | Some _ => exists b bar, 0 <= b < 6 /\ bar_view (cfg (hw s)) dev b = Some bar /\ accept bar = true
        | None => forall b bar, 0 <= b < 6 -> bar_view (cfg (hw s)) dev b = Some bar -> accept bar = false
        end) (dconf a s).
Proof.
  intros Hok. apply (wp_for_range (fun k s' => exists a', s' = dconf a' s /\
    forall b bar, 0 <= b < k -> bar_view (cfg (hw s)) dev b = Some bar -> accept bar = false)).
  - exists a. split; [done|]. lia.
  - lia.
  - intros k s' Hk (a' & -> & Hpre).
    destruct (get_bar_view (cfg (hw s)) dev k a' (hw s) Hk Hok) as (code & bar & a2 & E & Hv).
    wstep. eapply wp_on_hw; [exact E|]. cbv beta iota. wstep.
    destruct (code =? 0) eqn:Ec; cbn [negb]; [destruct (accept bar) eqn:Ea|].
    + exists a2. split; [done|]. by exists k, bar.
    + exists a2. split; [done|]. intros b bar' Hb Hbar. destruct (decide (b = k)) as [->|]; [congruence|].
      apply (Hpre b); [lia|done].
    + exists a2. split; [done|]. intros b bar' Hb Hbar. destruct (decide (b = k)) as [->|]; [congruence|].
      apply (Hpre b); [lia|done].
  - intros s' H. exact H.
Qed.

Lemma any_bar_spec s pid accept :
  zlen (g_claims s) = MAX_DRIVER_CLAIMS ->
  (forall i c, claim_at s i c -> bars_ok (cfg (hw s)) (claim_dev c)) ->
  wp (any_bar pid accept) (fun r s' => (exists a, s' = dconf a s) /\ (r = true <-> has_bar s pid accept)) s.
Proof.
  intros Hl Hok. unfold any_bar. wstep.
  apply (wp_for_range (fun i s' => exists a, s' = dconf a s /\ forall j c b bar, j < i -> claim_at s j c ->
    claim_owner c = pid -> 0 <= b < 6 -> bar_view (cfg (hw s)) (claim_dev c) b = Some bar -> accept bar = false)).
  - exists (conf_addr (hw s)). split; [apply dconf_id|]. intros j c b bar Hj [Hz%zget_range _]. lia.
  - done.
  - intros i s' Hi (a & -> & Hpre). destruct (zget_Some (g_claims s) i) as [c Hc]; [by rewrite Hl|].
    wstep. eapply wp_get_claim; [exact Hc|].
    destruct (negb (claim_in_use c) || negb (claim_owner c =? pid)) eqn:E.
    { wstep. exists a. split; [done|]. intros j c' b bar Hj Hcl Ho Hb Hv.
      destruct (decide (j = i)) as [->|]; [|eapply (Hpre j); [lia|done..]].
      destruct Hcl as [Hz Hu]. rewrite Hc in Hz. injection Hz as <-. rewrite Hu, Ho, Z.eqb_refl in E. done. }
    apply orb_false_iff in E as [Eu%negb_false_iff Eo%negb_false_iff].
    eapply wp_mono; [apply bar_loop_spec; by apply (Hok i)|].
    intros [v|] s' (a' & -> & H).
    + destruct H as (b & bar & Hb & Hv & Ha). wstep. split; [by exists a'|]. split; [|done]. intros _.
      exists i, c, b, bar. split; [done|]. split; [lia|]. done.
    + exists a'. split; [done|]. intros j c' b bar Hj Hcl Ho Hb Hv.
      destruct (decide (j = i)) as [->|]; [|eapply (Hpre j); [lia|done..]].
      destruct Hcl as [Hz Hu]. rewrite Hc in Hz. injection Hz as <-. by eapply H.
  - intros s' (a & -> & H). wstep. split; [by exists a|]. split; [done|].
    intros (i & c & b & bar & Hcl & Ho & Hb & Hv & Ha).
    rewrite (H i c b bar) in Ha; [done| |done..]. destruct Hcl as [Hz%zget_range _]. lia.
Qed.

(** * Interrupt delivery *)

(** [wk] are the processes taken off a line and not yet made ready. *)
Record isys := mk_isys { drv : driver; wk : list Z }.

Definition as_current (p : Z) (s : driver) : driver :=
  mk_driver (g_claims s) (g_user_irq s) (hw s) (pstates s) p (unmasked s) (drv_intr s).

Inductive isys_step (irq : Z) (s : isys) : isys -> Prop :=
| istep_notify w d' :
    notify_commit irq (drv s) = Some (w, d') ->
    isys_step irq s (mk_isys d' (match w with Some p => p :: wk s | None => wk s end))
| istep_wake l1 l2 p d' :
    wk s = l1 ++ p :: l2 -> notify_wake (Some p) (drv s) = Some (tt, d') ->
    isys_step irq s (mk_isys d' (l1 ++ l2))
| istep_wait p r d' :
    pstates (drv s) !! p = Some PROCESS_RUNNING ->
    irq_wait_round p irq (as_current p (drv s)) = Some (r, d') ->
    isys_step irq s (mk_isys d' (wk s))
| istep_register p r d' :
    pstates (drv s) !! p = Some PROCESS_RUNNING ->
    driver_irq_register p irq (as_current p (drv s)) = Some (r, d') ->
    isys_step irq s (mk_isys d' (wk s)).

(** The owner of the line, when blocked on it, will be woken by the next interrupt or is being
    woken now. *)
Definition irq_inv (irq : Z) (s : isys) : Prop :=
  zlen (g_user_irq (drv s)) = MAX_USER_IRQ /\
  exists u, zget (g_user_irq (drv s)) irq = Some u /\ 0 <= pending u /\
    (registered u = true -> pstates (drv s) !! irq_owner u = Some PROCESS_BLOCKED ->
       (pending u = 0 /\ irq_waiter u = Some (irq_owner u)) \/ irq_owner u ∈ wk s).

(** The invariant after the entry of the line was rewritten. *)
Lemma irq_inv_put irq s u u' d w :
  zlen (g_user_irq (drv s)) = MAX_USER_IRQ -> 0 <= irq < MAX_USER_IRQ ->
  zget (g_user_irq (drv s)) irq = Some u ->
  g_user_irq d = <[Z.to_nat irq := u']> (g_user_irq (drv s)) -> 0 <= pending u' ->
  (registered u' = true -> pstates d !! irq_owner u' = Some PROCESS_BLOCKED ->
     (pending u' = 0 /\ irq_waiter u' = Some (irq_owner u')) \/ irq_owner u' ∈ w) ->
  irq_inv irq (mk_isys d w).
Proof.
  intros Hl Hirq Hu Hg Hp H. split; simpl; rewrite Hg; [by rewrite zlen_insert|].
  exists u'. split; [apply zget_insert_eq; by rewrite Hl|]. done.
Qed.

Lemma put_irq_run i u s :
  0 <= i < zlen (g_user_irq s) -> put_irq i u s = Some (tt, set_irqs (<[Z.to_nat i := u]> (g_user_irq s)) s).
Proof. intros H. unfold put_irq. by rewrite zset_in. Qed.

Lemma get_irq_run i u s : zget (g_user_irq s) i = Some u -> get_irq i s = Some (u, s).
Proof. intros H. unfold get_irq. by rewrite H. Qed.

Lemma irq_step_inv irq s s' : 0 <= irq < MAX_USER_IRQ -> irq_inv irq s -> isys_step irq s s' -> irq_inv irq s'.
Proof.
  intros Hirq (Hl & u & Hu & Hp & Hb) [w d' E|l1 l2 p d' Hw E|p r d' Hrun E|p r d' Hrun E].
  - unfold notify_commit in E. rewrite (proj2 (Z.leb_gt _ _)) in E by lia.
    erewrite bind_Some in E by reflexivity. erewrite bind_Some in E by (apply get_irq_run; exact Hu).
    destruct (registered u) eqn:Hreg; cbn [negb] in E.
    + erewrite bind_Some in E by (apply put_irq_run; simpl; by rewrite Hl). injection E as <- <-.
      eapply irq_inv_put; [done|done|exact Hu|reflexivity|apply u32_range|]. simpl.
      intros _ Hbl. destruct (Hb eq_refl Hbl) as [[_ ->]|Hin]; right; [by left|]. case_match; [by right|done].
    + injection E as <- <-. split; [done|]. exists u. split; [done|]. split; [done|]. by rewrite Hreg.
  - injection E as <-. split; [done|]. exists u. split; [done|]. split; [done|]. simpl. intros Hreg.
    destruct (decide (irq_owner u = p)) as [->|Hne]; [by rewrite lookup_insert_eq|].
    rewrite lookup_insert_ne by done. intros Hbl. destruct (Hb Hreg Hbl) as [?|Hin]; [by left|right].
    rewrite Hw in Hin. set_solver.
  - unfold irq_wait_round in E. rewrite (proj2 (Z.leb_gt _ _)) in E by lia.
    erewrite bind_Some in E by reflexivity. erewrite bind_Some in E by (apply get_irq_run; exact Hu).
    destruct (negb (registered u) || negb (irq_owner u =? p)) eqn:Ec.
    { injection E as <- <-. split; [done|]. by exists u. }
    apply orb_false_iff in Ec as [Ereg%negb_false_iff Eo%negb_false_iff]. apply Z.eqb_eq in Eo. subst p.
    destruct (0 <? pending u) eqn:Ep.
    + erewrite bind_Some in E by (apply put_irq_run; simpl; by rewrite Hl). injection E as <- <-.
      eapply irq_inv_put; [done|done|exact Hu|reflexivity|apply u32_range|]. simpl. intros _ Hbl. congruence.
    + erewrite bind_Some in E by reflexivity.
      erewrite bind_Some in E by (apply put_irq_run; simpl; by rewrite Hl). injection E as <- <-.
      eapply irq_inv_put; [done|done|exact Hu|reflexivity|done|]. simpl. intros _ _. left. split; [lia|done].
  - unfold driver_irq_register in E. rewrite (proj2 (Z.leb_gt _ _)) in E by lia.
    erewrite bind_Some in E by reflexivity. erewrite bind_Some in E by (apply get_irq_run; exact Hu).
    destruct (registered u && negb (irq_owner u =? p)) eqn:Ec.
    { injection E as <- <-. split; [done|]. by exists u. }
    erewrite bind_Some in E by (apply put_irq_run; simpl; by rewrite Hl). injection E as <- <-.
    eapply irq_inv_put; [done|done|exact Hu|reflexivity|done|]. simpl. intros _ Hbl. congruence.
Qed.

Inductive isys_reach (irq : Z) (s : isys) : isys -> Prop :=
| ireach_refl : isys_reach irq s s
| ireach_step s1 s2 : isys_reach irq s s1 -> isys_step irq s1 s2 -> isys_reach irq s s2.

(** Any sequence of claims and releases by any processes. *)
Inductive claim_step (s : driver) : driver -> Prop :=
| cstep_claim pid vid did r s' : driver_claim_device pid vid did s = Some (r, s') -> claim_step s s'
| cstep_class pid cc sc r s' : driver_claim_device_by_class pid cc sc s = Some (r, s') -> claim_step s s'
| cstep_release pid b dv f r s' : driver_release_device pid b dv f s = Some (r, s') -> claim_step s s'.

Inductive claim_reach (s : driver) : driver -> Prop :=
| creach_refl : claim_reach s s
| creach_step s1 s2 : claim_reach s s1 -> claim_step s1 s2 -> claim_reach s s2.

Definition drv_ok (s : driver) : Prop :=
  claims_wf s /\ pci_device_count (hw s) <= zlen (pci_devices (hw s)).

Lemma claim_step_ok s s' : drv_ok s -> claim_step s s' -> drv_ok s'.
Proof.
  intros [Hwf Hc] [pid vid did r s1 E|pid cc sc r s1 E|pid b dv f r s1 E].
  - destruct (wp_run _ _ _ _ _ (claim_first_spec s pid _ Hwf Hc) E) as (H1 & H2 & _). split; [done|by rewrite H2].
  - destruct (wp_run _ _ _ _ _ (claim_first_spec s pid _ Hwf Hc) E) as (H1 & H2 & _). split; [done|by rewrite H2].
  - destruct (wp_run _ _ _ _ _ (driver_release_device_spec s pid b dv f Hwf) E) as (H1 & H2 & _). split; [done|by rewrite H2].
Qed.

(** * A machine with one sound card *)

Definition no_claim : driver_claim := mk_claim false 0 demo_dev.
Definition no_irq : user_irq := mk_irq false 0 0 None.
Definition demo_hw : pci := mk_pci demo_cfg 0 (replicate 256 demo_dev) 1 true.
Definition demo_drv : driver :=
  mk_driver (replicate 8 no_claim) (replicate 16 no_irq) demo_hw {[ 42 := PROCESS_RUNNING ]} 42 ∅ true.
(** ... claimed by process 42. *)
Definition claimed_drv : driver :=
  mk_driver (mk_claim true 42 demo_dev :: replicate 7 no_claim) (replicate 16 no_irq) demo_hw {[ 42 := PROCESS_RUNNING ]} 42 ∅ true.

Lemma replicate_no_claim n i c : zget (replicate n no_claim) i = Some c -> claim_in_use c = false.
Proof. unfold zget. destruct (0 <=? i); [|done]. by intros [-> _]%lookup_replicate. Qed.

Lemma demo_drv_ok : drv_ok demo_drv.
Proof.
  split; [|done]. split; [done|]. intros i j c c' [Hz Hu].
  apply (replicate_no_claim 8) in Hz. congruence.
Qed.

Lemma claimed_drv_claims i c : claim_at claimed_drv i c -> i = 0 /\ c = mk_claim true 42 demo_dev.
Proof.
  intros [Hz Hu]. simpl in Hz. destruct (decide (i = 0)) as [->|Hne].
  - injection Hz as <-. done.
  - pose proof (zget_range _ _ _ Hz).
    assert (zget (g_claims claimed_drv) i = zget (replicate 7 no_claim) (i - 1)) as E.
    { apply (zget_app_r [mk_claim true 42 demo_dev]). unfold zlen. simpl. lia. }
    change (zget (g_claims claimed_drv) i = Some c) in Hz. rewrite E in Hz.
    apply replicate_no_claim in Hz. congruence.
Qed.

Lemma demo_bars_ok : bars_ok demo_cfg demo_dev.
Proof.
  intros i r Hi H. assert (i = 0 \/ i = 1 \/ i = 2 \/ i = 3 \/ i = 4 \/ i = 5) as Hc by lia.
  destruct Hc as [->|[->|[->|[->|[->| ->]]]]]; vm_compute in H; try discriminate H; injection H as <-;
    split; try reflexivity; unfold is_u32; simpl; lia.
Qed.

(** * Properties *)

(** Devices are owned exclusively: in every state reached by any sequence of claims (by ids or
    by class) and releases, no device is claimed twice, so that [driver_owns_device] holds for at
    most one process; a successful claim takes a matching device nobody had, and a failed one says
    that every matching device is taken (-1) or the table is full (-2) and changes nothing. *)
Theorem driver_claims_exclusive (s s' : driver) (pid vid did : Z)
    (Hok : drv_ok s) (Hreach : claim_reach s s') :
  (forall i j c c', claim_at s' i c -> claim_at s' j c' ->
     same_bdf (claim_dev c) (bus (claim_dev c')) (device (claim_dev c')) (function (claim_dev c')) = true ->
     claim_owner c = claim_owner c') /\
  exists code o s2, driver_claim_device pid vid did s' = Some ((code, o), s2) /\ drv_ok s2 /\
    match o with
    | Some dev => code = 0 /\ claim_ok s' pid (fun d => (vendor_id d =? vid) && (device_id d =? did)) dev s2
    | None => s2 = s' /\ (code = -1 \/ (code = -2 /\ forall i, 0 <= i < MAX_DRIVER_CLAIMS -> exists c, claim_at s' i c))
    end.
Proof.
  assert (drv_ok s') as [Hwf Hc] by (clear -Hok Hreach; induction Hreach; [done|by eapply claim_step_ok]).
  split.
  - intros i j c c' Hi Hj Hs. assert (i = j) as -> by (by eapply (cw_once _ Hwf)).
    destruct Hi, Hj. congruence.
  - destruct (wp_inv _ _ _ (claim_first_spec s' pid (fun d => (vendor_id d =? vid) && (device_id d =? did)) Hwf Hc))
      as ([code o] & s2 & E & Hwf2 & Hhw & Ho). exists code, o, s2. split; [exact E|].
    split; [split; [done|by rewrite Hhw]|]. destruct o; [done|]. destruct Ho as [? [[? _]|?]]; naive_solver.
Qed.

Lemma driver_claims_witness :
  exists dev s2, driver_claim_device 42 0x8086 0x2415 demo_drv = Some ((0, Some dev), s2) /\
    claim_ok demo_drv 42 (fun d => (vendor_id d =? 0x8086) && (device_id d =? 0x2415)) dev s2.
Proof.
  destruct (driver_claims_exclusive demo_drv demo_drv 42 0x8086 0x2415 demo_drv_ok (creach_refl _))
    as [_ (code & o & s2 & E & _ & H)].
  assert (option_map fst (driver_claim_device 42 0x8086 0x2415 demo_drv) = Some (0, Some demo_dev)) as E'
    by (vm_compute; reflexivity).
  rewrite E in E'. injection E' as -> ->. exists demo_dev, s2. split; [exact E|]. exact (proj2 H).
Defined.

(** A process may map [phys, phys + length) exactly when one memory BAR that [pci_get_bar]
    reports for a device it has claimed contains the range, provided the range does not wrap
    around 2^64; the check leaves every configuration register as it was. *)
Theorem driver_mmio_allowed_correct (s : driver) (pid phys length : Z)
    (Hl : zlen (g_claims s) = MAX_DRIVER_CLAIMS)
    (Hbars : forall i c, claim_at s i c -> bars_ok (cfg (hw s)) (claim_dev c))
    (Hlen : 0 < length) (Hphys : 0 <= phys) (Hnowrap : phys + length < 2 ^ 64) :
  exists r a, driver_mmio_allowed pid phys length s = Some (r, dconf a s) /\
    (r = true <-> exists i c b bar, claim_at s i c /\ claim_owner c = pid /\ 0 <= b < 6 /\
       bar_view (cfg (hw s)) (claim_dev c) b = Some bar /\ is_io bar = false /\ bar_size bar <> 0 /\
       bar_address bar <= phys /\ phys + length <= u64 (bar_address bar + bar_size bar)).
Proof.
  unfold driver_mmio_allowed. rewrite (proj2 (Z.eqb_neq length 0)) by lia.
  destruct (wp_inv _ _ _ (any_bar_spec s pid (fun bar =>
    negb (is_io bar || (bar_size bar =? 0)) &&
    ((bar_address bar <=? phys) && (u64 (phys + length) <=? u64 (bar_address bar + bar_size bar)))) Hl Hbars))
    as (r & s' & E & [a ->] & Hr).
  exists r, a. split; [exact E|]. rewrite Hr. unfold has_bar. rewrite (u64_small (phys + length)) by (unfold is_u64; lia).
  split; intros (i & c & b & bar & H1 & H2 & H3 & H4 & H5); exists i, c, b, bar; (split; [done|]); (split; [done|]);
    (split; [done|]); (split; [done|]).
  - apply andb_true_iff in H5 as [H5 [H6 H7]%andb_true_iff]. apply negb_true_iff, orb_false_iff in H5 as [-> H5].
    split; [done|]. lia.
  - destruct H5 as (-> & H5 & H6 & H7). rewrite (proj2 (Z.eqb_neq _ 0)) by done.
    by rewrite (proj2 (Z.leb_le _ _)), (proj2 (Z.leb_le _ _)) by lia.
Qed.

Lemma driver_mmio_witness :
  exists a, driver_mmio_allowed 42 0x123400000 0x1000 claimed_drv = Some (true, dconf a claimed_drv).
Proof.
  destruct (driver_mmio_allowed_correct claimed_drv 42 0x123400000 0x1000) as (r & a & E & Hr).
  - reflexivity.
  - intros i c Hc. destruct (claimed_drv_claims i c Hc) as [_ ->]. exact demo_bars_ok.
  - lia.
  - lia.
  - lia.
  - exists a. assert (r = true) as ->; [|exact E]. apply Hr.
    exists 0, (mk_claim true 42 demo_dev), 0, (mk_bar 0x123400000 0x100000 false true true).
    split; [split; reflexivity|]. split; [reflexivity|]. split; [lia|]. split; [vm_compute; reflexivity|].
    split; [reflexivity|]. split; [discriminate|]. vm_compute. split; discriminate.
Defined.

(** No interrupt wake-up is lost: whatever the interleaving of interrupts, wake-ups,
    registrations and waits on a line, its owner, when blocked in [driver_irq_wait], has no
    interrupt pending and is the registered waiter, or is about to be made ready. *)
Theorem driver_irq_no_lost_wakeup (irq : Z) (s s' : isys)
    (Hirq : 0 <= irq < MAX_USER_IRQ) (Hinv : irq_inv irq s) (Hreach : isys_reach irq s s') :
  exists u, zget (g_user_irq (drv s')) irq = Some u /\
    (registered u = true -> pstates (drv s') !! irq_owner u = Some PROCESS_BLOCKED ->
       (pending u = 0 /\ irq_waiter u = Some (irq_owner u)) \/ irq_owner u ∈ wk s').
Proof.
  assert (irq_inv irq s') as (_ & u & Hu & _ & Hb)
    by (clear -Hirq Hinv Hreach; induction Hreach; [done|by eapply irq_step_inv]).
  by exists u.
Qed.

Lemma driver_irq_witness :
  exists s' u, isys_reach 11 (mk_isys demo_drv []) s' /\ zget (g_user_irq (drv s')) 11 = Some u /\ irq_owner u = 42 /\
    ((pending u = 0 /\ irq_waiter u = Some 42) \/ 42 ∈ wk s').
Proof.
  destruct (driver_irq_register 42 11 (as_current 42 demo_drv)) as [[r1 d1]|] eqn:E1; [|vm_compute in E1; discriminate E1].
  destruct (irq_wait_round 42 11 (as_current 42 d1)) as [[r2 d2]|] eqn:E2.
  2: { vm_compute in E1. injection E1 as _ <-. vm_compute in E2. discriminate E2. }
  assert (isys_reach 11 (mk_isys demo_drv []) (mk_isys d2 [])) as Hreach.
  { eapply ireach_step; [eapply ireach_step; [apply ireach_refl|]|].
    - eapply (istep_register 11 (mk_isys demo_drv []) 42 r1 d1); [reflexivity|exact E1].
    - apply (istep_wait 11 (mk_isys d1 []) 42 r2 d2); [|exact E2]. vm_compute in E1. injection E1 as _ <-. reflexivity. }
  assert (irq_inv 11 (mk_isys demo_drv [])) as Hinv.
  { split; [reflexivity|]. exists no_irq. split; [reflexivity|]. split; [vm_compute; discriminate|]. discriminate. }
  destruct (driver_irq_no_lost_wakeup 11 _ _ ltac:(unfold MAX_USER_IRQ; lia) Hinv Hreach) as (u & Hu & Hb).
  exists (mk_isys d2 []), u. split; [exact Hreach|]. split; [exact Hu|].
  vm_compute in E1. injection E1 as _ <-. vm_compute in E2. injection E2 as _ <-.
  vm_compute in Hu. injection Hu as <-. split; [reflexivity|]. apply Hb; reflexivity.
Defined.

(** The range check of [driver_mmio_allowed] wraps: for the owner of a 1 MiB BAR it accepts a
    request that starts inside the BAR and is almost 2^64 bytes long. *)
Theorem driver_mmio_allowed_wraps :
  exists a, driver_mmio_allowed 42 0x123401000 (2 ^ 64 - 0x1000) claimed_drv = Some (true, dconf a claimed_drv) /\
    bar_view demo_cfg demo_dev 0 = Some (mk_bar 0x123400000 0x100000 false true true).
Proof. eexists. split; vm_compute; reflexivity. Qed.

(** The upper half of a 64-bit BAR is taken for a BAR of its own: with the card's memory at
    0x1_2340_0000 the upper register holds 1, which decodes as an I/O BAR at port 0, and the
    owner may access ports 0 to 3, which belong to no BAR of the device. *)
Theorem driver_io_upper_half :
  exists a, driver_io_port_allowed 42 0 4 claimed_drv = Some (true, dconf a claimed_drv).
Proof. eexists. vm_compute. reflexivity. Qed.
