(* ===== verification/Paging.v ===== *)
(** Model of kernel/system/mm/paging.c: four-level page tables.

    Tables live in physical frames and are reached through the physmap
    ([phys_to_virt], never NULL): a frame that holds a table is an entry of [tables].  The loops
    that fill a whole fresh table are [fill_table] and [copy_table].  [invlpg] has no counterpart:
    translation is always looked up in the tables. *)

From S2P Require Import Prelude Memory Interfaces Pmm Heap Shm Pci.

Definition PAGE_PRESENT : Z := 0x001.
Definition PAGE_WRITE : Z := 0x002.
Definition PAGE_USER : Z := 0x004.
Definition PAGE_PCD : Z := 0x010.
Definition PAGE_HUGE : Z := 0x080.
Definition PAGE_IDENTITY_SHARED : Z := 0x200.
Definition PAGE_MMAP_SHARED : Z := 0x400.
Definition PAGE_MMIO_NOFREE : Z := 0x800.
Definition PHYSMAP_PML4_INDEX : Z := 256.
Definition KERNEL_MMIO_BASE : Z := 0xFFFFA00000000000.
Definition FRAME_MASK : Z := 0x000FFFFFFFFFF000.

Definition PML4_INDEX (v : Z) : Z := Z.land (Z.shiftr v 39) 0x1FF.
Definition PDPT_INDEX (v : Z) : Z := Z.land (Z.shiftr v 30) 0x1FF.
Definition PD_INDEX (v : Z) : Z := Z.land (Z.shiftr v 21) 0x1FF.
Definition PT_INDEX (v : Z) : Z := Z.land (Z.shiftr v 12) 0x1FF.

Definition paddr_to_entry (phys flags : Z) : Z := Z.lor (Z.land phys FRAME_MASK) (Z.land flags 0xFFF).

(** [entry & flag] as a condition. *)
Definition has (e flag : Z) : bool := negb (Z.land e flag =? 0).
Definition frame_of (e : Z) : Z := Z.land e FRAME_MASK.

Section paging.
Context {PS HS : Type} `{!PageAllocator PS} `{!BlockAllocator HS}.

Record paging := mk_paging {
  tables : gmap Z (list Z);         (* contents of the frames that hold tables *)
  sh : shm (PS := PS) (HS := HS);   (* page allocator, heap and shared regions *)
  cr3 : Z;
  kernel_pml4 : Z;
  kernel_pdpt : Z;
  mmio_next_free : Z;
}.

Definition set_tables (t : gmap Z (list Z)) (s : paging) : paging :=
  mk_paging t (sh s) (cr3 s) (kernel_pml4 s) (kernel_pdpt s) (mmio_next_free s).
Definition set_sh (h : shm) (s : paging) : paging :=
  mk_paging (tables s) h (cr3 s) (kernel_pml4 s) (kernel_pdpt s) (mmio_next_free s).
Definition set_cr3 (c : Z) (s : paging) : paging :=
  mk_paging (tables s) (sh s) c (kernel_pml4 s) (kernel_pdpt s) (mmio_next_free s).
Definition set_mmio (n : Z) (s : paging) : paging :=
  mk_paging (tables s) (sh s) (cr3 s) (kernel_pml4 s) (kernel_pdpt s) n.

Definition rd (f i : Z) : M paging Z := fun s =>
  match tables s !! f with
  | Some t => match zget t i with Some e => Some (e, s) | None => None end
  | None => None
  end.

Definition wr (f i e : Z) : M paging unit := fun s =>
  match tables s !! f with
  | Some t => match zset t i e with Some t' => Some (tt, set_tables (<[f := t']> (tables s)) s) | None => None end
  | None => None
  end.

(** [for (i = 0; i < 512; i++) table[i] = g(i)] *)
Definition fill_table (f : Z) (g : Z -> Z) : M paging unit :=
  modify (fun s => set_tables (<[f := g <$> seqZ 0 512]> (tables s)) s).

(** [for (i = 0; i < 512; i++) dst[i] = src[i]] *)
Definition copy_table (dst src : Z) : M paging unit := fun s =>
  match tables s !! src with
  | Some t => Some (tt, set_tables (<[dst := t]> (tables s)) s)
  | None => None
  end.

Definition on_sh {A} (m : M shm A) : M paging A := fun s =>
  match m (sh s) with Some (a, h) => Some (a, set_sh h s) | None => None end.

Definition pmm_alloc : M paging Z := on_sh (on_frames pa_alloc).
Definition pmm_release (f : Z) : M paging unit := on_sh (on_frames (pa_release f)).

Definition get_current_pml4 : M paging Z := gets cr3.

(** The table below entry [index] of table [parent], 0 for NULL. *)
Definition get_or_create_table (parent index : Z) (create : bool) : M paging Z :=
  e ← rd parent index;
  if negb (has e PAGE_PRESENT) then
    if negb create then mret 0 else
    phys ← pmm_alloc;
    if phys =? 0 then mret 0 else
    wr parent index (paddr_to_entry phys (Z.lor (Z.lor PAGE_PRESENT PAGE_WRITE) PAGE_USER));;
    fill_table phys (fun _ => 0);;
    mret phys
  else
    wr parent index (Z.lor e PAGE_USER);;
    e ← rd parent index;
    mret (frame_of e).

(** [None]: out of memory, the kernel halts. *)
Definition build_identity_pdpt (pdpt mem_gb : Z) : M paging (option unit) :=
  r ← for_range 0 mem_gb (fun gb =>
        pd_phys ← pmm_alloc;
        if pd_phys =? 0 then mret (Some tt) else
        fill_table pd_phys (fun _ => 0);;
        wr pdpt gb (paddr_to_entry pd_phys (Z.lor PAGE_PRESENT PAGE_WRITE));;
        fill_table pd_phys (fun i =>
          paddr_to_entry (u64 (u64 (Z.shiftl gb 30) + Z.shiftl i 21)) (Z.lor (Z.lor PAGE_PRESENT PAGE_WRITE) PAGE_HUGE));;
        mret None);
  mret (match r with Some _ => None | None => Some tt end).

Definition find_max (descs : list efi_memory_descriptor) : Z :=
  fold_left (fun m d =>
    if negb (Type_ d =? EfiConventionalMemory) then m else
    let e := u64 (PhysicalStart d + u64 (NumberOfPages d * PAGE_SIZE)) in
    if m <? e then e else m) descs 0.

Definition mem_gigabytes (descs : list efi_memory_descriptor) (fb_base fb_size : Z) : Z :=
  let max_phys := find_max descs in
  let fb_end := u64 (fb_base + fb_size) in
  let max_phys := if max_phys <? fb_end then fb_end else max_phys in
  let mem_gb := Z.shiftr (u64 (u64 (max_phys + Z.shiftl 1 30) - 1)) 30 in
  if 512 <? mem_gb then 512 else mem_gb.

(** [pml4], [pdpt] and [physmap] are the addresses of the three static tables. *)
Definition paging_init (pml4 pdpt physmap : Z) (descs : list efi_memory_descriptor) (fb_base fb_size : Z)
    : M paging (option unit) :=
  modify (fun s => mk_paging (tables s) (sh s) (cr3 s) pml4 pdpt (mmio_next_free s));;
  fill_table pml4 (fun _ => 0);;
  fill_table pdpt (fun _ => 0);;
  fill_table physmap (fun _ => 0);;
  wr pml4 0 (paddr_to_entry pdpt (Z.lor PAGE_PRESENT PAGE_WRITE));;
  wr pml4 PHYSMAP_PML4_INDEX (paddr_to_entry physmap (Z.lor PAGE_PRESENT PAGE_WRITE));;
  let mem_gb := mem_gigabytes descs fb_base fb_size in
  r1 ← build_identity_pdpt pdpt mem_gb;
  match r1 with
  | None => mret None
  | Some _ =>
      r2 ← build_identity_pdpt physmap mem_gb;
      match r2 with
      | None => mret None
      | Some _ => modify (set_cr3 pml4);; mret (Some tt)
      end
  end.

(** Replaces a 2 MiB entry by a table of 4 KiB entries; [false] when out of memory. *)
Definition split_huge (pd_table pd_idx : Z) : M paging bool :=
  huge_entry ← rd pd_table pd_idx;
  if has huge_entry PAGE_PRESENT && has huge_entry PAGE_HUGE then
    let phys_base := frame_of huge_entry in
    let pde_flags := Z.land (Z.land huge_entry 0xFFF) (not64 PAGE_HUGE) in
    pt_phys ← pmm_alloc;
    if pt_phys =? 0 then mret false else
    fill_table pt_phys (fun i =>
      paddr_to_entry (u64 (phys_base + i * 4096)) (Z.lor pde_flags PAGE_IDENTITY_SHARED));;
    wr pd_table pd_idx (paddr_to_entry pt_phys pde_flags);;
    mret true
  else mret true.

Definition map_page_in_pml4 (pml4 virt phys flags : Z) : M paging Z :=
  pdpt_table ← get_or_create_table pml4 (PML4_INDEX virt) true;
  if pdpt_table =? 0 then mret (-1) else
  pd_table ← get_or_create_table pdpt_table (PDPT_INDEX virt) true;
  if pd_table =? 0 then mret (-1) else
  let pd_idx := PD_INDEX virt in
  ok ← split_huge pd_table pd_idx;
  if negb ok then mret (-1) else
  pt_table ← get_or_create_table pd_table pd_idx true;
  if pt_table =? 0 then mret (-1) else
  wr pt_table (PT_INDEX virt) (Z.lor (Z.lor (Z.land phys FRAME_MASK) (Z.land flags 0xFFF)) PAGE_PRESENT);;
  mret 0.

(** The same on the current address space. *)
Definition map_page (virt phys flags : Z) : M paging Z :=
  pml4 ← get_current_pml4;
  map_page_in_pml4 pml4 virt phys flags.

(** Gives the frame of a leaf entry back to its owner. *)
Definition release_leaf (pte phys : Z) : M paging unit :=
  if has pte PAGE_MMIO_NOFREE then mret tt
  else if has pte PAGE_MMAP_SHARED then
    id ← on_sh (shm_find_region_by_page phys);
    if 0 <=? id then on_sh (shm_release id) else pmm_release phys
  else pmm_release phys.

Definition unmap_page (virt : Z) : M paging unit :=
  pml4 ← get_current_pml4;
  pml4e ← rd pml4 (PML4_INDEX virt);
  if negb (has pml4e PAGE_PRESENT) then mret tt else
  let pdpt_table := frame_of pml4e in
  pdpte ← rd pdpt_table (PDPT_INDEX virt);
  if negb (has pdpte PAGE_PRESENT) then mret tt else
  let pd_table := frame_of pdpte in
  pde ← rd pd_table (PD_INDEX virt);
  if negb (has pde PAGE_PRESENT) then mret tt else
  if has pde PAGE_HUGE then mret tt else
  let pt_table := frame_of pde in
  pte ← rd pt_table (PT_INDEX virt);
  let phys := frame_of pte in
  (if negb (phys =? 0) then release_leaf pte phys else mret tt);;
  wr pt_table (PT_INDEX virt) 0.

Definition get_physical_address_in_pml4 (pml4 virt : Z) : M paging Z :=
  pml4e ← rd pml4 (PML4_INDEX virt);
  if negb (has pml4e PAGE_PRESENT) then mret 0 else
  pdpte ← rd (frame_of pml4e) (PDPT_INDEX virt);
  if negb (has pdpte PAGE_PRESENT) then mret 0 else
  pde ← rd (frame_of pdpte) (PD_INDEX virt);
  if negb (has pde PAGE_PRESENT) then mret 0 else
  if has pde PAGE_HUGE then mret (u64 (frame_of pde + Z.land virt 0x1FFFFF)) else
  pte ← rd (frame_of pde) (PT_INDEX virt);
  if negb (has pte PAGE_PRESENT) then mret 0 else
  mret (u64 (frame_of pte + Z.land virt 0xFFF)).

Definition get_physical_address (virt : Z) : M paging Z :=
  pml4 ← get_current_pml4; get_physical_address_in_pml4 pml4 virt.

Definition is_user_accessible (pml4 virt : Z) (need_write : bool) : M paging bool :=
  pml4e ← rd pml4 (PML4_INDEX virt);
  if negb (has pml4e PAGE_PRESENT) || negb (has pml4e PAGE_USER) then mret false else
  pdpte ← rd (frame_of pml4e) (PDPT_INDEX virt);
  if negb (has pdpte PAGE_PRESENT) || negb (has pdpte PAGE_USER) then mret false else
  pde ← rd (frame_of pdpte) (PD_INDEX virt);
  if negb (has pde PAGE_PRESENT) then mret false else
  if has pde PAGE_HUGE then
    if negb (has pde PAGE_USER) then mret false else
    if need_write && negb (has pde PAGE_WRITE) then mret false else mret true
  else
  if negb (has pde PAGE_USER) then mret false else
  pte ← rd (frame_of pde) (PT_INDEX virt);
  if negb (has pte PAGE_PRESENT) || negb (has pte PAGE_USER) then mret false else
  if need_write && negb (has pte PAGE_WRITE) then mret false else mret true.

(** The page loop of [is_user_range_valid]; the fuel is the number of pages. *)
Fixpoint range_loop (fuel : nat) (pml4 page last_page : Z) (need_write : bool) : M paging bool :=
  match fuel with
  | O => fault
  | S fuel =>
      ok ← is_user_accessible pml4 page need_write;
      if negb ok then mret false
      else if page =? last_page then mret true
      else range_loop fuel pml4 (u64 (page + 4096)) last_page need_write
  end.

Definition is_user_range_valid (pml4 addr len : Z) (need_write : bool) : M paging bool :=
  if len =? 0 then mret true else
  let last := u64 (u64 (addr + len) - 1) in
  if last <? addr then mret false else
  let page := Z.land addr (not64 (4096 - 1)) in
  let last_page := Z.land last (not64 (4096 - 1)) in
  range_loop (S (Z.to_nat ((last_page - page) / 4096))) pml4 page last_page need_write.

Definition clone_low_identity_map (dest_pml4 : Z) : M paging unit :=
  new_pdpt ← pmm_alloc;
  if new_pdpt =? 0 then mret tt else
  fill_table new_pdpt (fun _ => 0);;
  kp ← gets kernel_pdpt;
  for_range (R := unit) 0 512 (fun gb =>
    e ← rd kp gb;
    if negb (has e PAGE_PRESENT) then mret None else
    new_pd ← pmm_alloc;
    if new_pd =? 0 then mret None else
    copy_table new_pd (frame_of e);;
    e ← rd kp gb;
    wr new_pdpt gb (paddr_to_entry new_pd (Z.land e 0xFFF));;
    mret None);;
  wr dest_pml4 0 (paddr_to_entry new_pdpt (Z.lor PAGE_PRESENT PAGE_WRITE)).

(** The body of [free_user_address_space], one definition per level. *)
Definition free_pt (pt : Z) : M paging unit :=
  for_range (R := unit) 0 512 (fun i =>
    pte ← rd pt i;
    if negb (has pte PAGE_PRESENT) then mret None else
    if has pte PAGE_IDENTITY_SHARED then mret None else
    release_leaf pte (frame_of pte);;
    mret None);;
  mret tt.

Definition free_pd (pd : Z) : M paging unit :=
  for_range (R := unit) 0 512 (fun i =>
    pde ← rd pd i;
    if negb (has pde PAGE_PRESENT) then mret None else
    if has pde PAGE_HUGE then mret None else
    let pt_phys := frame_of pde in
    free_pt pt_phys;;
    pmm_release pt_phys;;
    mret None);;
  mret tt.

Definition free_pdpt (pdpt : Z) : M paging unit :=
  for_range (R := unit) 0 512 (fun i =>
    pdpte ← rd pdpt i;
    if negb (has pdpte PAGE_PRESENT) then mret None else
    let pd_phys := frame_of pdpte in
    free_pd pd_phys;;
    pmm_release pd_phys;;
    mret None);;
  mret tt.

Definition free_user_address_space (pml4 : Z) : M paging unit :=
  for_range (R := unit) 0 256 (fun i =>
    e ← rd pml4 i;
    if negb (has e PAGE_PRESENT) then mret None else
    let pdpt_phys := frame_of e in
    free_pdpt pdpt_phys;;
    pmm_release pdpt_phys;;
    mret None);;
  pmm_release pml4.

Definition sync_kernel_mappings (dest_pml4 src_pml4 : Z) : M paging unit :=
  for_range (R := unit) 256 512 (fun i =>
    e ← rd src_pml4 i;
    if negb (has e PAGE_PRESENT) then mret None else
    let src_table := frame_of e in
    d ← rd dest_pml4 i;
    if negb (has d PAGE_PRESENT) then
      new_table ← pmm_alloc;
      if new_table =? 0 then mret None else
      wr dest_pml4 i (Z.lor (Z.land new_table (not64 0xFFF)) (Z.land e 0xFFF));;
      copy_table new_table src_table;;
      mret None
    else
      copy_table (frame_of d) src_table;;
      mret None);;
  mret tt.

(** 0 is NULL. *)
Definition mmio_map (phys size : Z) : M paging Z :=
  let size := if size =? 0 then 0x2000 else size in
  let phys_page := Z.land phys (not64 (4096 - 1)) in
  let phys_offset := u64 (phys - phys_page) in
  let map_size := Z.land (u64 (u64 (u64 (phys_offset + size) + 4096) - 1)) (not64 (4096 - 1)) in
  virt_base ← gets mmio_next_free;
  modify (set_mmio (u64 (virt_base + map_size)));;
  r ← for_range 0 (map_size / 4096) (fun k =>
        let off := k * 4096 in
        r ← map_page (u64 (virt_base + off)) (u64 (phys_page + off)) (Z.lor (Z.lor PAGE_PRESENT PAGE_WRITE) PAGE_PCD);
        mret (if negb (r =? 0) then Some tt else None));
  mret (match r with Some _ => 0 | None => u64 (virt_base + phys_offset) end).

(** * The tables as a tree

    [node root p] is the frame of the table reached from [root] through the entries [p], last
    step first: [[j; i]] is the page directory below entry [i] of the root and [j] of the PDPT. *)

Definition ent (s : paging) (f i : Z) : Z := default 0 (tables s !! f ≫= fun t => zget t i).

(** The table an entry of a level-[d] table points to; only directory entries can be huge. *)
Definition next (d : nat) (e : Z) : option Z :=
  if has e PAGE_PRESENT then (if (d =? 2)%nat && has e PAGE_HUGE then None else Some (frame_of e)) else None.

Fixpoint node (s : paging) (root : Z) (p : list Z) : option Z :=
  match p with
  | [] => Some root
  | i :: p => f ← node s root p; next (length p) (ent s f i)
  end.

(** Rights a leaf entry grants: writable, user. *)
Definition rights (e : Z) : bool * bool := (has e PAGE_WRITE, has e PAGE_USER).

(** Frame mapped at page ([i], [j], [k], [l]), with the rights of its leaf entry. *)
Definition xlate (s : paging) (root i j k l : Z) : option (Z * (bool * bool)) :=
  match node s root [j; i] with
  | None => None
  | Some pd =>
      let e := ent s pd k in
      if has e PAGE_PRESENT then
        if has e PAGE_HUGE then (if (0 <=? l) && (l <? 512) then Some (frame_of e + l * 4096, rights e) else None)
        else (let t := ent s (frame_of e) l in if has t PAGE_PRESENT then Some (frame_of t, rights t) else None)
      else None
  end.

Record tree_wf (s : paging) (root : Z) : Prop := {
  tw_pa : pa_wf (frames (sh s));
  tw_inj : forall p q f, (length p <= 3)%nat -> (length q <= 3)%nat ->
    node s root p = Some f -> node s root q = Some f -> p = q;
  tw_tab : forall p f, (length p <= 3)%nat -> node s root p = Some f ->
    exists t, tables s !! f = Some t /\ zlen t = 512;
  tw_held : forall p f, (length p <= 3)%nat -> node s root p = Some f ->
    is_frame f /\ ~ pa_free (frames (sh s)) f;
  tw_huge : forall i j k pd, node s root [j; i] = Some pd ->
    has (ent s pd k) PAGE_PRESENT = true -> has (ent s pd k) PAGE_HUGE = true ->
    frame_of (ent s pd k) mod 2 ^ 21 = 0;
}.

(** ** Entries *)

Lemma has_testbit e k : 0 <= k -> has e (2 ^ k) = Z.testbit e k.
Proof.
  intros Hk. unfold has. destruct (Z.testbit e k) eqn:E.
  - apply negb_true_iff, Z.eqb_neq. intros H0. apply (f_equal (fun x => Z.testbit x k)) in H0.
    rewrite Z.land_spec, E, Z.pow2_bits_true, Z.bits_0 in H0 by done. done.
  - apply negb_false_iff, Z.eqb_eq. apply bits_ext. intros i Hi. rewrite Z.land_spec, Z.bits_0.
    destruct (decide (i = k)) as [->|]; [by rewrite E|]. rewrite Z.pow2_bits_false by lia. apply andb_false_r.
Qed.

Lemma testbit_frame_mask i : 0 <= i -> Z.testbit FRAME_MASK i = (12 <=? i) && (i <? 52).
Proof.
  intros Hi. change FRAME_MASK with (Z.shiftl (Z.ones 40) 12). rewrite Z.shiftl_spec by done.
  destruct (Z.leb_spec 12 i).
  - rewrite Z.testbit_ones_nonneg by lia. simpl. destruct (Z.ltb_spec i 52), (Z.ltb_spec (i - 12) 40); (done || lia).
  - by rewrite Z.testbit_neg_r by lia.
Qed.

Lemma testbit_fff i : 0 <= i -> Z.testbit 0xFFF i = (i <? 12).
Proof. intros. change 0xFFF with (Z.ones 12). rewrite Z.testbit_ones_nonneg by lia. done. Qed.

Lemma frame_paddr p fl : frame_of (paddr_to_entry p fl) = frame_of p.
Proof.
  unfold frame_of, paddr_to_entry. apply bits_ext. intros i Hi.
  rewrite !Z.land_spec, Z.lor_spec, !Z.land_spec, testbit_frame_mask, testbit_fff by done.
  destruct (Z.leb_spec 12 i), (Z.ltb_spec i 12), (Z.ltb_spec i 52), (Z.testbit p i), (Z.testbit fl i); (done || lia).
Qed.

Lemma has_paddr p fl k : 0 <= k < 12 -> has (paddr_to_entry p fl) (2 ^ k) = has fl (2 ^ k).
Proof.
  intros Hk. rewrite !has_testbit by lia. unfold paddr_to_entry.
  rewrite Z.lor_spec, !Z.land_spec, testbit_frame_mask, testbit_fff by lia.
  rewrite (proj2 (Z.leb_gt 12 k)), (proj2 (Z.ltb_lt k 12)) by lia. cbn [andb].
  by rewrite andb_false_r, andb_true_r.
Qed.

Lemma frame_of_id f : 0 <= f < 2 ^ 52 -> f mod 4096 = 0 -> frame_of f = f.
Proof.
  intros [H0 H52] Hm. unfold frame_of. apply bits_ext. intros i Hi.
  rewrite Z.land_spec, testbit_frame_mask by done.
  destruct (Z.leb_spec 12 i); cbn [andb].
  - destruct (Z.ltb_spec i 52); [apply andb_true_r|]. rewrite andb_false_r. symmetry.
    rewrite <- (Z.mod_small f (2 ^ 52)) by lia. by apply Z.mod_pow2_bits_high.
  - rewrite andb_false_r. symmetry. rewrite <- (Z.mod_pow2_bits_low f 12) by lia.
    change (2 ^ 12) with 4096. by rewrite Hm, Z.bits_0.
Qed.

Lemma frame_of_frame f : is_frame f -> frame_of f = f.
Proof. intros [??]. apply frame_of_id; [lia|done]. Qed.

Lemma frame_of_range e : 0 <= frame_of e < 2 ^ 52.
Proof.
  assert (frame_of e mod 2 ^ 52 = frame_of e) as <-; [|by apply Z.mod_pos_bound].
  apply bits_ext. intros i Hi. rewrite testbit_u by lia. unfold frame_of.
  rewrite Z.land_spec, testbit_frame_mask by done. destruct (Z.testbit e i), (12 <=? i), (i <? 52); done.
Qed.

Lemma frame_or_user e : frame_of (Z.lor e PAGE_USER) = frame_of e.
Proof.
  unfold frame_of. apply bits_ext. intros i Hi. rewrite !Z.land_spec, Z.lor_spec, testbit_frame_mask by done.
  change PAGE_USER with (2 ^ 2). rewrite Z.pow2_bits_eqb by lia.
  destruct (Z.leb_spec 12 i), (Z.eqb_spec 2 i), (Z.testbit e i), (i <? 52); (done || lia).
Qed.

Lemma has_or_user e k : 0 <= k -> k <> 2 -> has (Z.lor e PAGE_USER) (2 ^ k) = has e (2 ^ k).
Proof.
  intros Hk Hne. rewrite !has_testbit by done. rewrite Z.lor_spec. change PAGE_USER with (2 ^ 2).
  rewrite Z.pow2_bits_false by lia. apply orb_false_r.
Qed.

Lemma next_or_user d e : next d (Z.lor e PAGE_USER) = next d e.
Proof.
  unfold next. rewrite frame_or_user. change PAGE_PRESENT with (2 ^ 0). change PAGE_HUGE with (2 ^ 7).
  by rewrite !has_or_user by lia.
Qed.

Lemma index_range v : 0 <= Z.land v 0x1FF < 512.
Proof. change 0x1FF with (Z.ones 9). rewrite Z.land_ones by lia. apply Z.mod_pos_bound. lia. Qed.

(** ** Changing one entry, and filling one fresh frame *)

(** Only entry [i] of table [f], and table [n], may differ. *)
Definition changed (s s' : paging) (f i n : Z) : Prop :=
  forall g x, g <> n -> ~ (g = f /\ x = i) -> ent s' g x = ent s g x.

(** [n] holds no table of the tree. *)
Definition fresh (s : paging) (root n : Z) : Prop :=
  forall p, (length p <= 3)%nat -> node s root p <> Some n.

Lemma node_pt s root i j k pd : node s root [j; i] = Some pd ->
  has (ent s pd k) PAGE_PRESENT = true -> has (ent s pd k) PAGE_HUGE = false ->
  node s root [k; j; i] = Some (frame_of (ent s pd k)).
Proof.
  intros Hpd E1 E2. change (node s root [k; j; i]) with (node s root [j; i] ≫= fun g => next 2 (ent s g k)).
  rewrite Hpd. cbn [mbind option_bind]. unfold next. by rewrite E1, E2.
Qed.

Section frame.
Context (s s' : paging) (root f i n : Z) (P : list Z).
Context (Hwf : tree_wf s root) (HP : node s root P = Some f) (HlP : (length P <= 3)%nat)
  (Hch : changed s s' f i n) (Hfresh : fresh s root n).

Lemma node_changed q :
  (length q <= 3)%nat -> ~ (i :: P) `suffix_of` q -> node s' root q = node s root q.
Proof.
  induction q as [|j q IH]; intros Hl Hsuf; [done|]. cbn [node].
  rewrite IH; [|simpl in Hl; lia|].
  2: { intros Hs. apply Hsuf. by apply suffix_cons_r. }
  destruct (node s root q) as [g|] eqn:Hg; [|done]. cbn [mbind option_bind].
  rewrite Hch; [done| |].
  - intros ->. apply (Hfresh q); [simpl in Hl; lia|done].
  - intros [-> ->]. apply Hsuf. rewrite (tw_inj _ _ Hwf P q f); [done|done|simpl in Hl; lia|done|done].
Qed.

(** Pages whose walk does not read the changed entry keep their frame. *)
Lemma xlate_changed i0 j0 k0 l0 :
  ~ (i :: P) `suffix_of` [l0; k0; j0; i0] -> xlate s' root i0 j0 k0 l0 = xlate s root i0 j0 k0 l0.
Proof.
  intros Hsuf. unfold xlate. rewrite node_changed.
  2: simpl; lia.
  2: { intros Hs. apply Hsuf. do 2 apply suffix_cons_r. done. }
  destruct (node s root [j0; i0]) as [pd|] eqn:Hpd; [|done].
  assert (ent s' pd k0 = ent s pd k0) as ->.
  { apply Hch; [intros ->; apply (Hfresh [j0; i0]); [simpl; lia|done]|]. intros [-> ->]. apply Hsuf. apply suffix_cons_r.
    rewrite (tw_inj _ _ Hwf P [j0; i0] f); [done|done|simpl; lia|done|done]. }
  cbv zeta. destruct (has (ent s pd k0) PAGE_PRESENT) eqn:E1; [|done].
  destruct (has (ent s pd k0) PAGE_HUGE) eqn:E2; [done|].
  assert (node s root [k0; j0; i0] = Some (frame_of (ent s pd k0))) as Hpt by by apply node_pt.
  rewrite Hch; [done| |].
  - intros E. apply (Hfresh [k0; j0; i0]); [simpl; lia|]. by rewrite Hpt, E.
  - intros [Ef ->]. apply Hsuf. rewrite Ef in Hpt.
    rewrite (tw_inj _ _ Hwf P [k0; j0; i0] f); [done|done|simpl; lia|done|done].
Qed.
End frame.

Lemma suffix_len_eq {A} (a b : list A) : a `suffix_of` b -> (length b <= length a)%nat -> a = b.
Proof. intros [k ->] Hl. rewrite length_app in Hl. destruct k; [done|simpl in Hl; lia]. Qed.


(** A frame handed out by the allocator is not part of the tree. *)
Lemma free_fresh s root n : tree_wf s root -> pa_free (frames (sh s)) n -> fresh s root n.
Proof. intros Hwf Hf p Hl Hp. by destruct (tw_held _ _ Hwf p n Hl Hp). Qed.

Section new_table.
Context (s s' : paging) (root f i n : Z) (P : list Z).
Context (Hwf : tree_wf s root) (HP : node s root P = Some f) (HlP : (length P <= 2)%nat)
  (Hch : changed s s' f i n) (Hfresh : fresh s root n)
  (Hold : next (length P) (ent s f i) = None)
  (Hset : next (length P) (ent s' f i) = Some n)
  (Hempty : (length P <= 1)%nat -> forall x, has (ent s' n x) PAGE_PRESENT = false)
  (Htab : forall g t, tables s !! g = Some t -> zlen t = 512 ->
     exists t', tables s' !! g = Some t' /\ zlen t' = 512)
  (Htabn : exists t, tables s' !! n = Some t /\ zlen t = 512)
  (Hpa : pa_wf (frames (sh s')))
  (Hheld : forall g, is_frame g -> ~ pa_free (frames (sh s)) g -> ~ pa_free (frames (sh s')) g)
  (Hn : is_frame n /\ ~ pa_free (frames (sh s')) n).

Lemma new_old_none q : (i :: P) `suffix_of` q -> node s root q = None.
Proof.
  intros [k ->]. induction k as [|x k IH]; cbn [app node].
  - rewrite HP. exact Hold.
  - by rewrite IH.
Qed.

Lemma new_at : node s' root (i :: P) = Some n.
Proof.
  cbn [node]. rewrite (node_changed s s' root f i n P Hwf HP ltac:(lia) Hch Hfresh P); [| lia |].
  - rewrite HP. exact Hset.
  - intros Hk%suffix_length. simpl in Hk. lia.
Qed.

Lemma new_below q : (length q <= 3)%nat -> (i :: P) `suffix_of` q -> q <> i :: P -> node s' root q = None.
Proof.
  intros Hl [k ->] Hne. destruct k as [|x k] using rev_ind; [done|clear IHk].
  rewrite !length_app in Hl. simpl in Hl.
  assert (node s' root ([x] ++ i :: P) = None) as Hx.
  { cbn [app]. change (node s' root (x :: i :: P)) with (node s' root (i :: P) ≫= fun g => next (length (i :: P)) (ent s' g x)).
    rewrite new_at. cbn [mbind option_bind]. unfold next. by rewrite Hempty by lia. }
  clear Hne Hl. rewrite <- app_assoc. induction k as [|y k IH]; [exact Hx|]. cbn [app node] in *. by rewrite IH.
Qed.

Lemma new_node q g : (length q <= 3)%nat ->
  node s' root q = Some g <-> (q = i :: P /\ g = n) \/ node s root q = Some g.
Proof.
  intros Hl. destruct (decide ((i :: P) `suffix_of` q)) as [Hs|Hs].
  - rewrite (new_old_none q Hs). destruct (decide (q = i :: P)) as [->|Hne].
    + rewrite new_at. naive_solver.
    + rewrite new_below by done. naive_solver.
  - rewrite (node_changed s s' root f i n P Hwf HP ltac:(lia) Hch Hfresh q Hl Hs).
    split; [by right|]. intros [[-> _]|]; [by destruct Hs|done].
Qed.

Lemma new_wf : tree_wf s' root.
Proof.
  constructor; [done| | | |].
  - intros p q g Hp Hq Gp Gq. apply (new_node p g Hp) in Gp. apply (new_node q g Hq) in Gq.
    destruct Gp as [[-> E]|Gp], Gq as [[-> E']|Gq]; [done| | |by apply (tw_inj _ _ Hwf p q g)].
    + subst g. by destruct (Hfresh q Hq).
    + subst g. by destruct (Hfresh p Hp).
  - intros p g Hp Gp. apply (new_node p g Hp) in Gp as [[-> ->]|Gp]; [done|].
    destruct (tw_tab _ _ Hwf p g Hp Gp) as (t & Ht & Hlt). by apply (Htab g t).
  - intros p g Hp Gp. apply (new_node p g Hp) in Gp as [[-> ->]|Gp]; [done|].
    destruct (tw_held _ _ Hwf p g Hp Gp). split; [done|by apply Hheld].
  - intros i0 j0 k pd Hpd H1 H2. apply new_node in Hpd; [|simpl; lia]. destruct Hpd as [[HE ->]|Hpd].
    { rewrite Hempty in H1; [done|]. assert (length (i :: P) = 2%nat) as HE' by by rewrite <- HE. simpl in HE'. lia. }
    destruct (decide (pd = f /\ k = i)) as [[-> ->]|Hne].
    + assert (P = [j0; i0]) as -> by (apply (tw_inj _ _ Hwf _ _ f); [lia|simpl; lia|done|done]).
      exfalso. revert Hset. unfold next. simpl length. by rewrite H1, H2.
    + assert (pd <> n) by (intros ->; apply (Hfresh [j0; i0]); [simpl; lia|done]).
      rewrite Hch in * by done. by apply (tw_huge _ _ Hwf i0 j0).
Qed.
End new_table.

(** States whose entries differ in the user bit only, and not in the leaves, translate alike. *)
Definition alike (s s' : paging) : Prop :=
  forall f i, frame_of (ent s' f i) = frame_of (ent s f i) /\
    has (ent s' f i) PAGE_PRESENT = has (ent s f i) PAGE_PRESENT /\ has (ent s' f i) PAGE_HUGE = has (ent s f i) PAGE_HUGE.

Section alike.
Context (s s' : paging) (Hs : alike s s').

Lemma next_alike d f i : next d (ent s' f i) = next d (ent s f i).
Proof. unfold next. by destruct (Hs f i) as (-> & -> & ->). Qed.

Lemma node_alike root p : node s' root p = node s root p.
Proof. induction p as [|i p IH]; [done|]. cbn [node]. rewrite IH. destruct (node s root p); [|done]. apply next_alike. Qed.

Lemma xlate_alike root i j k l :
  (forall pd, node s root [j; i] = Some pd -> has (ent s pd k) PAGE_PRESENT = true ->
     has (ent s pd k) PAGE_HUGE = true -> ent s' pd k = ent s pd k) ->
  (forall pt, node s root [k; j; i] = Some pt -> ent s' pt l = ent s pt l) ->
  xlate s' root i j k l = xlate s root i j k l.
Proof.
  intros Hh Hl. unfold xlate. rewrite node_alike. destruct (node s root [j; i]) as [pd|] eqn:Hpd; [|done]. cbv zeta.
  destruct (Hs pd k) as (-> & -> & ->). destruct (has (ent s pd k) PAGE_PRESENT) eqn:E1; [|done].
  destruct (has (ent s pd k) PAGE_HUGE) eqn:E2; [by rewrite (Hh pd)|].
  rewrite Hl; [done|]. by apply node_pt.
Qed.

Lemma wf_alike root : sh s' = sh s ->
  (forall g t, tables s !! g = Some t -> zlen t = 512 -> exists t', tables s' !! g = Some t' /\ zlen t' = 512) ->
  tree_wf s root -> tree_wf s' root.
Proof.
  intros Hsh Htab [H1 H2 H3 H4 H5]. constructor; rewrite ?Hsh.
  - done.
  - intros p q f. rewrite !node_alike. apply H2.
  - intros p f Hl. rewrite node_alike. intros Hp. destruct (H3 p f Hl Hp) as (t & ? & ?). by apply (Htab f t).
  - intros p f Hl. rewrite node_alike. by apply H4.
  - intros i j k pd. rewrite node_alike. destruct (Hs pd k) as (-> & -> & ->). apply H5.
Qed.
End alike.

(** ** Reading and writing one entry *)

Definition has_table (s : paging) (f : Z) : Prop := exists t, tables s !! f = Some t /\ zlen t = 512.

Definition upd (f i e : Z) (s : paging) : paging := set_tables (alter (fun t => <[Z.to_nat i := e]> t) f (tables s)) s.
Definition filled (f : Z) (g : Z -> Z) (s : paging) : paging := set_tables (<[f := g <$> seqZ 0 512]> (tables s)) s.

Lemma wp_rd Q s f i : has_table s f -> 0 <= i < 512 -> Q (ent s f i) s -> wp (rd f i) Q s.
Proof.
  intros (t & Ht & Hl) Hi HQ. unfold ent in HQ. unfold wp, rd. rewrite Ht in *. cbn [mbind option_bind] in HQ.
  destruct (zget_Some t i) as [e He]; [lia|]. by rewrite He in *.
Qed.

Lemma wp_wr Q s f i e : has_table s f -> 0 <= i < 512 -> Q tt (upd f i e s) -> wp (wr f i e) Q s.
Proof.
  intros (t & Ht & Hl) Hi HQ. unfold wp, wr. rewrite Ht, zset_in by lia. revert HQ. unfold upd.
  replace (alter (fun t => <[Z.to_nat i := e]> t) f (tables s)) with (<[f := <[Z.to_nat i := e]> t]> (tables s)); [done|].
  apply map_eq. intros g. destruct (decide (g = f)) as [->|].
  - by rewrite lookup_insert_eq, lookup_alter_eq, Ht.
  - by rewrite lookup_insert_ne, lookup_alter_ne by done.
Qed.

Lemma ent_upd_eq s f i e : has_table s f -> 0 <= i < 512 -> ent (upd f i e s) f i = e.
Proof.
  intros (t & Ht & Hl) Hi. unfold ent, upd. cbn [tables set_tables]. rewrite lookup_alter_eq, Ht.
  cbn [mbind option_bind fmap option_fmap option_map]. by rewrite zget_insert_eq by lia.
Qed.

Lemma ent_upd_ne s f i e g x : 0 <= i -> ~ (g = f /\ x = i) -> ent (upd f i e s) g x = ent s g x.
Proof.
  intros Hi Hne. unfold ent, upd. cbn [tables set_tables]. destruct (decide (g = f)) as [->|].
  - rewrite lookup_alter_eq. destruct (tables s !! f) as [t|]; [|done].
    cbn [mbind option_bind fmap option_fmap option_map]. rewrite zget_insert_ne; [done|done|]. intros <-. by apply Hne.
  - by rewrite lookup_alter_ne by done.
Qed.

Lemma has_table_upd s f i e g : has_table s g -> has_table (upd f i e s) g.
Proof.
  intros (t & Ht & Hl). unfold has_table, upd. cbn [tables set_tables]. destruct (decide (g = f)) as [->|].
  - rewrite lookup_alter_eq, Ht. eexists. split; [done|]. by rewrite zlen_insert.
  - rewrite lookup_alter_ne by done. eauto.
Qed.

Lemma ent_filled_eq s f g x : 0 <= x < 512 -> ent (filled f g s) f x = g x.
Proof.
  intros Hx. unfold ent, filled. cbn [tables set_tables]. rewrite lookup_insert_eq. cbn [mbind option_bind].
  unfold zget. rewrite (proj2 (Z.leb_le 0 x)) by lia. rewrite list_lookup_fmap, lookup_seqZ_lt by lia.
  cbn. f_equal. lia.
Qed.

Lemma ent_filled_out s f g x : ~ 0 <= x < 512 -> ent (filled f g s) f x = 0.
Proof.
  intros Hx. unfold ent, filled. cbn [tables set_tables]. rewrite lookup_insert_eq. cbn [mbind option_bind].
  unfold zget. destruct (Z.leb_spec 0 x); [|done]. rewrite list_lookup_fmap, lookup_seqZ_ge by lia. done.
Qed.

Lemma ent_filled_ne s f g h x : h <> f -> ent (filled f g s) h x = ent s h x.
Proof. intros. unfold ent, filled. cbn [tables set_tables]. by rewrite lookup_insert_ne by done. Qed.

Lemma has_table_filled_eq s f g : has_table (filled f g s) f.
Proof. unfold has_table, filled. cbn [tables set_tables]. rewrite lookup_insert_eq. eexists. split; [done|]. unfold zlen. by rewrite length_fmap, length_seqZ. Qed.

Lemma has_table_filled s f g h : has_table s h -> has_table (filled f g s) h.
Proof.
  intros H. destruct (decide (h = f)) as [->|]; [apply has_table_filled_eq|].
  unfold has_table, filled. cbn [tables set_tables]. by rewrite lookup_insert_ne by done.
Qed.

Lemma wp_pmm_alloc Q s : pa_wf (frames (sh s)) ->
  Q 0 s ->
  (forall n h, is_frame n -> pa_free (frames (sh s)) n -> pa_wf (frames h) ->
     (forall f, is_frame f -> (pa_free (frames h) f <-> pa_free (frames (sh s)) f /\ f <> n)) ->
     Q n (set_sh h s)) ->
  wp pmm_alloc Q s.
Proof.
  intros Hwf H0 HQ. pose proof (pa_alloc_spec _ Hwf) as Ha. unfold wp, pmm_alloc, on_sh, on_frames in *.
  destruct (pa_alloc (frames (sh s))) as [[n p]|]; [|done]. cbn. destruct Ha as (Hp & _ & Ha).
  destruct Ha as [(H1 & _ & H2 & H3)|(-> & -> & _)].
  - by apply HQ.
  - unfold set_sh. by destruct s as [? [] ? ? ? ?].
Qed.

(** ** Installing a fresh table below an entry *)

(** Same translation of every page, no table lost. *)
Definition same (s s' : paging) (root : Z) : Prop :=
  tree_wf s' root /\ (forall i j k l, xlate s' root i j k l = xlate s root i j k l) /\
  (forall p f, (length p <= 3)%nat -> node s root p = Some f -> node s' root p = Some f).

Lemma same_refl s root : tree_wf s root -> same s s root.
Proof. intros. split; [done|]. by split. Qed.

Lemma same_trans s1 s2 s3 root : same s1 s2 root -> same s2 s3 root -> same s1 s3 root.
Proof. intros (_ & X1 & N1) (W & X2 & N2). split; [done|]. split; [|naive_solver]. intros. by rewrite X2, X1. Qed.

Lemma upd_filled s f i e n g : f <> n -> upd f i e (filled n g s) = filled n g (upd f i e s).
Proof. intros. unfold upd, filled, set_tables. cbn. f_equal. by rewrite alter_insert_ne. Qed.

Section install.
Context (s : paging) (root f i n e : Z) (P : list Z) (h : shm (PS := PS) (HS := HS)) (g : Z -> Z).
Context (Hwf : tree_wf s root) (HP : node s root P = Some f) (HlP : (length P <= 2)%nat) (Hi : 0 <= i < 512)
  (Hn : is_frame n) (Hfree : pa_free (frames (sh s)) n) (Hpa : pa_wf (frames h))
  (Hiff : forall f, is_frame f -> (pa_free (frames h) f <-> pa_free (frames (sh s)) f /\ f <> n))
  (Hold : next (length P) (ent s f i) = None) (Hset : next (length P) e = Some n)
  (Hempty : (length P <= 1)%nat -> forall x, has (g x) PAGE_PRESENT = false).

Local Abbreviation s' := (filled n g (upd f i e (set_sh h s))).

Lemma install_ne : f <> n.
Proof. intros ->. apply (free_fresh s root n Hwf Hfree P); [lia|done]. Qed.

Lemma install_tab : has_table s f.
Proof. apply (tw_tab _ _ Hwf P); [lia|done]. Qed.

Lemma install_entry : ent s' f i = e.
Proof. rewrite ent_filled_ne by apply install_ne. apply ent_upd_eq; [apply install_tab|done]. Qed.

Lemma install_changed : changed s s' f i n.
Proof. intros a x Ha Hx. rewrite ent_filled_ne by done. by rewrite ent_upd_ne by (done || lia). Qed.

Lemma install_wf : ent s' f i = e /\ changed s s' f i n /\ tree_wf s' root /\ node s' root (i :: P) = Some n /\
  (forall p a, (length p <= 3)%nat -> node s root p = Some a -> node s' root p = Some a).
Proof.
  pose proof (free_fresh s root n Hwf Hfree) as Hfr. pose proof install_changed as Hch.
  assert (next (length P) (ent s' f i) = Some n) as Hset' by by rewrite install_entry.
  assert ((length P <= 1)%nat -> forall x, has (ent s' n x) PAGE_PRESENT = false) as Hem.
  { intros Hl x. destruct (decide (0 <= x < 512)).
    - rewrite ent_filled_eq by done. by apply Hempty.
    - by rewrite ent_filled_out by done. }
  assert (is_frame n /\ ~ pa_free (frames h) n) as Hnn by (rewrite Hiff by done; tauto).
  pose proof (has_table_filled_eq (upd f i e (set_sh h s)) n g) as Htn.
  split_and!; [apply install_entry|done|..].
  - apply (new_wf s s' root f i n P); try done.
    + intros a t Ht Hl. apply has_table_filled, has_table_upd. by exists t.
    + intros a Ha Hna. cbn. rewrite Hiff by done. tauto.
  - by apply (new_at s s' root f i n P).
  - intros p a Hl Hp. apply (new_node s s' root f i n P); try done. by right.
Qed.
End install.

Definition goct_flags : Z := Z.lor (Z.lor PAGE_PRESENT PAGE_WRITE) PAGE_USER.

Lemma next_paddr d n fl : is_frame n -> has fl PAGE_PRESENT = true -> has fl PAGE_HUGE = false ->
  next d (paddr_to_entry n fl) = Some n.
Proof.
  intros Hn H1 H2. unfold next. rewrite frame_paddr, frame_of_frame by done.
  change PAGE_PRESENT with (2 ^ 0) in *. change PAGE_HUGE with (2 ^ 7) in *. rewrite !has_paddr by lia.
  rewrite H1, H2. by rewrite andb_false_r.
Qed.

(** Pages below an absent entry, or below an entry that points to an empty table, are not mapped. *)
Definition blank (s : paging) (d : nat) (f i : Z) : Prop :=
  has (ent s f i) PAGE_PRESENT = false \/
  exists t, next d (ent s f i) = Some t /\ forall x, has (ent s t x) PAGE_PRESENT = false.

Lemma next_absent d e : has e PAGE_PRESENT = false -> next d e = None.
Proof. unfold next. by intros ->. Qed.

Lemma blank_next s d f i x : blank s d f i -> next d (ent s f i) ≫= (fun t => next (S d) (ent s t x)) = None.
Proof.
  intros [H|(t & -> & Ht)].
  - by rewrite next_absent.
  - by apply next_absent.
Qed.

Lemma suffix_page (q : list Z) i0 j0 k0 l0 : q `suffix_of` [l0; k0; j0; i0] -> q <> [] -> (length q <= 3)%nat ->
  q = [i0] \/ q = [j0; i0] \/ q = [k0; j0; i0].
Proof.
  intros Hs Hne Hl. destruct q as [|x q]; [done|].
  apply suffix_cons_inv in Hs as [E|Hs]; [apply (f_equal length) in E; simpl in *; lia|].
  apply suffix_cons_inv in Hs as [E|Hs]; [tauto|].
  apply suffix_cons_inv in Hs as [E|Hs]; [tauto|].
  apply suffix_cons_inv in Hs as [E|Hs]; [tauto|]. by apply suffix_nil_inv in Hs.
Qed.

Lemma xlate_blank s root P f i i0 j0 k0 l0 : (length P <= 2)%nat -> node s root P = Some f ->
  (i :: P) `suffix_of` [l0; k0; j0; i0] -> blank s (length P) f i -> xlate s root i0 j0 k0 l0 = None.
Proof.
  intros Hl HP Hs Hb. unfold xlate.
  destruct (suffix_page _ _ _ _ _ Hs ltac:(done) ltac:(simpl; lia)) as [E|[E|E]]; injection E as -> ->.
  - cbn [node] in *. injection HP as ->. cbn [mbind option_bind].
    pose proof (blank_next s 0 f i0 j0 Hb) as Hx. cbn [mbind option_bind length] in Hx |- *. by rewrite Hx.
  - destruct (node s root [j0; i0]) as [pd|] eqn:Hpd; [|done]. cbv zeta.
    change (node s root [j0; i0]) with (node s root [i0] ≫= fun g => next 1 (ent s g j0)) in Hpd.
    rewrite HP in Hpd. cbn [mbind option_bind] in Hpd.
    destruct Hb as [H|(t & Ht & He)]; [by rewrite next_absent in Hpd|]. cbn [length] in Ht. simplify_eq. by rewrite He.
  - rewrite HP. cbv zeta. destruct Hb as [H|(t & Ht & He)]; [by rewrite H|]. revert Ht. unfold next. cbn [length].
    destruct (has (ent s f k0) PAGE_PRESENT); [|done]. destruct (has (ent s f k0) PAGE_HUGE); [done|].
    intros [= <-]. by rewrite He.
Qed.

(** ** The operations *)

(** Raising the user bit of an entry. *)
Lemma user_bit_alike s f i : has_table s f -> 0 <= i < 512 -> alike s (upd f i (Z.lor (ent s f i) PAGE_USER) s).
Proof.
  intros Htab Hi g x. destruct (decide (g = f /\ x = i)) as [[-> ->]|]; [|by rewrite ent_upd_ne by (done || lia)].
  rewrite ent_upd_eq, frame_or_user by done. change PAGE_PRESENT with (2 ^ 0). change PAGE_HUGE with (2 ^ 7).
  by rewrite !has_or_user by lia.
Qed.

(** It changes no translation where the entry points to a table. *)
Lemma user_bit_same s root P f i : tree_wf s root -> node s root P = Some f -> (length P <= 2)%nat ->
  0 <= i < 512 -> is_Some (next (length P) (ent s f i)) ->
  same s (upd f i (Z.lor (ent s f i) PAGE_USER) s) root.
Proof.
  intros Hwf HP Hl Hi Hsome. pose proof (tw_tab _ _ Hwf P f ltac:(lia) HP) as Htab.
  set (s' := upd f i _ s). assert (alike s s') as Ha by by apply user_bit_alike.
  split; [|split].
  - apply (wf_alike s s' Ha); [done| |done]. intros g t Hg Hlt. apply has_table_upd. by exists t.
  - intros i0 j0 k0 l0. apply xlate_alike; [done| |].
    + intros pd Hpd H1 H2. apply ent_upd_ne; [lia|]. intros [-> ->].
      rewrite (tw_inj _ _ Hwf P [j0; i0] f ltac:(lia) ltac:(simpl; lia) HP Hpd) in Hsome.
      destruct Hsome as [t Ht]. revert Ht. unfold next. simpl length. by rewrite H1, H2.
    + intros pt Hpt. apply ent_upd_ne; [lia|]. intros [-> ->].
      pose proof (tw_inj _ _ Hwf P [k0; j0; i0] f ltac:(lia) ltac:(simpl; lia) HP Hpt) as ->. simpl in Hl. lia.
  - intros p a _. by rewrite (node_alike s s' Ha).
Qed.

Lemma get_or_create_table_same s root P f i : tree_wf s root -> node s root P = Some f -> (length P <= 2)%nat ->
  0 <= i < 512 -> (has (ent s f i) PAGE_PRESENT = true -> is_Some (next (length P) (ent s f i))) ->
  wp (get_or_create_table f i true) (fun r s' => same s s' root /\ cr3 s' = cr3 s /\
    (r = 0 \/ (r <> 0 /\ node s' root (i :: P) = Some r))) s.
Proof.
  intros Hwf HP Hl Hi Hsome. pose proof (tw_tab _ _ Hwf P f ltac:(lia) HP) as Htab.
  unfold get_or_create_table. wstep. apply wp_rd; [done..|].
  destruct (has (ent s f i) PAGE_PRESENT) eqn:E; cbn [negb]; cbv iota.
  - specialize (Hsome eq_refl). pose proof (user_bit_same s root P f i Hwf HP Hl Hi Hsome) as Hsame.
    wstep. apply wp_wr; [done..|]. wstep. apply wp_rd; [by apply has_table_upd|done|]. wstep.
    rewrite ent_upd_eq, frame_or_user by done.
    split; [done|]. split; [done|]. right. destruct Hsame as (Hwf' & _ & Hn).
    assert (node s root (i :: P) = Some (frame_of (ent s f i))) as Hnode.
    { cbn [node]. rewrite HP. cbn [mbind option_bind]. destruct Hsome as [t Ht]. rewrite Ht. revert Ht. unfold next.
      rewrite E. by destruct (_ && _); [|intros [= <-]]. }
    apply Hn in Hnode; [|simpl; lia]. split; [|done].
    destruct (tw_held _ _ Hwf' (i :: P) _ ltac:(simpl; lia) Hnode) as [[??] _]. lia.
  - wstep. apply wp_pmm_alloc; [apply Hwf| |].
    + rewrite Z.eqb_refl. wstep. split; [by apply same_refl|]. by split; [|left].
    + intros n h Hn Hfree Hpa Hiff. destruct (Z.eqb_spec n 0); [destruct Hn; lia|].
      wstep. apply wp_wr; [done..|]. wstep. apply wp_modify. wstep.
      set (e := paddr_to_entry n _).
      assert (next (length P) e = Some n) as Hset by by apply next_paddr.
      destruct (install_wf s root f i n e P h (fun _ => 0) Hwf HP Hl Hi Hn Hfree Hpa Hiff
        (next_absent _ _ E) Hset ltac:(done)) as (Hent & Hch & Hwf' & Hnode & Hkeep).
      pose proof (free_fresh s root n Hwf Hfree) as Hfr.
      split; [|by split; [|right]]. split; [done|]. split; [|done].
      intros i0 j0 k0 l0. destruct (decide ((i :: P) `suffix_of` [l0; k0; j0; i0])) as [Hs|Hs].
      * rewrite (xlate_blank s root P f i i0 j0 k0 l0 Hl HP Hs (or_introl E)).
        apply (xlate_blank _ root P f i i0 j0 k0 l0 Hl (Hkeep P f ltac:(lia) HP) Hs). right. exists n. split.
        { by rewrite Hent. }
        intros x. destruct (decide (0 <= x < 512)); [by rewrite ent_filled_eq|by rewrite ent_filled_out].
      * apply (xlate_changed s _ root f i n P); (done || lia).
Qed.

(** Flags a split copies from the huge entry. *)
Definition split_flags (e : Z) : Z := Z.land (Z.land e 0xFFF) (not64 PAGE_HUGE).

Lemma has_split_flags e k : 0 <= k < 12 -> has (split_flags e) (2 ^ k) = negb (k =? 7) && has e (2 ^ k).
Proof.
  intros Hk. rewrite !has_testbit by lia. unfold split_flags.
  rewrite !Z.land_spec, testbit_not64, testbit_fff by lia. change PAGE_HUGE with (2 ^ 7). rewrite Z.pow2_bits_eqb by lia.
  rewrite (proj2 (Z.ltb_lt k 12)), (proj2 (Z.ltb_lt k 64)) by lia. rewrite Z.eqb_sym. rewrite andb_true_r. apply andb_comm.
Qed.

(** Entry [l] of the table that replaces huge entry [e]. *)
Definition split_pte (e l : Z) : Z :=
  paddr_to_entry (u64 (frame_of e + l * 4096)) (Z.lor (split_flags e) PAGE_IDENTITY_SHARED).

Lemma has_split_pte e l k : 0 <= k < 12 -> k <> 9 -> has (split_pte e l) (2 ^ k) = negb (k =? 7) && has e (2 ^ k).
Proof.
  intros Hk Hne. unfold split_pte. rewrite has_paddr, <- has_split_flags by lia. rewrite !has_testbit by lia.
  rewrite Z.lor_spec. change PAGE_IDENTITY_SHARED with (2 ^ 9). rewrite Z.pow2_bits_false by lia. apply orb_false_r.
Qed.

Lemma frame_split_pte e l : frame_of e mod 2 ^ 21 = 0 -> 0 <= l < 512 -> frame_of (split_pte e l) = frame_of e + l * 4096.
Proof.
  intros Hal Hl. unfold split_pte. rewrite frame_paddr. pose proof (frame_of_range e) as Hr.
  apply Z.mod_divide in Hal as [q Hq]; [|lia].
  assert (0 <= frame_of e + l * 4096 < 2 ^ 52) as Hb.
  { rewrite Hq in *. assert (q < 2 ^ 31) by (apply (Z.mul_lt_mono_pos_r (2 ^ 21)); lia). nia. }
  rewrite u64_small by (unfold is_u64; lia). apply frame_of_id; [done|].
  rewrite Hq. replace (q * 2 ^ 21 + l * 4096) with ((q * 512 + l) * 4096) by lia. by apply Z.mod_mul.
Qed.

Lemma split_huge_same s root i j k pd : tree_wf s root -> node s root [j; i] = Some pd -> 0 <= k < 512 ->
  wp (split_huge pd k) (fun b s' => same s s' root /\ cr3 s' = cr3 s /\
    (b = true -> has (ent s' pd k) PAGE_PRESENT = true -> has (ent s' pd k) PAGE_HUGE = false)) s.
Proof.
  intros Hwf HP Hk. pose proof (tw_tab _ _ Hwf [j; i] pd ltac:(simpl; lia) HP) as Htab.
  unfold split_huge. wstep. apply wp_rd; [done..|].
  destruct (has (ent s pd k) PAGE_PRESENT) eqn:E1; cbn [andb].
  2: { wstep. split; [by apply same_refl|]. split; [done|]. by rewrite E1. }
  destruct (has (ent s pd k) PAGE_HUGE) eqn:E2; cbn [andb].
  2: { wstep. split; [by apply same_refl|]. by split. }
  set (e := ent s pd k) in *. cbv zeta. wstep. apply wp_pmm_alloc; [apply Hwf| |].
  { rewrite Z.eqb_refl. wstep. split; [by apply same_refl|]. by split. }
  intros n h Hn Hfree Hpa Hiff. destruct (Z.eqb_spec n 0); [destruct Hn; lia|].
  pose proof (free_fresh s root n Hwf Hfree) as Hfr.
  assert (pd <> n) as Hne by (intros ->; apply (Hfr [j; i]); [simpl; lia|done]).
  wstep. apply wp_modify. wstep. apply wp_wr; [by apply has_table_filled|done|]. wstep.
  fold (filled n (split_pte e) (set_sh h s)). fold (split_flags e).
  change (fun i : Z => paddr_to_entry (u64 (frame_of e + i * 4096)) (Z.lor (split_flags e) PAGE_IDENTITY_SHARED)) with (split_pte e).
  fold (filled n (split_pte e) (set_sh h s)). rewrite upd_filled by done.
  set (e' := paddr_to_entry n (split_flags e)).
  assert (has e' PAGE_PRESENT = true /\ has e' PAGE_HUGE = false /\ frame_of e' = n) as (P1 & P2 & P3).
  { unfold e'. rewrite frame_paddr, frame_of_frame by done. change PAGE_PRESENT with (2 ^ 0) in *. change PAGE_HUGE with (2 ^ 7).
    by rewrite !has_paddr, !has_split_flags, E1 by lia. }
  assert (next 2 e' = Some n) as Hset by by (unfold next; rewrite P1, P2, P3).
  assert (next 2 e = None) as Hold by (unfold next; by rewrite E1, E2).
  destruct (install_wf s root pd k n e' [j; i] h (split_pte e) Hwf HP ltac:(simpl; lia) Hk Hn Hfree Hpa Hiff
    Hold Hset ltac:(simpl; lia)) as (Hent & Hch & Hwf' & Hnode & Hkeep).
  split; [split; [done|split; [|done]]|split; [done|by rewrite Hent]].
  intros i0 j0 k0 l0. destruct (decide ([k; j; i] `suffix_of` [l0; k0; j0; i0])) as [Hs|Hs].
  2: { apply (xlate_changed s _ root pd k n [j; i]); (done || (simpl; lia)). }
  destruct (suffix_page _ _ _ _ _ Hs ltac:(done) ltac:(simpl; lia)) as [E|[E|E]]; [done|done|]. simplify_eq.
  unfold xlate. rewrite HP, (Hkeep [j0; i0] pd ltac:(simpl; lia) HP). cbv zeta. rewrite Hent, P1, P2, P3.
  fold e. rewrite E1, E2. destruct (decide (0 <= l0 < 512)) as [Hl|Hl].
  - rewrite ent_filled_eq by done. rewrite (proj2 (Z.leb_le 0 l0)), (proj2 (Z.ltb_lt l0 512)) by lia. cbn [andb].
    unfold rights. rewrite frame_split_pte by (done || by apply (tw_huge _ _ Hwf i0 j0)).
    change PAGE_PRESENT with (2 ^ 0) in *. change PAGE_WRITE with (2 ^ 1). change PAGE_USER with (2 ^ 2).
    by rewrite !has_split_pte, E1 by lia.
  - rewrite ent_filled_out by done. destruct (Z.leb_spec 0 l0), (Z.ltb_spec l0 512); (done || lia).
Qed.

(** Writing a leaf entry changes the translation of its page only. *)
Lemma leaf_write s root i j k l pt e : tree_wf s root -> node s root [k; j; i] = Some pt -> 0 <= l < 512 ->
  tree_wf (upd pt l e s) root /\
  xlate (upd pt l e s) root i j k l = (if has e PAGE_PRESENT then Some (frame_of e, rights e) else None) /\
  forall i0 j0 k0 l0, [l0; k0; j0; i0] <> [l; k; j; i] ->
    xlate (upd pt l e s) root i0 j0 k0 l0 = xlate s root i0 j0 k0 l0.
Proof.
  intros Hwf HP Hl. pose proof (tw_tab _ _ Hwf [k; j; i] pt ltac:(simpl; lia) HP) as Htab.
  assert (fresh s root (-1)) as Hfr.
  { intros p Hp Hn. destruct (tw_held _ _ Hwf p _ Hp Hn) as [[??] _]. lia. }
  assert (changed s (upd pt l e s) pt l (-1)) as Hch by (intros a x _ Hx; by rewrite ent_upd_ne by (done || lia)).
  assert (forall q, (length q <= 3)%nat -> node (upd pt l e s) root q = node s root q) as Hnode.
  { intros q Hq. apply (node_changed s _ root pt l (-1) [k; j; i]); try done.
    intros Hs%suffix_length. simpl in Hs. lia. }
  split; [|split].
  - destruct Hwf as [H1 H2 H3 H4 H5]. constructor.
    + done.
    + intros p q a Hp Hq. rewrite !Hnode by done. by apply H2.
    + intros p a Hp. rewrite Hnode by done. intros Ha. by apply has_table_upd, (H3 p).
    + intros p a Hp. rewrite Hnode by done. by apply H4.
    + intros i0 j0 k0 pd. rewrite Hnode by (simpl; lia). intros Hpd.
      rewrite ent_upd_ne; [by apply (H5 i0 j0)|lia|]. intros [-> _].
      by pose proof (H2 [k; j; i] [j0; i0] pt ltac:(simpl; lia) ltac:(simpl; lia) HP Hpd).
  - pose proof HP as HP3. change (node s root [k; j; i]) with (node s root [j; i] ≫= fun g => next 2 (ent s g k)) in HP.
    unfold xlate. rewrite Hnode by (simpl; lia). destruct (node s root [j; i]) as [pd|] eqn:Hpd; [|done].
    cbn [mbind option_bind] in HP. revert HP. unfold next. cbv zeta.
    destruct (has (ent s pd k) PAGE_PRESENT) eqn:E1; [|done]. destruct (has (ent s pd k) PAGE_HUGE) eqn:E2; [done|].
    cbn. intros [= Hf]. rewrite ent_upd_ne; [|lia|].
    + by rewrite E1, E2, Hf, ent_upd_eq by done.
    + intros [-> _]. by pose proof (tw_inj _ _ Hwf [j; i] [k; j; i] pt ltac:(simpl; lia) ltac:(simpl; lia) Hpd HP3).
  - intros i0 j0 k0 l0 Hne. apply (xlate_changed s _ root pt l (-1) [k; j; i]); try done.
    intros Hs%suffix_len_eq; [by rewrite Hs in Hne|simpl; lia].
Qed.

(** Page of a virtual address, as the indices of the walk, last first. *)
Definition page_of (v : Z) : list Z := [PT_INDEX v; PD_INDEX v; PDPT_INDEX v; PML4_INDEX v].

(** Frame and rights of the page of [v]. *)
Definition translate (s : paging) (root v : Z) : option (Z * (bool * bool)) :=
  xlate s root (PML4_INDEX v) (PDPT_INDEX v) (PD_INDEX v) (PT_INDEX v).

Lemma leaf_entry phys flags : let e := Z.lor (Z.lor (Z.land phys FRAME_MASK) (Z.land flags 0xFFF)) PAGE_PRESENT in
  has e PAGE_PRESENT = true /\ frame_of e = frame_of phys /\ rights e = rights flags.
Proof.
  intros e. fold (paddr_to_entry phys flags) in e. unfold rights.
  assert (forall k, 0 < k < 12 -> has e (2 ^ k) = has flags (2 ^ k)) as He.
  { intros k Hk. rewrite <- (has_paddr phys flags) by lia. rewrite !has_testbit by lia. unfold e.
    rewrite Z.lor_spec. change PAGE_PRESENT with (2 ^ 0). rewrite Z.pow2_bits_false by lia. apply orb_false_r. }
  change PAGE_WRITE with (2 ^ 1). change PAGE_USER with (2 ^ 2). rewrite !He by lia. split_and!; [|..|done].
  - change PAGE_PRESENT with (2 ^ 0). rewrite has_testbit by lia. unfold e. rewrite Z.lor_spec.
    change PAGE_PRESENT with (2 ^ 0). rewrite Z.pow2_bits_true by lia. apply orb_true_r.
  - rewrite <- (frame_paddr phys flags). unfold frame_of, e. apply bits_ext. intros i Hi.
    rewrite !Z.land_spec, Z.lor_spec, testbit_frame_mask by done. change PAGE_PRESENT with (2 ^ 0).
    rewrite Z.pow2_bits_eqb by lia.
    destruct (Z.leb_spec 12 i), (Z.eqb_spec 0 i), (Z.testbit (paddr_to_entry phys flags) i), (i <? 52); (done || lia).
Qed.

Definition map_outcome (s : paging) (root virt phys flags r : Z) (s' : paging) : Prop :=
  tree_wf s' root /\ cr3 s' = cr3 s /\
  ((r = -1 /\ forall i j k l, xlate s' root i j k l = xlate s root i j k l) \/
   (r = 0 /\ translate s' root virt = Some (frame_of phys, rights flags) /\
    forall i j k l, [l; k; j; i] <> page_of virt -> xlate s' root i j k l = xlate s root i j k l)).

Lemma map_fail s s' root virt phys flags : same s s' root -> cr3 s' = cr3 s -> map_outcome s root virt phys flags (-1) s'.
Proof. intros (? & ? & _) ?. split; [done|]. split; [done|]. by left. Qed.

Lemma next_some d e : has e PAGE_PRESENT = true -> (d = 2%nat -> has e PAGE_HUGE = false) -> is_Some (next d e).
Proof. intros E H. unfold next. rewrite E. destruct (Nat.eqb_spec d 2); [rewrite H by done|]; cbn; eauto. Qed.

Lemma map_page_in_pml4_outcome s root virt phys flags : tree_wf s root ->
  wp (map_page_in_pml4 root virt phys flags) (map_outcome s root virt phys flags) s.
Proof.
  intros Hwf. unfold map_page_in_pml4. wstep.
  eapply wp_mono; [apply (get_or_create_table_same s root []); [done|done|simpl; lia|apply index_range|]|].
  { intros. by apply next_some. }
  intros pdpt s1 (S1 & C1 & [->|[Hn1 N1]]); [by apply wp_ret, map_fail|]. rewrite (proj2 (Z.eqb_neq _ _) Hn1).
  wstep. eapply wp_mono; [apply (get_or_create_table_same s1 root [PML4_INDEX virt]);
    [apply S1|done|simpl; lia|apply index_range|]|].
  { intros. by apply next_some. }
  intros pd s2 (S2 & C2 & Hn2). assert (same s s2 root) as S02 by by apply (same_trans s s1).
  destruct Hn2 as [->|[Hn2 N2]]; [apply wp_ret, map_fail; [done|by rewrite C2]|]. rewrite (proj2 (Z.eqb_neq _ _) Hn2).
  cbv zeta. wstep. eapply wp_mono; [apply (split_huge_same s2 root (PML4_INDEX virt) (PDPT_INDEX virt));
    [apply S2|done|apply index_range]|].
  intros b s3 (S3 & C3 & Hb). assert (same s s3 root) as S03 by by apply (same_trans s s2).
  destruct b; cbn [negb]; [|apply wp_ret, map_fail; [done|by rewrite C3, C2]].
  assert (node s3 root [PDPT_INDEX virt; PML4_INDEX virt] = Some pd) as N3 by (apply S3; [simpl; lia|done]).
  wstep. eapply wp_mono; [apply (get_or_create_table_same s3 root [PDPT_INDEX virt; PML4_INDEX virt]);
    [apply S3|done|simpl; lia|apply index_range|]|].
  { intros. apply next_some; auto. }
  intros pt s4 (S4 & C4 & Hn4). assert (same s s4 root) as S04 by by apply (same_trans s s3).
  destruct Hn4 as [->|[Hn4 N4]]; [apply wp_ret, map_fail; [done|by rewrite C4, C3, C2]|]. rewrite (proj2 (Z.eqb_neq _ _) Hn4).
  destruct S04 as (W4 & X4 & _). destruct (leaf_entry phys flags) as (L1 & L2 & L3). set (e := Z.lor _ PAGE_PRESENT) in *.
  wstep. apply wp_wr; [eapply (tw_tab _ _ W4); [|exact N4]; simpl; lia|apply index_range|]. wstep.
  destruct (leaf_write s4 root _ _ _ (PT_INDEX virt) pt e W4 N4 (index_range _)) as (W5 & X5 & O5).
  split; [done|]. split; [by cbn; rewrite C4, C3, C2|]. right. split; [done|].
  split; [|intros; by rewrite O5, X4]. unfold translate. by rewrite X5, L1, L2, L3.
Qed.

(** ** Walks that only read *)

(** The three directory entries of the walk to [v], outermost first. *)
Definition walk (s : paging) (root v : Z) : Z * Z * Z :=
  let e0 := ent s root (PML4_INDEX v) in
  let e1 := ent s (frame_of e0) (PDPT_INDEX v) in
  (e0, e1, ent s (frame_of e1) (PD_INDEX v)).

Lemma wp_rd_node s root p f i Q : tree_wf s root -> (length p <= 3)%nat -> node s root p = Some f -> 0 <= i < 512 ->
  Q (ent s f i) s -> wp (rd f i) Q s.
Proof. intros Hwf Hl Hp Hi HQ. apply wp_rd; [|done..]. by apply (tw_tab _ _ Hwf p). Qed.

Lemma node_step s root p f i : (length p <= 1)%nat -> node s root p = Some f -> has (ent s f i) PAGE_PRESENT = true ->
  node s root (i :: p) = Some (frame_of (ent s f i)).
Proof.
  intros Hl Hp E. cbn [node]. rewrite Hp. cbn [mbind option_bind]. unfold next. rewrite E.
  by destruct (Nat.eqb_spec (length p) 2); [lia|].
Qed.

Lemma xlate_walk s root v : let '(e0, e1, e2) := walk s root v in
  translate s root v =
    if has e0 PAGE_PRESENT && has e1 PAGE_PRESENT && has e2 PAGE_PRESENT then
      if has e2 PAGE_HUGE then Some (frame_of e2 + PT_INDEX v * 4096, rights e2)
      else let t := ent s (frame_of e2) (PT_INDEX v) in if has t PAGE_PRESENT then Some (frame_of t, rights t) else None
    else None.
Proof.
  unfold walk. cbv zeta. unfold translate, xlate. cbn [node]. cbn [mbind option_bind length]. unfold next. cbn [Nat.eqb andb].
  destruct (has (ent s root (PML4_INDEX v)) PAGE_PRESENT); [|done]. cbn [mbind option_bind andb].
  destruct (has (ent s (frame_of (ent s root (PML4_INDEX v))) (PDPT_INDEX v)) PAGE_PRESENT); [|done]. cbn [andb].
  destruct (index_range (Z.shiftr v 12)). fold (PT_INDEX v) in *.
  by rewrite (proj2 (Z.leb_le 0 (PT_INDEX v))), (proj2 (Z.ltb_lt (PT_INDEX v) 512)) by lia.
Qed.

Lemma huge_offset v : PT_INDEX v * 4096 + Z.land v 0xFFF = Z.land v 0x1FFFFF.
Proof.
  unfold PT_INDEX. change 0x1FF with (Z.ones 9). change 0xFFF with (Z.ones 12). change 0x1FFFFF with (Z.ones 21).
  rewrite !Z.land_ones, Z.shiftr_div_pow2 by lia. change (2 ^ 12) with 4096. change (2 ^ 21) with (4096 * 512). change (2 ^ 9) with 512.
  rewrite (Z.rem_mul_r v 4096 512) by lia. lia.
Qed.

(** Physical address of [v], 0 when it is not mapped. *)
Definition phys_of (s : paging) (root v : Z) : Z :=
  match translate s root v with Some (f, _) => u64 (f + Z.land v 0xFFF) | None => 0 end.

Ltac rd_node N := wstep; eapply wp_rd_node; [eassumption| |exact N|apply index_range|]; [simpl; lia|].

Lemma get_physical_address_walk s root v : tree_wf s root ->
  get_physical_address_in_pml4 root v s = Some (phys_of s root v, s).
Proof.
  intros Hwf. pose proof (xlate_walk s root v) as Hx. unfold walk in Hx. cbv zeta in Hx.
  assert (wp (get_physical_address_in_pml4 root v) (fun r s' => r = phys_of s root v /\ s' = s) s) as Hwp.
  2: { apply wp_inv in Hwp as (r & s' & -> & -> & ->). done. }
  unfold get_physical_address_in_pml4, phys_of. rewrite Hx. clear Hx.
  rd_node (eq_refl : node s root [] = Some root).
  destruct (has (ent s root (PML4_INDEX v)) PAGE_PRESENT) eqn:E0; cbn [negb andb]; [|by wstep].
  pose proof (node_step s root [] root _ ltac:(simpl; lia) eq_refl E0) as N0. set (e0 := ent s root _) in *.
  rd_node N0. destruct (has (ent s (frame_of e0) (PDPT_INDEX v)) PAGE_PRESENT) eqn:E1; cbn [negb andb]; [|by wstep].
  pose proof (node_step s root [_] _ _ (le_n 1) N0 E1) as N1. set (e1 := ent s (frame_of e0) _) in *.
  rd_node N1. destruct (has (ent s (frame_of e1) (PD_INDEX v)) PAGE_PRESENT) eqn:E2; cbn [negb andb]; [|by wstep].
  destruct (has (ent s (frame_of e1) (PD_INDEX v)) PAGE_HUGE) eqn:Hh.
  { wstep. split; [|done]. f_equal. rewrite <- huge_offset. lia. }
  pose proof (node_pt s root _ _ _ _ N1 E2 Hh) as N2.
  rd_node N2. by destruct (has (ent s (frame_of _) (PT_INDEX v)) PAGE_PRESENT); cbn [negb]; wstep.
Qed.

(** Every entry of the walk to [v] grants user access, the leaf the access asked for. *)
Definition accessible (s : paging) (root v : Z) (need_write : bool) : bool :=
  let '(e0, e1, e2) := walk s root v in
  has e0 PAGE_USER && has e1 PAGE_USER && has e2 PAGE_USER &&
  match translate s root v with Some (_, (w, u)) => u && (negb need_write || w) | None => false end.

Lemma is_user_accessible_walk s root v need_write : tree_wf s root ->
  is_user_accessible root v need_write s = Some (accessible s root v need_write, s).
Proof.
  intros Hwf. pose proof (xlate_walk s root v) as Hx. unfold walk in Hx. cbv zeta in Hx.
  assert (wp (is_user_accessible root v need_write) (fun r s' => r = accessible s root v need_write /\ s' = s) s) as Hwp.
  2: { apply wp_inv in Hwp as (r & s' & -> & -> & ->). done. }
  unfold is_user_accessible, accessible, walk. cbv zeta. rewrite Hx. clear Hx.
  rd_node (eq_refl : node s root [] = Some root).
  destruct (has (ent s root (PML4_INDEX v)) PAGE_PRESENT) eqn:E0; cbn [negb orb andb]; [|wstep; by rewrite andb_false_r].
  pose proof (node_step s root [] root _ ltac:(simpl; lia) eq_refl E0) as N0. set (e0 := ent s root _) in *.
  destruct (has e0 PAGE_USER); cbn [negb orb andb]; [|by wstep].
  rd_node N0. destruct (has (ent s (frame_of e0) (PDPT_INDEX v)) PAGE_PRESENT) eqn:E1; cbn [negb orb andb]; [|wstep; by rewrite andb_false_r].
  pose proof (node_step s root [_] _ _ (le_n 1) N0 E1) as N1. set (e1 := ent s (frame_of e0) _) in *.
  destruct (has e1 PAGE_USER); cbn [negb orb andb]; [|by wstep].
  rd_node N1. destruct (has (ent s (frame_of e1) (PD_INDEX v)) PAGE_PRESENT) eqn:E2; cbn [negb orb andb]; [|wstep; by rewrite andb_false_r].
  set (e2 := ent s (frame_of e1) _) in *.
  destruct (has e2 PAGE_HUGE) eqn:Hh.
  { unfold rights. destruct (has e2 PAGE_USER), need_write, (has e2 PAGE_WRITE); cbn [negb orb andb]; by wstep. }
  destruct (has e2 PAGE_USER) eqn:EU; cbn [negb orb andb]; [|by wstep].
  pose proof (node_pt s root _ _ _ _ N1 E2 Hh) as N2. fold e2 in N2.
  rd_node N2. set (t := ent s (frame_of e2) _). unfold rights.
  destruct (has t PAGE_PRESENT), (has t PAGE_USER), need_write, (has t PAGE_WRITE); cbn [negb orb andb]; by wstep.
Qed.

Lemma page_floor a : is_u64 a -> Z.land a (not64 (4096 - 1)) = 4096 * (a / 4096).
Proof.
  intros Ha. change 4096 with (2 ^ 12) at 2 3. rewrite Z.mul_comm, <- Z.shiftl_mul_pow2, <- Z.shiftr_div_pow2 by lia.
  apply bits_ext. intros i Hi. change (4096 - 1) with (2 ^ 12 - 1). rewrite Z.land_spec, not_low64, Z.shiftl_spec by lia.
  destruct (Z.leb_spec 12 i).
  - rewrite Z.shiftr_spec by lia. replace (i - 12 + 12) with i by lia. rewrite andb_true_r.
    destruct (Z.ltb_spec i 64); [apply andb_true_r|]. rewrite andb_false_r. symmetry.
    rewrite <- (Z.mod_small a (2 ^ 64)) by done. apply Z.mod_pow2_bits_high. lia.
  - rewrite !andb_false_r. by rewrite Z.testbit_neg_r by lia.
Qed.

Lemma page_of_floor a b : a / 4096 = b / 4096 -> page_of a = page_of b.
Proof.
  intros H. assert (forall n, 12 <= n -> Z.shiftr a n = Z.shiftr b n) as Hs.
  { intros n Hn. replace n with (12 + (n - 12)) by lia. rewrite <- !Z.shiftr_shiftr by lia.
    rewrite !(Z.shiftr_div_pow2 _ 12) by lia. change (2 ^ 12) with 4096. by rewrite H. }
  unfold page_of, PT_INDEX, PD_INDEX, PDPT_INDEX, PML4_INDEX. by rewrite !Hs by lia.
Qed.

Lemma accessible_page s root a b w : page_of a = page_of b -> accessible s root a w = accessible s root b w.
Proof. intros [= H1 H2 H3 H4]. unfold accessible, walk, translate. by rewrite H1, H2, H3, H4. Qed.

(** The loop from page [p] to page [p + n]. *)
Lemma range_loop_correct s root w n : tree_wf s root -> forall p, 0 <= p -> 4096 * (p + Z.of_nat n) < 2 ^ 64 ->
  exists b, range_loop (S n) root (4096 * p) (4096 * (p + Z.of_nat n)) w s = Some (b, s) /\
    (b = true <-> forall q, p <= q <= p + Z.of_nat n -> accessible s root (4096 * q) w = true).
Proof.
  intros Hwf. induction n as [|n IH]; intros p Hp Hb.
  - replace (p + Z.of_nat 0) with p by lia. cbn [range_loop]. erewrite bind_Some by by apply is_user_accessible_walk.
    destruct (accessible s root (4096 * p) w) eqn:E; cbn [negb].
    + rewrite Z.eqb_refl. exists true. split; [done|]. split; [|done]. intros _ q Hq. by replace q with p by lia.
    + exists false. split; [done|]. split; [done|]. intros H. rewrite H in E; [done|lia].
  - cbn [range_loop]. erewrite bind_Some by by apply is_user_accessible_walk.
    destruct (accessible s root (4096 * p) w) eqn:E; cbn [negb].
    + rewrite (proj2 (Z.eqb_neq (4096 * p) _)) by lia. rewrite u64_small by (unfold is_u64; lia).
      destruct (IH (p + 1)) as (b & Hr & Hbt); [lia..|].
      replace (p + 1 + Z.of_nat n) with (p + Z.of_nat (S n)) in * by lia.
      replace (4096 * (p + 1)) with (4096 * p + 4096) in * by lia.
      exists b. split; [exact Hr|]. rewrite Hbt. split; intros H q Hq; [|apply H; lia].
      destruct (decide (q = p)) as [->|]; [done|]. apply H. lia.
    + exists false. split; [done|]. split; [done|]. intros H. rewrite H in E; [done|lia].
Qed.

(** C10: User pointer validation is exact: a range is accepted when it is empty, or when it does not
    wrap around the 64-bit address space and every byte of it lies in a page all of whose table
    entries grant user access and whose leaf is writable if writing is asked for; the check
    terminates and changes nothing. *)
Theorem is_user_range_valid_correct s root addr len w : tree_wf s root -> is_u64 addr -> is_u64 len ->
  exists b, is_user_range_valid root addr len w s = Some (b, s) /\
    (b = true <-> len = 0 \/ (addr + len <= 2 ^ 64 /\
                  forall a, addr <= a < addr + len -> accessible s root a w = true)).
Proof.
  intros Hwf Ha Hl. unfold is_user_range_valid, is_u64 in *.
  destruct (Z.eqb_spec len 0) as [->|Hlen]; [exists true; split; [done|naive_solver]|].
  set (last := u64 (u64 (addr + len) - 1)). cbv zeta.
  destruct (decide (addr + len <= 2 ^ 64)) as [Hfit|Hwrap].
  - assert (last = addr + len - 1) as ->.
    { unfold last, u64. destruct (decide (addr + len = 2 ^ 64)) as [->|]; [done|].
      rewrite (Z.mod_small (addr + len)), Z.mod_small by lia. done. }
    rewrite (proj2 (Z.ltb_ge _ _)) by lia. rewrite !page_floor by (unfold is_u64; lia).
    set (p := addr / 4096). set (q := (addr + len - 1) / 4096).
    assert (p <= q) by (apply Z.div_le_mono; lia). assert (0 <= p) by (apply Z.div_pos; lia).
    assert (4096 * q <= addr + len - 1) by (apply Z.mul_div_le; lia).
    replace ((4096 * q - 4096 * p) / 4096) with (q - p) by (replace (4096 * q - 4096 * p) with ((q - p) * 4096) by lia; by rewrite Z.div_mul).
    destruct (range_loop_correct s root w (Z.to_nat (q - p)) Hwf p) as (b & Hr & Hb); [lia..|].
    replace (p + Z.of_nat (Z.to_nat (q - p))) with q in * by lia. exists b. split; [exact Hr|]. rewrite Hb.
    assert (forall a, accessible s root a w = accessible s root (4096 * (a / 4096)) w) as Hpage.
    { intros a. apply accessible_page, page_of_floor. by rewrite Z.mul_comm, Z.div_mul. }
    split.
    + intros Hall. right. split; [done|]. intros a Hin. rewrite Hpage. apply Hall. unfold p, q. split; apply Z.div_le_mono; lia.
    + intros [?|[_ Hall]] r Hr'; [lia|].
      assert (4096 * p <= addr < 4096 * p + 4096).
      { pose proof (Z.div_mod addr 4096 ltac:(lia)). pose proof (Z.mod_pos_bound addr 4096 ltac:(lia)). unfold p. lia. }
      destruct (decide (r = p)) as [->|]; [unfold p; rewrite <- Hpage; apply Hall; lia|]. apply Hall. lia.
  - assert (last = addr + len - 2 ^ 64 - 1) as ->.
    { unfold last, u64. rewrite <- (Z.mod_unique_pos (addr + len) (2 ^ 64) 1 (addr + len - 2 ^ 64)) by lia.
      apply Z.mod_small. lia. }
    rewrite (proj2 (Z.ltb_lt _ _)) by lia. exists false. split; [done|]. split; [done|]. lia.
Qed.

Lemma page_of_high v k : page_of (v + k * 2 ^ 48) = page_of v.
Proof.
  assert (forall n, 12 <= n <= 39 -> Z.land (Z.shiftr (v + k * 2 ^ 48) n) 0x1FF = Z.land (Z.shiftr v n) 0x1FF) as H.
  { intros n Hn. rewrite !Z.shiftr_div_pow2 by lia. change 0x1FF with (Z.ones 9). rewrite !Z.land_ones by lia.
    replace (2 ^ 48) with (2 ^ (39 - n) * 2 ^ 9 * 2 ^ n) by (rewrite <- !Z.pow_add_r by lia; f_equal; lia).
    rewrite !Z.mul_assoc, Z.div_add by (apply Z.pow_nonzero; lia). by apply Z.mod_add. }
  unfold page_of, PT_INDEX, PD_INDEX, PDPT_INDEX, PML4_INDEX. by rewrite !H by lia.
Qed.

(** Bits 48-63 of an address take no part in the walk: a non-canonical pointer is accepted exactly
    when the canonical one it aliases is, although dereferencing it faults. *)
Theorem is_user_accessible_noncanonical s root v k w : tree_wf s root ->
  is_user_accessible root (v + k * 2 ^ 48) w s = is_user_accessible root v w s.
Proof. intros Hwf. rewrite !is_user_accessible_walk by done. do 2 f_equal. apply accessible_page, page_of_high. Qed.


Lemma wp_pmm_release Q s f : pa_wf (frames (sh s)) -> is_frame f -> pa_managed (frames (sh s)) f ->
  (forall h, pa_wf (frames h) -> g_regions h = g_regions (sh s) -> kheap h = kheap (sh s) ->
     (forall a, is_frame a -> (pa_free (frames h) a <-> pa_free (frames (sh s)) a \/ a = f)) ->
     Q tt (set_sh h s)) ->
  wp (pmm_release f) Q s.
Proof.
  intros Hwf Hf Hm HQ. pose proof (pa_release_spec _ _ Hwf Hf Hm) as Ha. unfold wp, pmm_release, on_sh, on_frames in *.
  destruct (pa_release f (frames (sh s))) as [[[] p]|]; [|done]. cbn. destruct Ha as (Hp & _ & Ha). by apply HQ.
Qed.

Lemma node_sh s h root p : node (set_sh h s) root p = node s root p.
Proof. by apply node_alike. Qed.

(** Handing back a frame that holds no table keeps the tree. *)
Lemma release_wf s root f h : tree_wf s root -> fresh s root f -> pa_wf (frames h) ->
  (forall a, is_frame a -> (pa_free (frames h) a <-> pa_free (frames (sh s)) a \/ a = f)) ->
  tree_wf (set_sh h s) root.
Proof.
  intros [H1 H2 H3 H4 H5] Hfr Hpa Hiff. constructor; [done|intros *; rewrite ?node_sh..].
  { apply H2. } { apply H3. } 2: { apply H5. }
  intros Hl Hp. destruct (H4 _ _ Hl Hp) as [Ha Hna]. split; [done|]. cbn. rewrite Hiff by done.
  intros [?| ->]; [done|]. by eapply Hfr.
Qed.

Lemma unmap_walk s v pt Q : tree_wf s (cr3 s) ->
  node s (cr3 s) [PD_INDEX v; PDPT_INDEX v; PML4_INDEX v] = Some pt ->
  let pte := ent s pt (PT_INDEX v) in
  wp ((if negb (frame_of pte =? 0) then release_leaf pte (frame_of pte) else mret tt);; wr pt (PT_INDEX v) 0) Q s ->
  wp (unmap_page v) Q s.
Proof.
  intros Hwf Hpt pte HQ. unfold unmap_page, get_current_pml4. wstep. wstep. pose proof Hpt as Hn3.
  cbn [node] in Hpt. cbn [mbind option_bind length] in Hpt.
  rd_node (eq_refl : node s (cr3 s) [] = Some (cr3 s)).
  unfold next in Hpt. set (e0 := ent s (cr3 s) (PML4_INDEX v)) in *.
  destruct (has e0 PAGE_PRESENT) eqn:E0; [|done]. cbn in Hpt. cbn [negb]. cbv zeta.
  pose proof (node_step s (cr3 s) [] (cr3 s) _ ltac:(simpl; lia) eq_refl E0) as N0. fold e0 in N0.
  rd_node N0. set (e1 := ent s (frame_of e0) (PDPT_INDEX v)) in *.
  destruct (has e1 PAGE_PRESENT) eqn:E1; [|done]. cbn in Hpt. cbn [negb].
  pose proof (node_step s (cr3 s) [_] _ _ (le_n 1) N0 E1) as N1. fold e1 in N1.
  rd_node N1. set (e2 := ent s (frame_of e1) (PD_INDEX v)) in *.
  destruct (has e2 PAGE_PRESENT) eqn:E2; [|done]. destruct (has e2 PAGE_HUGE) eqn:Eh; [done|]. cbn in Hpt. injection Hpt as Hf. cbn [negb].
  rewrite Hf. rd_node Hn3. exact HQ.
Qed.

(** Unmapping a page that a 4 KiB entry maps: no other page changes, the page is no longer mapped,
    the tables stay well-formed, and its frame is handed back to the page allocator exactly when the
    entry is not device memory. *)
Theorem unmap_page_correct s v pt : tree_wf s (cr3 s) ->
  node s (cr3 s) [PD_INDEX v; PDPT_INDEX v; PML4_INDEX v] = Some pt ->
  let pte := ent s pt (PT_INDEX v) in
  has pte PAGE_MMAP_SHARED = false ->
  (has pte PAGE_MMIO_NOFREE = false ->
     is_frame (frame_of pte) /\ fresh s (cr3 s) (frame_of pte) /\ pa_managed (frames (sh s)) (frame_of pte)) ->
  exists s', unmap_page v s = Some (tt, s') /\ tree_wf s' (cr3 s) /\ translate s' (cr3 s) v = None /\
    (forall v', page_of v' <> page_of v -> translate s' (cr3 s) v' = translate s (cr3 s) v') /\
    (forall f, is_frame f -> (pa_free (frames (sh s')) f <->
       pa_free (frames (sh s)) f \/ (has pte PAGE_MMIO_NOFREE = false /\ f = frame_of pte))).
Proof.
  intros Hwf Hpt pte Hns Hmem.
  assert (wp (unmap_page v) (fun _ s' => tree_wf s' (cr3 s) /\ translate s' (cr3 s) v = None /\
    (forall v', page_of v' <> page_of v -> translate s' (cr3 s) v' = translate s (cr3 s) v') /\
    (forall f, is_frame f -> (pa_free (frames (sh s')) f <->
       pa_free (frames (sh s)) f \/ (has pte PAGE_MMIO_NOFREE = false /\ f = frame_of pte)))) s) as Hwp.
  2: { apply wp_inv in Hwp as ([] & s' & E & H). by exists s'. }
  apply (unmap_walk s v pt _ Hwf Hpt). fold pte.
  assert (forall h, tree_wf (set_sh h s) (cr3 s) ->
    tree_wf (upd pt (PT_INDEX v) 0 (set_sh h s)) (cr3 s) /\ translate (upd pt (PT_INDEX v) 0 (set_sh h s)) (cr3 s) v = None /\
    forall v', page_of v' <> page_of v -> translate (upd pt (PT_INDEX v) 0 (set_sh h s)) (cr3 s) v' = translate s (cr3 s) v') as Hw.
  { intros h Wh. destruct (leaf_write _ (cr3 s) _ _ _ (PT_INDEX v) pt 0 Wh Hpt (index_range _)) as (W & X & O).
    split; [done|]. split; [exact X|]. intros v' Hv. by apply O. }
  assert (forall h, has_table (set_sh h s) pt) as Ht.
  { intros h. eapply (tw_tab _ _ Hwf); [|exact Hpt]. simpl; lia. }
  unfold release_leaf. rewrite Hns. wstep. destruct (has pte PAGE_MMIO_NOFREE) eqn:En.
  - assert (forall b : bool, (if b then mret tt else mret tt : M paging unit) = mret tt) as -> by by intros [].
    wstep. assert (set_sh (sh s) s = s) as Hid by by destruct s. rewrite <- Hid.
    apply wp_wr; [apply Ht|apply index_range|]. destruct (Hw (sh s)) as (? & ? & ?); [by rewrite Hid|].
    split_and!; [done..|]. intros f Hf. cbn. naive_solver.
  - destruct (Hmem eq_refl) as (Hfr & Hfresh & Hm). rewrite (proj2 (Z.eqb_neq _ _)) by (destruct Hfr; lia). cbn [negb].
    apply wp_pmm_release; [apply Hwf|done|done|]. intros h Hpa _ _ Hiff.
    apply wp_wr; [apply Ht|apply index_range|]. destruct (Hw h) as (? & ? & ?); [by apply (release_wf s (cr3 s) (frame_of pte))|].
    split_and!; [done..|]. intros f Hf. cbn. rewrite Hiff by done. naive_solver.
Qed.
End paging.

(** * Witnesses: a root, one table per level, a huge page at 0 and a user page at 2 MiB *)

Definition demo_table (l : list (Z * Z)) : list Z := foldr (fun '(i, e) t => <[Z.to_nat i := e]> t) (replicate 512 0) l.

Definition demo_paging : paging (PS := pmm) (HS := heap) :=
  mk_paging (<[0x5000 := demo_table [(0, 0x6007)]]> (<[0x6000 := demo_table [(0, 0x7007)]]>
    (<[0x7000 := demo_table [(0, 0x83); (1, 0x8007)]]> (<[0x8000 := demo_table [(0, 0x200007)]]> ∅))))
    demo_shm 0x5000 0x5000 0x6000 KERNEL_MMIO_BASE.

Lemma demo_table_zero l i : Forall (fun '(j, _) => 0 <= j /\ j <> i) l -> default 0 (zget (demo_table l) i) = 0.
Proof.
  induction 1 as [|[j e] l [Hj Hne] Hl IH].
  - unfold demo_table. cbn [foldr]. unfold zget. destruct (Z.leb_spec 0 i); [|done].
    destruct (replicate 512 0 !! Z.to_nat i) eqn:E; [|done]. by apply lookup_replicate in E as [-> _].
  - change (demo_table ((j, e) :: l)) with (<[Z.to_nat j := e]> (demo_table l)). by rewrite zget_insert_ne.
Qed.

Lemma demo_ent f l i : tables demo_paging !! f = Some (demo_table l) -> Forall (fun '(j, _) => 0 <= j /\ j <> i) l ->
  ent demo_paging f i = 0.
Proof. intros E Hl. unfold ent. rewrite E. by apply demo_table_zero. Qed.

Lemma demo_node p f : (length p <= 3)%nat -> node demo_paging 0x5000 p = Some f ->
  (p, f) ∈ [([], 0x5000); ([0], 0x6000); ([0; 0], 0x7000); ([1; 0; 0], 0x8000)].
Proof.
  revert f. induction p as [|i p IH]; intros f Hl Hp; [cbn in Hp; simplify_eq; set_solver|].
  cbn [node] in Hp. destruct (node demo_paging 0x5000 p) as [g|] eqn:Hg; [|done]. cbn [mbind option_bind] in Hp.
  assert (forall l, tables demo_paging !! g = Some (demo_table l) ->
    Forall (fun '(j, _) => 0 <= j /\ j <> i) l -> False) as Hz.
  { intros l E H. by rewrite (demo_ent g l i E H) in Hp. }
  specialize (IH g ltac:(simpl in Hl; lia) eq_refl).
  rewrite !elem_of_cons in IH. destruct IH as [E|[E|[E|[E|E]]]]; [..|by apply elem_of_nil in E]; injection E as -> ->.
  - destruct (decide (i = 0)) as [->|Hi]; [vm_compute in Hp; simplify_eq; set_solver|].
    destruct (Hz [(0, 0x6007)]); [done|]; repeat constructor; lia.
  - destruct (decide (i = 0)) as [->|Hi]; [vm_compute in Hp; simplify_eq; set_solver|].
    destruct (Hz [(0, 0x7007)]); [done|]; repeat constructor; lia.
  - destruct (decide (i = 0)) as [->|Hi]; [vm_compute in Hp; simplify_eq; set_solver|].
    destruct (decide (i = 1)) as [->|Hi']; [vm_compute in Hp; simplify_eq; set_solver|].
    destruct (Hz [(0, 0x83); (1, 0x8007)]); [done|]; repeat constructor; lia.
  - simpl in Hl. lia.
Qed.

Lemma demo_paging_wf : tree_wf demo_paging 0x5000.
Proof.
  constructor.
  - apply demo_shm_wf.
  - intros p q f Hp Hq Gp%demo_node Gq%demo_node; [|done..]. set_unfold. naive_solver.
  - intros p f Hp Gp%demo_node; [|done]. set_unfold.
    destruct Gp as [G|[G|[G|[G|[]]]]]; injection G as -> ->; eexists; (split; [vm_compute; reflexivity|reflexivity]).
  - intros p f Hp Gp%demo_node; [|done]. set_unfold.
    destruct Gp as [G|[G|[G|[G|[]]]]]; injection G as -> ->; (split; [split; [lia|done]|]); intros [[Hf _] _]; vm_compute in Hf; by apply Hf.
  - intros i j k pd Hpd%demo_node; [|simpl; lia]. set_unfold.
    destruct Hpd as [G|[G|[G|[G|[]]]]]; try discriminate G. injection G as -> -> ->. intros H1 H2.
    destruct (decide (k = 0)) as [->|Hk]; [done|]. destruct (decide (k = 1)) as [->|Hk']; [vm_compute in H2; done|].
    rewrite (demo_ent 0x7000 [(0, 0x83); (1, 0x8007)] k) in H1; [done|done|]. repeat constructor; lia.
Qed.


Lemma unmap_page_witness :
  exists s', unmap_page 0x200000 demo_paging = Some (tt, s') /\ translate s' 0x5000 0x200000 = None /\
    pa_free (frames (sh s')) 0x200000.
Proof.
  destruct (unmap_page_correct demo_paging 0x200000 0x8000 demo_paging_wf) as (s' & E & _ & H & _ & Hf).
  - vm_compute. reflexivity.
  - vm_compute. reflexivity.
  - intros _. split; [split; [vm_compute; done|vm_compute; reflexivity]|]. split.
    + intros p Hp G%demo_node; [|done]. set_unfold. destruct G as [G|[G|[G|[G|[]]]]]; discriminate G.
    + vm_compute. split; [discriminate|reflexivity].
  - exists s'. split; [done|]. split; [done|]. apply Hf; [split; [lia|done]|]. right. split; vm_compute; reflexivity.
Defined.

Lemma is_user_range_valid_witness :
  exists b, is_user_range_valid 0x5000 0x200010 0xFF0 true demo_paging = Some (b, demo_paging) /\
    (b = true <-> 0xFF0 = 0 \/ (0x200010 + 0xFF0 <= 2 ^ 64 /\
       forall a, 0x200010 <= a < 0x200010 + 0xFF0 -> accessible demo_paging 0x5000 a true = true)).
Proof. apply (is_user_range_valid_correct demo_paging 0x5000 0x200010 0xFF0 true demo_paging_wf); unfold is_u64; lia. Defined.

Lemma is_user_accessible_noncanonical_witness :
  is_user_accessible 0x5000 (0x200000 + 1 * 2 ^ 48) true demo_paging = Some (true, demo_paging).
Proof. rewrite (is_user_accessible_noncanonical demo_paging 0x5000 0x200000 1 true demo_paging_wf). vm_compute. reflexivity. Defined.
