(* ===== verification/Vfs.v ===== *)
(** Model of kernel/fs/vfs/vfs.c: open files, descriptor tables, pipes and the console device, with
    the console input ring of kernel/drivers/input/input.c.

    Heap objects ([file_t], [inode_t], [pipe_t]) live in finite maps from the address [kmalloc]
    returned; [kfree] removes the object, so that a use after free faults.  Process descriptors are
    a map from address to scheduling state.  System calls run with interrupts masked and the timer
    preempts user code only, so the code between two calls of [schedule] is atomic. *)

From S2P Require Import Prelude Memory Interfaces.

Definition MAX_FD_PER_PROCESS : Z := 16.
Definition MAX_FILES_SYSTEM : Z := 256.
Definition PIPE_BUF_SIZE : Z := 4096.
Definition CONSOLE_INPUT_BUF_SIZE : Z := 256.
Definition O_RDONLY : Z := 0.
Definition O_WRONLY : Z := 1.
Definition O_CREAT : Z := 4.
Definition sizeof_file : Z := 32.
Definition sizeof_inode : Z := 32.
Definition sizeof_pipe : Z := 48.

Inductive file_type := FT_REGULAR | FT_DIRECTORY | FT_CHARDEV | FT_BLOCKDEV | FT_PIPE | FT_SYMLINK.

#[export] Instance file_type_eq_dec : EqDecision file_type.
Proof. solve_decision. Defined.

(** The operation tables a [file_t] can point to; [fs_fops] are those of the file systems. *)
Inductive file_ops := no_ops | console_fops | pipe_read_fops | pipe_write_fops | fs_fops (n : Z).

#[export] Instance file_ops_eq_dec : EqDecision file_ops.
Proof. solve_decision. Defined.

Record inode := mk_inode {
  ino : Z;
  type : file_type;
  size : Z;
  ref_count : Z;
  private_data : Z;
  iops : Z;           (* inode_ops_t *, 0 for NULL *)
}.

Record file := mk_file {
  fd : Z;
  finode : Z;         (* inode_t *, 0 for NULL *)
  offset : Z;
  fflags : Z;
  fops : file_ops;
}.

Record fd_table := mk_table { files : list Z; tcount : Z }.

Record pipe := mk_pipe {
  buffer : Z;         (* address of the buffer *)
  data : list Z;      (* and its contents *)
  psize : Z;
  read_pos : Z;
  write_pos : Z;
  pcount : Z;
  readers : Z;
  writers : Z;
  read_waiter : Z;    (* process_t *, 0 for NULL *)
  write_waiter : Z;
}.

(** What the console device is told to do. *)
Inductive console_op :=
| PutChar (c : Z) | Foreground (c : Z) | Background (c : Z) | CursorTo (x y : Z) | ClearScreen | CursorLeft | CursorRight.

Section vfs.
Context {HS : Type} `{!BlockAllocator HS}.

Record vfs := mk_vfs {
  fobjs : gmap Z file;
  iobjs : gmap Z inode;
  pobjs : gmap Z pipe;
  kheap : HS;
  file_table : list Z;
  tables : gmap Z fd_table;          (* descriptor tables by address *)
  current_fd_table : Z;              (* 0 for NULL *)
  procs : gmap Z process_state;
  current_process : Z;
  dev_inode_counter : Z;
  if_flag : bool;                    (* EFLAGS.IF *)
  screen : list console_op;          (* console operations so far, oldest first *)
  console_input_buf : list Z;
  console_input_head : Z;
  console_input_count : Z;
  console_input_waiter : Z;
}.

Definition set_objs (f : gmap Z file) (i : gmap Z inode) (p : gmap Z pipe) (h : HS) (s : vfs) : vfs :=
  mk_vfs f i p h (file_table s) (tables s) (current_fd_table s) (procs s) (current_process s) (dev_inode_counter s)
    (if_flag s) (screen s) (console_input_buf s) (console_input_head s) (console_input_count s) (console_input_waiter s).
Definition set_ftable (t : list Z) (s : vfs) : vfs :=
  mk_vfs (fobjs s) (iobjs s) (pobjs s) (kheap s) t (tables s) (current_fd_table s) (procs s) (current_process s) (dev_inode_counter s)
    (if_flag s) (screen s) (console_input_buf s) (console_input_head s) (console_input_count s) (console_input_waiter s).
Definition set_tables (t : gmap Z fd_table) (s : vfs) : vfs :=
  mk_vfs (fobjs s) (iobjs s) (pobjs s) (kheap s) (file_table s) t (current_fd_table s) (procs s) (current_process s) (dev_inode_counter s)
    (if_flag s) (screen s) (console_input_buf s) (console_input_head s) (console_input_count s) (console_input_waiter s).
Definition set_current (c : Z) (s : vfs) : vfs :=
  mk_vfs (fobjs s) (iobjs s) (pobjs s) (kheap s) (file_table s) (tables s) c (procs s) (current_process s) (dev_inode_counter s)
    (if_flag s) (screen s) (console_input_buf s) (console_input_head s) (console_input_count s) (console_input_waiter s).
Definition set_procs (m : gmap Z process_state) (s : vfs) : vfs :=
  mk_vfs (fobjs s) (iobjs s) (pobjs s) (kheap s) (file_table s) (tables s) (current_fd_table s) m (current_process s) (dev_inode_counter s)
    (if_flag s) (screen s) (console_input_buf s) (console_input_head s) (console_input_count s) (console_input_waiter s).
Definition set_counter (n : Z) (s : vfs) : vfs :=
  mk_vfs (fobjs s) (iobjs s) (pobjs s) (kheap s) (file_table s) (tables s) (current_fd_table s) (procs s) (current_process s) n
    (if_flag s) (screen s) (console_input_buf s) (console_input_head s) (console_input_count s) (console_input_waiter s).
Definition set_screen (b : bool) (l : list console_op) (s : vfs) : vfs :=
  mk_vfs (fobjs s) (iobjs s) (pobjs s) (kheap s) (file_table s) (tables s) (current_fd_table s) (procs s) (current_process s) (dev_inode_counter s)
    b l (console_input_buf s) (console_input_head s) (console_input_count s) (console_input_waiter s).
Definition set_input (b : list Z) (h n w : Z) (s : vfs) : vfs :=
  mk_vfs (fobjs s) (iobjs s) (pobjs s) (kheap s) (file_table s) (tables s) (current_fd_table s) (procs s) (current_process s) (dev_inode_counter s)
    (if_flag s) (screen s) b h n w.

(** * Access to heap objects *)

Definition get_file (f : Z) : M vfs file := fun s => match fobjs s !! f with Some o => Some (o, s) | None => None end.
Definition get_inode (i : Z) : M vfs inode := fun s => match iobjs s !! i with Some o => Some (o, s) | None => None end.
Definition get_pipe (p : Z) : M vfs pipe := fun s => match pobjs s !! p with Some o => Some (o, s) | None => None end.
Definition put_file (f : Z) (o : file) : M vfs unit := modify (fun s => set_objs (<[f := o]> (fobjs s)) (iobjs s) (pobjs s) (kheap s) s).
Definition put_inode (i : Z) (o : inode) : M vfs unit := modify (fun s => set_objs (fobjs s) (<[i := o]> (iobjs s)) (pobjs s) (kheap s) s).
Definition put_pipe (p : Z) (o : pipe) : M vfs unit := modify (fun s => set_objs (fobjs s) (iobjs s) (<[p := o]> (pobjs s)) (kheap s) s).

Definition on_heap {A} (m : M HS A) : M vfs A := fun s =>
  match m (kheap s) with Some (a, h) => Some (a, set_objs (fobjs s) (iobjs s) (pobjs s) h s) | None => None end.
Definition kmalloc (n : Z) : M vfs Z := on_heap (ba_alloc n).
Definition kfree (p : Z) : M vfs unit :=
  on_heap (ba_release p);;
  modify (fun s => set_objs (delete p (fobjs s)) (delete p (iobjs s)) (delete p (pobjs s)) (kheap s) s).

Definition cur_table : M vfs fd_table := fun s =>
  match tables s !! current_fd_table s with Some t => Some (t, s) | None => None end.
Definition put_cur (t : fd_table) : M vfs unit :=
  modify (fun s => set_tables (<[current_fd_table s := t]> (tables s)) s).
(** [current_fd_table->files[i]] *)
Definition cur_file (i : Z) : M vfs Z := t ← cur_table; lift (zget (files t) i).
(** [current_fd_table->files[i] = f; current_fd_table->count += d] *)
Definition set_cur_file (i f d : Z) : M vfs unit :=
  t ← cur_table; l ← lift (zset (files t) i f); put_cur (mk_table l (tcount t + d)).

(** * Descriptors and open files *)

Definition alloc_fd : M vfs Z :=
  r ← for_range 0 MAX_FD_PER_PROCESS (fun i => f ← cur_file i; mret (if f =? 0 then Some i else None));
  mret (match r with Some i => i | None => -1 end).

Definition alloc_file : M vfs Z :=
  r ← for_range 0 MAX_FILES_SYSTEM (fun i =>
        ft ← gets file_table;
        e ← lift (zget ft i);
        if negb (e =? 0) then mret None else
        p ← kmalloc sizeof_file;
        ft ← lift (zset ft i p);
        modify (set_ftable ft);;
        if p =? 0 then mret None else
        put_file p (mk_file 0 0 0 0 no_ops);;
        mret (Some p));
  mret (match r with Some p => p | None => 0 end).

Definition free_file (f : Z) : M vfs unit :=
  for_range 0 MAX_FILES_SYSTEM (fun i =>
    ft ← gets file_table;
    e ← lift (zget ft i);
    if negb (e =? f) then mret None else
    kfree f;;
    ft ← lift (zset ft i 0);
    modify (set_ftable ft);;
    mret (Some tt));;
  mret tt.

(** 0 is NULL. *)
Definition vfs_create_inode (n : Z) (ty : file_type) (ops private : Z) : M vfs Z :=
  i ← kmalloc sizeof_inode;
  if i =? 0 then mret 0 else
  put_inode i (mk_inode n ty 0 1 private ops);;
  mret i.

(** [dev_inode_counter++] *)
Definition next_dev_inode : M vfs Z :=
  n ← gets dev_inode_counter; modify (set_counter (u32 (n + 1)));; mret n.

(** * Processes *)

Definition set_state (p : Z) (st : process_state) : M vfs unit := fun s =>
  match procs s !! p with Some _ => Some (tt, set_procs (<[p := st]> (procs s)) s) | None => None end.

(** * Console *)

Definition console_input_push (byte : Z) : M vfs unit :=
  n ← gets console_input_count; h ← gets console_input_head; b ← gets console_input_buf; w ← gets console_input_waiter;
  if CONSOLE_INPUT_BUF_SIZE <=? n then mret tt else
  b ← lift (zset b h byte);
  modify (set_input b ((h + 1) `rem` CONSOLE_INPUT_BUF_SIZE) (n + 1) w);;
  if w =? 0 then mret tt else
  set_state w PROCESS_READY;;
  modify (fun s => set_input (console_input_buf s) (console_input_head s) (console_input_count s) 0 s).

Definition console_input_has_data : M vfs bool := gets (fun s => 0 <? console_input_count s).

(** The copying loop of [console_input_read]; the fuel is the number of bytes in the ring. *)
Fixpoint input_copy (fuel : nat) (start n max : Z) (out : list Z) : M vfs (list Z) :=
  c ← gets console_input_count;
  if (n <? max) && (0 <? c) then
    match fuel with
    | O => fault
    | S fuel =>
        b ← gets console_input_buf;
        x ← lift (zget b ((start + n) `rem` CONSOLE_INPUT_BUF_SIZE));
        modify (fun s => set_input (console_input_buf s) (console_input_head s) (c - 1) (console_input_waiter s) s);;
        input_copy fuel start (n + 1) max (out ++ [x])
    end
  else mret out.

(** The bytes handed out, or [None] when the caller must block: it is registered and [BLOCKED], and
    [schedule] is next. *)
Definition console_input_round (max : Z) : M vfs (option (list Z)) :=
  if max <=? 0 then mret (Some []) else
  c ← gets console_input_count;
  if c =? 0 then
    me ← gets current_process;
    modify (fun s => set_input (console_input_buf s) (console_input_head s) (console_input_count s) me s);;
    set_state me PROCESS_BLOCKED;;
    mret None
  else
    h ← gets console_input_head;
    out ← input_copy (Z.to_nat c) ((h - c + CONSOLE_INPUT_BUF_SIZE) `rem` CONSOLE_INPUT_BUF_SIZE) 0 max [];
    mret (Some out).

Definition console_write_lock : M vfs bool := fun s => Some (if_flag s, set_screen false (screen s) s).
Definition console_write_unlock (flags : bool) : M vfs unit := modify (fun s => set_screen flags (screen s) s).
Definition emit (o : console_op) : M vfs unit := modify (fun s => set_screen (if_flag s) (screen s ++ [o]) s).

(** The parsing loop of [console_write]; every round consumes at least one byte, so that one more
    round than there are bytes is enough. *)
Fixpoint console_loop (fuel : nat) (str : list Z) (count i written : Z) : M vfs Z :=
  match fuel with
  | O => fault
  | S fuel =>
      if count <=? i then mret written else
      c ← lift (zget str i);
      if c =? 0 then mret written else
      let plain := emit (PutChar c);; console_loop fuel str count (i + 1) (written + 1) in
      if (c =? 0x1B) && (i + 1 <? count) then
        cmd ← lift (zget str (i + 1));
        if (cmd =? 0x66 (* f *)) && (i + 2 <? count) then
          x ← lift (zget str (i + 2));
          emit (Foreground x);; console_loop fuel str count (i + 3) (written + 3)
        else if (cmd =? 0x62 (* b *)) && (i + 2 <? count) then
          x ← lift (zget str (i + 2));
          emit (Background x);; console_loop fuel str count (i + 3) (written + 3)
        else if (cmd =? 0x70 (* p *)) && (i + 5 <? count) then
          x1 ← lift (zget str (i + 2)); x0 ← lift (zget str (i + 3));
          y1 ← lift (zget str (i + 4)); y0 ← lift (zget str (i + 5));
          emit (CursorTo (Z.lor (Z.shiftl x1 8) x0) (Z.lor (Z.shiftl y1 8) y0));;
          console_loop fuel str count (i + 6) (written + 6)
        else if cmd =? 0x63 (* c *) then emit ClearScreen;; console_loop fuel str count (i + 2) (written + 2)
        else if cmd =? 0x6C (* l *) then emit CursorLeft;; console_loop fuel str count (i + 2) (written + 2)
        else if cmd =? 0x72 (* r *) then emit CursorRight;; console_loop fuel str count (i + 2) (written + 2)
        else plain
      else plain
  end.

(** [buf] is the caller's buffer, [None] for NULL. *)
Definition console_write (buf : option (list Z)) (count : Z) : M vfs Z :=
  match buf with
  | None => mret 0
  | Some str =>
      if count =? 0 then mret 0 else
      flags ← console_write_lock;
      written ← console_loop (S (Z.to_nat count)) str count 0 0;
      console_write_unlock flags;;
      mret written
  end.

(** * Pipes *)

Definition set_ring (p : pipe) (d : list Z) (r w n : Z) : pipe :=
  mk_pipe (buffer p) d (psize p) r w n (readers p) (writers p) (read_waiter p) (write_waiter p).
Definition set_ends (p : pipe) (r w : Z) : pipe :=
  mk_pipe (buffer p) (data p) (psize p) (read_pos p) (write_pos p) (pcount p) r w (read_waiter p) (write_waiter p).
Definition set_waiters (p : pipe) (r w : Z) : pipe :=
  mk_pipe (buffer p) (data p) (psize p) (read_pos p) (write_pos p) (pcount p) (readers p) (writers p) r w.

(** [pipe_wake(&p->read_waiter)] and [pipe_wake(&p->write_waiter)] *)
Definition pipe_wake_reader (p : Z) : M vfs unit :=
  o ← get_pipe p;
  if read_waiter o =? 0 then mret tt else
  set_state (read_waiter o) PROCESS_READY;; put_pipe p (set_waiters o 0 (write_waiter o)).
Definition pipe_wake_writer (p : Z) : M vfs unit :=
  o ← get_pipe p;
  if write_waiter o =? 0 then mret tt else
  set_state (write_waiter o) PROCESS_READY;; put_pipe p (set_waiters o (read_waiter o) 0).

Definition pipe_free_if_orphaned (p : Z) : M vfs unit :=
  o ← get_pipe p;
  if (readers o =? 0) && (writers o =? 0) then kfree (buffer o);; kfree p else mret tt.

(** The pipe behind a file: [f->inode ? f->inode->private_data : NULL]. *)
Definition pipe_of (f : Z) : M vfs Z :=
  o ← get_file f;
  if finode o =? 0 then mret 0 else i ← get_inode (finode o); mret (private_data i).

(** What a run up to the next [schedule] ends with. *)
Inductive section (A : Type) := Done (a : A) | Blocked (a : A).

(** The loop of [pipe_read] up to its end or to [schedule]: [out] is what the caller has so far. *)
Fixpoint pipe_read_section (fuel : nat) (p count : Z) (out : list Z) : M vfs (section (list Z)) :=
  if zlen out <? count then
    o ← get_pipe p;
    if pcount o =? 0 then
      if writers o =? 0 then mret (Done _ out) else
      if 0 <? zlen out then mret (Done _ out) else
      me ← gets current_process;
      put_pipe p (set_waiters o me (write_waiter o));;
      set_state me PROCESS_BLOCKED;;
      mret (Blocked _ out)
    else
      match fuel with
      | O => fault
      | S fuel =>
          x ← lift (zget (data o) (read_pos o));
          put_pipe p (set_ring o (data o) ((read_pos o + 1) `rem` psize o) (write_pos o) (pcount o - 1));;
          pipe_wake_writer p;;
          pipe_read_section fuel p count (out ++ [x])
      end
  else mret (Done _ out).

(** The loop of [pipe_write]: [total] bytes of [inp] have been stored. *)
Fixpoint pipe_write_section (fuel : nat) (p : Z) (inp : list Z) (count total : Z) : M vfs (section Z) :=
  if total <? count then
    o ← get_pipe p;
    if readers o =? 0 then mret (Done _ total) else
    if pcount o =? psize o then
      me ← gets current_process;
      put_pipe p (set_waiters o (read_waiter o) me);;
      set_state me PROCESS_BLOCKED;;
      mret (Blocked _ total)
    else
      match fuel with
      | O => fault
      | S fuel =>
          x ← lift (zget inp total);
          d ← lift (zset (data o) (write_pos o) x);
          put_pipe p (set_ring o d (read_pos o) ((write_pos o + 1) `rem` psize o) (pcount o + 1));;
          pipe_wake_reader p;;
          pipe_write_section fuel p inp count (total + 1)
      end
  else mret (Done _ total).

(** The whole calls, with [sched] for [schedule()]: whatever the other processes do until this one
    runs again.  [fuel] bounds the number of times the caller is put to sleep. *)
Fixpoint pipe_read_loop (fuel : nat) (sched : M vfs unit) (p count : Z) (out : list Z) : M vfs (list Z) :=
  r ← pipe_read_section (Z.to_nat count) p count out;
  match r with
  | Done _ out => mret out
  | Blocked _ out =>
      match fuel with
      | O => fault
      | S fuel => sched;; pipe_read_loop fuel sched p count out
      end
  end.

Definition pipe_read (fuel : nat) (sched : M vfs unit) (f : Z) (buf : bool) (count : Z) : M vfs (Z * list Z) :=
  p ← pipe_of f;
  if (p =? 0) || negb buf then mret (-1, []) else
  out ← pipe_read_loop fuel sched p count [];
  mret (zlen out, out).

Fixpoint pipe_write_loop (fuel : nat) (sched : M vfs unit) (p : Z) (inp : list Z) (count total : Z) : M vfs Z :=
  r ← pipe_write_section (Z.to_nat count) p inp count total;
  match r with
  | Done _ total => mret total
  | Blocked _ total =>
      match fuel with
      | O => fault
      | S fuel => sched;; pipe_write_loop fuel sched p inp count total
      end
  end.

Definition pipe_write (fuel : nat) (sched : M vfs unit) (f : Z) (buf : option (list Z)) (count : Z) : M vfs Z :=
  p ← pipe_of f;
  match buf with
  | None => mret (-1)
  | Some inp =>
      if p =? 0 then mret (-1) else
      total ← pipe_write_loop fuel sched p inp count 0;
      mret (if (total =? 0) && (0 <? count) then -1 else total)
  end.

Definition pipe_close_read (f : Z) : M vfs Z :=
  p ← pipe_of f;
  if p =? 0 then mret 0 else
  o ← get_pipe p;
  put_pipe p (set_ends o (readers o - 1) (writers o));;
  pipe_wake_writer p;;
  pipe_free_if_orphaned p;;
  mret 0.

Definition pipe_close_write (f : Z) : M vfs Z :=
  p ← pipe_of f;
  if p =? 0 then mret 0 else
  o ← get_pipe p;
  put_pipe p (set_ends o (readers o) (writers o - 1));;
  pipe_wake_reader p;;
  pipe_free_if_orphaned p;;
  mret 0.

(** * Operations on descriptors *)

(** Operations of the file systems behind the VFS, arguments of the model. *)
Record fs_ops := {
  fs_read : Z -> Z -> bool -> Z -> M vfs (Z * list Z);
  fs_write : Z -> Z -> option (list Z) -> Z -> M vfs Z;
  fs_seek : Z -> Z -> Z -> Z -> M vfs Z;
  fs_close : Z -> Z -> M vfs Z;
  fs_readdir : Z -> Z -> Z -> M vfs Z;     (* inode operations, inode, index *)
}.
Context (fs : fs_ops) (sched : M vfs unit).

(** The file behind [fd], 0 when it is not open. *)
Definition fd_file (n : Z) : M vfs Z :=
  if (n <? 0) || (MAX_FD_PER_PROCESS <=? n) then mret 0 else
  c ← gets current_fd_table;
  if c =? 0 then mret 0 else cur_file n.

Definition vfs_poll_check (n events : Z) : M vfs (Z * Z) :=
  f ← fd_file n;
  if f =? 0 then mret (-1, 0) else
  o ← get_file f;
  let pin := negb (Z.land events 1 =? 0) in
  let pout := negb (Z.land events 2 =? 0) in
  match fops o with
  | pipe_read_fops =>
      p ← pipe_of f;
      if p =? 0 then mret (0, 0) else
      q ← get_pipe p;
      mret (0, if pin && ((0 <? pcount q) || (writers q =? 0)) then 1 else 0)
  | pipe_write_fops =>
      p ← pipe_of f;
      if p =? 0 then mret (0, 0) else
      q ← get_pipe p;
      mret (0, if pout && ((pcount q <? psize q) || (readers q =? 0)) then 2 else 0)
  | console_fops =>
      h ← console_input_has_data;
      mret (0, Z.lor (if pin && h then 1 else 0) (if pout then 2 else 0))
  | _ => mret (0, Z.lor (if pin then 1 else 0) (if pout then 2 else 0))
  end.

Definition vfs_dup_fd (f : Z) : M vfs unit :=
  if f =? 0 then mret tt else
  o ← get_file f;
  if finode o =? 0 then mret tt else
  i ← get_inode (finode o);
  put_inode (finode o) (mk_inode (ino i) (type i) (size i) (u32 (ref_count i + 1)) (private_data i) (iops i));;
  if bool_decide (type i = FT_PIPE) && negb (private_data i =? 0) then
    p ← get_pipe (private_data i);
    match fops o with
    | pipe_read_fops => put_pipe (private_data i) (set_ends p (readers p + 1) (writers p))
    | pipe_write_fops => put_pipe (private_data i) (set_ends p (readers p) (writers p + 1))
    | _ => mret tt
    end
  else mret tt.

(** [f->ops->close(f)], where there is one. *)
Definition close_op (f : Z) (o : file_ops) : M vfs unit :=
  match o with
  | no_ops => mret tt
  | console_fops => mret tt
  | pipe_read_fops => pipe_close_read f;; mret tt
  | pipe_write_fops => pipe_close_write f;; mret tt
  | fs_fops k => fs_close fs k f;; mret tt
  end.

Definition vfs_close (n : Z) : M vfs Z :=
  f ← fd_file n;
  if f =? 0 then mret (-1) else
  o ← get_file f;
  close_op f (fops o);;
  o ← get_file f;
  last_ref ← (if finode o =? 0 then mret true else
    i ← get_inode (finode o);
    let rc := u32 (ref_count i - 1) in
    put_inode (finode o) (mk_inode (ino i) (type i) (size i) rc (private_data i) (iops i));;
    if rc <=? 0 then kfree (finode o);; mret true else mret false);
  (if (last_ref : bool) then free_file f else mret tt);;
  set_cur_file n 0 (-1);;
  mret 0.

Definition vfs_pipe : M vfs (Z * (Z * Z)) :=
  c ← gets current_fd_table;
  if c =? 0 then mret (-1, (0, 0)) else
  p ← kmalloc sizeof_pipe;
  if p =? 0 then mret (-1, (0, 0)) else
  b ← kmalloc PIPE_BUF_SIZE;
  if b =? 0 then kfree p;; mret (-1, (0, 0)) else
  put_pipe p (mk_pipe b (replicate (Z.to_nat PIPE_BUF_SIZE) 0) PIPE_BUF_SIZE 0 0 0 1 1 0 0);;
  read_fd ← alloc_fd;
  rf ← (if 0 <=? read_fd then alloc_file else mret 0);
  if rf =? 0 then kfree b;; kfree p;; mret (-1, (0, 0)) else
  n ← next_dev_inode;
  i ← vfs_create_inode n FT_PIPE 0 p;
  put_file rf (mk_file read_fd i 0 O_RDONLY pipe_read_fops);;
  set_cur_file read_fd rf 1;;
  write_fd ← alloc_fd;
  wf ← (if 0 <=? write_fd then alloc_file else mret 0);
  if wf =? 0 then vfs_close read_fd;; mret (-1, (0, 0)) else
  n ← next_dev_inode;
  i ← vfs_create_inode n FT_PIPE 0 p;
  put_file wf (mk_file write_fd i 0 O_WRONLY pipe_write_fops);;
  set_cur_file write_fd wf 1;;
  mret (0, (read_fd, write_fd)).

Definition vfs_dup2 (oldfd newfd : Z) : M vfs Z :=
  c ← gets current_fd_table;
  if c =? 0 then mret (-1) else
  if (oldfd <? 0) || (MAX_FD_PER_PROCESS <=? oldfd) then mret (-1) else
  if (newfd <? 0) || (MAX_FD_PER_PROCESS <=? newfd) then mret (-1) else
  f ← cur_file oldfd;
  if f =? 0 then mret (-1) else
  if oldfd =? newfd then mret newfd else
  g ← cur_file newfd;
  (if negb (g =? 0) then vfs_close newfd;; mret tt else mret tt);;
  f ← cur_file oldfd;
  vfs_dup_fd f;;
  set_cur_file newfd f 1;;
  mret newfd.

Definition vfs_open_console (flags : Z) : M vfs Z :=
  n ← alloc_fd;
  if n <? 0 then mret (-1) else
  f ← alloc_file;
  if f =? 0 then mret (-1) else
  c ← next_dev_inode;
  i ← vfs_create_inode c FT_CHARDEV 0 0;
  put_file f (mk_file n i 0 flags console_fops);;
  set_cur_file n f 1;;
  mret n.

Fixpoint console_input_read (fuel : nat) (max : Z) : M vfs (list Z) :=
  r ← console_input_round max;
  match r with
  | Some out => mret out
  | None => match fuel with O => fault | S fuel => sched;; console_input_read fuel max end
  end.

Definition console_read (fuel : nat) (buf : bool) (count : Z) : M vfs (Z * list Z) :=
  if negb buf || (count =? 0) then mret (0, []) else
  out ← console_input_read fuel (i32 count); mret (zlen out, out).

Definition vfs_read (fuel : nat) (n : Z) (buf : bool) (count : Z) : M vfs (Z * list Z) :=
  f ← fd_file n;
  if f =? 0 then mret (-1, []) else
  o ← get_file f;
  match fops o with
  | console_fops => console_read fuel buf count
  | pipe_read_fops => pipe_read fuel sched f buf count
  | fs_fops k => fs_read fs k f buf count
  | _ => mret (-1, [])
  end.

Definition vfs_write (fuel : nat) (n : Z) (buf : option (list Z)) (count : Z) : M vfs Z :=
  f ← fd_file n;
  if f =? 0 then mret (-1) else
  o ← get_file f;
  match fops o with
  | console_fops => console_write buf count
  | pipe_write_fops => pipe_write fuel sched f buf count
  | fs_fops k => fs_write fs k f buf count
  | _ => mret (-1)
  end.

Definition vfs_seek (n offset whence : Z) : M vfs Z :=
  f ← fd_file n;
  if f =? 0 then mret (-1) else
  o ← get_file f;
  match fops o with
  | fs_fops k => fs_seek fs k f offset whence
  | _ => mret (-1)
  end.

Definition vfs_readdir (n : Z) : M vfs Z :=
  f ← fd_file n;
  if f =? 0 then mret (-1) else
  o ← get_file f;
  if finode o =? 0 then mret (-1) else
  i ← get_inode (finode o);
  if negb (bool_decide (type i = FT_DIRECTORY)) then mret (-1) else
  if iops i =? 0 then mret (-1) else
  r ← fs_readdir fs (iops i) (finode o) (i32 (offset o));
  (if 0 <? r then o ← get_file f; put_file f (mk_file (fd o) (finode o) (u32 (offset o + 1)) (fflags o) (fops o)) else mret tt);;
  mret r.

(** One of the three standard files. *)
Definition std_file (n inum flags : Z) : M vfs Z :=
  f ← alloc_file;
  if f =? 0 then mret 0 else
  i ← vfs_create_inode inum FT_CHARDEV 0 0;
  put_file f (mk_file n i 0 flags console_fops);;
  mret f.

Definition vfs_init_fd_table (t : Z) : M vfs unit :=
  if t =? 0 then mret tt else
  saved ← gets current_fd_table;
  modify (set_current t);;
  put_cur (mk_table (replicate (Z.to_nat MAX_FD_PER_PROCESS) 0) 0);;
  f0 ← std_file 0 101 O_RDONLY;
  f1 ← std_file 1 102 O_WRONLY;
  f2 ← std_file 2 103 O_WRONLY;
  set_cur_file 0 f0 0;; set_cur_file 1 f1 0;; set_cur_file 2 f2 3;;
  modify (set_current saved).

Definition vfs_init : M vfs unit :=
  modify (set_ftable (replicate (Z.to_nat MAX_FILES_SYSTEM) 0));;
  c ← gets current_fd_table;
  vfs_init_fd_table c.

(** The descriptor part of [free_process_resources] and of [process_fork] (process.c): close
    everything in table [t]. *)
Definition close_all (t : Z) : M vfs unit :=
  saved ← gets current_fd_table;
  modify (set_current t);;
  for_range (R := unit) 0 MAX_FD_PER_PROCESS (fun i =>
    f ← cur_file i;
    (if f =? 0 then mret tt else vfs_close i;; mret tt);;
    mret None);;
  modify (set_current saved).

(** [process_fork]: the child's table [c] becomes a copy of the parent's [t]. *)
Definition fork_fds (t c : Z) : M vfs unit :=
  close_all c;;
  tb ← (fun s => match tables s !! t with Some x => Some (x, s) | None => None end);
  modify (fun s => set_tables (<[c := tb]> (tables s)) s);;
  for_range (R := unit) 0 MAX_FD_PER_PROCESS (fun i =>
    f ← lift (zget (files tb) i);
    (if f =? 0 then mret tt else vfs_dup_fd f);;
    mret None);;
  mret tt.

(** * Paths: the mounted file systems, asked in turn, before LufiraFS *)

Definition path : Type := list Z.
Definition dev_console : path := [0x2F; 0x64; 0x65; 0x76; 0x2F; 0x63; 0x6F; 0x6E; 0x73; 0x6F; 0x6C; 0x65].
Definition console_name : path := [0x63; 0x6F; 0x6E; 0x73; 0x6F; 0x6C; 0x65].

(** -2 (0 for [lookup]): the path is not below this mount. *)
Record mount := {
  m_open : path -> Z -> M vfs Z;
  m_mkdir : path -> M vfs Z;
  m_unlink : path -> M vfs Z;
  m_lookup : path -> M vfs Z;
}.
Record lufirafs := {
  l_open : path -> Z -> M vfs Z;
  l_create : path -> M vfs Z;
  l_mkdir : path -> M vfs Z;
  l_unlink : path -> M vfs Z;
  l_lookup : path -> M vfs Z;
  l_get_root : M vfs Z;
  l_open_at : Z -> path -> Z -> M vfs Z;
  l_create_at : Z -> path -> M vfs Z;
  l_mkdir_at : Z -> path -> M vfs Z;
  l_unlink_at : Z -> path -> M vfs Z;
  l_lookup_at : Z -> path -> M vfs Z;
}.
Context (fat ramfs ext2 exfat : mount) (lufira : lufirafs).

(** [!path || !*path], [path[0] == '/'] *)
Definition no_path (p : path) : bool := match p with [] => true | _ => false end.
Definition absolute (p : path) : bool := match p with c :: _ => c =? 0x2F | [] => false end.
Definition is_console (p : path) : bool := bool_decide (p = dev_console) || bool_decide (p = console_name).

Definition vfs_open (p : path) (flags : Z) : M vfs Z :=
  if no_path p then mret (-1) else
  r ← m_open fat p flags; if negb (r =? -2) then mret r else
  r ← m_open ramfs p flags; if negb (r =? -2) then mret r else
  r ← m_open ext2 p flags; if negb (r =? -2) then mret r else
  r ← m_open exfat p flags; if negb (r =? -2) then mret r else
  r ← l_open lufira p flags;
  if 0 <=? r then mret r else
  if negb (Z.land flags O_CREAT =? 0) then
    c ← l_create lufira p;
    if negb (c =? 0) then mret (-1) else l_open lufira p flags
  else if is_console p then vfs_open_console flags else mret (-1).

Definition vfs_open_at (base : Z) (p : path) (flags : Z) : M vfs Z :=
  if no_path p then mret (-1) else
  let rest :=
    r ← l_open_at lufira base p flags;
    if 0 <=? r then mret r else
    if negb (Z.land flags O_CREAT =? 0) then
      c ← l_create_at lufira base p;
      if negb (c =? 0) then mret (-1) else l_open_at lufira base p flags
    else if is_console p then vfs_open_console flags else mret (-1) in
  if absolute p then
    r ← m_open fat p flags; if negb (r =? -2) then mret r else
    r ← m_open ramfs p flags; if negb (r =? -2) then mret r else
    r ← m_open ext2 p flags; if negb (r =? -2) then mret r else
    r ← m_open exfat p flags; if negb (r =? -2) then mret r else rest
  else rest.

(** [fd < 0 ? -1 : (vfs_close(fd), 0)] *)
Definition close_created (r : Z) : M vfs Z := if r <? 0 then mret (-1) else vfs_close r;; mret 0.

Definition vfs_create (p : path) : M vfs Z :=
  if no_path p then mret (-1) else
  let flags := Z.lor O_CREAT O_RDONLY in
  r ← m_open fat p flags; if negb (r =? -2) then close_created r else
  r ← m_open ramfs p flags; if negb (r =? -2) then close_created r else
  r ← m_open ext2 p flags; if negb (r =? -2) then close_created r else
  r ← m_open exfat p flags; if negb (r =? -2) then close_created r else
  l_create lufira p.

Definition vfs_create_at (base : Z) (p : path) : M vfs Z :=
  if no_path p then mret (-1) else
  let flags := Z.lor O_CREAT O_RDONLY in
  if absolute p then
    r ← m_open fat p flags; if negb (r =? -2) then close_created r else
    r ← m_open ramfs p flags; if negb (r =? -2) then close_created r else
    r ← m_open ext2 p flags; if negb (r =? -2) then close_created r else
    r ← m_open exfat p flags; if negb (r =? -2) then close_created r else
    l_create_at lufira base p
  else l_create_at lufira base p.

Definition vfs_mkdir (p : path) : M vfs Z :=
  if no_path p then mret (-1) else
  r ← m_mkdir fat p; if negb (r =? -2) then mret r else
  r ← m_mkdir ramfs p; if negb (r =? -2) then mret r else
  r ← m_mkdir ext2 p; if negb (r =? -2) then mret r else
  r ← m_mkdir exfat p; if negb (r =? -2) then mret r else
  l_mkdir lufira p.

Definition vfs_mkdir_at (base : Z) (p : path) : M vfs Z :=
  if no_path p then mret (-1) else
  if absolute p then
    r ← m_mkdir fat p; if negb (r =? -2) then mret r else
    r ← m_mkdir ramfs p; if negb (r =? -2) then mret r else
    r ← m_mkdir ext2 p; if negb (r =? -2) then mret r else
    r ← m_mkdir exfat p; if negb (r =? -2) then mret r else
    l_mkdir_at lufira base p
  else l_mkdir_at lufira base p.

Definition vfs_unlink (p : path) : M vfs Z :=
  if no_path p then mret (-1) else
  r ← m_unlink fat p; if negb (r =? -2) then mret r else
  r ← m_unlink ramfs p; if negb (r =? -2) then mret r else
  r ← m_unlink ext2 p; if negb (r =? -2) then mret r else
  r ← m_unlink exfat p; if negb (r =? -2) then mret r else
  l_unlink lufira p.

(** The source repeats the body of [vfs_unlink]. *)
Definition vfs_rmdir (p : path) : M vfs Z := vfs_unlink p.

Definition vfs_unlink_at (base : Z) (p : path) : M vfs Z :=
  if no_path p then mret (-1) else
  if absolute p then
    r ← m_unlink fat p; if negb (r =? -2) then mret r else
    r ← m_unlink ramfs p; if negb (r =? -2) then mret r else
    r ← m_unlink ext2 p; if negb (r =? -2) then mret r else
    r ← m_unlink exfat p; if negb (r =? -2) then mret r else
    l_unlink_at lufira base p
  else l_unlink_at lufira base p.

(** The source repeats the body of [vfs_unlink_at]. *)
Definition vfs_rmdir_at (base : Z) (p : path) : M vfs Z := vfs_unlink_at base p.

Definition vfs_lookup (p : path) : M vfs Z :=
  if no_path p then mret 0 else
  i ← m_lookup fat p; if negb (i =? 0) then mret i else
  i ← m_lookup ramfs p; if negb (i =? 0) then mret i else
  i ← m_lookup ext2 p; if negb (i =? 0) then mret i else
  i ← m_lookup exfat p; if negb (i =? 0) then mret i else
  l_lookup lufira p.

Definition vfs_lookup_at (base : Z) (p : path) : M vfs Z :=
  if no_path p then mret 0 else
  if absolute p then
    i ← m_lookup fat p; if negb (i =? 0) then mret i else
    i ← m_lookup ramfs p; if negb (i =? 0) then mret i else
    i ← m_lookup ext2 p; if negb (i =? 0) then mret i else
    i ← m_lookup exfat p; if negb (i =? 0) then mret i else
    l_lookup_at lufira base p
  else l_lookup_at lufira base p.

Definition vfs_get_root : M vfs Z := l_get_root lufira.

(** * The console protocol *)

(** The bytes that ask for an operation, and the operations that have such bytes. *)
Definition encode (o : console_op) : list Z :=
  match o with
  | PutChar c => [c]
  | Foreground c => [0x1B; 0x66; c]
  | Background c => [0x1B; 0x62; c]
  | CursorTo x y => [0x1B; 0x70; x / 256; x mod 256; y / 256; y mod 256]
  | ClearScreen => [0x1B; 0x63]
  | CursorLeft => [0x1B; 0x6C]
  | CursorRight => [0x1B; 0x72]
  end.

Definition encodable (o : console_op) : Prop :=
  match o with
  | PutChar c => 0 < c < 256 /\ c <> 0x1B
  | Foreground c | Background c => 0 <= c < 256
  | CursorTo x y => 0 <= x < 65536 /\ 0 <= y < 65536
  | _ => True
  end.

Lemma be16 x : 0 <= x < 65536 -> Z.lor (Z.shiftl (x / 256) 8) (x mod 256) = x.
Proof.
  intros Hx. rewrite <- Z.add_nocarry_lor.
  - rewrite Z.shiftl_mul_pow2 by lia. change (2 ^ 8) with 256. pose proof (Z.div_mod x 256 ltac:(lia)). lia.
  - apply Z.bits_inj_0. intros i. rewrite Z.land_spec. destruct (Z.ltb_spec i 0); [by rewrite Z.testbit_neg_r|].
    rewrite Z.shiftl_spec by done. destruct (Z.ltb_spec i 8); [by rewrite Z.testbit_neg_r by lia|].
    change 256 with (2 ^ 8). rewrite (Z.mod_pow2_bits_high x 8 i) by lia. apply andb_false_r.
Qed.

Lemma emit_run {A} o (k : M vfs A) s : (emit o;; k) s = k (set_screen (if_flag s) (screen s ++ [o]) s).
Proof. done. Qed.

Lemma lift_run {A B} (o : option A) (a : A) (k : A -> M vfs B) s : o = Some a -> (x ← lift o; k x) s = k a s.
Proof. by intros ->. Qed.

Ltac console_byte Hget k :=
  erewrite lift_run by (apply (Hget k); unfold zlen; simpl; lia); cbv beta;
  repeat match goal with |- context [Z.eqb (Zpos ?a) (Zpos ?b)] =>
    let v := eval cbv in (Z.eqb (Zpos a) (Zpos b)) in change (Z.eqb (Zpos a) (Zpos b)) with v end;
  cbn [andb]; cbv iota.

(** One round on the encoding of [o] at position [i]. *)
Lemma console_round fuel o pre rest count i w s : encodable o -> zlen pre = i ->
  count = zlen (pre ++ encode o ++ rest) ->
  console_loop (S fuel) (pre ++ encode o ++ rest) count i w s =
  console_loop fuel (pre ++ encode o ++ rest) count (i + zlen (encode o)) (w + zlen (encode o))
    (set_screen (if_flag s) (screen s ++ [o]) s).
Proof.
  intros He Hi Hc. set (str := pre ++ encode o ++ rest) in *.
  assert (forall k, 0 <= k < zlen (encode o) -> zget str (i + k) = zget (encode o) k) as Hget.
  { intros k Hk. unfold str. rewrite zget_app_r by lia. rewrite zget_app_l by lia. f_equal. lia. }
  assert (i + zlen (encode o) <= count) as Hle by (rewrite Hc; unfold str; rewrite !zlen_app; pose proof (zlen_nonneg rest); lia).
  assert (0 < zlen (encode o)) as Hpos by by destruct o.
  cbn [console_loop]. rewrite (proj2 (Z.leb_gt count i)) by lia.
  pose proof (Hget 0 ltac:(lia)) as H0. rewrite Z.add_0_r in H0.
  destruct o as [c|c|c|x y| | |]; cbn [encode] in *; unfold zlen in Hle, Hpos; simpl in Hle, Hpos;
    (erewrite lift_run by exact H0); cbv beta; change (27 =? 0) with false; change (27 =? 27) with true; cbn [andb]; cbv iota;
    try rewrite (proj2 (Z.ltb_lt (i + 1) count)) by lia; cbv iota.
  - destruct He as [He Hne]. rewrite (proj2 (Z.eqb_neq c 0)), (proj2 (Z.eqb_neq c 27)) by lia. cbn [andb]. apply emit_run.
  - console_byte Hget 1. rewrite (proj2 (Z.ltb_lt (i + 2) count)) by lia. console_byte Hget 2. apply emit_run.
  - console_byte Hget 1. rewrite (proj2 (Z.ltb_lt (i + 2) count)) by lia. console_byte Hget 2. apply emit_run.
  - console_byte Hget 1. rewrite (proj2 (Z.ltb_lt (i + 5) count)) by lia. console_byte Hget 2. console_byte Hget 3.
    console_byte Hget 4. console_byte Hget 5. destruct He. rewrite !be16 by done. apply emit_run.
  - console_byte Hget 1. apply emit_run.
  - console_byte Hget 1. apply emit_run.
  - console_byte Hget 1. apply emit_run.
Qed.

Lemma console_loop_ops ops : forall fuel pre rest count i w s,
  Forall encodable ops -> zlen pre = i -> (rest = [] \/ head rest = Some 0) ->
  count = zlen (pre ++ concat (encode <$> ops) ++ rest) -> (length (concat (encode <$> ops)) < fuel)%nat ->
  console_loop fuel (pre ++ concat (encode <$> ops) ++ rest) count i w s =
  Some (w + zlen (concat (encode <$> ops)), set_screen (if_flag s) (screen s ++ ops) s).
Proof.
  induction ops as [|o ops IH]; intros fuel pre rest count i w s He Hi Hrest Hc Hf.
  - destruct fuel as [|fuel]; [simpl in Hf; lia|]. cbn [fmap list_fmap concat app console_loop] in *.
    assert (console_loop (S fuel) (pre ++ rest) count i w s = Some (w, s)) as E.
    { cbn [console_loop]. destruct Hrest as [->|Hr].
      - rewrite (proj2 (Z.leb_le count i)); [done|]. rewrite Hc, zlen_app. unfold zlen in *. simpl. lia.
      - destruct rest as [|x rest]; [done|]. injection Hr as ->.
        rewrite (proj2 (Z.leb_gt count i)) by (rewrite Hc, zlen_app; unfold zlen in *; simpl; lia).
        erewrite lift_run; [|rewrite zget_app_r by lia; replace (i - zlen pre) with 0 by lia; reflexivity]. done. }
    cbn [console_loop] in E. rewrite E. unfold zlen. simpl. rewrite Z.add_0_r, app_nil_r. by destruct s.
  - apply Forall_cons in He as [Ho He]. cbn [fmap list_fmap concat] in *. rewrite <- app_assoc in *.
    destruct fuel as [|fuel]; [simpl in Hf; lia|]. rewrite (console_round fuel o pre _ count i w s Ho Hi Hc).
    rewrite length_app in Hf. assert (0 < length (encode o))%nat by (destruct o; simpl; lia).
    rewrite app_assoc in Hc |- *.
    rewrite (IH fuel (pre ++ encode o) rest count); [|done|rewrite zlen_app; lia|done|done|lia].
    rewrite (zlen_app (encode o)), Z.add_assoc. unfold set_screen; cbn. by rewrite <- app_assoc.
Qed.

(** The console protocol round trips: a buffer that holds the encodings of a list of operations
    (printable characters, colours, cursor positions as big-endian pairs, clear and cursor moves)
    makes [console_write] perform exactly those operations in order and return the number of bytes
    they take, up to the end of the buffer or a NUL byte, with the interrupt flag as it was. *)
Theorem console_write_roundtrip ops rest s : Forall encodable ops -> (rest = [] \/ head rest = Some 0) ->
  let str := concat (encode <$> ops) ++ rest in
  console_write (Some str) (zlen str) s =
  Some (zlen (concat (encode <$> ops)), set_screen (if_flag s) (screen s ++ ops) s).
Proof.
  intros He Hrest str. unfold console_write. destruct (Z.eqb_spec (zlen str) 0) as [E|E].
  - unfold str, zlen in E. rewrite length_app in E.
    assert (ops = []) as -> by (destruct ops as [|[] ?]; [done|simpl in E; lia..]).
    unfold zlen. simpl. rewrite app_nil_r. by destruct s.
  - erewrite bind_Some by done. cbv beta.
    erewrite bind_Some; [|apply (console_loop_ops ops _ [] rest (zlen str) 0 0); [done|done|done|done|]].
    + done.
    + unfold str, zlen. rewrite length_app. lia.
Qed.
End vfs.

(** Red text, a move of the cursor, a clear: written up to the NUL. *)
Lemma console_write_witness (HS := unit) :
  let s := mk_vfs (HS := HS) ∅ ∅ ∅ tt [] ∅ 0 ∅ 0 0 true [] [] 0 0 0 in
  console_write (Some (concat (encode <$> [Foreground 4; PutChar 0x41; CursorTo 300 2; ClearScreen]) ++ [0; 0x42])) 14 s =
  Some (12, set_screen true [Foreground 4; PutChar 0x41; CursorTo 300 2; ClearScreen] s).
Proof.
  intros s. apply (console_write_roundtrip [Foreground 4; PutChar 0x41; CursorTo 300 2; ClearScreen] [0; 0x42] s); [|by right].
  repeat constructor; lia.
Defined.
