(* ===== verification/VfsPipe.v ===== *)
(** Pipes (vfs.c): the ring is a byte queue, readers and writers under every interleaving of their
    atomic sections exchange one stream, and sleeping ends are woken. *)

From S2P Require Import Prelude Memory Interfaces Heap Vfs.

(** * The ring as a queue *)

Record ring_rep (o : pipe) (q : list Z) : Prop := {
  rr_size : psize o = PIPE_BUF_SIZE;
  rr_data : zlen (data o) = PIPE_BUF_SIZE;
  rr_read : 0 <= read_pos o < PIPE_BUF_SIZE;
  rr_write : write_pos o = (read_pos o + zlen q) mod PIPE_BUF_SIZE;
  rr_count : pcount o = zlen q;
  rr_len : zlen q <= PIPE_BUF_SIZE;
  rr_bytes : forall k x, zget q k = Some x -> zget (data o) ((read_pos o + k) mod PIPE_BUF_SIZE) = Some x;
}.

Lemma rem_size a : 0 <= a -> a `rem` PIPE_BUF_SIZE = a mod PIPE_BUF_SIZE.
Proof. intros. by rewrite Z.rem_mod_nonneg. Qed.

Lemma size_mod a : 0 <= a mod PIPE_BUF_SIZE < PIPE_BUF_SIZE.
Proof. by apply Z.mod_pos_bound. Qed.

Definition popped (o : pipe) : pipe :=
  set_ring o (data o) ((read_pos o + 1) `rem` psize o) (write_pos o) (pcount o - 1).

Lemma ring_pop o x q : ring_rep o (x :: q) -> zget (data o) (read_pos o) = Some x /\ ring_rep (popped o) q.
Proof.
  intros [Hs Hd Hr Hw Hc Hl Hb]. rewrite zlen_cons in *. split.
  - specialize (Hb 0 x eq_refl). by rewrite Z.add_0_r, Z.mod_small in Hb.
  - assert ((read_pos o + 1) `rem` psize o = (read_pos o + 1) mod PIPE_BUF_SIZE) as E by (rewrite Hs; apply rem_size; lia).
    constructor; cbn; rewrite ?E; try done.
    + apply size_mod.
    + rewrite Hw, Zplus_mod_idemp_l. f_equal. lia.
    + lia.
    + lia.
    + intros k y Hk. rewrite Zplus_mod_idemp_l. pose proof (zget_range _ _ _ Hk).
      replace (read_pos o + 1 + k) with (read_pos o + (k + 1)) by lia. apply Hb. by rewrite zget_cons_S by lia.
Qed.

Definition pushed (o : pipe) (d : list Z) : pipe :=
  set_ring o d (read_pos o) ((write_pos o + 1) `rem` psize o) (pcount o + 1).

Lemma ring_push o q x : ring_rep o q -> zlen q < PIPE_BUF_SIZE ->
  exists d, zset (data o) (write_pos o) x = Some d /\ ring_rep (pushed o d) (q ++ [x]).
Proof.
  intros [Hs Hd Hr Hw Hc Hl Hb] Hroom. pose proof (size_mod (read_pos o + zlen q)) as Hwr. rewrite <- Hw in Hwr.
  rewrite zset_in by lia. eexists. split; [done|].
  assert ((write_pos o + 1) `rem` psize o = (write_pos o + 1) mod PIPE_BUF_SIZE) as E by (rewrite Hs; apply rem_size; lia).
  assert (zlen (q ++ [x]) = zlen q + 1) as El by by rewrite zlen_app.
  constructor; cbn; rewrite ?E, ?El; try done.
  - by rewrite zlen_insert.
  - rewrite Hw, Zplus_mod_idemp_l. f_equal. lia.
  - lia.
  - lia.
  - intros k y Hk. pose proof (zget_range _ _ _ Hk) as Hkr. rewrite El in Hkr.
    destruct (decide (k = zlen q)) as [->|Hne].
    + rewrite zget_app_r, Z.sub_diag, zget_cons_0 in Hk by lia. simplify_eq. rewrite <- Hw. apply zget_insert_eq. lia.
    + rewrite zget_app_l in Hk by lia. rewrite zget_insert_ne; [by apply Hb|lia|].
      rewrite Hw. intros Heq. apply Hne.
      assert ((read_pos o + zlen q - (read_pos o + k)) mod PIPE_BUF_SIZE = 0) as Hz.
      { rewrite Zminus_mod, <- Heq, Heq, Z.sub_diag. done. }
      rewrite Z.mod_small in Hz by lia. lia.
Qed.

Section pipes.
Context {HS : Type} `{!BlockAllocator HS}.
Implicit Types (s : vfs (HS := HS)).

(** A sleeping reader means an empty pipe that still has a writer; a sleeping writer a full pipe that
    still has a reader. *)
Definition waiters_ok s (o : pipe) : Prop :=
  (read_waiter o <> 0 -> pcount o = 0 /\ 0 < writers o /\ is_Some (procs s !! read_waiter o)) /\
  (write_waiter o <> 0 -> pcount o = psize o /\ 0 < readers o /\ is_Some (procs s !! write_waiter o)).

Record pipe_inv s (p : Z) (o : pipe) (q : list Z) : Prop := {
  pi_obj : pobjs s !! p = Some o;
  pi_ring : ring_rep o q;
  pi_ends : 0 <= readers o /\ 0 <= writers o;
  pi_wait : waiters_ok s o;
}.

(** The process that runs. *)
Definition running s : Prop := current_process s <> 0 /\ is_Some (procs s !! current_process s).

(** The scheduling states once [w], unless it is 0, has been made ready. *)
Definition woken (m : gmap Z process_state) (w : Z) : gmap Z process_state :=
  if w =? 0 then m else <[w := PROCESS_READY]> m.

Lemma woken_dom (m : gmap Z process_state) w x : (w <> 0 -> is_Some (m !! w)) -> is_Some (woken m w !! x) <-> is_Some (m !! x).
Proof.
  intros Hw. unfold woken. destruct (Z.eqb_spec w 0); [done|]. destruct (decide (x = w)) as [->|].
  - rewrite lookup_insert_eq. split; [intros _; auto|eauto].
  - by rewrite lookup_insert_ne.
Qed.

Definition with_pipe s (p : Z) (o : pipe) (m : gmap Z process_state) : vfs :=
  set_procs m (set_objs (fobjs s) (iobjs s) (<[p := o]> (pobjs s)) (kheap s) s).

Lemma wp_get_pipe Q s p o : pobjs s !! p = Some o -> Q o s -> wp (get_pipe p) Q s.
Proof. intros E HQ. unfold wp, get_pipe. by rewrite E. Qed.

Lemma wp_set_state Q s p st : is_Some (procs s !! p) -> Q tt (set_procs (<[p := st]> (procs s)) s) -> wp (set_state p st) Q s.
Proof. intros [x E] HQ. unfold wp, set_state. by rewrite E. Qed.

Lemma with_pipe_id s p o : pobjs s !! p = Some o -> with_pipe s p o (procs s) = s.
Proof. intros E. unfold with_pipe, set_procs, set_objs. cbn. rewrite insert_id by done. by destruct s. Qed.

(** [put_pipe] followed by the wake-up of the other side. *)
Lemma wp_wake_writer Q s p o : pobjs s !! p = Some o -> (write_waiter o <> 0 -> is_Some (procs s !! write_waiter o)) ->
  Q tt (with_pipe s p (set_waiters o (read_waiter o) 0) (woken (procs s) (write_waiter o))) ->
  wp (pipe_wake_writer p) Q s.
Proof.
  intros E Hw HQ. unfold pipe_wake_writer. wstep. apply (wp_get_pipe _ _ _ _ E). unfold woken in HQ.
  destruct (Z.eqb_spec (write_waiter o) 0) as [E0|E0].
  - wstep. rewrite with_pipe_id in HQ; [done|]. rewrite <- E0 at 1. rewrite E. f_equal. by destruct o.
  - wstep. apply wp_set_state; [auto|]. unfold put_pipe. apply wp_modify. exact HQ.
Qed.

Lemma wp_wake_reader Q s p o : pobjs s !! p = Some o -> (read_waiter o <> 0 -> is_Some (procs s !! read_waiter o)) ->
  Q tt (with_pipe s p (set_waiters o 0 (write_waiter o)) (woken (procs s) (read_waiter o))) ->
  wp (pipe_wake_reader p) Q s.
Proof.
  intros E Hw HQ. unfold pipe_wake_reader. wstep. apply (wp_get_pipe _ _ _ _ E). unfold woken in HQ.
  destruct (Z.eqb_spec (read_waiter o) 0) as [E0|E0].
  - wstep. rewrite with_pipe_id in HQ; [done|]. rewrite <- E0 at 1. rewrite E. f_equal. by destruct o.
  - wstep. apply wp_set_state; [auto|]. unfold put_pipe. apply wp_modify. exact HQ.
Qed.

(** Outcome of the reader's section: [k] bytes were taken from the front. *)
Definition read_outcome s (p : Z) (o : pipe) (q : list Z) (count : Z) (out : list Z)
    (r : section (list Z)) s' : Prop :=
  exists o' m, s' = with_pipe s p o' m /\ (forall x, is_Some (m !! x) <-> is_Some (procs s !! x)) /\
    readers o' = readers o /\ writers o' = writers o /\
    match r with
    | Done _ res => let k := Z.min (count - zlen out) (zlen q) in
        res = out ++ take (Z.to_nat k) q /\ pipe_inv s' p o' (drop (Z.to_nat k) q) /\
        read_waiter o' = read_waiter o /\
        (k = 0 -> m = procs s /\ o' = o) /\ (0 < k -> m = woken (procs s) (write_waiter o) /\ write_waiter o' = 0) /\
        (0 < zlen out + zlen q \/ writers o = 0 \/ count <= 0)
    | Blocked _ res => res = out /\ out = [] /\ q = [] /\ 0 < count /\ 0 < writers o /\ pipe_inv s' p o' [] /\
        read_waiter o' = current_process s /\ m = <[current_process s := PROCESS_BLOCKED]> (procs s)
    end.

Lemma with_pipe_twice s p o m o' m' : with_pipe (with_pipe s p o m) p o' m' = with_pipe s p o' m'.
Proof. unfold with_pipe, set_procs, set_objs. cbn. by rewrite insert_insert_eq. Qed.

Lemma with_pipe_at s p o m : pobjs (with_pipe s p o m) !! p = Some o.
Proof. cbn. apply lookup_insert_eq. Qed.

Lemma woken_zero (m : gmap Z process_state) : woken m 0 = m.
Proof. done. Qed.

(** The state after one byte was taken and a sleeping writer woken. *)
Lemma pop_inv s p o x q : pipe_inv s p o (x :: q) ->
  let o1 := set_waiters (popped o) (read_waiter o) 0 in
  pipe_inv (with_pipe s p o1 (woken (procs s) (write_waiter o))) p o1 q /\ read_waiter o = 0.
Proof.
  intros [Hobj Hring Hends [Hr Hw]] o1. destruct (ring_pop _ _ _ Hring) as [_ Hpop].
  assert (pcount o = zlen q + 1) as Hc by (rewrite (rr_count _ _ Hring); apply zlen_cons).
  pose proof (zlen_nonneg q). assert (read_waiter o = 0) as Hr0 by (destruct (decide (read_waiter o = 0)); [done|destruct Hr; [done|lia]]).
  split; [|done]. split; [apply with_pipe_at|by destruct Hpop|done|].
  split; unfold o1; cbn; [by rewrite Hr0|done].
Qed.

Lemma zlen_snoc {A} (l : list A) x : zlen (l ++ [x]) = zlen l + 1.
Proof. by rewrite zlen_app. Qed.

Lemma running_with s p o m : (forall x, is_Some (m !! x) <-> is_Some (procs s !! x)) -> running s -> running (with_pipe s p o m).
Proof. intros Hm [H1 H2]. split; [done|]. cbn. by apply Hm. Qed.

Lemma read_done s p o q count out : pipe_inv s p o q -> Z.min (count - zlen out) (zlen q) = 0 ->
  0 < zlen out + zlen q \/ writers o = 0 \/ count <= 0 -> read_outcome s p o q count out (Done _ out) s.
Proof.
  intros Hinv Hk Hwhy. exists o, (procs s). rewrite with_pipe_id by apply Hinv. split_and!; [done..|]. cbv zeta. rewrite Hk.
  cbn [Z.to_nat take drop]. rewrite app_nil_r. split_and!; (done || lia).
Qed.

Lemma read_blocked s p o count : pipe_inv s p o [] -> running s -> 0 < count -> 0 < writers o ->
  let o' := set_waiters o (current_process s) (write_waiter o) in
  read_outcome s p o [] count [] (Blocked _ []) (with_pipe s p o' (<[current_process s := PROCESS_BLOCKED]> (procs s))).
Proof.
  intros Hinv [H1 H2] Hc Hw o'. exists o', (<[current_process s := PROCESS_BLOCKED]> (procs s)).
  assert (forall x, is_Some (<[current_process s := PROCESS_BLOCKED]> (procs s) !! x) <-> is_Some (procs s !! x)) as Hdom.
  { intros x. destruct (decide (x = current_process s)) as [->|]; [|by rewrite lookup_insert_ne].
    rewrite lookup_insert_eq. split; [done|eauto]. }
  split_and!; try done. destruct Hinv as [Hobj Hring Hends [Hr Hww]].
  split; [apply with_pipe_at|by destruct Hring|done|].
  split; cbn; intros Hne.
  - split; [apply (rr_count _ _ Hring)|]. split; [done|]. by apply Hdom.
  - destruct (Hww Hne) as (? & ? & ?). split; [done|]. split; [done|]. by apply Hdom.
Qed.

(** One byte moved, then the rest of the section. *)
Lemma read_more s p o x q count out r s' : pipe_inv s p o (x :: q) -> zlen out < count ->
  let s1 := with_pipe s p (set_waiters (popped o) (read_waiter o) 0) (woken (procs s) (write_waiter o)) in
  read_outcome s1 p (set_waiters (popped o) (read_waiter o) 0) q count (out ++ [x]) r s' ->
  read_outcome s p o (x :: q) count out r s'.
Proof.
  intros Hinv Hlt s1 (o' & m & -> & Hm & Hr & Hw & Hres). unfold s1 in *. rewrite with_pipe_twice in *.
  exists o', m. split; [done|]. pose proof (pi_wait _ _ _ _ Hinv) as [_ Hww].
  assert (forall y, is_Some (woken (procs s) (write_waiter o) !! y) <-> is_Some (procs s !! y)) as Hdom.
  { intros y. apply woken_dom. intros Hne. apply Hww, Hne. }
  split; [intros y; rewrite Hm; cbn; apply Hdom|]. split; [done|]. split; [done|].
  destruct r as [res|res]; [|by destruct Hres as (_ & Hnil & _); destruct out].
  rewrite zlen_snoc in Hres. rewrite zlen_cons. cbv zeta in *. pose proof (zlen_nonneg q).
  set (k := Z.min (count - (zlen out + 1)) (zlen q)) in *.
  replace (Z.min (count - zlen out) (zlen q + 1)) with (k + 1) by lia. assert (0 <= k) by lia.
  replace (Z.to_nat (k + 1)) with (S (Z.to_nat k)) by lia. cbn [take drop].
  destruct Hres as (-> & Hi & Hrw & Hk0 & Hk1 & _).
  split_and!; [by rewrite <- app_assoc|done|done|intros; exfalso; lia| |pose proof (zlen_nonneg out); lia].
  intros _. destruct (decide (k = 0)) as [E|E].
  - destruct (Hk0 E) as [-> ->]. done.
  - destruct (Hk1 ltac:(lia)) as [-> ->]. done.
Qed.

Lemma pipe_read_section_outcome p count : forall fuel s o q out,
  pipe_inv s p o q -> running s -> zlen out <= count -> count - zlen out <= Z.of_nat fuel ->
  wp (pipe_read_section fuel p count out) (read_outcome s p o q count out) s.
Proof.
  assert (forall s o q out, pipe_inv s p o q -> zlen out = count -> read_outcome s p o q count out (Done _ out) s) as Hfull.
  { intros s o q out Hinv Hlen. pose proof (zlen_nonneg q). pose proof (zlen_nonneg out). apply read_done; [done|lia|lia]. }
  induction fuel as [|fuel IH]; intros s o q out Hinv Hrun Hlen Hfuel; cbn [pipe_read_section].
  { rewrite (proj2 (Z.ltb_ge _ _)) by lia. apply wp_ret, Hfull; [done|lia]. }
  destruct (Z.ltb_spec (zlen out) count) as [Hlt|Hge]; [|apply wp_ret, Hfull; [done|lia]].
  wstep. apply (wp_get_pipe _ _ _ _ (pi_obj _ _ _ _ Hinv)). pose proof (rr_count _ _ (pi_ring _ _ _ _ Hinv)) as Hcnt.
  destruct q as [|x q].
  - rewrite (proj2 (Z.eqb_eq (pcount o) 0)) by done. pose proof (pi_ends _ _ _ _ Hinv) as [_ Hw].
    destruct (Z.eqb_spec (writers o) 0) as [E|E]; [apply wp_ret, read_done; [done|unfold zlen at 2; simpl; lia|auto]|].
    pose proof (zlen_nonneg out). destruct (Z.ltb_spec 0 (zlen out)).
    { apply wp_ret, read_done; [done|unfold zlen at 2; simpl; lia|left; unfold zlen at 2; simpl; lia]. }
    assert (out = []) as -> by (destruct out; [done|unfold zlen in *; simpl in *; lia]).
    wsteps. unfold put_pipe. apply wp_modify. wstep. apply wp_set_state; [apply Hrun|]. wstep.
    apply read_blocked; (done || lia).
  - pose proof (zlen_nonneg q). rewrite zlen_cons in Hcnt. rewrite (proj2 (Z.eqb_neq (pcount o) 0)) by lia.
    destruct (ring_pop _ _ _ (pi_ring _ _ _ _ Hinv)) as [Hx _].
    wstep. eapply wp_lift; [exact Hx|]. cbv beta iota. wstep. unfold put_pipe. apply wp_modify. wstep. fold (popped o).
    apply (wp_wake_writer _ _ _ (popped o)).
    { cbn. apply lookup_insert_eq. }
    { apply (pi_wait _ _ _ _ Hinv). }
    destruct (pop_inv _ _ _ _ _ Hinv) as [Hinv1 Hr0].
    set (s1 := with_pipe _ _ _ _).
    assert (s1 = with_pipe s p (set_waiters (popped o) (read_waiter o) 0) (woken (procs s) (write_waiter o))) as Es1.
    { unfold s1, with_pipe, set_procs, set_objs. cbn. by rewrite insert_insert_eq. }
    rewrite Es1. clear s1 Es1. eapply wp_mono.
    + apply IH; [exact Hinv1| |rewrite zlen_snoc; lia|rewrite zlen_snoc; lia].
      apply running_with; [|done]. intros y. apply woken_dom. apply (pi_wait _ _ _ _ Hinv).
    + intros r s'. by apply read_more.
Qed.

(** Outcome of the writer's section: bytes [total .. total + k) of the buffer were appended. *)
Definition accepted (o : pipe) (q : list Z) (n : Z) : Z :=
  if readers o =? 0 then 0 else Z.min n (PIPE_BUF_SIZE - zlen q).

Definition slice (l : list Z) (a n : Z) : list Z := take (Z.to_nat n) (drop (Z.to_nat a) l).

Definition write_outcome s (p : Z) (o : pipe) (q inp : list Z) (count total : Z) (r : section Z) s' : Prop :=
  let k := accepted o q (count - total) in
  exists o' m, s' = with_pipe s p o' m /\ (forall x, is_Some (m !! x) <-> is_Some (procs s !! x)) /\
    readers o' = readers o /\ writers o' = writers o /\ pipe_inv s' p o' (q ++ slice inp total k) /\
    match r with
    | Done _ n => n = total + k /\ (k = 0 -> m = procs s /\ o' = o) /\
        (0 < k -> m = woken (procs s) (read_waiter o) /\ read_waiter o' = 0) /\ write_waiter o' = write_waiter o /\
        (readers o = 0 \/ n = count)
    | Blocked _ n => n = total + k /\ 0 < readers o /\ k < count - total /\ zlen q + k = PIPE_BUF_SIZE /\
        write_waiter o' = current_process s /\
        m = <[current_process s := PROCESS_BLOCKED]> (woken (procs s) (read_waiter o))
    end.

Lemma slice_0 l a : slice l a 0 = [].
Proof. done. Qed.

Lemma slice_S l a n x : 0 <= a -> 0 <= n -> zget l a = Some x -> slice l a (n + 1) = x :: slice l (a + 1) n.
Proof.
  intros Ha Hn Hx. unfold slice, zget in *. rewrite (proj2 (Z.leb_le 0 a)) in Hx by lia.
  replace (Z.to_nat (n + 1)) with (S (Z.to_nat n)) by lia. replace (Z.to_nat (a + 1)) with (S (Z.to_nat a)) by lia.
  by rewrite (drop_S _ _ _ Hx).
Qed.

Lemma write_done s p o q inp count total : pipe_inv s p o q -> accepted o q (count - total) = 0 ->
  readers o = 0 \/ total = count -> write_outcome s p o q inp count total (Done _ total) s.
Proof.
  intros Hinv Hk Hwhy. unfold write_outcome. rewrite Hk, slice_0, app_nil_r. exists o, (procs s).
  rewrite with_pipe_id by apply Hinv. split_and!; (done || lia).
Qed.

Lemma write_blocked s p o q inp count total : pipe_inv s p o q -> running s -> total < count -> 0 < readers o ->
  zlen q = PIPE_BUF_SIZE ->
  let o' := set_waiters o (read_waiter o) (current_process s) in
  write_outcome s p o q inp count total (Blocked _ total) (with_pipe s p o' (<[current_process s := PROCESS_BLOCKED]> (procs s))).
Proof.
  intros Hinv [H1 H2] Hc Hr Hfull o'. destruct Hinv as [Hobj Hring Hends [Hrw Hww]].
  assert (accepted o q (count - total) = 0) as Hk.
  { unfold accepted. rewrite (proj2 (Z.eqb_neq _ _)) by lia. lia. }
  assert (read_waiter o = 0) as Hr0.
  { destruct (decide (read_waiter o = 0)); [done|]. destruct Hrw as (Hz & _); [done|]. rewrite (rr_count _ _ Hring), Hfull in Hz. done. }
  assert (forall x, is_Some (<[current_process s := PROCESS_BLOCKED]> (procs s) !! x) <-> is_Some (procs s !! x)) as Hdom.
  { intros x. destruct (decide (x = current_process s)) as [->|]; [|by rewrite lookup_insert_ne].
    rewrite lookup_insert_eq. split; [done|eauto]. }
  unfold write_outcome. rewrite Hk, slice_0, app_nil_r, Hr0, woken_zero.
  exists o', (<[current_process s := PROCESS_BLOCKED]> (procs s)). split_and!; try (done || lia).
  split; [apply with_pipe_at|by destruct Hring|done|]. split; cbn; intros Hne; [by rewrite Hr0 in Hne|].
  split; [by rewrite (rr_count _ _ Hring), (rr_size _ _ Hring)|]. split; [done|]. by apply Hdom.
Qed.

(** The state after one byte was stored and a sleeping reader woken. *)
Lemma push_inv s p o q d x : pipe_inv s p o q -> zlen q < PIPE_BUF_SIZE -> zset (data o) (write_pos o) x = Some d ->
  let o1 := set_waiters (pushed o d) 0 (write_waiter o) in
  pipe_inv (with_pipe s p o1 (woken (procs s) (read_waiter o))) p o1 (q ++ [x]) /\ write_waiter o = 0.
Proof.
  intros [Hobj Hring Hends [Hr Hw]] Hroom Hd o1. destruct (ring_push _ _ x Hring Hroom) as (d' & Hd' & Hpush).
  assert (d' = d) as -> by congruence.
  assert (write_waiter o = 0) as Hw0.
  { destruct (decide (write_waiter o = 0)); [done|]. destruct Hw as (Hz & _); [done|].
    rewrite (rr_count _ _ Hring), (rr_size _ _ Hring) in Hz. lia. }
  split; [|done]. split; [apply with_pipe_at|by destruct Hpush|done|]. split; unfold o1; cbn; [done|by rewrite Hw0].
Qed.

Lemma write_more s p o q inp count total d x r s' : pipe_inv s p o q -> 0 <= total < count -> 0 < readers o ->
  zlen q < PIPE_BUF_SIZE -> zget inp total = Some x -> zset (data o) (write_pos o) x = Some d ->
  let o1 := set_waiters (pushed o d) 0 (write_waiter o) in
  let s1 := with_pipe s p o1 (woken (procs s) (read_waiter o)) in
  write_outcome s1 p o1 (q ++ [x]) inp count (total + 1) r s' -> write_outcome s p o q inp count total r s'.
Proof.
  intros Hinv Ht Hr Hroom Hx Hd o1 s1 (o' & m & -> & Hm & Hr' & Hw' & Hi & Hres). unfold s1 in *. rewrite with_pipe_twice in *.
  assert (accepted o1 (q ++ [x]) (count - (total + 1)) = accepted o q (count - total) - 1) as Hk.
  { unfold accepted. cbn. rewrite (proj2 (Z.eqb_neq _ _)) by lia. rewrite zlen_snoc. lia. }
  assert (1 <= accepted o q (count - total)) as Hpos.
  { unfold accepted. rewrite (proj2 (Z.eqb_neq _ _)) by lia. lia. }
  rewrite Hk in *. set (k := accepted o q (count - total)) in *.
  unfold write_outcome. fold k. exists o', m. split; [done|].
  assert (forall y, is_Some (woken (procs s) (read_waiter o) !! y) <-> is_Some (procs s !! y)) as Hdom.
  { intros y. apply woken_dom. apply (pi_wait _ _ _ _ Hinv). }
  split; [intros y; rewrite Hm; cbn; apply Hdom|]. split; [done|]. split; [done|]. split.
  { replace k with (k - 1 + 1) by lia. rewrite (slice_S inp total (k - 1) x) by (done || lia). by rewrite <- app_assoc in Hi. }
  destruct r as [n|n].
  - destruct Hres as (-> & Hk0 & Hk1 & Hww & Hwhy). split; [lia|]. split; [intros; exfalso; lia|]. split; [|split; [done|destruct Hwhy; [by left|right; lia]]].
    intros _. destruct (decide (k - 1 = 0)) as [E|E]; [by destruct (Hk0 E) as [-> ->]|]. by destruct (Hk1 ltac:(lia)) as [-> ->].
  - destruct Hres as (-> & ? & ? & Hl & ? & ->). rewrite zlen_snoc in Hl. split_and!; (done || lia).
Qed.

Lemma pipe_write_section_outcome p inp count : count <= zlen inp -> forall fuel s o q total,
  pipe_inv s p o q -> running s -> 0 <= total <= count -> count - total <= Z.of_nat fuel ->
  wp (pipe_write_section fuel p inp count total) (write_outcome s p o q inp count total) s.
Proof.
  intros Hinp.
  assert (forall s o q, pipe_inv s p o q -> write_outcome s p o q inp count count (Done _ count) s) as Hfull.
  { intros s o q Hinv. apply write_done; [done| |auto]. unfold accepted. destruct (_ =? _); [done|].
    pose proof (rr_len _ _ (pi_ring _ _ _ _ Hinv)). lia. }
  induction fuel as [|fuel IH]; intros s o q total Hinv Hrun Ht Hfuel; cbn [pipe_write_section].
  { rewrite (proj2 (Z.ltb_ge _ _)) by lia. replace total with count by lia. apply wp_ret. by apply Hfull. }
  destruct (Z.ltb_spec total count) as [Hlt|Hge]; [|replace total with count by lia; apply wp_ret; by apply Hfull].
  wstep. apply (wp_get_pipe _ _ _ _ (pi_obj _ _ _ _ Hinv)). pose proof (pi_ends _ _ _ _ Hinv) as [Hr _].
  destruct (Z.eqb_spec (readers o) 0) as [E|E].
  { apply wp_ret, write_done; [done| |auto]. unfold accepted. by rewrite E. }
  pose proof (pi_ring _ _ _ _ Hinv) as Hring. pose proof (rr_len _ _ Hring) as Hlen.
  rewrite (rr_size _ _ Hring). destruct (Z.eqb_spec (pcount o) PIPE_BUF_SIZE) as [Ef|Ef].
  - rewrite (rr_count _ _ Hring) in Ef.
    wsteps. unfold put_pipe. apply wp_modify. wstep. apply wp_set_state; [apply Hrun|]. wstep.
    apply write_blocked; (done || lia).
  - rewrite (rr_count _ _ Hring) in Ef. assert (zlen q < PIPE_BUF_SIZE) as Hroom by lia.
    destruct (zget_Some inp total) as [x Hx]; [lia|]. destruct (ring_push o q x Hring Hroom) as (d & Hd & _).
    wstep. eapply wp_lift; [exact Hx|]. cbv beta iota. wstep. eapply wp_lift; [exact Hd|]. cbv beta iota.
    wstep. unfold put_pipe. apply wp_modify. wstep. rewrite <- (rr_size _ _ Hring). fold (pushed o d).
    apply (wp_wake_reader _ _ _ (pushed o d)).
    { cbn. apply lookup_insert_eq. }
    { apply (pi_wait _ _ _ _ Hinv). }
    destruct (push_inv _ _ _ _ _ _ Hinv Hroom Hd) as [Hinv1 Hw0].
    set (s1 := with_pipe _ _ _ _).
    assert (s1 = with_pipe s p (set_waiters (pushed o d) 0 (write_waiter o)) (woken (procs s) (read_waiter o))) as Es1.
    { unfold s1, with_pipe, set_procs, set_objs. cbn. by rewrite insert_insert_eq. }
    rewrite Es1. clear s1 Es1. eapply wp_mono.
    + apply IH; [exact Hinv1| |lia|lia]. apply running_with; [|done]. intros y. apply woken_dom. apply (pi_wait _ _ _ _ Hinv).
    + intros r s'. apply write_more; (done || lia).
Qed.

(** * Interleavings *)

(** Keeping pipe [p]: its object and the set of processes. *)
Definition keeps (p : Z) s s' : Prop :=
  (forall o, pobjs s' !! p = Some o -> pobjs s !! p = Some o) /\ forall x, is_Some (procs s' !! x) <-> is_Some (procs s !! x).

Lemma keeps_refl p s : keeps p s s.
Proof. done. Qed.
Lemma keeps_trans p s1 s2 s3 : keeps p s1 s2 -> keeps p s2 s3 -> keeps p s1 s3.
Proof. intros [H1 H2] [H3 H4]. split; [auto|]. intros x. by rewrite H4, H2. Qed.

Lemma keeps_inv p s s' o q : keeps p s s' -> is_Some (pobjs s' !! p) -> pipe_inv s p o q -> pipe_inv s' p o q.
Proof.
  intros [Ho Hp] [o' Ho'] [H1 H2 H3 [H4 H5]]. pose proof (Ho _ Ho') as E. assert (o' = o) as -> by congruence.
  split; [done..|]. split; intros Hne; [destruct (H4 Hne) as (? & ? & ?)|destruct (H5 Hne) as (? & ? & ?)]; (split; [done|]; split; [done|]; by apply Hp).
Qed.

Lemma set_state_run s p st s' : set_state p st s = Some (tt, s') ->
  s' = set_procs (<[p := st]> (procs s)) s /\ forall x, is_Some (procs s' !! x) <-> is_Some (procs s !! x).
Proof.
  unfold set_state. destruct (procs s !! p) eqn:E; [|done]. intros [= <-]. split; [done|]. intros x. cbn.
  destruct (decide (x = p)) as [->|]; [rewrite lookup_insert_eq, E; split; eauto|by rewrite lookup_insert_ne].
Qed.

Lemma get_pipe_run s p o s' : get_pipe p s = Some (o, s') -> s' = s /\ pobjs s !! p = Some o.
Proof. unfold get_pipe. destruct (pobjs s !! p); [|done]. by intros [= <- <-]. Qed.

Lemma kfree_keeps p a s s' : kfree a s = Some (tt, s') -> keeps p s s' /\ pobjs s' !! a = None.
Proof.
  intros (? & s1 & E1 & E2)%bind_inv. unfold on_heap in E1. destruct (ba_release a (kheap s)) as [[[] h]|]; [|done].
  injection E1 as <- <-. injection E2 as <-. cbn. split; [|apply lookup_delete_eq]. split; [|done]. cbn. intros o. by intros [_ ?]%lookup_delete_Some.
Qed.

Lemma orphan_keeps p a s s' : pipe_free_if_orphaned a s = Some (tt, s') -> keeps p s s'.
Proof.
  intros (o & s1 & [-> _]%get_pipe_run & E)%bind_inv. destruct (_ && _); [|by injection E as <-].
  apply bind_inv in E as ([] & s2 & E1 & E2). eapply keeps_trans; eapply kfree_keeps; eauto.
Qed.

(** Waking a side of [a]: nothing but the waiter and the states. *)
Lemma wake_writer_run a s s' : pipe_wake_writer a s = Some (tt, s') ->
  exists o m, pobjs s !! a = Some o /\ s' = with_pipe s a (set_waiters o (read_waiter o) 0) m /\
    forall x, is_Some (m !! x) <-> is_Some (procs s !! x).
Proof.
  intros (o & s1 & [-> Ho]%get_pipe_run & E)%bind_inv. exists o. destruct (Z.eqb_spec (write_waiter o) 0) as [E0|E0].
  - injection E as <-. exists (procs s). split; [done|]. split; [|done]. rewrite with_pipe_id; [done|].
    rewrite Ho. f_equal. rewrite <- E0. by destruct o.
  - apply bind_inv in E as ([] & s2 & [-> Hd]%set_state_run & E). injection E as <-.
    exists (<[write_waiter o := PROCESS_READY]> (procs s)). by split.
Qed.

Lemma wake_reader_run a s s' : pipe_wake_reader a s = Some (tt, s') ->
  exists o m, pobjs s !! a = Some o /\ s' = with_pipe s a (set_waiters o 0 (write_waiter o)) m /\
    forall x, is_Some (m !! x) <-> is_Some (procs s !! x).
Proof.
  intros (o & s1 & [-> Ho]%get_pipe_run & E)%bind_inv. exists o. destruct (Z.eqb_spec (read_waiter o) 0) as [E0|E0].
  - injection E as <-. exists (procs s). split; [done|]. split; [|done]. rewrite with_pipe_id; [done|].
    rewrite Ho. f_equal. rewrite <- E0. by destruct o.
  - apply bind_inv in E as ([] & s2 & [-> Hd]%set_state_run & E). injection E as <-.
    exists (<[read_waiter o := PROCESS_READY]> (procs s)). by split.
Qed.

Lemma pipe_of_run f s a s' : pipe_of f s = Some (a, s') -> s' = s.
Proof.
  intros (o & s1 & E1 & E)%bind_inv. unfold get_file in E1. destruct (fobjs s !! f); [|done]. injection E1 as <- <-.
  destruct (_ =? _); [by injection E as <- <-|]. apply bind_inv in E as (i & s2 & E2 & E3).
  unfold get_inode in E2. destruct (iobjs s !! finode f0); [|done]. injection E2 as <- <-. by injection E3 as <- <-.
Qed.

Lemma with_pipe_keeps p a s o m : a <> p -> (forall x, is_Some (m !! x) <-> is_Some (procs s !! x)) -> keeps p s (with_pipe s a o m).
Proof. intros Hne Hm. split; [|done]. intros o'. cbn. by rewrite lookup_insert_ne. Qed.

Lemma close_read_inv p f s s' o q : pipe_inv s p o q -> 0 < readers o -> pipe_close_read f s = Some (0, s') ->
  is_Some (pobjs s' !! p) -> exists o', pipe_inv s' p o' q.
Proof.
  intros Hinv Hr (a & s1 & E1%pipe_of_run & E)%bind_inv Hs'. subst s1.
  destruct (_ =? _); [injection E as <-; eauto|].
  apply bind_inv in E as (oa & s2 & [-> Ha]%get_pipe_run & E). apply bind_inv in E as ([] & s3 & Eput & E). injection Eput as <-.
  apply bind_inv in E as ([] & s4 & (o3 & m & Ho3 & -> & Hm)%wake_writer_run & E).
  apply bind_inv in E as ([] & s5 & Ek%(orphan_keeps p) & E). injection E as <-.
  cbn in Ho3, Hm. rewrite lookup_insert_eq in Ho3. injection Ho3 as <-. destruct (decide (a = p)) as [->|Hne].
  - assert (oa = o) as -> by (pose proof (pi_obj _ _ _ _ Hinv); congruence).
    eexists. eapply keeps_inv; [exact Ek|done|]. destruct Hinv as [H1 H2 H3 [H4 H5]].
    split; [apply with_pipe_at|by destruct H2|cbn; lia|]. split; cbn; [|done].
    intros Hne. destruct (H4 Hne) as (? & ? & ?). split_and!; [done..|by apply Hm].
  - exists o. eapply keeps_inv; [|done|exact Hinv]. eapply keeps_trans; [|exact Ek].
    eapply keeps_trans; [|by apply with_pipe_keeps]. split; [|done]. intros o'. cbn. by rewrite lookup_insert_ne.
Qed.

Lemma close_write_inv p f s s' o q : pipe_inv s p o q -> 0 < writers o -> pipe_close_write f s = Some (0, s') ->
  is_Some (pobjs s' !! p) -> exists o', pipe_inv s' p o' q.
Proof.
  intros Hinv Hr (a & s1 & E1%pipe_of_run & E)%bind_inv Hs'. subst s1.
  destruct (_ =? _); [injection E as <-; eauto|].
  apply bind_inv in E as (oa & s2 & [-> Ha]%get_pipe_run & E). apply bind_inv in E as ([] & s3 & Eput & E). injection Eput as <-.
  apply bind_inv in E as ([] & s4 & (o3 & m & Ho3 & -> & Hm)%wake_reader_run & E).
  apply bind_inv in E as ([] & s5 & Ek%(orphan_keeps p) & E). injection E as <-.
  cbn in Ho3, Hm. rewrite lookup_insert_eq in Ho3. injection Ho3 as <-. destruct (decide (a = p)) as [->|Hne].
  - assert (oa = o) as -> by (pose proof (pi_obj _ _ _ _ Hinv); congruence).
    eexists. eapply keeps_inv; [exact Ek|done|]. destruct Hinv as [H1 H2 H3 [H4 H5]].
    split; [apply with_pipe_at|by destruct H2|cbn; lia|]. split; cbn; [done|].
    intros Hne. destruct (H5 Hne) as (? & ? & ?). split_and!; [done..|by apply Hm].
  - exists o. eapply keeps_inv; [|done|exact Hinv]. eapply keeps_trans; [|exact Ek].
    eapply keeps_trans; [|by apply with_pipe_keeps]. split; [|done]. intros o'. cbn. by rewrite lookup_insert_ne.
Qed.

Lemma dup_inv p f s s' o q : pipe_inv s p o q -> vfs_dup_fd f s = Some (tt, s') -> exists o', pipe_inv s' p o' q.
Proof.
  intros Hinv E. unfold vfs_dup_fd in E. destruct (f =? 0); [injection E as <-; eauto|].
  apply bind_inv in E as (fo & s1 & E1 & E). unfold get_file in E1. destruct (fobjs s !! f); [|done]. injection E1 as <- <-.
  destruct (finode _ =? 0); [injection E as <-; eauto|].
  apply bind_inv in E as (i & s2 & E2 & E). unfold get_inode in E2. destruct (iobjs s !! _); [|done]. injection E2 as <- <-.
  apply bind_inv in E as ([] & s3 & E3 & E). injection E3 as <-.
  set (s3 := set_objs _ _ _ _ _) in E. assert (pipe_inv s3 p o q) as Hinv3 by by destruct Hinv.
  clearbody s3. destruct (_ && _); [|injection E as <-; eauto].
  apply bind_inv in E as (oa & s4 & [-> Ha]%get_pipe_run & E).
  assert (forall r w, (readers oa <= r /\ writers oa <= w) ->
    put_pipe (private_data i0) (set_ends oa r w) s3 = Some (tt, s') -> exists o', pipe_inv s' p o' q) as Hput.
  { intros r w Hge [= <-]. destruct (decide (private_data i0 = p)) as [Ep|Hne].
    - rewrite Ep in *. assert (oa = o) as -> by (pose proof (pi_obj _ _ _ _ Hinv3); congruence).
      eexists. destruct Hinv3 as [H1 H2 H3 [H4 H5]].
      split; [cbn; apply lookup_insert_eq|by destruct H2|cbn; lia|]. split; cbn; intros Hne.
      + destruct (H4 Hne) as (? & ? & ?). split_and!; [done|lia|done].
      + destruct (H5 Hne) as (? & ? & ?). split_and!; [done|lia|done].
    - exists o. destruct Hinv3 as [H1 H2 H3 H4]. split; [cbn; by rewrite lookup_insert_ne|done..]. }
  destruct (fops f0); [injection E as <-; eauto..| | |injection E as <-; eauto]; by eapply Hput; [|exact E]; lia.
Qed.

(** The state, all bytes ever stored and all bytes ever handed out. *)
Record stream := mk_stream { kern : vfs (HS := HS); wrote : list Z; got : list Z }.

Definition run_as (x : Z) s : vfs :=
  mk_vfs (fobjs s) (iobjs s) (pobjs s) (kheap s) (file_table s) (tables s) (current_fd_table s) (procs s) x
    (dev_inode_counter s) (if_flag s) (screen s) (console_input_buf s) (console_input_head s) (console_input_count s) (console_input_waiter s).

Definition result {A} (r : section A) : A := match r with Done _ a => a | Blocked _ a => a end.

(** Any process may run any atomic section on pipe [p], start or go on reading ([out] so far) or
    writing ([total] bytes so far), share or close an end, and the states of processes may change. *)
Inductive pipe_step (p : Z) : stream -> stream -> Prop :=
| step_run s x w g : x <> 0 -> is_Some (procs s !! x) -> pipe_step p (mk_stream s w g) (mk_stream (run_as x s) w g)
| step_states s m w g : (forall x, is_Some (m !! x) <-> is_Some (procs s !! x)) ->
    pipe_step p (mk_stream s w g) (mk_stream (set_procs m s) w g)
| step_read s count out r s' w g : running s -> zlen out <= count ->
    pipe_read_section (Z.to_nat count) p count out s = Some (r, s') ->
    pipe_step p (mk_stream s w g) (mk_stream s' w (g ++ drop (length out) (result r)))
| step_write s inp count total r s' w g : running s -> 0 <= total <= count -> count <= zlen inp ->
    pipe_write_section (Z.to_nat count) p inp count total s = Some (r, s') ->
    pipe_step p (mk_stream s w g) (mk_stream s' (w ++ slice inp total (result r - total)) g)
| step_dup s f s' w g : vfs_dup_fd f s = Some (tt, s') -> pipe_step p (mk_stream s w g) (mk_stream s' w g)
| step_close_read s o f s' w g : pobjs s !! p = Some o -> 0 < readers o -> pipe_close_read f s = Some (0, s') ->
    is_Some (pobjs s' !! p) -> pipe_step p (mk_stream s w g) (mk_stream s' w g)
| step_close_write s o f s' w g : pobjs s !! p = Some o -> 0 < writers o -> pipe_close_write f s = Some (0, s') ->
    is_Some (pobjs s' !! p) -> pipe_step p (mk_stream s w g) (mk_stream s' w g).

Definition stream_inv (p : Z) (x : stream) : Prop := exists o q, pipe_inv (kern x) p o q /\ wrote x = got x ++ q.

Lemma slice_all l a n m : n = m -> slice l a n = slice l a m.
Proof. by intros ->. Qed.

Lemma pipe_step_inv p x y : stream_inv p x -> pipe_step p x y -> stream_inv p y.
Proof.
  intros (o & q & Hinv & Hw) Hstep. destruct Hstep as [s a w g|s m w g Hm|s count out r s' w g Hrun Hc E|s inp count total r s' w g Hrun Ht Hc E
    |s f s' w g E|s o' f s' w g Ho Hr E Hs|s o' f s' w g Ho Hr E Hs]; cbn in *.
  - exists o, q. split; [|done]. by destruct Hinv.
  - exists o, q. split; [|done]. eapply (keeps_inv p s); [by split| |done]. cbn. exists o. apply Hinv.
  - pose proof (zlen_nonneg out).
    pose proof (wp_run _ _ _ _ _ (pipe_read_section_outcome p count (Z.to_nat count) s o q out Hinv Hrun Hc ltac:(lia)) E)
      as (o' & m & _ & _ & _ & _ & Hres).
    destruct r as [res|res]; cbn [result].
    + destruct Hres as (-> & Hi & _). eexists o', _. split; [exact Hi|]. cbn. rewrite drop_app_length, Hw, <- app_assoc, take_drop. done.
    + destruct Hres as (-> & -> & -> & _ & _ & Hi & _). exists o', []. split; [done|]. cbn. by rewrite Hw, !app_nil_r.
  - pose proof (wp_run _ _ _ _ _ (pipe_write_section_outcome p inp count Hc (Z.to_nat count) s o q total Hinv Hrun Ht ltac:(lia)) E)
      as (o' & m & _ & _ & _ & _ & Hi & Hres).
    exists o', (q ++ slice inp total (accepted o q (count - total))). split; [done|]. cbn.
    assert (result r - total = accepted o q (count - total)) as -> by (destruct r; cbn; destruct Hres as [-> _]; lia).
    by rewrite Hw, app_assoc.
  - destruct (dup_inv p f s s' o q Hinv E) as [o' H']. by exists o', q.
  - assert (o' = o) as -> by (pose proof (pi_obj _ _ _ _ Hinv); congruence).
    destruct (close_read_inv p f s s' o q Hinv Hr E Hs) as [o'' H']. by exists o'', q.
  - assert (o' = o) as -> by (pose proof (pi_obj _ _ _ _ Hinv); congruence).
    destruct (close_write_inv p f s s' o q Hinv Hr E Hs) as [o'' H']. by exists o'', q.
Qed.

Lemma stream_reachable_inv p x y : stream_inv p x -> rtc (pipe_step p) x y -> stream_inv p y.
Proof. intros Hx Hr. induction Hr as [|x y z Hxy _ IH]; [done|]. eauto using pipe_step_inv. Qed.

(** C11: A pipe is one stream, and no sleeper is forgotten: under every interleaving of the atomic
    sections of readers and writers, of shared and closed ends, the bytes handed out are a prefix of
    the bytes stored, in order and without loss; at most 4096 are in flight; a registered reader
    sleeps only on an empty pipe that still has a writer, a registered writer only on a full pipe
    that still has a reader. *)
Theorem pipe_stream s p o x : pipe_inv s p o [] -> rtc (pipe_step p) (mk_stream s [] []) x ->
  exists o' q, pobjs (kern x) !! p = Some o' /\ wrote x = got x ++ q /\ pcount o' = zlen q /\ zlen q <= PIPE_BUF_SIZE /\
    (read_waiter o' <> 0 -> q = [] /\ 0 < writers o') /\ (write_waiter o' <> 0 -> zlen q = PIPE_BUF_SIZE /\ 0 < readers o').
Proof.
  intros Hinv Hr. destruct (stream_reachable_inv p (mk_stream s [] []) x) as (o' & q & [H1 H2 H3 [H4 H5]] & Hw); [by exists o, []|done|].
  exists o', q. pose proof (rr_count _ _ H2) as Hc. split_and!; [done|done|done|apply (rr_len _ _ H2)|..].
  - intros Hne. destruct (H4 Hne) as (Hz & ? & _). split; [|done]. destruct q; [done|]. unfold zlen in *. simpl in *. lia.
  - intros Hne. destruct (H5 Hne) as (Hz & ? & _). rewrite (rr_size _ _ H2) in Hz. split; [lia|done].
Qed.

(** * Whole calls *)

Lemma read_loop_done fuel sched p count s res s' :
  pipe_read_section (Z.to_nat count) p count [] s = Some (Done _ res, s') ->
  pipe_read_loop fuel sched p count [] s = Some (res, s').
Proof. intros E. destruct fuel; cbn [pipe_read_loop]; by erewrite bind_Some by exact E. Qed.

(** Reading a pipe: with bytes in it, or no writer left, [pipe_read] returns at once with the
    oldest [min count available] bytes (0 at end of file), wakes a writer that waited for room, and
    leaves the rest; on an empty pipe that has a writer the caller is registered, blocked, and tries
    again after [schedule]. *)
Theorem pipe_read_correct fuel sched s f p o q count : pipe_of f s = Some (p, s) -> p <> 0 -> pipe_inv s p o q -> running s ->
  0 < count ->
  let k := Z.min count (zlen q) in
  if (0 <? k) || (writers o =? 0) then
    exists o' s', pipe_read fuel sched f true count s = Some ((k, take (Z.to_nat k) q), s') /\
      pipe_inv s' p o' (drop (Z.to_nat k) q) /\
      (0 < k -> write_waiter o <> 0 -> procs s' !! write_waiter o = Some PROCESS_READY)
  else
    exists o' s', pipe_inv s' p o' [] /\ read_waiter o' = current_process s /\
      procs s' !! current_process s = Some PROCESS_BLOCKED /\
      pipe_read (S fuel) sched f true count s =
        (sched;; out ← pipe_read_loop fuel sched p count []; mret (zlen out, out)) s'.
Proof.
  intros Hf Hp Hinv Hrun Hc k. unfold pipe_read. rewrite !(bind_Some _ _ _ _ _ Hf).
  rewrite (proj2 (Z.eqb_neq p 0) Hp). cbn [orb negb].
  destruct (wp_inv _ _ _ (pipe_read_section_outcome p count (Z.to_nat count) s o q [] Hinv Hrun ltac:(unfold zlen; simpl; lia) ltac:(unfold zlen; simpl; lia)))
    as (r & s' & E & o' & m & -> & Hm & _ & _ & Hres).
  change (zlen []) with 0 in Hres. rewrite Z.sub_0_r, Z.add_0_l in Hres. fold k in Hres. pose proof (zlen_nonneg q).
  pose proof (pi_ends _ _ _ _ Hinv) as [_ Hw].
  destruct r as [res|res].
  - destruct Hres as (-> & Hi & _ & _ & Hk & Hwhy). assert ((0 <? k) || (writers o =? 0) = true) as ->.
    { apply orb_true_iff. rewrite Z.ltb_lt, Z.eqb_eq. lia. }
    exists o', (with_pipe s p o' m). split.
    + erewrite bind_Some; [|apply read_loop_done; exact E]. cbn [app].
      assert (zlen (take (Z.to_nat k) q) = k) as -> by (unfold zlen in *; rewrite length_take; lia). done.
    + split; [done|]. intros Hk1 Hne. destruct (Hk Hk1) as [-> _]. cbn. unfold woken.
      rewrite (proj2 (Z.eqb_neq _ _) Hne). apply lookup_insert_eq.
  - destruct Hres as (-> & _ & -> & _ & Hwr & Hi & Hrw & ->).
    assert (k = 0) as -> by (unfold k, zlen; simpl; lia). rewrite (proj2 (Z.eqb_neq (writers o) 0)) by lia. cbn [Z.ltb Z.compare orb].
    eexists o', _. split; [exact Hi|]. split; [done|]. split; [cbn; apply lookup_insert_eq|].
    cbn [pipe_read_loop]. unfold mbind, M_bind. rewrite E. by destruct (sched _) as [[??]|].
Qed.

Lemma write_loop_done fuel sched p inp count s n s' :
  pipe_write_section (Z.to_nat count) p inp count 0 s = Some (Done _ n, s') ->
  pipe_write_loop fuel sched p inp count 0 s = Some (n, s').
Proof. intros E. destruct fuel; cbn [pipe_write_loop]; by erewrite bind_Some by exact E. Qed.

(** Writing a pipe: when the bytes fit, [pipe_write] appends them all, returns [count] and wakes a
    sleeping reader; without a reader it fails with -1 and stores nothing; otherwise it fills the
    pipe, wakes the reader, registers and blocks the caller, and goes on behind the stored bytes
    after [schedule]. *)
Theorem pipe_write_correct fuel sched s f p o q inp count : pipe_of f s = Some (p, s) -> p <> 0 -> pipe_inv s p o q -> running s ->
  0 < count -> count <= zlen inp ->
  if readers o =? 0 then pipe_write fuel sched f (Some inp) count s = Some (-1, s)
  else if zlen q + count <=? PIPE_BUF_SIZE then
    exists o' s', pipe_write fuel sched f (Some inp) count s = Some (count, s') /\ pipe_inv s' p o' (q ++ take (Z.to_nat count) inp) /\
      (read_waiter o <> 0 -> procs s' !! read_waiter o = Some PROCESS_READY)
  else
    let n := PIPE_BUF_SIZE - zlen q in
    exists o' s', pipe_inv s' p o' (q ++ take (Z.to_nat n) inp) /\ write_waiter o' = current_process s /\
      procs s' !! current_process s = Some PROCESS_BLOCKED /\
      pipe_write (S fuel) sched f (Some inp) count s =
        (sched;; total ← pipe_write_loop fuel sched p inp count n;
         mret (if (total =? 0) && (0 <? count) then -1 else total)) s'.
Proof.
  intros Hf Hp Hinv Hrun Hc Hinp. unfold pipe_write. rewrite !(bind_Some _ _ _ _ _ Hf).
  rewrite (proj2 (Z.eqb_neq p 0) Hp). pose proof (pi_ends _ _ _ _ Hinv) as [Hr _].
  destruct (wp_inv _ _ _ (pipe_write_section_outcome p inp count Hinp (Z.to_nat count) s o q 0 Hinv Hrun ltac:(lia) ltac:(lia)))
    as (r & s' & E & Hout). unfold write_outcome, accepted in Hout. rewrite Z.sub_0_r in Hout.
  pose proof (rr_len _ _ (pi_ring _ _ _ _ Hinv)) as Hlen.
  destruct (Z.eqb_spec (readers o) 0) as [Er|Er]; cbv zeta in Hout.
  { destruct Hout as (o' & m & -> & _ & _ & _ & Hi & Hres). destruct r as [n|n]; [|destruct Hres as (_ & ? & _); lia].
    destruct Hres as (-> & Hk0 & _). destruct (Hk0 eq_refl) as [-> ->]. rewrite with_pipe_id in E by apply Hinv.
    erewrite bind_Some; [|apply write_loop_done; exact E]. change (0 + 0 =? 0) with true. by rewrite (proj2 (Z.ltb_lt 0 count)) by lia. }
  destruct Hout as (o' & m & -> & Hm & _ & _ & Hi & Hres).
  destruct (Z.leb_spec (zlen q + count) PIPE_BUF_SIZE) as [Hfit|Hfull].
  - rewrite Z.min_l in * by lia. unfold slice in Hi. cbn [Z.to_nat drop] in Hi.
    destruct r as [n|n]; [|destruct Hres as (_ & _ & ? & _); lia]. destruct Hres as (-> & _ & Hk1 & _).
    eexists o', _. split; [|split; [exact Hi|]].
    + erewrite bind_Some; [|apply write_loop_done; exact E]. rewrite Z.add_0_l, (proj2 (Z.eqb_neq count 0)) by lia. done.
    + intros Hne. destruct (Hk1 Hc) as [-> _]. cbn. unfold woken. rewrite (proj2 (Z.eqb_neq _ _) Hne). apply lookup_insert_eq.
  - rewrite Z.min_r in * by lia. unfold slice in Hi. cbn [Z.to_nat drop] in Hi.
    destruct r as [n|n]; [destruct Hres as (-> & _ & _ & _ & [?|?]); lia|]. destruct Hres as (-> & _ & _ & _ & Hww & ->).
    eexists o', _. split; [exact Hi|]. split; [done|]. split; [cbn; apply lookup_insert_eq|].
    cbn [pipe_write_loop]. unfold mbind, M_bind. rewrite E. rewrite Z.add_0_l. by destruct (sched _) as [[??]|].
Qed.
End pipes.

Section poll.
Context {HS : Type} `{!BlockAllocator HS}.
Implicit Types (s : vfs (HS := HS)).

(** Polling a pipe is exact: it reports the read end ready exactly when no read of any size would
    put the caller to sleep, and the write end exactly when writing a byte would not, and it changes
    nothing. *)
Theorem vfs_poll_pipe_exact s n f fo p o q b : fd_file n s = Some (f, s) -> f <> 0 -> fobjs s !! f = Some fo ->
  pipe_of f s = Some (p, s) -> p <> 0 -> pipe_inv s p o q -> running s ->
  (fops fo = pipe_read_fops -> exists rev, vfs_poll_check n 1 s = Some ((0, rev), s) /\
     (rev = 1 <-> forall count, 0 < count -> exists res s', pipe_read_section (Z.to_nat count) p count [] s = Some (Done _ res, s'))) /\
  (fops fo = pipe_write_fops -> exists rev, vfs_poll_check n 2 s = Some ((0, rev), s) /\
     (rev = 2 <-> exists k s', pipe_write_section 1 p [b] 1 0 s = Some (Done _ k, s'))).
Proof.
  intros Hfd Hf Hfo Hp Hp0 Hinv Hrun. pose proof (pi_ends _ _ _ _ Hinv) as [Hr0 Hw0].
  assert (get_file f s = Some (fo, s)) as Hgf by (unfold get_file; by rewrite Hfo).
  assert (get_pipe p s = Some (o, s)) as Hgp by (unfold get_pipe; by rewrite (pi_obj _ _ _ _ Hinv)).
  pose proof (rr_count _ _ (pi_ring _ _ _ _ Hinv)) as Hc. pose proof (rr_size _ _ (pi_ring _ _ _ _ Hinv)) as Hs.
  pose proof (rr_len _ _ (pi_ring _ _ _ _ Hinv)) as Hl. pose proof (zlen_nonneg q).
  assert (forall ev, vfs_poll_check n ev s = (match fops fo with
      | pipe_read_fops => Some ((0, if negb (Z.land ev 1 =? 0) && ((0 <? pcount o) || (writers o =? 0)) then 1 else 0), s)
      | pipe_write_fops => Some ((0, if negb (Z.land ev 2 =? 0) && ((pcount o <? psize o) || (readers o =? 0)) then 2 else 0), s)
      | _ => vfs_poll_check n ev s end)) as Hpoll.
  { intros ev. destruct (fops fo) eqn:Eo; try done; unfold vfs_poll_check; rewrite (bind_Some _ _ _ _ _ Hfd), (proj2 (Z.eqb_neq _ _) Hf);
      rewrite (bind_Some _ _ _ _ _ Hgf), Eo, (bind_Some _ _ _ _ _ Hp), (proj2 (Z.eqb_neq _ _) Hp0); by rewrite (bind_Some _ _ _ _ _ Hgp). }
  split; intros Eo; rewrite Hpoll, Eo; eexists; (split; [reflexivity|]); change (negb _) with true; cbn [andb].
  - split.
    + intros Hready count Hcount.
      destruct (wp_inv _ _ _ (pipe_read_section_outcome p count (Z.to_nat count) s o q [] Hinv Hrun ltac:(unfold zlen; simpl; lia) ltac:(unfold zlen; simpl; lia)))
        as (r & s' & E & o' & m & _ & _ & _ & _ & Hres). destruct r as [res|res]; [eauto|].
      destruct Hres as (_ & _ & -> & _ & Hw & _). exfalso. rewrite Hc in Hready. cbn in Hready.
      rewrite (proj2 (Z.eqb_neq (writers o) 0)) in Hready by lia. done.
    + intros Hall. destruct (Hall 1 ltac:(lia)) as (res & s' & E).
      pose proof (wp_run _ _ _ _ _ (pipe_read_section_outcome p 1 (Z.to_nat 1) s o q [] Hinv Hrun ltac:(unfold zlen; simpl; lia) ltac:(unfold zlen; simpl; lia)) E)
        as (o' & m & _ & _ & _ & _ & Hres). destruct Hres as (_ & _ & _ & _ & _ & Hwhy). change (zlen []) with 0 in Hwhy.
      assert ((0 <? pcount o) || (writers o =? 0) = true) as ->; [|done]. apply orb_true_iff. rewrite Z.ltb_lt, Z.eqb_eq. lia.
  - assert (1 <= zlen [b]) as Hb by done.
    destruct (wp_inv _ _ _ (pipe_write_section_outcome p [b] 1 Hb 1 s o q 0 Hinv Hrun ltac:(lia) ltac:(lia)))
      as (r & s' & E & o' & m & _ & _ & _ & _ & _ & Hres). rewrite E.
    assert ((pcount o <? psize o) || (readers o =? 0) = true <-> (zlen q < PIPE_BUF_SIZE \/ readers o = 0)) as Hiff
      by (rewrite orb_true_iff, Z.ltb_lt, Z.eqb_eq; lia).
    destruct r as [k|k].
    + assert ((pcount o <? psize o) || (readers o =? 0) = true) as ->; [|by split; eauto].
      apply Hiff. destruct Hres as (-> & _ & _ & _ & Hwhy). unfold accepted in Hwhy.
      destruct (Z.eqb_spec (readers o) 0); [by right|left]. lia.
    + destruct Hres as (_ & Hrd & Hk & Hfull & _). unfold accepted in Hk, Hfull. rewrite (proj2 (Z.eqb_neq (readers o) 0)) in Hk, Hfull by lia.
      destruct ((pcount o <? psize o) || (readers o =? 0)) eqn:Eb; [|split; intros Hx; [discriminate Hx|destruct Hx as (? & ? & ?); discriminate]].
      destruct (proj1 Hiff eq_refl); lia.
Qed.
End poll.

(** * Witnesses: three processes, two descriptor tables, and a pipe made by [vfs_pipe] *)

Definition no_fs : fs_ops (HS := heap) := {|
  fs_read := fun _ _ _ _ => mret (-1, []); fs_write := fun _ _ _ _ => mret (-1); fs_seek := fun _ _ _ _ => mret (-1);
  fs_close := fun _ _ => mret 0; fs_readdir := fun _ _ _ => mret (-1);
|}.

Definition demo_vfs0 : vfs (HS := heap) :=
  mk_vfs ∅ ∅ ∅ demo_heap (replicate 256 0) (<[100 := mk_table (replicate 16 0) 0]> (<[200 := mk_table (replicate 16 0) 0]> ∅)) 100
    (<[1 := PROCESS_RUNNING]> (<[2 := PROCESS_READY]> (<[3 := PROCESS_READY]> ∅))) 1 200 true [] (replicate 256 0) 0 0 0.

Definition demo_vfs : vfs (HS := heap) :=
  match vfs_pipe no_fs demo_vfs0 with Some (_, s) => s | None => demo_vfs0 end.

(** Address of the pipe, of its buffer, and of its two files. *)
Definition demo_p : Z := 0xFFFF900000000018.
Definition demo_pipe : pipe := mk_pipe 0xFFFF900000000060 (replicate 4096 0) 4096 0 0 0 1 1 0 0.
Definition demo_rf : Z := 0xFFFF900000001078.
Definition demo_wf : Z := 0xFFFF9000000010E8.

Lemma demo_pipe_at : pobjs demo_vfs !! demo_p = Some demo_pipe.
Proof. vm_compute. reflexivity. Qed.

Lemma demo_pipe_inv : pipe_inv demo_vfs demo_p demo_pipe [].
Proof.
  split; [apply demo_pipe_at| |unfold demo_pipe; cbn; lia|].
  - split; [done|done| |done|done|done|]; unfold demo_pipe; cbn [read_pos]; [unfold PIPE_BUF_SIZE; lia|].
    intros k x H. by apply zget_range in H; unfold zlen in H; simpl in H; lia.
  - by split.
Qed.

Lemma demo_running : running demo_vfs.
Proof. split; vm_compute; [discriminate|eauto]. Qed.

Lemma pipe_stream_witness : exists r s', pipe_write_section 3 demo_p [7; 8; 9] 3 0 demo_vfs = Some (r, s') /\
  exists q, [7; 8; 9] = [] ++ q /\ zlen q <= PIPE_BUF_SIZE.
Proof.
  destruct (pipe_write_section 3 demo_p [7; 8; 9] 3 0 demo_vfs) as [[r s']|] eqn:E; [|exfalso; vm_compute in E; discriminate].
  exists r, s'. split; [done|].
  assert (result r = 3) as Hr.
  { assert ((fun x => result x.1) <$> pipe_write_section 3 demo_p [7; 8; 9] 3 0 demo_vfs = Some 3) as H by (vm_compute; reflexivity).
    rewrite E in H. cbn in H. congruence. }
  destruct (pipe_stream demo_vfs demo_p demo_pipe (mk_stream s' ([] ++ slice [7; 8; 9] 0 (result r - 0)) []) demo_pipe_inv)
    as (o' & q & _ & Hw & _ & Hq & _).
  - apply rtc_once. apply (step_write demo_p demo_vfs [7; 8; 9] 3 0 r s' [] []); [apply demo_running|lia|unfold zlen; simpl; lia|exact E].
  - exists q. cbn [wrote got] in Hw. rewrite Hr in Hw. split; [exact Hw|exact Hq].
Defined.

Lemma pipe_read_witness : let sched := (mret tt : M vfs unit) in exists o' s',
  pipe_inv s' demo_p o' [] /\ read_waiter o' = 1 /\ procs s' !! 1 = Some PROCESS_BLOCKED /\
  pipe_read 1 sched demo_rf true 10 demo_vfs =
    (sched;; out ← pipe_read_loop 0 sched demo_p 10 []; mret (zlen out, out)) s'.
Proof.
  intros sched. apply (pipe_read_correct 0 sched demo_vfs demo_rf demo_p demo_pipe [] 10);
    [vm_compute; reflexivity|done|apply demo_pipe_inv|apply demo_running|lia].
Defined.

Lemma pipe_write_witness : exists o' s',
  pipe_write 0 (mret tt) demo_wf (Some [7; 8; 9]) 2 demo_vfs = Some (2, s') /\ pipe_inv s' demo_p o' [7; 8] /\
  (0 <> 0 -> procs s' !! 0 = Some PROCESS_READY).
Proof.
  apply (pipe_write_correct 0 (mret tt) demo_vfs demo_wf demo_p demo_pipe [] [7; 8; 9] 2);
    [vm_compute; reflexivity|done|apply demo_pipe_inv|apply demo_running|lia|unfold zlen; simpl; lia].
Defined.

Lemma vfs_poll_pipe_witness : exists rev, vfs_poll_check 0 1 demo_vfs = Some ((0, rev), demo_vfs) /\
  (rev = 1 <-> forall count, 0 < count -> exists res s', pipe_read_section (Z.to_nat count) demo_p count [] demo_vfs = Some (Done _ res, s')).
Proof.
  apply (vfs_poll_pipe_exact demo_vfs 0 demo_rf (mk_file 0 0xFFFF9000000010B0 0 0 pipe_read_fops) demo_p demo_pipe [] 0);
    [vm_compute; reflexivity|done|vm_compute; reflexivity|vm_compute; reflexivity|done|apply demo_pipe_inv|apply demo_running|done].
Defined.

(** Two readers of one pipe (after [fork]) fall asleep: the second takes the only waiter slot, and a
    byte that arrives leaves the first asleep with nobody to wake it. *)
Definition two_readers : M (vfs (HS := heap)) (option process_state * option process_state * Z) :=
  pipe_read_section 1 demo_p 1 [];;
  modify (run_as 2);;
  pipe_read_section 1 demo_p 1 [];;
  modify (run_as 3);;
  pipe_write_section 1 demo_p [7] 1 0;;
  o ← get_pipe demo_p;
  m ← gets procs;
  mret (m !! 1, m !! 2, read_waiter o).

(** A pipe has room for one sleeping reader: when a second process reads the same empty pipe, its
    registration replaces the first one's, and the next write wakes the second only; the first
    stays blocked and is registered nowhere. *)
Theorem pipe_waiter_overwritten :
  option_map fst (two_readers demo_vfs) = Some (Some PROCESS_BLOCKED, Some PROCESS_READY, 0).
Proof. vm_compute. reflexivity. Qed.

(** A child closes its write end and sleeps in [pipe_read]; it is killed and reaped: its descriptors
    are closed and its [process_t] is freed. *)
Definition reap_reader : M (vfs (HS := heap)) unit :=
  fork_fds no_fs 100 200;;
  modify (run_as 2);; modify (set_current 200);;
  vfs_close no_fs 1;;
  pipe_read_section 1 demo_p 1 [];;
  modify (run_as 1);; modify (set_current 100);;
  close_all no_fs 200;;
  modify (fun s => set_procs (delete 2 (procs s)) s).

(** A pipe keeps pointing to a reader that was killed in its sleep: closing its descriptors does not
    clear the waiter slot, and the next write to the pipe stores through the freed [process_t]. *)
Theorem pipe_wakes_freed_process : is_Some (reap_reader demo_vfs) /\
  (reap_reader;; pipe_write 0 (mret tt) demo_wf (Some [7]) 1) demo_vfs = None.
Proof. split; [vm_compute; eauto|vm_compute; reflexivity]. Qed.
