(* ===== verification/Ramdisk.v ===== *)
(** A disk held in memory, addressed by byte, on which every transfer succeeds: an instance of
    [BlockDevice] on which the file-system theorems can be run. *)

From S2P Require Import Prelude Memory Interfaces.

Definition ramdisk : Type := Z -> Z.

Definition rd_sector (d : ramdisk) (i : Z) : list Z := (fun p => u8 (d p)) <$> seqZ (512 * i) 512.
Definition rd_read (lba n : Z) : M ramdisk (option (list Z)) := fun d => Some (Some (concat (rd_sector d <$> seqZ lba n)), d).
Definition rd_write (lba n : Z) (l : list Z) : M ramdisk bool := fun d =>
  Some (true, fun p => if (512 * lba <=? p) && (p <? 512 * (lba + n)) then default 0 (zget l (p - 512 * lba)) else d p).

Lemma sectors_bytes (d : ramdisk) lba n : 0 <= n -> concat (rd_sector d <$> seqZ lba n) = (fun p => u8 (d p)) <$> seqZ (512 * lba) (512 * n).
Proof.
  intros Hn. revert lba. pattern n. apply natlike_ind; [done| |done]. clear n Hn. intros n Hn IH lba.
  unfold Z.succ. rewrite (Z.add_comm n 1), seqZ_app by lia. rewrite fmap_app, concat_app, IH.
  replace (seqZ lba 1) with [lba] by (change (seqZ lba 1) with [0 + lba]; by rewrite Z.add_0_l). cbn [fmap list_fmap concat]. rewrite app_nil_r. replace (512 * (1 + n)) with (512 + 512 * n) by lia. rewrite seqZ_app, fmap_app by lia. unfold rd_sector. do 2 f_equal. f_equal. lia.
Qed.

Lemma bytes_of_fun (l : list Z) lo n (f : Z -> Z) : zlen l = n -> Forall is_u8 l ->
  (forall p, lo <= p < lo + n -> f p = default 0 (zget l (p - lo))) -> (fun p => u8 (f p)) <$> seqZ lo n = l.
Proof.
  intros Hl Hb Hf. apply list_eq. intros k. rewrite list_lookup_fmap. unfold zlen in Hl. destruct (decide (Z.of_nat k < n)) as [Hk|Hk].
  - rewrite lookup_seqZ_lt by lia. cbn. rewrite Hf by lia. unfold zget. rewrite (proj2 (Z.leb_le 0 _)) by lia.
    replace (Z.to_nat (lo + Z.of_nat k - lo)) with k by lia. destruct (lookup_lt_is_Some_2 l k) as [x Hx]; [lia|]. rewrite Hx. cbn.
    f_equal. apply u8_small. by eapply Forall_lookup_1.
  - rewrite lookup_seqZ_ge by lia. cbn. symmetry. apply lookup_ge_None_2. lia.
Qed.

#[export] Instance ramdisk_device : BlockDevice ramdisk.
Proof.
  refine {| bd_sector := rd_sector; bd_good := fun _ _ => True; bd_read := rd_read; bd_write := rd_write |}.
  - intros d i. split; [unfold rd_sector; by rewrite length_fmap, length_seqZ|]. apply Forall_fmap, Forall_true. intros p. apply u8_range.
  - intros d lba n Hn. unfold wp, rd_read. done.
  - intros d lba n l Hn Hl Hb. unfold wp, rd_write. split; [done|]. split.
    + intros i Hi. unfold rd_sector. apply list_fmap_ext. intros k p Hp%lookup_seqZ. f_equal.
      destruct (Z.leb_spec (512 * lba) p), (Z.ltb_spec p (512 * (lba + n))); cbn [andb]; try done. lia.
    + rewrite sectors_bytes by done. apply bytes_of_fun; [done|done|]. intros p Hp.
      by rewrite (proj2 (Z.leb_le _ _)), (proj2 (Z.ltb_lt _ _)) by lia.
Defined.

(** * The same by sector, for longer runs *)

Definition sector_disk : Type := gmap Z (list Z).

Definition sd_sector (d : sector_disk) (i : Z) : list Z := take 512 ((u8 <$> default [] (d !! i)) ++ replicate 512 0).
Definition sd_read (lba n : Z) : M sector_disk (option (list Z)) := fun d => Some (Some (concat (sd_sector d <$> seqZ lba n)), d).
Fixpoint sd_put (d : sector_disk) (lba : Z) (n : nat) (l : list Z) : sector_disk :=
  match n with O => d | S n => sd_put (<[lba := take 512 l]> d) (lba + 1) n (drop 512 l) end.
Definition sd_write (lba n : Z) (l : list Z) : M sector_disk bool := fun d => Some (true, sd_put d lba (Z.to_nat n) l).

Lemma sd_sector_bytes d i l : d !! i = Some l -> length l = 512%nat -> Forall is_u8 l -> sd_sector d i = l.
Proof.
  intros E Hl Hb. unfold sd_sector. rewrite E. change (default [] (Some l)) with l. rewrite take_app_le by (rewrite length_fmap, Hl; done).
  rewrite take_ge by (rewrite length_fmap, Hl; done). clear Hl E. induction Hb as [|x l Hx Hb IH]; [done|]. cbn. by rewrite u8_small, IH by done.
Qed.

Lemma sd_put_other n : forall d lba l i, ~ lba <= i < lba + Z.of_nat n -> sd_put d lba n l !! i = d !! i.
Proof. induction n as [|n IH]; intros d lba l i Hi; [done|]. cbn. rewrite IH by lia. apply lookup_insert_ne. lia. Qed.

Lemma sd_put_same n : forall d lba l, length l = (512 * n)%nat -> Forall is_u8 l -> concat (sd_sector (sd_put d lba n l) <$> seqZ lba (Z.of_nat n)) = l.
Proof.
  induction n as [|n IH]; intros d lba l Hl Hb; [by destruct l|]. rewrite Nat2Z.inj_succ, seqZ_cons by lia. cbn [fmap list_fmap concat sd_put].
  replace (Z.pred (Z.succ (Z.of_nat n))) with (Z.of_nat n) by lia. replace (Z.succ lba) with (lba + 1) by lia. rewrite IH; [|rewrite length_drop; lia|by apply Forall_drop].
  erewrite sd_sector_bytes; [apply take_drop| | |by apply Forall_take]; [|rewrite length_take; lia].
  rewrite sd_put_other by lia. apply lookup_insert_eq.
Qed.

#[export] Instance sector_device : BlockDevice sector_disk | 10.
Proof.
  refine {| bd_sector := sd_sector; bd_good := fun _ _ => True; bd_read := sd_read; bd_write := sd_write |}.
  - intros d i. unfold sd_sector. split; [rewrite length_take, length_app, length_replicate; lia|]. apply Forall_take, Forall_app. split.
    + apply Forall_fmap, Forall_true. intros p. apply u8_range.
    + apply Forall_replicate. unfold is_u8. lia.
  - intros d lba n Hn. unfold wp, sd_read. done.
  - intros d lba n l Hn Hl Hb. unfold wp, sd_write. split; [done|]. split.
    + intros i Hi. unfold sd_sector. by rewrite sd_put_other by lia.
    + pose proof (sd_put_same (Z.to_nat n) d lba l) as H. rewrite Z2Nat.id in H by done. apply H; [unfold zlen in Hl; lia|done].
Defined.
