(* ===== verification/Lufirafs.v ===== *)
(** Model of kernel/fs/lufirafs/lufirafs.c and lufirafs_format.h: the kernel's own file system.

    The metadata blocks (superblock, block bitmap, inode table) are the bytes of [image]; data
    blocks are read from and written to a [BlockDevice].  A 4-byte field is its little-endian bytes,
    as the packed structures of lufirafs_format.h are laid out. *)

From S2P Require Import Prelude Bitmap Memory Interfaces.

Definition LUFIRAFS_MAGIC : Z := 0x31534C4F.
Definition LUFIRAFS_VERSION : Z := 3.
Definition LUFIRAFS_BLOCK_SIZE : Z := 8192.
Definition LUFIRAFS_INODE_SIZE : Z := 76.
Definition LUFIRAFS_DIRENT_SIZE : Z := 64.
Definition LUFIRAFS_MAX_NAME : Z := 59.
Definition LUFIRAFS_DIRECT_BLOCKS : Z := 12.
Definition LUFIRAFS_ROOT_INODE : Z := 1.
Definition LUFIRAFS_INODE_COUNT : Z := 512.
Definition LUFIRAFS_MODE_FREE : Z := 0.
Definition LUFIRAFS_MODE_FILE : Z := 1.
Definition LUFIRAFS_MODE_DIR : Z := 2.
Definition LUFIRAFS_PTRS_PER_BLOCK : Z := 2048.
Definition LUFIRAFS_MAX_FILE_SIZE : Z := (LUFIRAFS_DIRECT_BLOCKS + LUFIRAFS_PTRS_PER_BLOCK) * LUFIRAFS_BLOCK_SIZE.
Definition LUFIRAFS_DIRENTS_PER_BLOCK : Z := 128.
Definition LUFIRAFS_MAX_PATH_DEPTH : Z := 32.
Definition SECTORS_PER_BLOCK : Z := 16.

Record superblock := mk_sb {
  magic : Z; version : Z; block_size : Z; total_blocks : Z; bitmap_start : Z; bitmap_blocks : Z;
  inode_table_start : Z; inode_table_blocks : Z; inode_count : Z; data_start : Z; root_inode : Z;
  free_blocks : Z; free_inodes : Z;
  reserved : list Z;
}.

Record inode := mk_inode {
  mode : Z; size : Z; links_count : Z;
  direct : list Z;
  indirect : Z; uid : Z; gid : Z; perm : Z;
}.

(** * On-disk structures *)

Definition le32 (x : Z) : list Z := le_split 4 x.
(** The 4-byte word at [off], and its replacement. *)
Definition word (l : list Z) (off : Z) : Z := le_combine (take 4 (drop (Z.to_nat off) l)).

Definition encode_sb (s : superblock) : list Z :=
  concat (le32 <$> [magic s; version s; block_size s; total_blocks s; bitmap_start s; bitmap_blocks s;
    inode_table_start s; inode_table_blocks s; inode_count s; data_start s; root_inode s; free_blocks s; free_inodes s])
  ++ reserved s.
Definition decode_sb (l : list Z) : superblock :=
  mk_sb (word l 0) (word l 4) (word l 8) (word l 12) (word l 16) (word l 20) (word l 24) (word l 28) (word l 32)
    (word l 36) (word l 40) (word l 44) (word l 48) (drop 52 l).

Definition encode_inode (i : inode) : list Z :=
  concat (le32 <$> [mode i; size i; links_count i]) ++ concat (le32 <$> direct i) ++
  concat (le32 <$> [indirect i; uid i; gid i; perm i]).
Definition decode_inode (l : list Z) : inode :=
  mk_inode (word l 0) (word l 4) (word l 8) ((fun k => word l (12 + 4 * k)) <$> seqZ 0 12)
    (word l 60) (word l 64) (word l 68) (word l 72).

(** [lufirafs_compute_layout]: the geometry of a disk of [n] blocks. *)
Definition lufirafs_compute_layout (n : Z) (r : list Z) : superblock :=
  let bits_per_block := u32 (LUFIRAFS_BLOCK_SIZE * 8) in
  let bmb := u32 (u32 (n + bits_per_block) - 1) / bits_per_block in
  let bmb := if bmb =? 0 then 1 else bmb in
  let its := u32 (1 + bmb) in
  let itb := u32 (u32 (LUFIRAFS_INODE_COUNT * LUFIRAFS_INODE_SIZE) + LUFIRAFS_BLOCK_SIZE - 1) / LUFIRAFS_BLOCK_SIZE in
  mk_sb LUFIRAFS_MAGIC LUFIRAFS_VERSION LUFIRAFS_BLOCK_SIZE n 1 bmb its itb LUFIRAFS_INODE_COUNT (u32 (its + itb))
    LUFIRAFS_ROOT_INODE 0 0 r.

Definition zero_inode : inode := mk_inode 0 0 0 (replicate 12 0) 0 0 0 0.

Section lufirafs.
Context {HS DS : Type} `{!BlockAllocator HS} `{!BlockDevice DS}.

Record lufirafs := mk_fs {
  image : list Z;
  lba_offset : Z;
  sb : superblock;
  dirty_bitmap : list Z;
  next_free_block : Z;
  disk : DS;
  kheap : HS;
}.

Definition set_image (l : list Z) (s : lufirafs) : lufirafs :=
  mk_fs l (lba_offset s) (sb s) (dirty_bitmap s) (next_free_block s) (disk s) (kheap s).
Definition set_sb (b : superblock) (s : lufirafs) : lufirafs :=
  mk_fs (image s) (lba_offset s) b (dirty_bitmap s) (next_free_block s) (disk s) (kheap s).
Definition set_dirty (l : list Z) (s : lufirafs) : lufirafs :=
  mk_fs (image s) (lba_offset s) (sb s) l (next_free_block s) (disk s) (kheap s).
Definition set_next (n : Z) (s : lufirafs) : lufirafs :=
  mk_fs (image s) (lba_offset s) (sb s) (dirty_bitmap s) n (disk s) (kheap s).
Definition set_disk (d : DS) (s : lufirafs) : lufirafs :=
  mk_fs (image s) (lba_offset s) (sb s) (dirty_bitmap s) (next_free_block s) d (kheap s).
Definition set_heap (h : HS) (s : lufirafs) : lufirafs :=
  mk_fs (image s) (lba_offset s) (sb s) (dirty_bitmap s) (next_free_block s) (disk s) h.

Definition set_free_blocks (n : Z) (b : superblock) : superblock :=
  mk_sb (magic b) (version b) (block_size b) (total_blocks b) (bitmap_start b) (bitmap_blocks b) (inode_table_start b)
    (inode_table_blocks b) (inode_count b) (data_start b) (root_inode b) n (free_inodes b) (reserved b).
Definition set_free_inodes (n : Z) (b : superblock) : superblock :=
  mk_sb (magic b) (version b) (block_size b) (total_blocks b) (bitmap_start b) (bitmap_blocks b) (inode_table_start b)
    (inode_table_blocks b) (inode_count b) (data_start b) (root_inode b) (free_blocks b) n (reserved b).

Definition on_heap {A} (m : M HS A) : M lufirafs A := fun s =>
  match m (kheap s) with Some (a, h) => Some (a, set_heap h s) | None => None end.
Definition on_disk {A} (m : M DS A) : M lufirafs A := fun s =>
  match m (disk s) with Some (a, d) => Some (a, set_disk d s) | None => None end.

(** [buf = kmalloc(LUFIRAFS_BLOCK_SIZE); if (!buf) return fail; ...; kfree(buf)] *)
Definition with_buf {A} (fail : A) (body : M lufirafs A) : M lufirafs A :=
  p ← on_heap (ba_alloc LUFIRAFS_BLOCK_SIZE);
  if p =? 0 then mret fail else
  r ← body;
  on_heap (ba_release p);;
  mret r.

(** * Metadata in memory *)

(** Copies from and to [fs->image + off]. *)
Definition img_read (off n : Z) : M lufirafs (list Z) := fun s =>
  if (0 <=? off) && (off + n <=? zlen (image s)) then Some (take (Z.to_nat n) (drop (Z.to_nat off) (image s)), s) else None.
Definition img_write (off : Z) (l : list Z) : M lufirafs unit :=
  im ← gets image; im ← lift (splice im off l); modify (set_image im).

Definition mark_dirty (block : Z) : M lufirafs unit :=
  b ← gets sb;
  if data_start b <=? block then mret tt else
  d ← gets dirty_bitmap; d ← lift (bm_set d block); modify (set_dirty d).

Definition write_superblock : M lufirafs unit :=
  b ← gets sb; img_write 0 (encode_sb b);; mark_dirty 0.

(** Byte [block / 8] of the bitmap, counted from the start of [image]. *)
Definition bitmap_byte (b : superblock) (block : Z) : Z := bitmap_start b * LUFIRAFS_BLOCK_SIZE + block / 8.

Definition block_bitmap_test (block : Z) : M lufirafs bool :=
  b ← gets sb; im ← gets image;
  x ← lift (zget im (bitmap_byte b block));
  mret (negb (Z.land (Z.shiftr x (block mod 8)) 1 =? 0)).

Definition block_bitmap_set (block : Z) (used : bool) : M lufirafs unit :=
  b ← gets sb; im ← gets image;
  x ← lift (zget im (bitmap_byte b block));
  let x' := if used then Z.lor x (Z.shiftl 1 (block mod 8)) else Z.land x (u8 (Z.lnot (Z.shiftl 1 (block mod 8)))) in
  im ← lift (zset im (bitmap_byte b block) x');
  modify (set_image im);;
  mark_dirty (u32 (bitmap_start b + (block / 8) / LUFIRAFS_BLOCK_SIZE)).

(** * Data blocks on disk *)

Definition block_lba (s : lufirafs) (block : Z) : Z := u32 (lba_offset s + u32 (block * SECTORS_PER_BLOCK)).

Definition read_data_block (block : Z) : M lufirafs (option (list Z)) :=
  b ← gets sb;
  if (block <? data_start b) || (total_blocks b <=? block) then mret None else
  lba ← gets (fun s => block_lba s block);
  on_disk (bd_read lba SECTORS_PER_BLOCK).

Definition write_data_block (block : Z) (buf : list Z) : M lufirafs bool :=
  b ← gets sb;
  if (block <? data_start b) || (total_blocks b <=? block) then mret false else
  lba ← gets (fun s => block_lba s block);
  on_disk (bd_write lba SECTORS_PER_BLOCK buf).

Definition zero_block : list Z := replicate (Z.to_nat LUFIRAFS_BLOCK_SIZE) 0.

(** 0 when no block is free. *)
Definition alloc_block : M lufirafs Z :=
  r ← for_range 0 2 (fun pass =>
        b ← gets sb; nf ← gets next_free_block;
        for_range (if pass =? 0 then nf else data_start b) (if pass =? 0 then total_blocks b else nf) (fun k =>
          used ← block_bitmap_test k;
          if (used : bool) then mret None else
          block_bitmap_set k true;;
          z ← on_heap (ba_alloc LUFIRAFS_BLOCK_SIZE);
          if z =? 0 then block_bitmap_set k false;; mret (Some 0) else
          write_data_block k zero_block;;
          on_heap (ba_release z);;
          b ← gets sb;
          (if 0 <? free_blocks b then modify (set_sb (set_free_blocks (free_blocks b - 1) b)) else mret tt);;
          write_superblock;;
          modify (set_next (u32 (k + 1)));;
          mret (Some k)));
  mret (match r with Some k => k | None => 0 end).

Definition free_data_block (block : Z) : M lufirafs unit :=
  if block =? 0 then mret tt else
  block_bitmap_set block false;;
  modify (fun s => set_sb (set_free_blocks (u32 (free_blocks (sb s) + 1)) (sb s)) s);;
  write_superblock.

(** * Inodes *)

Definition inode_off (b : superblock) (ino : Z) : Z :=
  u32 (u32 (inode_table_start b * LUFIRAFS_BLOCK_SIZE) + u32 ((ino - 1) * LUFIRAFS_INODE_SIZE)).

(** [None] is the -1 of the source. *)
Definition lufirafs_read_inode (ino : Z) : M lufirafs (option inode) :=
  b ← gets sb;
  if (ino =? 0) || (inode_count b <? ino) then mret None else
  l ← img_read (inode_off b ino) LUFIRAFS_INODE_SIZE;
  mret (Some (decode_inode l)).

Definition lufirafs_write_inode (ino : Z) (i : inode) : M lufirafs bool :=
  b ← gets sb;
  if (ino =? 0) || (inode_count b <? ino) then mret false else
  img_write (inode_off b ino) (encode_inode i);;
  mark_dirty (inode_off b ino / LUFIRAFS_BLOCK_SIZE);;
  mret true.

Definition lufirafs_check_access (i : inode) (u g : Z) (want_read want_write want_exec : bool) : bool :=
  if u =? 0 then true else
  let bits := if uid i =? u then Z.land (Z.shiftr (perm i) 6) 7
              else if gid i =? g then Z.land (Z.shiftr (perm i) 3) 7
              else Z.land (perm i) 7 in
  if want_read && (Z.land bits 4 =? 0) then false else
  if want_write && (Z.land bits 2 =? 0) then false else
  if want_exec && (Z.land bits 1 =? 0) then false else true.

Definition alloc_inode : M lufirafs Z :=
  b ← gets sb;
  r ← for_range 1 (inode_count b + 1) (fun ino =>
        t ← lufirafs_read_inode ino;
        match t with
        | Some i =>
            if mode i =? LUFIRAFS_MODE_FREE then
              b ← gets sb;
              (if 0 <? free_inodes b then modify (set_sb (set_free_inodes (free_inodes b - 1) b)) else mret tt);;
              write_superblock;;
              mret (Some ino)
            else mret None
        | None => fault
        end);
  mret (match r with Some ino => ino | None => 0 end).

Definition free_inode_slot (ino : Z) : M lufirafs unit :=
  lufirafs_write_inode ino zero_inode;;
  modify (fun s => set_sb (set_free_inodes (u32 (free_inodes (sb s) + 1)) (sb s)) s);;
  write_superblock.

Definition set_size (n : Z) (i : inode) : inode :=
  mk_inode (mode i) n (links_count i) (direct i) (indirect i) (uid i) (gid i) (perm i).
Definition set_indirect (n : Z) (i : inode) : inode :=
  mk_inode (mode i) (size i) (links_count i) (direct i) n (uid i) (gid i) (perm i).
Definition set_direct (l : list Z) (i : inode) : inode :=
  mk_inode (mode i) (size i) (links_count i) l (indirect i) (uid i) (gid i) (perm i).

(** Block number (0 for none) and the inode, which [create] may change. *)
Definition inode_get_block (i : inode) (k : Z) (create : bool) : M lufirafs (Z * inode) :=
  if k <? LUFIRAFS_DIRECT_BLOCKS then
    d ← lift (zget (direct i) k);
    if (d =? 0) && create then
      nb ← alloc_block;
      if nb =? 0 then mret (0, i) else
      l ← lift (zset (direct i) k nb); mret (nb, set_direct l i)
    else mret (d, i)
  else
    let idx := k - LUFIRAFS_DIRECT_BLOCKS in
    if LUFIRAFS_PTRS_PER_BLOCK <=? idx then mret (0, i) else
    ii ← (if indirect i =? 0 then
            if negb create then mret None else
            ib ← alloc_block;
            if ib =? 0 then mret None else mret (Some (set_indirect ib i))
          else mret (Some i));
    match ii with
    | None => mret (0, i)
    | Some i =>
        r ← with_buf 0 (
          buf ← read_data_block (indirect i);
          match buf with
          | None => mret 0
          | Some buf =>
              let result := word buf (4 * idx) in
              if (result =? 0) && create then
                nb ← alloc_block;
                if nb =? 0 then mret 0 else
                buf ← lift (splice buf (4 * idx) (le32 nb));
                write_data_block (indirect i) buf;;
                mret nb
              else mret result
          end);
        mret (r, i)
    end.

(** * Names and directories *)

(** The bytes before the first NUL. *)
Fixpoint cstr (l : list Z) : list Z :=
  match l with [] => [] | c :: l => if c =? 0 then [] else c :: cstr l end.

(** What [copy_name] stores. *)
Definition copy_name (name : list Z) (max_len : Z) : list Z := take (Z.to_nat max_len) name ++ [0].

(** Fields of entry [i] of a directory block. *)
Definition ent_inode (buf : list Z) (i : Z) : Z := word buf (64 * i).
Definition ent_name (buf : list Z) (i : Z) : list Z := cstr (drop (Z.to_nat (64 * i + 4)) buf).
Definition put_ent (buf : list Z) (i ino : Z) (name : list Z) : option (list Z) :=
  buf ← splice buf (64 * i) (le32 ino); splice buf (64 * i + 4) (copy_name name LUFIRAFS_MAX_NAME).

(** Number of blocks of a file of [n] bytes. *)
Definition nblocks (n : Z) : Z := u32 (u32 (n + LUFIRAFS_BLOCK_SIZE) - 1) / LUFIRAFS_BLOCK_SIZE.

(** The loop over the blocks of a directory: [f bn buf] runs on each block that can be read. *)
Definition dir_blocks {A} (dir : inode) (f : Z -> list Z -> M lufirafs (option A)) : M lufirafs (option A) :=
  for_range 0 (nblocks (size dir)) (fun b =>
    '(bn, _) ← inode_get_block dir b false;
    if bn =? 0 then mret None else
    buf ← read_data_block bn;
    match buf with None => mret None | Some buf => f bn buf end).

(** First entry of a block with property [p]. *)
Definition find_ent (p : Z -> bool) : option Z := find p (seqZ 0 LUFIRAFS_DIRENTS_PER_BLOCK).
Definition ent_is (buf name : list Z) (i : Z) : bool := negb (ent_inode buf i =? 0) && bool_decide (ent_name buf i = name).

Definition lookup_in_dir (dir_ino : Z) (name : list Z) : M lufirafs (option Z) :=
  d ← lufirafs_read_inode dir_ino;
  match d with
  | None => mret None
  | Some dir =>
      if negb (mode dir =? LUFIRAFS_MODE_DIR) then mret None else
      with_buf None (dir_blocks dir (fun _ buf => mret (ent_inode buf <$> find_ent (ent_is buf name))))
  end.

Definition add_dirent (dir_ino : Z) (name : list Z) (entry_ino : Z) : M lufirafs bool :=
  d ← lufirafs_read_inode dir_ino;
  match d with
  | None => mret false
  | Some dir =>
      r ← with_buf None (
        r ← dir_blocks dir (fun bn buf =>
              match find_ent (fun i => ent_inode buf i =? 0) with
              | None => mret None
              | Some i => buf ← lift (put_ent buf i entry_ino name); write_data_block bn buf;; mret (Some tt)
              end);
        match r with
        | Some _ => mret (Some None)
        | None =>
            '(bn, dir) ← inode_get_block dir (nblocks (size dir)) true;
            if bn =? 0 then mret None else
            buf ← lift (put_ent zero_block 0 entry_ino name);
            write_data_block bn buf;;
            mret (Some (Some dir))
        end);
      match r with
      | None => mret false
      | Some None => mret true
      | Some (Some dir') =>
          lufirafs_write_inode dir_ino (set_size (u32 (u32 (nblocks (size dir) + 1) * LUFIRAFS_BLOCK_SIZE)) dir');;
          mret true
      end
  end.

Definition remove_dirent (dir_ino : Z) (name : list Z) : M lufirafs bool :=
  d ← lufirafs_read_inode dir_ino;
  match d with
  | None => mret false
  | Some dir =>
      r ← with_buf None (dir_blocks dir (fun bn buf =>
            match find_ent (ent_is buf name) with
            | None => mret None
            | Some i => buf ← lift (splice buf (64 * i) (le32 0)); buf ← lift (splice buf (64 * i + 4) [0]);
                        write_data_block bn buf;; mret (Some tt)
            end));
      mret (match r with Some _ => true | None => false end)
  end.

(** [lufirafs_readdir] from index [index] on: the entry and the index after it. *)
Definition lufirafs_readdir (dir_ino index : Z) : M lufirafs (option (Z * list Z * Z)) :=
  d ← lufirafs_read_inode dir_ino;
  match d with
  | None => mret None
  | Some dir =>
      with_buf None (
        for_range index (nblocks (size dir) * LUFIRAFS_DIRENTS_PER_BLOCK) (fun k =>
          '(bn, _) ← inode_get_block dir (k / LUFIRAFS_DIRENTS_PER_BLOCK) false;
          if bn =? 0 then mret None else
          buf ← read_data_block bn;
          match buf with
          | None => mret None
          | Some buf =>
              let e := k mod LUFIRAFS_DIRENTS_PER_BLOCK in
              mret (if ent_inode buf e =? 0 then None else Some (ent_inode buf e, ent_name buf e, k + 1))
          end))
  end.

(** [while (lufirafs_readdir(&dir, &ent) == 0) ...] from index [index] on; each round moves the index
    forward, so the number of entries is enough fuel. *)
Fixpoint readdir_loop {A} (fuel : nat) (dir_ino index : Z) (acc : A) (f : A -> Z -> list Z -> M lufirafs (A + A)) : M lufirafs A :=
  match fuel with
  | O => fault
  | S fuel =>
      r ← lufirafs_readdir dir_ino index;
      match r with
      | None => mret acc
      | Some (ino, name, index) =>
          a ← f acc ino name;
          match a with inl acc => readdir_loop fuel dir_ino index acc f | inr acc => mret acc end
      end
  end.

Definition dir_fuel (dir_ino : Z) : M lufirafs nat :=
  d ← lufirafs_read_inode dir_ino;
  mret (match d with Some dir => S (Z.to_nat (nblocks (size dir) * LUFIRAFS_DIRENTS_PER_BLOCK)) | None => 1%nat end).

Definition dot : list Z := [0x2E].
Definition dotdot : list Z := [0x2E; 0x2E].
Definition is_dots (name : list Z) : bool := bool_decide (name = dot) || bool_decide (name = dotdot).

(** * Paths *)

Definition SLASH : Z := 0x2F.

Fixpoint skip_slashes (p : list Z) : list Z :=
  match p with c :: p' => if c =? SLASH then skip_slashes p' else p | [] => [] end.

(** At most [n] characters up to a slash: the component and what follows it. *)
Fixpoint take_component (n : nat) (p : list Z) : list Z * list Z :=
  match n, p with
  | S n, c :: p' => if c =? SLASH then ([], p) else let '(a, r) := take_component n p' in (c :: a, r)
  | _, _ => ([], p)
  end.

(** The loop of [lufirafs_lookup]; every round consumes a character, so the length of the path is
    enough fuel. *)
Fixpoint lookup_loop (fuel : nat) (cur : Z) (p : list Z) : M lufirafs (option Z) :=
  match p with
  | [] => mret (Some cur)
  | _ =>
      match fuel with
      | O => fault
      | S fuel =>
          let '(component, rest) := take_component (Z.to_nat LUFIRAFS_MAX_NAME) p in
          let rest := skip_slashes rest in
          if bool_decide (component = []) then lookup_loop fuel cur rest else
          next ← lookup_in_dir cur component;
          match next with None => mret None | Some next => lookup_loop fuel next rest end
      end
  end.

Definition lufirafs_lookup (start_inode : Z) (path : list Z) : M lufirafs (option Z) :=
  b ← gets sb;
  match path with
  | c :: p => if c =? SLASH then lookup_loop (length path) (root_inode b) p else lookup_loop (length path) start_inode path
  | [] => mret (Some start_inode)
  end.

(** [while (len > 1 && path[len - 1] == '/') len--] *)
Fixpoint strip_trailing (n : nat) (p : list Z) (len : Z) : Z :=
  match n with
  | O => len
  | S n => if (1 <? len) && (default 0 (zget p (len - 1)) =? SLASH) then strip_trailing n p (len - 1) else len
  end.

(** Index of the last slash before [len], -1 if there is none. *)
Definition last_slash_before (p : list Z) (len : Z) : Z :=
  fold_left (fun r i => if default 0 (zget p i) =? SLASH then i else r) (seqZ 0 len) (-1).

(** Parent inode and last component. *)
Definition lufirafs_resolve_parent (start_inode : Z) (path : list Z) : M lufirafs (option (Z * list Z)) :=
  if bool_decide (path = []) then mret None else
  b ← gets sb;
  let len := strip_trailing (length path) path (zlen path) in
  if len =? 0 then mret None else
  let last_slash := last_slash_before path len in
  if last_slash =? -1 then
    if LUFIRAFS_MAX_NAME <? len then mret None else mret (Some (start_inode, take (Z.to_nat len) path))
  else
    let name_len := len - (last_slash + 1) in
    if (name_len <=? 0) || (LUFIRAFS_MAX_NAME <? name_len) then mret None else
    let name := take (Z.to_nat name_len) (drop (Z.to_nat (last_slash + 1)) path) in
    if last_slash =? 0 then mret (Some (root_inode b, name)) else
    if 256 <=? last_slash then mret None else
    parent ← lufirafs_lookup start_inode (take (Z.to_nat last_slash) path);
    mret (match parent with Some p => Some (p, name) | None => None end).

Definition find_name_in_parent (parent_ino child_ino : Z) : M lufirafs (option (list Z)) :=
  fuel ← dir_fuel parent_ino;
  readdir_loop fuel parent_ino 0 None (fun acc ino name =>
    mret (if negb (is_dots name) && (ino =? child_ino) then inr (Some (take (Z.to_nat LUFIRAFS_MAX_NAME) name)) else inl acc)).

(** The names from [cur] up to the root, innermost first; at most [LUFIRAFS_MAX_PATH_DEPTH]. *)
Fixpoint path_names (depth : nat) (root cur : Z) : M lufirafs (option (list (list Z))) :=
  if cur =? root then mret (Some []) else
  match depth with
  | O => mret None
  | S depth =>
      parent ← lookup_in_dir cur dotdot;
      match parent with
      | None => mret None
      | Some parent =>
          name ← find_name_in_parent parent cur;
          match name with
          | None => mret None
          | Some name =>
              if parent =? cur then mret (Some [name]) else
              rest ← path_names depth root parent;
              mret (match rest with Some rest => Some (name :: rest) | None => None end)
          end
      end
  end.

Fixpoint join_names (out_size pos : Z) (names : list (list Z)) : option (list Z) :=
  match names with
  | [] => Some []
  | n :: names =>
      if out_size <=? pos + 1 + zlen n then None else
      rest ← join_names out_size (pos + 1 + zlen n) names; Some (SLASH :: n ++ rest)
  end.

Definition lufirafs_get_path (ino out_size : Z) : M lufirafs (option (list Z)) :=
  if out_size <? 2 then mret None else
  b ← gets sb;
  if ino =? root_inode b then mret (Some [SLASH]) else
  names ← path_names (Z.to_nat LUFIRAFS_MAX_PATH_DEPTH) (root_inode b) ino;
  mret (match names with Some names => join_names out_size 0 (rev names) | None => None end).

(** * Creating and removing *)

(** Return code, and the new inode when it is 0. *)
Definition lufirafs_create (parent_ino : Z) (name : list Z) (md u g pm : Z) : M lufirafs (Z * Z) :=
  if bool_decide (name = []) then mret (-1, 0) else
  existing ← lookup_in_dir parent_ino name;
  match existing with
  | Some _ => mret (-1, 0)
  | None =>
      ino ← alloc_inode;
      if ino =? 0 then mret (-2, 0) else
      lufirafs_write_inode ino (mk_inode md 0 (if md =? LUFIRAFS_MODE_DIR then 2 else 1) (replicate 12 0) 0 u g pm);;
      ok ← (if md =? LUFIRAFS_MODE_DIR then
              a ← add_dirent ino dot ino;
              if negb a then mret false else add_dirent ino dotdot parent_ino
            else mret true);
      if negb ok then free_inode_slot ino;; mret (-3, 0) else
      a ← add_dirent parent_ino name ino;
      if negb a then free_inode_slot ino;; mret (-3, 0) else mret (0, ino)
  end.

(** Number of entries other than the dots. *)
Definition count_entries (ino : Z) : M lufirafs Z :=
  fuel ← dir_fuel ino;
  readdir_loop fuel ino 0 0 (fun n _ name => mret (inl (if is_dots name then n else n + 1))).

Definition lufirafs_unlink (parent_ino : Z) (name : list Z) : M lufirafs Z :=
  if bool_decide (name = []) then mret (-1) else
  r ← lookup_in_dir parent_ino name;
  match r with
  | None => mret (-1)
  | Some ino =>
      b ← gets sb;
      if ino =? root_inode b then mret (-3) else
      t ← lufirafs_read_inode ino;
      match t with
      | None => mret (-1)
      | Some i =>
          extra ← (if mode i =? LUFIRAFS_MODE_DIR then count_entries ino else mret 0);
          if 0 <? extra then mret (-2) else
          for_range (R := unit) 0 (nblocks (size i)) (fun k =>
            '(bn, _) ← inode_get_block i k false;
            (if bn =? 0 then mret tt else free_data_block bn);;
            mret None);;
          (if indirect i =? 0 then mret tt else free_data_block (indirect i));;
          free_inode_slot ino;;
          remove_dirent parent_ino name;;
          mret 0
      end
  end.

(** * File contents *)

(** Bytes [off .. off + n) of a block. *)
Definition chunk_of (buf : list Z) (off n : Z) : list Z := take (Z.to_nat n) (drop (Z.to_nat off) buf).

(** The loop of [lufirafs_read]; it visits one block per round. *)
Fixpoint read_loop (fuel : nat) (i : inode) (pos remaining : Z) (dst : list Z) : M lufirafs (list Z) :=
  if remaining <=? 0 then mret dst else
  match fuel with
  | O => fault
  | S fuel =>
      let block_off := pos mod LUFIRAFS_BLOCK_SIZE in
      let chunk := Z.min (LUFIRAFS_BLOCK_SIZE - block_off) remaining in
      '(bn, _) ← inode_get_block i (pos / LUFIRAFS_BLOCK_SIZE) false;
      buf ← (if bn =? 0 then mret None else read_data_block bn);
      let part := match buf with Some buf => chunk_of buf block_off chunk | None => replicate (Z.to_nat chunk) 0 end in
      read_loop fuel i (u32 (pos + chunk)) (remaining - chunk) (dst ++ part)
  end.

Definition block_fuel (n : Z) : nat := S (S (Z.to_nat (n / LUFIRAFS_BLOCK_SIZE))).

(** Return code and the bytes stored in the caller's buffer. *)
Definition lufirafs_read (ino off count : Z) : M lufirafs (Z * list Z) :=
  t ← lufirafs_read_inode ino;
  match t with
  | None => mret (-1, [])
  | Some i =>
      if size i <=? off then mret (0, []) else
      let count := if size i <? u32 (off + count) then size i - off else count in
      with_buf (-1, []) (dst ← read_loop (block_fuel count) i off count []; mret (i32 count, dst))
  end.

(** The loop of [lufirafs_write]: the inode, the position reached and the bytes still to be stored. *)
Fixpoint write_loop (fuel : nat) (i : inode) (pos : Z) (src : list Z) : M lufirafs (inode * Z * list Z) :=
  match src with
  | [] => mret (i, pos, src)
  | _ =>
      match fuel with
      | O => fault
      | S fuel =>
          let block_off := pos mod LUFIRAFS_BLOCK_SIZE in
          let chunk := Z.min (LUFIRAFS_BLOCK_SIZE - block_off) (zlen src) in
          '(bn, i) ← inode_get_block i (pos / LUFIRAFS_BLOCK_SIZE) true;
          if bn =? 0 then mret (i, pos, src) else
          let part := take (Z.to_nat chunk) src in
          buf ← (if negb (block_off =? 0) || negb (chunk =? LUFIRAFS_BLOCK_SIZE) then
                   old ← read_data_block bn;
                   lift (splice (default zero_block old) block_off part)
                 else mret part);
          write_data_block bn buf;;
          write_loop fuel i (u32 (pos + chunk)) (drop (Z.to_nat chunk) src)
      end
  end.

Definition lufirafs_write (ino off : Z) (buf : list Z) : M lufirafs Z :=
  let count := zlen buf in
  t ← lufirafs_read_inode ino;
  match t with
  | None => mret (-1)
  | Some i =>
      if LUFIRAFS_MAX_FILE_SIZE <? off + count then mret (-1) else
      with_buf (-1) (
        '(i, pos, rest) ← write_loop (block_fuel count) i off buf;
        lufirafs_write_inode ino (if size i <? pos then set_size pos i else i);;
        mret (match rest with
              | [] => count
              | _ => if 0 <? count - zlen rest then count - zlen rest else -1
              end))
  end.

(** The loop of [lufirafs_truncate] over the blocks that go; [ind] is the copy of the indirect block,
    with a flag when it was changed. *)
Definition truncate_step (st : inode * option (list Z) * bool) (b : Z) : M lufirafs (inode * option (list Z) * bool) :=
  let '(i, ind, dirty) := st in
  '(bn, _) ← inode_get_block i b false;
  if bn =? 0 then mret (i, ind, dirty) else
  free_data_block bn;;
  if b <? LUFIRAFS_DIRECT_BLOCKS then l ← lift (zset (direct i) b 0); mret (set_direct l i, ind, dirty)
  else match ind with
       | Some buf => buf ← lift (splice buf (4 * (b - LUFIRAFS_DIRECT_BLOCKS)) (le32 0)); mret (i, Some buf, true)
       | None => mret (i, ind, dirty)
       end.

Definition lufirafs_truncate (ino new_size : Z) : M lufirafs Z :=
  t ← lufirafs_read_inode ino;
  match t with
  | None => mret (-1)
  | Some i =>
      i ← (if negb (new_size <? size i) then mret i else
        let old_n := nblocks (size i) in
        let new_n := nblocks new_size in
        let need := negb (indirect i =? 0) && (LUFIRAFS_DIRECT_BLOCKS <? old_n) && (new_n <? old_n) in
        p ← (if need then on_heap (ba_alloc LUFIRAFS_BLOCK_SIZE) else mret 0);
        ind ← (if p =? 0 then mret None else
                 r ← read_data_block (indirect i);
                 match r with None => on_heap (ba_release p);; mret None | Some buf => mret (Some buf) end);
        let loop_end := match ind with
          | None => if need then Z.max new_n LUFIRAFS_DIRECT_BLOCKS else old_n
          | Some _ => old_n
          end in
        r ← for_acc (R := unit) new_n loop_end (i, ind, false) (fun b st => st ← truncate_step st b; mret (inl st));
        match r with
        | inr _ => fault
        | inl (i, ind, dirty) =>
            (match ind with
             | Some buf => (if (dirty : bool) then write_data_block (indirect i) buf;; mret tt else mret tt);; on_heap (ba_release p)
             | None => mret tt
             end);;
            if (new_n =? 0) && negb (indirect i =? 0) then
              free_data_block (indirect i);; mret (set_indirect 0 i)
            else mret i
        end);
      lufirafs_write_inode ino (set_size new_size i);;
      mret 0
  end.

(** [depth] bounds the recursion into subdirectories. *)
Fixpoint lufirafs_du_blocks (depth : nat) (ino : Z) : M lufirafs Z :=
  match depth with
  | O => fault
  | S depth =>
      t ← lufirafs_read_inode ino;
      match t with
      | None => mret 0
      | Some i =>
          let blocks := u32 (nblocks (size i) + (if indirect i =? 0 then 0 else 1)) in
          if negb (mode i =? LUFIRAFS_MODE_DIR) then mret blocks else
          fuel ← dir_fuel ino;
          readdir_loop fuel ino 0 blocks (fun total ino name =>
            if is_dots name then mret (inl total) else n ← lufirafs_du_blocks depth ino; mret (inl (u32 (total + n))))
      end
  end.

(** * Mounting and flushing *)

(** The metadata, read in pieces of at most 255 sectors. *)
Fixpoint read_metadata (fuel : nat) (lba done total : Z) (acc : list Z) : M lufirafs (option (list Z)) :=
  if total <=? done then mret (Some acc) else
  match fuel with
  | O => fault
  | S fuel =>
      let chunk := Z.min 255 (total - done) in
      r ← on_disk (bd_read (u32 (lba + done)) chunk);
      match r with None => mret None | Some l => read_metadata fuel lba (done + chunk) total (acc ++ l) end
  end.

(** The part of [lufirafs_init] after the checks of the superblock [b]: the buffers and the metadata. *)
Definition load_metadata (lba : Z) (b : superblock) : M lufirafs Z :=
  p ← on_heap (ba_alloc (u32 (data_start b * LUFIRAFS_BLOCK_SIZE)));
  if p =? 0 then mret (-1) else
  let total := u32 (data_start b * SECTORS_PER_BLOCK) in
  im ← read_metadata (S (Z.to_nat (total / 255))) lba 0 total [];
  match im with
  | None => on_heap (ba_release p);; mret (-1)
  | Some im =>
      let n := u32 (data_start b + 7) / 8 in
      q ← on_heap (ba_alloc n);
      if q =? 0 then on_heap (ba_release p);; mret (-1) else
      modify (fun s => mk_fs im lba b (replicate (Z.to_nat n) 0) (data_start b) (disk s) (kheap s));;
      mret 0
  end.

(** A mount that fails after the superblock was read leaves [image] as it was. *)
Definition lufirafs_init (lba : Z) : M lufirafs Z :=
  modify (fun s => mk_fs (image s) lba (sb s) (dirty_bitmap s) (next_free_block s) (disk s) (kheap s));;
  r ← on_disk (bd_read lba SECTORS_PER_BLOCK);
  match r with
  | None => mret (-1)
  | Some buf =>
      let b := decode_sb buf in
      modify (set_sb b);;
      if negb (magic b =? LUFIRAFS_MAGIC) then mret (-1) else
      if negb (block_size b =? LUFIRAFS_BLOCK_SIZE) then mret (-1) else
      load_metadata lba b
  end.

Definition lufirafs_sync : M lufirafs unit :=
  b ← gets sb;
  for_range (R := unit) 0 (data_start b) (fun k =>
    d ← gets dirty_bitmap;
    dirty ← lift (bm_test d k);
    if negb dirty then mret None else
    lba ← gets (fun s => block_lba s k);
    buf ← img_read (k * LUFIRAFS_BLOCK_SIZE) LUFIRAFS_BLOCK_SIZE;
    ok ← on_disk (bd_write lba SECTORS_PER_BLOCK buf);
    (if (ok : bool) then d ← lift (bm_clear d k); modify (set_dirty d) else mret tt);;
    mret None);;
  mret tt.

Definition lufirafs_flush : M lufirafs unit := lufirafs_sync.
End lufirafs.
