(* ===== verification/LufirafsView.v ===== *)
(** What the operations of lufirafs.c on the metadata image and on the disk do, as changes of a
    view: which blocks are in use, what every inode is, what every data block holds. *)

From S2P Require Import Prelude Bitmap Memory Interfaces Lufirafs.

(** * Bytes *)

Definition cut (l : list Z) (off n : Z) : list Z := take (Z.to_nat n) (drop (Z.to_nat off) l).

Lemma zget_cut l off n k : 0 <= off -> 0 <= k < n -> zget (cut l off n) k = zget l (off + k).
Proof.
  intros Ho Hk. unfold cut, zget. rewrite (proj2 (Z.leb_le 0 k)), (proj2 (Z.leb_le 0 (off + k))) by lia.
  rewrite lookup_take_lt, lookup_drop by lia. f_equal. lia.
Qed.

Lemma zlen_cut l off n : 0 <= off -> 0 <= n -> off + n <= zlen l -> zlen (cut l off n) = n.
Proof. intros. unfold cut, zlen in *. rewrite length_take, length_drop. lia. Qed.

Lemma list_zext (l l' : list Z) : zlen l = zlen l' -> (forall k, 0 <= k < zlen l -> zget l k = zget l' k) -> l = l'.
Proof.
  intros Hl H. apply list_eq_same_length with (length l); [unfold zlen in *; lia|done|].
  intros k x y Hk Hx Hy. specialize (H (Z.of_nat k)). unfold zget, zlen in H.
  rewrite (proj2 (Z.leb_le 0 (Z.of_nat k))), Nat2Z.id in H by lia. rewrite Hx, Hy in H. by injection (H ltac:(lia)).
Qed.

Lemma cut_ext l l' off n : 0 <= off -> 0 <= n -> zlen l = zlen l' -> off + n <= zlen l ->
  (forall k, off <= k < off + n -> zget l k = zget l' k) -> cut l off n = cut l' off n.
Proof.
  intros Ho Hn Hl Hle H. apply list_zext; rewrite !zlen_cut by lia; [done|].
  intros k Hk. rewrite !zget_cut by lia. apply H. lia.
Qed.

Lemma cut_splice_same l off src l' : splice l off src = Some l' -> cut l' off (zlen src) = src.
Proof.
  intros Hs. pose proof (splice_len _ _ _ _ Hs) as Hl. unfold splice in Hs. destruct (_ && _) eqn:E; [|done].
  apply andb_true_iff in E as [H1%Z.leb_le H2%Z.leb_le]. injection Hs as <-.
  unfold cut. rewrite drop_app_length'; [|unfold zlen in *; rewrite length_take; lia].
  unfold zlen. rewrite Nat2Z.id, take_app_length. done.
Qed.

Lemma cut_splice_other l off src l' a n : splice l off src = Some l' -> 0 <= a -> 0 <= n -> a + n <= zlen l ->
  a + n <= off \/ off + zlen src <= a -> cut l' a n = cut l a n.
Proof.
  intros Hs Ha Hn Hle Hd. pose proof (splice_len _ _ _ _ Hs) as Hl. apply cut_ext; try lia.
  intros k Hk. rewrite (zget_splice _ _ _ _ k Hs).
  destruct (Z.leb_spec off k), (Z.ltb_spec k (off + zlen src)); cbn; (done || lia).
Qed.

Lemma word_cut l off : word l off = le_combine (cut l off 4).
Proof. done. Qed.

(** * Structures of 4-byte words *)

Lemma zlen_le32 x : zlen (le32 x) = 4.
Proof. unfold zlen, le32. by rewrite length_le_split. Qed.

Lemma length_words ws : length (concat (le32 <$> ws)) = (4 * length ws)%nat.
Proof. induction ws as [|x ws IH]; [done|]. cbn [fmap list_fmap concat]. rewrite length_app, IH. unfold le32. rewrite length_le_split. simpl. lia. Qed.

Lemma word_le32 l x r : zlen l = r -> forall l', word (l ++ le32 x ++ l') r = u32 x.
Proof.
  intros <- l'. unfold word. rewrite drop_app_length' by (unfold zlen; lia).
  rewrite take_app_length' by (unfold le32; by rewrite length_le_split).
  unfold le32. by rewrite le_combine_split.
Qed.

(** Word [k] of an encoded structure. *)
Lemma word_nth ws tl k x : ws !! k = Some x -> word (concat (le32 <$> ws) ++ tl) (4 * Z.of_nat k) = u32 x.
Proof.
  intros Hk. rewrite <- (take_drop_middle ws k x Hk) at 1. rewrite fmap_app, concat_app, <- app_assoc. cbn [fmap list_fmap concat].
  rewrite <- app_assoc. apply word_le32. unfold zlen. rewrite length_words, length_take_le; [lia|]. apply lookup_lt_Some in Hk. lia.
Qed.

Definition inode_words (i : inode) : list Z :=
  [mode i; size i; links_count i] ++ direct i ++ [indirect i; uid i; gid i; perm i].

Record inode_ok (i : inode) : Prop := {
  io_words : Forall is_u32 (inode_words i);
  io_direct : length (direct i) = 12%nat;
}.

Lemma encode_inode_words i : encode_inode i = concat (le32 <$> inode_words i).
Proof. unfold encode_inode, inode_words. by rewrite !fmap_app, !concat_app. Qed.

Lemma zlen_encode_inode i : length (direct i) = 12%nat -> zlen (encode_inode i) = LUFIRAFS_INODE_SIZE.
Proof. intros H. rewrite encode_inode_words. unfold zlen. rewrite length_words. unfold inode_words. rewrite !length_app, H. done. Qed.

Lemma decode_encode_inode i : inode_ok i -> decode_inode (encode_inode i) = i.
Proof.
  intros [Hw Hd]. rewrite encode_inode_words, <- (app_nil_r (concat _)). unfold decode_inode.
  assert (forall k x, inode_words i !! k = Some x -> word (concat (le32 <$> inode_words i) ++ []) (4 * Z.of_nat k) = x) as Hword.
  { intros k x Hk. rewrite (word_nth _ _ _ _ Hk). apply u32_small. by eapply Forall_lookup_1. }
  pose proof (Hword 0%nat (mode i) eq_refl) as E0. pose proof (Hword 1%nat (size i) eq_refl) as E1.
  pose proof (Hword 2%nat (links_count i) eq_refl) as E2.
  assert (forall k, inode_words i !! (15 + k)%nat = [indirect i; uid i; gid i; perm i] !! k) as Htail.
  { intros k. unfold inode_words. rewrite app_assoc, lookup_app_r by (rewrite length_app, Hd; simpl; lia). f_equal. rewrite length_app, Hd. simpl. lia. }
  pose proof (Hword 15%nat (indirect i) (Htail 0%nat)) as E15. pose proof (Hword 16%nat (uid i) (Htail 1%nat)) as E16.
  pose proof (Hword 17%nat (gid i) (Htail 2%nat)) as E17. pose proof (Hword 18%nat (perm i) (Htail 3%nat)) as E18.
  set (W := concat _ ++ []) in *.
  rewrite (E0 : word W 0 = _), (E1 : word W 4 = _), (E2 : word W 8 = _), (E15 : word W 60 = _), (E16 : word W 64 = _),
    (E17 : word W 68 = _), (E18 : word W 72 = _).
  assert ((fun k => word W (12 + 4 * k)) <$> seqZ 0 12 = direct i) as ->; [|by destruct i].
  apply list_eq. intros k. rewrite list_lookup_fmap. destruct (decide (k < 12)%nat) as [Hk|Hk].
  - rewrite lookup_seqZ_lt by lia. cbn. destruct (lookup_lt_is_Some_2 (direct i) k) as [x Hx]; [lia|]. rewrite Hx. f_equal.
    replace (12 + 4 * (0 + Z.of_nat k)) with (4 * Z.of_nat (3 + k)) by lia. apply Hword.
    unfold inode_words. rewrite lookup_app_r by (simpl; lia). cbn [length]. replace (3 + k - 3)%nat with k by lia.
    rewrite lookup_app_l by lia. done.
  - rewrite lookup_seqZ_ge by lia. cbn. symmetry. apply lookup_ge_None_2. lia.
Qed.

(** * Geometry and view *)

Record geom := mk_geom { g_total : Z; g_bitmap : Z; g_lba : Z }.
(** First block of the inode table, and of the data. *)
Definition g_its (g : geom) : Z := 1 + g_bitmap g.
Definition g_ds (g : geom) : Z := g_its g + 5.

Record geom_ok (g : geom) : Prop := {
  go_bitmap : 1 <= g_bitmap g;
  go_total : g_ds g <= g_total g <= g_bitmap g * 65536;
  go_image : g_ds g * LUFIRAFS_BLOCK_SIZE < 2 ^ 32;
  go_lba : 0 <= g_lba g /\ g_lba g + g_total g * SECTORS_PER_BLOCK <= 2 ^ 32;
}.

Record sb_geom (b : superblock) (g : geom) : Prop := {
  sg_total : total_blocks b = g_total g;
  sg_bitmap : bitmap_start b = 1;
  sg_its : inode_table_start b = g_its g;
  sg_count : inode_count b = LUFIRAFS_INODE_COUNT;
  sg_ds : data_start b = g_ds g;
  sg_free : 0 <= free_blocks b /\ 0 <= free_inodes b;
  sg_reserved : zlen (reserved b) = 8140 /\ Forall is_u8 (reserved b);
}.

Definition img_used (im : list Z) (b : Z) : bool := Z.testbit (default 0 (zget im (LUFIRAFS_BLOCK_SIZE + b / 8))) (b mod 8).
Definition ino_off (g : geom) (ino : Z) : Z := g_its g * LUFIRAFS_BLOCK_SIZE + (ino - 1) * LUFIRAFS_INODE_SIZE.
Definition img_inode (im : list Z) (g : geom) (ino : Z) : inode := decode_inode (cut im (ino_off g ino) LUFIRAFS_INODE_SIZE).

Definition is_ino (ino : Z) : Prop := 1 <= ino <= LUFIRAFS_INODE_COUNT.
Definition is_data (g : geom) (b : Z) : Prop := g_ds g <= b < g_total g.

Record view := mk_view { v_used : Z -> bool; v_ino : Z -> inode; v_blk : Z -> list Z }.

Section view.
Context {HS DS : Type} `{!BlockAllocator HS} `{!BlockDevice DS}.
Implicit Types (s : lufirafs (HS := HS) (DS := DS)) (g : geom) (v : view).

(** Contents of data block [b]. *)
Definition blk (d : DS) g (b : Z) : list Z := concat (bd_sector d <$> seqZ (g_lba g + b * SECTORS_PER_BLOCK) SECTORS_PER_BLOCK).

(** [live] are the heap blocks held. *)
Record fs_ok s g (live : gset Z) : Prop := {
  fo_geom : geom_ok g;
  fo_sb : sb_geom (sb s) g;
  fo_lba : lba_offset s = g_lba g;
  fo_image : zlen (image s) = g_ds g * LUFIRAFS_BLOCK_SIZE;
  fo_bytes : Forall is_u8 (image s);
  fo_dirty : g_ds g <= 8 * zlen (dirty_bitmap s);
  fo_next : g_ds g <= next_free_block s <= g_total g;
  fo_heap : ba_rep (kheap s) live;
  fo_good : forall i, g_lba g <= i < g_lba g + g_total g * SECTORS_PER_BLOCK -> bd_good (disk s) i;
}.

Record has_view s g live v : Prop := {
  hv_ok : fs_ok s g live;
  hv_used : forall b, is_data g b -> img_used (image s) b = v_used v b;
  hv_ino : forall ino, is_ino ino -> img_inode (image s) g ino = v_ino v ino;
  hv_blk : forall b, is_data g b -> blk (disk s) g b = v_blk v b;
}.

Definition use (b : Z) (u : bool) v : view := mk_view (fun k => if k =? b then u else v_used v k) (v_ino v) (v_blk v).
Definition put (b : Z) (l : list Z) v : view := mk_view (v_used v) (v_ino v) (fun k => if k =? b then l else v_blk v k).
Definition put_ino (ino : Z) (i : inode) v : view := mk_view (v_used v) (fun k => if k =? ino then i else v_ino v k) (v_blk v).

Lemma has_view_heap s g live live' v h : has_view s g live v -> ba_rep h live' -> has_view (set_heap h s) g live' v.
Proof. intros [[H1 H2 H3 H4 H5 H6 H7 H8 H9] Hu Hi Hb] Hr. by split; [split|..]. Qed.

Lemma has_view_dirty s g live v d : has_view s g live v -> zlen d = zlen (dirty_bitmap s) -> has_view (set_dirty d s) g live v.
Proof. intros [[H1 H2 H3 H4 H5 H6 H7 H8 H9] Hu Hi Hb] Hl. split; [split; try done; cbn; lia|done..]. Qed.

Lemma has_view_sb s g live v b : has_view s g live v -> sb_geom b g -> has_view (set_sb b s) g live v.
Proof. intros [[H1 H2 H3 H4 H5 H6 H7 H8 H9] Hu Hi Hb] Hl. by split; [split|..]. Qed.

Lemma has_view_next s g live v n : has_view s g live v -> g_ds g <= n <= g_total g -> has_view (set_next n s) g live v.
Proof. intros [[H1 H2 H3 H4 H5 H6 H7 H8 H9] Hu Hi Hb] Hl. by split; [split|..]. Qed.

Lemma has_view_image s g live v im v' : has_view s g live v -> zlen im = zlen (image s) -> Forall is_u8 im ->
  (forall b, is_data g b -> img_used im b = v_used v' b) -> (forall ino, is_ino ino -> img_inode im g ino = v_ino v' ino) ->
  v_blk v' = v_blk v -> has_view (set_image im s) g live v'.
Proof.
  intros [[H1 H2 H3 H4 H5 H6 H7 H8 H9] Hu Hi Hb] Hl Hby Hu' Hi' E.
  split; [split; try done; cbn; by rewrite Hl|done|done|]. cbn. intros b Hb'. rewrite E. by apply Hb.
Qed.

(** ** Heap *)

Lemma wp_kmalloc (Q : Z -> lufirafs -> Prop) s g live v n : has_view s g live v -> 0 < n -> n + 32 <= 2 ^ 64 ->
  (forall h, ba_alloc n (kheap s) = Some (0, h) -> Q 0 s) ->
  (forall h p, p <> 0 -> p ∉ live -> has_view (set_heap h s) g ({[p]} ∪ live) v -> Q p (set_heap h s)) ->
  wp (on_heap (ba_alloc n)) Q s.
Proof.
  intros Hv Hn Hn' H0 HQ. pose proof (ba_alloc_spec _ _ n (fo_heap _ _ _ (hv_ok _ _ _ _ Hv)) Hn Hn') as Ha.
  unfold wp in Ha |- *. unfold on_heap. destruct (ba_alloc n (kheap s)) as [[p h]|] eqn:Ea; [|done].
  destruct Ha as [[-> ->]|(Hp & Hnl & Hr)]; [specialize (H0 _ eq_refl); by destruct s|]. apply HQ; [done..|]. by eapply has_view_heap.
Qed.

Lemma wp_kfree (Q : unit -> lufirafs -> Prop) s g live v p : has_view s g ({[p]} ∪ live) v -> p ∉ live ->
  (forall h, has_view (set_heap h s) g live v -> Q tt (set_heap h s)) ->
  wp (on_heap (ba_release p)) Q s.
Proof.
  intros Hv Hp HQ. pose proof (ba_release_spec _ _ p (fo_heap _ _ _ (hv_ok _ _ _ _ Hv)) ltac:(set_solver)) as Ha.
  unfold wp in Ha |- *. unfold on_heap. destruct (ba_release p (kheap s)) as [[[] h]|]; [|done].
  apply HQ. eapply has_view_heap; [done|]. replace (({[p]} ∪ live) ∖ {[p]}) with live in Ha by set_solver. done.
Qed.

(** Some state of the heap refuses a block-sized buffer. *)
Definition heap_refuses : Prop := exists h live h', ba_rep h live /\ ba_alloc LUFIRAFS_BLOCK_SIZE h = Some (0, h').

Lemma refused s g live v h : has_view s g live v -> ba_alloc LUFIRAFS_BLOCK_SIZE (kheap s) = Some (0, h) -> heap_refuses.
Proof. intros Hv Hh. exists (kheap s), live, h. split; [apply Hv|done]. Qed.

Lemma wp_with_buf {A} (Q : A -> lufirafs -> Prop) s g live v fail body :
  has_view s g live v -> (heap_refuses -> Q fail s) ->
  (forall h p, p <> 0 -> p ∉ live -> has_view (set_heap h s) g ({[p]} ∪ live) v ->
     wp body (fun r s' => exists v', has_view s' g ({[p]} ∪ live) v' /\
        forall h', has_view (set_heap h' s') g live v' -> Q r (set_heap h' s')) (set_heap h s)) ->
  wp (with_buf fail body) Q s.
Proof.
  intros Hv Hf Hb. unfold with_buf. wstep.
  apply (wp_kmalloc _ _ _ _ _ _ Hv); [unfold LUFIRAFS_BLOCK_SIZE; lia..|intros h Hh; rewrite Z.eqb_refl; wstep; by eapply Hf, refused|].
  intros h p Hp Hnl Hv1. rewrite (proj2 (Z.eqb_neq _ _) Hp). wstep. eapply wp_mono; [by apply Hb|].
  intros r s' (v' & Hv' & HQ). wstep. apply (wp_kfree _ _ _ _ _ _ Hv' Hnl). intros h' Hv''. wstep. by apply HQ.
Qed.

(** ** Metadata *)

Lemma wp_mark_dirty (Q : unit -> lufirafs -> Prop) s g live v block : has_view s g live v -> 0 <= block ->
  (forall d, has_view (set_dirty d s) g live v -> Q tt (set_dirty d s)) -> wp (mark_dirty block) Q s.
Proof.
  intros Hv Hb HQ. unfold mark_dirty. wstep. wstep. rewrite (sg_ds _ _ (fo_sb _ _ _ (hv_ok _ _ _ _ Hv))).
  destruct (Z.leb_spec (g_ds g) block) as [Hge|Hlt].
  - wstep. assert (set_dirty (dirty_bitmap s) s = s) as <- by by destruct s. apply HQ. by apply has_view_dirty.
  - wstep. wstep. pose proof (fo_dirty _ _ _ (hv_ok _ _ _ _ Hv)).
    destruct (bm_set_spec (dirty_bitmap s) block ltac:(lia)) as (d & Hd & Hl & _).
    wstep. eapply wp_lift; [exact Hd|]. cbv beta. wstep. apply HQ. by apply has_view_dirty.
Qed.

Lemma encode_sb_len b g : sb_geom b g -> zlen (encode_sb b) = LUFIRAFS_BLOCK_SIZE /\ Forall is_u8 (encode_sb b).
Proof.
  intros H. destruct (sg_reserved _ _ H) as [Hr Hf]. unfold encode_sb. split.
  - rewrite zlen_app, Hr. unfold zlen. by rewrite length_words.
  - apply Forall_app. split; [|done]. apply Forall_concat, Forall_fmap, Forall_true. intros x. apply le_split_bytes.
Qed.

Lemma block_ge g : geom_ok g -> g_its g * LUFIRAFS_BLOCK_SIZE = LUFIRAFS_BLOCK_SIZE + g_bitmap g * LUFIRAFS_BLOCK_SIZE /\
  g_ds g * LUFIRAFS_BLOCK_SIZE = g_its g * LUFIRAFS_BLOCK_SIZE + 40960.
Proof. intros _. unfold g_ds, g_its, LUFIRAFS_BLOCK_SIZE. lia. Qed.

(** Where the bitmap byte of a data block and an inode lie in the image. *)
Lemma bitmap_pos g b : geom_ok g -> is_data g b ->
  LUFIRAFS_BLOCK_SIZE <= LUFIRAFS_BLOCK_SIZE + b / 8 < g_its g * LUFIRAFS_BLOCK_SIZE.
Proof.
  intros Hg Hb. destruct (block_ge g Hg) as [E _]. rewrite E. unfold is_data in Hb. pose proof (go_total _ Hg).
  pose proof (go_bitmap _ Hg). unfold g_ds, g_its, LUFIRAFS_BLOCK_SIZE in *.
  assert (0 <= b / 8) by (apply Z.div_pos; lia). assert (b / 8 < g_bitmap g * 8192) by (apply Z.div_lt_upper_bound; lia). lia.
Qed.

Lemma ino_pos g ino : geom_ok g -> is_ino ino ->
  g_its g * LUFIRAFS_BLOCK_SIZE <= ino_off g ino /\ ino_off g ino + LUFIRAFS_INODE_SIZE <= g_ds g * LUFIRAFS_BLOCK_SIZE.
Proof.
  intros Hg Hi. destruct (block_ge g Hg) as [_ ->]. unfold ino_off, is_ino, LUFIRAFS_INODE_COUNT, LUFIRAFS_INODE_SIZE in *. lia.
Qed.

Lemma Forall_splice (P : Z -> Prop) l off src l' : splice l off src = Some l' -> Forall P l -> Forall P src -> Forall P l'.
Proof.
  unfold splice. destruct (_ && _); [|done]. intros [= <-] Hl Hs. repeat apply Forall_app_2; [by apply Forall_take|done|by apply Forall_drop].
Qed.

Lemma used_splice im off src im' b : splice im off src = Some im' ->
  ~ (off <= LUFIRAFS_BLOCK_SIZE + b / 8 < off + zlen src) -> img_used im' b = img_used im b.
Proof.
  intros Hs Hn. unfold img_used. rewrite (zget_splice _ _ _ _ _ Hs).
  destruct (Z.leb_spec off (LUFIRAFS_BLOCK_SIZE + b / 8)), (Z.ltb_spec (LUFIRAFS_BLOCK_SIZE + b / 8) (off + zlen src)); cbn; (done || lia).
Qed.

Lemma inode_splice im off src im' g ino : geom_ok g -> zlen im = g_ds g * LUFIRAFS_BLOCK_SIZE -> is_ino ino -> splice im off src = Some im' ->
  ino_off g ino + LUFIRAFS_INODE_SIZE <= off \/ off + zlen src <= ino_off g ino -> img_inode im' g ino = img_inode im g ino.
Proof.
  intros Hg Hl Hi Hs Hd. unfold img_inode. f_equal. destruct (ino_pos g ino Hg Hi).
  eapply cut_splice_other; [exact Hs| |done|lia|lia]. pose proof (go_bitmap _ Hg). unfold g_its, LUFIRAFS_BLOCK_SIZE in *. lia.
Qed.

Lemma wp_img_write (Q : unit -> lufirafs -> Prop) s off l : 0 <= off -> off + zlen l <= zlen (image s) ->
  (forall im, splice (image s) off l = Some im -> zlen im = zlen (image s) -> Q tt (set_image im s)) -> wp (img_write off l) Q s.
Proof.
  intros Ho Hl HQ. unfold img_write. wstep. wstep. pose proof (splice_in (image s) off l Ho Hl) as Hs.
  wstep. eapply wp_lift; [exact Hs|]. cbv beta. wstep. apply HQ; [done|]. by eapply splice_len.
Qed.

Lemma image_size_ge g : geom_ok g -> 2 * LUFIRAFS_BLOCK_SIZE <= g_its g * LUFIRAFS_BLOCK_SIZE <= g_ds g * LUFIRAFS_BLOCK_SIZE.
Proof. intros Hg. pose proof (go_bitmap _ Hg). unfold g_ds, g_its, LUFIRAFS_BLOCK_SIZE. lia. Qed.

Lemma wp_write_superblock (Q : unit -> lufirafs -> Prop) s g live v : has_view s g live v ->
  (forall im d, has_view (set_dirty d (set_image im s)) g live v -> Q tt (set_dirty d (set_image im s))) -> wp write_superblock Q s.
Proof.
  intros Hv HQ. pose proof (hv_ok _ _ _ _ Hv) as Hok. pose proof (fo_geom _ _ _ Hok) as Hg.
  destruct (encode_sb_len _ _ (fo_sb _ _ _ Hok)) as [Hl Hby]. pose proof (image_size_ge g Hg). pose proof (fo_image _ _ _ Hok) as Hi.
  unfold write_superblock. wstep. wstep. wstep. apply wp_img_write; [lia|rewrite Hl; unfold LUFIRAFS_BLOCK_SIZE in *; lia|].
  intros im Hs Hlen. eapply wp_mark_dirty; [|lia|exact (HQ im)]. eapply has_view_image; [exact Hv|done| |..|done].
  - eapply Forall_splice; [exact Hs|apply Hok|done].
  - intros b Hb. rewrite <- (hv_used _ _ _ _ Hv) by done. pose proof (bitmap_pos g b Hg Hb).
    apply (used_splice _ _ _ _ _ Hs). rewrite Hl. lia.
  - intros ino Hino. rewrite <- (hv_ino _ _ _ _ Hv) by done. destruct (ino_pos g ino Hg Hino).
    apply (inode_splice _ _ _ _ _ _ Hg Hi Hino Hs). rewrite Hl. unfold LUFIRAFS_BLOCK_SIZE in *. lia.
Qed.

(** ** Block bitmap *)

Lemma bitmap_byte_at s g live v b : has_view s g live v -> is_data g b ->
  exists x, zget (image s) (bitmap_byte (sb s) b) = Some x /\ bitmap_byte (sb s) b = LUFIRAFS_BLOCK_SIZE + b / 8 /\
    0 <= b mod 8 < 8 /\ is_u8 x.
Proof.
  intros Hv Hb. pose proof (hv_ok _ _ _ _ Hv) as Hok. pose proof (fo_geom _ _ _ Hok) as Hg.
  pose proof (bitmap_pos g b Hg Hb). pose proof (image_size_ge g Hg).
  assert (bitmap_byte (sb s) b = LUFIRAFS_BLOCK_SIZE + b / 8) as E.
  { unfold bitmap_byte. rewrite (sg_bitmap _ _ (fo_sb _ _ _ Hok)). lia. }
  rewrite E. destruct (zget_Some (image s) (LUFIRAFS_BLOCK_SIZE + b / 8)) as [x Hx].
  { rewrite (fo_image _ _ _ Hok). unfold LUFIRAFS_BLOCK_SIZE in *. lia. }
  exists x. split_and!; [done|done|apply Z.mod_pos_bound; lia..|].
  pose proof (fo_bytes _ _ _ Hok) as Hf. unfold zget in Hx. destruct (0 <=? _); [|done]. by eapply Forall_lookup_1.
Qed.

Lemma wp_block_bitmap_test (Q : bool -> lufirafs -> Prop) s g live v b : has_view s g live v -> is_data g b ->
  Q (v_used v b) s -> wp (block_bitmap_test b) Q s.
Proof.
  intros Hv Hb HQ. destruct (bitmap_byte_at _ _ _ _ _ Hv Hb) as (x & Hx & E & Hm & _). unfold block_bitmap_test.
  wstep. wstep. wstep. wstep. wstep. eapply wp_lift; [exact Hx|]. cbv beta. wstep.
  rewrite <- (hv_used _ _ _ _ Hv) in HQ by done. unfold img_used in HQ. rewrite E in Hx. rewrite Hx in HQ. cbn in HQ.
  replace (negb (Z.land (Z.shiftr x (b mod 8)) 1 =? 0)) with (Z.testbit x (b mod 8)); [done|].
  change 1 with (Z.ones 1). rewrite Z.land_ones by lia. change (2 ^ 1) with 2. rewrite Zmod_odd, <- Z.bit0_odd, Z.shiftr_spec by lia.
  rewrite Z.add_0_l. by destruct (Z.testbit x (b mod 8)).
Qed.

Lemma zset_splice (l : list Z) i x : zset l i x = splice l i [x].
Proof.
  unfold zset, splice, zlen. cbn [length]. destruct (Z.leb_spec 0 i); [|done]. cbn [andb].
  destruct (Z.ltb_spec i (Z.of_nat (length l))), (Z.leb_spec (i + Z.of_nat 1) (Z.of_nat (length l))); try lia; [|done].
  f_equal. rewrite insert_take_drop by lia. by replace (Z.to_nat (i + Z.of_nat 1)) with (S (Z.to_nat i)) by lia.
Qed.

Definition set_bit_of (x m : Z) (u : bool) : Z := if u then Z.lor x (Z.shiftl 1 m) else Z.land x (u8 (Z.lnot (Z.shiftl 1 m))).

Lemma set_bit_spec x m u k : 0 <= m < 8 -> 0 <= k < 8 ->
  Z.testbit (set_bit_of x m u) k = if k =? m then u else Z.testbit x k.
Proof.
  intros Hm Hk. assert (Z.testbit (Z.shiftl 1 m) k = (k =? m)) as E.
  { rewrite Z.shiftl_1_l, Z.pow2_bits_eqb by lia. apply Z.eqb_sym. }
  unfold set_bit_of. destruct u.
  - rewrite Z.lor_spec, E. destruct (k =? m); [apply orb_true_r|apply orb_false_r].
  - rewrite Z.land_spec. unfold u8. rewrite Z.mod_pow2_bits_low, Z.lnot_spec, E by lia.
    destruct (k =? m); [apply andb_false_r|apply andb_true_r].
Qed.

Lemma u8_high x i : is_u8 x -> 8 <= i -> Z.testbit x i = false.
Proof. intros Hx Hi. rewrite <- (u8_small x Hx). apply Z.mod_pow2_bits_high. lia. Qed.

Lemma u8_of_bits y : (forall i, 8 <= i -> Z.testbit y i = false) -> is_u8 y.
Proof.
  intros H. assert (y mod 2 ^ 8 = y) as <-; [|by apply Z.mod_pos_bound].
  apply Z.bits_inj'. intros i Hi. destruct (decide (i < 8)); [apply Z.mod_pow2_bits_low; lia|].
  rewrite Z.mod_pow2_bits_high by lia. symmetry. apply H. lia.
Qed.

Lemma set_bit_u8 x m u : 0 <= m < 8 -> is_u8 x -> is_u8 (set_bit_of x m u).
Proof.
  intros Hm Hx. apply u8_of_bits. intros i Hi. unfold set_bit_of. destruct u.
  - rewrite Z.lor_spec, u8_high, Z.shiftl_1_l, Z.pow2_bits_false by (done || lia). done.
  - by rewrite Z.land_spec, u8_high.
Qed.

Lemma wp_block_bitmap_set (Q : unit -> lufirafs -> Prop) s g live v b u : has_view s g live v -> is_data g b ->
  (forall im d, has_view (set_dirty d (set_image im s)) g live (use b u v) -> Q tt (set_dirty d (set_image im s))) ->
  wp (block_bitmap_set b u) Q s.
Proof.
  intros Hv Hb HQ. pose proof (hv_ok _ _ _ _ Hv) as Hok. pose proof (fo_geom _ _ _ Hok) as Hg.
  destruct (bitmap_byte_at _ _ _ _ _ Hv Hb) as (x & Hx & E & Hm & Hu8). unfold block_bitmap_set.
  wstep. wstep. wstep. wstep. wstep. eapply wp_lift; [exact Hx|]. cbv beta zeta. fold (set_bit_of x (b mod 8) u).
  pose proof (bitmap_pos g b Hg Hb) as Hpos. pose proof (image_size_ge g Hg).
  rewrite zset_splice, E. pose proof (splice_in (image s) (LUFIRAFS_BLOCK_SIZE + b / 8) [set_bit_of x (b mod 8) u]) as Hs.
  change (zlen [_]) with 1 in Hs. rewrite (fo_image _ _ _ Hok) in Hs.
  specialize (Hs ltac:(unfold LUFIRAFS_BLOCK_SIZE in *; lia) ltac:(unfold LUFIRAFS_BLOCK_SIZE in *; lia)).
  set (im := take _ _ ++ _) in Hs. wstep. eapply wp_lift; [exact Hs|]. cbv beta. wstep. wstep.
  apply (wp_mark_dirty _ _ g live (use b u v)); [|apply u32_range|exact (HQ im)].
  eapply has_view_image; [exact Hv|by eapply splice_len| |..|done].
  - eapply Forall_splice; [exact Hs|apply Hok|]. by apply Forall_singleton, set_bit_u8.
  - intros b' Hb'. cbn [v_used use]. pose proof (hv_used _ _ _ _ Hv b' Hb') as Hold. unfold img_used in Hold |- *.
    rewrite (zget_splice _ _ _ _ _ Hs). change (zlen [_]) with 1. rewrite E in Hx.
    destruct (decide (b' / 8 = b / 8)) as [Eq|Ne].
    + rewrite Eq in *. rewrite (proj2 (Z.leb_le _ _)), (proj2 (Z.ltb_lt _ _)) by lia. cbn [andb].
      rewrite Z.sub_diag. cbn [zget]. change (default 0 (zget [set_bit_of x (b mod 8) u] 0)) with (set_bit_of x (b mod 8) u).
      pose proof (Z.mod_pos_bound b' 8 ltac:(lia)). rewrite set_bit_spec, mod_eq_same_byte by (done || lia).
      rewrite Hx in Hold. by rewrite <- Hold.
    + rewrite <- Hold. destruct (Z.eqb_spec b' b) as [->|]; [done|].
      destruct (Z.leb_spec (LUFIRAFS_BLOCK_SIZE + b / 8) (LUFIRAFS_BLOCK_SIZE + b' / 8)),
        (Z.ltb_spec (LUFIRAFS_BLOCK_SIZE + b' / 8) (LUFIRAFS_BLOCK_SIZE + b / 8 + 1)); cbn [andb]; (done || lia).
  - intros ino Hino. cbn [v_ino use]. rewrite <- (hv_ino _ _ _ _ Hv) by done. destruct (ino_pos g ino Hg Hino).
    apply (inode_splice _ _ _ _ _ _ Hg (fo_image _ _ _ Hok) Hino Hs). change (zlen [_]) with 1. lia.
Qed.

(** ** Data blocks *)

Lemma block_lba_eq s g live b : fs_ok s g live -> is_data g b -> block_lba s b = g_lba g + b * SECTORS_PER_BLOCK.
Proof.
  intros Hok Hb. pose proof (fo_geom _ _ _ Hok) as Hg. destruct (go_lba _ Hg). unfold is_data in Hb. pose proof (go_bitmap _ Hg).
  assert (0 <= b) by (unfold g_ds, g_its in Hb; lia). unfold block_lba, SECTORS_PER_BLOCK in *. rewrite (fo_lba _ _ _ Hok).
  rewrite (u32_small (b * 16)) by (unfold is_u32; lia). apply u32_small. unfold is_u32. lia.
Qed.

Lemma blk_len d g b : zlen (blk d g b) = LUFIRAFS_BLOCK_SIZE /\ Forall is_u8 (blk d g b).
Proof.
  unfold blk. split.
  - assert (forall l, length (concat (bd_sector d <$> l)) = (512 * length l)%nat) as H.
    { induction l as [|i l IH]; [done|]. cbn [fmap list_fmap concat]. rewrite length_app, IH, (proj1 (bd_sector_ok d i)). simpl. lia. }
    unfold zlen. rewrite H, length_seqZ. done.
  - apply Forall_concat, Forall_fmap, Forall_true. intros i. apply bd_sector_ok.
Qed.

Lemma data_not_meta s g live b : fs_ok s g live -> is_data g b ->
  (b <? data_start (sb s)) || (total_blocks (sb s) <=? b) = false.
Proof.
  intros Hok [H1 H2]. rewrite (sg_ds _ _ (fo_sb _ _ _ Hok)), (sg_total _ _ (fo_sb _ _ _ Hok)).
  by rewrite (proj2 (Z.ltb_ge _ _)), (proj2 (Z.leb_gt _ _)) by lia.
Qed.

Lemma good_block s g live b i : fs_ok s g live -> is_data g b ->
  g_lba g + b * SECTORS_PER_BLOCK <= i < g_lba g + b * SECTORS_PER_BLOCK + SECTORS_PER_BLOCK -> bd_good (disk s) i.
Proof.
  intros Hok Hb Hi. apply (fo_good _ _ _ Hok). unfold is_data in Hb. pose proof (go_bitmap _ (fo_geom _ _ _ Hok)).
  unfold g_ds, g_its, SECTORS_PER_BLOCK in *. lia.
Qed.

Lemma has_view_disk s g live v d v' : has_view s g live v -> (forall i, bd_good d i <-> bd_good (disk s) i) ->
  (forall b, is_data g b -> blk d g b = v_blk v' b) -> v_used v' = v_used v -> v_ino v' = v_ino v ->
  has_view (set_disk d s) g live v'.
Proof.
  intros [[H1 H2 H3 H4 H5 H6 H7 H8 H9] Hu Hi Hb] Hg Hb' E1 E2. split; [split; try done|..]; cbn.
  - intros i Hi'. by apply Hg, H9.
  - by rewrite E1.
  - by rewrite E2.
  - done.
Qed.

Lemma blk_ext (d d' : DS) g b : (forall i, g_lba g + b * SECTORS_PER_BLOCK <= i < g_lba g + b * SECTORS_PER_BLOCK + SECTORS_PER_BLOCK ->
  bd_sector d' i = bd_sector d i) -> blk d' g b = blk d g b.
Proof.
  intros H. unfold blk. f_equal. apply list_fmap_ext. intros k i Hi%lookup_seqZ. apply H. lia.
Qed.

Lemma wp_read_data_block (Q : option (list Z) -> lufirafs -> Prop) s g live v b : has_view s g live v -> is_data g b ->
  (forall d, has_view (set_disk d s) g live v -> Q (Some (v_blk v b)) (set_disk d s)) -> wp (read_data_block b) Q s.
Proof.
  intros Hv Hb HQ. pose proof (hv_ok _ _ _ _ Hv) as Hok. unfold read_data_block. wstep. wstep.
  rewrite (data_not_meta _ _ _ _ Hok Hb). wstep. wstep. rewrite (block_lba_eq _ _ _ _ Hok Hb).
  pose proof (bd_read_spec (disk s) (g_lba g + b * SECTORS_PER_BLOCK) SECTORS_PER_BLOCK ltac:(done)) as Hr.
  unfold wp, on_disk in *. destruct (bd_read _ _ (disk s)) as [[r d]|]; [|done]. destruct Hr as (Hs & Hg & Hr).
  destruct r as [l|].
  - assert (l = v_blk v b) as -> by (rewrite Hr; by apply (hv_blk _ _ _ _ Hv)). apply HQ.
    apply (has_view_disk _ _ _ v); try done. intros b' Hb'. rewrite <- (hv_blk _ _ _ _ Hv) by done. by apply blk_ext.
  - destruct Hr as (i & Hi & Hbad). destruct Hbad. by apply (good_block s g live b).
Qed.

Lemma wp_write_data_block (Q : bool -> lufirafs -> Prop) s g live v b buf : has_view s g live v -> is_data g b ->
  zlen buf = LUFIRAFS_BLOCK_SIZE -> Forall is_u8 buf ->
  (forall d, has_view (set_disk d s) g live (put b buf v) -> Q true (set_disk d s)) -> wp (write_data_block b buf) Q s.
Proof.
  intros Hv Hb Hl Hby HQ. pose proof (hv_ok _ _ _ _ Hv) as Hok. unfold write_data_block. wstep. wstep.
  rewrite (data_not_meta _ _ _ _ Hok Hb). wstep. wstep. rewrite (block_lba_eq _ _ _ _ Hok Hb).
  pose proof (bd_write_spec (disk s) (g_lba g + b * SECTORS_PER_BLOCK) SECTORS_PER_BLOCK buf ltac:(done) ltac:(by rewrite Hl) Hby) as Hr.
  unfold wp, on_disk in *. destruct (bd_write _ _ _ (disk s)) as [[r d]|]; [|done]. destruct Hr as (Hg & Ho & Hr).
  destruct r.
  - apply HQ. apply (has_view_disk _ _ _ v); try done. intros b' Hb'. cbn [v_blk put]. destruct (Z.eqb_spec b' b) as [->|Hne]; [done|].
    rewrite <- (hv_blk _ _ _ _ Hv) by done. apply blk_ext. intros i Hi. apply Ho. unfold SECTORS_PER_BLOCK in *. lia.
  - destruct Hr as (i & Hi & Hbad). destruct Hbad. by apply (good_block s g live b).
Qed.

(** ** Inodes *)

Lemma inode_off_eq s g live ino : fs_ok s g live -> is_ino ino -> inode_off (sb s) ino = ino_off g ino.
Proof.
  intros Hok Hi. pose proof (fo_geom _ _ _ Hok) as Hg. destruct (ino_pos g ino Hg Hi). pose proof (image_size_ge g Hg).
  pose proof (go_image _ Hg). unfold inode_off, ino_off in *. rewrite (sg_its _ _ (fo_sb _ _ _ Hok)).
  unfold is_ino, LUFIRAFS_INODE_COUNT, LUFIRAFS_INODE_SIZE, LUFIRAFS_BLOCK_SIZE in *.
  rewrite (u32_small (g_its g * 8192)), (u32_small ((ino - 1) * 76)) by (unfold is_u32; lia). apply u32_small. unfold is_u32. lia.
Qed.

Lemma is_ino_guard s g live ino : fs_ok s g live -> is_ino ino -> (ino =? 0) || (inode_count (sb s) <? ino) = false.
Proof.
  intros Hok Hi. rewrite (sg_count _ _ (fo_sb _ _ _ Hok)). unfold is_ino in Hi.
  by rewrite (proj2 (Z.eqb_neq _ _)), (proj2 (Z.ltb_ge _ _)) by lia.
Qed.

Lemma wp_read_inode (Q : option inode -> lufirafs -> Prop) s g live v ino : has_view s g live v -> is_ino ino ->
  Q (Some (v_ino v ino)) s -> wp (lufirafs_read_inode ino) Q s.
Proof.
  intros Hv Hi HQ. pose proof (hv_ok _ _ _ _ Hv) as Hok. pose proof (fo_geom _ _ _ Hok) as Hg. unfold lufirafs_read_inode. wstep. wstep.
  rewrite (is_ino_guard _ _ _ _ Hok Hi), (inode_off_eq _ _ _ _ Hok Hi). destruct (ino_pos g ino Hg Hi). pose proof (image_size_ge g Hg).
  wstep. eapply wp_Some; [|cbv beta; wstep; rewrite <- (hv_ino _ _ _ _ Hv) in HQ by done; exact HQ].
  unfold img_read. rewrite (fo_image _ _ _ Hok).
  rewrite (proj2 (Z.leb_le 0 _)), (proj2 (Z.leb_le _ _)) by (unfold LUFIRAFS_BLOCK_SIZE in *; lia). done.
Qed.

Lemma ino_disjoint g i j : i <> j ->
  ino_off g i + LUFIRAFS_INODE_SIZE <= ino_off g j \/ ino_off g j + LUFIRAFS_INODE_SIZE <= ino_off g i.
Proof. intros. unfold ino_off, LUFIRAFS_INODE_SIZE. lia. Qed.

Lemma encode_inode_bytes i : Forall is_u8 (encode_inode i).
Proof. rewrite encode_inode_words. apply Forall_concat, Forall_fmap, Forall_true. intros x. apply le_split_bytes. Qed.

Lemma wp_write_inode (Q : bool -> lufirafs -> Prop) s g live v ino i : has_view s g live v -> is_ino ino -> inode_ok i ->
  (forall im d, has_view (set_dirty d (set_image im s)) g live (put_ino ino i v) -> Q true (set_dirty d (set_image im s))) ->
  wp (lufirafs_write_inode ino i) Q s.
Proof.
  intros Hv Hi Hio HQ. pose proof (hv_ok _ _ _ _ Hv) as Hok. pose proof (fo_geom _ _ _ Hok) as Hg.
  pose proof (zlen_encode_inode i (io_direct _ Hio)) as Hl. destruct (ino_pos g ino Hg Hi). pose proof (image_size_ge g Hg).
  unfold lufirafs_write_inode. wstep. wstep. rewrite (is_ino_guard _ _ _ _ Hok Hi), (inode_off_eq _ _ _ _ Hok Hi).
  wstep. apply wp_img_write; [unfold LUFIRAFS_BLOCK_SIZE in *; lia|rewrite Hl, (fo_image _ _ _ Hok); lia|].
  intros im Hs Hlen. wstep.
  apply (wp_mark_dirty _ _ g live (put_ino ino i v)); [|apply Z.div_pos; unfold LUFIRAFS_BLOCK_SIZE in *; lia|intros d Hv'; wstep; by apply HQ].
  eapply has_view_image; [exact Hv|done|eapply Forall_splice; [exact Hs|apply Hok|apply encode_inode_bytes]|..|done].
  - intros b Hb. cbn [v_used put_ino]. rewrite <- (hv_used _ _ _ _ Hv) by done. pose proof (bitmap_pos g b Hg Hb).
    apply (used_splice _ _ _ _ _ Hs). lia.
  - intros j Hj. cbn [v_ino put_ino]. destruct (Z.eqb_spec j ino) as [->|Hne].
    + unfold img_inode. rewrite <- Hl, (cut_splice_same _ _ _ _ Hs). by apply decode_encode_inode.
    + rewrite <- (hv_ino _ _ _ _ Hv) by done. apply (inode_splice _ _ _ _ _ _ Hg (fo_image _ _ _ Hok) Hj Hs). rewrite Hl.
      destruct (ino_disjoint g j ino Hne); [by left|by right].
Qed.

(** ** Allocation of blocks *)

Lemma has_view_ext s g live v v' : has_view s g live v ->
  (forall b, is_data g b -> v_used v b = v_used v' b) -> (forall ino, is_ino ino -> v_ino v ino = v_ino v' ino) ->
  (forall b, is_data g b -> v_blk v b = v_blk v' b) -> has_view s g live v'.
Proof. intros [Hok Hu Hi Hb] E1 E2 E3. split; [done|..]; intros x Hx; [rewrite <- E1|rewrite <- E2|rewrite <- E3]; auto. Qed.

Lemma zero_block_ok : zlen zero_block = LUFIRAFS_BLOCK_SIZE /\ Forall is_u8 zero_block.
Proof. split; [unfold zlen, zero_block; by rewrite length_replicate|]. apply Forall_replicate. done. Qed.

(** Block [k], free before, is now in use and holds zeros. *)
Definition taken (k : Z) v : view := put k zero_block (use k true v).

Definition alloc_outcome g live v (k : Z) s' : Prop :=
  (k = 0 /\ has_view s' g live v /\ heap_refuses) \/
  (is_data g k /\ v_used v k = false /\ has_view s' g live (taken k v)).

Lemma sb_geom_free b g n : sb_geom b g -> 0 <= n -> sb_geom (set_free_blocks n b) g.
Proof. intros [H1 H2 H3 H4 H5 H6 H7] Hn. split; try done. cbn. lia. Qed.

(** The body of the loop on a free block. *)
Lemma wp_take_block s g live v k : has_view s g live v -> is_data g k -> v_used v k = false ->
  wp (block_bitmap_set k true;;
      z ← on_heap (ba_alloc LUFIRAFS_BLOCK_SIZE);
      if z =? 0 then block_bitmap_set k false;; mret (Some 0) else
      write_data_block k zero_block;;
      on_heap (ba_release z);;
      b ← gets sb;
      (if 0 <? free_blocks b then modify (set_sb (set_free_blocks (free_blocks b - 1) b)) else mret tt);;
      write_superblock;;
      modify (set_next (u32 (k + 1)));;
      mret (Some k))
    (fun r s' => match r with Some k => alloc_outcome g live v k s' | None => False end) s.
Proof.
  intros Hv Hk Hu. wstep. apply (wp_block_bitmap_set _ _ _ _ _ _ _ Hv Hk). intros im d Hv1. wstep.
  apply (wp_kmalloc _ _ _ _ _ _ Hv1); [done|done|..].
  - intros h Hh. rewrite Z.eqb_refl. wstep. apply (wp_block_bitmap_set _ _ _ _ _ _ _ Hv1 Hk). intros im' d' Hv2. wstep.
    left. split; [done|]. split; [|by eapply refused]. eapply has_view_ext; [exact Hv2|..|done|done]. intros b Hb. cbn.
    destruct (Z.eqb_spec b k) as [->|]; done.
  - intros h z Hz Hnl Hv2. rewrite (proj2 (Z.eqb_neq _ _) Hz). destruct zero_block_ok as [Hzl Hzb].
    wstep. apply (wp_write_data_block _ _ _ _ _ _ _ Hv2 Hk Hzl Hzb). intros d2 Hv3. fold (taken k v) in Hv3.
    wstep. apply (wp_kfree _ _ _ _ _ _ Hv3 Hnl). intros h3 Hv4. set (s4 := set_heap h3 _) in *. clearbody s4.
    pose proof (fo_sb _ _ _ (hv_ok _ _ _ _ Hv4)) as Hsb. pose proof (sg_free _ _ Hsb) as [Hf _].
    assert (forall s5, has_view s5 g live (taken k v) ->
      wp (write_superblock;; modify (set_next (u32 (k + 1)));; mret (Some k))
        (fun r s' => match r with Some k0 => alloc_outcome g live v k0 s' | None => False end) s5) as Htail.
    { intros s5 Hv5. wstep. apply (wp_write_superblock _ _ _ _ _ Hv5). intros im5 d5 Hv6. wstep. wstep. wstep. right. split; [done|]. split; [done|].
      apply has_view_next; [done|]. destruct Hk as [Hk1 Hk2]. pose proof (fo_geom _ _ _ (hv_ok _ _ _ _ Hv)) as Hg.
      destruct (go_lba _ Hg). pose proof (go_bitmap _ Hg). unfold g_ds, g_its, SECTORS_PER_BLOCK in *. rewrite u32_small by (unfold is_u32; lia). lia. }
    wstep. wstep. wstep. destruct (Z.ltb_spec 0 (free_blocks (sb s4))); wstep; apply Htail; [|done].
    apply has_view_sb; [done|]. apply sb_geom_free; [done|lia].
Qed.

Lemma block_bitmap_test_eq s g live v b : has_view s g live v -> is_data g b -> block_bitmap_test b s = Some (v_used v b, s).
Proof.
  intros Hv Hb. destruct (wp_inv _ (fun r s' => r = v_used v b /\ s' = s) s (wp_block_bitmap_test _ _ _ _ _ _ Hv Hb (conj eq_refl eq_refl)))
    as (r & s' & -> & -> & ->). done.
Qed.

Lemma alloc_block_outcome s g live v : has_view s g live v ->
  wp alloc_block (fun k s' => alloc_outcome g live v k s' \/
    (k = 0 /\ s' = s /\ forall b, is_data g b -> v_used v b = true)) s.
Proof.
  intros Hv. pose proof (hv_ok _ _ _ _ Hv) as Hok. pose proof (fo_next _ _ _ Hok) as Hn.
  set (body := fun k => used ← block_bitmap_test k;
          if (used : bool) then mret None else
          block_bitmap_set k true;;
          z ← on_heap (ba_alloc LUFIRAFS_BLOCK_SIZE);
          if z =? 0 then block_bitmap_set k false;; mret (Some 0) else
          write_data_block k zero_block;;
          on_heap (ba_release z);;
          b ← gets sb;
          (if 0 <? free_blocks b then modify (set_sb (set_free_blocks (free_blocks b - 1) b)) else mret tt);;
          write_superblock;;
          modify (set_next (u32 (k + 1)));;
          mret (Some k)).
  assert (forall lo hi, g_ds g <= lo -> hi <= g_total g ->
    wp (for_range lo hi body) (fun r s' => match r with
      | Some k => alloc_outcome g live v k s' | None => s' = s /\ forall b, lo <= b < hi -> v_used v b = true end) s) as Hscan.
  { intros lo hi Hlo Hhi. apply (wp_for_search (fun k => negb (v_used v k))).
    - intros k Hk Hu%negb_false_iff. unfold body. rewrite (bind_Some _ _ _ _ _ (block_bitmap_test_eq _ _ _ _ k Hv ltac:(split; lia))), Hu. done.
    - intros k Hk Hu%negb_true_iff _. assert (is_data g k) as Hd by (split; lia). unfold body. wstep.
      eapply wp_Some; [apply (block_bitmap_test_eq _ _ _ _ _ Hv Hd)|]. cbv beta. rewrite Hu. by apply wp_take_block.
    - intros Hall. split; [done|]. intros b Hb. specialize (Hall b Hb). by apply negb_false_iff in Hall. }
  unfold alloc_block. wstep. unfold for_range at 1. change (Z.to_nat (2 - 0)) with 2%nat. cbn [for_loop]. fold body.
  pose proof (sg_ds _ _ (fo_sb _ _ _ Hok)) as Eds. pose proof (sg_total _ _ (fo_sb _ _ _ Hok)) as Et.
  wstep. wstep. wstep. wstep. wstep. change (0 =? 0) with true. cbv iota. rewrite Et.
  eapply wp_mono; [apply Hscan; lia|]. intros [k|] s'; [intros Hout; wstep; wstep; by left|]. intros [-> Hall1].
  wstep. wstep. wstep. wstep. wstep. change (0 + 1 =? 0) with false. cbv iota. rewrite Eds.
  eapply wp_mono; [apply Hscan; lia|]. intros [k|] s'; [intros Hout; wstep; wstep; by left|]. intros [-> Hall2].
  wstep. wstep. right. split; [done|]. split; [done|]. intros b [Hb1 Hb2].
  destruct (decide (b < next_free_block s)); [apply Hall2; lia|apply Hall1; lia].
Qed.

Lemma wp_free_data_block (Q : unit -> lufirafs -> Prop) s g live v b : has_view s g live v -> is_data g b -> b <> 0 ->
  (forall s', has_view s' g live (use b false v) -> Q tt s') -> wp (free_data_block b) Q s.
Proof.
  intros Hv Hb Hb0 HQ. unfold free_data_block. rewrite (proj2 (Z.eqb_neq _ _) Hb0). wstep.
  apply (wp_block_bitmap_set _ _ _ _ _ _ _ Hv Hb). intros im d Hv1. wstep. wstep.
  eapply (wp_write_superblock _ _ g live (use b false v)); [|intros im' d' Hv2; by apply HQ].
  apply has_view_sb; [done|]. apply sb_geom_free; [apply (hv_ok _ _ _ _ Hv1)|]. apply u32_range.
Qed.
End view.
