(* ===== verification/LufirafsDisk.v ===== *)
(** LufiraFS and its disk: the layout [lufirafs_compute_layout] gives, what [lufirafs_sync] writes,
    and that [lufirafs_init] finds on the disk what was synced. *)

From S2P Require Import Prelude Bitmap Memory Interfaces Heap Ramdisk Lufirafs LufirafsView.

(** * Superblock *)

Definition sb_words (b : superblock) : list Z :=
  [magic b; version b; block_size b; total_blocks b; bitmap_start b; bitmap_blocks b; inode_table_start b; inode_table_blocks b;
   inode_count b; data_start b; root_inode b; free_blocks b; free_inodes b].

Lemma decode_encode_sb b : Forall is_u32 (sb_words b) -> decode_sb (encode_sb b) = b.
Proof.
  intros Hw. unfold encode_sb. fold (sb_words b). unfold decode_sb.
  assert (forall k x, sb_words b !! k = Some x -> word (concat (le32 <$> sb_words b) ++ reserved b) (4 * Z.of_nat k) = x) as Hword.
  { intros k x Hk. rewrite (word_nth _ _ _ _ Hk). apply u32_small. by eapply Forall_lookup_1. }
  pose proof (Hword 0%nat _ eq_refl) as E0. pose proof (Hword 1%nat _ eq_refl) as E1. pose proof (Hword 2%nat _ eq_refl) as E2.
  pose proof (Hword 3%nat _ eq_refl) as E3. pose proof (Hword 4%nat _ eq_refl) as E4. pose proof (Hword 5%nat _ eq_refl) as E5.
  pose proof (Hword 6%nat _ eq_refl) as E6. pose proof (Hword 7%nat _ eq_refl) as E7. pose proof (Hword 8%nat _ eq_refl) as E8.
  pose proof (Hword 9%nat _ eq_refl) as E9. pose proof (Hword 10%nat _ eq_refl) as E10. pose proof (Hword 11%nat _ eq_refl) as E11.
  pose proof (Hword 12%nat _ eq_refl) as E12.
  assert (drop 52 (concat (le32 <$> sb_words b) ++ reserved b) = reserved b) as Er by (apply drop_app_length'; by rewrite length_words).
  set (W := concat _ ++ _) in *.
  rewrite (E0 : word W 0 = _), (E1 : word W 4 = _), (E2 : word W 8 = _), (E3 : word W 12 = _), (E4 : word W 16 = _), (E5 : word W 20 = _),
    (E6 : word W 24 = _), (E7 : word W 28 = _), (E8 : word W 32 = _), (E9 : word W 36 = _), (E10 : word W 40 = _), (E11 : word W 44 = _),
    (E12 : word W 48 = _), Er. by destruct b.
Qed.

(** * Blocks of an image *)

Definition mblk (im : list Z) (k : Z) : list Z := cut im (k * LUFIRAFS_BLOCK_SIZE) LUFIRAFS_BLOCK_SIZE.

Lemma image_ext l l' n : zlen l = n * LUFIRAFS_BLOCK_SIZE -> zlen l' = n * LUFIRAFS_BLOCK_SIZE ->
  (forall k, 0 <= k < n -> mblk l k = mblk l' k) -> l = l'.
Proof.
  intros Hl Hl' H. apply list_zext; [congruence|]. intros p Hp.
  pose proof (Z.div_mod p LUFIRAFS_BLOCK_SIZE ltac:(done)) as Hdm. pose proof (Z.mod_pos_bound p LUFIRAFS_BLOCK_SIZE ltac:(done)) as Hm.
  assert (0 <= p / LUFIRAFS_BLOCK_SIZE < n) as Hk.
  { split; [apply Z.div_pos; [lia|done]|]. apply Z.div_lt_upper_bound; [done|]. lia. }
  specialize (H _ Hk). apply (f_equal (fun l => zget l (p mod LUFIRAFS_BLOCK_SIZE))) in H. unfold mblk in H.
  unfold LUFIRAFS_BLOCK_SIZE in *. rewrite !zget_cut in H by lia. rewrite Z.mul_comm, <- Hdm in H. done.
Qed.

Lemma mblk_splice im off src im' k : splice im off src = Some im' -> 0 <= k -> (k + 1) * LUFIRAFS_BLOCK_SIZE <= zlen im ->
  off + zlen src <= k * LUFIRAFS_BLOCK_SIZE \/ (k + 1) * LUFIRAFS_BLOCK_SIZE <= off -> mblk im' k = mblk im k.
Proof. intros Hs Hk Hl Hd. unfold mblk. eapply cut_splice_other; [exact Hs| |done| |]; unfold LUFIRAFS_BLOCK_SIZE in *; lia. Qed.

Section disk.
Context {HS DS : Type} `{!BlockAllocator HS} `{!BlockDevice DS}.
Implicit Types (s : lufirafs (HS := HS) (DS := DS)) (g : geom) (v : view).

Definition sectors (d : DS) (lba n : Z) : list Z := concat (bd_sector d <$> seqZ lba n).

Lemma sectors_len (d : DS) lba n : 0 <= n -> zlen (sectors d lba n) = 512 * n.
Proof.
  intros Hn. assert (forall l, length (concat (bd_sector d <$> l)) = (512 * length l)%nat) as H.
  { induction l as [|i l IH]; [done|]. cbn [fmap list_fmap concat]. rewrite length_app, IH, (proj1 (bd_sector_ok d i)). simpl. lia. }
  unfold zlen, sectors. rewrite H, length_seqZ. lia.
Qed.

Lemma sectors_app (d : DS) lba n m : 0 <= n -> 0 <= m -> sectors d lba (n + m) = sectors d lba n ++ sectors d (lba + n) m.
Proof. intros. unfold sectors. by rewrite seqZ_app, fmap_app, concat_app. Qed.

Lemma sectors_ext (d d' : DS) lba n : (forall i, lba <= i < lba + n -> bd_sector d' i = bd_sector d i) -> sectors d' lba n = sectors d lba n.
Proof. intros H. unfold sectors. f_equal. apply list_fmap_ext. intros k i Hi%lookup_seqZ. apply H. lia. Qed.

Lemma mblk_sectors (d : DS) g n k : 0 <= k < n -> mblk (sectors d (g_lba g) (n * SECTORS_PER_BLOCK)) k = blk d g k.
Proof.
  intros Hk. replace (n * SECTORS_PER_BLOCK) with (k * SECTORS_PER_BLOCK + (SECTORS_PER_BLOCK + (n - k - 1) * SECTORS_PER_BLOCK)) by lia.
  unfold SECTORS_PER_BLOCK. rewrite sectors_app, sectors_app by lia. unfold mblk, cut.
  pose proof (sectors_len d (g_lba g) (k * 16) ltac:(lia)) as L1. pose proof (sectors_len d (g_lba g + k * 16) 16 ltac:(lia)) as L2.
  unfold zlen in *. rewrite drop_app_length' by (unfold LUFIRAFS_BLOCK_SIZE; lia). rewrite take_app_length' by (unfold LUFIRAFS_BLOCK_SIZE; lia). done.
Qed.

(** * Dirty tracking *)

(** Metadata blocks that are not marked dirty are on the disk. *)
Definition synced s g : Prop := forall k, 0 <= k < g_ds g -> bit (dirty_bitmap s) k = false -> blk (disk s) g k = mblk (image s) k.

(** The superblock in the image is the one in use. *)
Record saved s : Prop := {
  sv_words : Forall is_u32 (sb_words (sb s));
  sv_magic : magic (sb s) = LUFIRAFS_MAGIC;
  sv_size : block_size (sb s) = LUFIRAFS_BLOCK_SIZE;
  sv_block0 : mblk (image s) 0 = encode_sb (sb s);
}.

Lemma meta_lba s g live k : fs_ok s g live -> 0 <= k < g_ds g -> block_lba s k = g_lba g + k * SECTORS_PER_BLOCK.
Proof.
  intros Hok Hk. pose proof (fo_geom _ _ _ Hok) as Hg. destruct (go_lba _ Hg). pose proof (go_total _ Hg).
  unfold block_lba, SECTORS_PER_BLOCK in *. rewrite (fo_lba _ _ _ Hok).
  rewrite (u32_small (k * 16)) by (unfold is_u32; lia). apply u32_small. unfold is_u32. lia.
Qed.

Lemma mblk_len s g live k : fs_ok s g live -> 0 <= k < g_ds g -> zlen (mblk (image s) k) = LUFIRAFS_BLOCK_SIZE /\ Forall is_u8 (mblk (image s) k).
Proof.
  intros Hok Hk. pose proof (fo_image _ _ _ Hok) as Hl. split.
  - apply zlen_cut; unfold LUFIRAFS_BLOCK_SIZE in *; lia.
  - apply Forall_take, Forall_drop, Hok.
Qed.

(** State of the sync loop before block [k]. *)
Record syncing s g k s' : Prop := {
  sy_eq : exists d dk, s' = set_dirty d (set_disk dk s);
  sy_len : zlen (dirty_bitmap s') = zlen (dirty_bitmap s);
  sy_good : forall i, bd_good (disk s') i <-> bd_good (disk s) i;
  sy_synced : synced s' g;
  sy_clean : forall j, 0 <= j < k -> bit (dirty_bitmap s') j = false;
  sy_data : forall b, is_data g b -> blk (disk s') g b = blk (disk s) g b;
}.

Lemma sync_step s g live k s' : fs_ok s g live -> 0 <= k < g_ds g -> syncing s g k s' ->
  wp (d ← gets dirty_bitmap;
      dirty ← lift (bm_test d k);
      if negb dirty then mret (None (A := unit)) else
      lba ← gets (fun s => block_lba s k);
      buf ← img_read (k * LUFIRAFS_BLOCK_SIZE) LUFIRAFS_BLOCK_SIZE;
      ok ← on_disk (bd_write lba SECTORS_PER_BLOCK buf);
      (if (ok : bool) then d ← lift (bm_clear d k); modify (set_dirty d) else mret tt);;
      mret None) (fun r s'' => r = None /\ syncing s g (k + 1) s'') s'.
Proof.
  intros Hok Hk [(d0 & dk & ->) Hlen Hgood Hsy Hcl Hdat]. pose proof (fo_dirty _ _ _ Hok) as Hd. cbn [dirty_bitmap set_dirty] in *.
  wstep. wstep. wstep. eapply wp_lift; [apply bm_test_bit; cbn [dirty_bitmap set_dirty]; lia|]. cbv beta. cbn [dirty_bitmap set_dirty].
  destruct (bit d0 k) eqn:Eb; cbn [negb].
  2:{ wstep. split; [done|]. split; try done; [by exists d0, dk|]. intros j Hj. destruct (decide (j = k)) as [->|]; [done|]. apply Hcl. lia. }
  wstep. wstep. change (block_lba (set_dirty d0 (set_disk dk s)) k) with (block_lba s k). rewrite (meta_lba s g live k Hok Hk).
  destruct (mblk_len s g live k Hok Hk) as [Hbl Hbb].
  wstep. eapply wp_Some.
  { unfold img_read. cbn [image set_dirty set_disk]. rewrite (fo_image _ _ _ Hok).
    rewrite (proj2 (Z.leb_le 0 _)), (proj2 (Z.leb_le _ _)) by (unfold LUFIRAFS_BLOCK_SIZE; lia). reflexivity. }
  cbv beta. change (take _ (drop _ (image _))) with (mblk (image s) k).
  wstep. pose proof (bd_write_spec dk (g_lba g + k * SECTORS_PER_BLOCK) SECTORS_PER_BLOCK (mblk (image s) k) ltac:(done) Hbl Hbb) as Hw.
  unfold wp at 1 in Hw. unfold wp at 1, on_disk. cbn [disk set_dirty set_disk] in *.
  destruct (bd_write _ _ _ dk) as [[ok dk']|]; [|done]. destruct Hw as (Hg' & Ho & Hw).
  destruct ok; [|exfalso; destruct Hw as (i & Hi & []); apply Hgood, (fo_good _ _ _ Hok)].
  2:{ pose proof (go_total _ (fo_geom _ _ _ Hok)). unfold SECTORS_PER_BLOCK in *. lia. }
  destruct (bm_clear_spec d0 k) as (d1 & Hd1 & Hl1 & Hb1); [lia|].
  wstep. wstep. eapply wp_lift; [exact Hd1|]. cbv beta. wstep. wstep. split; [done|].
  assert (forall b, b <> k -> blk dk' g b = blk dk g b) as Hother.
  { intros b Hb. apply blk_ext. intros i Hi. apply Ho. unfold SECTORS_PER_BLOCK in *. lia. }
  split; cbn [disk dirty_bitmap set_dirty set_disk image] in *.
  - by exists d1, dk'.
  - lia.
  - intros i. by rewrite Hg'.
  - intros j Hj. cbn [dirty_bitmap set_dirty set_disk disk image]. rewrite Hb1. destruct (Z.eqb_spec j k) as [->|Hne]; [intros _; exact Hw|]. cbn [negb andb].
    intros E. rewrite Hother by done. by apply Hsy.
  - intros j Hj. rewrite Hb1. destruct (Z.eqb_spec j k) as [->|]; [done|]. apply Hcl. lia.
  - intros b Hb. rewrite Hother; [by apply Hdat|]. unfold is_data in Hb. lia.
Qed.
Lemma sync_outcome s g live : fs_ok s g live -> synced s g ->
  wp lufirafs_sync (fun _ s' => syncing s g (g_ds g) s') s.
Proof.
  intros Hok Hs. unfold lufirafs_sync. wstep. wstep. wstep. rewrite (sg_ds _ _ (fo_sb _ _ _ Hok)).
  pose proof (go_bitmap _ (fo_geom _ _ _ Hok)) as Hbm.
  apply (wp_for_range (syncing s g)).
  - split; try done; [|lia]. exists (dirty_bitmap s), (disk s). by destruct s.
  - unfold g_ds, g_its. lia.
  - intros k s' Hk Hsy. eapply wp_mono; [by apply (sync_step s g live k s' Hok Hk Hsy)|]. by intros r s'' [-> ?].
  - intros s' Hsy. by wstep.
Qed.

(** After a sync every metadata block is on the disk. *)
Lemma syncing_all s g s' k : syncing s g (g_ds g) s' -> 0 <= k < g_ds g -> blk (disk s') g k = mblk (image s) k.
Proof.
  intros [(d & dk & ->) Hlen Hgood Hsy Hcl Hdat] Hk. rewrite (Hsy k Hk (Hcl k Hk)). done.
Qed.

(** Syncing changes no file, whatever is marked dirty. *)
Lemma sync_view s g live v : has_view s g live v -> wp lufirafs_sync (fun _ s' => has_view s' g live v) s.
Proof.
  intros Hv. pose proof (fo_geom _ _ _ (hv_ok _ _ _ _ Hv)) as Hg. pose proof (go_total _ Hg) as Ht. pose proof (go_bitmap _ Hg) as Hbm.
  unfold lufirafs_sync. wstep. wstep. wstep. rewrite (sg_ds _ _ (fo_sb _ _ _ (hv_ok _ _ _ _ Hv))).
  apply (wp_for_range (fun _ s' => has_view s' g live v)); [done|unfold g_ds, g_its; lia| |intros s' Hv'; by wstep].
  intros k s' Hk Hv'. pose proof (hv_ok _ _ _ _ Hv') as Hok. pose proof (fo_dirty _ _ _ Hok) as Hd.
  wstep. wstep. wstep. eapply wp_lift; [apply bm_test_bit; lia|]. cbv beta. destruct (bit (dirty_bitmap s') k); cbn [negb]; [|by wstep].
  wstep. wstep. rewrite (meta_lba s' g live k Hok Hk). destruct (mblk_len s' g live k Hok Hk) as [Hbl Hbb].
  wstep. eapply wp_Some.
  { unfold img_read. rewrite (fo_image _ _ _ Hok).
    rewrite (proj2 (Z.leb_le 0 _)), (proj2 (Z.leb_le _ _)) by (unfold LUFIRAFS_BLOCK_SIZE; lia). reflexivity. }
  cbv beta. change (take _ (drop _ (image s'))) with (mblk (image s') k).
  wstep. pose proof (bd_write_spec (disk s') (g_lba g + k * SECTORS_PER_BLOCK) SECTORS_PER_BLOCK (mblk (image s') k) ltac:(done) Hbl Hbb) as Hw.
  unfold wp at 1 in Hw. unfold wp at 1, on_disk. destruct (bd_write _ _ _ (disk s')) as [[ok dk]|]; [|done]. destruct Hw as (Hg' & Ho & _).
  assert (has_view (set_disk dk s') g live v) as Hv2.
  { apply (has_view_disk _ _ _ v); try done. intros b Hb. rewrite <- (hv_blk _ _ _ _ Hv') by done. apply blk_ext. intros i Hi. apply Ho.
    unfold is_data, SECTORS_PER_BLOCK in *. lia. }
  destruct ok; [|wstep; wstep; wstep; done].
  destruct (bm_clear_spec (dirty_bitmap s') k) as (d1 & Hd1 & Hl1 & _); [lia|].
  wstep. wstep. eapply wp_lift; [exact Hd1|]. cbv beta. wstep. wstep. apply has_view_dirty; [done|]. cbn [dirty_bitmap set_disk]. lia.
Qed.

(** * Mounting *)

Lemma read_metadata_correct fuel : forall s done total acc lba, 0 <= done <= total -> lba + total <= 2 ^ 32 -> 0 <= lba ->
  total - done <= 255 * Z.of_nat fuel -> (forall i, lba <= i < lba + total -> bd_good (disk s) i) ->
  wp (read_metadata fuel lba done total acc) (fun r s' => r = Some (acc ++ sectors (disk s) (lba + done) (total - done)) /\
    exists dk, s' = set_disk dk s /\ (forall i, bd_sector dk i = bd_sector (disk s) i) /\ (forall i, bd_good dk i <-> bd_good (disk s) i)) s.
Proof.
  induction fuel as [|fuel IH]; intros s dn total acc lba Hdn Hlba H0 Hf Hgood; cbn [read_metadata];
    destruct (Z.leb_spec total dn) as [Hle|Hlt]; [|lia| |].
  1,2: wstep; assert (dn = total) as -> by lia; rewrite Z.sub_diag; unfold sectors; cbn [seqZ]; rewrite app_nil_r; split; [done|];
    exists (disk s); split_and!; [by destruct s|done|done].
  - cbv zeta. set (c := Z.min 255 (total - dn)). wstep. rewrite u32_small by (unfold is_u32; lia).
    pose proof (bd_read_spec (disk s) (lba + dn) c ltac:(lia)) as Hr. unfold wp at 1 in Hr. unfold wp at 1, on_disk.
    destruct (bd_read _ _ (disk s)) as [[r dk]|]; [|done]. destruct Hr as (Hs & Hg & Hr). destruct r as [l|].
    2:{ destruct Hr as (i & Hi & []). apply Hgood. lia. }
    eapply wp_mono; [apply (IH (set_disk dk s) (dn + c) total (acc ++ l) lba); [lia|lia|lia|lia|]|].
    + intros i Hi. by apply Hg, Hgood.
    + cbn [disk set_disk]. intros r s' (-> & dk' & -> & Hs' & Hg'). split.
      * f_equal. rewrite <- app_assoc. f_equal. rewrite Hr. fold (sectors (disk s) (lba + dn) c).
        replace (total - dn) with (c + (total - (dn + c))) by lia. rewrite sectors_app by lia. f_equal.
        rewrite Z.add_assoc. apply sectors_ext. intros i _. apply Hs.
      * exists dk'. split_and!; [done|intros; by rewrite Hs', Hs|intros; by rewrite Hg', Hg].
Qed.

Lemma sectors_image s g im : geom_ok g -> (forall k, 0 <= k < g_ds g -> blk (disk s) g k = mblk im k) -> zlen im = g_ds g * LUFIRAFS_BLOCK_SIZE ->
  sectors (disk s) (g_lba g) (g_ds g * SECTORS_PER_BLOCK) = im.
Proof.
  intros Hg Hb Hl. pose proof (go_bitmap _ Hg). assert (0 <= g_ds g) by (unfold g_ds, g_its; lia).
  apply (image_ext _ _ (g_ds g)); [|done|].
  - rewrite sectors_len by (unfold SECTORS_PER_BLOCK; lia). unfold SECTORS_PER_BLOCK, LUFIRAFS_BLOCK_SIZE. lia.
  - intros k Hk. rewrite mblk_sectors by done. by apply Hb.
Qed.

Lemma wp_alloc_raw (Q : Z -> lufirafs -> Prop) s live n : ba_rep (kheap s) live -> 0 < n -> n + 32 <= 2 ^ 64 -> Q 0 s ->
  (forall h p, p <> 0 -> ba_rep h ({[p]} ∪ live) -> Q p (set_heap h s)) -> wp (on_heap (ba_alloc n)) Q s.
Proof.
  intros Hr H1 H2 H0 HQ. pose proof (ba_alloc_spec _ _ n Hr H1 H2) as Ha. unfold wp in Ha |- *. unfold on_heap.
  destruct (ba_alloc n (kheap s)) as [[p h]|]; [|done]. destruct Ha as [[-> ->]|(Hp & _ & Hr')]; [by destruct s|]. by apply HQ.
Qed.

Section mount.
(** A disk whose metadata blocks hold [im], an image with superblock [b]. *)
Context (g : geom) (im : list Z) (b : superblock) (d0 : DS).
Context (Hg : geom_ok g) (Hsb : sb_geom b g) (Hl : zlen im = g_ds g * LUFIRAFS_BLOCK_SIZE) (Hby : Forall is_u8 im).
Context (Hblk : forall k, 0 <= k < g_ds g -> blk d0 g k = mblk im k).
Context (Hgood : forall i, g_lba g <= i < g_lba g + g_total g * SECTORS_PER_BLOCK -> bd_good d0 i).

(** Outcome of a mount that leaves the data of the disk as it is in [d0]. *)
Definition mount_post (r : Z) s' : Prop := (forall b, blk (disk s') g b = blk d0 g b) /\
  (r = -1 \/ (r = 0 /\ image s' = im /\ sb s' = b /\ dirty_bitmap s' = replicate (Z.to_nat ((g_ds g + 7) / 8)) 0 /\
     exists live', fs_ok s' g live')).

Lemma load_outcome s live : (forall i, bd_sector (disk s) i = bd_sector d0 i) -> (forall i, bd_good (disk s) i <-> bd_good d0 i) ->
  ba_rep (kheap s) live -> wp (load_metadata (g_lba g) b) mount_post s.
Proof.
  intros Hs1 Hg1 Hrep. pose proof (go_bitmap _ Hg) as Hbm. pose proof (go_lba _ Hg) as [Hlba Hlba'].
  pose proof (go_total _ Hg) as [Ht _]. pose proof (go_image _ Hg) as Him. assert (7 <= g_ds g) as Hds by (unfold g_ds, g_its; lia).
  assert (forall b, blk (disk s) g b = blk d0 g b) as Eb1 by (intros; by apply blk_ext).
  unfold load_metadata. rewrite (sg_ds _ _ Hsb). rewrite (u32_small (g_ds g * LUFIRAFS_BLOCK_SIZE)), (u32_small (g_ds g * SECTORS_PER_BLOCK)), (u32_small (g_ds g + 7))
    by (unfold is_u32, LUFIRAFS_BLOCK_SIZE, SECTORS_PER_BLOCK in *; lia).
  wstep. apply (wp_alloc_raw _ _ _ _ Hrep); [unfold LUFIRAFS_BLOCK_SIZE in *; lia..|rewrite Z.eqb_refl; wstep; split; [done|by left]|].
  intros h p Hp Hrep1. rewrite (proj2 (Z.eqb_neq _ _) Hp). wstep. set (s2 := set_heap h s).
  eapply wp_mono; [apply (read_metadata_correct _ s2 0 (g_ds g * SECTORS_PER_BLOCK) [] (g_lba g))|].
  { unfold SECTORS_PER_BLOCK. lia. } { unfold SECTORS_PER_BLOCK in *. lia. } { lia. }
  { pose proof (Z.div_mod (g_ds g * SECTORS_PER_BLOCK) 255 ltac:(lia)). pose proof (Z.mod_pos_bound (g_ds g * SECTORS_PER_BLOCK) 255 ltac:(lia)).
    pose proof (Z.div_pos (g_ds g * SECTORS_PER_BLOCK) 255 ltac:(unfold SECTORS_PER_BLOCK; lia) ltac:(lia)). lia. }
  { intros i Hi. apply Hg1, Hgood. unfold SECTORS_PER_BLOCK in *. lia. }
  cbv beta. intros r s3 (-> & dk3 & -> & Hs3 & Hg3). rewrite Z.add_0_r, Z.sub_0_r. cbn [app].
  assert (sectors (disk s2) (g_lba g) (g_ds g * SECTORS_PER_BLOCK) = im) as ->.
  { apply sectors_image; [done| |done]. intros k Hk. rewrite <- Hblk by done. apply Eb1. }
  assert (forall b, blk dk3 g b = blk d0 g b) as Eb3 by (intros b0; rewrite <- Eb1; by apply blk_ext).
  assert (0 < (g_ds g + 7) / 8 /\ (g_ds g + 7) / 8 + 32 <= 2 ^ 64) as [Hn1 Hn2].
  { split; [apply Z.div_str_pos; lia|]. assert ((g_ds g + 7) / 8 <= g_ds g + 7) by (apply Z.div_le_upper_bound; lia).
    unfold LUFIRAFS_BLOCK_SIZE in *. lia. }
  wstep. apply (wp_alloc_raw _ (set_disk dk3 s2) ({[p]} ∪ live)); [done|done|done| |].
  - rewrite Z.eqb_refl. wstep. pose proof (ba_release_spec h ({[p]} ∪ live) p Hrep1 ltac:(set_solver)) as Hrel.
    unfold wp at 1 in Hrel. unfold wp at 1, on_heap. change (kheap (set_disk dk3 s2)) with h.
    destruct (ba_release p h) as [[[] h'']|]; [|done]. wstep. split; [done|by left].
  - intros h' q Hq Hrep2. rewrite (proj2 (Z.eqb_neq _ _) Hq). wstep. wstep. wstep. split; [done|]. right. split_and!; [done..|].
    exists ({[q]} ∪ ({[p]} ∪ live)). split; cbn [image lba_offset sb dirty_bitmap next_free_block disk kheap set_heap set_disk]; try done.
    + unfold zlen. rewrite length_replicate. pose proof (Z.div_mod (g_ds g + 7) 8 ltac:(lia)). pose proof (Z.mod_pos_bound (g_ds g + 7) 8 ltac:(lia)). lia.
    + intros i Hi. by apply Hg3, Hg1, Hgood.
Qed.

Lemma init_outcome s live : disk s = d0 -> ba_rep (kheap s) live -> Forall is_u32 (sb_words b) -> magic b = LUFIRAFS_MAGIC ->
  block_size b = LUFIRAFS_BLOCK_SIZE -> mblk im 0 = encode_sb b -> wp (lufirafs_init (g_lba g)) mount_post s.
Proof.
  intros Ed Hrep Hw Hmag Hsz H0. pose proof (go_bitmap _ Hg) as Hbm. pose proof (go_total _ Hg) as [Ht _].
  assert (7 <= g_ds g) as Hds by (unfold g_ds, g_its; lia). unfold lufirafs_init. wstep. wstep. wstep.
  pose proof (bd_read_spec d0 (g_lba g) SECTORS_PER_BLOCK ltac:(done)) as Hr. unfold wp at 1 in Hr. unfold wp at 1, on_disk. cbn [disk]. rewrite Ed.
  destruct (bd_read _ _ d0) as [[r dk]|]; [|done]. destruct Hr as (Hs1 & Hg1 & Hr). destruct r as [l|].
  2:{ destruct Hr as (i & Hi & []). apply Hgood. unfold SECTORS_PER_BLOCK in *. lia. }
  assert (l = encode_sb b) as ->.
  { rewrite <- H0, <- Hblk by lia. rewrite Hr. unfold blk. do 3 f_equal. lia. }
  clear Hr. cbv zeta. rewrite decode_encode_sb by done. wstep. wstep. rewrite Hmag, Hsz, !Z.eqb_refl. cbn [negb].
  by apply (load_outcome _ live).
Qed.
End mount.

Lemma sync_mount_outcome s g live v : has_view s g live v -> synced s g -> saved s ->
  wp (lufirafs_sync;; lufirafs_init (g_lba g)) (fun r s' => (forall b, is_data g b -> blk (disk s') g b = v_blk v b) /\
    (r = -1 \/ (r = 0 /\ exists live', has_view s' g live' v /\ synced s' g /\ saved s'))) s.
Proof.
  intros Hv Hsy Hsv. pose proof (hv_ok _ _ _ _ Hv) as Hok. pose proof (fo_geom _ _ _ Hok) as Hg.
  wstep. eapply wp_mono; [apply (sync_outcome s g live Hok Hsy)|]. cbv beta. intros _ s1 Hdone.
  pose proof (syncing_all s g s1) as Hall. destruct (sy_eq _ _ _ _ Hdone) as (d & dk & E).
  assert (image s1 = image s /\ sb s1 = sb s /\ kheap s1 = kheap s) as (Ei & Es & Eh) by (by rewrite E).
  eapply wp_mono; [apply (init_outcome g (image s) (sb s) (disk s1) Hg) with live|].
  - apply Hok.
  - apply Hok.
  - apply Hok.
  - intros k Hk. by apply Hall.
  - intros i Hi. apply (sy_good _ _ _ _ Hdone), (fo_good _ _ _ Hok). done.
  - done.
  - rewrite Eh. apply Hok.
  - apply Hsv.
  - apply Hsv.
  - apply Hsv.
  - apply Hsv.
  - intros r s2 [Hd [->|(-> & Ei2 & Es2 & Ed2 & live' & Hok2)]].
    + split; [|by left]. intros b Hb. rewrite Hd, (sy_data _ _ _ _ Hdone b Hb). by apply (hv_blk _ _ _ _ Hv).
    + assert (forall b, is_data g b -> blk (disk s2) g b = v_blk v b) as Hdata.
      { intros b Hb. rewrite Hd, (sy_data _ _ _ _ Hdone b Hb). by apply (hv_blk _ _ _ _ Hv). }
      split; [done|]. right. split; [done|]. exists live'. split; [|split].
      * split; [done|rewrite Ei2; apply Hv|rewrite Ei2; apply Hv|done].
      * intros k Hk _. rewrite Hd, Ei2. by apply Hall.
      * destruct Hsv as [H1 H2 H3 H4]. split; rewrite ?Es2, ?Ei2; done.
Qed.


(** ** Inodes *)

(** The bytes of the inode lie in one block of the table. *)
Definition in_one_block g ino : Prop := ino_off g ino mod LUFIRAFS_BLOCK_SIZE + LUFIRAFS_INODE_SIZE <= LUFIRAFS_BLOCK_SIZE.

Lemma wp_write_inode_raw (Q : bool -> lufirafs -> Prop) s g live ino i : fs_ok s g live -> is_ino ino -> inode_ok i ->
  (forall im d, splice (image s) (ino_off g ino) (encode_inode i) = Some im ->
     (forall k, bit d k = (k =? ino_off g ino / LUFIRAFS_BLOCK_SIZE) || bit (dirty_bitmap s) k) -> Q true (set_dirty d (set_image im s))) ->
  wp (lufirafs_write_inode ino i) Q s.
Proof.
  intros Hok Hi Hio HQ. pose proof (fo_geom _ _ _ Hok) as Hg. pose proof (zlen_encode_inode i (io_direct _ Hio)) as Hl.
  destruct (ino_pos g ino Hg Hi) as [Hp1 Hp2]. pose proof (image_size_ge g Hg) as [Hp3 _].
  assert (0 <= ino_off g ino / LUFIRAFS_BLOCK_SIZE < g_ds g) as Hk.
  { split; [apply Z.div_pos; unfold LUFIRAFS_BLOCK_SIZE in *; lia|]. apply Z.div_lt_upper_bound; [done|]. unfold LUFIRAFS_INODE_SIZE in *. lia. }
  unfold lufirafs_write_inode. wstep. wstep. rewrite (is_ino_guard _ _ _ _ Hok Hi), (inode_off_eq _ _ _ _ Hok Hi). wstep.
  apply wp_img_write; [unfold LUFIRAFS_BLOCK_SIZE in *; lia|rewrite Hl, (fo_image _ _ _ Hok); lia|]. intros im Hs _.
  unfold mark_dirty. wstep. wstep. wstep. change (sb (set_image im s)) with (sb s).
  rewrite (sg_ds _ _ (fo_sb _ _ _ Hok)), (proj2 (Z.leb_gt _ _)) by lia. wstep. wstep.
  destruct (bm_set_spec (dirty_bitmap s) (ino_off g ino / LUFIRAFS_BLOCK_SIZE)) as (d & Hd & _ & Hb); [pose proof (fo_dirty _ _ _ Hok); lia|].
  wstep. eapply wp_lift; [exact Hd|]. cbv beta. wstep. wstep. by apply HQ.
Qed.

Lemma write_inode_synced s g live v ino i : has_view s g live v -> is_ino ino -> inode_ok i -> in_one_block g ino -> synced s g -> saved s ->
  wp (lufirafs_write_inode ino i) (fun _ s' => synced s' g /\ saved s') s.
Proof.
  intros Hv Hi Hio Hone Hsy Hsv. pose proof (hv_ok _ _ _ _ Hv) as Hok. pose proof (fo_geom _ _ _ Hok) as Hg.
  pose proof (zlen_encode_inode i (io_direct _ Hio)) as Hl. destruct (ino_pos g ino Hg Hi) as [Hp1 Hp2]. pose proof (image_size_ge g Hg) as [Hp3 _].
  apply (wp_write_inode_raw _ _ _ _ _ _ Hok Hi Hio). intros im d Hs Hb.
  assert (forall k, 0 <= k < g_ds g -> k <> ino_off g ino / LUFIRAFS_BLOCK_SIZE -> mblk im k = mblk (image s) k) as Hother.
  { intros k Hk Hne. apply (mblk_splice _ _ _ _ k Hs); [lia|rewrite (fo_image _ _ _ Hok); unfold LUFIRAFS_BLOCK_SIZE; lia|]. rewrite Hl.
    unfold in_one_block in Hone. pose proof (Z.mod_pos_bound (ino_off g ino) LUFIRAFS_BLOCK_SIZE ltac:(done)). pose proof (Z.div_mod (ino_off g ino) LUFIRAFS_BLOCK_SIZE ltac:(done)). unfold LUFIRAFS_BLOCK_SIZE in *. lia. }
  split.
  - intros k Hk. cbn [dirty_bitmap set_dirty disk image set_image]. rewrite Hb. destruct (Z.eqb_spec k (ino_off g ino / LUFIRAFS_BLOCK_SIZE)) as [|Hne]; [done|].
    cbn [orb]. intros Hbit. rewrite Hother by done. by apply Hsy.
  - destruct Hsv as [H1 H2 H3 H4]. split; try done. cbn [image set_dirty set_image sb]. rewrite Hother; [done|pose proof (go_bitmap _ Hg); unfold g_ds, g_its; lia|].
    assert (0 < ino_off g ino / LUFIRAFS_BLOCK_SIZE) by (apply Z.div_str_pos; unfold LUFIRAFS_BLOCK_SIZE in *; lia). lia.
Qed.

(** An inode whose record lies within one block of the inode table survives a restart: after
    [lufirafs_write_inode], [lufirafs_sync] and [lufirafs_init] the inode reads back as written and
    every other inode, the bitmap and all data are as before. *)
Theorem lufirafs_inode_durable s g live v ino i : has_view s g live v -> synced s g -> saved s -> is_ino ino -> inode_ok i -> in_one_block g ino ->
  wp (lufirafs_write_inode ino i;; lufirafs_sync;; lufirafs_init (g_lba g)) (fun r s' =>
    r = -1 \/ (r = 0 /\ lufirafs_read_inode ino s' = Some (Some i, s') /\ exists live', has_view s' g live' (put_ino ino i v))) s.
Proof.
  intros Hv Hsy Hsv Hi Hio Hone. wstep.
  assert (wp (lufirafs_write_inode ino i) (fun _ s' => has_view s' g live (put_ino ino i v)) s) as Hview by by apply (wp_write_inode _ _ _ _ _ _ _ Hv).
  pose proof (write_inode_synced _ _ _ _ _ _ Hv Hi Hio Hone Hsy Hsv) as Hd. apply wp_inv in Hview as (r0 & s1 & E & Hv1).
  destruct (wp_run _ _ _ _ _ Hd E) as [Hsy1 Hsv1]. eapply wp_Some; [exact E|]. cbv beta. eapply wp_mono; [apply (sync_mount_outcome _ _ _ _ Hv1 Hsy1 Hsv1)|].
  cbv beta. intros r s2 [_ [->|(-> & live' & Hv2 & _)]]; [by left|right]. split; [done|]. split; [|by exists live'].
  assert (wp (lufirafs_read_inode ino) (fun r s' => r = Some i /\ s' = s2) s2) as H.
  { apply (wp_read_inode _ _ _ _ _ _ Hv2 Hi). split; [|done]. cbn. by rewrite Z.eqb_refl. }
  apply wp_inv in H as (r & s' & -> & -> & ->). done.
Qed.
End disk.

(** * Layout *)

(** [lufirafs_compute_layout] places superblock, bitmap, inode table and data one after the other
    with no 32-bit wrap: the bitmap has a bit for every block and no spare block, the inode table
    holds all 512 inodes, and the metadata fits in front of the data, for every partition of at least
    7 blocks within the 32-bit sector space.  Such a layout meets the hypotheses of the other theorems. *)
Theorem lufirafs_compute_layout_correct n r lba : 7 <= n -> 0 <= lba -> lba + n * SECTORS_PER_BLOCK <= 2 ^ 32 ->
  zlen r = 8140 -> Forall is_u8 r ->
  let b := lufirafs_compute_layout n r in
  let g := mk_geom n (bitmap_blocks b) lba in
  n <= bitmap_blocks b * (LUFIRAFS_BLOCK_SIZE * 8) < n + LUFIRAFS_BLOCK_SIZE * 8 /\
  inode_table_start b = bitmap_start b + bitmap_blocks b /\
  LUFIRAFS_INODE_COUNT * LUFIRAFS_INODE_SIZE <= inode_table_blocks b * LUFIRAFS_BLOCK_SIZE /\
  data_start b = inode_table_start b + inode_table_blocks b /\ data_start b <= total_blocks b /\
  sb_geom b g /\ geom_ok g.
Proof.
  intros Hn Hlba Hmax Hr Hby b g.
  assert (bitmap_blocks b = (n + 65535) / 65536) as Ebm.
  { unfold b, lufirafs_compute_layout. cbn [bitmap_blocks]. unfold SECTORS_PER_BLOCK in Hmax. change (u32 (LUFIRAFS_BLOCK_SIZE * 8)) with 65536.
    rewrite (u32_small (n + 65536)) by (unfold is_u32; lia). rewrite u32_small by (unfold is_u32; lia). replace (n + 65536 - 1) with (n + 65535) by lia.
    rewrite (proj2 (Z.eqb_neq _ _)); [done|]. assert (0 < (n + 65535) / 65536) by (apply Z.div_str_pos; lia). lia. }
  pose proof (Z.div_mod (n + 65535) 65536 ltac:(lia)) as Hdm. pose proof (Z.mod_pos_bound (n + 65535) 65536 ltac:(lia)) as Hm. rewrite <- Ebm in Hdm.
  assert (1 <= bitmap_blocks b <= 4096) as Hbm by (unfold SECTORS_PER_BLOCK in Hmax; lia).
  assert (bitmap_blocks b + 6 <= n) as Hfit by lia.
  assert (inode_table_start b = 1 + bitmap_blocks b) as Eits.
  { transitivity (u32 (1 + bitmap_blocks b)); [done|]. apply u32_small. unfold is_u32. lia. }
  assert (data_start b = inode_table_start b + 5) as Eds.
  { transitivity (u32 (inode_table_start b + 5)); [done|]. apply u32_small. unfold is_u32. lia. }
  change (inode_table_blocks b) with 5. change (bitmap_start b) with 1. change (total_blocks b) with n. unfold LUFIRAFS_BLOCK_SIZE.
  split_and!; [lia|lia|done|done|done|lia| |].
  - split; try done; cbn [g_total g]; unfold g_ds, g_its; cbn [g_bitmap g]; lia.
  - split; unfold g_ds, g_its, SECTORS_PER_BLOCK, LUFIRAFS_BLOCK_SIZE in *; cbn [g_bitmap g_total g_lba g]; lia.
Qed.
