(* ===== verification/LufirafsDemo.v ===== *)
(** A small file system of 64 blocks on a disk in memory, freshly made, on which the theorems about
    LufiraFS are run. *)

From S2P Require Import Prelude Bitmap Memory Interfaces Heap Ramdisk Lufirafs LufirafsView LufirafsDisk.


Definition demo_sb : superblock := lufirafs_compute_layout 64 (replicate (Z.to_nat 8140) 0).
Definition demo_geom : geom := mk_geom 64 1 2048.
(** The disk: the superblock, and zeros. *)
Definition demo_disk : ramdisk := fun p =>
  if (1048576 <=? p) && (p <? 1056768) then default 0 (zget (encode_sb demo_sb) (p - 1048576)) else 0.
(** Freshly made and mounted: no block and no inode in use. *)
Definition demo_fs : lufirafs (HS := heap) (DS := ramdisk) :=
  mk_fs (encode_sb demo_sb ++ replicate (Z.to_nat 49152) 0) 2048 demo_sb (replicate 1 0) 7 demo_disk demo_heap.
Definition demo_view : view := mk_view (img_used (image demo_fs)) (img_inode (image demo_fs) demo_geom) (blk (disk demo_fs) demo_geom).

Lemma demo_geom_ok : geom_ok demo_geom.
Proof. split; cbn; unfold g_ds, g_its, LUFIRAFS_BLOCK_SIZE, SECTORS_PER_BLOCK; cbn; lia. Qed.

Lemma demo_sb_geom : sb_geom demo_sb demo_geom.
Proof. split; try done. split; [done|]. by apply Forall_replicate. Qed.

Lemma demo_has_view : has_view demo_fs demo_geom ∅ demo_view.
Proof.
  assert (zlen (encode_sb demo_sb) = LUFIRAFS_BLOCK_SIZE /\ Forall is_u8 (encode_sb demo_sb)) as [Hl Hb] by apply (encode_sb_len _ _ demo_sb_geom).
  split; [split|done..].
  - apply demo_geom_ok.
  - apply demo_sb_geom.
  - done.
  - cbn [image demo_fs]. rewrite zlen_app, Hl. unfold zlen. rewrite length_replicate, Z2Nat.id by lia. reflexivity.
  - cbn [image demo_fs]. apply Forall_app_2; [exact Hb|]. apply Forall_replicate. unfold is_u8. lia.
  - done.
  - done.
  - exists [(KERNEL_HEAP_SIZE, false)]. split; [apply demo_heap_rep|]. intros p. split; [set_solver|].
    intros (off & sz & Hu & _). unfold used_at in Hu. cbn in Hu. by apply list_elem_of_singleton in Hu.
  - done.
Qed.


Lemma demo_block0 : mblk (image demo_fs) 0 = encode_sb demo_sb.
Proof.
  assert (zlen (encode_sb demo_sb) = LUFIRAFS_BLOCK_SIZE) as Hl by apply (encode_sb_len _ _ demo_sb_geom).
  unfold mblk, cut. cbn [image demo_fs]. rewrite drop_0. apply take_app_length'. unfold zlen in Hl. lia.
Qed.

Lemma demo_saved : saved demo_fs.
Proof.
  split; [|done|done|apply demo_block0]. cbn [sb demo_fs]. unfold sb_words. repeat (apply Forall_cons_2; [vm_compute; split; [discriminate|reflexivity]|]). apply Forall_nil_2.
Qed.

Lemma demo_synced : synced demo_fs demo_geom.
Proof.
  intros k Hk _. destruct (encode_sb_len _ _ demo_sb_geom) as [Hl Hby]. unfold LUFIRAFS_BLOCK_SIZE in Hl.
  change (g_ds demo_geom) with 7 in Hk. cbn [disk demo_fs]. unfold blk. change (bd_sector demo_disk) with (rd_sector demo_disk).
  cbn [g_lba demo_geom]. unfold SECTORS_PER_BLOCK. rewrite sectors_bytes by lia.
  destruct (decide (k = 0)) as [->|Hne].
  - rewrite demo_block0. apply bytes_of_fun; [lia|done|]. intros p Hp. unfold demo_disk.
    rewrite (proj2 (Z.leb_le _ _)), (proj2 (Z.ltb_lt _ _)) by lia. done.
  - unfold mblk, cut. cbn [image demo_fs]. unfold zlen, LUFIRAFS_BLOCK_SIZE in *. rewrite drop_app_ge, drop_replicate, take_replicate by lia.
    replace (_ `min` _)%nat with (Z.to_nat 8192) by lia.
    apply bytes_of_fun; [unfold zlen; rewrite length_replicate; lia|apply Forall_replicate; unfold is_u8; lia|].
    intros p Hp. unfold demo_disk. rewrite (proj2 (Z.ltb_ge p 1056768)), andb_false_r by lia. by rewrite zget_replicate by lia.
Qed.

Definition demo_file : inode := mk_inode LUFIRAFS_MODE_FILE 200000 1 (replicate 12 0) 9 1000 1000 420.

Lemma demo_file_ok : inode_ok demo_file.
Proof. split; [|done]. unfold inode_words, demo_file. cbn. repeat (apply Forall_cons_2; [vm_compute; split; [discriminate|reflexivity]|]). apply Forall_nil_2. Qed.


Lemma lufirafs_inode_durable_witness :
  wp (lufirafs_write_inode 3 demo_file;; lufirafs_sync;; lufirafs_init (g_lba demo_geom)) (fun r s' =>
    r = -1 \/ (r = 0 /\ lufirafs_read_inode 3 s' = Some (Some demo_file, s') /\ exists live', has_view s' demo_geom live' (put_ino 3 demo_file demo_view))) demo_fs.
Proof.
  apply (lufirafs_inode_durable demo_fs demo_geom ∅ demo_view 3 demo_file demo_has_view demo_synced demo_saved); [|exact demo_file_ok|].
  - unfold is_ino, LUFIRAFS_INODE_COUNT. lia.
  - vm_compute. discriminate.
Defined.

Lemma lufirafs_compute_layout_witness :
  let b := lufirafs_compute_layout 64 (replicate (Z.to_nat 8140) 0) in sb_geom b (mk_geom 64 (bitmap_blocks b) 2048) /\ geom_ok (mk_geom 64 (bitmap_blocks b) 2048).
Proof.
  destruct (lufirafs_compute_layout_correct 64 (replicate (Z.to_nat 8140) 0) 2048) as (_ & _ & _ & _ & _ & H1 & H2); [lia|lia|unfold SECTORS_PER_BLOCK; lia| | |done].
  - unfold zlen. rewrite length_replicate. lia.
  - apply Forall_replicate. unfold is_u8. lia.
Defined.

(** An inode that straddles two blocks of the table does not survive a restart:
    [lufirafs_write_inode] marks only the first of the two blocks dirty, so after a sync and a new
    mount inode 108 has lost its indirect block, owner and permissions, although both calls succeed. *)
Theorem lufirafs_inode_straddling_lost :
  fst <$> (ok ← lufirafs_write_inode 108 demo_file; lufirafs_sync;; r ← lufirafs_init 2048; i ← lufirafs_read_inode 108; mret (ok, r, i)) demo_fs =
  Some (true, 0, Some (mk_inode LUFIRAFS_MODE_FILE 200000 1 (replicate 12 0) 0 0 0 0)).
Proof. vm_compute. reflexivity. Qed.
