(* ===== verification/LufirafsFile.v ===== *)
(** Files of LufiraFS: the block map of an inode, the invariant that no block is shared, and what
    [inode_get_block], [lufirafs_read] and [lufirafs_write] do to the contents of files. *)

From S2P Require Import Prelude Bitmap Memory Interfaces Heap Ramdisk Lufirafs LufirafsView LufirafsDemo.

Definition MAX_BLOCKS : Z := LUFIRAFS_DIRECT_BLOCKS + LUFIRAFS_PTRS_PER_BLOCK.

(** Block [k] of the file, 0 for a hole. *)
Definition ptr (v : view) (i : inode) (k : Z) : Z :=
  if k <? LUFIRAFS_DIRECT_BLOCKS then default 0 (zget (direct i) k)
  else if indirect i =? 0 then 0 else word (v_blk v (indirect i)) (4 * (k - LUFIRAFS_DIRECT_BLOCKS)).

(** All block numbers an inode holds: -1 stands for the indirect block. *)
Definition refs (v : view) (i : inode) (k : Z) : Z := if k =? -1 then indirect i else ptr v i k.

Definition is_index (k : Z) : Prop := -1 <= k < MAX_BLOCKS.

Record fs_wf (g : geom) (v : view) : Prop := {
  fw_ok : forall ino, is_ino ino -> inode_ok (v_ino v ino);
  fw_refs : forall ino k, is_ino ino -> is_index k -> refs v (v_ino v ino) k <> 0 ->
    is_data g (refs v (v_ino v ino) k) /\ v_used v (refs v (v_ino v ino) k) = true;
  fw_inj : forall ino k ino' k', is_ino ino -> is_ino ino' -> is_index k -> is_index k' ->
    refs v (v_ino v ino) k <> 0 -> refs v (v_ino v ino) k = refs v (v_ino v ino') k' -> ino = ino' /\ k = k';
}.

Lemma put_ino_eq ino i v : v_ino (put_ino ino i v) ino = i.
Proof. cbn. by rewrite Z.eqb_refl. Qed.
Lemma put_ino_ne ino i v j : j <> ino -> v_ino (put_ino ino i v) j = v_ino v j.
Proof. intros. cbn. by rewrite (proj2 (Z.eqb_neq j ino)). Qed.

Lemma refs_put_ino ino i v j k : refs (put_ino ino i v) j k = refs v j k.
Proof. done. Qed.

Section wf.
Context (g : geom) (v v' : view) (ino : Z) (i i' : inode).
Context (Hino : is_ino ino) (Hwf : fs_wf g (put_ino ino i v)).

Lemma wf_own k : is_index k -> refs v i k <> 0 -> is_data g (refs v i k) /\ v_used v (refs v i k) = true.
Proof. pose proof (fw_refs _ _ Hwf ino k Hino) as H. rewrite put_ino_eq in H. exact H. Qed.

Lemma wf_own_inj k k' : is_index k -> is_index k' -> refs v i k <> 0 -> refs v i k = refs v i k' -> k = k'.
Proof.
  intros Hk Hk' Hn E. pose proof (fw_inj _ _ Hwf ino k ino k' Hino Hino Hk Hk') as H. rewrite put_ino_eq in H. by apply H.
Qed.

Lemma wf_other j k k' : is_ino j -> j <> ino -> is_index k -> is_index k' -> refs v (v_ino v j) k <> 0 -> refs v (v_ino v j) k <> refs v i k'.
Proof.
  intros Hj Hne Hk Hk' Hn E. pose proof (fw_inj _ _ Hwf j k ino k' Hj Hino Hk Hk') as H.
  rewrite put_ino_eq, put_ino_ne in H by done. by destruct (H Hn E).
Qed.

(** Other files keep their blocks when blocks in use, other than this file's indirect block, keep
    their contents. *)
Lemma refs_other j k : is_ino j -> j <> ino -> is_index k -> v_ino v' j = v_ino v j ->
  (forall b, is_data g b -> v_used v b = true -> b <> indirect i -> v_blk v' b = v_blk v b) ->
  refs v' (v_ino v' j) k = refs v (v_ino v j) k.
Proof.
  intros Hj Hne Hk E Hkeep. rewrite E. unfold refs, ptr. destruct (k =? -1); [done|]. destruct (_ <? _); [done|].
  destruct (Z.eqb_spec (indirect (v_ino v j)) 0) as [|Hn]; [done|]. f_equal.
  assert (is_index (-1)) as Hm by (unfold is_index, MAX_BLOCKS, LUFIRAFS_DIRECT_BLOCKS, LUFIRAFS_PTRS_PER_BLOCK; lia).
  pose proof (fw_refs _ _ Hwf j (-1) Hj Hm) as H. rewrite put_ino_ne in H by done. destruct (H Hn) as [Hd Hu].
  apply Hkeep; [done|done|]. by apply (wf_other j (-1) (-1)).
Qed.

(** One new reference [nb] at index [k0]; everything else as before. *)
Lemma wf_add k0 nb : is_index k0 -> is_data g nb -> v_used v nb = false -> inode_ok i' -> v_ino v' = v_ino v ->
  (forall b, is_data g b -> v_used v' b = (b =? nb) || v_used v b) ->
  (forall b, is_data g b -> v_used v b = true -> b <> indirect i -> v_blk v' b = v_blk v b) ->
  (forall k, is_index k -> k <> k0 -> refs v' i' k = refs v i k) -> refs v' i' k0 = nb ->
  fs_wf g (put_ino ino i' v').
Proof.
  intros Hk0 Hnb Hfree Hok Ei Hused Hkeep Hsame Hnew.
  assert (forall j k, is_ino j -> is_index k -> refs v' (v_ino (put_ino ino i' v') j) k =
    if (j =? ino) && (k =? k0) then nb else refs v (v_ino (put_ino ino i v) j) k) as Hrefs.
  { intros j k Hj Hk. destruct (Z.eqb_spec j ino) as [->|Hne].
    - rewrite !put_ino_eq. destruct (Z.eqb_spec k k0) as [->|]; [done|]. by apply Hsame.
    - rewrite !put_ino_ne by done. cbn [andb]. apply refs_other; try done. by rewrite Ei. }
  assert (forall j k, is_ino j -> is_index k -> refs v (v_ino (put_ino ino i v) j) k <> 0 ->
    is_data g (refs v (v_ino (put_ino ino i v) j) k) /\ v_used v (refs v (v_ino (put_ino ino i v) j) k) = true) as Hold.
  { intros j k Hj Hk. apply (fw_refs _ _ Hwf j k Hj Hk). }
  split.
  - intros j Hj. destruct (decide (j = ino)) as [->|Hne]; [by rewrite put_ino_eq|].
    rewrite put_ino_ne, Ei by done. pose proof (fw_ok _ _ Hwf j Hj) as H. by rewrite put_ino_ne in H.
  - intros j k Hj Hk. rewrite !refs_put_ino, Hrefs by done. intros Hn. cbn [v_used put_ino]. destruct (_ && _).
    + rewrite Hused, Z.eqb_refl by done. done.
    + destruct (Hold j k Hj Hk Hn) as [Hd Hu]. rewrite Hused, Hu by done. by rewrite orb_true_r.
  - intros j k j' k' Hj Hj' Hk Hk'. rewrite !refs_put_ino, !Hrefs by done.
    assert (forall j k, is_ino j -> is_index k -> refs v (v_ino (put_ino ino i v) j) k <> 0 ->
      refs v (v_ino (put_ino ino i v) j) k <> nb) as Hnew'.
    { intros j0 k1 Hj0 Hk1 Hn0 E0. destruct (Hold j0 k1 Hj0 Hk1 Hn0) as [_ Hu]. rewrite E0, Hfree in Hu. done. }
    destruct ((j =? ino) && (k =? k0)) eqn:E1, ((j' =? ino) && (k' =? k0)) eqn:E2; intros Hn E.
    + apply andb_true_iff in E1 as [->%Z.eqb_eq ->%Z.eqb_eq], E2 as [->%Z.eqb_eq ->%Z.eqb_eq]. done.
    + destruct (Hnew' j' k' Hj' Hk'); rewrite <- E; done.
    + destruct (Hnew' j k Hj Hk Hn). done.
    + exact (fw_inj _ _ Hwf j k j' k' Hj Hj' Hk Hk' Hn E).
Qed.
End wf.

(** * The block map *)

Definition same_attrs (i i' : inode) : Prop :=
  mode i' = mode i /\ size i' = size i /\ links_count i' = links_count i /\ uid i' = uid i /\ gid i' = gid i /\ perm i' = perm i.

Lemma word_splice_same l off x l' : splice l off (le32 x) = Some l' -> word l' off = u32 x.
Proof.
  intros Hs. rewrite word_cut. rewrite <- (zlen_le32 x), (cut_splice_same _ _ _ _ Hs). unfold le32. by rewrite le_combine_split.
Qed.

Lemma word_splice_other l off src l' a : splice l off src = Some l' -> 0 <= a -> a + 4 <= zlen l ->
  a + 4 <= off \/ off + zlen src <= a -> word l' a = word l a.
Proof. intros Hs Ha Hl Hd. rewrite !word_cut. f_equal. by eapply cut_splice_other. Qed.

Lemma word_zero off : word zero_block off = 0.
Proof.
  unfold word. assert (forall n, le_combine (replicate n 0) = 0) as H by (induction n as [|n IH]; [done|cbn; by rewrite IH]).
  unfold zero_block. by rewrite drop_replicate, take_replicate.
Qed.

Lemma inode_ok_direct i k x l : inode_ok i -> is_u32 x -> zset (direct i) k x = Some l -> inode_ok (set_direct l i).
Proof.
  intros [Hw Hd] Hx Hs. unfold zset in Hs. destruct (_ && _); [|done]. injection Hs as <-. split; [|cbn; by rewrite length_insert].
  unfold inode_words in *. cbn [set_direct mode size links_count direct indirect uid gid perm] in *.
  rewrite !Forall_app in Hw |- *. destruct Hw as (H1 & H2 & H3). split_and!; [done|by apply Forall_insert|done].
Qed.

Lemma inode_ok_indirect i x : inode_ok i -> is_u32 x -> inode_ok (set_indirect x i).
Proof.
  intros [Hw Hd] Hx. split; [|done]. unfold inode_words in *. cbn [set_indirect mode size links_count direct indirect uid gid perm] in *.
  rewrite !Forall_app in Hw |- *. destruct Hw as (H1 & H2 & H3). split_and!; [done|done|]. by inversion_clear H3; constructor.
Qed.

Lemma inode_ok_size i x : inode_ok i -> is_u32 x -> inode_ok (set_size x i).
Proof.
  intros [Hw Hd] Hx. split; [|done]. unfold inode_words in *. cbn [set_size mode size links_count direct indirect uid gid perm] in *.
  rewrite !Forall_app in Hw |- *. destruct Hw as (H1 & H2 & H3). split_and!; [|done|done].
  inversion_clear H1 as [|? ? Ha H1']. inversion_clear H1' as [|? ? Hb H1]. by apply Forall_cons_2, Forall_cons_2.
Qed.

Lemma data_u32 g b : geom_ok g -> is_data g b -> is_u32 b /\ b <> 0.
Proof.
  intros Hg [H1 H2]. destruct (go_lba _ Hg). pose proof (go_bitmap _ Hg). unfold is_u32, g_ds, g_its, SECTORS_PER_BLOCK in *. lia.
Qed.

Section files.
Context {HS DS : Type} `{!BlockAllocator HS} `{!BlockDevice DS}.
Implicit Types (s : lufirafs (HS := HS) (DS := DS)) (g : geom) (v : view).

(** No data block is free. *)
Definition full g v : Prop := forall b, is_data g b -> v_used v b = true.

(** What [inode_get_block] does for block [k0] of inode [ino], seen as [i] before and [i'] after. *)
Record get_block_post g ino v i k0 create r v' i' : Prop := {
  gb_wf : fs_wf g (put_ino ino i' v');
  gb_ino : v_ino v' = v_ino v;
  gb_attrs : same_attrs i i';
  gb_ptr : forall k, 0 <= k < MAX_BLOCKS -> k <> k0 -> ptr v' i' k = ptr v i k;
  gb_keep : forall b, is_data g b -> v_used v b = true -> b <> indirect i -> v_blk v' b = v_blk v b;
  gb_used : forall b, is_data g b -> v_used v b = true -> v_used v' b = true;
  gb_pure : create = false -> v' = v /\ i' = i;
  gb_fail : r = 0 -> k0 < LUFIRAFS_DIRECT_BLOCKS -> v' = v /\ i' = i;
  gb_res : (r <> 0 /\ ptr v' i' k0 = r /\
              (ptr v i k0 = r \/ (ptr v i k0 = 0 /\ v_used v r = false /\ v_blk v' r = zero_block))) \/
           (r = 0 /\ ptr v' i' k0 = ptr v i k0 /\
              (ptr v i k0 = 0 /\ (create = true -> full g v') \/
               heap_refuses (HS := HS) /\ (create = true \/ LUFIRAFS_DIRECT_BLOCKS <= k0)));
}.

Lemma alloc_block_cases s g live v : has_view s g live v ->
  wp alloc_block (fun k s' => (k = 0 /\ has_view s' g live v /\ (heap_refuses (HS := HS) \/ full g v)) \/
    (is_data g k /\ v_used v k = false /\ has_view s' g live (taken k v))) s.
Proof.
  intros Hv. eapply wp_mono; [apply (alloc_block_outcome _ _ _ _ Hv)|]. cbv beta.
  intros k s' [[(-> & Hv' & Hr)|Hr]|(-> & -> & Hf)]; [left; tauto|by right|left; tauto].
Qed.

Lemma gb_refl g ino v i k0 create : fs_wf g (put_ino ino i v) -> ptr v i k0 = 0 /\ (create = true -> full g v) \/ heap_refuses (HS := HS) /\ (create = true \/ LUFIRAFS_DIRECT_BLOCKS <= k0) ->
  get_block_post g ino v i k0 create 0 v i.
Proof. intros Hwf Hk. split; try done. by right. Qed.

Lemma gb_found g ino v i k0 create : fs_wf g (put_ino ino i v) -> ptr v i k0 <> 0 ->
  get_block_post g ino v i k0 create (ptr v i k0) v i.
Proof. intros Hwf Hk. split; try done. left. split_and!; [done|done|by left]. Qed.

Lemma view_blk_len s g live v b : has_view s g live v -> is_data g b -> zlen (v_blk v b) = LUFIRAFS_BLOCK_SIZE /\ Forall is_u8 (v_blk v b).
Proof. intros Hv Hb. rewrite <- (hv_blk _ _ _ _ Hv) by done. apply blk_len. Qed.

Lemma ptr_direct v i k : k < LUFIRAFS_DIRECT_BLOCKS -> ptr v i k = default 0 (zget (direct i) k).
Proof. intros. unfold ptr. by rewrite (proj2 (Z.ltb_lt _ _)). Qed.
Lemma ptr_indirect v i k : LUFIRAFS_DIRECT_BLOCKS <= k -> indirect i <> 0 ->
  ptr v i k = word (v_blk v (indirect i)) (4 * (k - LUFIRAFS_DIRECT_BLOCKS)).
Proof. intros. unfold ptr. by rewrite (proj2 (Z.ltb_ge _ _)), (proj2 (Z.eqb_neq _ _)). Qed.

Lemma refs_ptr v i k : 0 <= k -> refs v i k = ptr v i k.
Proof. intros. unfold refs. by rewrite (proj2 (Z.eqb_neq _ _)) by lia. Qed.

Lemma index_m1 : is_index (-1).
Proof. unfold is_index, MAX_BLOCKS, LUFIRAFS_DIRECT_BLOCKS, LUFIRAFS_PTRS_PER_BLOCK. lia. Qed.

(** The references other than [k0] are as before when the pointers and the indirect block are. *)
Lemma refs_same v v' i i' k0 : indirect i' = indirect i -> (forall k, 0 <= k < MAX_BLOCKS -> k <> k0 -> ptr v' i' k = ptr v i k) ->
  forall k, is_index k -> k <> k0 -> refs v' i' k = refs v i k.
Proof.
  intros Hi Hp k [Hk1 Hk2] Hne. unfold refs. destruct (Z.eqb_spec k (-1)); [done|]. apply Hp; [lia|done].
Qed.

(** A fresh block [nb] stored in slot [k] of the indirect block. *)
Lemma gb_new_indirect g v ino i k nb buf' : geom_ok g -> is_ino ino -> fs_wf g (put_ino ino i v) ->
  LUFIRAFS_DIRECT_BLOCKS <= k < MAX_BLOCKS -> indirect i <> 0 -> zlen (v_blk v (indirect i)) = LUFIRAFS_BLOCK_SIZE ->
  ptr v i k = 0 -> is_data g nb -> v_used v nb = false ->
  splice (v_blk v (indirect i)) (4 * (k - LUFIRAFS_DIRECT_BLOCKS)) (le32 nb) = Some buf' ->
  get_block_post g ino v i k true nb (put (indirect i) buf' (taken nb v)) i.
Proof.
  intros Hg Hino Hwf Hk Hn Hlen E0 Hd Hu Hs. destruct (data_u32 g nb Hg Hd) as [Hu32 Hnb0].
  destruct (wf_own g v ino i Hino Hwf (-1) index_m1 Hn) as [Hid Hiu]. change (refs v i (-1)) with (indirect i) in *.
  assert (indirect i <> nb) as Hne by (intros E; congruence). set (v' := put _ _ _).
  assert (forall b, v_blk v' b = if b =? indirect i then buf' else if b =? nb then zero_block else v_blk v b) as Eblk by done.
  assert (forall k', LUFIRAFS_DIRECT_BLOCKS <= k' -> ptr v' i k' = word buf' (4 * (k' - LUFIRAFS_DIRECT_BLOCKS))) as Eptr.
  { intros k' Hk'. rewrite (ptr_indirect v' i k') by done. by rewrite Eblk, Z.eqb_refl. }
  assert (ptr v' i k = nb) as Enew.
  { rewrite Eptr by lia. rewrite (word_splice_same _ _ _ _ Hs). by apply u32_small. }
  assert (forall k', 0 <= k' < MAX_BLOCKS -> k' <> k -> ptr v' i k' = ptr v i k') as Eold.
  { intros k' Hk' Hne'. destruct (decide (k' < LUFIRAFS_DIRECT_BLOCKS)); [by rewrite !ptr_direct|].
    rewrite Eptr, ptr_indirect by (done || lia). apply (word_splice_other _ _ _ _ _ Hs); [lia|rewrite Hlen|rewrite zlen_le32; lia].
    unfold MAX_BLOCKS, LUFIRAFS_DIRECT_BLOCKS, LUFIRAFS_PTRS_PER_BLOCK, LUFIRAFS_BLOCK_SIZE in *. lia. }
  assert (forall b, is_data g b -> v_used v b = true -> b <> indirect i -> v_blk v' b = v_blk v b) as Hkeep.
  { intros b Hb Hub Hbi. rewrite Eblk, (proj2 (Z.eqb_neq _ _) Hbi), (proj2 (Z.eqb_neq b nb)) by (intros ->; congruence). done. }
  split; try done.
  - apply (wf_add g v v' ino i i Hino Hwf k nb).
    + unfold is_index, LUFIRAFS_DIRECT_BLOCKS in *. lia.
    + done.
    + done.
    + pose proof (fw_ok _ _ Hwf ino Hino) as H. by rewrite put_ino_eq in H.
    + done.
    + intros b _. cbn. by destruct (b =? nb).
    + done.
    + by apply refs_same.
    + unfold LUFIRAFS_DIRECT_BLOCKS in *. by rewrite refs_ptr by lia.
  - intros b _ Hb. cbn. rewrite Hb. by destruct (_ =? _).
  - left. split_and!; [done..|]. right. split_and!; [done|done|]. rewrite Eblk, (proj2 (Z.eqb_neq nb (indirect i))), Z.eqb_refl by done. done.
Qed.

(** The block map of a file that has an indirect block. *)
Lemma get_indirect_outcome s g live v ino i k create : has_view s g live v -> is_ino ino -> fs_wf g (put_ino ino i v) ->
  LUFIRAFS_DIRECT_BLOCKS <= k < MAX_BLOCKS -> indirect i <> 0 ->
  wp (with_buf 0 (
        buf ← read_data_block (indirect i);
        match buf with
        | None => mret 0
        | Some buf =>
            let result := word buf (4 * (k - LUFIRAFS_DIRECT_BLOCKS)) in
            if (result =? 0) && create then
              nb ← alloc_block;
              if nb =? 0 then mret 0 else
              buf ← lift (splice buf (4 * (k - LUFIRAFS_DIRECT_BLOCKS)) (le32 nb));
              write_data_block (indirect i) buf;;
              mret nb
            else mret result
        end))
    (fun r s' => exists v', has_view s' g live v' /\ get_block_post g ino v i k create r v' i) s.
Proof.
  intros Hv Hino Hwf Hk Hn. pose proof (fo_geom _ _ _ (hv_ok _ _ _ _ Hv)) as Hg.
  destruct (wf_own g v ino i Hino Hwf (-1) index_m1 Hn) as [Hid Hiu]. change (refs v i (-1)) with (indirect i) in *.
  apply (wp_with_buf _ _ _ _ _ _ _ Hv); [intros Hr; exists v; split; [done|]; apply gb_refl; [done|right; split; [done|right; lia]]|].
  intros h p Hp Hnl Hv1. wstep. apply (wp_read_data_block _ _ _ _ _ _ Hv1 Hid). intros d Hv2. cbv beta iota zeta.
  rewrite <- (ptr_indirect v i k) by (done || lia).
  destruct (Z.eqb_spec (ptr v i k) 0) as [E0|Hp0]; cbn [andb]; [destruct create; cbn [andb]|].
  2:{ wstep. exists v. split; [done|]. intros h' Hv'. exists v. split; [done|]. rewrite E0. apply gb_refl; [done|left; by split]. }
  2:{ wstep. exists v. split; [done|]. intros h' Hv'. exists v. split; [done|]. by apply gb_found. }
  wstep. eapply wp_mono; [apply (alloc_block_cases _ _ _ _ Hv2)|]. cbv beta. intros nb s3 [(-> & Hv3 & Hr)|(Hd & Hu & Hv3)].
  { rewrite Z.eqb_refl. wstep. exists v. split; [done|]. intros h' Hv'. exists v. split; [done|]. apply gb_refl; [done|tauto]. }
  destruct (data_u32 g nb Hg Hd) as [Hu32 Hnb0]. rewrite (proj2 (Z.eqb_neq _ _) Hnb0).
  destruct (view_blk_len _ _ _ _ _ Hv Hid) as [Hlen Hby].
  assert (0 <= 4 * (k - LUFIRAFS_DIRECT_BLOCKS) /\ 4 * (k - LUFIRAFS_DIRECT_BLOCKS) + 4 <= LUFIRAFS_BLOCK_SIZE) as [Ho1 Ho2].
  { unfold MAX_BLOCKS, LUFIRAFS_DIRECT_BLOCKS, LUFIRAFS_PTRS_PER_BLOCK, LUFIRAFS_BLOCK_SIZE in *. lia. }
  pose proof (splice_in (v_blk v (indirect i)) _ (le32 nb) Ho1 ltac:(rewrite zlen_le32, Hlen; lia)) as Hs.
  set (buf' := take _ _ ++ _) in Hs. clearbody buf'.
  wstep. eapply wp_lift; [exact Hs|]. cbv beta. wstep.
  apply (wp_write_data_block _ _ _ _ _ _ _ Hv3 Hid).
  { rewrite (splice_len _ _ _ _ Hs). done. }
  { eapply Forall_splice; [exact Hs|done|apply le_split_bytes]. }
  intros d3 Hv4. wstep. exists (put (indirect i) buf' (taken nb v)). split; [done|]. intros h' Hv5.
  exists (put (indirect i) buf' (taken nb v)). split; [done|]. by apply gb_new_indirect.
Qed.
(** A fresh block [nb] in slot [k] of the inode itself. *)
Lemma gb_new_direct g v ino i k nb l : geom_ok g -> is_ino ino -> fs_wf g (put_ino ino i v) ->
  0 <= k < LUFIRAFS_DIRECT_BLOCKS -> ptr v i k = 0 -> is_data g nb -> v_used v nb = false -> zset (direct i) k nb = Some l ->
  get_block_post g ino v i k true nb (taken nb v) (set_direct l i).
Proof.
  intros Hg Hino Hwf Hk E0 Hd Hu Hs. destruct (data_u32 g nb Hg Hd) as [Hu32 Hnb0].
  pose proof (fw_ok _ _ Hwf ino Hino) as Hok. rewrite put_ino_eq in Hok.
  assert (0 <= k < zlen (direct i)) as Hkl by (unfold zlen, LUFIRAFS_DIRECT_BLOCKS in *; rewrite (io_direct _ Hok); lia).
  pose proof Hs as Hs'. rewrite zset_in in Hs' by done. injection Hs' as <-.
  assert (forall b, is_data g b -> v_used v b = true -> v_blk (taken nb v) b = v_blk v b) as Hkeep.
  { intros b Hb Hub. cbn. rewrite (proj2 (Z.eqb_neq b nb)); [done|]. intros ->. congruence. }
  set (i' := set_direct _ i).
  assert (ptr (taken nb v) i' k = nb) as Enew.
  { rewrite ptr_direct by lia. cbn [direct i' set_direct]. by rewrite zget_insert_eq. }
  assert (forall k', 0 <= k' < MAX_BLOCKS -> k' <> k -> ptr (taken nb v) i' k' = ptr v i k') as Eold.
  { intros k' Hk' Hne. destruct (decide (k' < LUFIRAFS_DIRECT_BLOCKS)).
    - rewrite !ptr_direct by done. cbn [direct i' set_direct]. rewrite zget_insert_ne by (done || lia). done.
    - unfold ptr. rewrite (proj2 (Z.ltb_ge _ _)) by lia. change (indirect i') with (indirect i).
      destruct (Z.eqb_spec (indirect i) 0) as [|Hn]; [done|]. f_equal.
      destruct (wf_own g v ino i Hino Hwf (-1) index_m1 Hn) as [Hid Hiu]. by apply Hkeep. }
  split; try done.
  - apply (wf_add g v (taken nb v) ino i i' Hino Hwf k nb).
    + unfold is_index, MAX_BLOCKS, LUFIRAFS_DIRECT_BLOCKS, LUFIRAFS_PTRS_PER_BLOCK in *. lia.
    + done.
    + done.
    + by eapply inode_ok_direct.
    + done.
    + intros b _. cbn. by destruct (b =? nb).
    + intros b Hb Hub _. by apply Hkeep.
    + by apply refs_same.
    + by rewrite refs_ptr by lia.
  - intros b Hb Hub _. by apply Hkeep.
  - intros b _ Hb. cbn. rewrite Hb. by destruct (_ =? _).
  - left. split_and!; [done..|]. right. split_and!; [done|done|]. cbn. by rewrite Z.eqb_refl.
Qed.

(** A fresh, empty indirect block [ib]. *)
Lemma wf_new_index g v ino i ib : geom_ok g -> is_ino ino -> fs_wf g (put_ino ino i v) -> indirect i = 0 ->
  is_data g ib -> v_used v ib = false ->
  fs_wf g (put_ino ino (set_indirect ib i) (taken ib v)) /\
  forall k, ptr (taken ib v) (set_indirect ib i) k = ptr v i k.
Proof.
  intros Hg Hino Hwf E0 Hd Hu. destruct (data_u32 g ib Hg Hd) as [Hu32 Hib0].
  assert (forall k, ptr (taken ib v) (set_indirect ib i) k = ptr v i k) as Hptr.
  { intros k. unfold ptr. cbn [direct set_indirect indirect]. destruct (_ <? _); [done|].
    rewrite E0, (proj2 (Z.eqb_neq _ _) Hib0). cbn [v_blk taken put]. rewrite Z.eqb_refl. apply word_zero. }
  split; [|done].
  pose proof (fw_ok _ _ Hwf ino Hino) as Hok. rewrite put_ino_eq in Hok.
  apply (wf_add g v (taken ib v) ino i (set_indirect ib i) Hino Hwf (-1) ib).
  - apply index_m1.
  - done.
  - done.
  - by apply inode_ok_indirect.
  - done.
  - intros b _. cbn. by destruct (b =? ib).
  - intros b Hb Hub _. cbn. rewrite (proj2 (Z.eqb_neq b ib)); [done|]. intros ->. congruence.
  - intros k Hk Hne. unfold refs. rewrite (proj2 (Z.eqb_neq _ _) Hne). apply Hptr.
  - done.
Qed.

Lemma gb_after_index g v ino i ib k r v' : LUFIRAFS_DIRECT_BLOCKS <= k -> fs_wf g (put_ino ino i v) -> is_data g ib -> v_used v ib = false -> indirect i = 0 ->
  (forall k, ptr (taken ib v) (set_indirect ib i) k = ptr v i k) ->
  get_block_post g ino (taken ib v) (set_indirect ib i) k true r v' (set_indirect ib i) ->
  get_block_post g ino v i k true r v' (set_indirect ib i).
Proof.
  intros Hk Hwf Hd Hu E0 Hptr [H1 H2 H3 H4 H5 H6 H7 Hf H8].
  assert (forall b, v_used v b = true -> (b =? ib) = false) as Hne by (intros b Hb; apply Z.eqb_neq; intros ->; congruence).
  split; try done.
  - intros k' Hk' Hn. by rewrite H4, Hptr.
  - intros b Hb Hub _. pose proof (Hne b Hub) as E. rewrite H5; [|done|cbn; by rewrite E|cbn; by apply Z.eqb_neq]. cbn. by rewrite E.
  - intros b Hb Hub. apply H6; [done|]. cbn. rewrite Hub. by destruct (_ =? _).
  - intros _ Hlt. lia.
  - rewrite Hptr in H8. destruct H8 as [(Ha & Hb & Hc)|H8]; [left|by right]. split_and!; [done..|].
    destruct Hc as [Hc|(Hc1 & Hc2 & Hc3)]; [by left|right]. split_and!; [done| |done]. cbn in Hc2. by destruct (r =? ib).
Qed.

Lemma inode_get_block_outcome s g live v ino i k create : has_view s g live v -> is_ino ino -> fs_wf g (put_ino ino i v) ->
  0 <= k < MAX_BLOCKS ->
  wp (inode_get_block i k create)
    (fun '(r, i') s' => exists v', has_view s' g live v' /\ get_block_post g ino v i k create r v' i') s.
Proof.
  intros Hv Hino Hwf Hk. pose proof (fo_geom _ _ _ (hv_ok _ _ _ _ Hv)) as Hg.
  pose proof (fw_ok _ _ Hwf ino Hino) as Hok. rewrite put_ino_eq in Hok. unfold inode_get_block.
  destruct (Z.ltb_spec k LUFIRAFS_DIRECT_BLOCKS) as [Hlt|Hge].
  - assert (0 <= k < zlen (direct i)) as Hkl by (unfold zlen, LUFIRAFS_DIRECT_BLOCKS in *; rewrite (io_direct _ Hok); lia).
    destruct (zget_Some (direct i) k Hkl) as [d Hd].
    assert (ptr v i k = d) as Ep by (rewrite ptr_direct by done; by rewrite Hd).
    wstep. eapply wp_lift; [exact Hd|]. cbv beta.
    destruct (Z.eqb_spec d 0) as [->|Hd0]; cbn [andb]; [destruct create|].
    2:{ wstep. exists v. split; [done|]. apply gb_refl; [done|left; by split]. }
    2:{ wstep. exists v. split; [done|]. rewrite <- Ep. apply gb_found; [done|congruence]. }
    wstep. eapply wp_mono; [apply (alloc_block_cases _ _ _ _ Hv)|]. cbv beta. intros nb s1 [(-> & Hv1 & Hr)|(Hnb & Hu & Hv1)];
      [rewrite Z.eqb_refl; wstep; exists v; split; [done|]; apply gb_refl; [done|tauto]|].
    rewrite (proj2 (Z.eqb_neq nb 0)) by apply (data_u32 g nb Hg Hnb). wstep.
    eapply wp_lift; [apply zset_in, Hkl|]. cbv beta. wstep. exists (taken nb v). split; [done|].
    eapply gb_new_direct; [done|done|done|lia|done|done|done|by apply zset_in].
  - cbv zeta. rewrite (proj2 (Z.leb_gt _ _)) by (unfold MAX_BLOCKS in *; lia).
    destruct (Z.eqb_spec (indirect i) 0) as [E0|Hn].
    2:{ wstep. wstep. wstep. eapply wp_mono; [apply (get_indirect_outcome _ _ _ _ ino _ k create Hv); (done || lia)|].
        cbv beta. intros r s1 (v1 & Hv1 & Hp). wstep. by exists v1. }
    assert (ptr v i k = 0) as Ep by (unfold ptr; by rewrite (proj2 (Z.ltb_ge _ _)), E0).
    destruct create; cbn [negb].
    2:{ wstep. wstep. wstep. exists v. split; [done|]. apply gb_refl; [done|left; by split]. }
    wstep. wstep. eapply wp_mono; [apply (alloc_block_cases _ _ _ _ Hv)|]. cbv beta. intros ib s1 [(-> & Hv1 & Hr)|(Hib & Hu & Hv1)];
      [rewrite Z.eqb_refl; wstep; wstep; exists v; split; [done|]; apply gb_refl; [done|tauto]|].
    destruct (data_u32 g ib Hg Hib) as [_ Hib0]. rewrite (proj2 (Z.eqb_neq ib 0)) by done. wstep.
    destruct (wf_new_index g v ino i ib) as [Hwf1 Hptr]; try done. wstep.
    eapply wp_mono; [apply (get_indirect_outcome _ _ _ _ ino (set_indirect ib i) k true Hv1); (done || lia)|].
    cbv beta. intros r s2 (v2 & Hv2 & Hp). wstep. exists v2. split; [done|]. by apply gb_after_index.
Qed.
(** * Contents *)

(** Byte [p] of the file; holes read as zero. *)
Definition content v i (p : Z) : Z :=
  let b := ptr v i (p / LUFIRAFS_BLOCK_SIZE) in
  if b =? 0 then 0 else default 0 (zget (v_blk v b) (p mod LUFIRAFS_BLOCK_SIZE)).

Definition is_pos (p : Z) : Prop := 0 <= p < LUFIRAFS_MAX_FILE_SIZE.

Lemma pos_block p : is_pos p -> 0 <= p / LUFIRAFS_BLOCK_SIZE < MAX_BLOCKS.
Proof.
  unfold is_pos, LUFIRAFS_MAX_FILE_SIZE, MAX_BLOCKS, LUFIRAFS_BLOCK_SIZE, LUFIRAFS_DIRECT_BLOCKS, LUFIRAFS_PTRS_PER_BLOCK. intros Hp.
  split; [apply Z.div_pos; lia|apply Z.div_lt_upper_bound; lia].
Qed.

Lemma index_of k : 0 <= k < MAX_BLOCKS -> is_index k.
Proof. unfold is_index. lia. Qed.

Lemma content_eq v v' i i' p : ptr v' i' (p / LUFIRAFS_BLOCK_SIZE) = ptr v i (p / LUFIRAFS_BLOCK_SIZE) ->
  (ptr v i (p / LUFIRAFS_BLOCK_SIZE) <> 0 -> v_blk v' (ptr v i (p / LUFIRAFS_BLOCK_SIZE)) = v_blk v (ptr v i (p / LUFIRAFS_BLOCK_SIZE))) ->
  content v' i' p = content v i p.
Proof. intros E Hb. unfold content. rewrite E. destruct (Z.eqb_spec (ptr v i (p / LUFIRAFS_BLOCK_SIZE)) 0); [done|]. by rewrite Hb. Qed.

(** A data block of the file is not its indirect block. *)
Lemma own_block g v ino i k : is_ino ino -> fs_wf g (put_ino ino i v) -> 0 <= k < MAX_BLOCKS -> ptr v i k <> 0 ->
  is_data g (ptr v i k) /\ v_used v (ptr v i k) = true /\ ptr v i k <> indirect i.
Proof.
  intros Hino Hwf Hk Hn. pose proof (wf_own g v ino i Hino Hwf k (index_of k Hk)) as H. rewrite refs_ptr in H by lia.
  destruct (H Hn) as [Hd Hu]. split_and!; [done|done|]. intros E.
  pose proof (wf_own_inj g v ino i Hino Hwf k (-1) (index_of k Hk) index_m1) as Hi. rewrite refs_ptr in Hi by lia. specialize (Hi Hn E). lia.
Qed.

Lemma other_block g v ino i j k : is_ino ino -> fs_wf g (put_ino ino i v) -> is_ino j -> j <> ino -> 0 <= k < MAX_BLOCKS ->
  ptr v (v_ino v j) k <> 0 ->
  is_data g (ptr v (v_ino v j) k) /\ v_used v (ptr v (v_ino v j) k) = true /\
  forall k', is_index k' -> ptr v (v_ino v j) k <> refs v i k'.
Proof.
  intros Hino Hwf Hj Hne Hk Hn. pose proof (fw_refs _ _ Hwf j k Hj (index_of k Hk)) as H.
  rewrite put_ino_ne in H by done.
  change (refs (put_ino ino i v)) with (refs v) in H. rewrite refs_ptr in H by lia. destruct (H Hn) as [Hd Hu]. split_and!; [done|done|].
  intros k' Hk'. rewrite <- refs_ptr by lia. apply (wf_other g v ino i Hino Hwf j k k'); try done; [by apply index_of|]. by rewrite refs_ptr by lia.
Qed.
Lemma gb_content g ino v i k0 create r v' i' p : is_ino ino -> fs_wf g (put_ino ino i v) ->
  get_block_post g ino v i k0 create r v' i' -> is_pos p -> content v' i' p = content v i p.
Proof.
  intros Hino Hwf Hpost Hp. pose proof (pos_block p Hp) as Hk. set (k := p / LUFIRAFS_BLOCK_SIZE) in *.
  assert (ptr v i k <> 0 -> v_blk v' (ptr v i k) = v_blk v (ptr v i k)) as Hkeep.
  { intros Hn. destruct (own_block g v ino i k Hino Hwf Hk Hn) as (Hd & Hu & Hi). by apply (gb_keep _ _ _ _ _ _ _ _ _ Hpost). }
  destruct (decide (k = k0)) as [E|Hne].
  2:{ apply content_eq; fold k; [|done]. by apply (gb_ptr _ _ _ _ _ _ _ _ _ Hpost). }
  destruct (gb_res _ _ _ _ _ _ _ _ _ Hpost) as [(Hr & Enew & [Eold|(E0 & Hfresh & Hz)])|(_ & Esame & _)]; rewrite <- E in *.
  - apply content_eq; fold k; [congruence|done].
  - unfold content. fold k. rewrite Enew, E0, (proj2 (Z.eqb_neq _ _) Hr), Hz. cbn [Z.eqb].
    destruct (zget _ _) as [x|] eqn:Hx; [|done]. unfold zget, zero_block in Hx. destruct (0 <=? _); [|done].
    by apply lookup_replicate in Hx as [-> _].
  - apply content_eq; fold k; done.
Qed.

Lemma gb_other g ino v i k0 create r v' i' j p : is_ino ino -> fs_wf g (put_ino ino i v) ->
  get_block_post g ino v i k0 create r v' i' -> is_ino j -> j <> ino -> is_pos p ->
  content v' (v_ino v' j) p = content v (v_ino v j) p.
Proof.
  intros Hino Hwf Hpost Hj Hne Hp. pose proof (pos_block p Hp) as Hk. set (k := p / LUFIRAFS_BLOCK_SIZE) in *.
  assert (ptr v' (v_ino v' j) k = ptr v (v_ino v j) k) as E.
  { rewrite <- !refs_ptr by lia. apply (refs_other g v v' ino i Hino Hwf); [done|done|by apply index_of|by rewrite (gb_ino _ _ _ _ _ _ _ _ _ Hpost)|].
    apply (gb_keep _ _ _ _ _ _ _ _ _ Hpost). }
  apply content_eq; fold k; [done|]. intros Hn. destruct (other_block g v ino i j k Hino Hwf Hj Hne Hk Hn) as (Hd & Hu & Hx).
  apply (gb_keep _ _ _ _ _ _ _ _ _ Hpost); [done|done|]. exact (Hx (-1) index_m1).
Qed.
(** Replacing the contents of data block [k] of the file. *)
Lemma refs_put g v ino i k buf : is_ino ino -> fs_wf g (put_ino ino i v) -> 0 <= k < MAX_BLOCKS -> ptr v i k <> 0 ->
  forall j k', is_ino j -> is_index k' ->
  refs (put (ptr v i k) buf v) (v_ino (put_ino ino i v) j) k' = refs v (v_ino (put_ino ino i v) j) k'.
Proof.
  intros Hino Hwf Hk Hn j k' Hj Hk'. set (x := v_ino _ j). unfold refs, ptr. destruct (k' =? -1); [done|]. destruct (_ <? _); [done|].
  destruct (Z.eqb_spec (indirect x) 0) as [|Hx]; [done|]. f_equal. cbn [v_blk put].
  rewrite (proj2 (Z.eqb_neq _ _)); [done|]. intros E.
  pose proof (fw_inj _ _ Hwf j (-1) ino k Hj Hino index_m1 (index_of k Hk) Hx) as H. fold x in H.
  rewrite put_ino_eq, !refs_put_ino, (refs_ptr v i k) in H by lia. destruct (H E) as [_ H']. lia.
Qed.

Lemma wf_put g v ino i k buf : is_ino ino -> fs_wf g (put_ino ino i v) -> 0 <= k < MAX_BLOCKS -> ptr v i k <> 0 ->
  fs_wf g (put_ino ino i (put (ptr v i k) buf v)).
Proof.
  intros Hino Hwf Hk Hn. pose proof (refs_put g v ino i k buf Hino Hwf Hk Hn) as Hr. set (v' := put _ _ _) in *.
  change (v_ino (put_ino ino i v)) with (v_ino (put_ino ino i v')) in Hr. split.
  - exact (fw_ok _ _ Hwf).
  - intros j k' Hj Hk'. rewrite !refs_put_ino, Hr by done. exact (fw_refs _ _ Hwf j k' Hj Hk').
  - intros j k' j' k'' Hj Hj' Hk' Hk''. rewrite !refs_put_ino, !Hr by done. exact (fw_inj _ _ Hwf j k' j' k'' Hj Hj' Hk' Hk'').
Qed.

Lemma content_put g v ino i k buf p : is_ino ino -> fs_wf g (put_ino ino i v) -> 0 <= k < MAX_BLOCKS -> ptr v i k <> 0 -> is_pos p ->
  content (put (ptr v i k) buf v) i p =
  if p / LUFIRAFS_BLOCK_SIZE =? k then default 0 (zget buf (p mod LUFIRAFS_BLOCK_SIZE)) else content v i p.
Proof.
  intros Hino Hwf Hk Hn Hp. pose proof (pos_block p Hp) as Hkp. set (k' := p / _) in *.
  pose proof (refs_put g v ino i k buf Hino Hwf Hk Hn ino k' Hino (index_of k' Hkp)) as Hr.
  rewrite put_ino_eq, !refs_ptr in Hr by lia. destruct (Z.eqb_spec k' k) as [E|Hne].
  - unfold content. fold k'. rewrite Hr, E. cbn [v_blk put]. rewrite Z.eqb_refl, (proj2 (Z.eqb_neq _ _) Hn). done.
  - apply content_eq; fold k'; [done|]. intros Hn'. cbn [v_blk put]. rewrite (proj2 (Z.eqb_neq _ _)); [done|]. intros E.
    pose proof (wf_own_inj g v ino i Hino Hwf k' k (index_of k' Hkp) (index_of k Hk)) as H. rewrite !refs_ptr in H by lia. by apply Hne, H.
Qed.

Lemma content_put_other g v ino i k buf j p : is_ino ino -> fs_wf g (put_ino ino i v) -> 0 <= k < MAX_BLOCKS -> ptr v i k <> 0 ->
  is_ino j -> j <> ino -> is_pos p -> content (put (ptr v i k) buf v) (v_ino v j) p = content v (v_ino v j) p.
Proof.
  intros Hino Hwf Hk Hn Hj Hne Hp. pose proof (pos_block p Hp) as Hkp. set (k' := p / _) in *.
  pose proof (refs_put g v ino i k buf Hino Hwf Hk Hn j k' Hj (index_of k' Hkp)) as Hr. rewrite put_ino_ne, !refs_ptr in Hr by (done || lia).
  apply content_eq; fold k'; [done|]. intros Hn'. cbn [v_blk put]. rewrite (proj2 (Z.eqb_neq _ _)); [done|].
  destruct (other_block g v ino i j k' Hino Hwf Hj Hne Hkp Hn') as (_ & _ & Hx). rewrite <- (refs_ptr v i k) by lia. by apply Hx, index_of.
Qed.

(** ** Writing *)

(** [n] bytes of [src] stored at [pos]; the file was [i] in [v] and is [i'] in [v']. *)
Record wrote g ino v i pos src n v' i' : Prop := {
  wr_wf : fs_wf g (put_ino ino i' v');
  wr_ino : v_ino v' = v_ino v;
  wr_attrs : same_attrs i i';
  wr_n : 0 <= n <= zlen src;
  wr_content : forall p, is_pos p ->
    content v' i' p = if (pos <=? p) && (p <? pos + n) then default 0 (zget src (p - pos)) else content v i p;
  wr_other : forall j p, is_ino j -> j <> ino -> is_pos p -> content v' (v_ino v' j) p = content v (v_ino v j) p;
  wr_short : n < zlen src -> heap_refuses (HS := HS) \/ full g v';
}.

Lemma same_attrs_trans i i' i'' : same_attrs i i' -> same_attrs i' i'' -> same_attrs i i''.
Proof. unfold same_attrs. intuition congruence. Qed.
(** One round: [part] stored at [off] of block [k]. *)
Lemma wrote_round g ino v i k r v1 i1 pos part buf : is_ino ino -> fs_wf g (put_ino ino i v) -> 0 <= pos -> k = pos / LUFIRAFS_BLOCK_SIZE ->
  0 <= k < MAX_BLOCKS -> get_block_post g ino v i k true r v1 i1 -> r <> 0 -> zlen (v_blk v1 r) = LUFIRAFS_BLOCK_SIZE ->
  splice (v_blk v1 r) (pos mod LUFIRAFS_BLOCK_SIZE) part = Some buf ->
  wrote g ino v i pos part (zlen part) (put r buf v1) i1.
Proof.
  intros Hino Hwf Hpos Ek Hk Hpost Hr Hlen Hs. pose proof (gb_wf _ _ _ _ _ _ _ _ _ Hpost) as Hwf1.
  destruct (gb_res _ _ _ _ _ _ _ _ _ Hpost) as [(_ & Er & _)|(? & _)]; [|done].
  assert (ptr v1 i1 k <> 0) as Hn by (by rewrite Er). rewrite <- Er in *.
  assert (0 <= pos mod LUFIRAFS_BLOCK_SIZE /\ pos mod LUFIRAFS_BLOCK_SIZE + zlen part <= LUFIRAFS_BLOCK_SIZE) as [Ho1 Ho2].
  { pose proof Hs as Hs'. unfold splice in Hs'. destruct (_ && _) eqn:E in Hs'; [|done]. rewrite Hlen in E. lia. }
  pose proof (Z.div_mod pos LUFIRAFS_BLOCK_SIZE ltac:(done)) as Dpos. rewrite <- Ek in Dpos.
  split.
  - by apply wf_put.
  - exact (gb_ino _ _ _ _ _ _ _ _ _ Hpost).
  - exact (gb_attrs _ _ _ _ _ _ _ _ _ Hpost).
  - split; [apply zlen_nonneg|done].
  - intros p Hp. rewrite (content_put g v1 ino i1 k) by done.
    pose proof (Z.div_mod p LUFIRAFS_BLOCK_SIZE ltac:(done)) as Dp. pose proof (Z.mod_pos_bound p LUFIRAFS_BLOCK_SIZE ltac:(done)) as Bp.
    pose proof (Z.mod_pos_bound pos LUFIRAFS_BLOCK_SIZE ltac:(done)) as Bpos.
    rewrite <- (gb_content _ _ _ _ _ _ _ _ _ p Hino Hwf Hpost Hp). destruct (Z.eqb_spec (p / LUFIRAFS_BLOCK_SIZE) k) as [E|Hne].
    + rewrite (zget_splice _ _ _ _ _ Hs). rewrite E in Dp.
      replace (p mod LUFIRAFS_BLOCK_SIZE - pos mod LUFIRAFS_BLOCK_SIZE) with (p - pos) by lia.
      destruct (Z.leb_spec (pos mod LUFIRAFS_BLOCK_SIZE) (p mod LUFIRAFS_BLOCK_SIZE)), (Z.leb_spec pos p),
        (Z.ltb_spec (p mod LUFIRAFS_BLOCK_SIZE) (pos mod LUFIRAFS_BLOCK_SIZE + zlen part)), (Z.ltb_spec p (pos + zlen part));
        try lia; cbn [andb]; try done; unfold content; by rewrite E, (proj2 (Z.eqb_neq _ _) Hn).
    + destruct (Z.leb_spec pos p), (Z.ltb_spec p (pos + zlen part)); cbn [andb]; try done. exfalso.
      unfold LUFIRAFS_BLOCK_SIZE in *. lia.
  - intros j p Hj Hne Hp. rewrite <- (gb_other _ _ _ _ _ _ _ _ _ j p Hino Hwf Hpost Hj Hne Hp).
    exact (content_put_other g v1 ino i1 k buf j p Hino Hwf1 Hk Hn Hj Hne Hp).
  - lia.
Qed.

Lemma wrote_trans g ino v i pos part src n v1 i1 v2 i2 : wrote g ino v i pos part (zlen part) v1 i1 ->
  wrote g ino v1 i1 (pos + zlen part) src n v2 i2 -> wrote g ino v i pos (part ++ src) (zlen part + n) v2 i2.
Proof.
  intros [A1 A2 A3 A4 A5 A6 A7] [B1 B2 B3 B4 B5 B6 B7]. split.
  - done.
  - congruence.
  - by eapply same_attrs_trans.
  - rewrite zlen_app. lia.
  - intros p Hp. rewrite B5, A5 by done.
    destruct (Z.leb_spec pos p), (Z.ltb_spec p (pos + (zlen part + n))), (Z.leb_spec (pos + zlen part) p),
      (Z.ltb_spec p (pos + zlen part + n)), (Z.ltb_spec p (pos + zlen part)); try lia; cbn [andb]; try done; f_equal; unfold zget, zlen in *;
      rewrite !(proj2 (Z.leb_le 0 _)) by lia; [rewrite lookup_app_r by lia; f_equal; lia|rewrite lookup_app_l by lia; done].
  - intros j p Hj Hne Hp. by rewrite B6, A6.
  - rewrite zlen_app. intros. apply B7. lia.
Qed.

Lemma wrote_nil g ino v i pos src : fs_wf g (put_ino ino i v) -> (0 < zlen src -> heap_refuses (HS := HS) \/ full g v) ->
  wrote g ino v i pos src 0 v i.
Proof.
  intros Hwf Hs. split; try done; [|]. 1: split; [done|apply zlen_nonneg].
  intros p Hp. destruct (Z.leb_spec pos p), (Z.ltb_spec p (pos + 0)); try lia; done.
Qed.
Lemma splice_all (l src : list Z) : zlen src = zlen l -> splice l 0 src = Some src.
Proof.
  intros H. rewrite splice_in by lia. f_equal. rewrite take_0. cbn [app]. rewrite drop_ge by (unfold zlen in *; lia). apply app_nil_r.
Qed.

(** Fuel for the blocks of [n] bytes at [pos]. *)
Definition enough (fuel : nat) (pos n : Z) : Prop :=
  n = 0 \/ pos mod LUFIRAFS_BLOCK_SIZE + n <= Z.of_nat fuel * LUFIRAFS_BLOCK_SIZE.

Lemma enough_next fuel pos n : enough (S fuel) pos n -> 0 < n ->
  enough fuel (pos + Z.min (LUFIRAFS_BLOCK_SIZE - pos mod LUFIRAFS_BLOCK_SIZE) n)
    (n - Z.min (LUFIRAFS_BLOCK_SIZE - pos mod LUFIRAFS_BLOCK_SIZE) n).
Proof.
  intros [->|H] Hn; [done|]. destruct (decide (n <= LUFIRAFS_BLOCK_SIZE - pos mod LUFIRAFS_BLOCK_SIZE)); [left; lia|right].
  rewrite Z.min_l by lia. rewrite (Z.div_mod pos LUFIRAFS_BLOCK_SIZE) at 1 by done.
  replace (LUFIRAFS_BLOCK_SIZE * (pos / LUFIRAFS_BLOCK_SIZE) + pos mod LUFIRAFS_BLOCK_SIZE + (LUFIRAFS_BLOCK_SIZE - pos mod LUFIRAFS_BLOCK_SIZE))
    with ((pos / LUFIRAFS_BLOCK_SIZE + 1) * LUFIRAFS_BLOCK_SIZE) by lia.
  rewrite Z.mod_mul by done. unfold LUFIRAFS_BLOCK_SIZE in *. lia.
Qed.

Lemma enough_start pos n : 0 <= n -> enough (block_fuel n) pos n.
Proof.
  intros Hn. right. unfold block_fuel, LUFIRAFS_BLOCK_SIZE. pose proof (Z.mod_pos_bound pos 8192 ltac:(lia)).
  pose proof (Z.div_mod n 8192 ltac:(lia)). pose proof (Z.mod_pos_bound n 8192 ltac:(lia)). pose proof (Z.div_pos n 8192 Hn ltac:(lia)). lia.
Qed.

Lemma write_loop_correct fuel : forall s g live v ino i pos src, has_view s g live v -> is_ino ino -> fs_wf g (put_ino ino i v) ->
  0 <= pos -> pos + zlen src <= LUFIRAFS_MAX_FILE_SIZE -> Forall is_u8 src ->
  enough fuel pos (zlen src) ->
  wp (write_loop fuel i pos src) (fun '(i', pos', rest) s' => exists v' n, has_view s' g live v' /\ wrote g ino v i pos src n v' i' /\
    pos' = pos + n /\ rest = drop (Z.to_nat n) src) s.
Proof.
  induction fuel as [|fuel IH]; intros s g live v ino i pos src Hv Hino Hwf Hpos Hmax Hsrc Hfuel; destruct src as [|c src0] eqn:Esrc.
  1,3: cbn [write_loop]; wstep; exists v, 0; split_and!; [done|by apply wrote_nil|lia|done].
  { exfalso. pose proof (Z.mod_pos_bound pos LUFIRAFS_BLOCK_SIZE ltac:(done)). unfold enough, zlen, LUFIRAFS_BLOCK_SIZE in *. cbn [length] in *. lia. }
  cbn [write_loop]. rewrite <- Esrc in *. assert (0 < zlen src) as Hlen by (rewrite Esrc; unfold zlen; cbn [length]; lia). clear Esrc c src0.
  pose proof (Z.mod_pos_bound pos LUFIRAFS_BLOCK_SIZE ltac:(done)) as Hm. cbv zeta.
  pose proof (Z.div_mod pos LUFIRAFS_BLOCK_SIZE ltac:(done)) as Hdm.
  set (chunk := Z.min (LUFIRAFS_BLOCK_SIZE - pos mod LUFIRAFS_BLOCK_SIZE) (zlen src)).
  assert (0 <= pos / LUFIRAFS_BLOCK_SIZE < MAX_BLOCKS) as Hk by (apply pos_block; unfold is_pos; lia).
  wstep. eapply wp_mono; [apply (inode_get_block_outcome _ _ _ _ ino i _ true Hv Hino Hwf Hk)|]. cbv beta.
  intros [r i1] s1 (v1 & Hv1 & Hpost). destruct (Z.eqb_spec r 0) as [->|Hr].
  { wstep. exists v1, 0. split_and!; [done| |lia|done]. pose proof (gb_wf _ _ _ _ _ _ _ _ _ Hpost) as Hwf1.
    split; try done; [apply (gb_ino _ _ _ _ _ _ _ _ _ Hpost)|apply (gb_attrs _ _ _ _ _ _ _ _ _ Hpost)|lia| | |].
    - intros p Hp. rewrite (gb_content _ _ _ _ _ _ _ _ _ p Hino Hwf Hpost Hp).
      destruct (Z.leb_spec pos p), (Z.ltb_spec p (pos + 0)); try lia; done.
    - intros j p Hj Hne Hp. exact (gb_other _ _ _ _ _ _ _ _ _ j p Hino Hwf Hpost Hj Hne Hp).
    - intros _. destruct (gb_res _ _ _ _ _ _ _ _ _ Hpost) as [(? & _)|(_ & _ & [[_ Hf]|[Hh _]])]; [done|right; by apply Hf|by left]. }
  destruct (gb_res _ _ _ _ _ _ _ _ _ Hpost) as [(_ & Er & _)|(? & _)]; [|done].
  destruct (own_block g v1 ino i1 _ Hino (gb_wf _ _ _ _ _ _ _ _ _ Hpost) Hk ltac:(by rewrite Er)) as (Hd & _). rewrite Er in Hd.
  destruct (view_blk_len _ _ _ _ _ Hv1 Hd) as [Hbl Hbb].
  set (part := take (Z.to_nat chunk) src). assert (zlen part = chunk) as Hpl by (unfold part, zlen in *; rewrite length_take; lia).
  assert (Forall is_u8 part) as Hpb by by apply Forall_take.
  pose proof (splice_in (v_blk v1 r) (pos mod LUFIRAFS_BLOCK_SIZE) part ltac:(lia) ltac:(lia)) as Hs. set (buf := take _ (v_blk v1 r) ++ _) in Hs.
  clearbody buf.
  wstep. eapply (wp_mono _ (fun b s2 => b = buf /\ has_view s2 g live v1)).
  { destruct (negb (pos mod LUFIRAFS_BLOCK_SIZE =? 0) || negb (chunk =? LUFIRAFS_BLOCK_SIZE)) eqn:Ep.
    - wstep. apply (wp_read_data_block _ _ _ _ _ _ Hv1 Hd). intros d Hv2. eapply wp_lift; [exact Hs|done].
    - apply orb_false_iff in Ep as [E1%negb_false_iff%Z.eqb_eq E2%negb_false_iff%Z.eqb_eq]. wstep. split; [|done].
      rewrite E1, splice_all in Hs by congruence. by injection Hs. }
  intros b s2 [-> Hv2]. wstep. apply (wp_write_data_block _ _ _ _ _ _ _ Hv2 Hd).
  { by rewrite (splice_len _ _ _ _ Hs). }
  { by eapply Forall_splice. }
  intros d Hv3. pose proof (wrote_round g ino v i _ r v1 i1 pos part buf Hino Hwf Hpos eq_refl Hk Hpost Hr Hbl Hs) as Hw.
  assert (LUFIRAFS_MAX_FILE_SIZE < 2 ^ 32) as Hbig by done.
  rewrite (u32_small (pos + chunk)) by (unfold is_u32; lia).
  assert (zlen (drop (Z.to_nat chunk) src) = zlen src - chunk) as Hdl by (unfold zlen in *; rewrite length_drop; lia).
  eapply wp_mono; [apply (IH _ g live _ ino i1 (pos + chunk) _ Hv3 Hino (wr_wf _ _ _ _ _ _ _ _ _ Hw))|]; [lia|lia|by apply Forall_drop| |].
  { rewrite Hdl. by apply enough_next. }
  cbv beta. intros [[i2 pos2] rest] s4 (v2 & n & Hv4 & Hw2 & -> & ->). exists v2, (chunk + n). rewrite <- Hpl in Hw2.
  pose proof (wrote_trans _ _ _ _ _ _ _ _ _ _ _ _ Hw Hw2) as Hw3. rewrite Hpl in Hw3. unfold part in Hw3. rewrite take_drop in Hw3.
  split_and!; [done|done|lia|]. rewrite drop_drop. f_equal. destruct (wr_n _ _ _ _ _ _ _ _ _ Hw2). lia.
Qed.
(** [n] bytes of [buf] stored at [off] of file [ino], as an observer of files sees it. *)
Record file_written g v ino off buf n v' : Prop := {
  fl_wf : fs_wf g v';
  fl_n : 0 <= n <= zlen buf /\ off + zlen buf <= LUFIRAFS_MAX_FILE_SIZE;
  fl_short : n < zlen buf -> heap_refuses (HS := HS) \/ full g v';
  fl_size : size (v_ino v' ino) = Z.max (size (v_ino v ino)) (off + n);
  fl_mode : mode (v_ino v' ino) = mode (v_ino v ino) /\ links_count (v_ino v' ino) = links_count (v_ino v ino) /\
    uid (v_ino v' ino) = uid (v_ino v ino) /\ gid (v_ino v' ino) = gid (v_ino v ino) /\ perm (v_ino v' ino) = perm (v_ino v ino);
  fl_content : forall p, is_pos p -> content v' (v_ino v' ino) p =
    if (off <=? p) && (p <? off + n) then default 0 (zget buf (p - off)) else content v (v_ino v ino) p;
  fl_other : forall j, is_ino j -> j <> ino -> v_ino v' j = v_ino v j /\
    forall p, is_pos p -> content v' (v_ino v' j) p = content v (v_ino v j) p;
}.

Lemma fs_wf_ext g v v' : fs_wf g v -> (forall j, is_ino j -> v_ino v' j = v_ino v j) -> v_used v' = v_used v -> v_blk v' = v_blk v -> fs_wf g v'.
Proof.
  intros [H1 H2 H3] Ei Eu Eb. assert (forall i k, refs v' i k = refs v i k) as Er by (intros; unfold refs, ptr; by rewrite Eb). split.
  - intros j Hj. rewrite Ei by done. auto.
  - intros j k Hj Hk. rewrite Ei, Er, Eu by done. auto.
  - intros j k j' k' Hj Hj' Hk Hk'. rewrite !Ei, !Er by done. auto.
Qed.

Lemma wf_self g v ino : fs_wf g v -> fs_wf g (put_ino ino (v_ino v ino) v).
Proof. intros H. eapply fs_wf_ext; [exact H|..|done|done]. intros j _. cbn. by destruct (Z.eqb_spec j ino) as [->|]. Qed.

Lemma wf_size g v ino i n : is_ino ino -> fs_wf g (put_ino ino i v) -> is_u32 n -> fs_wf g (put_ino ino (set_size n i) v).
Proof.
  intros Hino [H1 H2 H3] Hn.
  assert (forall j k, refs (put_ino ino (set_size n i) v) (v_ino (put_ino ino (set_size n i) v) j) k =
    refs (put_ino ino i v) (v_ino (put_ino ino i v) j) k) as Er by (intros j k; cbn; by destruct (j =? ino)).
  split.
  - intros j Hj. destruct (decide (j = ino)) as [->|Hne].
    + rewrite put_ino_eq. specialize (H1 ino Hino). rewrite put_ino_eq in H1. by apply inode_ok_size.
    + rewrite put_ino_ne by done. specialize (H1 j Hj). by rewrite put_ino_ne in H1.
  - intros j k Hj Hk. rewrite Er. exact (H2 j k Hj Hk).
  - intros j k j' k' Hj Hj' Hk Hk'. rewrite !Er. exact (H3 j k j' k' Hj Hj' Hk Hk').
Qed.

Lemma wrote_file g ino v off buf n v' i' : is_ino ino -> is_u32 (off + n) -> off + zlen buf <= LUFIRAFS_MAX_FILE_SIZE -> wrote g ino v (v_ino v ino) off buf n v' i' ->
  file_written g v ino off buf n (put_ino ino (if size i' <? off + n then set_size (off + n) i' else i') v').
Proof.
  intros Hino Hu Hfit [A1 A2 (M1 & M2 & M3 & M4 & M5 & M6) A4 A5 A6 A7]. set (i'' := if size i' <? off + n then _ else _).
  assert (forall v0 p, content v0 i'' p = content v0 i' p) as Ec by (intros v0 p; unfold i''; by destruct (size i' <? off + n)).
  split; rewrite ?put_ino_eq; try done.
  - unfold i''. destruct (_ <? _); [by apply wf_size|done].
  - unfold i''. destruct (Z.ltb_spec (size i') (off + n)); cbn [size set_size]; lia.
  - unfold i''. by destruct (_ <? _).
  - intros p Hp. rewrite Ec. by apply A5.
  - intros j Hj Hne. rewrite put_ino_ne by done. split; [by rewrite A2|]. intros p Hp. by apply A6.
Qed.

Lemma write_outcome s g live v ino off buf : has_view s g live v -> fs_wf g v -> is_ino ino -> 0 <= off -> Forall is_u8 buf ->
  wp (lufirafs_write ino off buf) (fun r s' =>
    (r = -1 /\ has_view s' g live v /\ (LUFIRAFS_MAX_FILE_SIZE < off + zlen buf \/ heap_refuses (HS := HS))) \/
    exists n v', has_view s' g live v' /\ file_written g v ino off buf n v' /\
      r = if (n =? 0) && negb (zlen buf =? 0) then -1 else n) s.
Proof.
  intros Hv Hwf Hino Hoff Hbuf. unfold lufirafs_write. wstep. apply (wp_read_inode _ _ _ _ _ _ Hv Hino).
  destruct (Z.ltb_spec LUFIRAFS_MAX_FILE_SIZE (off + zlen buf)) as [Hbig|Hmax]; [wstep; left; split_and!; [done|done|by left]|].
  apply (wp_with_buf _ _ _ _ _ _ _ Hv); [intros Hr; left; split_and!; [done|done|by right]|].
  intros h p Hp Hnl Hv1. wstep. pose proof (zlen_nonneg buf) as Hn0.
  eapply wp_mono; [apply (write_loop_correct _ _ _ _ _ ino _ off buf Hv1 Hino (wf_self g v ino Hwf) Hoff Hmax Hbuf)|].
  { by apply enough_start. }
  cbv beta. intros [[i' pos'] rest] s2 (v' & n & Hv2 & Hw & -> & ->). assert (is_u32 (off + n)) as Hu32.
  { pose proof (wr_n _ _ _ _ _ _ _ _ _ Hw). assert (LUFIRAFS_MAX_FILE_SIZE < 2 ^ 32) by done. unfold is_u32. lia. }
  pose proof (wrote_file _ _ _ _ _ _ _ _ Hino Hu32 Hmax Hw) as Hf. set (i'' := if size i' <? off + n then _ else _) in *.
  wstep. apply (wp_write_inode _ _ _ _ _ _ i'' Hv2 Hino).
  { pose proof (fw_ok _ _ (fl_wf _ _ _ _ _ _ _ Hf) ino Hino) as H. by rewrite put_ino_eq in H. }
  intros im d Hv3. wstep. exists (put_ino ino i'' v'). split; [done|]. intros h' Hv4. right. exists n, (put_ino ino i'' v').
  split_and!; [done|done|]. destruct (fl_n _ _ _ _ _ _ _ Hf) as [[Hl1 Hl2] _].
  assert (zlen (drop (Z.to_nat n) buf) = zlen buf - n) as Hdl by (unfold zlen in *; rewrite length_drop; lia).
  destruct (drop (Z.to_nat n) buf) as [|c rest] eqn:Ed.
  - change (zlen []) with 0 in Hdl. destruct (Z.eqb_spec n 0), (Z.eqb_spec (zlen buf) 0); cbn [andb negb]; lia.
  - rewrite Hdl. assert (0 < zlen (c :: rest)) by (unfold zlen; cbn [length]; lia).
    destruct (Z.eqb_spec n 0), (Z.eqb_spec (zlen buf) 0), (Z.ltb_spec 0 (zlen buf - (zlen buf - n))); cbn [andb negb]; lia.
Qed.
(** ** Reading *)

(** What a read of [n] bytes at [pos] yields: the contents, except that blocks found through the
    indirect block read as zero when the heap refuses its buffer. *)
Definition reads v i pos (l : list Z) : Prop := forall t, 0 <= t < zlen l ->
  zget l t = Some (content v i (pos + t)) \/
  (zget l t = Some 0 /\ heap_refuses (HS := HS) /\ LUFIRAFS_DIRECT_BLOCKS * LUFIRAFS_BLOCK_SIZE <= pos + t).

Lemma reads_app v i pos l l' : reads v i pos l -> reads v i (pos + zlen l) l' -> reads v i pos (l ++ l').
Proof.
  intros H H' t Ht. rewrite zlen_app in Ht. destruct (decide (t < zlen l)) as [Hlt|Hge].
  - replace (zget (l ++ l') t) with (zget l t); [apply H; lia|].
    unfold zget, zlen in *. rewrite (proj2 (Z.leb_le 0 t)), lookup_app_l by lia. done.
  - specialize (H' (t - zlen l) ltac:(lia)). replace (pos + zlen l + (t - zlen l)) with (pos + t) in H' by lia.
    replace (zget (l ++ l') t) with (zget l' (t - zlen l)); [done|].
    unfold zget, zlen in *. rewrite !(proj2 (Z.leb_le 0 _)), lookup_app_r by lia. f_equal. lia.
Qed.

Lemma word_past l off : zlen l <= off -> word l off = 0.
Proof. intros H. unfold word. rewrite drop_ge by (unfold zlen in *; lia). done. Qed.

(** Past the largest file the block map has no blocks. *)
Lemma get_block_past s g live v ino i k : has_view s g live v -> is_ino ino -> fs_wf g (put_ino ino i v) -> MAX_BLOCKS <= k ->
  inode_get_block i k false s = Some ((0, i), s) /\ ptr v i k = 0.
Proof.
  intros Hv Hino Hwf Hk. unfold inode_get_block, ptr. unfold MAX_BLOCKS in Hk.
  assert ((k <? LUFIRAFS_DIRECT_BLOCKS) = false) as -> by (apply Z.ltb_ge; unfold LUFIRAFS_PTRS_PER_BLOCK in *; lia).
  rewrite (proj2 (Z.leb_le _ _)) by lia. split; [done|]. destruct (Z.eqb_spec (indirect i) 0) as [|Hn]; [done|].
  destruct (wf_own g v ino i Hino Hwf (-1) index_m1 Hn) as [Hid _]. change (refs v i (-1)) with (indirect i) in Hid. apply word_past.
  rewrite (proj1 (view_blk_len _ _ _ _ _ Hv Hid)). unfold LUFIRAFS_BLOCK_SIZE, LUFIRAFS_PTRS_PER_BLOCK in *. lia.
Qed.

(** The block map read only. *)
Lemma wp_get_block (Q : Z * inode -> lufirafs -> Prop) s g live v ino i k : has_view s g live v -> is_ino ino -> fs_wf g (put_ino ino i v) ->
  0 <= k -> (forall r s', has_view s' g live v -> r = ptr v i k \/ (r = 0 /\ heap_refuses (HS := HS) /\ LUFIRAFS_DIRECT_BLOCKS <= k) -> Q (r, i) s') ->
  wp (inode_get_block i k false) Q s.
Proof.
  intros Hv Hino Hwf Hk HQ. destruct (decide (k < MAX_BLOCKS)) as [Hlt|Hge].
  - eapply wp_mono; [apply (inode_get_block_outcome _ _ _ _ ino i k false Hv Hino Hwf); lia|].
    intros [r i'] s' (v' & Hv' & Hp). destruct (gb_pure _ _ _ _ _ _ _ _ _ Hp eq_refl) as [-> ->]. apply HQ; [done|].
    destruct (gb_res _ _ _ _ _ _ _ _ _ Hp) as [(_ & -> & _)|(-> & _ & [[-> _]|[Hh [?|?]]])]; [by left|by left|done|by right].
  - destruct (get_block_past _ _ _ _ ino i k Hv Hino Hwf ltac:(lia)) as [E Ep]. eapply wp_Some; [exact E|]. apply HQ; [done|by left].
Qed.

Lemma zget_chunk_of l off n t : 0 <= off -> 0 <= t < n -> zget (chunk_of l off n) t = zget l (off + t).
Proof. apply zget_cut. Qed.

Lemma read_part v i pos chunk (part : list Z) : 0 <= pos -> pos mod LUFIRAFS_BLOCK_SIZE + chunk <= LUFIRAFS_BLOCK_SIZE -> zlen part = chunk ->
  (ptr v i (pos / LUFIRAFS_BLOCK_SIZE) <> 0 /\ zlen (v_blk v (ptr v i (pos / LUFIRAFS_BLOCK_SIZE))) = LUFIRAFS_BLOCK_SIZE /\
     part = chunk_of (v_blk v (ptr v i (pos / LUFIRAFS_BLOCK_SIZE))) (pos mod LUFIRAFS_BLOCK_SIZE) chunk) \/
  ((ptr v i (pos / LUFIRAFS_BLOCK_SIZE) = 0 \/ heap_refuses (HS := HS) /\ LUFIRAFS_DIRECT_BLOCKS <= pos / LUFIRAFS_BLOCK_SIZE) /\
     part = replicate (Z.to_nat chunk) 0) ->
  reads v i pos part.
Proof.
  intros Hpos Hc Hl Hor t Ht. pose proof (Z.div_mod pos LUFIRAFS_BLOCK_SIZE ltac:(done)) as Hdm.
  pose proof (Z.mod_pos_bound pos LUFIRAFS_BLOCK_SIZE ltac:(done)) as Hm. set (k := pos / _) in *. set (o := pos mod _) in *.
  assert ((pos + t) / LUFIRAFS_BLOCK_SIZE = k /\ (pos + t) mod LUFIRAFS_BLOCK_SIZE = o + t) as [Ek Em].
  { assert (pos + t = LUFIRAFS_BLOCK_SIZE * k + (o + t)) as E by lia.
    split; symmetry; [eapply Z.div_unique_pos|eapply Z.mod_unique_pos]; [|exact E| |exact E]; lia. }
  unfold content. rewrite Ek, Em. destruct Hor as [(Hn & Hbl & ->)|[Hz ->]].
  - left. rewrite (proj2 (Z.eqb_neq _ _) Hn), zget_chunk_of by lia.
    destruct (zget_Some (v_blk v (ptr v i k)) (o + t) ltac:(lia)) as [x ->]. done.
  - rewrite zget_replicate by (unfold zlen in Ht; rewrite length_replicate in Ht; lia). destruct Hz as [->|[Hh Hk]]; [by left|right].
    split_and!; [done|done|]. unfold LUFIRAFS_BLOCK_SIZE in *. nia.
Qed.

Lemma read_loop_correct fuel : forall s g live v ino i pos n dst, has_view s g live v -> is_ino ino -> fs_wf g (put_ino ino i v) ->
  0 <= pos -> 0 <= n -> pos + n < 2 ^ 32 -> enough fuel pos n ->
  wp (read_loop fuel i pos n dst) (fun l s' => has_view s' g live v /\ exists part, l = dst ++ part /\ zlen part = n /\ reads v i pos part) s.
Proof.
  induction fuel as [|fuel IH]; intros s g live v ino i pos n dst Hv Hino Hwf Hpos Hn Hmax Hfuel;
    cbn [read_loop]; destruct (Z.leb_spec n 0) as [Hn0|Hn0].
  1,3: wstep; split; [done|]; exists []; rewrite app_nil_r; split_and!; [done|unfold zlen; cbn [length]; lia|]; intros t Ht; unfold zlen in Ht; cbn [length] in Ht; lia.
  { exfalso. destruct Hfuel as [|Hf]; [lia|]. pose proof (Z.mod_pos_bound pos LUFIRAFS_BLOCK_SIZE ltac:(done)). lia. }
  pose proof (Z.mod_pos_bound pos LUFIRAFS_BLOCK_SIZE ltac:(done)) as Hm. pose proof (enough_next _ _ _ Hfuel Hn0) as Hnext. cbv zeta.
  set (chunk := Z.min (LUFIRAFS_BLOCK_SIZE - pos mod LUFIRAFS_BLOCK_SIZE) n) in *.
  assert (0 <= pos / LUFIRAFS_BLOCK_SIZE) as Hk by (apply Z.div_pos; done).
  wstep. apply (wp_get_block _ _ _ _ _ ino i _ Hv Hino Hwf Hk). intros r s1 Hv1 Hr. cbv beta iota.
  wstep. eapply (wp_mono _ (fun b s2 => has_view s2 g live v /\
    reads v i pos (match b with Some buf => chunk_of buf (pos mod LUFIRAFS_BLOCK_SIZE) chunk | None => replicate (Z.to_nat chunk) 0 end) /\
    zlen (match b with Some buf => chunk_of buf (pos mod LUFIRAFS_BLOCK_SIZE) chunk | None => replicate (Z.to_nat chunk) 0 end) = chunk)).
  { destruct (Z.eqb_spec r 0) as [->|Hr0].
    - wstep. assert (zlen (replicate (Z.to_nat chunk) 0) = chunk) as El by (unfold zlen; rewrite length_replicate; lia).
      split_and!; [done| |done]. apply (read_part v i pos chunk); [done|lia|done|]. right. split; [|done].
      destruct Hr as [E|(_ & Hh & Hk')]; [by left|by right].
    - destruct Hr as [Er|(? & _)]; [|done].
      assert (pos / LUFIRAFS_BLOCK_SIZE < MAX_BLOCKS) as Hkm.
      { apply Z.nle_gt. intros Hge. destruct (get_block_past _ _ _ _ ino i _ Hv Hino Hwf Hge) as [_ E]. congruence. }
      destruct (own_block g v ino i _ Hino Hwf (conj Hk Hkm) ltac:(congruence)) as (Hd & _). rewrite <- Er in Hd.
      apply (wp_read_data_block _ _ _ _ _ _ Hv1 Hd). intros d Hv2. destruct (view_blk_len _ _ _ _ _ Hv Hd) as [Hbl _].
      assert (zlen (chunk_of (v_blk v r) (pos mod LUFIRAFS_BLOCK_SIZE) chunk) = chunk) as El by (apply zlen_cut; lia).
      split_and!; [done| |done]. apply (read_part v i pos chunk); [done|lia|done|]. left. rewrite <- Er. done. }
  intros b s2 (Hv2 & Hrd & Hl). set (part := match b with Some _ => _ | None => _ end) in *. clearbody part.
  rewrite (u32_small (pos + chunk)) by (unfold is_u32; lia).
  eapply wp_mono; [apply (IH _ g live v ino i (pos + chunk) (n - chunk) _ Hv2 Hino Hwf); (done || lia)|].
  cbv beta. intros l s3 (Hv3 & rest & -> & Hrl & Hrr). split; [done|]. exists (part ++ rest). rewrite app_assoc, zlen_app.
  split_and!; [done|lia|]. apply reads_app; [done|]. by rewrite Hl.
Qed.

Lemma read_outcome s g live v ino off count : has_view s g live v -> fs_wf g v -> is_ino ino ->
  0 <= off -> 0 <= count < 2 ^ 31 -> off + count < 2 ^ 32 ->
  wp (lufirafs_read ino off count) (fun '(r, l) s' => has_view s' g live v /\
    ((r = -1 /\ l = [] /\ heap_refuses (HS := HS)) \/
     (r = Z.max 0 (Z.min count (size (v_ino v ino) - off)) /\ zlen l = r /\ reads v (v_ino v ino) off l))) s.
Proof.
  intros Hv Hwf Hino Hoff Hcount Hsum. unfold lufirafs_read. wstep. apply (wp_read_inode _ _ _ _ _ _ Hv Hino).
  pose proof (fw_ok _ _ Hwf ino Hino) as Hok. set (i := v_ino v ino) in *.
  assert (is_u32 (size i)) as Hsz by (pose proof (io_words _ Hok) as Hw; inversion_clear Hw as [|? ? _ Hw']; by inversion_clear Hw').
  destruct (Z.leb_spec (size i) off) as [Hge|Hlt].
  { wstep. split; [done|]. right. split_and!; [lia|done|]. intros t Ht. unfold zlen in Ht. cbn [length] in Ht. lia. }
  rewrite u32_small by (unfold is_u32; lia). cbv zeta. set (n := if size i <? off + count then _ else _).
  assert (n = Z.max 0 (Z.min count (size i - off))) as En by (unfold n; destruct (Z.ltb_spec (size i) (off + count)); lia).
  apply (wp_with_buf _ _ _ _ _ _ _ Hv); [intros Hr; split; [done|]; by left|]. intros h p Hp Hnl Hv1. wstep.
  eapply wp_mono; [apply (read_loop_correct _ _ _ _ _ ino i off n [] Hv1 Hino (wf_self g v ino Hwf)); [done|lia|lia|apply enough_start; lia]|].
  cbv beta. intros l s2 (Hv2 & part & -> & Hl & Hr). wstep. exists v. split; [done|]. intros h' Hv'. split; [done|]. right.
  rewrite i32_small by lia. cbn [app]. split_and!; [done|done|done].
Qed.
(** C3: [lufirafs_write] either refuses (the file would exceed the largest size, or no buffer) and
    changes nothing, or stores a prefix of the bytes at the offset: every other byte of the file, its
    owner and mode, and the contents of every other file are unchanged, the size grows to the end of
    the prefix, blocks stay unshared, and a short prefix is reported and occurs only when the disk is
    full or the heap refuses a buffer. *)
Theorem lufirafs_write_correct s g live v ino off buf : has_view s g live v -> fs_wf g v -> is_ino ino -> 0 <= off -> Forall is_u8 buf ->
  wp (lufirafs_write ino off buf) (fun r s' =>
    (r = -1 /\ has_view s' g live v /\ (LUFIRAFS_MAX_FILE_SIZE < off + zlen buf \/ heap_refuses (HS := HS))) \/
    exists n v', has_view s' g live v' /\ file_written g v ino off buf n v' /\
      r = if (n =? 0) && negb (zlen buf =? 0) then -1 else n) s.
Proof. apply write_outcome. Qed.

(** C33: [lufirafs_read] changes nothing and returns the contents of the file from the offset, as many
    bytes as asked for and present; past the direct blocks a byte may instead read as zero when the
    heap refuses the buffer of the indirect block. *)
Theorem lufirafs_read_correct s g live v ino off count : has_view s g live v -> fs_wf g v -> is_ino ino ->
  0 <= off -> 0 <= count < 2 ^ 31 -> off + count < 2 ^ 32 ->
  wp (lufirafs_read ino off count) (fun '(r, l) s' => has_view s' g live v /\
    ((r = -1 /\ l = [] /\ heap_refuses (HS := HS)) \/
     (r = Z.max 0 (Z.min count (size (v_ino v ino) - off)) /\ zlen l = r /\ reads v (v_ino v ino) off l))) s.
Proof. apply read_outcome. Qed.

(** C4: Bytes written are read back: after [lufirafs_write] accepted [r] bytes, [lufirafs_read] of
    [r] bytes at the same offset yields exactly the first [r] bytes given, unless it fails for want
    of a buffer or (past the direct blocks) reads zeros for that reason. *)
Theorem lufirafs_write_read s g live v ino off buf : has_view s g live v -> fs_wf g v -> is_ino ino -> is_u32 off -> Forall is_u8 buf ->
  wp (r ← lufirafs_write ino off buf; '(k, l) ← lufirafs_read ino off (Z.max 0 r); mret (r, k, l)) (fun '(r, k, l) _ =>
    0 <= r -> (k = -1 /\ heap_refuses (HS := HS)) \/
      (k = r /\ zlen l = r /\ r <= zlen buf /\ forall t, 0 <= t < r -> zget l t = zget buf t \/
         (zget l t = Some 0 /\ heap_refuses (HS := HS) /\ LUFIRAFS_DIRECT_BLOCKS * LUFIRAFS_BLOCK_SIZE <= off + t))) s.
Proof.
  intros Hv Hwf Hino Hoff Hbuf. assert (LUFIRAFS_MAX_FILE_SIZE < 2 ^ 31) as Hbig by done.
  wstep. eapply wp_mono; [apply (write_outcome _ _ _ _ _ _ _ Hv Hwf Hino (proj1 Hoff) Hbuf)|]. cbv beta. intros r s' [(-> & Hv' & _)|(n & v' & Hv' & Hf & Er)].
  - wstep. eapply wp_mono; [apply (read_outcome _ _ _ _ _ off (Z.max 0 (-1)) Hv' Hwf Hino); unfold is_u32 in *; lia|].
    intros [k l] s'' _. wstep. lia.
  - destruct (fl_n _ _ _ _ _ _ _ Hf) as [Hn Hfit]. assert (0 <= r -> r = n) as Ern by (subst r; destruct (_ && _); lia).
    assert (Z.max 0 r <= n) as Hrn by (subst r; destruct (_ && _); lia).
    wstep. eapply wp_mono; [apply (read_outcome _ _ _ _ _ off (Z.max 0 r) Hv' (fl_wf _ _ _ _ _ _ _ Hf) Hino); unfold is_u32 in *; lia|].
    intros [k l] s'' (_ & [(-> & _ & Hh)|(Ek & Hl & Hr)]); wstep; [by left|]. intros Hr0. specialize (Ern Hr0). right.
    assert (k = r) as -> by (rewrite Ek, (fl_size _ _ _ _ _ _ _ Hf); lia). split_and!; [done|done|lia|]. intros t Ht.
    unfold is_u32 in Hoff. destruct (Hr t ltac:(lia)) as [E|E]; [left|by right]. rewrite E, (fl_content _ _ _ _ _ _ _ Hf) by (unfold is_pos; lia).
    rewrite (proj2 (Z.leb_le _ _)), (proj2 (Z.ltb_lt _ _)) by lia. cbn [andb]. replace (off + t - off) with t by lia.
    destruct (zget_Some buf t ltac:(lia)) as [x ->]. done.
Qed.
End files.

(** * On a small file system *)

Lemma demo_inode ino : is_ino ino -> v_ino demo_view ino = zero_inode.
Proof.
  intros Hi. assert (zlen (encode_sb demo_sb) = LUFIRAFS_BLOCK_SIZE) as Hl by apply (encode_sb_len _ _ demo_sb_geom).
  cbn [v_ino demo_view]. unfold img_inode. cbn [image demo_fs]. unfold is_ino, LUFIRAFS_INODE_COUNT in Hi.
  assert (ino_off demo_geom ino = 16384 + (ino - 1) * 76) as Eo by done.
  replace (cut _ _ _) with (replicate 76 0); [reflexivity|]. unfold cut, zlen, LUFIRAFS_BLOCK_SIZE in *.
  rewrite drop_app_ge, drop_replicate, take_replicate by lia. f_equal. rewrite Eo. unfold LUFIRAFS_INODE_SIZE. lia.
Qed.

(** An inode that holds no block. *)
Definition bare (i : inode) : Prop := inode_ok i /\ direct i = replicate 12 0 /\ indirect i = 0.

Lemma bare_refs v i k : bare i -> is_index k -> refs v i k = 0.
Proof.
  intros (_ & Hd & Hi) Hk. unfold refs, ptr. rewrite Hi, Hd. destruct (k =? -1); [done|]. destruct (Z.ltb_spec k LUFIRAFS_DIRECT_BLOCKS); [|done].
  unfold zget. destruct (0 <=? k); [|done]. destruct (_ !! _) as [x|] eqn:E; [|done]. by apply lookup_replicate in E as [-> _].
Qed.

Lemma bare_wf g v : (forall j, is_ino j -> bare (v_ino v j)) -> fs_wf g v.
Proof.
  intros H. split.
  - intros j Hj. apply H, Hj.
  - intros j k Hj Hk. by rewrite bare_refs by auto.
  - intros j k j' k' Hj Hj' Hk Hk'. by rewrite bare_refs by auto.
Qed.

Lemma zero_bare : bare zero_inode.
Proof. split_and!; [|done..]. split; [|done]. unfold inode_words, zero_inode. cbn. apply (Forall_replicate is_u32 19). unfold is_u32. lia. Qed.

Lemma demo_wf : fs_wf demo_geom demo_view.
Proof. apply bare_wf. intros j Hj. rewrite demo_inode by done. apply zero_bare. Qed.

Lemma bytes123 : Forall is_u8 [1; 2; 3].
Proof. repeat (apply Forall_cons_2; [unfold is_u8; lia|]). apply Forall_nil_2. Qed.

Lemma lufirafs_write_witness : wp (lufirafs_write 3 5000 [1; 2; 3]) (fun r s' =>
    (r = -1 /\ has_view s' demo_geom ∅ demo_view /\ (LUFIRAFS_MAX_FILE_SIZE < 5000 + zlen [1; 2; 3] \/ heap_refuses (HS := heap))) \/
    exists n v', has_view s' demo_geom ∅ v' /\ file_written (HS := heap) demo_geom demo_view 3 5000 [1; 2; 3] n v' /\
      r = if (n =? 0) && negb (zlen [1; 2; 3] =? 0) then -1 else n) demo_fs.
Proof.
  apply (lufirafs_write_correct demo_fs demo_geom ∅ demo_view 3 5000 [1; 2; 3] demo_has_view demo_wf); [|lia|exact bytes123]. unfold is_ino, LUFIRAFS_INODE_COUNT. lia.
Defined.

Lemma lufirafs_read_witness : wp (lufirafs_read 3 0 10) (fun '(r, l) s' => has_view s' demo_geom ∅ demo_view /\
    ((r = -1 /\ l = [] /\ heap_refuses (HS := heap)) \/
     (r = Z.max 0 (Z.min 10 (size (v_ino demo_view 3) - 0)) /\ zlen l = r /\ reads (HS := heap) demo_view (v_ino demo_view 3) 0 l))) demo_fs.
Proof. apply (lufirafs_read_correct demo_fs demo_geom ∅ demo_view 3 0 10 demo_has_view demo_wf); unfold is_ino, LUFIRAFS_INODE_COUNT; lia. Defined.

Lemma demo_write_read_run : exists s', (r ← lufirafs_write 3 5000 [1; 2; 3]; '(k, l) ← lufirafs_read 3 5000 (Z.max 0 r); mret (r, k, l)) demo_fs =
  Some ((3, 3, [1; 2; 3]), s').
Proof.
  set (m := r ← lufirafs_write 3 5000 [1; 2; 3]; _).
  assert (option_map fst (m demo_fs) = Some (3, 3, [1; 2; 3])) as E by (vm_compute; reflexivity).
  clearbody m. destruct (m demo_fs) as [[a s']|]; [|discriminate]. exists s'. by injection E as ->.
Qed.

(** On the small disk the bytes do come back. *)
Lemma lufirafs_write_read_witness : exists s', (r ← lufirafs_write 3 5000 [1; 2; 3]; '(k, l) ← lufirafs_read 3 5000 (Z.max 0 r); mret (r, k, l)) demo_fs =
  Some ((3, 3, [1; 2; 3]), s') /\ (3 = -1 /\ heap_refuses (HS := heap) \/ 3 = 3 /\ zlen [1; 2; 3] = 3 /\ 3 <= zlen [1; 2; 3] /\
    forall t, 0 <= t < 3 -> zget [1; 2; 3] t = zget [1; 2; 3] t \/
      (zget [1; 2; 3] t = Some 0 /\ heap_refuses (HS := heap) /\ LUFIRAFS_DIRECT_BLOCKS * LUFIRAFS_BLOCK_SIZE <= 5000 + t)).
Proof.
  destruct demo_write_read_run as [s' E]. exists s'. split; [exact E|].
  refine (wp_run _ _ _ _ _ (lufirafs_write_read demo_fs demo_geom ∅ demo_view 3 5000 [1; 2; 3] demo_has_view demo_wf _ _ bytes123) E _);
    unfold is_ino, is_u32, LUFIRAFS_INODE_COUNT; lia.
Defined.
