(* ===== verification/LufirafsDir.v ===== *)
(** Directories of LufiraFS: the entries of a directory as a relation between names and inodes, and
    what [lookup_in_dir], [add_dirent] and [remove_dirent] do to it. *)

From S2P Require Import Prelude Bitmap Memory Interfaces Heap Ramdisk Lufirafs LufirafsView LufirafsDisk LufirafsDemo LufirafsFile.

(** * Names *)

(** A name an entry can hold: no NUL, at most 59 bytes. *)
Record name_ok (name : list Z) : Prop := {
  nm_bytes : Forall is_u8 name;
  nm_nul : Forall (fun c => c <> 0) name;
  nm_len : 0 < zlen name <= LUFIRAFS_MAX_NAME;
}.

Lemma cstr_stop name rest : Forall (fun c => c <> 0) name -> cstr (name ++ 0 :: rest) = name.
Proof.
  induction 1 as [|c name Hc _ IH]; [done|]. cbn. by rewrite (proj2 (Z.eqb_neq c 0)), IH.
Qed.

Lemma cstr_take (l : list Z) n k : (k < n)%nat -> l !! k = Some 0 -> cstr (take n l) = cstr l.
Proof.
  revert n k. induction l as [|c l IH]; intros n k Hk Hl; [done|]. destruct n as [|n]; [lia|]. cbn.
  destruct (Z.eqb_spec c 0) as [|Hc]; [done|]. destruct k as [|k]; cbn in Hl; [congruence|]. by rewrite (IH n k) by (done || lia).
Qed.

(** * One block of entries *)

Definition is_slot (e : Z) : Prop := 0 <= e < LUFIRAFS_DIRENTS_PER_BLOCK.

(** Every name ends within its entry. *)
Definition names_ok (buf : list Z) : Prop := forall e, is_slot e -> exists k, 0 <= k < 60 /\ zget buf (64 * e + 4 + k) = Some 0.

Definition field (buf : list Z) (e : Z) : list Z := cut buf (64 * e + 4) 60.

Lemma ent_name_field buf e : names_ok buf -> is_slot e -> ent_name buf e = cstr (field buf e).
Proof.
  intros Hn He. destruct (Hn e He) as (k & Hk & Hz). unfold is_slot in He. unfold ent_name, field, cut.
  symmetry. apply (cstr_take _ _ (Z.to_nat k)); [lia|]. rewrite lookup_drop. unfold zget in Hz. rewrite (proj2 (Z.leb_le 0 _)) in Hz by lia.
  rewrite <- Hz. f_equal. lia.
Qed.

Lemma slot_bound (buf : list Z) e : zlen buf = LUFIRAFS_BLOCK_SIZE -> is_slot e -> 0 <= 64 * e /\ 64 * e + 64 <= zlen buf.
Proof. unfold is_slot, LUFIRAFS_DIRENTS_PER_BLOCK. intros ->. unfold LUFIRAFS_BLOCK_SIZE. lia. Qed.

(** A change inside slot [e] leaves the other slots alone. *)
Lemma slot_other buf off src buf' e e' : splice buf off src = Some buf' -> zlen buf = LUFIRAFS_BLOCK_SIZE -> is_slot e -> is_slot e' -> e' <> e ->
  64 * e <= off -> off + zlen src <= 64 * e + 64 -> ent_inode buf' e' = ent_inode buf e' /\ field buf' e' = field buf e'.
Proof.
  intros Hs Hl He He' Hne H1 H2. pose proof (slot_bound buf e' Hl He'). split.
  - unfold ent_inode. apply (word_splice_other _ _ _ _ _ Hs); lia.
  - unfold field. eapply cut_splice_other; [exact Hs|lia|lia|lia|lia].
Qed.

Lemma names_ok_splice buf off src buf' e : splice buf off src = Some buf' -> zlen buf = LUFIRAFS_BLOCK_SIZE -> is_slot e ->
  64 * e <= off -> off + zlen src <= 64 * e + 64 -> names_ok buf ->
  (exists k, 0 <= k < 60 /\ zget buf' (64 * e + 4 + k) = Some 0) -> names_ok buf'.
Proof.
  intros Hs Hl He H1 H2 Hn Hk e' He'. destruct (decide (e' = e)) as [->|Hne]; [done|].
  destruct (Hn e' He') as (k & Hk' & Hz). exists k. split; [done|]. rewrite (zget_splice _ _ _ _ _ Hs).
  destruct (Z.leb_spec off (64 * e' + 4 + k)), (Z.ltb_spec (64 * e' + 4 + k) (off + zlen src)); cbn [andb]; try done. unfold is_slot in *. lia.
Qed.

Lemma zlen_copy_name (name : list Z) : name_ok name -> copy_name name LUFIRAFS_MAX_NAME = name ++ [0] /\ zlen (name ++ [0]) <= 60.
Proof.
  intros [_ _ Hl]. unfold copy_name, zlen, LUFIRAFS_MAX_NAME in *. rewrite take_ge by lia. split; [done|]. rewrite length_app. cbn [length]. lia.
Qed.

(** Entry [e] filled in. *)
Lemma put_ent_spec buf e ino name : zlen buf = LUFIRAFS_BLOCK_SIZE -> Forall is_u8 buf -> is_slot e -> name_ok name -> is_u32 ino -> names_ok buf ->
  exists buf', put_ent buf e ino name = Some buf' /\ zlen buf' = LUFIRAFS_BLOCK_SIZE /\ Forall is_u8 buf' /\ names_ok buf' /\
    ent_inode buf' e = ino /\ ent_name buf' e = name /\
    forall e', is_slot e' -> e' <> e -> ent_inode buf' e' = ent_inode buf e' /\ ent_name buf' e' = ent_name buf e'.
Proof.
  intros Hl Hb He Hname Hino Hn. pose proof (slot_bound buf e Hl He) as [H1 H2]. destruct (zlen_copy_name name Hname) as [Ec Hlc].
  pose proof (zlen_le32 ino) as H4. pose proof (zlen_nonneg name).
  destruct (splice buf (64 * e) (le32 ino)) as [b1|] eqn:Es1; [|rewrite splice_in in Es1 by lia; done].
  pose proof (splice_len _ _ _ _ Es1) as Hl1. assert (zlen b1 = LUFIRAFS_BLOCK_SIZE) as Hl1' by lia.
  destruct (splice b1 (64 * e + 4) (name ++ [0])) as [b2|] eqn:Es2; [|rewrite splice_in in Es2 by lia; done].
  pose proof (splice_len _ _ _ _ Es2) as Hl2. pose proof (slot_bound b1 e Hl1' He).
  assert (names_ok b2) as Hn2.
  { apply (names_ok_splice _ _ _ _ e Es2); [done|done|lia|lia| |].
    - apply (names_ok_splice _ _ _ _ e Es1); [done|done|lia|lia|done|]. destruct (Hn e He) as (k & Hk & Hz). exists k. split; [done|].
      rewrite (zget_splice _ _ _ _ _ Es1), (proj2 (Z.ltb_ge _ _)), andb_false_r by lia. done.
    - exists (zlen name). rewrite zlen_app in Hlc. change (zlen [0]) with 1 in Hlc. split; [lia|].
      rewrite (zget_splice _ _ _ _ _ Es2), zlen_app. change (zlen [0]) with 1.
      rewrite (proj2 (Z.leb_le _ _)), (proj2 (Z.ltb_lt _ _)) by lia. cbn [andb].
      unfold zget, zlen. rewrite (proj2 (Z.leb_le 0 _)) by lia. rewrite lookup_app_r by lia. by replace (_ - _)%nat with 0%nat by lia. }
  assert (ent_name b2 e = name) as Ename.
  { unfold ent_name. pose proof Es2 as Es2'. rewrite splice_in in Es2' by lia. injection Es2' as <-.
    rewrite drop_app_length' by (unfold zlen in *; rewrite length_take; lia). rewrite <- app_assoc. cbn [app]. apply cstr_stop. apply Hname. }
  exists b2. unfold put_ent. rewrite Es1. cbn. rewrite Ec, Es2. split_and!; [done|lia| |done| |done|].
  - eapply Forall_splice; [exact Es2|eapply Forall_splice; [exact Es1|done|apply le_split_bytes]|]. apply Forall_app_2; [apply Hname|by apply Forall_singleton].
  - unfold ent_inode. rewrite (word_splice_other _ _ _ _ _ Es2) by lia. rewrite (word_splice_same _ _ _ _ Es1). by apply u32_small.
  - intros e' He' Hne. destruct (slot_other _ _ _ _ e e' Es1) as [A1 A2]; try done; [lia|].
    destruct (slot_other _ _ _ _ e e' Es2) as [B1 B2]; try done; [lia|lia|].
    rewrite !ent_name_field by done. split; [congruence|congruence].
Qed.

(** Entry [e] cleared. *)
Lemma clear_ent_spec buf e : zlen buf = LUFIRAFS_BLOCK_SIZE -> Forall is_u8 buf -> is_slot e -> names_ok buf ->
  exists b1 b2, splice buf (64 * e) (le32 0) = Some b1 /\ splice b1 (64 * e + 4) [0] = Some b2 /\
    zlen b2 = LUFIRAFS_BLOCK_SIZE /\ Forall is_u8 b2 /\ names_ok b2 /\ ent_inode b2 e = 0 /\
    forall e', is_slot e' -> e' <> e -> ent_inode b2 e' = ent_inode buf e' /\ ent_name b2 e' = ent_name buf e'.
Proof.
  intros Hl Hb He Hn. pose proof (slot_bound buf e Hl He) as [H1 H2]. pose proof (zlen_le32 0) as H4.
  destruct (splice buf (64 * e) (le32 0)) as [b1|] eqn:Es1; [|rewrite splice_in in Es1 by lia; done].
  pose proof (splice_len _ _ _ _ Es1) as Hl1. assert (zlen b1 = LUFIRAFS_BLOCK_SIZE) as Hl1' by lia.
  assert (zlen [0] = 1) as H5 by done.
  destruct (splice b1 (64 * e + 4) [0]) as [b2|] eqn:Es2; [|rewrite splice_in in Es2 by lia; done].
  pose proof (splice_len _ _ _ _ Es2) as Hl2.
  assert (names_ok b2) as Hn2.
  { apply (names_ok_splice _ _ _ _ e Es2); [done|done|lia|lia| |].
    - apply (names_ok_splice _ _ _ _ e Es1); [done|done|lia|lia|done|]. destruct (Hn e He) as (k & Hk & Hz). exists k. split; [done|].
      rewrite (zget_splice _ _ _ _ _ Es1), (proj2 (Z.ltb_ge _ _)), andb_false_r by lia. done.
    - exists 0. split; [lia|]. rewrite (zget_splice _ _ _ _ _ Es2), (proj2 (Z.leb_le _ _)), (proj2 (Z.ltb_lt _ _)) by lia.
      cbn [andb]. by replace (64 * e + 4 + 0 - (64 * e + 4)) with 0 by lia. }
  exists b1, b2. split_and!; [done|done|lia| |done| |].
  - eapply Forall_splice; [exact Es2|eapply Forall_splice; [exact Es1|done|apply le_split_bytes]|]. by apply Forall_singleton.
  - unfold ent_inode. rewrite (word_splice_other _ _ _ _ _ Es2) by lia. by rewrite (word_splice_same _ _ _ _ Es1).
  - intros e' He' Hne. destruct (slot_other _ _ _ _ e e' Es1) as [A1 A2]; try done; [lia|].
    destruct (slot_other _ _ _ _ e e' Es2) as [B1 B2]; try done; [lia|lia|].
    rewrite !ent_name_field by done. split; [congruence|congruence].
Qed.

(** * Slots of a directory *)

(** [sl k] is the inode and name in slot [k] of [N]; inode 0 marks a free slot. *)
Definition dentry (N : Z) (sl : Z -> Z * list Z) (name : list Z) (x : Z) : Prop :=
  x <> 0 /\ exists k, 0 <= k < N /\ sl k = (x, name).
Definition duniq (N : Z) (sl : Z -> Z * list Z) : Prop := forall k k', 0 <= k < N -> 0 <= k' < N ->
  fst (sl k) <> 0 -> fst (sl k') <> 0 -> snd (sl k) = snd (sl k') -> k = k'.

Lemma slots_add N N' sl sl' k0 ino name : N <= N' -> 0 <= k0 < N' -> ino <> 0 -> sl' k0 = (ino, name) ->
  (k0 < N -> fst (sl k0) = 0) -> (forall k, 0 <= k < N -> k <> k0 -> sl' k = sl k) ->
  (forall k, N <= k < N' -> k <> k0 -> fst (sl' k) = 0) -> duniq N sl -> (forall x, ~ dentry N sl name x) ->
  duniq N' sl' /\ forall nm x, dentry N' sl' nm x <-> (nm = name /\ x = ino) \/ dentry N sl nm x.
Proof.
  intros HN Hk0 Hino Hnew Hfree Hsame Hrest Huniq Hno.
  assert (forall k, 0 <= k < N' -> fst (sl' k) <> 0 -> k = k0 \/ (k <> k0 /\ 0 <= k < N /\ sl' k = sl k)) as Hcase.
  { intros k Hk Hn. destruct (decide (k = k0)) as [|Hne]; [by left|right]. destruct (decide (k < N)); [split_and!; [done|lia|lia|apply Hsame; (done || lia)]|].
    destruct Hn. apply Hrest; [lia|done]. }
  assert (forall k, 0 <= k < N -> fst (sl k) <> 0 -> snd (sl k) = name -> False) as Hnone.
  { intros k Hk Hn <-. apply (Hno (fst (sl k))). split; [done|]. exists k. split; [done|]. by destruct (sl k). }
  split.
  - intros k k' Hk Hk' Hn Hn' E. destruct (Hcase k Hk Hn) as [->|(Hne & Hr & Es)], (Hcase k' Hk' Hn') as [->|(Hne' & Hr' & Es')]; [done| | |].
    + exfalso. rewrite Hnew, Es' in E. rewrite Es' in Hn'. by apply (Hnone k').
    + exfalso. rewrite Hnew, Es in E. rewrite Es in Hn. by apply (Hnone k).
    + rewrite Es, Es' in *. by apply Huniq.
  - intros nm x. split.
    + intros (Hx & k & Hk & E). destruct (Hcase k Hk) as [->|(Hne & Hr & Es)]; [by rewrite E|left; rewrite Hnew in E; by injection E|].
      right. split; [done|]. exists k. split; [done|congruence].
    + intros [[-> ->]|(Hx & k & Hk & E)]; [split; [done|]; by exists k0|]. split; [done|]. exists k. split; [lia|]. rewrite <- E. apply Hsame; [done|].
      intros ->. rewrite E in Hfree. cbn in Hfree. apply Hx, Hfree. lia.
Qed.

Lemma slots_remove N sl sl' k0 x0 name : 0 <= k0 < N -> sl k0 = (x0, name) -> x0 <> 0 -> fst (sl' k0) = 0 ->
  (forall k, 0 <= k < N -> k <> k0 -> sl' k = sl k) -> duniq N sl ->
  duniq N sl' /\ forall nm x, dentry N sl' nm x <-> nm <> name /\ dentry N sl nm x.
Proof.
  intros Hk0 Hold Hx0 Hnew Hsame Huniq.
  assert (forall k, 0 <= k < N -> fst (sl' k) <> 0 -> k <> k0 /\ sl' k = sl k) as Hcase.
  { intros k Hk Hn. assert (k <> k0) as Hne by (intros ->; done). split; [done|]. by apply Hsame. }
  split.
  - intros k k' Hk Hk' Hn Hn' E. destruct (Hcase k Hk Hn) as [_ Es], (Hcase k' Hk' Hn') as [_ Es']. rewrite Es, Es' in *. by apply Huniq.
  - intros nm x. split.
    + intros (Hx & k & Hk & E). destruct (Hcase k Hk) as [Hne Es]; [by rewrite E|]. rewrite Es in E. split; [|split; [done|by exists k]].
      intros ->. apply Hne. apply Huniq; rewrite ?E, ?Hold; done.
    + intros (Hnm & Hx & k & Hk & E). split; [done|]. exists k. split; [done|]. rewrite <- E. apply Hsame; [done|]. intros ->. congruence.
Qed.

Definition slot v i (k : Z) : Z * list Z :=
  let buf := v_blk v (ptr v i (k / LUFIRAFS_DIRENTS_PER_BLOCK)) in
  (ent_inode buf (k mod LUFIRAFS_DIRENTS_PER_BLOCK), ent_name buf (k mod LUFIRAFS_DIRENTS_PER_BLOCK)).

(** A directory of [n] blocks, all direct; [free] is how many more it may take. *)
Record dir_wf v i (n : Z) : Prop := {
  dw_mode : mode i = LUFIRAFS_MODE_DIR;
  dw_size : size i = n * LUFIRAFS_BLOCK_SIZE;
  dw_n : 0 <= n <= LUFIRAFS_DIRECT_BLOCKS;
  dw_blk : forall b, 0 <= b < n -> ptr v i b <> 0 /\ names_ok (v_blk v (ptr v i b));
  dw_uniq : duniq (n * LUFIRAFS_DIRENTS_PER_BLOCK) (slot v i);
}.

(** In directory [d] the name leads to inode [x]. *)
Definition entry v d name x : Prop :=
  dentry (nblocks (size (v_ino v d)) * LUFIRAFS_DIRENTS_PER_BLOCK) (slot v (v_ino v d)) name x.

Lemma nblocks_mul n : 0 <= n <= LUFIRAFS_DIRECT_BLOCKS -> nblocks (n * LUFIRAFS_BLOCK_SIZE) = n.
Proof.
  intros Hn. unfold nblocks, LUFIRAFS_DIRECT_BLOCKS, LUFIRAFS_BLOCK_SIZE in *. rewrite (u32_small (n * 8192 + 8192)) by (unfold is_u32; lia).
  rewrite u32_small by (unfold is_u32; lia). symmetry. apply (Z.div_unique_pos _ 8192 n 8191); lia.
Qed.

Lemma slot_at b e : is_slot e -> (LUFIRAFS_DIRENTS_PER_BLOCK * b + e) / LUFIRAFS_DIRENTS_PER_BLOCK = b /\
  (LUFIRAFS_DIRENTS_PER_BLOCK * b + e) mod LUFIRAFS_DIRENTS_PER_BLOCK = e.
Proof.
  intros He. unfold is_slot in He. split; symmetry; [eapply Z.div_unique_pos|eapply Z.mod_unique_pos]; [|reflexivity| |reflexivity]; lia.
Qed.

Lemma slot_split N k : 0 <= k < N * LUFIRAFS_DIRENTS_PER_BLOCK -> 0 <= k / LUFIRAFS_DIRENTS_PER_BLOCK < N /\ is_slot (k mod LUFIRAFS_DIRENTS_PER_BLOCK) /\
  k = LUFIRAFS_DIRENTS_PER_BLOCK * (k / LUFIRAFS_DIRENTS_PER_BLOCK) + k mod LUFIRAFS_DIRENTS_PER_BLOCK.
Proof.
  intros Hk. pose proof (Z.div_mod k LUFIRAFS_DIRENTS_PER_BLOCK ltac:(done)). pose proof (Z.mod_pos_bound k LUFIRAFS_DIRENTS_PER_BLOCK ltac:(done)).
  split; [split; [apply Z.div_pos; [lia|done]|apply Z.div_lt_upper_bound; [done|lia]]|]. unfold is_slot. lia.
Qed.

Lemma find_ent_spec p : match find_ent p with
  | Some e => is_slot e /\ p e = true
  | None => forall e, is_slot e -> p e = false
  end.
Proof.
  unfold find_ent. destruct (find p _) as [e|] eqn:E.
  - apply find_some in E as [Hin Hp]. split; [|done]. apply list_elem_of_In, elem_of_seqZ in Hin. unfold is_slot. lia.
  - intros e He. eapply find_none in E; [exact E|]. apply list_elem_of_In, elem_of_seqZ. unfold is_slot in He. lia.
Qed.

(** * Operations *)

Section ops.
Context {HS DS : Type} `{!BlockAllocator HS} `{!BlockDevice DS}.
Implicit Types (s : lufirafs (HS := HS) (DS := DS)) (g : geom) (v : view).

Lemma get_direct s i k : length (direct i) = 12%nat -> 0 <= k < LUFIRAFS_DIRECT_BLOCKS ->
  inode_get_block i k false s = Some ((ptr (mk_view (fun _ => true) (fun _ => i) (fun _ => [])) i k, i), s).
Proof.
  intros Hl Hk. unfold inode_get_block. rewrite (proj2 (Z.ltb_lt _ _)) by lia. rewrite ptr_direct by lia.
  destruct (zget_Some (direct i) k) as [d Hd]; [unfold zlen, LUFIRAFS_DIRECT_BLOCKS in *; lia|]. unfold lift, mbind, M_bind. rewrite Hd, andb_false_r. done.
Qed.

Lemma ptr_direct_view v v' i k : k < LUFIRAFS_DIRECT_BLOCKS -> ptr v i k = ptr v' i k.
Proof. intros. by rewrite !ptr_direct. Qed.

(** The loop over the blocks of a directory: [skip b] holds when the round on block [b] found nothing. *)
Lemma wp_dir_blocks {A} (Q : option A -> lufirafs -> Prop) (skip : Z -> Prop) f s g live v d n :
  has_view s g live v -> fs_wf g v -> is_ino d -> dir_wf v (v_ino v d) n ->
  (forall b s', 0 <= b < n -> has_view s' g live v -> is_data g (ptr v (v_ino v d) b) ->
     wp (f (ptr v (v_ino v d) b) (v_blk v (ptr v (v_ino v d) b)))
       (fun r s'' => match r with Some x => Q (Some x) s'' | None => has_view s'' g live v /\ skip b end) s') ->
  (forall s', has_view s' g live v -> (forall b, 0 <= b < n -> skip b) -> Q None s') ->
  wp (dir_blocks (v_ino v d) f) Q s.
Proof.
  intros Hv Hwf Hd Hdir Hf HQ. pose proof (dw_n _ _ _ Hdir) as Hn. pose proof (fw_ok _ _ Hwf d Hd) as Hok.
  unfold dir_blocks. rewrite (dw_size _ _ _ Hdir), nblocks_mul by done.
  apply (wp_for_range (fun b s' => has_view s' g live v /\ forall b', 0 <= b' < b -> skip b')); [split; [done|lia]|lia| |].
  - intros b s' Hb [Hv' Hskip]. destruct (dw_blk _ _ _ Hdir b Hb) as [Hp _].
    wstep. eapply wp_Some; [apply get_direct; [apply Hok|lia]|]. cbv beta iota.
    rewrite (ptr_direct_view _ v) by lia. rewrite (proj2 (Z.eqb_neq _ _) Hp). assert (0 <= b < MAX_BLOCKS) as Hbm.
    { unfold MAX_BLOCKS, LUFIRAFS_PTRS_PER_BLOCK. lia. }
    destruct (own_block g v d _ b Hd (wf_self g v d Hwf) Hbm Hp) as (Hdat & _).
    wstep. apply (wp_read_data_block _ _ _ _ _ _ Hv' Hdat). intros dk Hv2. eapply wp_mono; [by apply Hf|].
    intros [x|] s'' H; [done|]. destruct H as [Hv3 Hs]. split; [done|]. intros b' Hb'. destruct (decide (b' = b)) as [->|]; [done|]. apply Hskip. lia.
  - intros s' [Hv' Hskip]. by apply HQ.
Qed.

Lemma slot_of v i b e : is_slot e -> slot v i (LUFIRAFS_DIRENTS_PER_BLOCK * b + e) =
  (ent_inode (v_blk v (ptr v i b)) e, ent_name (v_blk v (ptr v i b)) e).
Proof. intros He. unfold slot. by destruct (slot_at b e He) as [-> ->]. Qed.

Lemma entry_n v d n name x : dir_wf v (v_ino v d) n ->
  entry v d name x <-> dentry (n * LUFIRAFS_DIRENTS_PER_BLOCK) (slot v (v_ino v d)) name x.
Proof. intros Hdir. unfold entry. by rewrite (dw_size _ _ _ Hdir), nblocks_mul by apply Hdir. Qed.

Lemma ent_is_true buf name e : ent_is buf name e = true <-> ent_inode buf e <> 0 /\ ent_name buf e = name.
Proof. unfold ent_is. rewrite andb_true_iff, negb_true_iff, Z.eqb_neq, bool_decide_eq_true. done. Qed.

Lemma entry_here v d n name b e : dir_wf v (v_ino v d) n -> 0 <= b < n -> is_slot e ->
  ent_is (v_blk v (ptr v (v_ino v d) b)) name e = true -> entry v d name (ent_inode (v_blk v (ptr v (v_ino v d) b)) e).
Proof.
  intros Hdir Hb He [Hi Hnm]%ent_is_true. apply (entry_n _ _ n); [done|]. split; [done|].
  exists (LUFIRAFS_DIRENTS_PER_BLOCK * b + e). split; [unfold is_slot in He; nia|]. rewrite slot_of by done. by rewrite Hnm.
Qed.

Lemma entry_none v d n name : dir_wf v (v_ino v d) n ->
  (forall b, 0 <= b < n -> forall e, is_slot e -> ent_is (v_blk v (ptr v (v_ino v d) b)) name e = false) -> forall x, ~ entry v d name x.
Proof.
  intros Hdir Hall x He. apply (entry_n _ _ n) in He as (Hx & k & Hk & E); [|done].
  destruct (slot_split _ _ Hk) as (Hb & Hs & _). specialize (Hall _ Hb _ Hs). injection E as Ei En.
  assert (ent_is (v_blk v (ptr v (v_ino v d) (k / LUFIRAFS_DIRENTS_PER_BLOCK))) name (k mod LUFIRAFS_DIRENTS_PER_BLOCK) = true) as H
    by (apply ent_is_true; split; [congruence|done]). congruence.
Qed.

Lemma lookup_outcome s g live v d n name : has_view s g live v -> fs_wf g v -> is_ino d -> dir_wf v (v_ino v d) n ->
  wp (lookup_in_dir d name) (fun r s' => has_view s' g live v /\
    match r with Some x => entry v d name x | None => heap_refuses (HS := HS) \/ forall x, ~ entry v d name x end) s.
Proof.
  intros Hv Hwf Hd Hdir. unfold lookup_in_dir. wstep. apply (wp_read_inode _ _ _ _ _ _ Hv Hd).
  rewrite (dw_mode _ _ _ Hdir), Z.eqb_refl. cbn [negb].
  apply (wp_with_buf _ _ _ _ _ _ _ Hv); [intros Hr; split; [done|by left]|]. intros h p Hp Hnl Hv1.
  apply (wp_dir_blocks _ (fun b => forall e, is_slot e -> ent_is (v_blk v (ptr v (v_ino v d) b)) name e = false) _ _ _ _ _ _ _ Hv1 Hwf Hd Hdir).
  - intros b s' Hb Hv' _. wstep. pose proof (find_ent_spec (ent_is (v_blk v (ptr v (v_ino v d) b)) name)) as Hf.
    destruct (find_ent _) as [e|]; cbn [fmap option_fmap option_map]; [|done]. destruct Hf as [He Hm].
    exists v. split; [done|]. intros h' Hv2. split; [done|]. by apply (entry_here _ _ n).
  - intros s' Hv' Hall. exists v. split; [done|]. intros h' Hv2. split; [done|]. right. by apply (entry_none _ _ n).
Qed.

(** [lookup_in_dir] finds the inode a name leads to and reports a missing name exactly when there
    is no such entry (or when it gets no buffer), without changing anything. *)
Theorem lookup_in_dir_correct s g live v d n name : has_view s g live v -> fs_wf g v -> is_ino d -> dir_wf v (v_ino v d) n ->
  wp (lookup_in_dir d name) (fun r s' => has_view s' g live v /\
    match r with Some x => entry v d name x | None => heap_refuses (HS := HS) \/ forall x, ~ entry v d name x end) s.
Proof. apply lookup_outcome. Qed.

(** ** Changes *)

(** File [j] is as before, block by block. *)
Definition keeps v v' j : Prop := v_ino v' j = v_ino v j /\ forall k, 0 <= k < MAX_BLOCKS ->
  ptr v' (v_ino v j) k = ptr v (v_ino v j) k /\
  (ptr v (v_ino v j) k <> 0 -> v_blk v' (ptr v (v_ino v j) k) = v_blk v (ptr v (v_ino v j) k)).

Lemma file_keeps_trans v v' v'' j : keeps v v' j -> keeps v' v'' j -> keeps v v'' j.
Proof.
  intros [E H] [E' H']. rewrite E in *. split; [done|]. intros k Hk. destruct (H k Hk) as [Hp Hb], (H' k Hk) as [Hp' Hb'].
  split; [congruence|]. intros Hn. rewrite Hp in Hb'. by rewrite Hb', Hb.
Qed.

Lemma put_keeps g v d i k buf j : is_ino d -> fs_wf g (put_ino d i v) -> 0 <= k < MAX_BLOCKS -> ptr v i k <> 0 -> is_ino j -> j <> d ->
  keeps v (put (ptr v i k) buf v) j.
Proof.
  intros Hd Hwf Hk Hn Hj Hne. split; [done|]. intros k' Hk'.
  pose proof (refs_put g v d i k buf Hd Hwf Hk Hn j k' Hj (index_of k' Hk')) as Hr. rewrite put_ino_ne, !refs_ptr in Hr by (done || lia).
  split; [done|]. intros Hn'. cbn [v_blk put]. rewrite (proj2 (Z.eqb_neq _ _)); [done|].
  destruct (other_block g v d i j k' Hd Hwf Hj Hne Hk' Hn') as (_ & _ & Hx). rewrite <- (refs_ptr v i k) by lia. by apply Hx, index_of.
Qed.

Lemma gb_keeps g d v i k0 create r v' i' j : is_ino d -> fs_wf g (put_ino d i v) -> get_block_post (HS := HS) g d v i k0 create r v' i' ->
  is_ino j -> j <> d -> keeps v v' j.
Proof.
  intros Hd Hwf Hpost Hj Hne. split; [by rewrite (gb_ino _ _ _ _ _ _ _ _ _ Hpost)|]. intros k Hk. split.
  - rewrite <- !refs_ptr by lia. pose proof (refs_other g v v' d i Hd Hwf j k Hj Hne (index_of k Hk)) as H.
    rewrite (gb_ino _ _ _ _ _ _ _ _ _ Hpost) in H. apply H; [done|]. apply (gb_keep _ _ _ _ _ _ _ _ _ Hpost).
  - intros Hn. destruct (other_block g v d i j k Hd Hwf Hj Hne Hk Hn) as (Hdt & Hu & Hx).
    apply (gb_keep _ _ _ _ _ _ _ _ _ Hpost); [done|done|]. exact (Hx (-1) index_m1).
Qed.

(** Directory [d] now has [n'] blocks and the entries [R]; its other attributes and all other files
    are as before. *)
Record dir_changed g v d v' n' (R : list Z -> Z -> Prop) : Prop := {
  dc_wf : fs_wf g v';
  dc_dir : dir_wf v' (v_ino v' d) n';
  dc_attrs : links_count (v_ino v' d) = links_count (v_ino v d) /\ uid (v_ino v' d) = uid (v_ino v d) /\
    gid (v_ino v' d) = gid (v_ino v d) /\ perm (v_ino v' d) = perm (v_ino v d);
  dc_entry : forall nm x, entry v' d nm x <-> R nm x;
  dc_other : forall j, is_ino j -> j <> d -> keeps v v' j;
}.

Lemma slot_put g v d i b buf k : is_ino d -> fs_wf g (put_ino d i v) -> 0 <= b < LUFIRAFS_DIRECT_BLOCKS -> ptr v i b <> 0 ->
  0 <= k / LUFIRAFS_DIRENTS_PER_BLOCK < LUFIRAFS_DIRECT_BLOCKS -> ptr v i (k / LUFIRAFS_DIRENTS_PER_BLOCK) <> 0 ->
  slot (put (ptr v i b) buf v) i k = if k / LUFIRAFS_DIRENTS_PER_BLOCK =? b
    then (ent_inode buf (k mod LUFIRAFS_DIRENTS_PER_BLOCK), ent_name buf (k mod LUFIRAFS_DIRENTS_PER_BLOCK)) else slot v i k.
Proof.
  intros Hd Hwf Hb Hn Hk Hnk. unfold slot. rewrite (ptr_direct_view (put _ _ _) v) by lia. cbn [v_blk put].
  assert (forall b, 0 <= b < LUFIRAFS_DIRECT_BLOCKS -> is_index b) as Hix.
  { intros b' Hb'. unfold is_index, MAX_BLOCKS, LUFIRAFS_PTRS_PER_BLOCK in *. lia. }
  destruct (Z.eqb_spec (k / LUFIRAFS_DIRENTS_PER_BLOCK) b) as [->|Hne]; [by rewrite Z.eqb_refl|].
  rewrite (proj2 (Z.eqb_neq _ _)); [done|]. intros E. apply Hne.
  pose proof (wf_own_inj g v d i Hd Hwf _ _ (Hix _ Hk) (Hix _ Hb)) as H. rewrite !refs_ptr in H by lia. by apply H.
Qed.

(** A block of the directory rewritten in place. *)
Lemma dir_put g v d n b buf R : is_ino d -> fs_wf g v -> dir_wf v (v_ino v d) n -> 0 <= b < n -> names_ok buf ->
  let v' := put (ptr v (v_ino v d) b) buf v in
  let sl' := fun k => if k / LUFIRAFS_DIRENTS_PER_BLOCK =? b
    then (ent_inode buf (k mod LUFIRAFS_DIRENTS_PER_BLOCK), ent_name buf (k mod LUFIRAFS_DIRENTS_PER_BLOCK)) else slot v (v_ino v d) k in
  duniq (n * LUFIRAFS_DIRENTS_PER_BLOCK) sl' -> (forall nm x, dentry (n * LUFIRAFS_DIRENTS_PER_BLOCK) sl' nm x <-> R nm x) ->
  dir_changed g v d v' n R.
Proof.
  intros Hd Hwf Hdir Hb Hno v' sl' Huniq HR. pose proof (dw_n _ _ _ Hdir) as Hn. pose proof (wf_self g v d Hwf) as Hwfs.
  assert (0 <= b < MAX_BLOCKS) as Hbm by (unfold MAX_BLOCKS, LUFIRAFS_PTRS_PER_BLOCK; lia).
  destruct (dw_blk _ _ _ Hdir b Hb) as [Hp _]. change (v_ino v' d) with (v_ino v d).
  assert (forall k, 0 <= k < n * LUFIRAFS_DIRENTS_PER_BLOCK -> slot v' (v_ino v d) k = sl' k) as Esl.
  { intros k Hk. destruct (slot_split _ _ Hk) as (Hkb & _ & _). destruct (dw_blk _ _ _ Hdir _ Hkb) as [Hpk _].
    apply (slot_put g v d); try done; lia. }
  assert (dir_wf v' (v_ino v d) n) as Hdir'.
  { split; try apply Hdir.
    - intros b' Hb'. destruct (dw_blk _ _ _ Hdir b' Hb') as [Hp' Hno']. rewrite (ptr_direct_view v' v) by lia. split; [done|].
      unfold v'. cbn [v_blk put]. by destruct (_ =? _).
    - intros k k' Hk Hk'. rewrite !Esl by done. by apply Huniq. }
  split; [|done|done| |].
  - eapply fs_wf_ext; [exact (wf_put g v d _ b buf Hd Hwfs Hbm Hp)|intros j _|done|done].
    cbn. by destruct (Z.eqb_spec j d) as [->|].
  - intros nm x. rewrite (entry_n v' d n) by done. rewrite <- HR. unfold dentry.
    split; intros (Hx & k & Hk & E); (split; [done|]); exists k; (split; [done|]); rewrite <- E; [symmetry|]; by apply Esl.
  - intros j Hj Hne. by apply (put_keeps g v d).
Qed.

(** ** Adding an entry *)

Lemma names_ok_zero : names_ok zero_block.
Proof.
  intros e He. exists 0. split; [lia|]. unfold zero_block. apply zget_replicate. unfold is_slot, LUFIRAFS_DIRENTS_PER_BLOCK, LUFIRAFS_BLOCK_SIZE in *. lia.
Qed.

Lemma slot_index b e n : 0 <= b < n -> is_slot e -> 0 <= LUFIRAFS_DIRENTS_PER_BLOCK * b + e < n * LUFIRAFS_DIRENTS_PER_BLOCK.
Proof. unfold is_slot, LUFIRAFS_DIRENTS_PER_BLOCK. lia. Qed.

Lemma add_in_place g v d n b e buf' name ino : is_ino d -> fs_wf g v -> dir_wf v (v_ino v d) n -> 0 <= b < n -> is_slot e -> ino <> 0 ->
  (forall x, ~ entry v d name x) -> ent_inode (v_blk v (ptr v (v_ino v d) b)) e = 0 -> names_ok buf' ->
  ent_inode buf' e = ino -> ent_name buf' e = name ->
  (forall e', is_slot e' -> e' <> e -> ent_inode buf' e' = ent_inode (v_blk v (ptr v (v_ino v d) b)) e' /\
     ent_name buf' e' = ent_name (v_blk v (ptr v (v_ino v d) b)) e') ->
  dir_changed g v d (put (ptr v (v_ino v d) b) buf' v) n (fun nm x => (nm = name /\ x = ino) \/ entry v d nm x).
Proof.
  intros Hd Hwf Hdir Hb He Hino Hno Hfree Hok Hei Hen Hother. set (N := n * LUFIRAFS_DIRENTS_PER_BLOCK).
  destruct (slot_at b e He) as [Eb Ee]. set (k0 := LUFIRAFS_DIRENTS_PER_BLOCK * b + e) in *.
  assert (0 <= k0 < N) as Hk0 by by apply slot_index.
  destruct (slots_add N N (slot v (v_ino v d)) (fun k => if k / LUFIRAFS_DIRENTS_PER_BLOCK =? b
      then (ent_inode buf' (k mod LUFIRAFS_DIRENTS_PER_BLOCK), ent_name buf' (k mod LUFIRAFS_DIRENTS_PER_BLOCK)) else slot v (v_ino v d) k)
      k0 ino name) as [Huniq HR].
  - lia.
  - done.
  - done.
  - rewrite Eb, Ee, Z.eqb_refl, Hei, Hen. done.
  - intros _. unfold k0. rewrite slot_of by done. done.
  - intros k Hk Hne. destruct (slot_split _ _ Hk) as (_ & Hs & Ek). destruct (Z.eqb_spec (k / LUFIRAFS_DIRENTS_PER_BLOCK) b) as [E|]; [|done].
    destruct (Hother (k mod LUFIRAFS_DIRENTS_PER_BLOCK) Hs) as [-> ->]; [intros E'; apply Hne; rewrite Ek, E, E'; done|]. unfold slot. by rewrite E.
  - lia.
  - apply Hdir.
  - intros x Hx. apply (Hno x). by apply (entry_n _ _ n).
  - apply dir_put; try done. intros nm x. etransitivity; [apply HR|]. by rewrite (entry_n _ _ n).
Qed.

(** The directory grown by block [r], which holds one entry. *)
Lemma add_grow g v d n r v1 i1 buf name ino : is_ino d -> fs_wf g v -> dir_wf v (v_ino v d) n -> n < LUFIRAFS_DIRECT_BLOCKS ->
  get_block_post (HS := HS) g d v (v_ino v d) n true r v1 i1 -> r <> 0 -> ino <> 0 -> (forall x, ~ entry v d name x) ->
  names_ok buf -> ent_inode buf 0 = ino -> ent_name buf 0 = name -> (forall e, is_slot e -> e <> 0 -> ent_inode buf e = 0) ->
  dir_changed g v d (put_ino d (set_size ((n + 1) * LUFIRAFS_BLOCK_SIZE) i1) (put r buf v1)) (n + 1) (fun nm x => (nm = name /\ x = ino) \/ entry v d nm x).
Proof.
  intros Hd Hwf Hdir Hn Hpost Hr Hino Hno Hok Hei Hen Hother. pose proof (wf_self g v d Hwf) as Hwfs. pose proof (dw_n _ _ _ Hdir) as Hn0.
  set (D := LUFIRAFS_DIRENTS_PER_BLOCK). assert (D = 128) as HD by done. pose proof (gb_wf _ _ _ _ _ _ _ _ _ Hpost) as Hwf1.
  destruct (gb_res _ _ _ _ _ _ _ _ _ Hpost) as [(_ & Er & _)|(? & _)]; [|done].
  assert (0 <= n < MAX_BLOCKS) as Hnm by (unfold MAX_BLOCKS, LUFIRAFS_PTRS_PER_BLOCK; lia).
  assert (ptr v1 i1 n <> 0) as Hpn by congruence. rewrite <- Er in *. set (i2 := set_size _ i1). set (v3 := put_ino d i2 _).
  assert (v_ino v3 d = i2) as Ei by apply put_ino_eq.
  assert (forall b, 0 <= b < n -> ptr v1 i1 b = ptr v (v_ino v d) b /\ ptr v (v_ino v d) b <> 0 /\
    v_blk v1 (ptr v (v_ino v d) b) = v_blk v (ptr v (v_ino v d) b)) as Hold.
  { intros b Hb. assert (0 <= b < MAX_BLOCKS) as Hbm by lia. destruct (dw_blk _ _ _ Hdir b Hb) as [Hp _]. split_and!; [|done|].
    - apply (gb_ptr _ _ _ _ _ _ _ _ _ Hpost); lia.
    - destruct (own_block g v d _ b Hd Hwfs Hbm Hp) as (H1 & H2 & H3). by apply (gb_keep _ _ _ _ _ _ _ _ _ Hpost). }
  assert (forall k, 0 <= k < (n + 1) * D -> slot v3 i2 k = if k / D =? n then (ent_inode buf (k mod D), ent_name buf (k mod D)) else slot v (v_ino v d) k) as Esl.
  { intros k Hk. destruct (slot_split _ _ Hk) as (Hkb & _ & _). change (slot v3 i2 k) with (slot (put (ptr v1 i1 n) buf v1) i1 k).
    destruct (decide (k / D = n)) as [E|Hne].
    - rewrite (slot_put g v1 d i1 n buf k Hd Hwf1) by (fold D; rewrite ?E; (done || lia)). fold D. by rewrite E, Z.eqb_refl.
    - destruct (Hold (k / D) ltac:(fold D in Hkb; lia)) as (E1 & E2 & E3).
      rewrite (slot_put g v1 d i1 n buf k Hd Hwf1) by (fold D; rewrite ?E1; (done || (fold D in Hkb; lia))). fold D. rewrite (proj2 (Z.eqb_neq _ _) Hne).
      unfold slot. fold D. by rewrite E1, E3. }
  assert (n * D / D = n /\ (n * D) mod D = 0) as [Ed0 Em0] by (split; [by apply Z.div_mul|by apply Z.mod_mul]).
  destruct (slots_add (n * D) ((n + 1) * D) (slot v (v_ino v d)) (slot v3 i2) (n * D) ino name) as [Huniq HR].
  - lia.
  - lia.
  - done.
  - rewrite Esl, Ed0, Em0, Z.eqb_refl, Hei, Hen by lia. done.
  - lia.
  - intros k Hk _. rewrite Esl by lia. destruct (slot_split _ _ Hk) as (Hkb & _ & _). fold D in Hkb. by rewrite (proj2 (Z.eqb_neq _ _)) by lia.
  - intros k Hk Hne. rewrite Esl by lia. destruct (slot_split (n + 1) k) as (Hkb & Hs & Ek); [fold D; lia|]. fold D in Hkb, Hs, Ek.
    assert (k / D = n) as E by (symmetry; apply (Z.div_unique_pos k D n (k - n * D)); lia). rewrite E, Z.eqb_refl. cbn [fst]. apply Hother; [done|]. intros E'. apply Hne. rewrite Ek, E, E'. lia.
  - apply Hdir.
  - intros x Hx. apply (Hno x). by apply (entry_n _ _ n).
  - destruct (gb_attrs _ _ _ _ _ _ _ _ _ Hpost) as (A1 & _ & A3 & A4 & A5 & A6).
    assert (dir_wf v3 i2 (n + 1)) as Hdir3.
    { split.
      - cbn. rewrite A1. apply Hdir.
      - done.
      - lia.
      - intros b Hb. rewrite (ptr_direct_view v3 v1) by lia. change (ptr v1 i2 b) with (ptr v1 i1 b). unfold v3. cbn [v_blk put_ino put].
        destruct (decide (b = n)) as [->|Hne]; [by rewrite Z.eqb_refl|]. destruct (Hold b ltac:(lia)) as (E1 & E2 & E3). rewrite E1. split; [done|].
        destruct (_ =? _); [done|]. rewrite E3. apply (dw_blk _ _ _ Hdir). lia.
      - done. }
    split.
    + apply wf_size; [done|by apply wf_put|]. unfold is_u32, LUFIRAFS_BLOCK_SIZE, LUFIRAFS_DIRECT_BLOCKS in *. lia.
    + by rewrite Ei.
    + rewrite Ei. cbn. done.
    + intros nm x. pose proof (entry_n v3 d (n + 1) nm x) as He. rewrite Ei in He. rewrite (He Hdir3). etransitivity; [apply HR|]. by rewrite (entry_n _ _ n).
    + intros j Hj Hne. apply file_keeps_trans with v1; [exact (gb_keeps _ _ _ _ _ _ _ _ _ _ Hd Hwfs Hpost Hj Hne)|].
      pose proof (put_keeps g v1 d i1 n buf j Hd Hwf1 Hnm Hpn Hj Hne) as [K1 K2]. split; [|exact K2]. unfold v3. rewrite put_ino_ne by done. exact K1.
Qed.

(** [add_dirent] on a directory that can still grow. *)
Lemma add_outcome s g live v d n name ino : has_view s g live v -> fs_wf g v -> is_ino d -> dir_wf v (v_ino v d) n -> n < LUFIRAFS_DIRECT_BLOCKS ->
  name_ok name -> is_u32 ino -> ino <> 0 -> (forall x, ~ entry v d name x) ->
  wp (add_dirent d name ino) (fun r s' => (r = false /\ has_view s' g live v /\ (heap_refuses (HS := HS) \/ full g v)) \/
    (r = true /\ exists v' n', has_view s' g live v' /\ n <= n' <= n + 1 /\
       dir_changed g v d v' n' (fun nm x => (nm = name /\ x = ino) \/ entry v d nm x))) s.
Proof.
  intros Hv Hwf Hd Hdir Hn Hname Hu32 Hino Hno. pose proof (dw_n _ _ _ Hdir) as Hn0. pose proof (wf_self g v d Hwf) as Hwfs.
  unfold add_dirent. wstep. apply (wp_read_inode _ _ _ _ _ _ Hv Hd). rewrite (dw_size _ _ _ Hdir), nblocks_mul by done.
  wstep. apply (wp_with_buf _ _ _ _ _ _ _ Hv); [intros Hr; wstep; left; split_and!; [done|done|by left]|]. intros h p Hp Hnl Hv1. wstep.
  apply (wp_dir_blocks _ (fun _ => True) _ _ _ _ _ _ _ Hv1 Hwf Hd Hdir).
  - intros b s1 Hb Hv2 Hdat. pose proof (find_ent_spec (fun i => ent_inode (v_blk v (ptr v (v_ino v d) b)) i =? 0)) as Hf.
    destruct (find_ent _) as [e|]; [|wstep; split; [done|done]]. destruct Hf as [He Hz%Z.eqb_eq].
    destruct (view_blk_len _ _ _ _ _ Hv Hdat) as [Hbl Hbb]. destruct (dw_blk _ _ _ Hdir b Hb) as [_ Hnok].
    destruct (put_ent_spec _ e ino name Hbl Hbb He Hname Hu32 Hnok) as (buf' & E & Hl' & Hb' & Hn' & Hi' & Hnm' & Ho').
    wstep. eapply wp_lift; [exact E|]. cbv beta. wstep. apply (wp_write_data_block _ _ _ _ _ _ _ Hv2 Hdat Hl' Hb'). intros dk Hv3. wstep. wstep.
    eexists. split; [exact Hv3|]. intros h' Hv4. wstep. right. split; [done|]. eexists _, n. split_and!; [exact Hv4|lia|lia|]. by apply (add_in_place g v d n b e).
  - intros s1 Hv2 _. wstep. assert (0 <= n < MAX_BLOCKS) as Hnm by (unfold MAX_BLOCKS, LUFIRAFS_PTRS_PER_BLOCK; lia).
    eapply wp_mono; [apply (inode_get_block_outcome _ _ _ _ d _ n true Hv2 Hd Hwfs Hnm)|]. intros [r i1] s2 (v1 & Hv3 & Hpost).
    destruct (Z.eqb_spec r 0) as [->|Hr].
    { wstep. destruct (gb_fail _ _ _ _ _ _ _ _ _ Hpost eq_refl Hn) as [-> ->]. exists v. split; [done|]. intros h' Hv4. wstep. left.
      split_and!; [done|done|]. destruct (gb_res _ _ _ _ _ _ _ _ _ Hpost) as [(? & _)|(_ & _ & [[_ Hf]|[Hh _]])]; [done|right; by apply Hf|by left]. }
    destruct zero_block_ok as [Hzl Hzb].
    destruct (put_ent_spec zero_block 0 ino name Hzl Hzb ltac:(done) Hname Hu32 names_ok_zero) as (buf' & E & Hl' & Hb' & Hn' & Hi' & Hnm' & Ho').
    wstep. eapply wp_lift; [exact E|]. cbv beta.
    destruct (gb_res _ _ _ _ _ _ _ _ _ Hpost) as [(_ & Er & _)|(? & _)]; [|done].
    destruct (own_block g v1 d i1 _ Hd (gb_wf _ _ _ _ _ _ _ _ _ Hpost) Hnm ltac:(by rewrite Er)) as (Hdat & _). rewrite Er in Hdat.
    wstep. apply (wp_write_data_block _ _ _ _ _ _ _ Hv3 Hdat Hl' Hb'). intros dk Hv4. wstep. eexists. split; [exact Hv4|]. intros h' Hv5.
    assert (u32 (u32 (n + 1) * LUFIRAFS_BLOCK_SIZE) = (n + 1) * LUFIRAFS_BLOCK_SIZE) as ->.
    { unfold LUFIRAFS_DIRECT_BLOCKS, LUFIRAFS_BLOCK_SIZE in *. rewrite (u32_small (n + 1)) by (unfold is_u32; lia). apply u32_small. unfold is_u32; lia. }
    assert (dir_changed g v d (put_ino d (set_size ((n + 1) * LUFIRAFS_BLOCK_SIZE) i1) (put r buf' v1)) (n + 1)
      (fun nm x => (nm = name /\ x = ino) \/ entry v d nm x)) as Hch.
    { apply add_grow; try done. intros e He Hne. destruct (Ho' e He Hne) as [-> _]. apply word_zero. }
    pose proof (fw_ok _ _ (dc_wf _ _ _ _ _ _ Hch) d Hd) as Hiok. rewrite put_ino_eq in Hiok.
    wstep. apply (wp_write_inode _ _ _ _ _ _ _ Hv5 Hd Hiok). intros im dd Hv6. wstep. right. split; [done|].
    eexists _, (n + 1). split_and!; [exact Hv6|lia|lia|exact Hch].
Qed.

(** [add_dirent] on a directory without the name either fails, changing nothing, because the disk
    is full or the heap refuses a buffer, or adds exactly this entry: every other entry, every other
    file and the directory's owner and mode are as before, and no two entries share a name. *)
Theorem add_dirent_correct s g live v d n name ino : has_view s g live v -> fs_wf g v -> is_ino d -> dir_wf v (v_ino v d) n -> n < LUFIRAFS_DIRECT_BLOCKS ->
  name_ok name -> is_u32 ino -> ino <> 0 -> (forall x, ~ entry v d name x) ->
  wp (add_dirent d name ino) (fun r s' => (r = false /\ has_view s' g live v /\ (heap_refuses (HS := HS) \/ full g v)) \/
    (r = true /\ exists v' n', has_view s' g live v' /\ n <= n' <= n + 1 /\
       dir_changed g v d v' n' (fun nm x => (nm = name /\ x = ino) \/ entry v d nm x))) s.
Proof. apply add_outcome. Qed.

(** A directory whose inode and blocks are kept has the same entries. *)
Lemma dir_keeps v v' d n : keeps v v' d -> dir_wf v (v_ino v d) n ->
  dir_wf v' (v_ino v' d) n /\ forall nm x, entry v' d nm x <-> entry v d nm x.
Proof.
  intros [E K] Hd. assert (forall b, 0 <= b < n -> ptr v' (v_ino v d) b = ptr v (v_ino v d) b /\
    v_blk v' (ptr v (v_ino v d) b) = v_blk v (ptr v (v_ino v d) b)) as Hb.
  { intros b Hb. pose proof (dw_n _ _ _ Hd). destruct (K b) as [H1 H2]; [unfold MAX_BLOCKS, LUFIRAFS_DIRECT_BLOCKS, LUFIRAFS_PTRS_PER_BLOCK in *; lia|].
    split; [done|]. by apply H2, (dw_blk _ _ _ Hd). }
  assert (forall k, 0 <= k < n * LUFIRAFS_DIRENTS_PER_BLOCK -> slot v' (v_ino v d) k = slot v (v_ino v d) k) as Hs.
  { intros k Hk. destruct (slot_split _ _ Hk) as (Hq & _). unfold slot. destruct (Hb _ Hq) as [-> ->]. done. }
  assert (dir_wf v' (v_ino v' d) n) as Hd'.
  { rewrite E. destruct Hd as [H1 H2 H3 H4 H5]. split; [done..| |].
    - intros b Hbn. destruct (Hb b Hbn) as [-> ->]. by apply H4.
    - intros k k' Hk Hk'. rewrite !Hs by done. by apply H5. }
  split; [done|]. intros nm x. rewrite (entry_n v' d n), (entry_n v d n) by done. rewrite E.
  split; intros (Hx & k & Hk & Ek); (split; [done|]); exists k; (split; [done|]); [rewrite <- Hs|rewrite Hs]; done.
Qed.

(** ** Removing an entry *)

Lemma remove_in_place g v d n b e buf' name : is_ino d -> fs_wf g v -> dir_wf v (v_ino v d) n -> 0 <= b < n -> is_slot e ->
  ent_is (v_blk v (ptr v (v_ino v d) b)) name e = true -> names_ok buf' -> ent_inode buf' e = 0 ->
  (forall e', is_slot e' -> e' <> e -> ent_inode buf' e' = ent_inode (v_blk v (ptr v (v_ino v d) b)) e' /\
     ent_name buf' e' = ent_name (v_blk v (ptr v (v_ino v d) b)) e') ->
  dir_changed g v d (put (ptr v (v_ino v d) b) buf' v) n (fun nm x => nm <> name /\ entry v d nm x).
Proof.
  intros Hd Hwf Hdir Hb He [Hold Hnm]%ent_is_true Hok Hei Hother. set (N := n * LUFIRAFS_DIRENTS_PER_BLOCK).
  destruct (slot_at b e He) as [Eb Ee]. set (k0 := LUFIRAFS_DIRENTS_PER_BLOCK * b + e) in *.
  destruct (slots_remove N (slot v (v_ino v d)) (fun k => if k / LUFIRAFS_DIRENTS_PER_BLOCK =? b
      then (ent_inode buf' (k mod LUFIRAFS_DIRENTS_PER_BLOCK), ent_name buf' (k mod LUFIRAFS_DIRENTS_PER_BLOCK)) else slot v (v_ino v d) k)
      k0 (ent_inode (v_blk v (ptr v (v_ino v d) b)) e) name) as [Huniq HR].
  - by apply slot_index.
  - unfold k0. rewrite slot_of by done. by rewrite Hnm.
  - done.
  - rewrite Eb, Ee, Z.eqb_refl. done.
  - intros k Hk Hne. destruct (slot_split _ _ Hk) as (_ & Hs & Ek). destruct (Z.eqb_spec (k / LUFIRAFS_DIRENTS_PER_BLOCK) b) as [E|]; [|done].
    destruct (Hother (k mod LUFIRAFS_DIRENTS_PER_BLOCK) Hs) as [-> ->]; [intros E'; apply Hne; rewrite Ek, E, E'; done|]. unfold slot. by rewrite E.
  - apply Hdir.
  - apply dir_put; try done. intros nm x. etransitivity; [apply HR|]. by rewrite (entry_n _ _ n).
Qed.

(** [remove_dirent] removes exactly the entry of the given name and reports success, or changes
    nothing and fails: then there is no such entry, or the heap refused a buffer. *)
Theorem remove_dirent_correct s g live v d n name : has_view s g live v -> fs_wf g v -> is_ino d -> dir_wf v (v_ino v d) n ->
  wp (remove_dirent d name) (fun r s' => (r = false /\ has_view s' g live v /\ (heap_refuses (HS := HS) \/ forall x, ~ entry v d name x)) \/
    (r = true /\ (exists x, entry v d name x) /\ exists v', has_view s' g live v' /\ dir_changed g v d v' n (fun nm x => nm <> name /\ entry v d nm x))) s.
Proof.
  intros Hv Hwf Hd Hdir. unfold remove_dirent. wstep. apply (wp_read_inode _ _ _ _ _ _ Hv Hd).
  wstep. apply (wp_with_buf _ _ _ _ _ _ _ Hv); [intros Hr; wstep; left; split_and!; [done|done|by left]|]. intros h p Hp Hnl Hv1.
  apply (wp_dir_blocks _ (fun b => forall e, is_slot e -> ent_is (v_blk v (ptr v (v_ino v d) b)) name e = false) _ _ _ _ _ _ _ Hv1 Hwf Hd Hdir).
  - intros b s1 Hb Hv2 Hdat. pose proof (find_ent_spec (ent_is (v_blk v (ptr v (v_ino v d) b)) name)) as Hf.
    destruct (find_ent _) as [e|]; [|wstep; split; [done|done]]. destruct Hf as [He Hm].
    destruct (view_blk_len _ _ _ _ _ Hv Hdat) as [Hbl Hbb]. destruct (dw_blk _ _ _ Hdir b Hb) as [_ Hnok].
    destruct (clear_ent_spec _ e Hbl Hbb He Hnok) as (b1 & b2 & E1 & E2 & Hl' & Hb' & Hn' & Hi' & Ho').
    wstep. eapply wp_lift; [exact E1|]. cbv beta. wstep. eapply wp_lift; [exact E2|]. cbv beta.
    wstep. apply (wp_write_data_block _ _ _ _ _ _ _ Hv2 Hdat Hl' Hb'). intros dk Hv3. wstep.
    eexists. split; [exact Hv3|]. intros h' Hv4. wstep. right. split; [done|]. split; [eexists; by apply (entry_here _ _ n)|].
    eexists. split; [exact Hv4|]. by apply (remove_in_place g v d n b e).
  - intros s1 Hv2 Hall. exists v. split; [done|]. intros h' Hv3. wstep. left. split_and!; [done|done|]. right. by apply (entry_none _ _ n).
Qed.
End ops.

(** * On the small file system *)

(** Inode 2 made an empty directory. *)
Definition demo_dir : inode := mk_inode LUFIRAFS_MODE_DIR 0 2 (replicate 12 0) 0 0 0 493.
Definition demo_dir_view : view := put_ino 2 demo_dir demo_view.
Definition demo_name : list Z := [0x61].

Lemma demo_dir_ok : inode_ok demo_dir.
Proof. split; [|done]. unfold inode_words, demo_dir. cbn. repeat (apply Forall_cons_2; [vm_compute; split; [discriminate|reflexivity]|]). apply Forall_nil_2. Qed.

Lemma is_ino_2 : is_ino 2.
Proof. unfold is_ino, LUFIRAFS_INODE_COUNT. lia. Qed.

Lemma demo_name_ok : name_ok demo_name.
Proof. split; [apply Forall_singleton; unfold is_u8; lia|by apply Forall_singleton|done]. Qed.

Lemma demo_dir_fs_wf : fs_wf demo_geom demo_dir_view.
Proof.
  apply bare_wf. intros j Hj. unfold demo_dir_view. destruct (decide (j = 2)) as [->|Hj2].
  - rewrite put_ino_eq. by split; [apply demo_dir_ok|].
  - rewrite put_ino_ne, demo_inode by done. apply zero_bare.
Qed.

Lemma demo_dir_wf : dir_wf demo_dir_view (v_ino demo_dir_view 2) 0.
Proof. split; [done|done|done|intros b Hb; exfalso; lia|intros k k' Hk; exfalso; lia]. Qed.

Lemma demo_dir_empty name x : ~ entry demo_dir_view 2 name x.
Proof. intros He. apply (proj1 (entry_n _ _ 0 _ _ demo_dir_wf)) in He as (_ & k & Hk & _). lia. Qed.

Lemma demo_add_run : exists s', (lufirafs_write_inode 2 demo_dir;; add_dirent 2 demo_name 5) demo_fs = Some (true, s').
Proof.
  set (m := lufirafs_write_inode 2 demo_dir;; _). assert (fst <$> m demo_fs = Some true) as E by (vm_compute; reflexivity).
  clearbody m. destruct (m demo_fs) as [[a s']|]; [|discriminate]. exists s'. cbn in E. by injection E as ->.
Qed.

(** The state with the empty directory, where adding the entry succeeds. *)
Lemma demo_dir_state : exists s s', has_view s demo_geom ∅ demo_dir_view /\ add_dirent 2 demo_name 5 s = Some (true, s').
Proof.
  destruct demo_add_run as [s' E]. apply bind_inv in E as (a & s & E1 & E2). exists s, s'. split; [|exact E2].
  assert (wp (lufirafs_write_inode 2 demo_dir) (fun _ s => has_view s demo_geom ∅ demo_dir_view) demo_fs) as H.
  { apply (wp_write_inode _ _ _ _ _ _ _ demo_has_view is_ino_2 demo_dir_ok). intros im d Hv. exact Hv. }
  exact (wp_run _ _ _ _ _ H E1).
Qed.

Lemma add_dirent_witness : exists s s', has_view s demo_geom ∅ demo_dir_view /\ add_dirent 2 demo_name 5 s = Some (true, s') /\
  ((true = false /\ has_view s' demo_geom ∅ demo_dir_view /\ (heap_refuses (HS := heap) \/ full demo_geom demo_dir_view)) \/
    (true = true /\ exists v' n', has_view s' demo_geom ∅ v' /\ 0 <= n' <= 0 + 1 /\
       dir_changed demo_geom demo_dir_view 2 v' n' (fun nm x => (nm = demo_name /\ x = 5) \/ entry demo_dir_view 2 nm x))).
Proof.
  destruct demo_dir_state as (s & s' & Hv & E). exists s, s'. split; [exact Hv|]. split; [exact E|].
  assert (is_u32 5) as H5 by (unfold is_u32; lia).
  refine (wp_run _ _ _ _ _ (add_dirent_correct s demo_geom ∅ demo_dir_view 2 0 demo_name 5 Hv demo_dir_fs_wf is_ino_2 demo_dir_wf _
    demo_name_ok H5 _ (demo_dir_empty demo_name)) E); [reflexivity|discriminate].
Defined.

(** A directory with one entry. *)
Lemma demo_one_entry : exists s v n, has_view s demo_geom ∅ v /\ fs_wf demo_geom v /\ dir_wf v (v_ino v 2) n /\ entry v 2 demo_name 5.
Proof.
  destruct demo_dir_state as (s & s' & Hv & E). assert (is_u32 5) as H5 by (unfold is_u32; lia).
  pose proof (add_outcome s demo_geom ∅ demo_dir_view 2 0 demo_name 5 Hv demo_dir_fs_wf is_ino_2 demo_dir_wf ltac:(reflexivity)
    demo_name_ok H5 ltac:(discriminate) (demo_dir_empty demo_name)) as H.
  apply (fun H => wp_run _ _ _ _ _ H E) in H.
  destruct H as [(? & _)|(_ & v' & n' & Hv' & _ & [Hc1 Hc2 _ Hc4 _])]; [discriminate|]. exists s', v', n'. split_and!; [done..|].
  apply Hc4. by left.
Qed.

Lemma lookup_in_dir_witness : exists s v, entry v 2 demo_name 5 /\ wp (lookup_in_dir 2 demo_name) (fun r s' => has_view s' demo_geom ∅ v /\
    match r with Some x => entry v 2 demo_name x | None => heap_refuses (HS := heap) \/ forall x, ~ entry v 2 demo_name x end) s.
Proof.
  destruct demo_one_entry as (s & v & n & Hv & Hwf & Hdir & He). exists s, v. split; [exact He|].
  exact (lookup_in_dir_correct s demo_geom ∅ v 2 n demo_name Hv Hwf is_ino_2 Hdir).
Defined.

Lemma remove_dirent_witness : exists s v n, entry v 2 demo_name 5 /\ wp (remove_dirent 2 demo_name) (fun r s' =>
    (r = false /\ has_view s' demo_geom ∅ v /\ (heap_refuses (HS := heap) \/ forall x, ~ entry v 2 demo_name x)) \/
    (r = true /\ (exists x, entry v 2 demo_name x) /\ exists v', has_view s' demo_geom ∅ v' /\
       dir_changed demo_geom v 2 v' n (fun nm x => nm <> demo_name /\ entry v 2 nm x))) s.
Proof.
  destruct demo_one_entry as (s & v & n & Hv & Hwf & Hdir & He). exists s, v, n. split; [exact He|].
  exact (remove_dirent_correct s demo_geom ∅ v 2 n demo_name Hv Hwf is_ino_2 Hdir).
Defined.
