(* ===== verification/Users.v ===== *)
(** Model of kernel/system/users/users.c: accounts, groups and passwords, kept in tables in memory
    and in the text files /etc/passwd and /etc/group.

    A C string is the list of its bytes before the NUL; a [char] array of n bytes is such a list of
    at most n - 1 bytes. *)

From S2P Require Import Prelude Memory CString Sha256 Interfaces Lufirafs.

Definition MAX_USERS : Z := 32.
Definition MAX_GROUPS : Z := 32.
Definition USERNAME_SIZE : Z := 32.
Definition HOME_SIZE : Z := 64.

Record user_entry := mk_user {
  username : list Z; uuid : Z; ugid : Z; password_salt : Z; password_hash : list Z; home : list Z; in_use : bool;
}.
Record group_entry := mk_group { groupname : list Z; ggid : Z; g_in_use : bool }.

Definition no_user : user_entry := mk_user [] 0 0 0 (replicate 32 0) [] false.
Definition no_group : group_entry := mk_group [] 0 false.

(** * Text *)

Definition copy_bounded (src : list Z) (max_len : Z) : list Z := take (Z.to_nat (max_len - 1)) src.

Definition COLON : Z := 0x3A.
Definition NEWLINE : Z := 0x0A.
Definition HASH : Z := 0x23.

Definition salt_be (salt : Z) : list Z := [u8 (Z.shiftr salt 24); u8 (Z.shiftr salt 16); u8 (Z.shiftr salt 8); u8 salt].

Definition salted_password_hash (salt : Z) (password : list Z) : option (list Z) :=
  ctx ← sha256_update (sha256_init (mk_ctx [] 0 (replicate 64 0) 0)) (salt_be salt);
  ctx ← sha256_update ctx password;
  sha256_final ctx.

(** A character of [digits]. *)
Definition hex_char (d : Z) : Z := if d <? 10 then 48 + d else 87 + d.

Definition format_hex8 (v : Z) : list Z := (fun i => hex_char (Z.land (Z.shiftr v (4 * (7 - i))) 0xF)) <$> seqZ 0 8.

Definition bytes_to_hex (data : list Z) : list Z :=
  concat ((fun b => [hex_char (Z.land (Z.shiftr b 4) 0xF); hex_char (Z.land b 0xF)]) <$> data).

Fixpoint hex_to_bytes (hex : list Z) (n_bytes : nat) : list Z :=
  match n_bytes with
  | O => []
  | S n =>
      match hex_digit (default 0 (zget hex 0)), hex_digit (default 0 (zget hex 1)) with
      | Some hi, Some lo => u8 (Z.lor (Z.shiftl hi 4) lo) :: hex_to_bytes (drop 2 hex) n
      | _, _ => replicate (S n) 0
      end
  end.

(** The digits of [v], least first; a 32-bit number has at most ten. *)
Fixpoint dec_digits (fuel : nat) (v : Z) : list Z :=
  match fuel with
  | O => []
  | S fuel => if v =? 0 then [] else 48 + v mod 10 :: dec_digits fuel (v / 10)
  end.
Definition format_dec (v : Z) : list Z := if v =? 0 then [48] else rev (dec_digits 10 v).

(** What precedes the first [sep], and what follows it if there is one. *)
Fixpoint break_at (sep : Z) (l : list Z) : list Z * option (list Z) :=
  match l with
  | [] => ([], None)
  | c :: l => if c =? sep then ([], Some l) else let '(a, r) := break_at sep l in (c :: a, r)
  end.

(** At most [max_fields] fields; the last one keeps its colons. *)
Fixpoint split_fields (max_fields : nat) (line : list Z) : list (list Z) :=
  match max_fields with
  | O => []
  | S O => [line]
  | S n => match break_at COLON line with
           | (a, Some rest) => a :: split_fields n rest
           | (a, None) => [a]
           end
  end.

(** [atoi] and [hex_to_int] of a string with its NUL. *)
Definition str_atoi (s : list Z) : Z := default 0 (atoi (s ++ [0])).
Definition str_hex (s : list Z) : Z := default 0 (hex_to_int (s ++ [0])).

(** One line of /etc/passwd: username:uid:gid:salt_hex:hash_hex:home *)
Definition parse_user (line : list Z) : option user_entry :=
  match split_fields 6 line with
  | f0 :: f1 :: f2 :: f3 :: f4 :: rest =>
      Some (mk_user (copy_bounded f0 USERNAME_SIZE) (u32 (str_atoi f1)) (u32 (str_atoi f2)) (u32 (str_hex f3)) (hex_to_bytes f4 32)
        (match rest with f5 :: _ => copy_bounded f5 HOME_SIZE | [] => [SLASH] end) true)
  | _ => None
  end.

Definition parse_group_line (line : list Z) : option group_entry :=
  match split_fields 2 line with
  | f0 :: f1 :: _ => Some (mk_group (copy_bounded f0 USERNAME_SIZE) (u32 (str_atoi f1)) true)
  | _ => None
  end.

(** The loop over the lines of a file: at most [room] entries; every round consumes a character, so
    the length of the text is enough fuel. *)
Fixpoint parse_lines {A} (parse : list Z -> option A) (fuel room : nat) (content : list Z) : list A :=
  match fuel, room, content with
  | S fuel, S room', _ :: _ =>
      let '(line, rest) := break_at NEWLINE content in
      let rest := default [] rest in
      if bool_decide (line = []) || (default 0 (zget line 0) =? HASH) then parse_lines parse fuel room rest else
      match parse line with
      | Some e => e :: parse_lines parse fuel room' rest
      | None => parse_lines parse fuel room rest
      end
  | _, _, _ => []
  end.

Definition parse_file {A} (parse : list Z -> option A) (none : A) (max : Z) (content : list Z) : list A :=
  let l := parse_lines parse (length content) (Z.to_nat max) content in
  l ++ replicate (Z.to_nat max - length l) none.

Definition build_user_line (u : user_entry) (cap : Z) : list Z :=
  take (Z.to_nat (cap - 1))
    (username u ++ [COLON] ++ format_dec (uuid u) ++ [COLON] ++ format_dec (ugid u) ++ [COLON] ++ format_hex8 (password_salt u) ++ [COLON] ++
     bytes_to_hex (password_hash u) ++ [COLON] ++ (if bool_decide (home u = []) then [SLASH] else home u) ++ [NEWLINE]).

Definition build_group_line (name : list Z) (gid cap : Z) : list Z :=
  take (Z.to_nat (cap - 1)) (name ++ [COLON] ++ format_dec gid ++ [NEWLINE]).

Definition PASSWD_PATH : list Z := [0x2F; 0x65; 0x74; 0x63; 0x2F; 0x70; 0x61; 0x73; 0x73; 0x77; 0x64].
Definition GROUP_PATH : list Z := [0x2F; 0x65; 0x74; 0x63; 0x2F; 0x67; 0x72; 0x6F; 0x75; 0x70].

(** First entry with property [p], and its index. *)
Fixpoint find_slot {A} (p : A -> bool) (i : Z) (l : list A) : option (Z * A) :=
  match l with
  | [] => None
  | x :: l => if p x then Some (i, x) else find_slot p (i + 1) l
  end.

Section users.
Context {HS DS : Type} `{!BlockAllocator HS} `{!BlockDevice DS}.

(** [ticks] is what [pit_get_ticks] returns. *)
Record users := mk_users {
  g_users : list user_entry; g_groups : list group_entry; salt_counter : Z; ticks : Z; ufs : lufirafs (HS := HS) (DS := DS);
}.

Definition set_users (l : list user_entry) (s : users) : users := mk_users l (g_groups s) (salt_counter s) (ticks s) (ufs s).
Definition set_groups (l : list group_entry) (s : users) : users := mk_users (g_users s) l (salt_counter s) (ticks s) (ufs s).
Definition set_counter (n : Z) (s : users) : users := mk_users (g_users s) (g_groups s) n (ticks s) (ufs s).
Definition set_ufs (f : lufirafs) (s : users) : users := mk_users (g_users s) (g_groups s) (salt_counter s) (ticks s) f.

Definition on_fs {A} (m : M lufirafs A) : M users A := fun s =>
  match m (ufs s) with Some (a, f) => Some (a, set_ufs f s) | None => None end.

Definition generate_salt : M users Z :=
  c ← gets salt_counter;
  let c := u32 (c + 1) in
  modify (set_counter c);;
  t ← gets ticks;
  mret (Z.lxor (Z.lxor (u32 t) (u32 (c * 0x9e3779b9))) 0xA5A5A5A5).

(** The text of a file up to its first NUL; the buffer is released after parsing. *)
Definition read_whole_file {A} (path : list Z) (fail : A) (use : list Z -> A) : M users A :=
  b ← gets (fun s => sb (ufs s));
  r ← on_fs (lufirafs_lookup (root_inode b) path);
  match r with
  | None => mret fail
  | Some ino =>
      t ← on_fs (lufirafs_read_inode ino);
      match t with
      | None => mret fail
      | Some i =>
          p ← on_fs (on_heap (ba_alloc (u32 (size i + 1))));
          if p =? 0 then mret fail else
          '(br, data) ← on_fs (lufirafs_read ino 0 (size i));
          on_fs (on_heap (ba_release p));;
          mret (if br <? 0 then fail else use (cstr data))
      end
  end.

Definition parse_passwd : M users unit :=
  l ← read_whole_file PASSWD_PATH (replicate (Z.to_nat MAX_USERS) no_user) (parse_file parse_user no_user MAX_USERS);
  modify (set_users l).
Definition parse_group : M users unit :=
  l ← read_whole_file GROUP_PATH (replicate (Z.to_nat MAX_GROUPS) no_group) (parse_file parse_group_line no_group MAX_GROUPS);
  modify (set_groups l).
Definition users_init : M users unit := parse_passwd;; parse_group.

Definition is_user (name : list Z) (u : user_entry) : bool := in_use u && bool_decide (username u = name).
Definition users_lookup_by_name (name : list Z) (s : users) : option user_entry := snd <$> find_slot (is_user name) 0 (g_users s).
Definition users_lookup_by_uid (uid : Z) (s : users) : option user_entry :=
  snd <$> find_slot (fun u => in_use u && (uuid u =? uid)) 0 (g_users s).
Definition groups_lookup_by_name (name : list Z) (s : users) : option group_entry :=
  snd <$> find_slot (fun g => g_in_use g && bool_decide (groupname g = name)) 0 (g_groups s).
Definition groups_lookup_by_gid (gid : Z) (s : users) : option group_entry :=
  snd <$> find_slot (fun g => g_in_use g && (ggid g =? gid)) 0 (g_groups s).

Definition users_check_password (name password : list Z) : M users bool :=
  r ← gets (users_lookup_by_name name);
  match r with
  | None => mret false
  | Some u => h ← lift (salted_password_hash (password_salt u) password); mret (bool_decide (h = password_hash u))
  end.

(** The inode of a file and its record. *)
Definition find_file (path : list Z) : M users (option (Z * inode)) :=
  b ← gets (fun s => sb (ufs s));
  r ← on_fs (lufirafs_lookup (root_inode b) path);
  match r with
  | None => mret None
  | Some ino => t ← on_fs (lufirafs_read_inode ino); mret (match t with Some i => Some (ino, i) | None => None end)
  end.

Definition users_add (name : list Z) (uid gid : Z) (password hm : list Z) : M users Z :=
  if bool_decide (name = []) then mret (-1) else
  dup ← gets (users_lookup_by_name name);
  match dup with
  | Some _ => mret (-1)
  | None =>
      tbl ← gets g_users;
      match find_slot (fun u => negb (in_use u)) 0 tbl with
      | None => mret (-1)
      | Some (slot, _) =>
          f ← find_file PASSWD_PATH;
          match f with
          | None => mret (-1)
          | Some (ino, i) =>
              salt ← generate_salt;
              h ← lift (salted_password_hash salt password);
              let u := mk_user (copy_bounded name USERNAME_SIZE) uid gid salt h (copy_bounded (if bool_decide (hm = []) then [SLASH] else hm) HOME_SIZE) true in
              r ← on_fs (lufirafs_write ino (size i) (build_user_line u 256));
              if r <? 0 then mret (-1) else
              on_fs lufirafs_sync;;
              tbl ← gets g_users;
              tbl ← lift (zset tbl slot u);
              modify (set_users tbl);;
              mret 0
          end
      end
  end.

(** The loop over the table that writes one line per user from [offset] on. *)
Fixpoint write_lines (ino : Z) (l : list user_entry) (offset : Z) : M users bool :=
  match l with
  | [] => mret true
  | u :: l =>
      if negb (in_use u) then write_lines ino l offset else
      let line := build_user_line u 256 in
      r ← on_fs (lufirafs_write ino offset line);
      if r <? 0 then mret false else write_lines ino l (u32 (offset + zlen line))
  end.

Definition rewrite_passwd_file : M users Z :=
  b ← gets (fun s => sb (ufs s));
  r ← on_fs (lufirafs_lookup (root_inode b) PASSWD_PATH);
  match r with
  | None => mret (-1)
  | Some ino =>
      t ← on_fs (lufirafs_truncate ino 0);
      if negb (t =? 0) then mret (-1) else
      tbl ← gets g_users;
      ok ← write_lines ino tbl 0;
      if negb ok then mret (-1) else
      on_fs lufirafs_sync;;
      mret 0
  end.

Definition set_password (salt : Z) (h : list Z) (u : user_entry) : user_entry :=
  mk_user (username u) (uuid u) (ugid u) salt h (home u) (in_use u).

Definition users_set_password (name new_password : list Z) : M users Z :=
  tbl ← gets g_users;
  match find_slot (is_user name) 0 tbl with
  | None => mret (-1)
  | Some (i, u) =>
      salt ← generate_salt;
      h ← lift (salted_password_hash salt new_password);
      tbl ← lift (zset tbl i (set_password salt h u));
      modify (set_users tbl);;
      rewrite_passwd_file
  end.

Definition TOOR : list Z := [0x74; 0x6F; 0x6F; 0x72].
Definition users_root_has_default_password : M users bool :=
  r ← gets (users_lookup_by_uid 0);
  match r with
  | None => mret false
  | Some root => h ← lift (salted_password_hash (password_salt root) TOOR); mret (bool_decide (h = password_hash root))
  end.

Definition groups_add (name : list Z) (gid : Z) : M users Z :=
  if bool_decide (name = []) then mret (-1) else
  dup ← gets (groups_lookup_by_name name);
  match dup with
  | Some _ => mret (-1)
  | None =>
      tbl ← gets g_groups;
      match find_slot (fun g => negb (g_in_use g)) 0 tbl with
      | None => mret (-1)
      | Some (slot, _) =>
          f ← find_file GROUP_PATH;
          match f with
          | None => mret (-1)
          | Some (ino, i) =>
              r ← on_fs (lufirafs_write ino (size i) (build_group_line name gid 80));
              if r <? 0 then mret (-1) else
              on_fs lufirafs_sync;;
              tbl ← gets g_groups;
              tbl ← lift (zset tbl slot (mk_group (copy_bounded name USERNAME_SIZE) gid true));
              modify (set_groups tbl);;
              mret 0
          end
      end
  end.

(** The first number from [candidate] on that is not taken; the table has 32 entries, so 33 rounds
    are enough. *)
Fixpoint next_free (taken : Z -> bool) (fuel : nat) (candidate : Z) : option Z :=
  match fuel with
  | O => None
  | S fuel => if taken candidate then next_free taken fuel (u32 (candidate + 1)) else Some candidate
  end.

Definition users_next_free_uid (s : users) : option Z :=
  next_free (fun c => match users_lookup_by_uid c s with Some _ => true | None => false end) 33 1000.
Definition groups_next_free_gid (s : users) : option Z :=
  next_free (fun c => match groups_lookup_by_gid c s with Some _ => true | None => false end) 33 1000.
End users.
