(* ===== verification/UsersText.v ===== *)
(** The text format of /etc/passwd: what [build_user_line] writes, [parse_passwd] reads back. *)

From S2P Require Import Prelude Memory CString Sha256 Interfaces Lufirafs Users.

(** * Splitting *)

Lemma break_at_app sep a r : Forall (fun c => c <> sep) a -> break_at sep (a ++ sep :: r) = (a, Some r).
Proof.
  induction 1 as [|c a Hc _ IH]; cbn; [by rewrite Z.eqb_refl|]. by rewrite (proj2 (Z.eqb_neq c sep) Hc), IH.
Qed.

Lemma break_at_none sep a : Forall (fun c => c <> sep) a -> break_at sep a = (a, None).
Proof. induction 1 as [|c a Hc _ IH]; cbn; [done|]. by rewrite (proj2 (Z.eqb_neq c sep) Hc), IH. Qed.

Lemma split_field n a r : Forall (fun c => c <> COLON) a -> split_fields (S (S n)) (a ++ COLON :: r) = a :: split_fields (S n) r.
Proof. intros Ha. cbn [split_fields]. by rewrite break_at_app. Qed.

(** * Numbers *)

Lemma dec_digits_ok fuel v : 0 <= v -> Forall (fun d => is_digit d = true) (dec_digits fuel v).
Proof.
  revert v. induction fuel as [|fuel IH]; intros v Hv; cbn; [constructor|]. destruct (v =? 0); [constructor|].
  pose proof (Z.mod_pos_bound v 10 ltac:(lia)). constructor; [unfold is_digit; lia|]. apply IH. apply Z.div_pos; lia.
Qed.

Lemma dec_digits_value fuel v : 0 <= v < 10 ^ Z.of_nat fuel -> dec_value (rev (dec_digits fuel v)) = v.
Proof.
  revert v. induction fuel as [|fuel IH]; intros v Hv; cbn [dec_digits]; [cbn in *; unfold dec_value; cbn; lia|].
  destruct (Z.eqb_spec v 0) as [->|Hn]; [done|]. cbn [rev]. rewrite dec_value_snoc, IH.
  - pose proof (Z.div_mod v 10 ltac:(lia)). lia.
  - rewrite Nat2Z.inj_succ, Z.pow_succ_r in Hv by lia. split; [apply Z.div_pos; lia|apply Z.div_lt_upper_bound; lia].
Qed.

Lemma format_dec_ok v : 0 <= v < 2 ^ 32 ->
  Forall (fun d => is_digit d = true) (format_dec v) /\ dec_value (format_dec v) = v /\ format_dec v <> [] /\ (length (format_dec v) <= 10)%nat.
Proof.
  intros Hv. unfold format_dec. destruct (Z.eqb_spec v 0) as [->|Hn].
  { split_and!; [by apply Forall_singleton|done|done|simpl; lia]. }
  split_and!.
  - apply Forall_rev, dec_digits_ok. lia.
  - apply dec_digits_value. change (10 ^ Z.of_nat 10) with 10000000000. lia.
  - cbn [dec_digits]. rewrite (proj2 (Z.eqb_neq v 0) Hn). cbn [rev]. intros E. by destruct (app_cons_not_nil _ _ _ (eq_sym E)).
  - rewrite length_rev. assert (forall f w, (length (dec_digits f w) <= f)%nat) as H; [|apply H].
    induction f as [|f IH]; intros w; cbn; [lia|]. destruct (w =? 0); cbn; [lia|]. specialize (IH (w / 10)). lia.
Qed.

Lemma atoi_format v : 0 <= v < 2 ^ 31 -> str_atoi (format_dec v) = v.
Proof.
  intros Hv. destruct (format_dec_ok v ltac:(lia)) as (Hd & Hval & Hne & _).
  pose proof (atoi_loop_spec (format_dec v) 0 [] 0 Hd eq_refl ltac:(lia)) as Hl. fold (dec_value (format_dec v)) in Hl. rewrite Hval in Hl.
  specialize (Hl ltac:(lia)). unfold str_atoi. destruct (format_dec v) as [|d l]; [done|]. cbn [app atoi] in *.
  assert (is_digit d = true) as Hd1 by (by inversion Hd). unfold is_digit in Hd1.
  rewrite (proj2 (Z.eqb_neq d 45)) by lia. rewrite Hl. cbn. rewrite i32_small by lia. lia.
Qed.

Lemma hex_char_digit d : 0 <= d < 16 -> hex_digit (hex_char d) = Some d /\ hex_char d <> 0.
Proof.
  intros Hd. unfold hex_digit, hex_char. destruct (Z.ltb_spec d 10).
  - rewrite (proj2 (Z.leb_le 48 _)), (proj2 (Z.leb_le _ 57)) by lia. cbn [andb]. split; [f_equal|]; lia.
  - rewrite (proj2 (Z.leb_gt _ 57)), andb_false_r by lia. rewrite (proj2 (Z.leb_le 97 _)), (proj2 (Z.leb_le _ 102)) by lia. cbn [andb].
    split; [f_equal|]; lia.
Qed.

Lemma u32_i32 x : u32 (i32 x) = u32 x.
Proof. unfold u32, i32. rewrite Zminus_mod_idemp_l. f_equal. lia. Qed.
Lemma u32_add x y : u32 (x + y) = u32 (u32 x + y).
Proof. unfold u32. by rewrite Zplus_mod_idemp_l. Qed.
Lemma u32_mul x y : u32 (x * y) = u32 (u32 x * y).
Proof. unfold u32. by rewrite Zmult_mod_idemp_l. Qed.

(** [hex_to_int] on hexadecimal digits, modulo 2^32. *)
Lemma hex_loop_mod ds : forall v, Forall (fun d => 0 <= d < 16) ds ->
  exists r, hex_loop ((hex_char <$> ds) ++ [0]) v = Some r /\ u32 r = u32 (fold_left (fun v d => v * 16 + d) ds v).
Proof.
  induction ds as [|d ds IH]; intros v Hd; cbn [fmap list_fmap app hex_loop fold_left]; [by exists v|].
  inversion_clear Hd as [|? ? Hd1 Hd2]. destruct (hex_char_digit d Hd1) as [E Hn]. rewrite (proj2 (Z.eqb_neq _ _) Hn), E.
  destruct (IH (i32 (i32 (v * 16) + d)) Hd2) as (r & Er & Hr). exists r. split; [exact Er|]. rewrite Hr.
  assert (forall ds x y, u32 x = u32 y -> u32 (fold_left (fun v d => v * 16 + d) ds x) = u32 (fold_left (fun v d => v * 16 + d) ds y)) as Hcong.
  { clear. induction ds as [|d ds IH]; intros x y E; cbn; [done|]. apply IH. rewrite u32_add, u32_mul, E, <- u32_mul, <- u32_add. done. }
  apply Hcong. rewrite u32_i32, u32_add, u32_i32, <- u32_add. done.
Qed.

Lemma nibble v k : 0 <= v -> 0 <= k -> 0 <= Z.land (Z.shiftr v k) 15 < 16 /\
  Z.shiftr v (k + 4) * 16 + Z.land (Z.shiftr v k) 15 = Z.shiftr v k.
Proof.
  intros Hv Hk. change 15 with (Z.ones 4). rewrite Z.land_ones by lia. pose proof (Z.mod_pos_bound (Z.shiftr v k) (2 ^ 4) ltac:(lia)).
  split; [lia|]. rewrite <- Z.shiftr_shiftr by lia. rewrite (Z.shiftr_div_pow2 (Z.shiftr v k) 4) by lia.
  pose proof (Z.div_mod (Z.shiftr v k) (2 ^ 4) ltac:(lia)). lia.
Qed.

Lemma format_hex8_ok v : is_u32 v -> u32 (str_hex (format_hex8 v)) = v.
Proof.
  intros Hv. unfold is_u32 in Hv. unfold str_hex, hex_to_int, format_hex8.
  set (ds := (fun i => Z.land (Z.shiftr v (4 * (7 - i))) 15) <$> seqZ 0 8).
  assert ((fun i => hex_char (Z.land (Z.shiftr v (4 * (7 - i))) 15)) <$> seqZ 0 8 = hex_char <$> ds) as -> by (unfold ds; by rewrite <- list_fmap_compose).
  assert (Forall (fun d => 0 <= d < 16) ds) as Hd.
  { apply Forall_fmap, Forall_forall. intros i Hi%elem_of_seqZ. cbv beta. apply nibble; lia. }
  destruct (hex_loop_mod ds 0 Hd) as (r & -> & Hr). change (u32 r = v). rewrite Hr. unfold ds. change (seqZ 0 8) with [0; 1; 2; 3; 4; 5; 6; 7]. cbn [fmap list_fmap fold_left].
  assert (Z.shiftr v 32 = 0) as H32 by (rewrite Z.shiftr_div_pow2 by lia; apply Z.div_small; lia).
  repeat match goal with |- context [Z.shiftr v (4 * (7 - ?i))] => let k := eval vm_compute in (4 * (7 - i)) in change (4 * (7 - i)) with k end.
  destruct (nibble v 28 ltac:(lia) ltac:(lia)) as [_ E28]. destruct (nibble v 24 ltac:(lia) ltac:(lia)) as [_ E24].
  destruct (nibble v 20 ltac:(lia) ltac:(lia)) as [_ E20]. destruct (nibble v 16 ltac:(lia) ltac:(lia)) as [_ E16].
  destruct (nibble v 12 ltac:(lia) ltac:(lia)) as [_ E12]. destruct (nibble v 8 ltac:(lia) ltac:(lia)) as [_ E8].
  destruct (nibble v 4 ltac:(lia) ltac:(lia)) as [_ E4]. destruct (nibble v 0 ltac:(lia) ltac:(lia)) as [_ E0].
  change (28 + 4) with 32 in E28. change (24 + 4) with 28 in E24. change (20 + 4) with 24 in E20. change (16 + 4) with 20 in E16. change (12 + 4) with 16 in E12. change (8 + 4) with 12 in E8. change (4 + 4) with 8 in E4. change (0 + 4) with 4 in E0.
  rewrite H32 in E28.
  rewrite E28, E24, E20, E16, E12, E8, E4, E0. rewrite Z.shiftr_0_r. by apply u32_small.
Qed.

(** * The password hash *)

Lemma byte_hex b : is_u8 b -> u8 (Z.lor (Z.shiftl (Z.land (Z.shiftr b 4) 0xF) 4) (Z.land b 0xF)) = b /\
  0 <= Z.land (Z.shiftr b 4) 0xF < 16 /\ 0 <= Z.land b 0xF < 16.
Proof.
  intros Hb. unfold is_u8 in Hb. split.
  - assert (forallb (fun b => u8 (Z.lor (Z.shiftl (Z.land (Z.shiftr b 4) 0xF) 4) (Z.land b 0xF)) =? b) (seqZ 0 256) = true) as H by reflexivity.
    rewrite forallb_forall in H. apply Z.eqb_eq, H, list_elem_of_In, elem_of_seqZ. lia.
  - destruct (nibble b 4 ltac:(lia) ltac:(lia)) as [H1 _], (nibble b 0 ltac:(lia) ltac:(lia)) as [H2 _]. by rewrite Z.shiftr_0_r in H2.
Qed.

Lemma bytes_hex_roundtrip data tl : Forall is_u8 data -> hex_to_bytes (bytes_to_hex data ++ tl) (length data) = data.
Proof.
  induction 1 as [|b data Hb _ IH]; [done|]. destruct (byte_hex b Hb) as (E & H1 & H2).
  unfold bytes_to_hex. cbn [fmap list_fmap concat app hex_to_bytes length].
  change (default 0 (zget _ 0)) with (hex_char (Z.land (Z.shiftr b 4) 0xF)). change (default 0 (zget _ 1)) with (hex_char (Z.land b 0xF)).
  destruct (hex_char_digit _ H1) as [-> _], (hex_char_digit _ H2) as [-> _]. rewrite E. cbn [drop]. f_equal. exact IH.
Qed.

(** * A line *)

Record user_ok (u : user_entry) : Prop := {
  uo_name : Forall (fun c => c <> 0 /\ c <> COLON /\ c <> NEWLINE) (username u) /\ username u <> [] /\
    default 0 (zget (username u) 0) <> HASH /\ zlen (username u) < USERNAME_SIZE;
  uo_ids : 0 <= uuid u < 2 ^ 31 /\ 0 <= ugid u < 2 ^ 31;
  uo_salt : is_u32 (password_salt u);
  uo_hash : Forall is_u8 (password_hash u) /\ length (password_hash u) = 32%nat;
  uo_home : Forall (fun c => c <> 0 /\ c <> NEWLINE) (home u) /\ home u <> [] /\ zlen (home u) < HOME_SIZE;
  uo_used : in_use u = true;
}.

(** The line without its newline. *)
Definition user_text (u : user_entry) : list Z :=
  username u ++ COLON :: format_dec (uuid u) ++ COLON :: format_dec (ugid u) ++ COLON :: format_hex8 (password_salt u) ++ COLON ::
  bytes_to_hex (password_hash u) ++ COLON :: home u.

Lemma length_bytes_to_hex l : length (bytes_to_hex l) = (2 * length l)%nat.
Proof. induction l as [|b l IH]; [done|]. unfold bytes_to_hex in *. cbn [fmap list_fmap concat]. rewrite length_app, IH. simpl. lia. Qed.

(** Digits are none of the separators. *)
Definition plain (c : Z) : Prop := c <> 0 /\ c <> COLON /\ c <> NEWLINE.

Lemma plain_dec v : 0 <= v < 2 ^ 32 -> Forall plain (format_dec v).
Proof.
  intros Hv. destruct (format_dec_ok v Hv) as [Hd _]. eapply Forall_impl; [exact Hd|]. intros c Hc. unfold is_digit in Hc.
  unfold plain, COLON, NEWLINE. lia.
Qed.

Lemma plain_hex d : 0 <= d < 16 -> plain (hex_char d).
Proof. intros Hd. unfold plain, hex_char, COLON, NEWLINE. destruct (d <? 10) eqn:E; lia. Qed.

Lemma plain_hex8 v : 0 <= v -> Forall plain (format_hex8 v).
Proof. intros Hv. apply Forall_fmap, Forall_forall. intros i Hi%elem_of_seqZ. apply plain_hex, nibble; lia. Qed.

Lemma plain_bytes l : Forall is_u8 l -> Forall plain (bytes_to_hex l).
Proof.
  intros Hl. apply Forall_concat, Forall_fmap. eapply Forall_impl; [exact Hl|]. intros b Hb.
  destruct (byte_hex b Hb) as (_ & H1 & H2). apply Forall_cons_2; [by apply plain_hex|]. apply Forall_singleton. by apply plain_hex.
Qed.

Lemma plain_colon l : Forall plain l -> Forall (fun c => c <> COLON) l.
Proof. intros H. eapply Forall_impl; [exact H|]. by intros c (_ & ? & _). Qed.

Lemma user_line u : user_ok u -> build_user_line u 256 = user_text u ++ [NEWLINE].
Proof.
  intros [(Hn & _ & _ & Hl) [Hu Hg] Hs [Hh Hhl] (Hm & Hne & Hml) _]. unfold build_user_line. rewrite bool_decide_false by done.
  destruct (format_dec_ok (uuid u) ltac:(lia)) as (_ & _ & _ & L1), (format_dec_ok (ugid u) ltac:(lia)) as (_ & _ & _ & L2).
  unfold USERNAME_SIZE, HOME_SIZE, zlen in *. rewrite take_ge.
  - unfold user_text. cbn [app]. repeat (rewrite <- app_assoc; cbn [app]). done.
  - rewrite !length_app, length_bytes_to_hex, Hhl. unfold format_hex8. rewrite length_fmap, length_seqZ. cbn [length]. lia.
Qed.

Lemma parse_user_text u : user_ok u -> parse_user (user_text u) = Some u.
Proof.
  intros [(Hn & Hn0 & _ & Hl) [Hu Hg] Hs [Hh Hhl] (Hm & Hne & Hml) Huse]. unfold parse_user, user_text.
  assert (Forall plain (username u)) as Hpn by exact Hn. unfold USERNAME_SIZE, HOME_SIZE, zlen in *.
  rewrite (split_field 4) by exact (plain_colon _ Hpn). rewrite (split_field 3) by (apply plain_colon, plain_dec; lia).
  rewrite (split_field 2) by (apply plain_colon, plain_dec; lia). rewrite (split_field 1) by (apply plain_colon, plain_hex8; apply Hs).
  rewrite (split_field 0) by (by apply plain_colon, plain_bytes). cbn [split_fields].
  unfold copy_bounded. rewrite !take_ge by (unfold USERNAME_SIZE, HOME_SIZE; lia). rewrite !atoi_format by lia. rewrite format_hex8_ok by done.
  rewrite !u32_small by (unfold is_u32; lia). rewrite <- Hhl at 1. rewrite <- (app_nil_r (bytes_to_hex _)), bytes_hex_roundtrip by done.
  destruct u; cbn in *; by subst.
Qed.

(** * The whole file *)

Lemma parse_lines_nil {A} (parse : list Z -> option A) fuel room : parse_lines parse fuel room [] = [].
Proof. by destruct fuel, room. Qed.

(** A line that stands for [e], followed by the rest of the text. *)
Lemma parse_lines_cons {A} (parse : list Z -> option A) fuel room line rest e : Forall (fun c => c <> NEWLINE) line ->
  line <> [] -> default 0 (zget line 0) <> HASH -> parse line = Some e ->
  parse_lines parse (S fuel) (S room) (line ++ NEWLINE :: rest) = e :: parse_lines parse fuel room rest.
Proof.
  intros Hl Hne Hh He. cbn [parse_lines]. destruct (line ++ NEWLINE :: rest) as [|c l] eqn:E; [by destruct line|].
  rewrite <- E, break_at_app by done. cbn [default from_option id].
  rewrite bool_decide_false by done. rewrite (proj2 (Z.eqb_neq _ _) Hh). cbn [orb]. by rewrite He.
Qed.

Lemma parse_lines_fuel {A} (parse : list Z -> option A) lines : forall es fuel room rest,
  Forall2 (fun line e => Forall (fun c => c <> NEWLINE) line /\ line <> [] /\ default 0 (zget line 0) <> HASH /\ parse line = Some e) lines es ->
  (length lines <= fuel)%nat -> (length lines <= room)%nat ->
  parse_lines parse fuel room (concat ((fun l => l ++ [NEWLINE]) <$> lines) ++ rest) =
  es ++ parse_lines parse (fuel - length lines) (room - length lines) rest.
Proof.
  induction lines as [|line lines IH]; intros es fuel room rest H Hf Hr; inversion H as [|? e ? es' (H1 & H2 & H3 & H4) Hrest]; subst.
  { cbn. by rewrite !Nat.sub_0_r. }
  destruct fuel as [|fuel]; [simpl in Hf; lia|]. destruct room as [|room]; [simpl in Hr; lia|].
  cbn [fmap list_fmap concat]. rewrite <- !app_assoc. cbn [app]. rewrite (parse_lines_cons _ _ _ _ _ e) by done.
  cbn [app length Nat.sub]. f_equal. apply IH; [done|simpl in Hf; lia|simpl in Hr; lia].
Qed.

Lemma user_text_line u : user_ok u -> Forall (fun c => c <> NEWLINE) (user_text u) /\ user_text u <> [] /\ default 0 (zget (user_text u) 0) <> HASH.
Proof.
  intros [(Hn & Hne & Hhash & _) [Hu Hg] Hs [Hh _] (Hm & _) _].
  assert (forall l, Forall plain l -> Forall (fun c => c <> NEWLINE) l) as Hp.
  { intros l H. eapply Forall_impl; [exact H|]. by intros c (_ & _ & ?). }
  assert (Forall (fun c => c <> NEWLINE) (home u)) as Hhome by (eapply Forall_impl; [exact Hm|]; by intros c [_ ?]).
  split_and!.
  - unfold user_text. apply Forall_app_2; [by apply Hp|]. apply Forall_cons_2; [done|].
    apply Forall_app_2; [apply Hp, plain_dec; lia|]. apply Forall_cons_2; [done|].
    apply Forall_app_2; [apply Hp, plain_dec; lia|]. apply Forall_cons_2; [done|].
    apply Forall_app_2; [apply Hp, plain_hex8, Hs|]. apply Forall_cons_2; [done|].
    apply Forall_app_2; [by apply Hp, plain_bytes|]. by apply Forall_cons_2.
  - unfold user_text. by destruct (username u).
  - unfold user_text. by destruct (username u).
Qed.

Lemma length_user_lines us : (length us <= length (concat ((fun u => build_user_line u 256) <$> us)))%nat \/ Exists (fun u => build_user_line u 256 = []) us.
Proof.
  induction us as [|u us [IH|IH]]; [by left| |right; by apply Exists_cons_tl]. rewrite fmap_cons. cbn [concat length]. rewrite length_app.
  destruct (build_user_line u 256) as [|c l] eqn:E; [right; by apply Exists_cons_hd|left]. cbn [length]. lia.
Qed.

(** Text of a table of users. *)
Definition passwd_text (us : list user_entry) : list Z := concat ((fun u => build_user_line u 256) <$> us).

Lemma passwd_text_lines us : Forall user_ok us -> passwd_text us = concat ((fun l => l ++ [NEWLINE]) <$> (user_text <$> us)).
Proof.
  intros H. unfold passwd_text. f_equal. rewrite <- list_fmap_compose. apply list_fmap_ext. intros i u Hu. cbv beta.
  apply user_line. by eapply Forall_lookup_1.
Qed.

Lemma passwd_parse us rest fuel : Forall user_ok us -> (length us <= fuel)%nat -> (length us <= Z.to_nat MAX_USERS)%nat ->
  parse_lines parse_user fuel (Z.to_nat MAX_USERS) (passwd_text us ++ rest) =
  us ++ parse_lines parse_user (fuel - length us) (Z.to_nat MAX_USERS - length us) rest.
Proof.
  intros Hus Hf Hl. rewrite passwd_text_lines by done.
  rewrite (parse_lines_fuel parse_user (user_text <$> us) us); [by rewrite length_fmap| |by rewrite length_fmap|by rewrite length_fmap].
  apply Forall2_fmap_l, Forall_Forall2_diag. eapply Forall_impl; [exact Hus|]. intros u Hu.
  destruct (user_text_line u Hu) as (H1 & H2 & H3). split_and!; [done|done|done|by apply parse_user_text].
Qed.

(** C36: The text of any table of well-formed accounts (names without separators that fit their arrays,
    ids below 2^31, any salt, digest and home) parses back to exactly this table, in order, with the
    remaining slots free: no account is lost, merged or changed by a restart. *)
Theorem passwd_roundtrip us : Forall user_ok us -> zlen us <= MAX_USERS ->
  parse_file parse_user no_user MAX_USERS (passwd_text us) = us ++ replicate (Z.to_nat MAX_USERS - length us) no_user.
Proof.
  intros Hus Hl. unfold parse_file. assert (length us <= length (passwd_text us))%nat as Hf.
  { destruct (length_user_lines us) as [H|H]; [exact H|]. exfalso. apply Exists_exists in H as (u & Hin & E).
    rewrite user_line in E by (by eapply Forall_forall). symmetry in E. by apply app_cons_not_nil in E. }
  assert (length us <= Z.to_nat MAX_USERS)%nat as Hl' by (unfold zlen in Hl; lia).
  pose proof (passwd_parse us [] (length (passwd_text us)) Hus Hf Hl') as H. rewrite app_nil_r, parse_lines_nil, app_nil_r in H. by rewrite H.
Qed.

Definition demo_user : user_entry := mk_user [0x62; 0x6F; 0x62] 1000 1001 0xDEADBEEF (replicate 32 0xA7) [0x2F; 0x62] true.

Lemma demo_user_ok : user_ok demo_user.
Proof.
  split.
  - split_and!; [|done|done|done]. repeat (apply Forall_cons_2; [by split_and!|]). apply Forall_nil_2.
  - cbn. lia.
  - unfold is_u32. cbn. lia.
  - split; [|done]. apply Forall_replicate. unfold is_u8. lia.
  - split_and!; [|done|done]. repeat (apply Forall_cons_2; [by split_and!|]). apply Forall_nil_2.
  - done.
Qed.

Lemma passwd_roundtrip_witness : parse_file parse_user no_user MAX_USERS (passwd_text [demo_user; demo_user]) =
  [demo_user; demo_user] ++ replicate (Z.to_nat MAX_USERS - 2) no_user.
Proof.
  apply (passwd_roundtrip [demo_user; demo_user]); [|vm_compute; discriminate].
  apply Forall_cons_2; [exact demo_user_ok|]. apply Forall_cons_2; [exact demo_user_ok|apply Forall_nil_2].
Defined.

(** A name with a newline: "x", newline, "r:0:0:0:0". *)
Definition evil_name : list Z := [0x78; 0x0A; 0x72; 0x3A; 0x30; 0x3A; 0x30; 0x3A; 0x30; 0x3A; 0x30; 0x3A].

(** [users_add] writes a name as it is given: one with a newline in it becomes, at the next start,
    an account of its own, here one with uid 0 that was never created. *)
Theorem passwd_injection : exists u rest, let line := build_user_line (mk_user evil_name 1000 1000 0 (replicate 32 0) [SLASH] true) 256 in
  parse_file parse_user no_user MAX_USERS line = u :: rest /\ in_use u = true /\ username u = [0x72] /\ uuid u = 0 /\ ugid u = 0.
Proof. eexists _, _. cbv zeta. split; [vm_compute; reflexivity|]. by split_and!. Qed.
