(* ===== verification/UsersLogin.v ===== *)
(** Accounts and passwords: whom [users_check_password] admits, and what [users_add] does to the table
    in memory and to the file /etc/passwd. *)

From S2P Require Import Prelude Memory CString Sha256 Interfaces Heap Ramdisk Lufirafs LufirafsView LufirafsDisk LufirafsDemo LufirafsFile LufirafsDir Users UsersText.

(** * Passwords *)

Lemma salted_hash_spec salt pw : salted_password_hash salt pw = Some (sha256_spec (salt_be salt ++ pw)) /\
  length (sha256_spec (salt_be salt ++ pw)) = 32%nat /\ Forall is_u8 (sha256_spec (salt_be salt ++ pw)).
Proof.
  unfold salted_password_hash. set (c := mk_ctx _ _ _ _).
  destruct (updates_rep [salt_be salt; pw] _ _ (init_rep c eq_refl)) as (c' & E & Hr). cbn [sha256_updates concat app] in *.
  rewrite app_nil_r in Hr. split; [|apply digest_shape, absorb_shape; done].
  destruct (sha256_update (sha256_init c) (salt_be salt)) as [c1|]; [|discriminate]. cbn [mbind option_bind] in *.
  destruct (sha256_update c1 pw) as [c2|]; [|discriminate]. cbn [mbind option_bind] in *. injection E as ->. by apply final_spec.
Qed.

Lemma find_slot_Some {A} (p : A -> bool) l : forall i j x, find_slot p i l = Some (j, x) ->
  i <= j < i + zlen l /\ l !! Z.to_nat (j - i) = Some x /\ p x = true /\ forall k y, (k < Z.to_nat (j - i))%nat -> l !! k = Some y -> p y = false.
Proof.
  induction l as [|y l IH]; intros i j x H; cbn in H; [done|]. unfold zlen in *. cbn [length]. destruct (p y) eqn:Ep.
  - injection H as <- <-. rewrite Z.sub_diag. split_and!; [lia|lia|done|done|]. intros k y' Hk. cbn in Hk. lia.
  - destruct (IH _ _ _ H) as (H1 & H2 & H3 & H4). replace (Z.to_nat (j - i)) with (S (Z.to_nat (j - (i + 1)))) by lia.
    split_and!; [lia|lia|done|done|]. intros [|k] y' Hk Hy; cbn in Hy; [congruence|]. apply (H4 k); [lia|done].
Qed.

Lemma find_slot_None {A} (p : A -> bool) l i : find_slot p i l = None -> Forall (fun x => p x = false) l.
Proof.
  revert i. induction l as [|y l IH]; intros i H; cbn in H; [constructor|]. destruct (p y) eqn:E; [done|]. constructor; [done|]. by eapply IH.
Qed.

(** A table changed at a slot: entries without property [p] do not matter. *)
Lemma find_slot_insert {A} (p : A -> bool) l : forall i k x, (k < length l)%nat -> Forall (fun y => p y = false) (take k l) ->
  p x = true -> find_slot p i (<[k := x]> l) = Some (i + Z.of_nat k, x).
Proof.
  induction l as [|y l IH]; intros i k x Hk Hf Hp; [cbn in Hk; lia|]. destruct k as [|k]; cbn.
  - rewrite Hp. by rewrite Z.add_0_r.
  - cbn in Hf. inversion_clear Hf as [|? ? Hy Hf']. rewrite Hy. rewrite IH; [do 2 f_equal; lia|cbn in Hk; lia|done|done].
Qed.

Lemma find_slot_insert_ne {A} (p : A -> bool) l : forall i k x y, l !! k = Some y -> p x = false -> p y = false ->
  snd <$> find_slot p i (<[k := x]> l) = snd <$> find_slot p i l.
Proof.
  induction l as [|z l IH]; intros i k x y Hk Hx Hy; [done|]. destruct k as [|k]; cbn in *.
  - injection Hk as ->. by rewrite Hx, Hy.
  - destruct (p z); [done|]. by eapply IH.
Qed.

(** * Free numbers *)

Lemma next_free_Some taken fuel : forall c, 0 <= c -> c + Z.of_nat fuel < 2 ^ 32 ->
  match next_free taken fuel c with
  | Some u => c <= u < c + Z.of_nat fuel /\ taken u = false /\ forall k, c <= k < u -> taken k = true
  | None => forall k, c <= k < c + Z.of_nat fuel -> taken k = true
  end.
Proof.
  induction fuel as [|fuel IH]; intros c Hc Hb; cbn [next_free]; [intros; lia|]. destruct (taken c) eqn:E.
  - rewrite u32_small by (unfold is_u32; lia). specialize (IH (c + 1) ltac:(lia) ltac:(lia)). destruct (next_free taken fuel (c + 1)) as [u|].
    + destruct IH as (H1 & H2 & H3). split_and!; [lia|lia|done|]. intros k Hk. destruct (decide (k = c)) as [->|]; [done|]. apply H3. lia.
    + intros k Hk. destruct (decide (k = c)) as [->|]; [done|]. apply IH. lia.
  - split_and!; [lia|lia|done|]. intros k Hk. lia.
Qed.

Section login.
Context {HS DS : Type} `{!BlockAllocator HS} `{!BlockDevice DS}.
Implicit Types (s : users (HS := HS) (DS := DS)) (g : geom) (v : view).

Lemma uid_taken s c u : users_lookup_by_uid c s = Some u -> c ∈ uuid <$> g_users s.
Proof.
  unfold users_lookup_by_uid. destruct (find_slot _ 0 _) as [[i x]|] eqn:E; [|done]. intros _.
  apply find_slot_Some in E as (_ & Hx & Hp & _). apply andb_true_iff in Hp as [_ Hp%Z.eqb_eq]. rewrite <- Hp.
  apply list_elem_of_fmap. exists x. split; [done|]. by eapply list_elem_of_lookup_2.
Qed.

(** [users_next_free_uid] stops within 33 rounds, whatever the table holds, at a number from 1000
    on that no account in use has, and it is the least such number. *)
Theorem users_next_free_uid_correct s : length (g_users s) = Z.to_nat MAX_USERS ->
  exists u, users_next_free_uid s = Some u /\ 1000 <= u <= 1032 /\ users_lookup_by_uid u s = None /\
    forall k, 1000 <= k < u -> users_lookup_by_uid k s <> None.
Proof.
  intros Hl. unfold users_next_free_uid. set (taken := fun c => match users_lookup_by_uid c s with Some _ => true | None => false end).
  pose proof (next_free_Some taken 33 1000 ltac:(lia) ltac:(lia)) as H. destruct (next_free taken 33 1000) as [u|].
  - destruct H as (H1 & H2 & H3). exists u. split_and!; [done|lia|lia| |].
    + unfold taken in H2. by destruct (users_lookup_by_uid u s).
    + intros k Hk E. specialize (H3 k Hk). unfold taken in H3. by rewrite E in H3.
  - exfalso. assert (incl (seqZ 1000 33) (uuid <$> g_users s)) as Hincl.
    { intros k Hk%list_elem_of_In%elem_of_seqZ. apply list_elem_of_In. specialize (H k ltac:(lia)). unfold taken in H.
      destruct (users_lookup_by_uid k s) as [x|] eqn:E; [|done]. by eapply uid_taken. }
    assert (List.NoDup (seqZ 1000 33)) as Hnd by (apply NoDup_ListNoDup, NoDup_seqZ).
    pose proof (NoDup_incl_length Hnd Hincl) as Hlen. rewrite length_fmap, Hl, length_seqZ in Hlen. unfold MAX_USERS in Hlen. lia.
Qed.

Lemma users_check_password_outcome s name password :
  users_check_password name password s = Some (match users_lookup_by_name name s with
    | Some u => bool_decide (sha256_spec (salt_be (password_salt u) ++ password) = password_hash u)
    | None => false
    end, s).
Proof.
  unfold users_check_password, gets, lift, mbind, M_bind. destruct (users_lookup_by_name name s) as [u|]; [|done].
  by rewrite (proj1 (salted_hash_spec (password_salt u) password)).
Qed.

(** A login is accepted exactly when the first account of that name has the digest of its salt
    followed by the password; unknown names are refused, and checking changes nothing. *)
Theorem users_check_password_correct s name password :
  users_check_password name password s = Some (match users_lookup_by_name name s with
    | Some u => bool_decide (sha256_spec (salt_be (password_salt u) ++ password) = password_hash u)
    | None => false
    end, s).
Proof. apply users_check_password_outcome. Qed.

(** The account put in a free slot is the one its name finds, if the name is not cut. *)
Lemma added_found s s' name uid gid password hm salt slot old : zlen name < USERNAME_SIZE -> users_lookup_by_name name s = None ->
  g_users s !! slot = Some old -> g_users s' = <[slot := mk_user (copy_bounded name USERNAME_SIZE) uid gid salt password hm true]> (g_users s) ->
  users_lookup_by_name name s' = Some (mk_user (copy_bounded name USERNAME_SIZE) uid gid salt password hm true).
Proof.
  intros Hlen Hno Hold Etbl. unfold users_lookup_by_name in *. destruct (find_slot (is_user name) 0 (g_users s)) eqn:E; [done|].
  apply find_slot_None in E. rewrite Etbl. rewrite find_slot_insert; [done|by eapply lookup_lt_Some|by apply Forall_take|].
  unfold is_user. cbn [in_use username andb]. apply bool_decide_eq_true. unfold copy_bounded. apply take_ge. unfold zlen, USERNAME_SIZE in *. lia.
Qed.

(** * Finding the file *)

Definition ETC : list Z := [0x65; 0x74; 0x63].
Definition PASSWD : list Z := [0x70; 0x61; 0x73; 0x73; 0x77; 0x64].

(** In view [v], /etc/passwd is inode [ino]. *)
Record passwd_at v (root ino : Z) : Prop := {
  pa_root : is_ino root /\ exists n, dir_wf v (v_ino v root) n;
  pa_ino : is_ino ino;
  pa_etc : exists e, entry v root ETC e /\ is_ino e /\ (exists n, dir_wf v (v_ino v e) n) /\ entry v e PASSWD ino;
}.

Lemma entry_fun v d n name x y : dir_wf v (v_ino v d) n -> entry v d name x -> entry v d name y -> x = y.
Proof.
  intros Hd Hx Hy. apply (proj1 (entry_n _ _ _ _ _ Hd)) in Hx as (Hx0 & k & Hk & Ex). apply (proj1 (entry_n _ _ _ _ _ Hd)) in Hy as (Hy0 & k' & Hk' & Ey).
  assert (k = k') as <- by (apply (dw_uniq _ _ _ Hd); rewrite ?Ex, ?Ey; done). congruence.
Qed.

(** One step of a path. *)
Lemma lookup_step (f : lufirafs (HS := HS) (DS := DS)) g live v d n name x : has_view f g live v -> fs_wf g v -> is_ino d -> dir_wf v (v_ino v d) n ->
  entry v d name x -> wp (lookup_in_dir d name) (fun r f' => has_view f' g live v /\ (r = Some x \/ r = None /\ heap_refuses (HS := HS))) f.
Proof.
  intros Hv Hwf Hd Hdir He. eapply wp_mono; [by apply (lookup_outcome _ _ _ _ _ n name Hv Hwf Hd Hdir)|]. intros r f' [Hv' Hr]. split; [done|].
  destruct r as [y|]; [left; f_equal; by eapply entry_fun|]. destruct Hr as [|Hno]; [by right|]. by destruct (Hno x).
Qed.

Lemma lookup_passwd (f : lufirafs (HS := HS) (DS := DS)) g live v root ino : has_view f g live v -> fs_wf g v -> passwd_at v root ino -> root_inode (sb f) = root ->
  wp (lufirafs_lookup root PASSWD_PATH) (fun r f' => has_view f' g live v /\ (r = Some ino \/ r = None /\ heap_refuses (HS := HS))) f.
Proof.
  intros Hv Hwf [[Hr [n Hrd]] Hino (e & He & Hei & [n' Hed] & Hp)] Eroot. unfold lufirafs_lookup. wstep. wstep. rewrite Eroot.
  change (wp (next ← lookup_in_dir root ETC; match next with None => mret None | Some next => lookup_loop 10 next PASSWD end)
    (fun r f' => has_view f' g live v /\ (r = Some ino \/ r = None /\ heap_refuses (HS := HS))) f).
  wstep. eapply wp_mono; [by apply (lookup_step _ g live v root n ETC e)|]. cbv beta. intros r f1 [Hv1 [->|[-> Hh]]]; [|wstep; split; [done|by right]].
  change (wp (next ← lookup_in_dir e PASSWD; match next with None => mret None | Some next => lookup_loop 9 next [] end)
    (fun r f' => has_view f' g live v /\ (r = Some ino \/ r = None /\ heap_refuses (HS := HS))) f1).
  wstep. eapply wp_mono; [by apply (lookup_step _ g live v e n' PASSWD ino)|]. cbv beta. intros r f2 [Hv2 [->|[-> Hh]]]; [|wstep; split; [done|by right]].
  cbn [lookup_loop]. wstep. split; [done|by left].
Qed.

Lemma wp_on_fs {A} (m : M lufirafs A) (Q : A -> users -> Prop) s : wp m (fun a f => Q a (set_ufs f s)) (ufs s) -> wp (on_fs m) Q s.
Proof. unfold wp, on_fs. by destruct (m (ufs s)) as [[a f]|]. Qed.

Lemma find_passwd s g live v ino : has_view (ufs s) g live v -> fs_wf g v -> passwd_at v (root_inode (sb (ufs s))) ino ->
  wp (find_file PASSWD_PATH) (fun r s' => exists f, s' = set_ufs f s /\ has_view f g live v /\
    (r = Some (ino, v_ino v ino) \/ r = None /\ heap_refuses (HS := HS))) s.
Proof.
  intros Hv Hwf Hat. unfold find_file. wstep. wstep. wstep. apply wp_on_fs.
  eapply wp_mono; [by apply (lookup_passwd _ g live v _ ino Hv Hwf Hat)|]. cbv beta. intros r f [Hv' [->|[-> Hh]]].
  - wstep. apply wp_on_fs. apply (wp_read_inode _ _ _ _ _ _ Hv' (pa_ino _ _ _ Hat)). wstep. exists f. split; [by destruct s|]. split; [done|by left].
  - wstep. exists f. split; [done|]. split; [done|by right].
Qed.

(** * Adding an account *)

Lemma u32_of_bits x : (forall i, 32 <= i -> Z.testbit x i = false) -> is_u32 x.
Proof.
  intros H. assert (x mod 2 ^ 32 = x) as <-; [|by apply Z.mod_pos_bound].
  apply Z.bits_inj'. intros i Hi. destruct (decide (i < 32)); [apply Z.mod_pow2_bits_low; lia|].
  rewrite Z.mod_pow2_bits_high by lia. symmetry. apply H. lia.
Qed.

Lemma u32_bit x i : is_u32 x -> 32 <= i -> Z.testbit x i = false.
Proof. intros Hx Hi. rewrite <- (u32_small x Hx). apply Z.mod_pow2_bits_high. lia. Qed.

Lemma lxor_u32 x y : is_u32 x -> is_u32 y -> is_u32 (Z.lxor x y).
Proof. intros Hx Hy. apply u32_of_bits. intros i Hi. by rewrite Z.lxor_spec, !u32_bit. Qed.

Lemma plain_u8 l : Forall (fun c => 0 <= c < 128) l -> Forall is_u8 l.
Proof. intros H. eapply Forall_impl; [exact H|]. unfold is_u8. lia. Qed.

Lemma line_u8 u cap : Forall is_u8 (username u) -> 0 <= uuid u < 2 ^ 32 -> 0 <= ugid u < 2 ^ 32 -> is_u32 (password_salt u) ->
  Forall is_u8 (password_hash u) -> Forall is_u8 (home u) -> Forall is_u8 (build_user_line u cap).
Proof.
  intros Hn Hu Hg Hs Hh Hm. unfold build_user_line. apply Forall_take.
  assert (forall w, 0 <= w < 2 ^ 32 -> Forall is_u8 (format_dec w)) as Hdec.
  { intros w Hw. destruct (format_dec_ok w Hw) as [Hd _]. eapply Forall_impl; [exact Hd|]. intros c Hc. unfold is_digit in Hc. unfold is_u8. lia. }
  assert (forall d, 0 <= d < 16 -> is_u8 (hex_char d)) as Hhex by (intros d Hd; unfold hex_char, is_u8; destruct (d <? 10) eqn:E; lia).
  assert (forall c l, is_u8 c -> Forall is_u8 l -> Forall is_u8 ([c] ++ l)) as Hsep by (intros c l Hc Hl; by apply Forall_cons_2).
  repeat (apply Forall_app_2; [|apply Hsep; [done|]]); auto.
  - apply Forall_fmap, Forall_forall. intros i Hi%elem_of_seqZ. apply Hhex, nibble; [apply Hs|lia].
  - apply Forall_concat, Forall_fmap. eapply Forall_impl; [exact Hh|]. intros b Hb. destruct (byte_hex b Hb) as (_ & H1 & H2).
    apply Forall_cons_2; [by apply Hhex|]. apply Forall_singleton. by apply Hhex.
  - case_bool_decide; [by apply Forall_singleton|done].
Qed.

(** The account [users_add] makes, up to its salt. *)
Definition new_user (name : list Z) (uid gid : Z) (password hm : list Z) (salt : Z) : user_entry :=
  mk_user (copy_bounded name USERNAME_SIZE) uid gid salt (sha256_spec (salt_be salt ++ password))
    (copy_bounded (if bool_decide (hm = []) then [SLASH] else hm) HOME_SIZE) true.

Lemma generate_salt_outcome s : wp generate_salt (fun salt s' => is_u32 salt /\ exists c, s' = set_counter c s) s.
Proof.
  unfold generate_salt. do 6 wstep. split; [|eauto]. apply lxor_u32; [apply lxor_u32; apply u32_range|]. unfold is_u32. lia.
Qed.

Lemma new_user_u8 name uid gid pw hm salt : Forall is_u8 name -> Forall is_u8 hm -> is_u32 uid -> is_u32 gid -> is_u32 salt ->
  Forall is_u8 (build_user_line (new_user name uid gid pw hm salt) 256).
Proof.
  intros Hn Hm Hu Hg Hs. apply line_u8; cbn; [by apply Forall_take|done|done|done|apply (salted_hash_spec salt pw)|].
  unfold copy_bounded. apply Forall_take. case_bool_decide; [by apply Forall_singleton|done].
Qed.

(** Why an account may not be added. *)
Definition add_refused s g v ino (name line : list Z) : Prop :=
  name = [] \/ users_lookup_by_name name s <> None \/ Forall (fun u => in_use u = true) (g_users s) \/
  heap_refuses (HS := HS) \/ full g v \/ LUFIRAFS_MAX_FILE_SIZE < size (v_ino v ino) + zlen line.

(** Outcome of the file write and the update of the table at [slot]. *)
Lemma add_commit s g live v ino u slot : has_view (ufs s) g live v -> fs_wf g v -> is_ino ino -> Forall is_u8 (build_user_line u 256) ->
  0 <= slot < zlen (g_users s) ->
  wp (r ← on_fs (lufirafs_write ino (size (v_ino v ino)) (build_user_line u 256));
      if r <? 0 then mret (-1) else
      on_fs lufirafs_sync;;
      tbl ← gets g_users;
      tbl ← lift (zset tbl slot u);
      modify (set_users tbl);;
      mret 0)
    (fun r s' => exists n v', has_view (ufs s') g live v' /\
      ((r = -1 /\ n = 0 /\ (v' = v \/ file_written (HS := HS) g v ino (size (v_ino v ino)) (build_user_line u 256) 0 v') /\ g_users s' = g_users s /\
          (heap_refuses (HS := HS) \/ full g v' \/ LUFIRAFS_MAX_FILE_SIZE < size (v_ino v ino) + zlen (build_user_line u 256))) \/
       (r = 0 /\ file_written (HS := HS) g v ino (size (v_ino v ino)) (build_user_line u 256) n v' /\ g_users s' = <[Z.to_nat slot := u]> (g_users s)))) s.
Proof.
  intros Hv Hwf Hino Hby Hslot. pose proof (fw_ok _ _ Hwf ino Hino) as Hok.
  assert (0 <= size (v_ino v ino)) as Hsz by (pose proof (io_words _ Hok) as Hw; inversion_clear Hw as [|? ? _ Hw']; inversion_clear Hw' as [|? ? Hx _]; apply Hx).
  wstep. apply wp_on_fs. eapply wp_mono; [by apply (write_outcome _ _ _ _ ino (size (v_ino v ino)) (build_user_line u 256) Hv Hwf Hino)|]. cbv beta.
  intros r f [(-> & Hv' & Hwhy)|(n & v' & Hv' & Hf & ->)].
  { change (-1 <? 0) with true. cbv iota. wstep. exists 0, v. split; [done|]. left. split_and!; [done|done|by left|done|]. destruct Hwhy as [?|?]; auto. }
  destruct (fl_n _ _ _ _ _ _ _ Hf) as [[Hn Hn'] _].
  destruct (Z.eqb_spec n 0) as [->|Hn0]; [destruct (Z.eqb_spec (zlen (build_user_line u 256)) 0) as [E|Hne]|]; cbn [andb negb].
  2:{ change (-1 <? 0) with true. cbv iota. wstep. exists 0, v'. split; [done|]. left. split_and!; [done|done|by right|done|].
      destruct (fl_short _ _ _ _ _ _ _ Hf ltac:(lia)); auto. }
  all: rewrite (proj2 (Z.ltb_ge _ 0)) by lia; wstep; apply wp_on_fs; eapply wp_mono; [by apply (sync_view f g live v' Hv')|]; cbv beta; intros _ f2 Hv2;
    wstep; wstep; wstep; (eapply wp_lift; [apply zset_in, Hslot|]); cbv beta; wstep; wstep; wstep; eexists _, v'; (split; [done|]); right; by split_and!.
Qed.

(** ** The whole of [users_add] *)

Lemma users_add_outcome s g live v ino name uid gid password hm :
  has_view (ufs s) g live v -> fs_wf g v -> passwd_at v (root_inode (sb (ufs s))) ino ->
  Forall is_u8 name -> Forall is_u8 hm -> is_u32 uid -> is_u32 gid ->
  wp (users_add name uid gid password hm) (fun r s' => exists salt n v',
    let u := new_user name uid gid password hm salt in
    let line := build_user_line u 256 in
    has_view (ufs s') g live v' /\
    ((r = -1 /\ (v' = v \/ file_written (HS := HS) g v ino (size (v_ino v ino)) line 0 v') /\ g_users s' = g_users s /\ add_refused s g v' ino name line) \/
     (r = 0 /\ is_u32 salt /\ file_written (HS := HS) g v ino (size (v_ino v ino)) line n v' /\ users_lookup_by_name name s = None /\
      exists slot old, g_users s !! slot = Some old /\ in_use old = false /\ Forall (fun u => in_use u = true) (take slot (g_users s)) /\
        g_users s' = <[slot := u]> (g_users s)))) s.
Proof.
  intros Hv Hwf Hat Hn Hm Hu Hg. unfold users_add.
  case_bool_decide as En. { wstep. exists 0, 0, v. split; [done|]. left. split_and!; [done|by left|done|by left]. }
  wstep. wstep. destruct (users_lookup_by_name name s) as [x|] eqn:El.
  { wstep. exists 0, 0, v. split; [done|]. left. split_and!; [done|by left|done|]. right. left. by rewrite El. }
  wstep. wstep. destruct (find_slot _ 0 (g_users s)) as [[slot old]|] eqn:Es.
  2:{ wstep. exists 0, 0, v. split; [done|]. left. split_and!; [done|by left|done|]. right. right. left. apply find_slot_None in Es.
      eapply Forall_impl; [exact Es|]. intros u Hf. by apply negb_false_iff in Hf. }
  apply find_slot_Some in Es as (Hsl & Hold & Hfree & Hfirst). rewrite Z.add_0_l, Z.sub_0_r in *. apply negb_true_iff in Hfree.
  wstep. eapply wp_mono; [by apply (find_passwd s g live v ino Hv Hwf Hat)|]. cbv beta. intros r s1 (f & -> & Hv1 & [->|[-> Hh]]).
  2:{ wstep. exists 0, 0, v. split; [done|]. left. split_and!; [done|by left|done|]. right. right. right. by left. }
  wstep. eapply wp_mono; [apply generate_salt_outcome|]. cbv beta. intros salt s2 [Hsalt [c ->]].
  wstep. eapply wp_lift; [apply (salted_hash_spec salt password)|]. cbv beta zeta. fold (new_user name uid gid password hm salt).
  eapply wp_mono; [apply (add_commit _ g live v ino (new_user name uid gid password hm salt) slot); [done|done|apply Hat|by apply new_user_u8|done]|].
  cbv beta. intros r s3 (n & v' & Hv' & [(-> & En0 & Hvv & Etbl & Hwhy)|(-> & Hf & Etbl)]); exists salt, n, v'; (split; [done|]).
  - left. split_and!; [done|done|done|]. unfold add_refused. destruct Hwhy as [?|[?|Hbig]]; [tauto|tauto|].
    right. right. right. right. right. destruct Hvv as [->|Hf]; [done|]. destruct (fl_n _ _ _ _ _ _ _ Hf) as [_ Hfit]. lia.
  - right. split_and!; [done|done|done|done|]. exists (Z.to_nat slot), old. split_and!; [done|done| |done].
    apply Forall_lookup_2. intros k y Hk%lookup_take_Some. destruct Hk as [Hk Hlt]. by apply negb_false_iff, (Hfirst k y Hlt).
Qed.

(** C37: [users_add] either fails, leaving the table as it is and every file as it was (up to blocks
    reserved for /etc/passwd), for one of the reasons of [add_refused]; or it stores in the first free
    slot the account with the truncated name, the given ids and the digest of a fresh salt and the
    password, and appends its line (cut short only if the disk fills up or the heap refuses a buffer)
    to /etc/passwd, leaving all other files alone. *)
Theorem users_add_correct s g live v ino name uid gid password hm :
  has_view (ufs s) g live v -> fs_wf g v -> passwd_at v (root_inode (sb (ufs s))) ino ->
  Forall is_u8 name -> Forall is_u8 hm -> is_u32 uid -> is_u32 gid ->
  wp (users_add name uid gid password hm) (fun r s' => exists salt n v',
    let u := new_user name uid gid password hm salt in
    let line := build_user_line u 256 in
    has_view (ufs s') g live v' /\
    ((r = -1 /\ (v' = v \/ file_written (HS := HS) g v ino (size (v_ino v ino)) line 0 v') /\ g_users s' = g_users s /\ add_refused s g v' ino name line) \/
     (r = 0 /\ is_u32 salt /\ file_written (HS := HS) g v ino (size (v_ino v ino)) line n v' /\ users_lookup_by_name name s = None /\
      exists slot old, g_users s !! slot = Some old /\ in_use old = false /\ Forall (fun u => in_use u = true) (take slot (g_users s)) /\
        g_users s' = <[slot := u]> (g_users s)))) s.
Proof. apply users_add_outcome. Qed.

(** An account that was just added can log in: when [users_add] reports success for a name that is
    not cut, [users_check_password] accepts its password, and no other password whose salted digest
    differs. *)
Theorem users_add_login s g live v ino name uid gid password hm other :
  has_view (ufs s) g live v -> fs_wf g v -> passwd_at v (root_inode (sb (ufs s))) ino ->
  Forall is_u8 name -> Forall is_u8 hm -> is_u32 uid -> is_u32 gid -> zlen name < USERNAME_SIZE ->
  wp (r ← users_add name uid gid password hm; ok ← users_check_password name password; bad ← users_check_password name other; mret (r, ok, bad))
    (fun '(r, ok, bad) s' => r = -1 \/ r = 0 /\ ok = true /\ exists salt, is_u32 salt /\
      (bad = true <-> sha256_spec (salt_be salt ++ other) = sha256_spec (salt_be salt ++ password))) s.
Proof.
  intros Hv Hwf Hat Hn Hm Hu Hg Hlen. wstep. eapply wp_mono; [by apply (users_add_outcome s g live v ino)|]. cbv beta zeta.
  intros r s' (salt & n & v' & _ & [(-> & _)|(-> & Hsalt & _ & Hno & slot & old & Hold & _ & _ & Etbl)]).
  - wstep. eapply wp_Some; [apply users_check_password_outcome|]. wstep. eapply wp_Some; [apply users_check_password_outcome|]. wstep. by left.
  - assert (users_lookup_by_name name s' = Some (new_user name uid gid password hm salt)) as El by (by eapply added_found).
    wstep. eapply wp_Some; [apply users_check_password_outcome|]. rewrite El. wstep. eapply wp_Some; [apply users_check_password_outcome|]. rewrite El.
    wstep. right. split; [done|]. split; [by apply bool_decide_eq_true|]. exists salt. split; [done|]. apply bool_decide_eq_true.
Qed.
End login.

(** * On the small file system *)

(** The root directory, the directory etc, and the empty file passwd. *)
Definition demo_passwd : inode := mk_inode LUFIRAFS_MODE_FILE 0 1 (replicate 12 0) 0 0 0 420.
Definition demo_etc_view : view := put_ino 3 demo_passwd (put_ino 2 demo_dir (put_ino 1 demo_dir demo_view)).
Definition demo_mkfs : M (lufirafs (HS := heap) (DS := ramdisk)) bool :=
  lufirafs_write_inode 1 demo_dir;; lufirafs_write_inode 2 demo_dir;; lufirafs_write_inode 3 demo_passwd.

Lemma is_ino_123 x : 1 <= x <= 3 -> is_ino x.
Proof. unfold is_ino, LUFIRAFS_INODE_COUNT. lia. Qed.

Lemma demo_passwd_ok : inode_ok demo_passwd.
Proof. split; [|done]. unfold inode_words, demo_passwd. cbn. repeat (apply Forall_cons_2; [vm_compute; split; [discriminate|reflexivity]|]). apply Forall_nil_2. Qed.

Lemma demo_mkfs_view : wp demo_mkfs (fun _ s => has_view s demo_geom ∅ demo_etc_view) demo_fs.
Proof.
  unfold demo_mkfs. wstep. apply (wp_write_inode _ _ _ _ _ _ _ demo_has_view (is_ino_123 1 ltac:(lia)) demo_dir_ok). intros im d Hv.
  wstep. apply (wp_write_inode _ _ _ _ _ _ _ Hv (is_ino_123 2 ltac:(lia)) demo_dir_ok). intros im2 d2 Hv2.
  apply (wp_write_inode _ _ _ _ _ _ _ Hv2 (is_ino_123 3 ltac:(lia)) demo_passwd_ok). intros im3 d3 Hv3. exact Hv3.
Qed.

Lemma demo_etc_wf : fs_wf demo_geom demo_etc_view.
Proof.
  apply bare_wf. intros j Hj. unfold demo_etc_view. destruct (decide (j = 3)) as [->|H3]; [rewrite put_ino_eq; by split; [apply demo_passwd_ok|]|].
  rewrite put_ino_ne by done. destruct (decide (j = 2)) as [->|H2]; [rewrite put_ino_eq; by split; [apply demo_dir_ok|]|].
  rewrite put_ino_ne by done. destruct (decide (j = 1)) as [->|H1]; [rewrite put_ino_eq; by split; [apply demo_dir_ok|]|].
  rewrite put_ino_ne, demo_inode by done. apply zero_bare.
Qed.

Lemma demo_etc_dir d : 1 <= d <= 2 -> dir_wf demo_etc_view (v_ino demo_etc_view d) 0.
Proof.
  intros Hd. assert (v_ino demo_etc_view d = demo_dir) as -> by (assert (d = 1 \/ d = 2) as [->| ->] by lia; done).
  split; [done|done|done|intros b Hb; exfalso; lia|intros k k' Hk; exfalso; lia].
Qed.

Lemma demo_etc_empty d name x : 1 <= d <= 2 -> ~ entry demo_etc_view d name x.
Proof. intros Hd He. apply (proj1 (entry_n _ _ 0 _ _ (demo_etc_dir d Hd))) in He as (_ & k & Hk & _). lia. Qed.

Lemma demo_etc_names : name_ok ETC /\ name_ok PASSWD.
Proof. split; (split; [repeat (apply Forall_cons_2; [unfold is_u8; lia|]); apply Forall_nil_2|repeat (apply Forall_cons_2; [done|]); apply Forall_nil_2|done]). Qed.

Lemma demo_passwd_run : exists s', (demo_mkfs;; a ← add_dirent 1 ETC 2; b ← add_dirent 2 PASSWD 3; r ← gets (fun f => root_inode (sb f)); mret (a, b, r)) demo_fs = Some ((true, true, 1), s').
Proof.
  set (m := demo_mkfs;; _). assert (fst <$> m demo_fs = Some (true, true, 1)) as E by (vm_compute; reflexivity).
  clearbody m. destruct (m demo_fs) as [[a s']|]; [|discriminate]. exists s'. cbn in E. by injection E as ->.
Qed.

(** A file system with an empty /etc/passwd. *)
Lemma demo_passwd_at : exists s v, has_view s demo_geom ∅ v /\ fs_wf demo_geom v /\ passwd_at v (root_inode (sb s)) 3.
Proof.
  pose proof (is_ino_123 1 ltac:(lia)) as I1. pose proof (is_ino_123 2 ltac:(lia)) as I2. pose proof (is_ino_123 3 ltac:(lia)) as I3.
  destruct demo_passwd_run as [s' E]. apply bind_inv in E as (x & s0 & E0 & E). pose proof (wp_run _ _ _ _ _ demo_mkfs_view E0) as Hv0.
  apply bind_inv in E as (a & s1 & E1 & E). apply bind_inv in E as (b & s2 & E2 & E). unfold gets, mbind, M_bind, mret, M_ret in E.
  injection E as -> -> Er ->. destruct demo_etc_names as [HnE HnP].
  assert (is_u32 2 /\ is_u32 3) as [H2 H3] by (unfold is_u32; lia).
  pose proof (add_outcome s0 demo_geom ∅ demo_etc_view 1 0 ETC 2 Hv0 demo_etc_wf I1 (demo_etc_dir 1 ltac:(lia)) ltac:(reflexivity)
    HnE H2 ltac:(discriminate) (fun x => demo_etc_empty 1 ETC x ltac:(lia))) as H.
  apply (fun H => wp_run _ _ _ _ _ H E1) in H. destruct H as [(? & _)|(_ & v1 & n1 & Hv1 & _ & [Hw1 Hd1 _ He1 Ho1])]; [discriminate|].
  destruct (dir_keeps _ _ 2 0 (Ho1 2 I2 ltac:(done)) (demo_etc_dir 2 ltac:(lia))) as [Hd2 He2].
  pose proof (add_outcome s1 demo_geom ∅ v1 2 0 PASSWD 3 Hv1 Hw1 I2 Hd2 ltac:(reflexivity) HnP H3 ltac:(discriminate)
    (fun x H => demo_etc_empty 2 PASSWD x ltac:(lia) (proj1 (He2 PASSWD x) H))) as H.
  apply (fun H => wp_run _ _ _ _ _ H E2) in H. destruct H as [(? & _)|(_ & v2 & n2 & Hv2 & _ & [Hw2 Hd2' _ He2' Ho2])]; [discriminate|].
  destruct (dir_keeps _ _ 1 n1 (Ho2 1 I1 ltac:(done)) Hd1) as [Hd1' He1'].
  exists s', v2. split; [exact Hv2|]. split; [exact Hw2|]. rewrite Er. split.
  - split; [exact I1|by exists n1].
  - exact I3.
  - exists 2. split_and!; [|exact I2|by exists n2|].
    + apply He1', He1. left. split; reflexivity.
    + apply He2'. left. split; reflexivity.
Qed.

Lemma users_add_witness : exists (s : users (HS := heap) (DS := ramdisk)) v, has_view (ufs s) demo_geom ∅ v /\
  wp (users_add [0x72; 0x6F; 0x6F; 0x74] 0 0 TOOR [SLASH]) (fun r s' => exists salt n v',
    let u := new_user [0x72; 0x6F; 0x6F; 0x74] 0 0 TOOR [SLASH] salt in
    let line := build_user_line u 256 in
    has_view (ufs s') demo_geom ∅ v' /\
    ((r = -1 /\ (v' = v \/ file_written (HS := heap) demo_geom v 3 (size (v_ino v 3)) line 0 v') /\ g_users s' = g_users s /\
        add_refused s demo_geom v' 3 [0x72; 0x6F; 0x6F; 0x74] line) \/
     (r = 0 /\ is_u32 salt /\ file_written (HS := heap) demo_geom v 3 (size (v_ino v 3)) line n v' /\ users_lookup_by_name [0x72; 0x6F; 0x6F; 0x74] s = None /\
      exists slot old, g_users s !! slot = Some old /\ in_use old = false /\ Forall (fun u => in_use u = true) (take slot (g_users s)) /\
        g_users s' = <[slot := u]> (g_users s)))) s.
Proof.
  destruct demo_passwd_at as (f & v & Hv & Hwf & Hat).
  set (s := mk_users (replicate (Z.to_nat MAX_USERS) no_user) (replicate (Z.to_nat MAX_GROUPS) no_group) 0 7 f).
  exists s, v. split; [exact Hv|].
  apply (users_add_correct s demo_geom ∅ v 3 [0x72; 0x6F; 0x6F; 0x74] 0 0 TOOR [SLASH] Hv Hwf Hat).
  - repeat (apply Forall_cons_2; [unfold is_u8; lia|]). apply Forall_nil_2.
  - apply Forall_singleton. unfold is_u8, SLASH. lia.
  - unfold is_u32. lia.
  - unfold is_u32. lia.
Defined.

Lemma users_next_free_uid_witness : exists u, users_next_free_uid (mk_users (HS := heap) (DS := ramdisk) (replicate (Z.to_nat MAX_USERS) no_user)
    (replicate (Z.to_nat MAX_GROUPS) no_group) 0 7 demo_fs) = Some u /\ 1000 <= u <= 1032.
Proof.
  destruct (users_next_free_uid_correct (mk_users (HS := heap) (DS := ramdisk) (replicate (Z.to_nat MAX_USERS) no_user)
    (replicate (Z.to_nat MAX_GROUPS) no_group) 0 7 demo_fs)) as (u & E & Hu & _).
  - cbn [g_users]. apply length_replicate.
  - exists u. split; [exact E|exact Hu].
Defined.

Lemma users_add_login_witness : exists (s : users (HS := heap) (DS := ramdisk)) v, has_view (ufs s) demo_geom ∅ v /\
  wp (r ← users_add [0x72; 0x6F; 0x6F; 0x74] 0 0 TOOR [SLASH]; ok ← users_check_password [0x72; 0x6F; 0x6F; 0x74] TOOR;
      bad ← users_check_password [0x72; 0x6F; 0x6F; 0x74] []; mret (r, ok, bad))
    (fun '(r, ok, bad) s' => r = -1 \/ r = 0 /\ ok = true /\ exists salt, is_u32 salt /\
      (bad = true <-> sha256_spec (salt_be salt ++ []) = sha256_spec (salt_be salt ++ TOOR))) s.
Proof.
  destruct demo_passwd_at as (f & v & Hv & Hwf & Hat).
  set (s := mk_users (replicate (Z.to_nat MAX_USERS) no_user) (replicate (Z.to_nat MAX_GROUPS) no_group) 0 7 f).
  exists s, v. split; [exact Hv|].
  apply (users_add_login s demo_geom ∅ v 3 [0x72; 0x6F; 0x6F; 0x74] 0 0 TOOR [SLASH] [] Hv Hwf Hat).
  - repeat (apply Forall_cons_2; [unfold is_u8; lia|]). apply Forall_nil_2.
  - apply Forall_singleton. unfold is_u8, SLASH. lia.
  - unfold is_u32. lia.
  - unfold is_u32. lia.
  - reflexivity.
Defined.
