(* ===== verification/ProcessEnv.v ===== *)
(** What the process manager (kernel/system/process/process.c) relies on in the rest of the kernel:
    memory for process records, address spaces, kernel stacks, FPU areas and descriptor tables, each
    created and released through the operations below.  The laws count resources: an operation that
    creates one adds it, one that releases it may only be called on a resource that exists. *)

From S2P Require Import Prelude.

(** The saved registers of a process ([process_context_t]). *)
Record cpu_context := mk_regs {
  rax : Z; rbx : Z; rcx : Z; rdx : Z; rsi : Z; rdi : Z; rbp : Z; r8 : Z; r9 : Z; r10 : Z; r11 : Z;
  r12 : Z; r13 : Z; r14 : Z; r15 : Z; rsp : Z; rip : Z; rflags : Z; cr3 : Z;
}.
Definition no_regs : cpu_context := mk_regs 0 0 0 0 0 0 0 0 0 0 0 0 0 0 0 0 0 0 0.

Inductive res_kind := RProcess | RSpace | RStack | RFpu | RFds.

#[export] Instance res_kind_eq_dec : EqDecision res_kind.
Proof. solve_decision. Defined.
#[export] Instance res_kind_countable : Countable res_kind.
Proof.
  apply (inj_countable' (fun k => match k with RProcess => 0 | RSpace => 1 | RStack => 2 | RFpu => 3 | RFds => 4 end%nat)
    (fun n => match n with 0%nat => RProcess | 1%nat => RSpace | 2%nat => RStack | 3%nat => RFpu | _ => RFds end)).
  by intros [].
Defined.

(** A resource is named by its kind and its address. *)
Definition res : Type := res_kind * Z.

Section laws.
Context {R : Type} (rep : R -> gset res -> Prop).

(** Creates a resource, or returns 0 without one. *)
Definition creates (k : res_kind) (m : M R Z) : Prop := forall r O, rep r O ->
  wp m (fun x r' => (x = 0 /\ rep r' O) \/ (x <> 0 /\ ((k, x) ∉ O) /\ rep r' ({[(k, x)]} ∪ O))) r.
Definition releases (o : res) (m : M R unit) : Prop := forall r O, rep r O -> (o ∈ O) ->
  wp m (fun _ r' => rep r' (O ∖ {[o]})) r.
Definition keeps_res {A} (m : M R A) : Prop := forall r O, rep r O -> wp m (fun _ r' => rep r' O) r.
End laws.

Class ProcessEnv (R : Type) := {
  pe_rep : R -> gset res -> Prop;
  (* [kmalloc(sizeof(process_t))]; the block still holds the bytes of its former owner, of which the
     fields [wakeup_tick] and [saved_signal_context] are never initialised *)
  pe_kmalloc : M R (option (Z * (Z * cpu_context)));
  pe_kfree : Z -> M R unit;
  (* [vfs_init_fd_table], [vfs_close] on every descriptor (with the processes sleeping on a pipe it
     wakes), copying a table with [vfs_dup_fd] *)
  pe_init_fds : Z -> M R unit;
  pe_close_fds : Z -> M R (list Z);
  pe_copy_fds : Z -> Z -> M R unit;
  (* [create_address_space] with [sync_kernel_mappings], [clone_address_space_deep] and
     [free_user_address_space] *)
  pe_create_space : M R Z;
  pe_clone_space : Z -> M R Z;
  pe_free_space : Z -> M R unit;
  (* the frames of a kernel stack mapped at an address of a space, the array that lists them *)
  pe_ring0_pages : Z -> Z -> M R Z;
  pe_free_ring0 : Z -> M R unit;
  (* [size] bytes of user stack mapped at an address *)
  pe_map_stack : Z -> Z -> Z -> M R bool;
  (* an 8-byte store at a user address of a space *)
  pe_store : Z -> Z -> Z -> M R unit;
  pe_alloc_fpu : M R Z;
  pe_free_fpu : Z -> M R unit;
  (* [driver_release_process], [console_redraw_from_history], [sound_ring_clear] *)
  pe_driver_release : Z -> M R unit;
  pe_redraw : M R unit;
  pe_sound_clear : M R unit;
  (* /bin/shell.elf: whether it could be read, and its entry point, stack pointer and argument
     arrays once loaded into a space *)
  pe_read_shell : M R bool;
  pe_load_shell : Z -> Z -> M R (option (Z * (Z * Z * Z)));

  pe_kmalloc_law : forall r O, pe_rep r O -> wp pe_kmalloc (fun x r' =>
    match x with
    | None => pe_rep r' O
    | Some (a, _) => a <> 0 /\ ((RProcess, a) ∉ O) /\ pe_rep r' ({[(RProcess, a)]} ∪ O)
    end) r;
  pe_kfree_law : forall a, releases pe_rep (RProcess, a) (pe_kfree a);
  pe_init_fds_law : forall r O a, pe_rep r O -> ((RProcess, a) ∈ O) -> wp (pe_init_fds a) (fun _ r' => pe_rep r' ({[(RFds, a)]} ∪ O)) r;
  pe_close_fds_law : forall r O a, pe_rep r O -> ((RFds, a) ∈ O) ->
    wp (pe_close_fds a) (fun l r' => pe_rep r' (O ∖ {[(RFds, a)]}) /\ forall x, (x ∈ l) -> (RProcess, x) ∈ O) r;
  pe_copy_fds_law : forall r O c p, pe_rep r O -> ((RProcess, c) ∈ O) -> ((RFds, p) ∈ O) ->
    wp (pe_copy_fds c p) (fun _ r' => pe_rep r' ({[(RFds, c)]} ∪ O)) r;
  pe_create_space_law : creates pe_rep RSpace pe_create_space;
  pe_clone_space_law : forall s, creates pe_rep RSpace (pe_clone_space s);
  pe_free_space_law : forall s, releases pe_rep (RSpace, s) (pe_free_space s);
  pe_ring0_pages_law : forall s a, creates pe_rep RStack (pe_ring0_pages s a);
  pe_free_ring0_law : forall p, releases pe_rep (RStack, p) (pe_free_ring0 p);
  pe_map_stack_law : forall n s a, keeps_res pe_rep (pe_map_stack n s a);
  pe_store_law : forall s a x, keeps_res pe_rep (pe_store s a x);
  pe_alloc_fpu_law : creates pe_rep RFpu pe_alloc_fpu;
  pe_free_fpu_law : forall p, releases pe_rep (RFpu, p) (pe_free_fpu p);
  pe_driver_release_law : forall p, keeps_res pe_rep (pe_driver_release p);
  pe_redraw_law : keeps_res pe_rep pe_redraw;
  pe_sound_clear_law : keeps_res pe_rep pe_sound_clear;
  pe_read_shell_law : keeps_res pe_rep pe_read_shell;
  pe_load_shell_law : forall s t, keeps_res pe_rep (pe_load_shell s t);
}.

(** * A ledger

    The least environment: it hands out the numbers from 1 on, [budget] of them, and remembers what
    exists.  It shows that the laws can hold. *)

Record ledger := mk_ledger { items : gset res; issued : Z; budget : nat }.

Definition issue (k : res_kind) : M ledger Z := fun r =>
  match budget r with
  | O => Some (0, r)
  | S n => Some (issued r + 1, mk_ledger ({[(k, issued r + 1)]} ∪ items r) (issued r + 1) n)
  end.
Definition add_item (o : res) : M ledger unit := modify (fun r => mk_ledger ({[o]} ∪ items r) (issued r) (budget r)).
Definition drop_item (o : res) : M ledger unit := fun r =>
  if decide (o ∈ items r) then Some (tt, mk_ledger (items r ∖ {[o]}) (issued r) (budget r)) else None.

Definition ledger_rep (r : ledger) (O : gset res) : Prop :=
  items r = O /\ 0 <= issued r /\ forall o, (o ∈ O) -> 0 < snd o <= issued r.

Lemma issue_law k : creates ledger_rep k (issue k).
Proof.
  intros r O (<- & H0 & Hb). unfold issue, wp. destruct (budget r); [by left|]. right.
  assert ((k, issued r + 1) ∉ items r) as Hn by (intros H; apply Hb in H; cbn in H; lia).
  split_and!; [lia|done|]. split_and!; [done|cbn; lia|]. cbn. intros o [->%elem_of_singleton|H]%elem_of_union; [cbn; lia|]. apply Hb in H. lia.
Qed.

Lemma drop_law o : releases ledger_rep o (drop_item o).
Proof.
  intros r O (<- & H0 & Hb) Ho. unfold drop_item, wp. rewrite decide_True by done. split_and!; [done|done|].
  intros x [Hx _]%elem_of_difference. by apply Hb.
Qed.

Lemma add_law r O k x y : ledger_rep r O -> ((k, x) ∈ O) -> wp (add_item (y, x)) (fun _ r' => ledger_rep r' ({[(y, x)]} ∪ O)) r.
Proof.
  intros (<- & H0 & Hb) Ho. unfold wp, add_item, modify. split_and!; [done|done|]. cbn.
  intros o [->%elem_of_singleton|H]%elem_of_union; [apply (Hb _ Ho)|by apply Hb].
Qed.

Lemma keeps_ret {A} (x : A) : keeps_res ledger_rep (mret x).
Proof. by intros r O Hr. Qed.

#[export] Instance ledger_env : ProcessEnv ledger.
Proof.
  refine {| pe_rep := ledger_rep;
    pe_kmalloc := (x ← issue RProcess; mret (if x =? 0 then None else Some (x, (0, no_regs))));
    pe_kfree a := drop_item (RProcess, a);
    pe_init_fds a := add_item (RFds, a); pe_close_fds a := (drop_item (RFds, a);; mret []); pe_copy_fds c _ := add_item (RFds, c);
    pe_create_space := issue RSpace; pe_clone_space _ := issue RSpace; pe_free_space s := drop_item (RSpace, s);
    pe_ring0_pages _ _ := issue RStack; pe_free_ring0 p := drop_item (RStack, p);
    pe_map_stack _ _ _ := mret true; pe_store _ _ _ := mret tt;
    pe_alloc_fpu := issue RFpu; pe_free_fpu p := drop_item (RFpu, p);
    pe_driver_release _ := mret tt; pe_redraw := mret tt; pe_sound_clear := mret tt;
    pe_read_shell := mret true; pe_load_shell _ _ := mret (Some (1, (1, 1, 1))) |};
  try (intros; apply issue_law); try (intros; apply drop_law); try (intros; apply keeps_ret).
  - intros r O Hr. apply wp_bind. eapply wp_mono; [apply (issue_law RProcess r O Hr)|]. cbv beta.
    intros x r' [[Hx Hr']|(Hx & Hno & Hr')]; apply wp_ret; [by rewrite Hx|]. by rewrite (proj2 (Z.eqb_neq _ _) Hx).
  - intros r O a Hr Ha. by eapply add_law.
  - intros r O a Hr Ha. apply wp_bind. eapply wp_mono; [by apply (drop_law (RFds, a) r O Hr)|]. intros ? r' Hr'. apply wp_ret. split; [exact Hr'|]. set_solver.
  - intros r O c p Hr Hc Hp. by eapply add_law.
Defined.
