(* ===== verification/Process.v ===== *)
(** Model of kernel/system/process/process.c and of the timer tick of kernel/system/timer/pit.c:
    the circular list of processes, round-robin scheduling, creation, fork, exit, wait, signals, reaping.

    Process records live in a store indexed by their address, linked through their [next] pointers as in
    the code, so a dangling pointer is a fault.  Kernel code runs with interrupts masked (system calls clear
    IF, see [syscall_init]), hence [irq_disable] and [irq_enable] do nothing here and every
    operation is atomic; an operation that gives the processor away says so in its result, and what the
    caller does once it runs again is a definition of its own. *)

From S2P Require Import Prelude Memory Interfaces Mailbox ProcessEnv.

Definition PAGE_SIZE : Z := 4096.
Definition KERNEL_STACK_AREA_START : Z := 0xFFFF880000000000.
Definition KERNEL_STACK_SIZE : Z := 16384.
Definition MAX_PROCESSES : Z := 32.
Definition USER_STACK_AREA_START : Z := 0x0000700000000000.
Definition SIGNAL_STACK_AREA_START : Z := 0x0000690000000000.
Definition SIGNAL_STACK_SIZE : Z := 8192.
Definition USER_STACK_SIZE : Z := 131072.
Definition MMAP_AREA_START : Z := 0x0000600000000000.
Definition MAX_MMAP_REGIONS : Z := 32.
Definition WAIT_ANY_PID : Z := 2 ^ 32 - 1.
Definition SIGINT : Z := 2.
Definition SIGALRM : Z := 14.
Definition SIGKILL : Z := 9.
Definition SIGTERM : Z := 15.
Definition SIGCONT : Z := 18.
Definition SIGSTOP : Z := 19.
Definition MAX_SIGNUM : Z := 32.
Definition LUFIRAFS_ROOT_INODE : Z := 1.

(** * Processes *)

(** The memory image: [mmap_regions] holds (address, length, shared id), [mmap_free_ranges] (address,
    length). *)
Record image := mk_image {
  page_table : Z; stack_base : Z; stack_size : Z; ring0_stack : Z; ring0_stack_pages : Z; fpu_raw : Z;
  mmap_regions : list (Z * Z * Z); next_mmap_addr : Z; mmap_free_ranges : list (Z * Z); sig_stack_top : Z;
}.
Record signals := mk_signals {
  signal_handlers : list Z; pending_signal : Z; in_signal_handler : bool; saved_signal_context : cpu_context; alarm_tick : Z;
}.
Record process := mk_process {
  pid : Z; ppid : Z; pname : list Z; pstate : process_state; wakeup_tick : Z; exit_code : Z; wait_target_pid : Z;
  context : cpu_context; fpu_state : list Z; img : image; cwd_path : list Z; cwd_inode : Z; uid : Z; gid : Z;
  is_shell : bool; sg : signals; first_run : bool; cpu_ticks : Z; mbox : ipc_mailbox; next : Z;
}.

Definition set_state (x : process_state) (p : process) : process :=
  mk_process (pid p) (ppid p) (pname p) x (wakeup_tick p) (exit_code p) (wait_target_pid p) (context p) (fpu_state p) (img p) (cwd_path p) (cwd_inode p) (uid p) (gid p) (is_shell p) (sg p) (first_run p) (cpu_ticks p) (mbox p) (next p).
Definition set_wakeup (x : Z) (p : process) : process :=
  mk_process (pid p) (ppid p) (pname p) (pstate p) x (exit_code p) (wait_target_pid p) (context p) (fpu_state p) (img p) (cwd_path p) (cwd_inode p) (uid p) (gid p) (is_shell p) (sg p) (first_run p) (cpu_ticks p) (mbox p) (next p).
Definition set_exit (x : Z) (p : process) : process :=
  mk_process (pid p) (ppid p) (pname p) (pstate p) (wakeup_tick p) x (wait_target_pid p) (context p) (fpu_state p) (img p) (cwd_path p) (cwd_inode p) (uid p) (gid p) (is_shell p) (sg p) (first_run p) (cpu_ticks p) (mbox p) (next p).
Definition set_wait (x : Z) (p : process) : process :=
  mk_process (pid p) (ppid p) (pname p) (pstate p) (wakeup_tick p) (exit_code p) x (context p) (fpu_state p) (img p) (cwd_path p) (cwd_inode p) (uid p) (gid p) (is_shell p) (sg p) (first_run p) (cpu_ticks p) (mbox p) (next p).
Definition set_context (x : cpu_context) (p : process) : process :=
  mk_process (pid p) (ppid p) (pname p) (pstate p) (wakeup_tick p) (exit_code p) (wait_target_pid p) x (fpu_state p) (img p) (cwd_path p) (cwd_inode p) (uid p) (gid p) (is_shell p) (sg p) (first_run p) (cpu_ticks p) (mbox p) (next p).
Definition set_fpu (x : list Z) (p : process) : process :=
  mk_process (pid p) (ppid p) (pname p) (pstate p) (wakeup_tick p) (exit_code p) (wait_target_pid p) (context p) x (img p) (cwd_path p) (cwd_inode p) (uid p) (gid p) (is_shell p) (sg p) (first_run p) (cpu_ticks p) (mbox p) (next p).
Definition set_img (x : image) (p : process) : process :=
  mk_process (pid p) (ppid p) (pname p) (pstate p) (wakeup_tick p) (exit_code p) (wait_target_pid p) (context p) (fpu_state p) x (cwd_path p) (cwd_inode p) (uid p) (gid p) (is_shell p) (sg p) (first_run p) (cpu_ticks p) (mbox p) (next p).
Definition set_name (x : list Z) (p : process) : process :=
  mk_process (pid p) (ppid p) x (pstate p) (wakeup_tick p) (exit_code p) (wait_target_pid p) (context p) (fpu_state p) (img p) (cwd_path p) (cwd_inode p) (uid p) (gid p) (is_shell p) (sg p) (first_run p) (cpu_ticks p) (mbox p) (next p).
Definition set_shell (x : bool) (p : process) : process :=
  mk_process (pid p) (ppid p) (pname p) (pstate p) (wakeup_tick p) (exit_code p) (wait_target_pid p) (context p) (fpu_state p) (img p) (cwd_path p) (cwd_inode p) (uid p) (gid p) x (sg p) (first_run p) (cpu_ticks p) (mbox p) (next p).
Definition set_sg (x : signals) (p : process) : process :=
  mk_process (pid p) (ppid p) (pname p) (pstate p) (wakeup_tick p) (exit_code p) (wait_target_pid p) (context p) (fpu_state p) (img p) (cwd_path p) (cwd_inode p) (uid p) (gid p) (is_shell p) x (first_run p) (cpu_ticks p) (mbox p) (next p).
Definition set_first (x : bool) (p : process) : process :=
  mk_process (pid p) (ppid p) (pname p) (pstate p) (wakeup_tick p) (exit_code p) (wait_target_pid p) (context p) (fpu_state p) (img p) (cwd_path p) (cwd_inode p) (uid p) (gid p) (is_shell p) (sg p) x (cpu_ticks p) (mbox p) (next p).
Definition set_ticks (x : Z) (p : process) : process :=
  mk_process (pid p) (ppid p) (pname p) (pstate p) (wakeup_tick p) (exit_code p) (wait_target_pid p) (context p) (fpu_state p) (img p) (cwd_path p) (cwd_inode p) (uid p) (gid p) (is_shell p) (sg p) (first_run p) x (mbox p) (next p).
Definition set_mbox (x : ipc_mailbox) (p : process) : process :=
  mk_process (pid p) (ppid p) (pname p) (pstate p) (wakeup_tick p) (exit_code p) (wait_target_pid p) (context p) (fpu_state p) (img p) (cwd_path p) (cwd_inode p) (uid p) (gid p) (is_shell p) (sg p) (first_run p) (cpu_ticks p) x (next p).
Definition set_next (x : Z) (p : process) : process :=
  mk_process (pid p) (ppid p) (pname p) (pstate p) (wakeup_tick p) (exit_code p) (wait_target_pid p) (context p) (fpu_state p) (img p) (cwd_path p) (cwd_inode p) (uid p) (gid p) (is_shell p) (sg p) (first_run p) (cpu_ticks p) (mbox p) x.
Definition set_cwd (path : list Z) (ino : Z) (p : process) : process :=
  mk_process (pid p) (ppid p) (pname p) (pstate p) (wakeup_tick p) (exit_code p) (wait_target_pid p) (context p) (fpu_state p) (img p) path ino (uid p) (gid p) (is_shell p) (sg p) (first_run p) (cpu_ticks p) (mbox p) (next p).
Definition set_ids (u g : Z) (p : process) : process :=
  mk_process (pid p) (ppid p) (pname p) (pstate p) (wakeup_tick p) (exit_code p) (wait_target_pid p) (context p) (fpu_state p) (img p) (cwd_path p) (cwd_inode p) u g (is_shell p) (sg p) (first_run p) (cpu_ticks p) (mbox p) (next p).

Definition set_pending (sig : Z) (g : signals) : signals :=
  mk_signals (signal_handlers g) sig (in_signal_handler g) (saved_signal_context g) (alarm_tick g).
Definition set_in_handler (b : bool) (g : signals) : signals :=
  mk_signals (signal_handlers g) (pending_signal g) b (saved_signal_context g) (alarm_tick g).
Definition set_saved (c : cpu_context) (g : signals) : signals :=
  mk_signals (signal_handlers g) (pending_signal g) (in_signal_handler g) c (alarm_tick g).
Definition set_alarm (t : Z) (g : signals) : signals :=
  mk_signals (signal_handlers g) (pending_signal g) (in_signal_handler g) (saved_signal_context g) t.
Definition no_handlers : list Z := replicate (Z.to_nat MAX_SIGNUM) 0.
Definition no_regions : list (Z * Z * Z) := replicate (Z.to_nat MAX_MMAP_REGIONS) (0, 0, 0).
Definition no_ranges : list (Z * Z) := replicate (Z.to_nat MAX_MMAP_REGIONS) (0, 0).
Definition no_mailbox : ipc_mailbox := mk_mbox (replicate (Z.to_nat MAX_IPC_MAILBOX_SLOTS) (mk_msg 0 0 (replicate (Z.to_nat MAX_IPC_MSG_PAYLOAD) 0))) 0 0 0 None.

(** * The kernel's state *)

(** What the processor holds; [user] tells whether it runs user code. *)
Record cpu := mk_cpu { regs : cpu_context; fpu : list Z; user : bool; tss_rsp0 : Z; current_kernel_rsp : Z }.
Record clock := mk_clock { pit_ticks : Z; g_total_ticks : Z; g_idle_ticks : Z; preempt_countdown : Z }.
(** The static variables; [fpu_init_template] is filled by [fpu_init]. *)
Record globals := mk_globals {
  next_pid : Z; process_count : Z; foreground_pid : Z; g_wm_pid : Z; g_netd_pid : Z; g_soundd_pid : Z;
  shell_is_respawn : bool; has_spawner : bool; ctrl_c_pending : bool; fpu_init_template : list Z;
  fallback_stack_top : Z;
}.

Section kernel.
Context {R : Type} `{!ProcessEnv R}.

Record kernel := mk_kernel {
  procs : gmap Z process; process_list : Z; current_process : Z; idle_process : Z; current_fd_table : Z;
  hw : cpu; time : clock; glob : globals; rest : R;
}.

Definition set_procs (m : gmap Z process) (k : kernel) : kernel :=
  mk_kernel m (process_list k) (current_process k) (idle_process k) (current_fd_table k) (hw k) (time k) (glob k) (rest k).
Definition set_list (l : Z) (k : kernel) : kernel :=
  mk_kernel (procs k) l (current_process k) (idle_process k) (current_fd_table k) (hw k) (time k) (glob k) (rest k).
Definition set_current (c : Z) (k : kernel) : kernel :=
  mk_kernel (procs k) (process_list k) c (idle_process k) (current_fd_table k) (hw k) (time k) (glob k) (rest k).
Definition set_idle (i : Z) (k : kernel) : kernel :=
  mk_kernel (procs k) (process_list k) (current_process k) i (current_fd_table k) (hw k) (time k) (glob k) (rest k).
Definition set_fds (t : Z) (k : kernel) : kernel :=
  mk_kernel (procs k) (process_list k) (current_process k) (idle_process k) t (hw k) (time k) (glob k) (rest k).
Definition set_hw (c : cpu) (k : kernel) : kernel :=
  mk_kernel (procs k) (process_list k) (current_process k) (idle_process k) (current_fd_table k) c (time k) (glob k) (rest k).
Definition set_time (c : clock) (k : kernel) : kernel :=
  mk_kernel (procs k) (process_list k) (current_process k) (idle_process k) (current_fd_table k) (hw k) c (glob k) (rest k).
Definition set_glob (g : globals) (k : kernel) : kernel :=
  mk_kernel (procs k) (process_list k) (current_process k) (idle_process k) (current_fd_table k) (hw k) (time k) g (rest k).
Definition set_rest (r : R) (k : kernel) : kernel :=
  mk_kernel (procs k) (process_list k) (current_process k) (idle_process k) (current_fd_table k) (hw k) (time k) (glob k) r.

Definition on_rest {A} (m : M R A) : M kernel A := fun k =>
  match m (rest k) with Some (a, r) => Some (a, set_rest r k) | None => None end.

(** Load and store through a [process_t *]. *)
Definition getp (a : Z) : M kernel process := fun k =>
  match procs k !! a with Some p => Some (p, k) | None => None end.
Definition setp (a : Z) (f : process -> process) : M kernel unit := fun k =>
  match procs k !! a with Some p => Some (tt, set_procs (<[a := f p]> (procs k)) k) | None => None end.

Definition upd_glob (f : globals -> globals) : M kernel unit := modify (fun k => set_glob (f (glob k)) k).
Definition set_counts (n c : Z) (g : globals) : globals :=
  mk_globals n c (foreground_pid g) (g_wm_pid g) (g_netd_pid g) (g_soundd_pid g) (shell_is_respawn g) (has_spawner g) (ctrl_c_pending g) (fpu_init_template g) (fallback_stack_top g).
Definition set_fg (x : Z) (g : globals) : globals :=
  mk_globals (next_pid g) (process_count g) x (g_wm_pid g) (g_netd_pid g) (g_soundd_pid g) (shell_is_respawn g) (has_spawner g) (ctrl_c_pending g) (fpu_init_template g) (fallback_stack_top g).
Definition set_daemons (w n s : Z) (g : globals) : globals :=
  mk_globals (next_pid g) (process_count g) (foreground_pid g) w n s (shell_is_respawn g) (has_spawner g) (ctrl_c_pending g) (fpu_init_template g) (fallback_stack_top g).
Definition set_respawn (b : bool) (g : globals) : globals :=
  mk_globals (next_pid g) (process_count g) (foreground_pid g) (g_wm_pid g) (g_netd_pid g) (g_soundd_pid g) b (has_spawner g) (ctrl_c_pending g) (fpu_init_template g) (fallback_stack_top g).
Definition set_ctrl_c (b : bool) (g : globals) : globals :=
  mk_globals (next_pid g) (process_count g) (foreground_pid g) (g_wm_pid g) (g_netd_pid g) (g_soundd_pid g) (shell_is_respawn g) (has_spawner g) b (fpu_init_template g) (fallback_stack_top g).

(** * Walking the circular list *)

(** [do { body } while (p = p->next, p && p != start)].  The list has at most [MAX_PROCESSES] + 1 nodes,
    also when the body makes it longer, so the fuel of [ring_walk] covers every round. *)
Fixpoint ring_do {A} (fuel : nat) (start : Z) (body : Z -> M kernel (option A)) (p : Z) : M kernel (option A) :=
  match fuel with
  | O => fault
  | S fuel =>
      r ← body p;
      match r with
      | Some a => mret (Some a)
      | None =>
          o ← getp p;
          if (next o =? 0) || (next o =? start) then mret None else ring_do fuel start body (next o)
      end
  end.

Definition ring_walk {A} (body : Z -> M kernel (option A)) : M kernel (option A) :=
  h ← gets process_list;
  n ← gets (fun k => (size (procs k) + Z.to_nat MAX_PROCESSES + 1)%nat);
  if h =? 0 then mret None else ring_do n h body h.

(** The first process with a property, 0 if there is none. *)
Definition find_process (P : process -> bool) : M kernel Z :=
  r ← ring_walk (fun p => o ← getp p; mret (if P o then Some p else None));
  mret (default 0 r).

Definition process_find_by_pid (n : Z) : M kernel Z := find_process (fun p => pid p =? n).

(** The loop that stops at the node before [stop]. *)
Fixpoint last_before (fuel : nat) (stop p : Z) : M kernel Z :=
  match fuel with
  | O => fault
  | S fuel =>
      o ← getp p;
      if (next o =? 0) || (next o =? stop) then mret p else last_before fuel stop (next o)
  end.

(** * Memory images *)

Definition allocate_ring0_stack (n space : Z) : M kernel (option (Z * Z)) :=
  let base := u64 (KERNEL_STACK_AREA_START + u32 (n * KERNEL_STACK_SIZE)) in
  pages ← on_rest (pe_ring0_pages space base);
  mret (if pages =? 0 then None else Some (u64 (base + KERNEL_STACK_SIZE), pages)).

Definition allocate_user_stack_in (size space n base_area stride : Z) : M kernel Z :=
  let virt := u64 (base_area + u64 (n * stride)) in
  ok ← on_rest (pe_map_stack size space virt);
  mret (if ok : bool then u64 (virt + size) else 0).
Definition allocate_user_stack (size space n : Z) : M kernel Z :=
  allocate_user_stack_in size space n USER_STACK_AREA_START USER_STACK_SIZE.

Definition free_ring0_stack (pages : Z) : M kernel unit := if pages =? 0 then mret tt else on_rest (pe_free_ring0 pages).
Definition free_fpu_state (raw : Z) : M kernel unit := if raw =? 0 then mret tt else on_rest (pe_free_fpu raw).

(** Processes that closing a pipe wakes. *)
Definition wake_all (l : list Z) : M kernel unit :=
  foldr (fun a m => setp a (set_state PROCESS_READY);; m) (mret tt) l.

Definition free_process_resources (a : Z) : M kernel unit :=
  o ← getp a;
  l ← on_rest (pe_close_fds a);
  wake_all l;;
  (if page_table (img o) =? 0 then mret tt else on_rest (pe_free_space (page_table (img o))));;
  free_ring0_stack (ring0_stack_pages (img o));;
  free_fpu_state (fpu_raw (img o)).

(** * Creation *)

Definition cut_name (name : list Z) : list Z := take 31 name.

(** [process_create] up to the list: address and record of the new process. *)
Definition build_process (a : Z) (junk : Z * cpu_context) (name : list Z) (entry : Z) : M kernel (option process) :=
  n ← gets (fun k => next_pid (glob k));
  upd_glob (fun g => set_counts (u32 (n + 1)) (process_count g) g);;
  c ← gets current_process;
  ids ← (if c =? 0 then mret (0, 0, 0) else o ← getp c; mret (pid o, uid o, gid o));
  let '(parent, u, g) := ids in
  on_rest (pe_init_fds a);;
  sp ← on_rest pe_create_space;
  if sp =? 0 then on_rest (pe_kfree a);; mret None else
  r0 ← allocate_ring0_stack n sp;
  match r0 with
  | None => on_rest (pe_free_space sp);; on_rest (pe_kfree a);; mret None
  | Some (top, pages) =>
      st ← allocate_user_stack 16384 sp n;
      if st =? 0 then free_ring0_stack pages;; on_rest (pe_free_space sp);; on_rest (pe_kfree a);; mret None else
      sig ← allocate_user_stack_in SIGNAL_STACK_SIZE sp n SIGNAL_STACK_AREA_START 0;
      raw ← on_rest pe_alloc_fpu;
      if raw =? 0 then free_ring0_stack pages;; on_rest (pe_free_space sp);; on_rest (pe_kfree a);; mret None else
      on_rest (pe_store sp (st - 8) 0);;
      on_rest (pe_store sp (st - 16) entry);;
      on_rest (pe_store sp (st - 24) 0x202);;
      t ← gets (fun k => fpu_init_template (glob k));
      mret (Some (mk_process n parent (cut_name name) PROCESS_READY (fst junk) 0 0
        (mk_regs 0 0 0 0 0 0 0 0 0 0 0 0 0 0 0 (st - 24) entry 0x202 sp) t
        (mk_image sp st 16384 top pages raw no_regions MMAP_AREA_START no_ranges sig)
        [0x2F] LUFIRAFS_ROOT_INODE u g false (mk_signals no_handlers 0 false (snd junk) 0)
        (entry =? 0) 0 (mailbox_init no_mailbox) 0))
  end.

(** The new process goes to the end of the circular list. *)
Definition link_last (a : Z) (o : process) : M kernel unit :=
  h ← gets process_list;
  if h =? 0 then
    modify (fun k => set_list a (set_procs (<[a := set_next a o]> (procs k)) k))
  else
    n ← gets (fun k => size (procs k));
    l ← last_before n h h;
    setp l (set_next a);;
    modify (fun k => set_procs (<[a := set_next h o]> (procs k)) k).

Definition process_create (name : list Z) (entry : Z) : M kernel Z :=
  n ← gets (fun k => process_count (glob k));
  if MAX_PROCESSES <=? n then mret 0 else
  r ← on_rest pe_kmalloc;
  match r with
  | None => mret 0
  | Some (a, junk) =>
      b ← build_process a junk name entry;
      match b with
      | None => mret 0
      | Some o =>
          link_last a o;;
          upd_glob (fun g => set_counts (next_pid g) (u32 (process_count g + 1)) g);;
          mret a
      end
  end.

(** [process_init]: the idle process, alone in its list; [cr3] is the kernel's page table. *)
Definition process_init (cr : Z) (template : list Z) : M kernel unit :=
  upd_glob (fun g => mk_globals (next_pid g) (process_count g) (foreground_pid g) (g_wm_pid g) (g_netd_pid g) (g_soundd_pid g)
    (shell_is_respawn g) (has_spawner g) (ctrl_c_pending g) template (fallback_stack_top g));;
  r ← on_rest pe_kmalloc;
  match r with
  | None => mret tt
  | Some (a, (w, saved)) =>
      raw ← on_rest pe_alloc_fpu;
      if raw =? 0 then on_rest (pe_kfree a);; modify (set_idle 0) else
      modify (fun k => mk_kernel (<[a := mk_process 0 0 [0x69; 0x64; 0x6C; 0x65] PROCESS_READY w 0 0 no_regs template
          (mk_image cr 0 0 0 0 raw no_regions MMAP_AREA_START no_ranges 0) [0x2F] LUFIRAFS_ROOT_INODE 0 0 false
          (mk_signals no_handlers 0 false saved 0) false 0 no_mailbox a]> (procs k))
        a a a a (hw k) (time k) (glob k) (rest k))
  end.

(** * Destruction *)

Definition uncount (g : globals) : globals := set_counts (next_pid g) (u32 (process_count g - 1)) g.

(** The end of every removal: resources, count, record. *)
Definition destroy (a : Z) : M kernel unit :=
  free_process_resources a;;
  upd_glob uncount;;
  on_rest (pe_kfree a);;
  modify (fun k => set_procs (delete a (procs k)) k).

(** The loop that looks for the predecessor of [target] from the head of the list. *)
Fixpoint prev_of (fuel : nat) (target head p : Z) : M kernel Z :=
  match fuel with
  | O => fault
  | S fuel =>
      o ← getp p;
      if (next o =? target) || (next o =? head) then mret p else prev_of fuel target head (next o)
  end.

Definition process_remove_from_list (target : Z) : M kernel unit :=
  h ← gets process_list;
  if (h =? 0) || (target =? 0) then mret tt else
  o ← getp target;
  if next o =? target then
    (if h =? target then modify (set_list 0) else mret tt);;
    destroy target
  else
    n ← gets (fun k => size (procs k));
    (if h =? target then
       l ← prev_of n target target target;
       modify (set_list (next o));;
       setp l (set_next (next o))
     else
       q ← prev_of n target h h;
       b ← getp q;
       if next b =? target then setp q (set_next (next o)) else mret tt);;
    destroy target.

Definition process_discard (a : Z) : M kernel unit :=
  if a =? 0 then mret tt else setp a (set_state PROCESS_TERMINATED);; process_remove_from_list a.

(** One removal of [process_reap] and the loop; [prev] is 0 while the head is visited.  The code bounds
    the rounds by 10000. *)
Fixpoint reap_loop (fuel : nat) (start prev p : Z) : M kernel unit :=
  match fuel with
  | O => mret tt
  | S fuel =>
      if p =? 0 then mret tt else
      o ← getp p;
      idle ← gets idle_process;
      if (next o =? p) && negb (p =? idle) then mret tt else
      if bool_decide (pstate o = PROCESS_TERMINATED) && negb (p =? idle) then
        if prev =? 0 then
          (n ← gets (fun k => size (procs k));
           l ← prev_of n p p p;
           modify (set_list (next o));;
           setp l (set_next (next o)));;
          destroy p;;
          h ← gets process_list;
          reap_loop fuel start 0 h
        else
          setp prev (set_next (next o));;
          destroy p;;
          b ← getp prev;
          reap_loop fuel start prev (next b)
      else
        if (next o =? start) || (next o =? 0) then mret tt else reap_loop fuel start p (next o)
  end.

Definition process_reap : M kernel unit :=
  h ← gets process_list;
  if h =? 0 then mret tt else reap_loop (Z.to_nat 10000) h 0 h.

(** * Scheduling *)

Definition set_r11 (x : Z) (c : cpu_context) : cpu_context :=
  mk_regs (rax c) (rbx c) (rcx c) (rdx c) (rsi c) (rdi c) (rbp c) (r8 c) (r9 c) (r10 c) x (r12 c) (r13 c) (r14 c) (r15 c)
    (rsp c) (rip c) (rflags c) (cr3 c).

(** Registers are saved in the record of the process that leaves (idle if none does) and loaded from
    the record of the one that enters: by [context_enter_ring3] on its first run, which goes to user
    code at once; by [context_switch], which jumps through r11 and returns to the [fpu_restore] of the
    call that switched it away, on every later one. *)
Definition switch_to_process (nx : Z) : M kernel unit :=
  if nx =? 0 then mret tt else
  prev ← gets current_process;
  (if prev =? 0 then mret tt else
   o ← getp prev;
   if bool_decide (pstate o = PROCESS_RUNNING) then setp prev (set_state PROCESS_READY) else mret tt);;
  setp nx (set_state PROCESS_RUNNING);;
  o ← getp nx;
  idle ← gets idle_process;
  let owner := if negb (prev =? 0) && negb (prev =? nx) then prev else idle in
  c ← gets hw;
  fallback ← gets (fun k => fallback_stack_top (glob k));
  setp owner (set_fpu (fpu c));;
  setp nx (set_first false);;
  setp owner (set_context (regs c));;
  q ← getp nx;
  modify (fun k => set_fds nx (set_current nx (set_hw (mk_cpu
    (if first_run o then context q else set_r11 (rip (context q)) (context q)) 
    (if first_run o then fpu c else fpu_state q) (first_run o)
    (if 0 <? ring0_stack (img o) then ring0_stack (img o) else fallback) (ring0_stack (img o))) k))).

(** The search of [schedule]: at most [tries] rounds are left. *)
Fixpoint sched_loop (tries : nat) (idle cur nx : Z) : M kernel (Z * nat) :=
  match tries with
  | O => mret (nx, O)
  | S t =>
      if nx =? 0 then mret (nx, tries) else
      o ← getp nx;
      if bool_decide (pstate o = PROCESS_READY) && negb (nx =? idle) then mret (nx, tries) else
      if next o =? cur then mret (next o, t) else sched_loop t idle cur (next o)
  end.

(** [schedule]: true when another process got the processor. *)
Definition schedule : M kernel bool :=
  modify (fun k => if (current_process k =? 0) && negb (process_list k =? 0) then set_current (process_list k) k else k);;
  cur ← gets current_process;
  if cur =? 0 then mret false else
  c ← getp cur;
  idle ← gets idle_process;
  '(nx, tries) ← sched_loop 100 idle cur (next c);
  bad ← (if nx =? 0 then mret true else
         o ← getp nx; mret (negb (bool_decide (pstate o = PROCESS_READY)) || (nx =? idle) || bool_decide (tries = O)));
  if bad : bool then
    if bool_decide (pstate c = PROCESS_RUNNING) then mret false else
    if negb (idle =? 0) && negb (idle =? cur) then switch_to_process idle;; mret true else mret false
  else if nx =? cur then mret false
  else switch_to_process nx;; mret true.

Definition process_sleep (ms : Z) : M kernel bool :=
  cur ← gets current_process;
  if (cur =? 0) || (ms =? 0) then mret false else
  t ← gets (fun k => pit_ticks (time k));
  setp cur (set_wakeup (u64 (t + u64 (ms + 9) / 10)));;
  setp cur (set_state PROCESS_SLEEPING);;
  schedule.

(** * Waiting for children *)

(** What a caller of an operation that may give the processor away gets: a result, or the
    processor is now with another process. *)
Inductive flow (A : Type) := Ret (a : A) | Away.
#[global] Arguments Ret {A} _.
#[global] Arguments Away {A}.

Definition is_waiter_for (child p : process) : bool :=
  (pid p =? ppid child) && bool_decide (pstate p = PROCESS_BLOCKED) &&
  ((wait_target_pid p =? pid child) || (wait_target_pid p =? WAIT_ANY_PID)).

Definition find_waiting_parent (child : process) : M kernel Z :=
  if ppid child =? 0 then mret 0 else find_process (is_waiter_for child).

Definition wake_waiting_parent (child : process) : M kernel Z :=
  w ← find_waiting_parent child;
  if w =? 0 then mret 0 else setp w (set_wait 0);; setp w (set_state PROCESS_READY);; mret w.

Definition is_child_of (caller target : Z) (p : process) : bool :=
  (ppid p =? caller) && ((target =? WAIT_ANY_PID) || (pid p =? target)).

(** The scan of [process_wait]: the first zombie, and whether there is a child at all, which the code
    records in the same pass and reads only when there is no zombie. *)
Definition wait_scan (caller target : Z) : M kernel (Z * bool) :=
  z ← find_process (fun p => is_child_of caller target p && bool_decide (pstate p = PROCESS_TERMINATED));
  c ← find_process (is_child_of caller target);
  mret (z, negb (c =? 0)).

Inductive wait_result := Reaped (child code : Z) | NoChild | Blocked (away : bool).

(** A round of the loop of [process_wait], up to and including [schedule]. *)
Definition wait_round (pidarg : Z) : M kernel wait_result :=
  cur ← gets current_process;
  if cur =? 0 then mret NoChild else
  me ← getp cur;
  let target := if pidarg =? 0 then WAIT_ANY_PID else pidarg in
  '(z, has) ← wait_scan (pid me) target;
  if negb (z =? 0) then
    o ← getp z;
    process_remove_from_list z;;
    mret (Reaped (pid o) (exit_code o))
  else if negb has : bool then mret NoChild
  else
    setp cur (set_wait target);;
    setp cur (set_state PROCESS_BLOCKED);;
    away ← schedule;
    mret (Blocked away).

(** What follows when the caller runs again. *)
Definition wait_resume (pidarg : Z) : M kernel wait_result :=
  cur ← gets current_process;
  setp cur (set_wait 0);;
  wait_round pidarg.

(** * The end of a process *)

Definition WM_SENDER_KERNEL : Z := 0.
Definition WM_NOTIFY_PROCESS_EXIT : Z := 102.
Definition bytes32 (x : Z) : list Z := [u8 x; u8 (Z.shiftr x 8); u8 (Z.shiftr x 16); u8 (Z.shiftr x 24)].
Definition wm_notification (n : Z) : list Z := bytes32 WM_NOTIFY_PROCESS_EXIT ++ bytes32 n ++ replicate 84 0.

(** [mailbox_send] of Mailbox on these records; the waiter is the address of a process. *)
Definition mailbox_post (dest sender : Z) (data : list Z) : M kernel Z :=
  if MAX_IPC_MSG_PAYLOAD <? zlen data then mret (-1) else
  d ← process_find_by_pid dest;
  if d =? 0 then mret (-1) else
  o ← getp d;
  r ← lift (enqueue (mbox o) sender data (zlen data));
  match r with
  | None => mret (-2)
  | Some (mb, w) =>
      setp d (set_mbox mb);;
      (match w with None => mret tt | Some q => setp q (set_state PROCESS_READY) end);;
      mret 0
  end.

(** What the system forgets about a dead process; the window server is told about the others. *)
Definition unregister (n : Z) : M kernel unit :=
  on_rest (pe_driver_release n);;
  upd_glob (fun g => if n =? foreground_pid g then set_fg 0 g else g);;
  wm ← gets (fun k => g_wm_pid (glob k));
  (if n =? wm then upd_glob (fun g => set_daemons 0 (g_netd_pid g) (g_soundd_pid g) g);; on_rest pe_redraw
   else if negb (wm =? 0) then mailbox_post wm WM_SENDER_KERNEL (wm_notification n);; mret tt
   else mret tt);;
  upd_glob (fun g => if n =? g_netd_pid g then set_daemons (g_wm_pid g) 0 (g_soundd_pid g) g else g);;
  snd ← gets (fun k => g_soundd_pid (glob k));
  if n =? snd then upd_glob (fun g => set_daemons (g_wm_pid g) (g_netd_pid g) 0 g);; on_rest pe_sound_clear else mret tt.

Definition SHELL_NAME : list Z := [0x73; 0x68; 0x65; 0x6C; 0x6C].

(** [spawn_shell_process] (kernel.c), whose banner is only output. *)
Definition spawn_shell_process : M kernel Z :=
  upd_glob (set_respawn false);;
  ok ← on_rest pe_read_shell;
  if negb ok : bool then mret 0 else
  a ← process_create SHELL_NAME 0;
  if a =? 0 then mret 0 else
  cur ← gets current_process;
  (if cur =? 0 then mret tt else c ← getp cur; setp a (set_cwd (cwd_path c) (cwd_inode c)));;
  o ← getp a;
  r ← on_rest (pe_load_shell (page_table (img o)) (stack_base (img o)));
  match r with
  | None => setp a (set_state PROCESS_TERMINATED);; mret 0
  | Some (entry, (sp, av, ev)) =>
      setp a (fun p => set_shell true (set_context (let c := context p in
        mk_regs (rax c) (rbx c) (rcx c) ev av 0 (rbp c) (r8 c) (r9 c) (r10 c) (r11 c) (r12 c) (r13 c) (r14 c) (r15 c)
          sp entry (rflags c) (cr3 c)) p));;
      mret a
  end.

Definition respawn_shell_if_needed (dying : Z) : M kernel unit :=
  o ← getp dying;
  s ← gets (fun k => has_spawner (glob k));
  if negb (is_shell o) || negb s then mret tt else
  upd_glob (set_respawn true);;
  r ← spawn_shell_process;
  if r =? 0 then upd_glob (set_respawn false) else mret tt.

(** The common end of [process_exit] and [terminate_process_by_signal]: the process that waited for
    it, made ready. *)
Definition bury (a code : Z) : M kernel Z :=
  setp a (set_exit code);;
  setp a (set_state PROCESS_TERMINATED);;
  o ← getp a;
  unregister (pid o);;
  respawn_shell_if_needed a;;
  wake_waiting_parent o.

(** The dead process hands over to its waiting parent, or to whom [schedule] picks. *)
Definition hand_over (w : Z) : M kernel unit :=
  if w =? 0 then schedule;; mret tt else switch_to_process w.

Definition process_exit (code : Z) : M kernel unit :=
  cur ← gets current_process;
  if cur =? 0 then mret tt else
  w ← bury cur code;
  hand_over w.

(** * Signals *)

Definition terminate_process_by_signal (a sig : Z) : M kernel (flow Z) :=
  o ← getp a;
  if bool_decide (pstate o = PROCESS_TERMINATED) then mret (Ret 0) else
  w ← bury a (128 + sig);
  cur ← gets current_process;
  if a =? cur then hand_over w;; mret Away else mret (Ret 0).

Definition catches (o : process) (sig : Z) : bool :=
  ((sig =? SIGINT) || (sig =? SIGTERM) || (sig =? SIGALRM)) &&
  negb (default 0 (zget (signal_handlers (sg o)) sig) =? 0) && negb (in_signal_handler (sg o)).

Definition process_signal (n sig : Z) : M kernel (flow Z) :=
  a ← process_find_by_pid n;
  if a =? 0 then mret (Ret (-1)) else
  idle ← gets idle_process;
  if a =? idle then mret (Ret (-1)) else
  o ← getp a;
  if catches o sig then
    setp a (fun p => set_sg (set_pending sig (sg p)) p);;
    (if bool_decide (pstate o = PROCESS_BLOCKED) || bool_decide (pstate o = PROCESS_SLEEPING)
     then setp a (set_state PROCESS_READY) else mret tt);;
    mret (Ret 0)
  else if (sig =? SIGINT) || (sig =? SIGKILL) || (sig =? SIGTERM) || (sig =? SIGALRM) then terminate_process_by_signal a sig
  else if sig =? SIGSTOP then
    if bool_decide (pstate o = PROCESS_TERMINATED) then mret (Ret 0) else
    setp a (set_state PROCESS_STOPPED);;
    cur ← gets current_process;
    if a =? cur then away ← schedule; mret (if away : bool then Away else Ret 0) else mret (Ret 0)
  else if sig =? SIGCONT then
    (if bool_decide (pstate o = PROCESS_STOPPED) then setp a (set_state PROCESS_READY) else mret tt);;
    mret (Ret 0)
  else mret (Ret (-1)).

Definition process_kill (n : Z) : M kernel (flow Z) := process_signal n SIGKILL.

(** [sys_sigaction] and [sys_alarm] (syscall.c). *)
Definition EFAULT : Z := 14.
Definition EINVAL : Z := 22.

Definition sys_sigaction (sig handler : Z) : M kernel Z :=
  cur ← gets current_process;
  if cur =? 0 then mret (u64 (- EFAULT)) else
  if negb (sig =? SIGINT) && negb (sig =? SIGTERM) && negb (sig =? SIGALRM) then mret (u64 (- EINVAL)) else
  o ← getp cur;
  l ← lift (zset (signal_handlers (sg o)) sig handler);
  setp cur (fun p => set_sg (mk_signals l (pending_signal (sg p)) (in_signal_handler (sg p)) (saved_signal_context (sg p)) (alarm_tick (sg p))) p);;
  mret 0.

Definition sys_alarm (ms : Z) : M kernel Z :=
  cur ← gets current_process;
  if cur =? 0 then mret (u64 (- EFAULT)) else
  t ← gets (fun k => pit_ticks (time k));
  setp cur (fun p => set_sg (set_alarm (if ms =? 0 then 0 else u64 (t + u64 (ms + 9) / 10)) (sg p)) p);;
  mret 0.

(** ** Delivery to a handler

    [syscall_frame] is what [syscall_entry] saves on the kernel stack; on the way back it restores all
    of it but rax, which holds what [syscall_handler] returns, and [f_rax], the number of the call. *)
Record syscall_frame := mk_frame {
  f_r9 : Z; f_r8 : Z; f_r10 : Z; f_rdx : Z; f_rsi : Z; f_rdi : Z; f_rax : Z; f_r15 : Z; f_r14 : Z; f_r13 : Z; f_r12 : Z;
  f_rbp : Z; f_rbx : Z; f_rflags : Z; f_rip : Z; f_pad : Z; f_user_rsp : Z;
}.

Definition frame_context (f : syscall_frame) (old : cpu_context) : cpu_context :=
  mk_regs (f_rax f) (f_rbx f) (rcx old) (f_rdx f) (f_rsi f) (f_rdi f) (f_rbp f) (f_r8 f) (f_r9 f) (f_r10 f) (r11 old)
    (f_r12 f) (f_r13 f) (f_r14 f) (f_r15 f) (f_user_rsp f) (f_rip f) (f_rflags f) (cr3 old).

Definition process_deliver_pending_signal (f : syscall_frame) : M kernel syscall_frame :=
  cur ← gets current_process;
  if cur =? 0 then mret f else
  o ← getp cur;
  if pending_signal (sg o) =? 0 then mret f else
  h ← lift (zget (signal_handlers (sg o)) (pending_signal (sg o)));
  if (h =? 0) || in_signal_handler (sg o) || (sig_stack_top (img o) =? 0) then mret f else
  setp cur (fun p => set_sg (set_saved (frame_context f (saved_signal_context (sg p))) (set_in_handler true (set_pending 0 (sg p)))) p);;
  mret (mk_frame (f_r9 f) (f_r8 f) (f_r10 f) (f_rdx f) (f_rsi f) (pending_signal (sg o)) (f_rax f) (f_r15 f) (f_r14 f) (f_r13 f) (f_r12 f)
    (f_rbp f) (f_rbx f) (f_rflags f) h (f_pad f) (sig_stack_top (img o))).

Definition context_frame (c : cpu_context) (f : syscall_frame) : syscall_frame :=
  mk_frame (r9 c) (r8 c) (r10 c) (rdx c) (rsi c) (rdi c) (f_rax f) (r15 c) (r14 c) (r13 c) (r12 c) (rbp c) (rbx c) (rflags c) (rip c)
    (f_pad f) (rsp c).

Definition process_sigreturn (f : syscall_frame) : M kernel (Z * syscall_frame) :=
  cur ← gets current_process;
  if cur =? 0 then mret (u64 (-1), f) else
  o ← getp cur;
  setp cur (fun p => set_sg (set_in_handler false (sg p)) p);;
  mret (rax (saved_signal_context (sg o)), context_frame (saved_signal_context (sg o)) f).

(** * fork and exec *)

(** What the child of [process_fork] takes from its parent, and its own first context. *)
Definition inherit (parent : process) (space : Z) (f : syscall_frame) (fp : list Z) (child : process) : process :=
  mk_process (pid child) (ppid child) (pname child) PROCESS_READY (wakeup_tick child) (exit_code child) (wait_target_pid child)
    (mk_regs 0 (f_rbx f) 0 0 0 0 (f_rbp f) 0 0 0 0 (f_r12 f) (f_r13 f) (f_r14 f) (f_r15 f) (f_user_rsp f) (f_rip f) (f_rflags f) space) fp
    (mk_image space (stack_base (img parent)) (stack_size (img parent)) (ring0_stack (img child)) (ring0_stack_pages (img child))
      (fpu_raw (img child)) (mmap_regions (img parent)) (next_mmap_addr (img parent)) (mmap_free_ranges (img parent)) (sig_stack_top (img parent)))
    (cwd_path parent) (cwd_inode parent) (uid parent) (gid parent) (is_shell child)
    (mk_signals (signal_handlers (sg parent)) 0 false (saved_signal_context (sg child)) 0) (first_run child) 0 (mbox child) (next child).

Definition set_space (s : Z) (p : process) : process :=
  set_img (let i := img p in mk_image s (stack_base i) (stack_size i) (ring0_stack i) (ring0_stack_pages i) (fpu_raw i)
    (mmap_regions i) (next_mmap_addr i) (mmap_free_ranges i) (sig_stack_top i)) p.

Definition process_fork (f : syscall_frame) : M kernel Z :=
  cur ← gets current_process;
  if cur =? 0 then mret (u64 (-1)) else
  parent ← getp cur;
  c ← process_create (pname parent) 0;
  if c =? 0 then mret (u64 (-1)) else
  o ← getp c;
  parent ← getp cur;
  sp ← on_rest (pe_clone_space (page_table (img parent)));
  if sp =? 0 then process_discard c;; mret (u64 (-1)) else
  setp c (set_space sp);;
  on_rest (pe_free_space (page_table (img o)));;
  l ← on_rest (pe_close_fds c);
  wake_all l;;
  on_rest (pe_copy_fds c cur);;
  parent ← getp cur;
  h ← gets hw;
  setp c (inherit parent sp f (fpu h));;
  mret (pid o).

Definition process_prepare_exec (a : Z) : M kernel (option (Z * Z)) :=
  if a =? 0 then mret None else
  sp ← on_rest pe_create_space;
  if sp =? 0 then mret None else
  o ← getp a;
  st ← allocate_user_stack USER_STACK_SIZE sp (pid o);
  if st =? 0 then on_rest (pe_free_space sp);; mret None else mret (Some (sp, st)).

Definition process_commit_exec (a sp st : Z) (name : list Z) : M kernel Z :=
  if a =? 0 then mret (-1) else
  o ← getp a;
  sig ← allocate_user_stack_in SIGNAL_STACK_SIZE sp (pid o) SIGNAL_STACK_AREA_START 0;
  setp a (fun p => set_name (cut_name name)
    (set_img (let i := img p in mk_image sp st USER_STACK_SIZE (ring0_stack i) (ring0_stack_pages i) (fpu_raw i) no_regions MMAP_AREA_START no_ranges sig)
    (set_sg (mk_signals no_handlers 0 false (saved_signal_context (sg p)) 0) p)));;
  mret 0.

(** * Registered daemons and the foreground *)

Definition process_wm_register (n : Z) : M kernel Z :=
  w ← gets (fun k => g_wm_pid (glob k));
  if negb (w =? 0) then mret (-1) else upd_glob (fun g => set_daemons n (g_netd_pid g) (g_soundd_pid g) g);; mret 0.
Definition process_wm_unregister (n : Z) : M kernel Z :=
  w ← gets (fun k => g_wm_pid (glob k));
  if negb (w =? n) then mret (-1) else upd_glob (fun g => set_daemons 0 (g_netd_pid g) (g_soundd_pid g) g);; mret 0.
Definition process_get_wm_pid : M kernel Z := gets (fun k => g_wm_pid (glob k)).
Definition process_netd_register (n : Z) : M kernel Z :=
  w ← gets (fun k => g_netd_pid (glob k));
  if negb (w =? 0) then mret (-1) else upd_glob (fun g => set_daemons (g_wm_pid g) n (g_soundd_pid g) g);; mret 0.
Definition process_netd_unregister (n : Z) : M kernel Z :=
  w ← gets (fun k => g_netd_pid (glob k));
  if negb (w =? n) then mret (-1) else upd_glob (fun g => set_daemons (g_wm_pid g) 0 (g_soundd_pid g) g);; mret 0.
Definition process_get_netd_pid : M kernel Z := gets (fun k => g_netd_pid (glob k)).
Definition process_soundd_register (n : Z) : M kernel Z :=
  w ← gets (fun k => g_soundd_pid (glob k));
  if negb (w =? 0) then mret (-1) else upd_glob (fun g => set_daemons (g_wm_pid g) (g_netd_pid g) n g);; mret 0.
Definition process_soundd_unregister (n : Z) : M kernel Z :=
  w ← gets (fun k => g_soundd_pid (glob k));
  if negb (w =? n) then mret (-1) else upd_glob (fun g => set_daemons (g_wm_pid g) (g_netd_pid g) 0 g);; mret 0.
Definition process_get_soundd_pid : M kernel Z := gets (fun k => g_soundd_pid (glob k)).

(** The walk up the parents, at most [MAX_PROCESSES] of them. *)
Fixpoint ancestor_loop (depth : nat) (caller walk : Z) : M kernel bool :=
  match depth with
  | O => mret false
  | S depth =>
      if walk =? 0 then mret false else
      if walk =? caller then mret true else
      a ← process_find_by_pid walk;
      if a =? 0 then mret false else o ← getp a; ancestor_loop depth caller (ppid o)
  end.

Definition process_set_foreground (caller target : Z) : M kernel Z :=
  if target =? 0 then upd_glob (set_fg 0);; mret 0 else
  t ← process_find_by_pid target;
  if t =? 0 then mret (-1) else
  o ← getp t;
  ok ← ancestor_loop (Z.to_nat MAX_PROCESSES) caller (ppid o);
  if ok : bool then upd_glob (set_fg target);; mret 0 else mret (-1).
Definition process_get_foreground : M kernel Z := gets (fun k => foreground_pid (glob k)).
Definition process_is_idle : M kernel bool := gets (fun k => current_process k =? idle_process k).

(** A row of [process_pslist]: pid, ppid, name, state, uid, ticks. *)
Record ps_entry := mk_ps { e_pid : Z; e_ppid : Z; e_name : list Z; e_state : process_state; e_uid : Z; e_ticks : Z }.
Definition ps_of (p : process) : ps_entry := mk_ps (pid p) (ppid p) (pname p) (pstate p) (uid p) (cpu_ticks p).

Fixpoint pslist_loop (fuel : nat) (room start p : Z) : M kernel (list ps_entry) :=
  match fuel with
  | O => fault
  | S fuel =>
      if room =? 0 then mret [] else
      o ← getp p;
      if (next o =? 0) || (next o =? start) then mret [ps_of o] else
      l ← pslist_loop fuel (room - 1) start (next o);
      mret (ps_of o :: l)
  end.
Definition process_pslist (max : Z) : M kernel (list ps_entry) :=
  h ← gets process_list;
  n ← gets (fun k => size (procs k));
  if h =? 0 then mret [] else pslist_loop n max h h.

(** * The timer tick *)

Definition PREEMPT_TIMESLICE_TICKS : Z := 5.

(** [shell_handle_ctrl_c] (shell.c), without the prompt. *)
Definition shell_handle_ctrl_c : M kernel (flow unit) :=
  n ← gets (fun k => foreground_pid (glob k));
  if n =? 0 then mret (Ret tt) else
  r ← process_signal n SIGINT;
  match r with
  | Away => mret Away
  | Ret _ => w ← wait_round n; mret (match w with Blocked _ => Away | _ => Ret tt end)
  end.

(** The scan of the tick: sleepers whose time has come, expired alarms. *)
Definition tick_process (p : Z) : M kernel (option unit) :=
  now ← gets (fun k => pit_ticks (time k));
  o ← getp p;
  (if bool_decide (pstate o = PROCESS_SLEEPING) && (wakeup_tick o <=? now) then setp p (set_state PROCESS_READY) else mret tt);;
  if negb (alarm_tick (sg o) =? 0) && (alarm_tick (sg o) <=? now) then
    setp p (fun p => set_sg (set_alarm 0 (sg p)) p);;
    r ← process_signal (pid o) SIGALRM;
    mret (match r with Away => Some tt | Ret _ => None end)
  else mret None.

Definition count_tick : M kernel unit :=
  i ← process_is_idle;
  modify (fun k => let t := time k in set_time (mk_clock (u64 (pit_ticks t + 1)) (u64 (g_total_ticks t + 1))
    (if i : bool then u64 (g_idle_ticks t + 1) else g_idle_ticks t) (preempt_countdown t)) k);;
  cur ← gets current_process;
  if cur =? 0 then mret tt else setp cur (fun p => set_ticks (u64 (cpu_ticks p + 1)) p).

(** [timer_irq_handler]: whether it returns to the code it interrupted; [from_user] is
    [frame->cs == 0x33].  The console and USB polling in between have no effect on processes. *)
Definition timer_irq_handler (from_user : bool) : M kernel bool :=
  count_tick;;
  r ← ring_walk tick_process;
  match r with
  | Some _ => mret false
  | None =>
      process_reap;;
      c ← gets (fun k => ctrl_c_pending (glob k));
      f ← (if c : bool then upd_glob (set_ctrl_c false);; shell_handle_ctrl_c else mret (Ret tt));
      match f with
      | Away => mret false
      | Ret _ =>
          cur ← gets current_process;
          if from_user && negb (cur =? 0) then
            n ← gets (fun k => preempt_countdown (time k));
            let n := u32 (n - 1) in
            let put x := modify (fun k => let t := time k in set_time (mk_clock (pit_ticks t) (g_total_ticks t) (g_idle_ticks t) x) k) in
            if n =? 0 then put PREEMPT_TIMESLICE_TICKS;; away ← schedule; mret (negb away) else put n;; mret true
          else mret true
      end
  end.

End kernel.
