(* ===== verification/ProcessRing.v ===== *)
(** The circular list of processes as a list of addresses, and what the loops of process.c over it
    compute. *)

From S2P Require Import Prelude Interfaces Mailbox ProcessEnv Process.

(** * Segments *)

(** From [x] the pointers of [m] lead through the nodes [l] to [y]. *)
Fixpoint lseg (m : gmap Z Z) (x : Z) (l : list Z) (y : Z) : Prop :=
  match l with
  | [] => x = y
  | a :: l => x = a /\ exists b, m !! a = Some b /\ lseg m b l y
  end.

Lemma lseg_app m l l' : forall x y, lseg m x (l ++ l') y <-> exists z, lseg m x l z /\ lseg m z l' y.
Proof.
  induction l as [|a l IH]; intros x y; cbn; [naive_solver|]. split.
  - intros (-> & b & Hb & H). apply IH in H as (z & H1 & H2). exists z. naive_solver.
  - intros (z & (-> & b & Hb & H1) & H2). split; [done|]. exists b. split; [done|]. apply IH. naive_solver.
Qed.

Lemma lseg_insert m a b l : forall x y, (a ∉ l) -> lseg m x l y -> lseg (<[a := b]> m) x l y.
Proof.
  induction l as [|c l IH]; intros x y Ha; cbn; [done|]. intros (-> & d & Hd & H).
  apply not_elem_of_cons in Ha as [Hne Ha]. split; [done|]. exists d. rewrite lookup_insert_ne by done. auto.
Qed.

Lemma lseg_delete m a l : forall x y, (a ∉ l) -> lseg m x l y -> lseg (delete a m) x l y.
Proof.
  induction l as [|c l IH]; intros x y Ha; cbn; [done|]. intros (-> & d & Hd & H).
  apply not_elem_of_cons in Ha as [Hne Ha]. split; [done|]. exists d. rewrite lookup_delete_ne by done. auto.
Qed.

(** The last pointer of a segment redirected. *)
Lemma lseg_redirect m l a x y z : (a ∉ l) -> lseg m x (l ++ [a]) y -> lseg (<[a := z]> m) x (l ++ [a]) z.
Proof.
  intros Ha (w & H1 & -> & b & Hb & ->)%lseg_app. apply lseg_app. exists a. split; [by apply lseg_insert|].
  split; [done|]. exists z. by rewrite lookup_insert_eq.
Qed.

Lemma lseg_head m x a l y : lseg m x (a :: l) y -> x = a.
Proof. by intros [-> _]. Qed.

Section ring.
Context {R : Type} `{!ProcessEnv R}.
Implicit Types (k : kernel (R := R)).

Definition links k : gmap Z Z := next <$> procs k.

(** The processes are the nodes of [l], in the order of the list from its head, the idle process. *)
Record ring k (l : list Z) : Prop := {
  rg_seg : lseg (links k) (process_list k) l (process_list k);
  rg_nodup : NoDup l;
  rg_head : exists tl, l = idle_process k :: tl;
  rg_nz : 0 ∉ l;
  rg_dom : forall a, is_Some (procs k !! a) <-> a ∈ l;
}.

Lemma ring_list k l : ring k l -> process_list k = idle_process k.
Proof. intros H. destruct (rg_head _ _ H) as [tl ->]. by apply (lseg_head _ _ _ _ _ (rg_seg _ _ H)). Qed.

Lemma ring_idle k l : ring k l -> idle_process k <> 0 /\ idle_process k ∈ l.
Proof.
  intros H. destruct (rg_head _ _ H) as [tl E]. assert (idle_process k ∈ l) as Hin by (rewrite E; apply list_elem_of_here).
  split; [|done]. intros H0. apply (rg_nz _ _ H). by rewrite H0 in Hin.
Qed.

Lemma ring_get k l a : ring k l -> a ∈ l -> exists p, procs k !! a = Some p.
Proof. intros H Ha. by apply (rg_dom _ _ H) in Ha as [p Hp]; exists p. Qed.

Lemma ring_size k l : ring k l -> size (procs k) = length l.
Proof.
  intros H. rewrite <- size_dom. assert (dom (procs k) = list_to_set l) as ->.
  - apply set_eq. intros a. rewrite elem_of_dom, elem_of_list_to_set. apply (rg_dom _ _ H).
  - apply size_list_to_set, (rg_nodup _ _ H).
Qed.

(** Only the pointers matter. *)
Lemma ring_same k k' l : ring k l -> links k' = links k -> process_list k' = process_list k -> idle_process k' = idle_process k -> ring k' l.
Proof.
  intros [H1 H2 H3 H4 H5] El Ep Ei. split; [by rewrite El, Ep|done|by rewrite Ei|done|].
  intros a. rewrite <- H5. rewrite <- (fmap_is_Some next (procs k !! a)), <- (fmap_is_Some next (procs k' !! a)).
  rewrite <- !lookup_fmap. change (next <$> procs k') with (links k'). by rewrite El.
Qed.

Lemma links_update k a p q : procs k !! a = Some p -> next q = next p -> links (set_procs (<[a := q]> (procs k)) k) = links k.
Proof.
  intros Hp Hn. unfold links. cbn. rewrite fmap_insert, Hn. apply insert_id. by rewrite lookup_fmap, Hp.
Qed.

(** * Searching *)

Definition sat k (P : process -> bool) (a : Z) : bool := match procs k !! a with Some p => P p | None => false end.

(** The first address of [l] whose process has property [P], 0 if there is none. *)
Definition pick k (P : process -> bool) (l : list Z) : Z := default 0 (List.find (sat k P) l).

Lemma ring_do_find k P start : forall l p fuel, lseg (links k) p l start -> l <> [] -> (0 ∉ l) -> start <> 0 -> (start ∉ List.tl l) -> (length l <= fuel)%nat ->
  ring_do fuel start (fun p => o ← getp p; mret (if P o : bool then Some p else None)) p k = Some (List.find (sat k P) l, k).
Proof.
  induction l as [|a l IH]; intros p fuel Hs Hne Hz Hst Hnot Hf; [done|]. destruct fuel as [|fuel]; [cbn in Hf; lia|].
  destruct Hs as (-> & b & Hb & Hs). unfold links in Hb. rewrite lookup_fmap in Hb. destruct (procs k !! a) as [o|] eqn:Ea; [|done]. injection Hb as <-.
  assert (sat k P a = P o) as Es by (unfold sat; by rewrite Ea).
  cbn [ring_do List.find]. rewrite Es. unfold mbind, M_bind, mret, M_ret, getp. rewrite Ea.
  destruct (P o); [done|]. rewrite Ea. cbn in Hnot.
  apply not_elem_of_cons in Hz as [_ Hz]. destruct l as [|c l].
  - cbn in Hs. subst start. rewrite Z.eqb_refl, orb_true_r. done.
  - pose proof (lseg_head _ _ _ _ _ Hs) as Hc. rewrite Hc in *.
    rewrite (proj2 (Z.eqb_neq c 0)), (proj2 (Z.eqb_neq c start)); cycle 1.
    { intros ->. apply Hnot, list_elem_of_here. } { intros ->. apply Hz, list_elem_of_here. }
    cbn [orb]. apply IH; [done|done|done|done|by intros H; apply Hnot, list_elem_of_further|cbn in *; lia].
Qed.

Lemma find_process_outcome k l P : ring k l -> find_process P k = Some (pick k P l, k).
Proof.
  intros H. unfold find_process, ring_walk, gets, mbind, M_bind. destruct (ring_idle _ _ H) as [Hi Hin].
  rewrite (ring_list _ _ H). rewrite (proj2 (Z.eqb_neq _ _) Hi). rewrite (ring_size _ _ H).
  pose proof (ring_do_find k P (idle_process k) l (idle_process k) (length l + Z.to_nat MAX_PROCESSES + 1)) as E. destruct (rg_head _ _ H) as [tl El].
  pose proof (rg_seg _ _ H) as Hs. pose proof (ring_list _ _ H) as Epl. rewrite Epl in Hs. pose proof (rg_nodup _ _ H) as Hnd.
  unfold mbind, M_bind in E. rewrite E; [done|done|by rewrite El|by apply (rg_nz _ _ H)|done| |lia].
  rewrite El in Hnd |- *. by apply NoDup_cons in Hnd as [? _].
Qed.

Lemma pick_spec k P l : (0 ∉ l) -> let a := pick k P l in
  (a <> 0 /\ (exists p, procs k !! a = Some p /\ P p = true) /\ exists l1 l2, l = l1 ++ a :: l2 /\ Forall (fun b => sat k P b = false) l1)
  \/ (a = 0 /\ Forall (fun b => sat k P b = false) l).
Proof.
  intros Hz. unfold pick. induction l as [|b l IH]; [right; split; [done|constructor]|]. apply not_elem_of_cons in Hz as [Hb Hz].
  cbn [List.find]. destruct (sat k P b) eqn:E.
  - left. cbn. split; [done|]. split; [|exists [], l; by split; [|constructor]]. unfold sat in E. destruct (procs k !! b); [eauto|done].
  - destruct (IH Hz) as [(H1 & H2 & l1 & l2 & El & H3)|[H1 H2]]; [left|right].
    + split_and!; [done|done|]. exists (b :: l1), l2. split; [by rewrite El at 1|]. by constructor.
    + split; [done|]. by constructor.
Qed.

Lemma pick_Some k P l a p : (0 ∉ l) -> a ∈ l -> procs k !! a = Some p -> P p = true ->
  (forall b q, b ∈ l -> procs k !! b = Some q -> P q = true -> b = a) -> pick k P l = a.
Proof.
  intros Hz Ha Hp HP Hu. destruct (pick_spec k P l Hz) as [(_ & (q & Hq & HPq) & l1 & l2 & El & _)|[_ Hf]].
  - apply (Hu _ q); [rewrite El at 2; set_solver|done|done].
  - rewrite Forall_forall in Hf. specialize (Hf _ Ha). unfold sat in Hf. by rewrite Hp, HP in Hf.
Qed.

Lemma pick_None k P l : (forall a p, a ∈ l -> procs k !! a = Some p -> P p = false) -> pick k P l = 0.
Proof.
  intros H. unfold pick. destruct (List.find (sat k P) l) as [a|] eqn:E; [|done]. apply find_some in E as [Hin%list_elem_of_In HP].
  unfold sat in HP. destruct (procs k !! a) as [p|] eqn:Ep; [|done]. by rewrite (H a p Hin Ep) in HP.
Qed.

(** * Loops with effects *)

(** A body that leaves the pointers alone visits the nodes in order, until it stops the loop. *)
Lemma wp_ring_do {A} (I : list Z -> kernel -> Prop) (Q : option A -> kernel -> Prop) (m : gmap Z Z) start body :
  (forall a l k, I (a :: l) k -> links k = m -> wp (body a) (fun r k' => match r with Some x => Q (Some x) k' | None => links k' = m /\ I l k' end) k) ->
  (forall k, I [] k -> links k = m -> Q None k) ->
  forall l p fuel k, lseg m p l start -> l <> [] -> (0 ∉ l) -> start <> 0 -> (start ∉ List.tl l) -> (length l <= fuel)%nat ->
  I l k -> links k = m -> wp (ring_do fuel start body p) Q k.
Proof.
  intros Hbody Hend. induction l as [|a l IH]; intros p fuel k Hs Hne Hz Hst Hnot Hf HI Hm; [done|]. destruct fuel as [|fuel]; [cbn in Hf; lia|].
  destruct Hs as (-> & b & Hb & Hs). cbn [ring_do]. wstep. eapply wp_mono; [by apply (Hbody a l)|]. cbv beta. intros [x|] k' H.
  { by wstep. }
  destruct H as [Hm' HI']. apply not_elem_of_cons in Hz as [_ Hz]. cbn in Hnot.
  pose proof Hb as Hb'. rewrite <- Hm' in Hb'. unfold links in Hb'. rewrite lookup_fmap in Hb'. destruct (procs k' !! a) as [o|] eqn:Ea; [|done].
  injection Hb' as Eo. wstep. eapply wp_Some; [unfold getp; by rewrite Ea|]. rewrite Eo. destruct l as [|c l].
  - cbn in Hs. subst b. rewrite Z.eqb_refl, orb_true_r. wstep. by apply Hend.
  - pose proof (lseg_head _ _ _ _ _ Hs) as Hc. rewrite Hc in *.
    rewrite (proj2 (Z.eqb_neq c 0)), (proj2 (Z.eqb_neq c start)); cycle 1.
    { intros ->. apply Hnot, list_elem_of_here. } { intros ->. apply Hz, list_elem_of_here. }
    cbn [orb]. apply IH; [done|done|done|done|by intros H; apply Hnot, list_elem_of_further|cbn in *; lia|done|done].
Qed.

Lemma wp_ring_walk {A} (I : list Z -> kernel -> Prop) (Q : option A -> kernel -> Prop) k l body : ring k l ->
  (forall a l k', I (a :: l) k' -> links k' = links k -> wp (body a) (fun r k'' => match r with Some x => Q (Some x) k'' | None => links k'' = links k /\ I l k'' end) k') ->
  (forall k', I [] k' -> links k' = links k -> Q None k') ->
  I l k -> wp (ring_walk body) Q k.
Proof.
  intros H Hbody Hend HI. unfold ring_walk. wstep. wstep. wstep. wstep. destruct (ring_idle _ _ H) as [Hi Hin].
  pose proof (ring_list _ _ H) as Epl. rewrite Epl, (proj2 (Z.eqb_neq _ _) Hi), (ring_size _ _ H). destruct (rg_head _ _ H) as [tl El].
  pose proof (rg_seg _ _ H) as Hs. rewrite Epl in Hs. pose proof (rg_nodup _ _ H) as Hnd.
  apply (wp_ring_do I Q (links k) (idle_process k) body Hbody Hend l); [done|by rewrite El|by apply (rg_nz _ _ H)|done| |lia|done|done].
  rewrite El in Hnd |- *. by apply NoDup_cons in Hnd as [? _].
Qed.

Lemma last_before_outcome k stop : forall l a p fuel, lseg (links k) p (l ++ [a]) stop -> (0 ∉ l ++ [a]) -> (stop ∉ List.tl (l ++ [a])) ->
  (length (l ++ [a]) <= fuel)%nat -> last_before fuel stop p k = Some (a, k).
Proof.
  induction l as [|c l IH]; intros a p fuel Hs Hz Hnot Hf; cbn [app] in *; (destruct fuel as [|fuel]; [cbn in Hf; lia|]);
    destruct Hs as (-> & b & Hb & Hs); unfold links in Hb; rewrite lookup_fmap in Hb;
    [destruct (procs k !! a) as [o|] eqn:Ea|destruct (procs k !! c) as [o|] eqn:Ea]; try done; injection Hb as Eb;
    cbn [last_before]; unfold getp, mbind, M_bind; rewrite Ea; cbv beta iota; rewrite Eb.
  - cbn in Hs. rewrite Hs. by rewrite Z.eqb_refl, orb_true_r.
  - apply not_elem_of_cons in Hz as [_ Hz]. cbn in Hnot.
    assert (b ∈ l ++ [a]) as Hin. { destruct l; cbn in Hs |- *; destruct Hs as [-> _]; apply list_elem_of_here. }
    rewrite (proj2 (Z.eqb_neq b 0)), (proj2 (Z.eqb_neq b stop)) by (intros ->; done). cbn [orb].
    apply IH; [done|done| |cbn in Hf; lia]. intros H. apply Hnot. destruct (l ++ [a]); [done|by apply list_elem_of_further].
Qed.

Lemma prev_of_outcome k target head : forall l a p fuel, lseg (links k) p (l ++ [a]) target -> (target ∉ l ++ [a]) -> (head ∉ List.tl (l ++ [a])) ->
  (length (l ++ [a]) <= fuel)%nat -> prev_of fuel target head p k = Some (a, k).
Proof.
  induction l as [|c l IH]; intros a p fuel Hs Hz Hnot Hf; cbn [app] in *; (destruct fuel as [|fuel]; [cbn in Hf; lia|]);
    destruct Hs as (-> & b & Hb & Hs); unfold links in Hb; rewrite lookup_fmap in Hb;
    [destruct (procs k !! a) as [o|] eqn:Ea|destruct (procs k !! c) as [o|] eqn:Ea]; try done; injection Hb as Eb;
    cbn [prev_of]; unfold getp, mbind, M_bind; rewrite Ea; cbv beta iota; rewrite Eb.
  - cbn in Hs. rewrite Hs. by rewrite Z.eqb_refl.
  - apply not_elem_of_cons in Hz as [_ Hz]. cbn in Hnot.
    assert (b ∈ l ++ [a]) as Hin. { destruct l; cbn in Hs |- *; destruct Hs as [-> _]; apply list_elem_of_here. }
    rewrite (proj2 (Z.eqb_neq b target)), (proj2 (Z.eqb_neq b head)) by (intros ->; done). cbn [orb].
    apply IH; [done|done| |cbn in Hf; lia]. intros H. apply Hnot. destruct (l ++ [a]); [done|by apply list_elem_of_further].
Qed.
End ring.
