(* ===== verification/ProcessSched.v ===== *)
(** Scheduling: which process [schedule] picks, what a switch does to the processes and the processor,
    and how long a ready process may have to wait. *)

From S2P Require Import Prelude Interfaces Mailbox ProcessEnv Process ProcessRing.

Section sched.
Context {R : Type} `{!ProcessEnv R}.
Implicit Types (k : kernel (R := R)).
#[local] Opaque gmap_partial_alter gmap_lookup.

Lemma wp_getp a p k (Q : process -> kernel -> Prop) : procs k !! a = Some p -> Q p k -> wp (getp a) Q k.
Proof. unfold wp, getp. by intros ->. Qed.

Lemma wp_setp a p f k (Q : unit -> kernel -> Prop) : procs k !! a = Some p -> Q tt (set_procs (<[a := f p]> (procs k)) k) -> wp (setp a f) Q k.
Proof. unfold wp, setp. by intros ->. Qed.

Lemma getp_eq a p k : procs k !! a = Some p -> getp a k = Some (p, k).
Proof. unfold getp. by intros ->. Qed.
Lemma setp_eq a p f k : procs k !! a = Some p -> setp a f k = Some (tt, set_procs (<[a := f p]> (procs k)) k).
Proof. unfold setp. by intros ->. Qed.

Lemma wp_on_rest {A} (m : M R A) k (Q : A -> kernel -> Prop) : wp m (fun x r => Q x (set_rest r k)) (rest k) -> wp (on_rest m) Q k.
Proof. unfold wp, on_rest. by destruct (m (rest k)) as [[x r]|]. Qed.

(** * Switching *)

Definition left_by (h : cpu) (p : process) : process :=
  set_context (regs h) (set_fpu (fpu h) (if bool_decide (pstate p = PROCESS_RUNNING) then set_state PROCESS_READY p else p)).
Definition entered (p : process) : process := set_first false (set_state PROCESS_RUNNING p).

(** What the processor holds when [p] enters. *)
Definition loaded k (p : process) : cpu :=
  mk_cpu (if first_run p then context p else set_r11 (rip (context p)) (context p)) (if first_run p then fpu (hw k) else fpu_state p) (first_run p)
    (if 0 <? ring0_stack (img p) then ring0_stack (img p) else fallback_stack_top (glob k)) (ring0_stack (img p)).

Definition switch_result k (cur nx : Z) (c p : process) : kernel :=
  mk_kernel (<[nx := entered p]> (<[cur := left_by (hw k) c]> (procs k))) (process_list k) nx (idle_process k) nx (loaded k p) (time k) (glob k) (rest k).

Lemma switch_outcome k cur nx c p : current_process k = cur -> cur <> 0 -> nx <> 0 -> nx <> cur -> procs k !! cur = Some c -> procs k !! nx = Some p ->
  switch_to_process nx k = Some (tt, switch_result k cur nx c p).
Proof.
  intros Hc H0 Hn Hne Hcur Hnx. unfold switch_to_process. rewrite (proj2 (Z.eqb_neq nx 0) Hn). unfold gets.
  rewrite (bind_Some _ _ _ _ _ eq_refl), Hc. cbv beta. rewrite (proj2 (Z.eqb_neq cur 0) H0).
  set (c1 := if bool_decide (pstate c = PROCESS_RUNNING) then set_state PROCESS_READY c else c).
  assert ((o ← getp cur; if bool_decide (pstate o = PROCESS_RUNNING) then setp cur (set_state PROCESS_READY) else mret tt) k =
    Some (tt, set_procs (<[cur := c1]> (procs k)) k)) as E1.
  { rewrite (bind_Some _ _ _ _ _ (getp_eq _ _ _ Hcur)). unfold c1. case_bool_decide; [by apply setp_eq|]. rewrite insert_id by done. by destruct k. }
  rewrite (bind_Some _ _ _ _ _ E1). cbv beta. set (k1 := set_procs _ k) in *.
  assert (procs k1 !! nx = Some p) as Hnx1 by (cbn; by rewrite lookup_insert_ne).
  rewrite (bind_Some _ _ _ _ _ (setp_eq _ _ _ _ Hnx1)). cbv beta. set (k2 := set_procs _ k1).
  assert (procs k2 !! nx = Some (set_state PROCESS_RUNNING p)) as Hnx2 by (cbn; by rewrite lookup_insert_eq).
  assert (procs k2 !! cur = Some c1) as Hc2 by (cbn; by rewrite lookup_insert_ne, lookup_insert_eq).
  rewrite (bind_Some _ _ _ _ _ (getp_eq _ _ _ Hnx2)). cbv beta.
  do 3 (rewrite (bind_Some _ _ _ _ _ eq_refl); cbv beta).
  rewrite (proj2 (Z.eqb_neq cur nx)) by done. cbn [negb andb].
  rewrite (bind_Some _ _ _ _ _ (setp_eq _ _ _ _ Hc2)). cbv beta. set (k3 := set_procs _ k2).
  assert (procs k3 !! nx = Some (set_state PROCESS_RUNNING p)) as Hnx3 by (cbn; by rewrite lookup_insert_ne).
  rewrite (bind_Some _ _ _ _ _ (setp_eq _ _ _ _ Hnx3)). cbv beta. set (k4 := set_procs _ k3).
  assert (procs k4 !! cur = Some (set_fpu (fpu (hw k2)) c1)) as Hc4 by (cbn; by rewrite lookup_insert_ne, lookup_insert_eq).
  rewrite (bind_Some _ _ _ _ _ (setp_eq _ _ _ _ Hc4)). cbv beta. set (k5 := set_procs _ k4).
  assert (procs k5 !! nx = Some (entered p)) as Hnx5 by (cbn; by rewrite lookup_insert_ne, lookup_insert_eq).
  rewrite (bind_Some _ _ _ _ _ (getp_eq _ _ _ Hnx5)). cbv beta.
  assert (procs k5 = <[nx := entered p]> (<[cur := left_by (hw k) c]> (procs k))) as Ep.
  { apply map_eq. intros i. destruct (decide (i = nx)) as [->|Hi]; [by rewrite Hnx5, lookup_insert_eq|].
    rewrite lookup_insert_ne by done. destruct (decide (i = cur)) as [->|Hi']; [cbn; by rewrite !lookup_insert_eq|].
    cbn. by rewrite !lookup_insert_ne by done. }
  unfold modify, switch_result. do 2 f_equal. unfold set_fds, set_current, set_hw. cbn [procs process_list current_process idle_process current_fd_table hw time glob rest].
  by rewrite Ep.
Qed.

(** * The search *)

Definition runnable k (a : Z) : bool := sat k (fun p => bool_decide (pstate p = PROCESS_READY)) a && negb (a =? idle_process k).

Definition next_runnable k (l : list Z) : Z := default 0 (List.find (runnable k) l).

(** From [nx] on, the nodes [l] and then [cur]. *)
Lemma sched_loop_outcome k cur : forall l nx tries, lseg (links k) nx l cur -> l <> [] -> (0 ∉ l) -> (cur ∉ List.tl l) -> (length l < tries)%nat ->
  exists t, t <> O /\ sched_loop tries (idle_process k) cur nx k = Some ((if next_runnable k l =? 0 then cur else next_runnable k l, t), k).
Proof.
  induction l as [|a l IH]; intros nx tries Hs Hne Hz Hnot Ht; [done|]. destruct tries as [|tries]; [cbn in Ht; lia|].
  destruct Hs as (-> & b & Hb & Hs). unfold links in Hb. rewrite lookup_fmap in Hb. destruct (procs k !! a) as [o|] eqn:Ea; [|done]. injection Hb as Eb.
  apply not_elem_of_cons in Hz as [Ha Hz]. cbn [sched_loop]. rewrite (proj2 (Z.eqb_neq a 0)) by done.
  unfold mbind, M_bind, mret, M_ret, getp. rewrite Ea. unfold next_runnable at 1 2. cbn [List.find].
  assert (runnable k a = bool_decide (pstate o = PROCESS_READY) && negb (a =? idle_process k)) as Er by (unfold runnable, sat; by rewrite Ea).
  rewrite Er. destruct (bool_decide _ && _) eqn:E.
  - cbn. rewrite (proj2 (Z.eqb_neq a 0)) by done. by exists (S tries).
  - rewrite Eb. destruct l as [|d l].
    + cbn in Hs. rewrite Hs, Z.eqb_refl. exists tries. split; [cbn in Ht; lia|done].
    + pose proof (lseg_head _ _ _ _ _ Hs) as ->. cbn in Hnot. rewrite (proj2 (Z.eqb_neq d cur)) by (intros ->; apply Hnot, list_elem_of_here).
      apply IH; [done|done|done|intros H; by apply Hnot, list_elem_of_further|cbn in *; lia].
Qed.

(** The order in which [schedule] looks at the others, starting after [cur]. *)
Definition after (cur : Z) (l : list Z) : list Z :=
  match list_find (cur =.) l with Some (i, _) => drop (S i) l ++ take i l | None => [] end.

Lemma after_split cur l1 l2 : (cur ∉ l1) -> after cur (l1 ++ cur :: l2) = l2 ++ l1.
Proof.
  intros Hn. unfold after. assert (list_find (cur =.) (l1 ++ cur :: l2) = Some (length l1, cur)) as ->.
  - apply list_find_Some. split_and!; [by apply list_lookup_middle|done|]. intros j y Hj Hlt E. apply Hn. rewrite lookup_app_l in Hj by done.
    rewrite E. by eapply list_elem_of_lookup_2.
  - cbn. rewrite take_app_length. f_equal. replace (S (length l1)) with (length (l1 ++ [cur])) by (rewrite length_app; cbn; lia).
    change (cur :: l2) with ([cur] ++ l2). by rewrite app_assoc, drop_app_length.
Qed.

Lemma ring_after k l cur : ring k l -> cur ∈ l -> exists l1 l2, l = l1 ++ cur :: l2 /\ (cur ∉ l1) /\ (cur ∉ l2) /\ after cur l = l2 ++ l1 /\
  exists c, procs k !! cur = Some c /\ lseg (links k) (next c) (l2 ++ l1) cur.
Proof.
  intros H Hin. apply list_elem_of_split in Hin as (l1 & l2 & E). pose proof (rg_nodup _ _ H) as Hnd. rewrite E in Hnd.
  apply NoDup_app in Hnd as (Hnd1 & Hdis & Hnd2). apply NoDup_cons in Hnd2 as [Hc2 Hnd2].
  assert (cur ∉ l1) as Hc1 by (intros Hc; apply (Hdis _ Hc), list_elem_of_here).
  exists l1, l2. split_and!; [done|done|done|by rewrite E, after_split|].
  pose proof (rg_seg _ _ H) as Hs. rewrite E in Hs. apply lseg_app in Hs as (z & H1 & -> & b & Hb & H2).
  unfold links in Hb. rewrite lookup_fmap in Hb. destruct (procs k !! cur) as [c|] eqn:Ec; [|done]. injection Hb as <-.
  exists c. split; [done|]. apply lseg_app. eauto.
Qed.

Definition keeps_cpu k (c : process) (cur : Z) : bool :=
  bool_decide (pstate c = PROCESS_RUNNING) || bool_decide (pstate c = PROCESS_READY) || (cur =? idle_process k).

Lemma schedule_outcome k l cur c : ring k l -> (length l <= 100)%nat -> current_process k = cur -> cur ∈ l -> procs k !! cur = Some c ->
  let nx := next_runnable k (after cur l) in
  schedule k =
    if negb (nx =? 0) then (switch_to_process nx;; mret true) k
    else if keeps_cpu k c cur then Some (false, k)
    else (switch_to_process (idle_process k);; mret true) k.
Proof.
  intros H Hlen Hcur Hin Hc. destruct (ring_after _ _ _ H Hin) as (l1 & l2 & El & Hc1 & Hc2 & Ea & c' & Hc' & Hs). rewrite Hc in Hc'. injection Hc' as <-.
  intros nx. assert (cur <> 0) as Hcur0 by (intros ->; by apply (rg_nz _ _ H)).
  assert (forall x, x ∈ l2 ++ l1 -> x ∈ l) as Hsub by (intros x; rewrite El; set_solver).
  assert (exists t, t <> O /\ sched_loop 100 (idle_process k) cur (next c) k = Some ((if nx =? 0 then cur else nx, t), k)) as (t & Ht & Eloop).
  { unfold nx. rewrite Ea. destruct (l2 ++ l1) as [|d l'] eqn:El'.
    - cbn in Hs. assert (l = [cur]) as El1 by (apply app_eq_nil in El' as [-> ->]; done). destruct (rg_head _ _ H) as [tl Etl].
      assert (cur = idle_process k) as Eci by (rewrite El1 in Etl; by injection Etl). exists 99%nat. split; [done|].
      cbn [sched_loop]. rewrite Hs, (proj2 (Z.eqb_neq cur 0)) by done. unfold mbind, M_bind, mret, M_ret, getp. rewrite Hc.
      rewrite (proj2 (Z.eqb_eq cur _) Eci), andb_false_r. rewrite Hs, Z.eqb_refl. done.
    - apply sched_loop_outcome; [done|done|intros Hz; by apply (rg_nz _ _ H), Hsub| |].
      + intros Ht. assert (cur ∈ l2 ++ l1) as Hx by (rewrite El'; by apply list_elem_of_further). apply elem_of_app in Hx as [?|?]; done.
      + rewrite <- El'. rewrite El in Hlen. rewrite length_app in *. cbn in Hlen. lia. }
  unfold schedule, modify, gets, mbind, M_bind, mret, M_ret. rewrite Hcur, (proj2 (Z.eqb_neq cur 0)) by done. cbn [andb]. rewrite Hcur, (proj2 (Z.eqb_neq cur 0)) by done.
  unfold getp at 1. rewrite Hc. rewrite Eloop. cbv beta iota.
  destruct (Z.eqb_spec nx 0) as [E0|Hnx]; cbn [negb].
  - rewrite (proj2 (Z.eqb_neq cur 0)) by done. unfold getp. rewrite Hc. rewrite (bool_decide_eq_false_2 (t = O)) by done. rewrite orb_false_r.
    rewrite Z.eqb_refl. unfold keeps_cpu. rewrite (Z.eqb_sym (idle_process k) cur). destruct (ring_idle _ _ H) as [Hi _].
    rewrite (proj2 (Z.eqb_neq _ 0) Hi). cbn [negb andb].
    destruct (bool_decide (pstate c = PROCESS_RUNNING)) eqn:Er; [apply bool_decide_eq_true in Er; rewrite Er; done|].
    destruct (bool_decide (pstate c = PROCESS_READY)) eqn:Ey; cbn [negb orb]; destruct (cur =? idle_process k); done.
  - assert (List.find (runnable k) (after cur l) = Some nx) as Ef.
    { unfold nx, next_runnable in *. by destruct (List.find _ _). }
    apply find_some in Ef as [Hinx%list_elem_of_In Hr]. unfold runnable, sat in Hr.
    rewrite (proj2 (Z.eqb_neq nx 0) Hnx). unfold getp. cbv beta. destruct (procs k !! nx) as [o|] eqn:Eo; [|done]. apply andb_true_iff in Hr as [Hr Hid]. rewrite Hr. cbn [negb orb].
    apply negb_true_iff in Hid.
    rewrite Hid, (bool_decide_eq_false_2 (t = O)) by done. cbn [orb].
    rewrite (proj2 (Z.eqb_neq nx cur)); [done|]. intros ->. rewrite Ea in Hinx. apply elem_of_app in Hinx as [?|?]; done.
Qed.
(** Whom [schedule] picks and what remains. *)
Lemma schedule_spec k l cur c : ring k l -> (length l <= 100)%nat -> current_process k = cur -> cur ∈ l -> procs k !! cur = Some c ->
  let nx := next_runnable k (after cur l) in
  let target := if nx =? 0 then idle_process k else nx in
  wp schedule (fun away k' =>
    if away then (nx <> 0 \/ (pstate c <> PROCESS_RUNNING /\ pstate c <> PROCESS_READY)) /\
      exists p, target <> cur /\ procs k !! target = Some p /\ k' = switch_result k cur target c p
    else k' = k /\ nx = 0 /\ (cur = idle_process k \/ pstate c = PROCESS_RUNNING \/ pstate c = PROCESS_READY)) k.
Proof.
  intros H Hlen Hcur Hin Hc nx target. pose proof (schedule_outcome k l cur c H Hlen Hcur Hin Hc) as E. cbv zeta in E. fold nx in E.
  assert (cur <> 0) as Hcur0 by (intros ->; by apply (rg_nz _ _ H)). destruct (ring_idle _ _ H) as [Hi Hii].
  unfold target. destruct (Z.eqb_spec nx 0) as [E0|Hnx]; cbn [negb] in E.
  - unfold keeps_cpu in E. destruct (bool_decide (pstate c = PROCESS_RUNNING)) eqn:Er; cbn [orb] in E.
    { eapply wp_Some; [exact E|]. apply bool_decide_eq_true in Er. split_and!; auto. }
    destruct (bool_decide (pstate c = PROCESS_READY)) eqn:Ey; cbn [orb] in E.
    { eapply wp_Some; [exact E|]. apply bool_decide_eq_true in Ey. split_and!; auto. }
    apply bool_decide_eq_false in Er, Ey. destruct (Z.eqb_spec cur (idle_process k)) as [Ei|Hne]; [eapply wp_Some; [exact E|]; split_and!; auto|].
    destruct (ring_get _ _ _ H Hii) as [p Hp].
    rewrite (bind_Some _ _ _ _ _ (switch_outcome k cur _ c p Hcur Hcur0 Hi (fun E => Hne (eq_sym E)) Hc Hp)) in E.
    eapply wp_Some; [exact E|]. split; [by right|]. exists p. split_and!; auto.
  - assert (List.find (runnable k) (after cur l) = Some nx) as Ef by (unfold nx, next_runnable in *; by destruct (List.find _ _)).
    apply find_some in Ef as [Hinx%list_elem_of_In Hr]. destruct (ring_after _ _ _ H Hin) as (l1 & l2 & El & Hc1 & Hc2 & Ea & _). rewrite Ea in Hinx.
    assert (nx ∈ l) as Hnl by (rewrite El; set_solver). assert (nx <> cur) as Hne by (intros ->; apply elem_of_app in Hinx as [?|?]; done).
    destruct (ring_get _ _ _ H Hnl) as [p Hp].
    rewrite (bind_Some _ _ _ _ _ (switch_outcome k cur nx c p Hcur Hcur0 Hnx Hne Hc Hp)) in E.
    eapply wp_Some; [exact E|]. split; [by left|]. exists p. split_and!; auto.
Qed.

(** * Bounded waiting *)

Lemma after_turn l cur nx u1 u2 : NoDup l -> cur ∈ l -> after cur l = u1 ++ nx :: u2 -> after nx l = u2 ++ cur :: u1.
Proof.
  intros Hnd Hin E. apply list_elem_of_split in Hin as (l1 & l2 & El). subst l. pose proof Hnd as Hnd'. apply NoDup_app in Hnd' as (_ & Hd & Hnd2).
  assert (cur ∉ l1) as Hc1 by (intros Hc; apply (Hd _ Hc), list_elem_of_here). rewrite after_split in E by done.
  apply app_eq_app in E as [w [[-> E]|[-> E]]].
  - (* in [l1], unless [w] is empty *)
    destruct w as [|d w]; cbn in E.
    + subst l1. rewrite app_nil_r in *. replace ((nx :: u2) ++ cur :: u1) with ([] ++ nx :: (u2 ++ cur :: u1)) by done.
      rewrite after_split by set_solver. by rewrite app_nil_r.
    + injection E as -> ->. replace (l1 ++ cur :: u1 ++ d :: w) with ((l1 ++ cur :: u1) ++ d :: w) by (by rewrite <- app_assoc).
      rewrite after_split; [by rewrite <- app_assoc|]. intros Hx. apply NoDup_app in Hnd as (_ & Hd' & Hn'). apply elem_of_app in Hx as [Hx|Hx].
      * apply (Hd' _ Hx). set_solver.
      * apply NoDup_cons in Hn' as [Hn1 Hn2]. apply NoDup_app in Hn2 as (_ & Hd'' & _). apply elem_of_cons in Hx as [->|Hx]; [apply Hn1; set_solver|].
        apply (Hd'' _ Hx), list_elem_of_here.
  - subst l1. replace ((w ++ nx :: u2) ++ cur :: l2) with (w ++ nx :: (u2 ++ cur :: l2)) by (by rewrite <- app_assoc).
    rewrite after_split; [by rewrite <- app_assoc|]. rewrite <- app_assoc in Hnd. cbn in Hnd. apply NoDup_app in Hnd as (_ & Hd' & _).
    intros Hx. apply (Hd' _ Hx), list_elem_of_here.
Qed.

Definition ready k (a : Z) : Prop := exists p, procs k !! a = Some p /\ pstate p = PROCESS_READY.

(** Anything may happen between two calls of [schedule], as long as the list stays and [a] stays ready. *)
Record quiet (a : Z) k k' : Prop := {
  qt_links : links k' = links k;
  qt_list : process_list k' = process_list k;
  qt_idle : idle_process k' = idle_process k;
  qt_current : current_process k' = current_process k;
  qt_ready : ready k' a;
}.

(** [n] calls of [schedule] none of which chose [a]. *)
Inductive overtaken (a : Z) k : nat -> kernel (R := R) -> Prop :=
| overtaken_0 : overtaken a k 0 k
| overtaken_S n k1 k2 away k3 : overtaken a k n k1 -> quiet a k1 k2 -> schedule k2 = Some (away, k3) -> current_process k3 <> a ->
    overtaken a k (S n) k3.

Lemma links_switch k cur nx c p : procs k !! cur = Some c -> procs k !! nx = Some p -> nx <> cur -> links (switch_result k cur nx c p) = links k.
Proof.
  intros Hc Hp Hne. unfold links, switch_result. cbn [procs]. rewrite !fmap_insert.
  assert (next (entered p) = next p) as -> by done.
  assert (next (left_by (hw k) c) = next c) as -> by (unfold left_by; by case_bool_decide).
  rewrite (insert_id (next <$> procs k) cur) by (by rewrite lookup_fmap, Hc). apply insert_id. by rewrite lookup_fmap, Hp.
Qed.

(** The step: choosing someone else brings [a] nearer. *)
Lemma schedule_nearer k l cur a u v away k' : ring k l -> (length l <= 100)%nat -> current_process k = cur -> cur ∈ l ->
  after cur l = u ++ a :: v -> a <> idle_process k -> ready k a -> schedule k = Some (away, k') -> current_process k' <> a ->
  ring k' l /\ idle_process k' = idle_process k /\ current_process k' ∈ l /\ ready k' a /\
  exists u' v', after (current_process k') l = u' ++ a :: v' /\ (length u' < length u)%nat.
Proof.
  intros H Hlen Hcur Hin Ea Hai (p & Hp & Hpr) Es Hno. destruct (ring_get _ _ _ H Hin) as [c Hc].
  pose proof (wp_run _ _ _ _ _ (schedule_spec k l cur c H Hlen Hcur Hin Hc) Es) as Hs. cbv zeta in Hs.
  assert (runnable k a = true) as Hra by (unfold runnable, sat; rewrite Hp, Hpr; by rewrite (proj2 (Z.eqb_neq _ _) Hai)).
  destruct (ring_after _ _ _ H Hin) as (l1 & l2 & El & Hc1 & Hc2 & Ea' & _).
  assert (forall x, x ∈ after cur l -> x ∈ l /\ x <> cur) as Hsub.
  { intros x. rewrite Ea', El. intros Hx. split; [set_solver|]. intros ->. apply elem_of_app in Hx as [?|?]; done. }
  assert (exists u1 nx u2, u ++ [a] = u1 ++ nx :: u2 /\ nx <> 0 /\ next_runnable k (after cur l) = nx) as (u1 & nx & u2 & Eu & Hnx & Enx).
  { unfold next_runnable. rewrite Ea. clear -Hra H Hsub Ea. assert (forall x, x ∈ u ++ [a] -> x <> 0) as Hz.
    { intros x Hx ->. apply (rg_nz _ _ H), Hsub. rewrite Ea. set_solver. }
    clear Hsub Ea. induction u as [|d u IH]; cbn [app List.find].
    - rewrite Hra. exists [], a, []. split_and!; [done| |done]. apply Hz. set_solver.
    - destruct (runnable k d) eqn:Ed; [exists [], d, (u ++ [a]); split_and!; [done|apply Hz; set_solver|done]|].
      destruct IH as (u1 & nx & u2 & E1 & E2 & E3); [intros x Hx; apply Hz; set_solver|]. exists (d :: u1), nx, u2. by rewrite E1. }
  rewrite Enx, (proj2 (Z.eqb_neq _ _) Hnx) in Hs. destruct away; [|by destruct Hs as (_ & ? & _)].
  destruct Hs as (_ & q & Hne & Hq & ->). cbn [current_process switch_result idle_process] in *.
  assert (exists w, u = u1 ++ nx :: w /\ u2 = w ++ [a]) as (w & -> & ->).
  { destruct (exists_last (l := nx :: u2)) as (w & y & Ew); [done|]. rewrite Ew, app_assoc in Eu. apply app_inj_tail in Eu as [-> <-].
    destruct w as [|d w]; [cbn in Ew; by injection Ew as ->|]. injection Ew as -> ->. by exists w. }
  assert (nx ∈ l) as Hnl by (apply Hsub; rewrite Ea; set_solver).
  split_and!.
  - eapply ring_same; [exact H|by apply links_switch|done|done].
  - done.
  - done.
  - assert (a <> cur) as Hac by (apply Hsub; rewrite Ea; set_solver). exists p. unfold switch_result. cbn [procs]. by rewrite !lookup_insert_ne by congruence.
  - exists w, (v ++ cur :: u1). rewrite length_app. cbn. split; [|lia].
    rewrite (after_turn l cur nx u1 (w ++ a :: v) (rg_nodup _ _ H) Hin); [by rewrite <- app_assoc|]. by rewrite Ea, <- app_assoc.
Qed.

Lemma overtaken_rank k l a u v n k' : ring k l -> (length l <= 100)%nat -> current_process k ∈ l -> after (current_process k) l = u ++ a :: v ->
  a <> idle_process k -> overtaken a k n k' ->
  ring k' l /\ idle_process k' = idle_process k /\ current_process k' ∈ l /\
  exists u' v', after (current_process k') l = u' ++ a :: v' /\ (length u' + n <= length u)%nat.
Proof.
  intros H Hlen Hin Ea Hai Ho. induction Ho as [|n k1 k2 away k3 Ho (H1 & Hi1 & Hin1 & u1 & v1 & Ea1 & Hn) [Ql Qp Qi Qc Qr] Es Hno].
  - split_and!; [done|done|done|]. exists u, v. split; [done|lia].
  - assert (ring k2 l) as H2 by (by eapply ring_same). rewrite <- Qc in Hin1, Ea1.
    destruct (schedule_nearer k2 l _ a u1 v1 away k3 H2 Hlen eq_refl Hin1 Ea1) as (H3 & Hi3 & Hin3 & _ & u' & v' & Ea3 & Hlt); [by rewrite Qi, Hi1|done|done|done|].
    split_and!; [done|by rewrite Hi3, Qi|done|]. exists u', v'. split; [done|lia].
Qed.

(** C19: No ready process starves: while it stays ready and the list of processes is unchanged, fewer calls
    of [schedule] than there are processes can pass it over, whatever the others do in between. *)
Theorem schedule_bounded_waiting k l a n k' : ring k l -> (length l <= 100)%nat -> current_process k ∈ l -> a ∈ l ->
  a <> idle_process k -> a <> current_process k -> overtaken a k n k' -> (n < length l)%nat.
Proof.
  intros H Hlen Hin Ha Hai Hac Ho. destruct (ring_after _ _ _ H Hin) as (l1 & l2 & El & Hc1 & Hc2 & Ea & _).
  assert (a ∈ l2 ++ l1) as Hal by (rewrite El in Ha; set_solver). apply list_elem_of_split in Hal as (u & v & Eu). rewrite Eu in Ea.
  destruct (overtaken_rank k l a u v n k' H Hlen Hin Ea Hai Ho) as (_ & _ & _ & u' & v' & _ & Hn).
  apply (f_equal length) in Eu. rewrite El, length_app. rewrite !length_app in Eu. cbn in Eu |- *. lia.
Qed.
End sched.
