(* ===== verification/ProcessInv.v ===== *)
(** The invariant of the process table, and that the operations of process.c keep it: the list is a
    ring that starts at idle, pids are unique, the count is right, only the current process
    runs, and every process owns its resources, each released exactly once. *)

From S2P Require Import Prelude Interfaces Mailbox ProcessEnv Process ProcessRing ProcessSched.

Section inv.
Context {R : Type} `{!ProcessEnv R}.
Implicit Types (k : kernel (R := R)).

Definition mailbox_ok (a : Z) (mb : ipc_mailbox) : Prop := (exists q, mb_rep mb q) /\ (waiter mb = None \/ waiter mb = Some a).

Definition sig_ok (g : signals) : Prop := zlen (signal_handlers g) = MAX_SIGNUM /\ 0 <= pending_signal g < MAX_SIGNUM.

(** What a process other than idle owns. *)
Definition own (a : Z) (p : process) : gset res :=
  {[(RProcess, a); (RFds, a); (RSpace, page_table (img p)); (RStack, ring0_stack_pages (img p)); (RFpu, fpu_raw (img p))]}.

(** [e] is a process whose resources are being released, 0 if there is none. *)
Record owned (e : Z) (O : gset res) k (l : list Z) : Prop := {
  ow_rep : pe_rep (rest k) O;
  ow_procs : forall x, (RProcess, x) ∈ O <-> x ∈ l;
  ow_own : forall a p, a <> idle_process k -> a <> e -> procs k !! a = Some p -> own a p ⊆ O /\
    page_table (img p) <> 0 /\ ring0_stack_pages (img p) <> 0 /\ fpu_raw (img p) <> 0;
  ow_disj : forall a b p q, a <> idle_process k -> b <> idle_process k -> procs k !! a = Some p -> procs k !! b = Some q ->
    a <> b -> own a p ## own b q;
}.

(** The table of processes; [l] are their addresses in any order. *)
Record table (e : Z) k (l : list Z) : Prop := {
  tb_dom : forall a, is_Some (procs k !! a) <-> a ∈ l;
  tb_nodup : NoDup l;
  tb_nz : 0 ∉ l;
  tb_idle : idle_process k ∈ l;
  tb_current : current_process k ∈ l;
  tb_count : process_count (glob k) + 1 = zlen l /\ zlen l <= MAX_PROCESSES + 1;
  tb_pids : forall a p, procs k !! a = Some p -> if a =? idle_process k then pid p = 0 else 0 < pid p < next_pid (glob k);
  tb_inj : forall a b p q, procs k !! a = Some p -> procs k !! b = Some q -> pid p = pid q -> a = b;
  tb_next : 0 < next_pid (glob k);
  tb_alive : forall p, procs k !! idle_process k = Some p -> pstate p <> PROCESS_TERMINATED;
  tb_running : forall a p, procs k !! a = Some p -> pstate p = PROCESS_RUNNING -> a = current_process k;
  tb_mbox : forall a p, procs k !! a = Some p -> mailbox_ok a (mbox p);
  tb_sig : forall a p, procs k !! a = Some p -> sig_ok (sg p);
  tb_res : exists O, owned e O k l;
}.

Record kinv k (l : list Z) : Prop := { ki_ring : ring k l; ki_table : table 0 k l }.

(** * Changes to one record *)

(** What a store must not change. *)
Record alike (p q : process) : Prop := {
  al_pid : pid q = pid p; al_space : page_table (img q) = page_table (img p);
  al_stack : ring0_stack_pages (img q) = ring0_stack_pages (img p); al_fpu : fpu_raw (img q) = fpu_raw (img p);
  al_sig : sig_ok (sg p) -> sig_ok (sg q);
}.

Lemma own_alike a p q : alike p q -> own a q = own a p.
Proof. intros []. unfold own. congruence. Qed.

Lemma lookup_set k a q b p : procs (set_procs (<[a := q]> (procs k)) k) !! b = Some p -> (b = a /\ p = q) \/ (b <> a /\ procs k !! b = Some p).
Proof. cbn. destruct (decide (b = a)) as [->|]; [rewrite lookup_insert_eq; naive_solver|rewrite lookup_insert_ne by done; auto]. Qed.

Lemma owned_set e O k l a p q : owned e O k l -> procs k !! a = Some p -> own a q = own a p ->
  (a <> idle_process k -> a <> e -> page_table (img q) <> 0 /\ ring0_stack_pages (img q) <> 0 /\ fpu_raw (img q) <> 0) ->
  owned e O (set_procs (<[a := q]> (procs k)) k) l.
Proof.
  intros [H1 H2 H3 H4] Hp E Hnz. split; [done|done| |].
  - intros b r Hb Hbe Hr. cbn in Hb. apply lookup_set in Hr as [[-> ->]|[_ Hr]]; [|by apply H3]. rewrite E.
    split; [by apply H3|by apply Hnz].
  - intros b c r s Hb Hc Hr Hs Hne. cbn in Hb, Hc.
    apply lookup_set in Hr as [[-> ->]|[_ Hr]]; apply lookup_set in Hs as [[-> ->]|[_ Hs]]; rewrite ?E; [done|by eapply H4..].
Qed.

(** A store that keeps the process what it is, whatever becomes of the resources. *)
Lemma table_put e e' k r l a p q : table e k l -> procs k !! a = Some p -> pid q = pid p -> (sig_ok (sg p) -> sig_ok (sg q)) -> (mbox q = mbox p \/ mailbox_ok a (mbox q)) ->
  (a = idle_process k -> pstate q <> PROCESS_TERMINATED) -> (pstate q = PROCESS_RUNNING -> a = current_process k) ->
  (exists O, owned e' O (set_rest r (set_procs (<[a := q]> (procs k)) k)) l) -> table e' (set_rest r (set_procs (<[a := q]> (procs k)) k)) l.
Proof.
  intros [H1 H2 Hz Hi Hc H3 H4 H5 H6 H7 H8 H9 Hs _] Hp Ha Hsg Hm Hal Hr HO. split; try done; cbn [procs set_rest set_procs glob idle_process current_process].
  - intros b. rewrite <- H1. destruct (decide (b = a)) as [->|]; [rewrite lookup_insert_eq, Hp; split; eauto|by rewrite lookup_insert_ne].
  - intros b x Hb. apply lookup_set in Hb as [[-> ->]|[_ Hb]]; [|by apply H4]. rewrite Ha. by apply H4.
  - assert (forall b x, <[a := q]> (procs k) !! b = Some x -> exists x', procs k !! b = Some x' /\ pid x' = pid x) as Hpid.
    { intros b x Hb. apply lookup_set in Hb as [[-> ->]|[_ Hb]]; [exists p; by rewrite Ha|by exists x]. }
    intros b c x s (x' & Hx' & Ex)%Hpid (s' & Hs' & Es)%Hpid E. apply (H5 b c x' s'); [done|done|congruence].
  - intros x Hb. apply lookup_set in Hb as [[E ->]|[_ Hb]]; [by apply Hal|by apply H7].
  - intros b x Hb Hst. apply lookup_set in Hb as [[-> ->]|[_ Hb]]; [by apply Hr|by apply (H8 b x)].
  - intros b x Hb. apply lookup_set in Hb as [[-> ->]|[_ Hb]]; [|by apply (H9 b x)]. destruct Hm as [->|]; [by apply (H9 a p)|done].
  - intros b x Hb. apply lookup_set in Hb as [[-> ->]|[_ Hb]]; [by apply Hsg, (Hs a p)|by apply (Hs b x)].
Qed.

(** Only the state of the process may become wrong, for the idle and the running process. *)
Lemma table_set e k l a p q : table e k l -> procs k !! a = Some p -> alike p q -> (mbox q = mbox p \/ mailbox_ok a (mbox q)) ->
  (a = idle_process k -> pstate q <> PROCESS_TERMINATED) -> (pstate q = PROCESS_RUNNING -> a = current_process k) ->
  table e (set_procs (<[a := q]> (procs k)) k) l.
Proof.
  intros Ht Hp Ha Hm Hal Hr. replace (set_procs _ k) with (set_rest (rest k) (set_procs (<[a := q]> (procs k)) k)) by done.
  apply (table_put e e k (rest k) l a p q); [done|done|by apply al_pid|by apply al_sig|done|done|done|]. destruct (tb_res _ _ _ Ht) as [O HO]. exists O.
  change (set_rest (rest k) (set_procs (<[a := q]> (procs k)) k)) with (set_procs (<[a := q]> (procs k)) k).
  apply owned_set with p; [done|done|by apply own_alike|]. intros Hne Hae. destruct Ha as [_ -> -> -> _]. by apply (ow_own _ _ _ _ HO a p).
Qed.

Lemma kinv_set k l a p q : kinv k l -> procs k !! a = Some p -> next q = next p -> alike p q -> (mbox q = mbox p \/ mailbox_ok a (mbox q)) ->
  (a = idle_process k -> pstate q <> PROCESS_TERMINATED) -> (pstate q = PROCESS_RUNNING -> a = current_process k) ->
  kinv (set_procs (<[a := q]> (procs k)) k) l.
Proof.
  intros [H1 H2] Hp Hn Ha Hm Hi Hr. split; [|by apply table_set with p]. eapply ring_same; [exact H1|by apply links_update with p|done|done].
Qed.

(** Parts of the state the invariant does not read. *)
Lemma table_frame e k k' l : table e k l -> procs k' = procs k -> current_process k' = current_process k ->
  idle_process k' = idle_process k -> process_count (glob k') = process_count (glob k) -> next_pid (glob k') = next_pid (glob k) ->
  (exists O, owned e O k' l) -> table e k' l.
Proof.
  intros [H1 H2 Hz Hi Hc H3 H4 H5 H6 H7 H8 H9 Hs H10] E1 E3 E4 E5 E6 HO. split; rewrite ?E1, ?E3, ?E4, ?E5, ?E6; done.
Qed.

Lemma kinv_frame k k' l : kinv k l -> procs k' = procs k -> process_list k' = process_list k -> current_process k' = current_process k ->
  idle_process k' = idle_process k -> process_count (glob k') = process_count (glob k) -> next_pid (glob k') = next_pid (glob k) ->
  (exists O, owned 0 O k' l) -> kinv k' l.
Proof.
  intros [H1 H2] E1 E2 E3 E4 E5 E6 HO. split; [eapply ring_same; [exact H1|unfold links; by rewrite E1|done|done]|by apply (table_frame 0 k)].
Qed.

Lemma owned_frame e O O' k k' l : owned e O k l -> procs k' = procs k -> idle_process k' = idle_process k -> pe_rep (rest k') O' ->
  (forall x, (RProcess, x) ∈ O' <-> (RProcess, x) ∈ O) -> (forall a p, a <> idle_process k -> a <> e -> procs k !! a = Some p -> own a p ⊆ O') -> owned e O' k' l.
Proof.
  intros [H1 H2 H3 H4] E1 E2 Hr Hp Ho. split; rewrite ?E1, ?E2; [done|intros x; by rewrite Hp| |done].
  intros a p Ha Hae Hpa. split; [by apply Ho|by apply (H3 a p)].
Qed.

(** An operation on the rest of the kernel that leaves the resources of the processes. *)
Lemma owned_keeps e O r k l : owned e O k l -> pe_rep r O -> owned e O (set_rest r k) l.
Proof. intros HO Hr. apply (owned_frame e O O k); try done. intros a p Ha Hae Hp. by apply (ow_own _ _ _ _ HO a p). Qed.

Lemma wp_rest_table {A} (m : M R A) e k l (Q : A -> kernel -> Prop) : table e k l -> keeps_res pe_rep m ->
  (forall x r, table e (set_rest r k) l -> Q x (set_rest r k)) -> wp (on_rest m) Q k.
Proof.
  intros H Hm HQ. destruct (tb_res _ _ _ H) as [O HO]. apply wp_on_rest. eapply wp_mono; [apply (Hm _ _ (ow_rep _ _ _ _ HO))|]. cbv beta. intros x r Hr.
  apply HQ. apply (table_frame e k); try done. exists O. by apply owned_keeps.
Qed.

Lemma wp_rest_keeps {A} (m : M R A) k l (Q : A -> kernel -> Prop) : kinv k l -> keeps_res pe_rep m ->
  (forall x r, kinv (set_rest r k) l -> Q x (set_rest r k)) -> wp (on_rest m) Q k.
Proof.
  intros [H1 H2] Hm HQ. apply (wp_rest_table _ _ _ _ _ H2 Hm). intros x r Hr. apply HQ. split; [|done]. by eapply ring_same.
Qed.

(** * Searching under the invariant *)

Lemma pick_pid k l a p : kinv k l -> procs k !! a = Some p -> pick k (fun q => pid q =? pid p) l = a.
Proof.
  intros H Hp. pose proof (ki_ring _ _ H) as Hr. apply (pick_Some k _ l a p); [by apply (rg_nz _ _ Hr)|by apply (rg_dom _ _ Hr)|done|apply Z.eqb_refl|].
  intros b q _ Hq E%Z.eqb_eq. by apply (tb_inj _ _ _ (ki_table _ _ H) b a q p).
Qed.

Lemma find_by_pid_outcome k l n : kinv k l ->
  exists a, process_find_by_pid n k = Some (a, k) /\
    ((a <> 0 /\ a ∈ l /\ exists p, procs k !! a = Some p /\ pid p = n) \/ (a = 0 /\ forall b p, procs k !! b = Some p -> pid p <> n)).
Proof.
  intros H. pose proof (ki_ring _ _ H) as Hr. exists (pick k (fun q => pid q =? n) l). split; [by apply find_process_outcome|].
  destruct (pick_spec k (fun q => pid q =? n) l (rg_nz _ _ Hr)) as [(Hne & (p & Hp & E%Z.eqb_eq) & _)|[-> Hf]].
  - left. split; [done|]. split; [by apply (rg_dom _ _ Hr)|by exists p].
  - right. split; [done|]. intros b p Hp E. rewrite Forall_forall in Hf. specialize (Hf b). unfold sat in Hf. rewrite Hp, E, Z.eqb_refl in Hf.
    discriminate Hf. apply (rg_dom _ _ Hr). by rewrite Hp.
Qed.
(** * Waking *)

(** Some processes were made ready, nothing else happened to the processes. *)
Record touched k k' : Prop := {
  to_eq : k' = set_rest (rest k') (set_procs (procs k') k);
  to_procs : forall a, match procs k !! a, procs k' !! a with
    | Some p, Some p' => p' = p \/ p' = set_state PROCESS_READY p
    | None, None => True
    | _, _ => False
    end;
}.

Lemma touched_refl k : touched k k.
Proof. split; [by destruct k|]. intros a. destruct (procs k !! a); auto. Qed.

Lemma touched_rest k r : touched k (set_rest r k).
Proof. split; [by destruct k|]. intros a. cbn. destruct (procs k !! a); auto. Qed.

Lemma touched_trans k1 k2 k3 : touched k1 k2 -> touched k2 k3 -> touched k1 k3.
Proof.
  intros [E1 H1] [E2 H2]. split; [rewrite E2 at 1; rewrite E1; done|]. intros a. specialize (H1 a). specialize (H2 a).
  destruct (procs k1 !! a), (procs k2 !! a), (procs k3 !! a); try done. destruct H1 as [->| ->], H2 as [->| ->]; auto.
Qed.

Lemma touched_links k k' : touched k k' -> links k' = links k.
Proof.
  intros [_ H]. apply map_eq. intros a. unfold links. rewrite !lookup_fmap. specialize (H a). destruct (procs k !! a), (procs k' !! a); try done.
  by destruct H as [->| ->].
Qed.

Lemma touched_lookup k k' a p : touched k k' -> procs k !! a = Some p -> procs k' !! a = Some p \/ procs k' !! a = Some (set_state PROCESS_READY p).
Proof. intros [_ H] Hp. specialize (H a). rewrite Hp in H. destruct (procs k' !! a); [|done]. destruct H as [->| ->]; auto. Qed.

Lemma alike_state st p : alike p (set_state st p).
Proof. by split. Qed.

Lemma wp_wake_all e xs : forall k l (Q : unit -> kernel -> Prop), table e k l -> (forall x, x ∈ xs -> x ∈ l) ->
  (forall k', table e k' l -> touched k k' -> rest k' = rest k -> Q tt k') -> wp (wake_all xs) Q k.
Proof.
  induction xs as [|x xs IH]; intros k l Q H Hsub HQ; cbn [wake_all foldr].
  - wstep. apply HQ; [done|apply touched_refl|done].
  - wstep. assert (x ∈ l) as Hx by (apply Hsub, list_elem_of_here). apply (tb_dom _ _ _ H) in Hx as [p Hp].
    apply (wp_setp _ p); [done|]. apply (IH _ l).
    + by apply table_set with p; [..|by left| |].
    + intros y Hy. by apply Hsub, list_elem_of_further.
    + intros k' H' Ht Er. apply HQ; [done| |by rewrite Er]. eapply touched_trans; [|exact Ht]. split; [by destruct k|]. intros a. cbn.
      destruct (decide (a = x)) as [->|]; [rewrite lookup_insert_eq, Hp; by right|rewrite lookup_insert_ne by done; destruct (procs k !! a); auto].
Qed.
End inv.
