(* ===== verification/ProcessLife.v ===== *)
(** Removing processes: unlinking, release of their resources, the reaper and the kernel's wait. *)

From S2P Require Import Prelude Interfaces Mailbox ProcessEnv Process ProcessRing ProcessSched ProcessInv.

Section life.
Context {R : Type} `{!ProcessEnv R}.
Implicit Types (k : kernel (R := R)).

(** * Releasing a process *)

(** What may have happened to a process while another was removed. *)
Definition kept (p p' : process) : Prop := exists n, p' = set_next n p \/ p' = set_next n (set_state PROCESS_READY p).

Definition pointwise (P : process -> process -> Prop) (o o' : option process) : Prop :=
  match o, o' with Some p, Some p' => P p p' | None, None => True | _, _ => False end.

Record removed (a : Z) k k' : Prop := {
  rm_gone : procs k' !! a = None;
  rm_kept : forall b, b <> a -> pointwise kept (procs k !! b) (procs k' !! b);
  rm_frame : k' = mk_kernel (procs k') (process_list k) (current_process k) (idle_process k) (current_fd_table k) (hw k) (time k)
    (uncount (glob k)) (rest k');
}.

Lemma kept_refl p : kept p p.
Proof. exists (next p). left. by destruct p. Qed.
Lemma kept_ready p : kept p (set_state PROCESS_READY p).
Proof. exists (next p). right. by destruct p. Qed.
Lemma kept_trans p q r : kept p q -> kept q r -> kept p r.
Proof. intros [n [->| ->]] [m [->| ->]]; exists m; auto. Qed.
Lemma kept_next p n : kept p (set_next n p).
Proof. exists n. by left. Qed.

Lemma own_kept a p q : kept p q -> own a q = own a p.
Proof. by intros [n [->| ->]]. Qed.

Lemma touched_kept k k' b : touched k k' -> pointwise kept (procs k !! b) (procs k' !! b).
Proof.
  intros [_ H]. specialize (H b). destruct (procs k !! b), (procs k' !! b); try done. destruct H as [->| ->]; [apply kept_refl|apply kept_ready].
Qed.

(** The table without [a], once its resources are gone. *)
Lemma table_remove k k2 l1 l2 a p O r : table a k2 (l1 ++ a :: l2) -> owned 0 O k (l1 ++ a :: l2) -> touched k k2 -> procs k !! a = Some p ->
  a <> idle_process k -> a <> current_process k -> pe_rep r (O ∖ own a p) ->
  table 0 (set_rest r (set_glob (uncount (glob k2)) (set_procs (delete a (procs k2)) k2))) (l1 ++ l2).
Proof.
  intros [H1 H2 Hz Hi Hc H3 H4 H5 H6 H7 H8 H9 Hsg _] HO Ht Hp Hai Hac Hr.
  assert (idle_process k2 = idle_process k /\ current_process k2 = current_process k) as [Ei Ec] by (rewrite (to_eq _ _ Ht); done).
  assert (forall x, x ∈ l1 ++ l2 <-> x ∈ l1 ++ a :: l2 /\ x <> a) as Hl.
  { apply NoDup_app in H2 as (_ & Hd & Hn). apply NoDup_cons in Hn as [Hn _]. intros x. rewrite !elem_of_app, elem_of_cons. split; [|naive_solver].
    intros [Hx|Hx]; split; [auto|intros ->; by apply (Hd _ Hx), list_elem_of_here|auto|by intros ->]. }
  assert (forall b q, delete a (procs k2) !! b = Some q -> b <> a /\ procs k2 !! b = Some q) as Hdel by (intros b q; rewrite lookup_delete_Some; naive_solver).
  split; cbn [procs idle_process current_process glob rest set_rest set_glob set_procs].
  - intros b. rewrite Hl, <- H1. destruct (decide (b = a)) as [->|Hne]; [rewrite lookup_delete_eq; split; [by intros [? ?]|by intros [_ ?]]|].
    rewrite lookup_delete_ne by done. naive_solver.
  - rewrite NoDup_app in *. destruct H2 as (? & Hd & Hn). apply NoDup_cons in Hn as [_ Hn]. split_and!; [done| |done]. intros x Hx Hx2. by apply (Hd x Hx), list_elem_of_further.
  - intros Hx%Hl. naive_solver.
  - apply Hl. split; [done|by rewrite Ei].
  - apply Hl. split; [done|by rewrite Ec].
  - assert (2 <= zlen (l1 ++ a :: l2)) as H2l.
    { assert (idle_process k2 ∈ l1 ++ l2) as Hx by (apply Hl; split; [done|by rewrite Ei]). unfold zlen. rewrite length_app. cbn.
      destruct l1, l2; cbn in *; [by apply not_elem_of_nil in Hx|lia..]. }
    assert (zlen (l1 ++ a :: l2) = zlen (l1 ++ l2) + 1) as El by (unfold zlen; rewrite !length_app; cbn; lia).
    cbn [uncount set_counts process_count]. unfold MAX_PROCESSES in *. rewrite u32_small by (unfold is_u32; lia). lia.
  - intros b q [_ Hb]%Hdel. by apply H4.
  - intros b c q s [_ Hb]%Hdel [_ Hc']%Hdel. by apply H5.
  - done.
  - intros q [_ Hb]%Hdel. by apply H7.
  - intros b q [_ Hb]%Hdel. by apply H8.
  - intros b q [_ Hb]%Hdel. by apply H9.
  - intros b q [_ Hb]%Hdel. by apply (Hsg b).
  - assert (forall b q, b <> a -> procs k2 !! b = Some q -> exists q0, procs k !! b = Some q0 /\ own b q = own b q0 /\ img q = img q0) as Hown.
    { intros b q Hb Hq. pose proof (to_procs _ _ Ht b) as Hx. rewrite Hq in Hx. destruct (procs k !! b) as [q0|]; [|done]. exists q0. by destruct Hx as [->| ->]. }
    destruct HO as [O1 O2 O3 O4]. rewrite <- Ei in *. exists (O ∖ own a p). split; cbn [procs idle_process rest set_rest set_glob set_procs].
    + done.
    + intros x. rewrite Hl, <- O2. unfold own. set_solver.
    + intros b q Hb _ [Hne Hq]%Hdel. destruct (Hown _ _ Hne Hq) as (q0 & Hq0 & Eo & Eimg). rewrite Eo, Eimg.
      assert (b <> 0) as Hb0. { intros ->. apply Hz, H1. by exists q. }
      destruct (O3 b q0 Hb Hb0 Hq0) as (Hsub & Hnz). split; [|done]. pose proof (O4 b a q0 p Hb Hai Hq0 Hp Hne). set_solver.
    + intros b c q s Hb Hc' [Hne Hq]%Hdel [Hne' Hs]%Hdel Hbc. destruct (Hown _ _ Hne Hq) as (q0 & Hq0 & -> & _). destruct (Hown _ _ Hne' Hs) as (s0 & Hs0 & -> & _).
      by apply O4.
Qed.

Lemma wp_release o (m : M R unit) k O (Q : unit -> kernel -> Prop) : releases pe_rep o m -> pe_rep (rest k) O -> o ∈ O ->
  (forall r, pe_rep r (O ∖ {[o]}) -> Q tt (set_rest r k)) -> wp (on_rest m) Q k.
Proof. intros Hm Hr Ho HQ. apply wp_on_rest. eapply wp_mono; [by apply (Hm _ O)|]. cbv beta. intros [] r Hr'. by apply HQ. Qed.

Lemma table_except k l a r O : table 0 k l -> owned 0 O k l -> pe_rep r (O ∖ {[(RFds, a)]}) -> table a (set_rest r k) l.
Proof.
  intros H [O1 O2 O3 O4] Hr. destruct H as [H1 H2 Hz Hi Hc H3 H4 H5 H6 H7 H8 H9 Hsg _]. split; try done.
  exists (O ∖ {[(RFds, a)]}). split; [done| | |done].
  - intros x. rewrite <- O2. set_solver.
  - intros b q Hb Hba Hq. assert (b <> 0) as Hb0. { intros ->. apply Hz, H1. by exists q. }
    destruct (O3 b q Hb Hb0 Hq) as [Hs Hn]. split; [|done]. unfold own in *. set_solver.
Qed.

Lemma destroy_outcome k l1 l2 a p : table 0 k (l1 ++ a :: l2) -> procs k !! a = Some p -> a <> idle_process k -> a <> current_process k ->
  wp (destroy a) (fun _ k' => table 0 k' (l1 ++ l2) /\ removed a k k' /\ links k' = delete a (links k)) k.
Proof.
  intros H Hp Hai Hac. destruct (tb_res _ _ _ H) as [O HO]. pose proof (ow_rep _ _ _ _ HO) as Hr.
  assert (a <> 0) as Ha0. { intros ->. apply (tb_nz _ _ _ H), (tb_dom _ _ _ H). by rewrite Hp. }
  destruct (ow_own _ _ _ _ HO a p Hai Ha0 Hp) as (Hown & Hs & Hk & Hf).
  unfold destroy, free_process_resources. wstep. wstep. apply (wp_getp _ p); [done|]. wstep.
  apply wp_on_rest. eapply wp_mono; [apply (pe_close_fds_law _ O a Hr); unfold own in Hown; set_solver|]. cbv beta. intros xs r1 [Hr1 Hxs].
  wstep. apply (wp_wake_all a _ _ (l1 ++ a :: l2)); [by apply (table_except k _ a r1 O)|intros x Hx; by apply (ow_procs _ _ _ _ HO), Hxs|].
  intros k2 H2 Ht Er2. assert (pe_rep (rest k2) (O ∖ {[(RFds, a)]})) as Hr2 by (by rewrite Er2).
  assert (touched k k2) as Ht2 by (eapply touched_trans; [apply touched_rest|exact Ht]).
  rewrite (proj2 (Z.eqb_neq _ _) Hs). wstep. eapply wp_release; [apply pe_free_space_law|exact Hr2|unfold own in Hown; set_solver|]. intros r3 Hr3.
  unfold free_ring0_stack. rewrite (proj2 (Z.eqb_neq _ _) Hk). wstep. eapply wp_release; [apply pe_free_ring0_law|exact Hr3|unfold own in Hown; set_solver|]. intros r4 Hr4.
  unfold free_fpu_state. rewrite (proj2 (Z.eqb_neq _ _) Hf). eapply wp_release; [apply pe_free_fpu_law|exact Hr4|unfold own in Hown; set_solver|]. intros r5 Hr5.
  unfold upd_glob. wstep. wstep. wstep. eapply wp_release; [apply pe_kfree_law|exact Hr5|unfold own in Hown; set_solver|]. intros r6 Hr6. wstep.
  assert (pe_rep r6 (O ∖ own a p)) as Hr6'.
  { replace (O ∖ own a p) with (O ∖ {[(RFds, a)]} ∖ {[(RSpace, page_table (img p))]} ∖ {[(RStack, ring0_stack_pages (img p))]} ∖ {[(RFpu, fpu_raw (img p))]} ∖ {[(RProcess, a)]}); [done|].
    apply set_eq. intros x. unfold own. set_solver. }
  pose proof (table_remove k k2 l1 l2 a p O r6 H2 HO Ht2 Hp Hai Hac Hr6') as Htab. split; [exact Htab|]. split.
  - split.
    + cbn. by rewrite lookup_delete_eq.
    + intros b Hb. cbn [procs set_procs set_rest set_glob]. rewrite lookup_delete_ne by done. by apply touched_kept.
    + rewrite (to_eq _ _ Ht2). done.
  - change (links (set_procs (delete a (procs k2)) k2) = delete a (links k)). unfold links. cbn [procs set_procs]. rewrite fmap_delete.
    f_equal. by apply (touched_links _ _ Ht2).
Qed.

(** * Unlinking *)

Lemma unlink_outcome k l0 b a l2 pa : kinv k ((l0 ++ [b]) ++ a :: l2) -> procs k !! a = Some pa -> a <> idle_process k -> a <> current_process k ->
  wp (setp b (set_next (next pa));; destroy a) (fun _ k' => kinv k' ((l0 ++ [b]) ++ l2) /\ removed a k k') k.
Proof.
  intros [Hr Ht] Hpa Hai Hac. pose proof (rg_nodup _ _ Hr) as Hnd. apply NoDup_app in Hnd as (Hnd1 & Hd & Hnd2). apply NoDup_cons in Hnd2 as [Ha2 Hnd2].
  apply NoDup_app in Hnd1 as (_ & Hb0 & _). assert (b ∉ l0) as Hb0' by (intros Hx; by apply (Hb0 _ Hx), list_elem_of_here).
  assert (a ∉ l0 ++ [b]) as Ha1 by (intros Hx; by apply (Hd _ Hx), list_elem_of_here).
  assert (b <> a) as Hba by (intros ->; apply Ha1; set_solver).
  destruct (ring_get _ _ b Hr) as [pb Hpb]; [set_solver|].
  wstep. apply (wp_setp _ pb); [done|]. set (k1 := set_procs _ k).
  assert (table 0 k1 ((l0 ++ [b]) ++ a :: l2)) as Ht1.
  { apply table_set with pb; [done|done|by split|by left| |].
    - intros ->. exact (tb_alive _ _ _ Ht pb Hpb).
    - intros Hrun. by apply (tb_running _ _ _ Ht b pb). }
  assert (procs k1 !! a = Some pa) as Hpa1 by (cbn; by rewrite lookup_insert_ne).
  eapply wp_mono; [by apply (destroy_outcome k1 _ _ a pa Ht1)|]. cbv beta. intros _ k' (Ht' & [G1 G2 G3] & El). split.
  - split; [|done]. assert (process_list k' = process_list k /\ idle_process k' = idle_process k) as [Epl Epi] by (rewrite G3; done).
    assert (links k1 = <[b := next pa]> (links k)) as El1 by (unfold links, k1; cbn [procs set_procs]; by rewrite fmap_insert).
    split; rewrite ?Epl, ?Epi.
    + rewrite El, El1. pose proof (rg_seg _ _ Hr) as Hs. apply lseg_app in Hs as (z & Hs1 & -> & c & Hc & Hs2).
      unfold links in Hc. rewrite lookup_fmap, Hpa in Hc. injection Hc as <-. apply lseg_delete; [set_solver|]. apply lseg_app. exists (next pa). split.
      * by apply lseg_redirect with a.
      * apply lseg_insert; [|done]. intros Hx. apply (Hd b); [set_solver|by apply list_elem_of_further].
    + rewrite NoDup_app. split_and!; [|intros x Hx Hx2; by apply (Hd x Hx), list_elem_of_further|done].
      pose proof (rg_nodup _ _ Hr) as Hnd. by apply NoDup_app in Hnd as (? & _).
    + destruct (rg_head _ _ Hr) as [tl E]. destruct l0 as [|h l0]; cbn in E |- *; injection E as -> <-; eauto.
    + intros Hx. apply (rg_nz _ _ Hr). set_solver.
    + apply (tb_dom _ _ _ Ht').
  - split; [done| |].
    + intros c Hc. specialize (G2 c Hc). cbn in G2. destruct (decide (c = b)) as [->|Hcb].
      * rewrite lookup_insert_eq in G2. rewrite Hpb. cbn in *. destruct (procs k' !! b); [|done]. cbn in *. eapply kept_trans; [apply kept_next|exact G2].
      * by rewrite lookup_insert_ne in G2.
    + rewrite G3. done.
Qed.

(** The predecessor of a process other than idle. *)
Lemma ring_prev k l a : ring k l -> a ∈ l -> a <> idle_process k -> exists l0 b l2, l = (l0 ++ [b]) ++ a :: l2.
Proof.
  intros H Ha Hne. apply list_elem_of_split in Ha as (l1 & l2 & ->). destruct (rg_head _ _ H) as [tl E].
  destruct (exists_last (l := l1)) as (l0 & b & ->); [intros ->; cbn in E; by injection E as ->|]. by exists l0, b, l2.
Qed.

Lemma remove_outcome k l a : kinv k l -> a ∈ l -> a <> idle_process k -> a <> current_process k ->
  wp (process_remove_from_list a) (fun _ k' => (exists l1 l2, l = l1 ++ a :: l2 /\ kinv k' (l1 ++ l2)) /\ removed a k k') k.
Proof.
  intros [Hr Ht] Ha Hai Hac. destruct (ring_prev _ _ _ Hr Ha Hai) as (l0 & b & l2 & ->). destruct (ring_get _ _ _ Hr Ha) as [pa Hpa].
  destruct (ring_idle _ _ Hr) as [Hi0 _]. pose proof (ring_list _ _ Hr) as Epl. assert (a <> 0) as Ha0 by (intros ->; by apply (rg_nz _ _ Hr)).
  pose proof (rg_nodup _ _ Hr) as Hnd. apply NoDup_app in Hnd as (Hnd1 & Hd & Hnd2). apply NoDup_cons in Hnd2 as [Ha2 Hnd2].
  assert (a ∉ l0 ++ [b]) as Ha1 by (intros Hx; by apply (Hd _ Hx), list_elem_of_here).
  assert (b <> a) as Hba by (intros ->; apply Ha1; set_solver).
  unfold process_remove_from_list. wstep. wstep. rewrite Epl, (proj2 (Z.eqb_neq _ _) Hi0), (proj2 (Z.eqb_neq _ _) Ha0). cbn [orb].
  wstep. apply (wp_getp _ pa); [done|]. pose proof (rg_seg _ _ Hr) as Hs. pose proof Hs as Hs'. apply lseg_app in Hs' as (z & Hs1 & -> & c & Hc & Hs2).
  unfold links in Hc. rewrite lookup_fmap, Hpa in Hc. injection Hc as <-.
  assert (next pa <> a) as Hna.
  { intros E. rewrite E in Hs2. destruct l2 as [|d l2]; cbn in Hs2; [|destruct Hs2 as [-> _]; by apply Ha2, list_elem_of_here].
    rewrite Epl in Hs2. done. }
  rewrite (proj2 (Z.eqb_neq _ _) Hna). wstep. wstep. wstep. rewrite (proj2 (Z.eqb_neq (idle_process k) a)) by done.
  assert (prev_of (size (procs k)) a (idle_process k) (idle_process k) k = Some (b, k)) as Eprev.
  { rewrite <- Epl at 2. apply prev_of_outcome with l0.
    - done.
    - done.
    - destruct (rg_head _ _ Hr) as [tl E]. pose proof (rg_nodup _ _ Hr) as Hnd. rewrite E in Hnd. apply NoDup_cons in Hnd as [Hnd _].
      destruct l0 as [|h l0]; cbn in E |- *; [by intros ?%not_elem_of_nil|]. injection E as _ <-. intros Hx. apply Hnd. set_solver.
    - rewrite (ring_size _ _ Hr), (length_app _ (a :: l2)). lia. }
  destruct (ring_get _ _ b Hr) as [pb Hpb]; [set_solver|].
  assert (next pb = a) as Enb.
  { apply lseg_app in Hs1 as (z & _ & -> & d & Hd' & ->). unfold links in Hd'. rewrite lookup_fmap, Hpb in Hd'. by injection Hd'. }
  pose proof (unlink_outcome k l0 b a l2 pa {| ki_ring := Hr; ki_table := Ht |} Hpa Hai Hac) as Hun.
  assert (forall Q : unit -> kernel -> Prop, wp (setp b (set_next (next pa));; destroy a) Q k ->
    wp (q ← prev_of (size (procs k)) a (idle_process k) (idle_process k); b ← getp q; if next b =? a then setp q (set_next (next pa)) else mret tt)
      (fun _ k' => wp (destroy a) Q k') k) as Hgo.
  { intros Q HQ. wstep. eapply wp_Some; [exact Eprev|]. wstep. apply (wp_getp _ pb); [done|]. rewrite Enb, Z.eqb_refl.
    unfold wp at 1. unfold wp at 1 in HQ. unfold mbind, M_bind in HQ. destruct (setp b _ k) as [[[] k1]|]; [exact HQ|done]. }
  apply Hgo. eapply wp_mono; [exact Hun|]. cbv beta. intros _ k' [H1 H2]. split; [|done]. by exists (l0 ++ [b]), l2.
Qed.
(** * The reaper *)

Definition alive k (a : Z) : Prop := forall p, procs k !! a = Some p -> pstate p <> PROCESS_TERMINATED.

(** Only processes and their number changed. *)
Definition same_else k k' : Prop :=
  k' = mk_kernel (procs k') (process_list k) (current_process k) (idle_process k) (current_fd_table k) (hw k) (time k)
    (set_counts (next_pid (glob k)) (process_count (glob k')) (glob k)) (rest k').

Lemma same_else_refl k : same_else k k.
Proof. destruct k as [? ? ? ? ? ? ? [] ?]. done. Qed.

Lemma same_else_trans k1 k2 k3 : same_else k1 k2 -> same_else k2 k3 -> same_else k1 k3.
Proof. unfold same_else. intros E1 E2. rewrite E2. rewrite E1. done. Qed.

Lemma removed_else a k k' : removed a k k' -> same_else k k'.
Proof. intros [_ _ E]. unfold same_else. rewrite E. done. Qed.

(** [l'] is what is left of [l]. *)
Record reaped k k' (l l' : list Z) : Prop := {
  rp_sub : l' `sublist_of` l;
  rp_dead : forall a, a ∈ l -> (a ∉ l') -> a <> idle_process k /\ exists p, procs k !! a = Some p /\ pstate p = PROCESS_TERMINATED;
  rp_kept : forall a, a ∈ l' -> pointwise kept (procs k !! a) (procs k' !! a);
  rp_else : same_else k k';
}.

Lemma reaped_refl k l : reaped k k l l.
Proof. split; [done|done| |apply same_else_refl]. intros a Ha. destruct (procs k !! a); [apply kept_refl|done]. Qed.

Lemma reaped_trans k1 k2 k3 l1 l2 l3 : reaped k1 k2 l1 l2 -> reaped k2 k3 l2 l3 -> reaped k1 k3 l1 l3.
Proof.
  intros [A1 A2 A3 A4] [B1 B2 B3 B4]. assert (idle_process k2 = idle_process k1) as Ei by (rewrite A4; done).
  assert (forall a, a ∈ l3 -> a ∈ l2) as Hs by (intros a Ha; eapply elem_of_submseteq; [exact Ha|by apply sublist_submseteq]).
  split; [by etransitivity| | |by eapply same_else_trans].
  - intros a Ha Hn. destruct (decide (a ∈ l2)) as [H2|H2]; [|by apply A2]. destruct (B2 a H2 Hn) as (Hi & p & Hp & Hd). split; [congruence|].
    specialize (A3 a H2). rewrite Hp in A3. destruct (procs k1 !! a) as [q|]; [|done]. exists q. split; [done|].
    destruct A3 as [n [->| ->]]; cbn in Hd; [done|discriminate].
  - intros a Ha. specialize (A3 a (Hs a Ha)). specialize (B3 a Ha). destruct (procs k1 !! a), (procs k2 !! a), (procs k3 !! a); try done.
    by eapply kept_trans.
Qed.

Lemma kept_alive k k' a : pointwise kept (procs k !! a) (procs k' !! a) -> alive k a -> alive k' a.
Proof.
  intros H Ha p Hp. rewrite Hp in H. destruct (procs k !! a) as [q|] eqn:E; [|done]. destruct H as [n [->| ->]]; [by apply (Ha q)|done].
Qed.

Lemma removed_reaped k k' l1 l2 a p : removed a k k' -> NoDup (l1 ++ a :: l2) -> a <> idle_process k -> procs k !! a = Some p ->
  pstate p = PROCESS_TERMINATED -> reaped k k' (l1 ++ a :: l2) (l1 ++ l2).
Proof.
  intros H Hnd Hai Hp Hd. apply NoDup_app in Hnd as (_ & Hd1 & Hnd). apply NoDup_cons in Hnd as [Hn2 _]. split.
  - apply sublist_app; [done|by constructor].
  - intros b Hb Hnb. assert (b = a) as -> by set_solver. eauto.
  - intros b Hb. apply (rm_kept _ _ _ H). intros ->. apply elem_of_app in Hb as [Hb|Hb]; [by apply (Hd1 _ Hb), list_elem_of_here|done].
  - by eapply removed_else.
Qed.

(** Every round visits a process or removes one; 34 times their number covers all passes. *)
Lemma reap_loop_outcome fuel : forall k l1 l2 p prev, kinv k (l1 ++ p :: l2) -> alive k (current_process k) -> Forall (alive k) l1 ->
  (l1 = [] \/ exists l0, l1 = l0 ++ [prev]) -> (34 * length (l1 ++ p :: l2) + length (p :: l2) <= fuel)%nat ->
  wp (reap_loop fuel (idle_process k) prev p) (fun _ k' => exists l', kinv k' l' /\ reaped k k' (l1 ++ p :: l2) l' /\
    forall a, a ∈ l' -> alive k' a) k.
Proof.
  induction fuel as [|fuel IH]; intros k l1 l2 p prev Hk Hcur Hl1 Hprev Hf; [cbn in Hf; lia|].
  pose proof (ki_ring _ _ Hk) as Hr. assert (p ∈ l1 ++ p :: l2) as Hin by set_solver. assert (p <> 0) as Hp0 by (intros ->; by apply (rg_nz _ _ Hr)).
  destruct (ring_get _ _ _ Hr Hin) as [o Ho]. pose proof (ring_list _ _ Hr) as Epl. pose proof (rg_seg _ _ Hr) as Hs. rewrite Epl in Hs.
  apply lseg_app in Hs as (z & Hs1 & -> & c & Hc & Hs2). unfold links in Hc. rewrite lookup_fmap, Ho in Hc. injection Hc as <-.
  pose proof (rg_nodup _ _ Hr) as Hnd. pose proof Hnd as Hnd'. apply NoDup_app in Hnd' as (_ & Hd1 & Hn2). apply NoDup_cons in Hn2 as [Hp2 Hn2].
  destruct (ring_idle _ _ Hr) as [Hi0 _].
  assert (next o = p -> p = idle_process k) as Hself.
  { intros E. rewrite E in Hs2. destruct l2 as [|d l2]; cbn in Hs2; [done|]. destruct Hs2 as [-> _]. exfalso. by apply Hp2, list_elem_of_here. }
  cbn [reap_loop]. rewrite (proj2 (Z.eqb_neq _ _) Hp0). wstep. apply (wp_getp _ o); [done|]. wstep. wstep.
  replace ((next o =? p) && negb (p =? idle_process k)) with false; cycle 1.
  { destruct (Z.eqb_spec (next o) p) as [E|]; [|done]. by rewrite (Hself E), Z.eqb_refl. }
  destruct (bool_decide (pstate o = PROCESS_TERMINATED) && negb (p =? idle_process k)) eqn:Edead.
  - apply andb_true_iff in Edead as [Hd%bool_decide_eq_true Hpi%negb_true_iff%Z.eqb_neq].
    assert (p <> current_process k) as Hpc by (intros ->; by apply (Hcur o)).
    destruct Hprev as [->|[l0 ->]]. { destruct (rg_head _ _ Hr) as [tl E]. cbn in E. by injection E as ->. }
    assert (prev <> 0) as Hpr0 by (intros ->; apply (rg_nz _ _ Hr); set_solver). rewrite (proj2 (Z.eqb_neq _ _) Hpr0).
    pose proof (unlink_outcome k l0 prev p l2 o Hk Ho Hpi Hpc) as Hun.
    assert (forall Q : unit -> kernel -> Prop, wp (setp prev (set_next (next o));; destroy p) (fun _ k' => wp (b ← getp prev; reap_loop fuel (idle_process k) prev (next b)) Q k') k ->
      wp (setp prev (set_next (next o));; destroy p;; b ← getp prev; reap_loop fuel (idle_process k) prev (next b)) Q k) as Hgo.
    { intros Q HQ. unfold wp in *. unfold mbind, M_bind in *. destruct (setp prev _ k) as [[[] k1]|]; [|done]. by destruct (destroy p k1) as [[[] k2]|]. }
    apply Hgo. eapply wp_mono; [exact Hun|]. cbv beta. intros _ k' [Hk' Hrm].
    pose proof (removed_reaped k k' (l0 ++ [prev]) l2 p o Hrm Hnd Hpi Ho Hd) as Hrp. pose proof (removed_else _ _ _ Hrm) as Hel.
    assert (idle_process k' = idle_process k /\ current_process k' = current_process k) as [Ei Ec] by (rewrite Hel; done).
    pose proof (ki_ring _ _ Hk') as Hr'. destruct (ring_get _ _ prev Hr') as [b Hb]; [set_solver|]. wstep. apply (wp_getp _ b); [done|].
    assert (alive k' (current_process k')) as Hcur' by (rewrite Ec; apply (kept_alive k); [by apply (rm_kept _ _ _ Hrm), not_eq_sym|done]).
    assert (forall a, a ∈ l0 ++ [prev] -> alive k' a) as Hal'.
    { intros a Ha. apply (kept_alive k); [apply (rm_kept _ _ _ Hrm)|by apply (Forall_forall _ (l0 ++ [prev]))].
      intros ->. by apply (Hd1 _ Ha), list_elem_of_here. }
    pose proof (rg_seg _ _ Hr') as Hs'. rewrite (ring_list _ _ Hr'), Ei in Hs'. apply lseg_app in Hs' as (z & Hs1' & Hs2').
    apply lseg_app in Hs1' as (w & Hs0' & -> & d & Hd' & ->). unfold links in Hd'. rewrite lookup_fmap, Hb in Hd'. injection Hd' as <-.
    assert (forall ll l3, l3 = (l0 ++ [prev]) ++ l2 -> (exists l', kinv ll l' /\ reaped k' ll l3 l' /\ forall a, a ∈ l' -> alive ll a) ->
      exists l', kinv ll l' /\ reaped k ll ((l0 ++ [prev]) ++ p :: l2) l' /\ forall a, a ∈ l' -> alive ll a) as Hdone.
    { intros ll l3 -> (l' & H1 & H2 & H3). exists l'. split_and!; [done|by eapply reaped_trans|done]. }
    destruct l2 as [|d l2].
    + cbn in Hs2'. rewrite app_nil_r in *. destruct (rg_head _ _ Hr') as [tl E]. rewrite Hs2'. rewrite <- Ei.
      eapply wp_mono; [apply (IH k' [] tl (idle_process k') prev)|].
      * cbn. by rewrite <- E.
      * done.
      * constructor.
      * by left.
      * pose proof (tb_count _ _ _ (ki_table _ _ Hk)) as [_ Hcnt]. unfold zlen, MAX_PROCESSES in Hcnt. cbn [app]. rewrite <- E.
        rewrite !length_app in *. cbn [length] in *. lia.
      * cbv beta. intros _ ll. apply Hdone. cbn. by rewrite E.
    + destruct Hs2' as [-> _]. rewrite <- Ei. eapply wp_mono; [apply (IH k' (l0 ++ [prev]) l2 d prev)|].
      * done.
      * done.
      * apply Forall_forall. exact Hal'.
      * right. by exists l0.
      * rewrite !length_app in *. cbn [length] in *. lia.
      * cbv beta. intros _ ll. by apply Hdone.
  - assert (alive k p) as Hpal.
    { intros q Hq. rewrite Ho in Hq. injection Hq as <-. apply andb_false_iff in Edead as [E%bool_decide_eq_false|E%negb_false_iff%Z.eqb_eq]; [done|].
      rewrite E in Ho. by apply (tb_alive _ _ _ (ki_table _ _ Hk)). }
    destruct l2 as [|d l2].
    + cbn in Hs2. rewrite Hs2, Z.eqb_refl. cbn [orb]. wstep. exists (l1 ++ [p]). split_and!; [done|apply reaped_refl|].
      intros a [Ha|Ha]%elem_of_app; [by apply (Forall_forall _ l1)|]. by apply list_elem_of_singleton in Ha as ->.
    + destruct Hs2 as [En _]. rewrite En.
      assert (d <> idle_process k) as Hdi.
      { intros ->. destruct (rg_head _ _ Hr) as [tl E]. destruct l1 as [|h l1]; cbn in E; injection E as Eh _.
        - rewrite Eh in Hp2. by apply Hp2, list_elem_of_here.
        - apply (Hd1 (idle_process k)); [rewrite Eh; by apply list_elem_of_here|by apply list_elem_of_further, list_elem_of_here]. }
      assert (d <> 0) as Hd0 by (intros ->; apply (rg_nz _ _ Hr); set_solver).
      rewrite (proj2 (Z.eqb_neq _ _) Hdi), (proj2 (Z.eqb_neq _ _) Hd0). cbn [orb].
      assert ((l1 ++ [p]) ++ d :: l2 = l1 ++ p :: d :: l2) as El by (by rewrite <- app_assoc).
      rewrite <- El. apply IH.
      * by rewrite El.
      * done.
      * apply Forall_app_2; [done|by apply Forall_singleton].
      * right. by exists l1.
      * rewrite !length_app in *. cbn [length] in *. lia.
Qed.

Lemma reap_outcome k l : kinv k l -> alive k (current_process k) ->
  wp process_reap (fun _ k' => exists l', kinv k' l' /\ reaped k k' l l' /\ forall a, a ∈ l' -> alive k' a) k.
Proof.
  intros Hk Hcur. pose proof (ki_ring _ _ Hk) as Hr. destruct (rg_head _ _ Hr) as [tl E]. destruct (ring_idle _ _ Hr) as [Hi0 _].
  unfold process_reap. wstep. wstep. rewrite (ring_list _ _ Hr), (proj2 (Z.eqb_neq _ _) Hi0). rewrite E in Hk |- *.
  apply (reap_loop_outcome _ k [] tl (idle_process k) 0); [done|done|constructor|by left|].
  pose proof (tb_count _ _ _ (ki_table _ _ Hk)) as [_ Hc]. unfold zlen, MAX_PROCESSES in Hc. cbn [app length] in *. lia.
Qed.

(** C25: The reaper removes exactly the processes that have ended, idle never and the running process never
    as long as it has not ended itself; it releases what they own once, keeps the order of the others
    and stops long before its bound of 10000 rounds. *)
Theorem process_reap_correct k l : kinv k l -> alive k (current_process k) ->
  wp process_reap (fun _ k' => exists l', kinv k' l' /\ reaped k k' l l' /\ forall a, a ∈ l' -> alive k' a) k.
Proof. apply reap_outcome. Qed.

(** * Switching keeps the invariant *)

Lemma lookup_switch k cur nx c p b q : procs (switch_result k cur nx c p) !! b = Some q ->
  (b = nx /\ q = entered p) \/ (b <> nx /\ b = cur /\ q = left_by (hw k) c) \/ (b <> nx /\ b <> cur /\ procs k !! b = Some q).
Proof.
  unfold switch_result. cbn [procs]. destruct (decide (b = nx)) as [->|]; [rewrite lookup_insert_eq; naive_solver|rewrite lookup_insert_ne by done].
  destruct (decide (b = cur)) as [->|]; [rewrite lookup_insert_eq; naive_solver|rewrite lookup_insert_ne by done; auto].
Qed.

Lemma left_by_alike h p : alike p (left_by h p) /\ next (left_by h p) = next p /\ mbox (left_by h p) = mbox p /\
  sg (left_by h p) = sg p /\
  pstate (left_by h p) = (if bool_decide (pstate p = PROCESS_RUNNING) then PROCESS_READY else pstate p).
Proof. unfold left_by. case_bool_decide; (split_and!; [by split|done..]). Qed.

Lemma kinv_switch k l cur nx c p : kinv k l -> current_process k = cur -> procs k !! cur = Some c -> procs k !! nx = Some p -> nx <> cur ->
  kinv (switch_result k cur nx c p) l.
Proof.
  intros [Hr Ht] Hcur Hc Hp Hne. split; [eapply ring_same; [exact Hr|by apply links_switch|done|done]|].
  destruct Ht as [H1 H2 Hz Hi Hcc H3 H4 H5 H6 H7 H8 H9 Hsg [O H10]]. destruct (left_by_alike (hw k) c) as (Lal & _ & Lm & Lg & Lst). pose proof Lal as [Lp Ls Lk Lf _].
  assert (forall b q, procs (switch_result k cur nx c p) !! b = Some q -> exists q0, procs k !! b = Some q0 /\ pid q = pid q0 /\ mbox q = mbox q0 /\ sg q = sg q0 /\
    own b q = own b q0 /\ page_table (img q) = page_table (img q0) /\ ring0_stack_pages (img q) = ring0_stack_pages (img q0) /\ fpu_raw (img q) = fpu_raw (img q0)) as Hq.
  { intros b q [[-> ->]|[(_ & -> & ->)|(_ & _ & Hb)]]%lookup_switch; [by exists p|exists c|by exists q]. split_and!; try done. by apply own_alike. }
  split; try done.
  - intros b. rewrite <- H1. unfold switch_result. cbn [procs]. destruct (decide (b = nx)) as [->|]; [rewrite lookup_insert_eq, Hp; split; eauto|rewrite lookup_insert_ne by done].
    destruct (decide (b = cur)) as [->|]; [rewrite lookup_insert_eq, Hc; split; eauto|by rewrite lookup_insert_ne].
  - cbn. apply H1. by rewrite Hp.
  - intros b q (q0 & Hb & E & _)%Hq. rewrite E. by apply H4.
  - intros b b' q q' (q0 & Hb & E & _)%Hq (q0' & Hb' & E' & _)%Hq Ep. apply (H5 b b' q0 q0'); [done|done|congruence].
  - intros q Hb. cbn [idle_process switch_result] in Hb. apply lookup_switch in Hb as [[Eb ->]|[(_ & Eb & ->)|(_ & _ & Hb)]]; [done| |by apply H7].
    rewrite Lst. case_bool_decide; [done|]. rewrite Eb in H7. by apply H7.
  - intros b q Hb Hst. cbn [current_process switch_result]. apply lookup_switch in Hb as [[Eb ->]|[(_ & Eb & ->)|(_ & Hbc & Hb)]]; [done| |].
    + rewrite Lst in Hst. by case_bool_decide.
    + exfalso. apply Hbc. rewrite <- Hcur. by apply (H8 b q).
  - intros b q (q0 & Hb & _ & E & _)%Hq. rewrite E. by apply H9.
  - intros b q (q0 & Hb & _ & _ & E & _)%Hq. rewrite E. by apply (Hsg b).
  - exists O. destruct H10 as [O1 O2 O3 O4]. split; [done|done| |].
    + intros b q Hb Hb0 (q0 & Hq0 & _ & _ & _ & -> & -> & -> & ->)%Hq. by apply O3.
    + intros b b' q q' Hb Hb' (q0 & Hq0 & _ & _ & _ & -> & _)%Hq (q0' & Hq0' & _ & _ & _ & -> & _)%Hq. by apply O4.
Qed.

Lemma kinv_len k l : kinv k l -> (length l <= 100)%nat.
Proof. intros H. pose proof (tb_count _ _ _ (ki_table _ _ H)) as [_ Hc]. unfold zlen, MAX_PROCESSES in Hc. lia. Qed.

(** What [schedule] leaves: the same processes, and a running one unless nobody can run. *)
Lemma schedule_kinv k l c : kinv k l -> procs k !! current_process k = Some c ->
  wp schedule (fun away k' => kinv k' l /\ if away then exists nx p, nx <> current_process k /\ procs k !! nx = Some p /\
      k' = switch_result k (current_process k) nx c p /\ (nx = idle_process k \/ pstate p = PROCESS_READY)
    else k' = k /\ (current_process k = idle_process k \/ pstate c = PROCESS_RUNNING \/ pstate c = PROCESS_READY)) k.
Proof.
  intros Hk Hc. pose proof (ki_ring _ _ Hk) as Hr. pose proof (tb_current _ _ _ (ki_table _ _ Hk)) as Hin.
  pose proof (schedule_outcome k l _ c Hr (kinv_len _ _ Hk) eq_refl Hin Hc) as E. cbv zeta in E. destruct (ring_idle _ _ Hr) as [Hi0 Hii].
  assert (current_process k <> 0) as Hc0 by (intros E0; apply (rg_nz _ _ Hr); by rewrite <- E0).
  destruct (Z.eqb_spec (next_runnable k (after (current_process k) l)) 0) as [E0|Hnx]; cbn [negb] in E.
  - destruct (keeps_cpu k c (current_process k)) eqn:Ek.
    + eapply wp_Some; [exact E|]. split; [done|]. split; [done|]. unfold keeps_cpu in Ek. apply orb_true_iff in Ek as [Ek|Ek%Z.eqb_eq]; [|by left].
      apply orb_true_iff in Ek as [Ek%bool_decide_eq_true|Ek%bool_decide_eq_true]; auto.
    + apply orb_false_iff in Ek as [_ Ek%Z.eqb_neq]. destruct (ring_get _ _ _ Hr Hii) as [p Hp].
      assert (idle_process k <> current_process k) as Hne by congruence.
      rewrite (bind_Some _ _ _ _ _ (switch_outcome k _ _ c p eq_refl Hc0 Hi0 Hne Hc Hp)) in E. eapply wp_Some; [exact E|].
      split; [by apply kinv_switch|]. exists (idle_process k), p. auto.
  - set (nx := next_runnable k (after (current_process k) l)) in *.
    assert (List.find (runnable k) (after (current_process k) l) = Some nx) as Ef by (unfold nx, next_runnable in *; by destruct (List.find _ _)).
    apply find_some in Ef as [Hinx%list_elem_of_In Hrun]. destruct (ring_after _ _ _ Hr Hin) as (l1 & l2 & El & Hc1 & Hc2 & Ea & _). rewrite Ea in Hinx.
    assert (nx ∈ l) as Hnl by (rewrite El; set_solver). assert (nx <> current_process k) as Hne by (intros E'; rewrite E' in Hinx; apply elem_of_app in Hinx as [?|?]; done).
    destruct (ring_get _ _ _ Hr Hnl) as [p Hp]. unfold runnable, sat in Hrun. rewrite Hp in Hrun. apply andb_true_iff in Hrun as [Hrun%bool_decide_eq_true _].
    rewrite (bind_Some _ _ _ _ _ (switch_outcome k _ nx c p eq_refl Hc0 Hnx Hne Hc Hp)) in E. eapply wp_Some; [exact E|].
    split; [by apply kinv_switch|]. exists nx, p. auto.
Qed.

(** C18: [schedule] is round robin: it switches to the first ready process after the current one in list
    order, the idle process excepted; if there is none the current process goes on when it still can,
    and otherwise idle runs.  A switch saves the registers of the process that leaves and loads those
    of the one that enters, touches no other process and keeps the invariant of the table. *)
Theorem schedule_correct k l c : kinv k l -> procs k !! current_process k = Some c ->
  let nx := next_runnable k (after (current_process k) l) in
  let target := if nx =? 0 then idle_process k else nx in
  wp schedule (fun away k' => kinv k' l /\
    if away then (nx <> 0 \/ (pstate c <> PROCESS_RUNNING /\ pstate c <> PROCESS_READY)) /\
      exists p, target <> current_process k /\ procs k !! target = Some p /\ k' = switch_result k (current_process k) target c p
    else k' = k /\ nx = 0 /\ (current_process k = idle_process k \/ pstate c = PROCESS_RUNNING \/ pstate c = PROCESS_READY)) k.
Proof.
  intros Hk Hc nx target. pose proof (schedule_spec k l _ c (ki_ring _ _ Hk) (kinv_len _ _ Hk) eq_refl (tb_current _ _ _ (ki_table _ _ Hk)) Hc) as H.
  destruct (wp_inv _ _ _ (schedule_kinv k l c Hk Hc)) as (away & k' & E & Hk' & _). eapply wp_Some; [exact E|]. split; [done|].
  exact (wp_run _ _ _ _ _ H E).
Qed.

(** * Waiting for a child *)

Definition child_of k (me : process) (pidarg a : Z) (p : process) : Prop :=
  procs k !! a = Some p /\ ppid p = pid me /\ (pidarg = 0 \/ pidarg = WAIT_ANY_PID \/ pid p = pidarg).

Lemma is_child_spec me arg p : is_child_of (pid me) (if arg =? 0 then WAIT_ANY_PID else arg) p = true <->
  ppid p = pid me /\ (arg = 0 \/ arg = WAIT_ANY_PID \/ pid p = arg).
Proof.
  unfold is_child_of. rewrite andb_true_iff, orb_true_iff, !Z.eqb_eq. destruct (Z.eqb_spec arg 0) as [->|]; [|naive_solver].
  split; [naive_solver|]. intros [? _]. split; [done|by left].
Qed.

(** [blocked k]: the caller, made to wait, in the state from which [schedule] starts. *)
Definition blocked_for k (me : process) (target : Z) : kernel :=
  set_procs (<[current_process k := set_state PROCESS_BLOCKED (set_wait target me)]> (procs k)) k.

Lemma wait_round_outcome k l me arg : kinv k l -> procs k !! current_process k = Some me -> pstate me <> PROCESS_TERMINATED ->
  wp (wait_round arg) (fun r k' => match r with
    | Reaped n code => exists z p l1 l2, l = l1 ++ z :: l2 /\ child_of k me arg z p /\ pstate p = PROCESS_TERMINATED /\ n = pid p /\ code = exit_code p /\
        kinv k' (l1 ++ l2) /\ removed z k k'
    | NoChild => k' = k /\ forall a p, ~ child_of k me arg a p
    | Blocked away => kinv k' l /\ (exists a p, child_of k me arg a p) /\ (forall a p, child_of k me arg a p -> pstate p <> PROCESS_TERMINATED) /\
        schedule (blocked_for k me (if arg =? 0 then WAIT_ANY_PID else arg)) = Some (away, k')
    end) k.
Proof.
  intros Hk Hme Hal. pose proof (ki_ring _ _ Hk) as Hr. pose proof (tb_current _ _ _ (ki_table _ _ Hk)) as Hin.
  assert (current_process k <> 0) as Hc0 by (intros E0; apply (rg_nz _ _ Hr); by rewrite <- E0).
  unfold wait_round. wstep. wstep. rewrite (proj2 (Z.eqb_neq _ _) Hc0). wstep. apply (wp_getp _ me); [done|]. cbv zeta.
  set (target := if arg =? 0 then WAIT_ANY_PID else arg). set (Pz := fun p => is_child_of (pid me) target p && bool_decide (pstate p = PROCESS_TERMINATED)).
  unfold wait_scan. wstep. wstep. eapply wp_Some; [apply (find_process_outcome k l Pz Hr)|].
  wstep. eapply wp_Some; [apply (find_process_outcome k l _ Hr)|]. wstep.
  destruct (pick_spec k Pz l (rg_nz _ _ Hr)) as [(Hz & (p & Hp & HP) & l1 & l2 & El & _)|[Ez Hf]].
  - set (z := pick k Pz l) in *. rewrite (proj2 (Z.eqb_neq _ _) Hz). cbn [negb]. unfold Pz in HP. apply andb_true_iff in HP as [Hch Hd%bool_decide_eq_true].
    apply is_child_spec in Hch. wstep. apply (wp_getp _ p); [done|]. wstep.
    assert (z ∈ l) as Hzl by (rewrite El; set_solver).
    eapply wp_mono; [apply (remove_outcome k l z Hk Hzl)|].
    + intros E. rewrite E in Hp. by apply (tb_alive _ _ _ (ki_table _ _ Hk) p).
    + intros E. rewrite E in Hp. naive_solver.
    + cbv beta. intros _ k' [(m1 & m2 & Em & Hk') Hrm]. wstep. exists z, p, m1, m2. by split_and!.
  - rewrite Ez. cbn [Z.eqb negb]. destruct (pick_spec k (is_child_of (pid me) target) l (rg_nz _ _ Hr)) as [(Hz & (p & Hp & HP) & _)|[E0 Hf0]].
    + rewrite (proj2 (Z.eqb_neq _ _) Hz). cbn [negb]. wstep. apply (wp_setp _ me); [done|]. wstep.
      apply (wp_setp _ (set_wait target me)); [cbn; by rewrite lookup_insert_eq|].
      assert (set_procs (<[current_process k := set_state PROCESS_BLOCKED (set_wait target me)]> (procs (set_procs (<[current_process k := set_wait target me]> (procs k)) k)))
        (set_procs (<[current_process k := set_wait target me]> (procs k)) k) = blocked_for k me target) as ->.
      { unfold blocked_for, set_procs. cbn. by rewrite insert_insert_eq. }
      assert (kinv (blocked_for k me target) l) as Hk1 by (by apply kinv_set with me; [..|by left| |]).
      wstep. assert (procs (blocked_for k me target) !! current_process (blocked_for k me target) = Some (set_state PROCESS_BLOCKED (set_wait target me))) as Hme1.
      { unfold blocked_for. cbn. by rewrite lookup_insert_eq. }
      destruct (wp_inv _ _ _ (schedule_kinv _ _ _ Hk1 Hme1)) as (away & k' & Es & Hk' & _). eapply wp_Some; [exact Es|]. wstep.
      split_and!; [done| | |done].
      * exists (pick k (is_child_of (pid me) target) l), p. split; [done|]. by apply is_child_spec.
      * intros a q (Hq & Hch) Hd. rewrite Forall_forall in Hf. specialize (Hf a). unfold sat, Pz in Hf. rewrite Hq in Hf.
        rewrite (proj2 (is_child_spec me arg q) Hch : is_child_of (pid me) target q = true), Hd in Hf. by discriminate Hf; apply (rg_dom _ _ Hr); exists q.
    + rewrite E0. cbn [Z.eqb negb]. wstep. split; [done|]. intros a q (Hq & Hch). rewrite Forall_forall in Hf0. specialize (Hf0 a). unfold sat in Hf0. rewrite Hq in Hf0.
      rewrite (proj2 (is_child_spec me arg q) Hch : is_child_of (pid me) target q = true) in Hf0. by discriminate Hf0; apply (rg_dom _ _ Hr); exists q.
Qed.
End life.
