(* ===== verification/ProcessCreate.v ===== *)
(** Creating processes: resources, the place in the list, failure; and [process_fork]. *)

From S2P Require Import Prelude Interfaces Mailbox ProcessEnv Process ProcessRing ProcessSched ProcessInv ProcessLife.

Section create.
Context {R : Type} `{!ProcessEnv R}.
Implicit Types (k : kernel (R := R)).

Lemma wp_create kd (m : M R Z) k O (Q : Z -> kernel -> Prop) : creates pe_rep kd m -> pe_rep (rest k) O ->
  (forall r, pe_rep r O -> Q 0 (set_rest r k)) ->
  (forall x r, x <> 0 -> ((kd, x) ∉ O) -> pe_rep r ({[(kd, x)]} ∪ O) -> Q x (set_rest r k)) -> wp (on_rest m) Q k.
Proof.
  intros Hm Hr H0 H1. apply wp_on_rest. eapply wp_mono; [by apply (Hm _ O)|]. cbv beta. intros x r [[-> Hr']|(Hx & Hn & Hr')]; auto.
Qed.

Lemma wp_keeps {A} (m : M R A) k O (Q : A -> kernel -> Prop) : keeps_res pe_rep m -> pe_rep (rest k) O ->
  (forall x r, pe_rep r O -> Q x (set_rest r k)) -> wp (on_rest m) Q k.
Proof. intros Hm Hr HQ. apply wp_on_rest. eapply wp_mono; [by apply (Hm _ O)|]. cbv beta. intros x r Hr'. by apply HQ. Qed.

Definition bump (g : globals) : globals := set_counts (u32 (next_pid g + 1)) (process_count g) g.
Definition with_rest k0 (r : R) : kernel := set_rest r (set_glob (bump (glob k0)) k0).

(** The record [process_create] fills in: what the new process takes from the current one [c]. *)
Record newborn k (c : process) (name : list Z) (entry : Z) (o : process) : Prop := {
  nb_pid : pid o = next_pid (glob k);
  nb_parent : ppid o = pid c /\ uid o = uid c /\ gid o = gid c;
  nb_state : pstate o = PROCESS_READY /\ wait_target_pid o = 0 /\ is_shell o = false /\ first_run o = (entry =? 0) /\ next o = 0;
  nb_name : pname o = cut_name name;
  nb_signals : signal_handlers (sg o) = no_handlers /\ pending_signal (sg o) = 0 /\ in_signal_handler (sg o) = false /\ alarm_tick (sg o) = 0;
  nb_mbox : mbox o = no_mailbox;
  nb_image : page_table (img o) <> 0 /\ ring0_stack_pages (img o) <> 0 /\ fpu_raw (img o) <> 0 /\ cr3 (context o) = page_table (img o) /\ rip (context o) = entry;
}.

Lemma no_mailbox_ok a : mailbox_ok a no_mailbox.
Proof.
  split; [|by left]. exists []. split; try done.
  - cbn [slots no_mailbox]. apply Forall_replicate. split; [done|]. cbn [payload]. unfold zlen. by rewrite length_replicate.
  - intros i v Hv%zget_range. cbn in Hv. unfold zlen in Hv. cbn in Hv. lia.
Qed.

Lemma wp_close {A} (m : M R A) k (Q : A -> kernel -> Prop) : wp m (fun x r => Q x (set_rest r k)) (rest k) -> wp (on_rest m) Q k.
Proof. apply wp_on_rest. Qed.

Ltac res := unfold own; apply set_eq; intros ?; set_solver.

Lemma build_outcome k O a junk name entry c : pe_rep (rest k) ({[(RProcess, a)]} ∪ O) -> ((RProcess, a) ∉ O) ->
  current_process k <> 0 -> procs k !! current_process k = Some c ->
  wp (build_process a junk name entry) (fun r k' => exists r', k' = with_rest k r' /\ match r with
    | None => pe_rep r' ({[(RFds, a)]} ∪ O)
    | Some o => pe_rep r' (own a o ∪ O) /\ newborn k c name entry o /\ saved_signal_context (sg o) = snd junk /\
        ((RSpace, page_table (img o)) ∉ O) /\ ((RStack, ring0_stack_pages (img o)) ∉ O) /\ ((RFpu, fpu_raw (img o)) ∉ O)
    end) k.
Proof.
  intros Hr HaO Hc0 Hc. unfold build_process, upd_glob. wstep. wstep. wstep. wstep. wstep. wstep. wstep.
  cbn [current_process set_glob]. rewrite (proj2 (Z.eqb_neq _ _) Hc0). wstep. apply (wp_getp _ c); [done|]. wstep.
  wstep. apply wp_on_rest. eapply wp_mono; [apply (pe_init_fds_law _ _ a Hr); set_solver|]. cbv beta. intros _ r1 Hr1.
  wstep. eapply (wp_create RSpace); [apply pe_create_space_law|exact Hr1| |].
  { intros r2 Hr2. cbn [Z.eqb]. wstep. eapply wp_release; [apply pe_kfree_law|exact Hr2|set_solver|]. intros r3 Hr3. wstep.
    exists r3. split; [done|]. replace ({[(RFds, a)]} ∪ O) with (({[(RFds, a)]} ∪ ({[(RProcess, a)]} ∪ O)) ∖ {[(RProcess, a)]} : gset res); [done|res]. }
  intros sp r2 Hsp Hspn Hr2. rewrite (proj2 (Z.eqb_neq _ _) Hsp). unfold allocate_ring0_stack. wstep. wstep.
  eapply (wp_create RStack); [apply pe_ring0_pages_law|exact Hr2| |].
  { intros r3 Hr3. cbn [Z.eqb]. wstep. wstep. eapply wp_release; [apply pe_free_space_law|exact Hr3|set_solver|]. intros r4 Hr4.
    wstep. eapply wp_release; [apply pe_kfree_law|exact Hr4|set_solver|]. intros r5 Hr5. wstep. exists r5. split; [done|].
    match type of Hr5 with pe_rep _ ?X => replace ({[(RFds, a)]} ∪ O) with X; [exact Hr5|res] end. }
  intros pg r3 Hpg Hpgn Hr3. rewrite (proj2 (Z.eqb_neq _ _) Hpg). wstep. unfold allocate_user_stack, allocate_user_stack_in. wstep. wstep.
  eapply wp_keeps; [apply pe_map_stack_law|exact Hr3|]. intros ok r4 Hr4. wstep.
  destruct (Z.eqb_spec (if ok then u64 (u64 (USER_STACK_AREA_START + u64 (next_pid (glob k) * USER_STACK_SIZE)) + 16384) else 0) 0) as [Est|Hst].
  { unfold free_ring0_stack. rewrite (proj2 (Z.eqb_neq _ _) Hpg). wstep. eapply wp_release; [apply pe_free_ring0_law|exact Hr4|set_solver|]. intros r5 Hr5.
    wstep. eapply wp_release; [apply pe_free_space_law|exact Hr5|set_solver|]. intros r6 Hr6.
    wstep. eapply wp_release; [apply pe_kfree_law|exact Hr6|set_solver|]. intros r7 Hr7. wstep. exists r7. split; [done|].
    match type of Hr7 with pe_rep _ ?X => replace ({[(RFds, a)]} ∪ O) with X; [exact Hr7|res] end. }
  set (st := if ok then _ else _) in *. wstep. wstep. eapply wp_keeps; [apply pe_map_stack_law|exact Hr4|]. intros sig r5 Hr5. wstep.
  wstep. eapply (wp_create RFpu); [apply pe_alloc_fpu_law|exact Hr5| |].
  { intros r6 Hr6. cbn [Z.eqb]. unfold free_ring0_stack. rewrite (proj2 (Z.eqb_neq _ _) Hpg). wstep. eapply wp_release; [apply pe_free_ring0_law|exact Hr6|set_solver|]. intros r7 Hr7.
    wstep. eapply wp_release; [apply pe_free_space_law|exact Hr7|set_solver|]. intros r8 Hr8.
    wstep. eapply wp_release; [apply pe_kfree_law|exact Hr8|set_solver|]. intros r9 Hr9. wstep. exists r9. split; [done|].
    match type of Hr9 with pe_rep _ ?X => replace ({[(RFds, a)]} ∪ O) with X; [exact Hr9|res] end. }
  intros raw r6 Hraw Hrawn Hr6. rewrite (proj2 (Z.eqb_neq _ _) Hraw).
  wstep. eapply wp_keeps; [apply pe_store_law|exact Hr6|]. intros _ r7 Hr7. wstep. eapply wp_keeps; [apply pe_store_law|exact Hr7|]. intros _ r8 Hr8.
  wstep. eapply wp_keeps; [apply pe_store_law|exact Hr8|]. intros _ r9 Hr9. wstep. wstep. wstep. exists r9. split; [done|].
  split_and!; [|by split|done|cbn; set_solver|cbn; set_solver|cbn; set_solver].
  unfold own. cbn [img page_table ring0_stack_pages fpu_raw].
  match type of Hr9 with pe_rep _ ?X => replace ({[(RProcess, a); (RFds, a); (RSpace, sp); (RStack, pg); (RFpu, raw)]} ∪ O) with X; [exact Hr9|res] end.
Qed.
(** The ring with [a] at its end: the pointer of the last process [b] and that of [a] are set. *)
Definition linked k (b a : Z) (pb o : process) : kernel :=
  set_procs (<[a := set_next (process_list k) o]> (<[b := set_next a pb]> (procs k))) k.

Lemma link_last_outcome k l a o : ring k l -> (a ∉ l) ->
  exists l0 b pb, l = l0 ++ [b] /\ procs k !! b = Some pb /\ link_last a o k = Some (tt, linked k b a pb o).
Proof.
  intros Hr Ha. destruct (ring_idle _ _ Hr) as [Hi0 _]. pose proof (ring_list _ _ Hr) as Epl. destruct (rg_head _ _ Hr) as [tl E].
  destruct (exists_last (l := l)) as (l0 & b & El); [by rewrite E|]. destruct (ring_get _ _ b Hr) as [pb Hpb]; [rewrite El; set_solver|].
  exists l0, b, pb. split_and!; [done|done|]. unfold link_last, gets, mbind, M_bind. rewrite (proj2 (Z.eqb_neq (process_list k) 0)) by congruence.
  assert (last_before (size (procs k)) (process_list k) (process_list k) k = Some (b, k)) as ->.
  { apply last_before_outcome with l0; rewrite <- El.
    - apply (rg_seg _ _ Hr).
    - apply (rg_nz _ _ Hr).
    - pose proof (rg_nodup _ _ Hr) as Hnd. rewrite E in Hnd |- *. rewrite Epl. by apply NoDup_cons in Hnd as [? _].
    - by rewrite (ring_size _ _ Hr). }
  unfold setp, modify. rewrite Hpb. done.
Qed.

Lemma lookup_linked k b a pb o x q : a <> b -> procs (linked k b a pb o) !! x = Some q ->
  (x = a /\ q = set_next (process_list k) o) \/ (x <> a /\ x = b /\ q = set_next a pb) \/ (x <> a /\ x <> b /\ procs k !! x = Some q).
Proof.
  intros Hab. unfold linked. cbn [procs set_procs]. destruct (decide (x = a)) as [->|]; [rewrite lookup_insert_eq; naive_solver|rewrite lookup_insert_ne by done].
  destruct (decide (x = b)) as [->|]; [rewrite lookup_insert_eq; naive_solver|rewrite lookup_insert_ne by done; auto].
Qed.

Definition count_up (g : globals) : globals := set_counts (next_pid g) (u32 (process_count g + 1)) g.
Definition created k b a pb o (r : R) : kernel := let k1 := linked (with_rest k r) b a pb o in set_glob (count_up (glob k1)) k1.

Lemma created_ring k l0 b a pb o r : ring k (l0 ++ [b]) -> (a ∉ l0 ++ [b]) -> a <> 0 -> procs k !! b = Some pb -> ring (created k b a pb o r) ((l0 ++ [b]) ++ [a]).
Proof.
  intros Hr Ha Ha0 Hpb. assert (a <> b) as Hab by (intros ->; apply Ha; set_solver). pose proof (rg_nodup _ _ Hr) as Hnd. split.
  - pose proof (rg_seg _ _ Hr) as Hs.
    assert (links (created k b a pb o r) = <[a := process_list k]> (<[b := a]> (links k))) as ->.
    { unfold links, created, linked. cbn [procs set_glob set_procs with_rest set_rest process_list]. by rewrite !fmap_insert. }
    apply lseg_app. exists a. split.
    + apply lseg_insert; [done|]. apply NoDup_app in Hnd as (_ & Hd & _). apply lseg_redirect with (process_list k); [|done]. intros Hx. by apply (Hd _ Hx), list_elem_of_here.
    + split; [done|]. exists (process_list k). by rewrite lookup_insert_eq.
  - apply NoDup_app. split_and!; [done| |apply NoDup_singleton]. intros x Hx ->%list_elem_of_singleton. done.
  - destruct (rg_head _ _ Hr) as [tl E]. rewrite E. by exists (tl ++ [a]).
  - intros [Hx|Hx%list_elem_of_singleton]%elem_of_app; [by apply (rg_nz _ _ Hr)|done].
  - intros x. rewrite elem_of_app, <- (rg_dom _ _ Hr), list_elem_of_singleton. unfold created, linked. cbn [procs set_glob set_procs with_rest set_rest].
    destruct (decide (x = a)) as [->|]; [rewrite lookup_insert_eq; split; eauto|rewrite lookup_insert_ne by done].
    destruct (decide (x = b)) as [->|]; [rewrite lookup_insert_eq, Hpb; split; eauto|rewrite lookup_insert_ne by done; naive_solver].
Qed.

Lemma created_table k l a b pb o r O c name entry : table 0 k l -> owned 0 O k l -> (a ∉ l) -> a <> 0 -> procs k !! b = Some pb -> zlen l < MAX_PROCESSES + 1 ->
  next_pid (glob k) + 1 < 2 ^ 32 -> pe_rep r (own a o ∪ O) -> newborn k c name entry o -> ((RSpace, page_table (img o)) ∉ O) ->
  ((RStack, ring0_stack_pages (img o)) ∉ O) -> ((RFpu, fpu_raw (img o)) ∉ O) -> table 0 (created k b a pb o r) (l ++ [a]).
Proof.
  intros Ht HO Ha Ha0 Hpb Hlen Hpid Hr Hnb HS HK HF. destruct Hnb as [N1 N2 (N3 & _) N4 (N5 & N5' & _) N6 (N7 & N8 & N9 & _)].
  destruct Ht as [H1 H2 Hz Hi Hc H3 H4 H5 H6 H7 H8 H9 Hsg _].
  assert (b ∈ l) as Hb by (apply H1; by rewrite Hpb). assert (a <> b) as Hab by (intros ->; done).
  assert (a <> idle_process k) as Hai by (intros ->; done).
  assert (forall x q, procs (created k b a pb o r) !! x = Some q -> (x = a /\ q = set_next (process_list k) o) \/
    (x <> a /\ exists q0, procs k !! x = Some q0 /\ pid q = pid q0 /\ pstate q = pstate q0 /\ mbox q = mbox q0 /\ img q = img q0 /\ sg q = sg q0)) as Hq.
  { intros x q Hx. apply (lookup_linked (with_rest k r)) in Hx as [[-> ->]|[(Hx & -> & ->)|(Hx & _ & Hq)]]; [by left|right|right|done]; (split; [done|]); [by exists pb|by exists q]. }
  assert (forall x q, procs k !! x = Some q -> x <> a) as Hne by (intros x q Hx ->; apply Ha, H1; by exists q).
  assert (next_pid (glob (created k b a pb o r)) = next_pid (glob k) + 1) as Enp by (cbn; by rewrite u32_small by (unfold is_u32; lia)).
  split.
  - intros x. rewrite elem_of_app, <- H1, list_elem_of_singleton. unfold created, linked. cbn [procs set_glob set_procs with_rest set_rest].
    destruct (decide (x = a)) as [->|]; [rewrite lookup_insert_eq; split; eauto|rewrite lookup_insert_ne by done].
    destruct (decide (x = b)) as [->|]; [rewrite lookup_insert_eq, Hpb; split; eauto|rewrite lookup_insert_ne by done; naive_solver].
  - apply NoDup_app. split_and!; [done| |apply NoDup_singleton]. intros x Hx ->%list_elem_of_singleton. done.
  - intros [Hx|Hx%list_elem_of_singleton]%elem_of_app; done.
  - apply elem_of_app. by left.
  - apply elem_of_app. by left.
  - unfold zlen in *. rewrite length_app. cbn [length]. destruct H3 as [H3 _]. pose proof (Zle_0_nat (length l)). unfold MAX_PROCESSES in *.
    cbn [glob created set_glob count_up set_counts process_count linked set_procs with_rest set_rest bump]. rewrite u32_small by (unfold is_u32; lia). lia.
  - intros x q Hx. rewrite Enp. change (idle_process (created k b a pb o r)) with (idle_process k). apply Hq in Hx as [[-> ->]|(Hxa & q0 & Hx & -> & _)].
    + rewrite (proj2 (Z.eqb_neq _ _) Hai). cbn. rewrite N1. lia.
    + specialize (H4 x q0 Hx). destruct (x =? idle_process k); [done|lia].
  - assert (forall x q, procs k !! x = Some q -> pid q <> next_pid (glob k)) as Hfr.
    { intros x q Hx. specialize (H4 x q Hx). destruct (x =? idle_process k); lia. }
    intros x y q s Hx Hy E. apply Hq in Hx as [[-> ->]|(Hxa & q0 & Hx & Eq & _)]; apply Hq in Hy as [[-> ->]|(Hya & s0 & Hy & Es & _)]; [done| | |].
    + cbn in E. rewrite N1 in E. exfalso. apply (Hfr y s0 Hy). congruence.
    + cbn in E. rewrite N1 in E. exfalso. apply (Hfr x q0 Hx). congruence.
    + apply (H5 x y q0 s0); [done|done|congruence].
  - rewrite Enp. lia.
  - intros q Hx. change (idle_process (created k b a pb o r)) with (idle_process k) in Hx. apply Hq in Hx as [[Ex ->]|(_ & q0 & Hx & _ & -> & _)]; [congruence|by apply H7].
  - intros x q Hx Hst. apply Hq in Hx as [[-> ->]|(_ & q0 & Hx & _ & E & _)]; [cbn in Hst; by rewrite N3 in Hst|]. change (current_process (created k b a pb o r)) with (current_process k).
    rewrite E in Hst. by apply (H8 x q0).
  - intros x q Hx. apply Hq in Hx as [[-> ->]|(_ & q0 & Hx & _ & _ & -> & _)]; [cbn; rewrite N6; apply no_mailbox_ok|by apply (H9 x q0)].
  - intros x q Hx. apply Hq in Hx as [[-> ->]|(_ & q0 & Hx & _ & _ & _ & _ & ->)]; [cbn; unfold sig_ok; by rewrite N5, N5'|by apply (Hsg x q0)].
  - exists (own a o ∪ O). destruct HO as [O1 O2 O3 O4].
    assert (forall x q, procs k !! x = Some q -> x <> idle_process k -> own x q ⊆ O /\ page_table (img q) <> 0 /\ ring0_stack_pages (img q) <> 0 /\ fpu_raw (img q) <> 0) as Hold.
    { intros x q Hx Hxi. apply O3; [done| |done]. intros ->. apply Hz, H1. by exists q. }
    assert (forall x q, procs k !! x = Some q -> x <> idle_process k -> own x q ## own a o) as Hdisj.
    { intros x q Hx Hxi. destruct (Hold x q Hx Hxi) as [Hs _]. pose proof (Hne x q Hx) as Hxa. assert ((RProcess, a) ∉ O) as HP by (by rewrite O2). unfold own in *. intros y Hy Hy'.
      assert (y ∈ O) as HyO by (by apply Hs). set_solver. }
    split.
    + done.
    + intros x. rewrite elem_of_union, O2, elem_of_app, list_elem_of_singleton. unfold own. set_solver.
    + intros x q Hxi _ Hx. change (idle_process (created k b a pb o r)) with (idle_process k) in Hxi. apply Hq in Hx as [[-> ->]|(Hxa & q0 & Hx & _ & _ & _ & Eimg & _)].
      * split; [|by cbn]. change (own a (set_next (process_list k) o)) with (own a o). apply union_subseteq_l.
      * destruct (Hold x q0 Hx Hxi) as [Hs Hn]. rewrite Eimg. split; [|done]. replace (own x q) with (own x q0) by (unfold own; by rewrite Eimg). by apply union_subseteq_r'.
    + intros x y q s Hxi Hyi Hx Hy Hxy. change (idle_process (created k b a pb o r)) with (idle_process k) in Hxi, Hyi.
      apply Hq in Hx as [[-> ->]|(Hxa & q0 & Hx & _ & _ & _ & Eq & _)]; apply Hq in Hy as [[-> ->]|(Hya & s0 & Hy & _ & _ & _ & Es & _)]; [done| | |].
      * replace (own y s) with (own y s0) by (unfold own; by rewrite Es). replace (own a (set_next (process_list k) o)) with (own a o) by done. symmetry. by apply Hdisj.
      * replace (own x q) with (own x q0) by (unfold own; by rewrite Eq). replace (own a (set_next (process_list k) o)) with (own a o) by done. by apply Hdisj.
      * replace (own y s) with (own y s0) by (unfold own; by rewrite Es). replace (own x q) with (own x q0) by (unfold own; by rewrite Eq). by apply O4.
Qed.

(** * The whole of [process_create] *)

Lemma kinv_bump k l r O : kinv k l -> next_pid (glob k) + 1 < 2 ^ 32 -> owned 0 O (set_rest r k) l -> kinv (with_rest k r) l.
Proof.
  intros [Hr [H1 H2 Hz Hi Hc H3 H4 H5 H6 H7 H8 H9 Hsg _]] Hp HO. split; [by eapply ring_same|].
  assert (next_pid (glob (with_rest k r)) = next_pid (glob k) + 1) as E by (cbn; by rewrite u32_small by (unfold is_u32; lia)).
  split; try done.
  - intros a p Ha. rewrite E. specialize (H4 a p Ha). cbn [idle_process with_rest set_rest set_glob]. destruct (a =? idle_process k); [done|lia].
  - rewrite E. lia.
  - exists O. by destruct HO.
Qed.

Inductive creation k (l : list Z) (name : list Z) (entry : Z) (c : process) : Z -> kernel (R := R) -> list Z -> Prop :=
| creation_none r : kinv (set_rest r k) l -> creation k l name entry c 0 (set_rest r k) l
| creation_failed r : kinv (with_rest k r) l -> creation k l name entry c 0 (with_rest k r) l
| creation_done l0 b pb a o r : l = l0 ++ [b] -> procs k !! b = Some pb -> a <> 0 -> (a ∉ l) -> newborn k c name entry o ->
    process_count (glob k) < MAX_PROCESSES -> kinv (created k b a pb o r) (l ++ [a]) -> creation k l name entry c a (created k b a pb o r) (l ++ [a]).

Lemma create_outcome k l name entry c : kinv k l -> procs k !! current_process k = Some c -> next_pid (glob k) + 1 < 2 ^ 32 ->
  wp (process_create name entry) (fun a k' => exists l', creation k l name entry c a k' l') k.
Proof.
  intros Hk Hc Hp. pose proof Hk as [Hr Ht]. destruct (tb_res _ _ _ Ht) as [O HO]. pose proof (ow_rep _ _ _ _ HO) as Hrep.
  assert (current_process k <> 0) as Hc0 by (intros E; apply (tb_nz _ _ _ Ht); rewrite <- E; by apply (tb_current _ _ _ Ht)).
  unfold process_create. wstep. wstep. destruct (Z.leb_spec MAX_PROCESSES (process_count (glob k))) as [Hmax|Hmax].
  { wstep. exists l. replace k with (set_rest (rest k) k) at 2 by (by destruct k). constructor. by destruct k. }
  wstep. apply wp_on_rest. eapply wp_mono; [apply (pe_kmalloc_law _ O Hrep)|]. cbv beta. intros [[a junk]|] r1 H1.
  2:{ wstep. exists l. constructor. apply (kinv_frame k); try done. exists O. by apply owned_keeps. }
  destruct H1 as (Ha0 & HaO & Hr1). assert (a ∉ l) as Ha by (by rewrite <- (ow_procs _ _ _ _ HO)).
  assert (forall r, pe_rep r ({[(RFds, a)]} ∪ O) -> kinv (with_rest k r) l) as Hfail.
  { intros r Hr'. apply (kinv_bump k l r ({[(RFds, a)]} ∪ O) Hk Hp). apply (owned_frame 0 O _ k); [done|done|done|done|set_solver|].
    intros b p Hb Hb0 Hpb. destruct (ow_own _ _ _ _ HO b p Hb Hb0 Hpb) as [Hs _]. set_solver. }
  wstep. eapply wp_mono; [apply (build_outcome (set_rest r1 k) O a junk name entry c Hr1 HaO Hc0 Hc)|]. cbv beta.
  intros [o|] k1 (r & -> & H1).
  2:{ wstep. exists l. change (with_rest (set_rest r1 k) r) with (with_rest k r). constructor. by apply Hfail. }
  destruct H1 as (Hr2 & Hnb & _ & HS & HK & HF). change (with_rest (set_rest r1 k) r) with (with_rest k r).
  assert (ring (with_rest k r) l) as Hrw by (by eapply ring_same).
  destruct (link_last_outcome (with_rest k r) l a o Hrw Ha) as (l0 & b & pb & El & Hpb & E). wstep. eapply wp_Some; [exact E|]. wstep. unfold upd_glob. wstep. wstep.
  change (set_glob _ _) with (created k b a pb o r). exists (l ++ [a]). apply creation_done with l0; [done|done|done|done| |done|].
  - by destruct Hnb.
  - split.
    + rewrite El. apply created_ring; by rewrite <- ?El.
    + apply (created_table k l a b pb o r O c name entry); try done; [|by destruct Hnb].
      destruct (tb_count _ _ _ Ht) as [E1 _]. unfold MAX_PROCESSES in *. lia.
Qed.
End create.
