(* ===== verification/ProcessSteps.v ===== *)
(** Steps that keep every process in its place: an order on kernel states that the operations of
    process.c follow between two switches, with a rule for each kind of elementary step. *)

From S2P Require Import Prelude Interfaces Mailbox ProcessEnv Process ProcessRing ProcessSched ProcessInv ProcessLife ProcessCreate.

Section steps.
Context {R : Type} `{!ProcessEnv R}.
Implicit Types (k : kernel (R := R)).

(** What happens to processes that are not concerned: nothing but a new place in the list, or
    anything short of dying and coming back to life. *)
Definition relinked (p p' : process) : Prop := exists n, p' = set_next n p.
Definition stirred (p p' : process) : Prop := pstate p = PROCESS_TERMINATED -> pstate p' = PROCESS_TERMINATED /\ exit_code p' = exit_code p.

#[export] Instance relinked_pre : PreOrder relinked.
Proof. split; [intros p; exists (next p); by destruct p|]. intros p q r [n ->] [m ->]. by exists m. Qed.
#[export] Instance stirred_pre : PreOrder stirred.
Proof. split; [done|]. intros p q r H1 H2 Hp. destruct (H1 Hp) as [Hq E1]. destruct (H2 Hq) as [Hr E2]. split; [done|congruence]. Qed.
Lemma relinked_stirred p p' : relinked p p' -> stirred p p'.
Proof. intros [n ->] H. done. Qed.

(** What a process keeps: only [a] may end; [wm], the window server, is sent messages. *)
Record lives (E : process -> process -> Prop) (a wm x : Z) (p p' : process) : Prop := {
  lv_pid : pid p' = pid p;
  lv_ppid : ppid p' = ppid p;
  lv_alive : x <> a -> pstate p' = PROCESS_TERMINATED -> pstate p = PROCESS_TERMINATED;
  lv_other : x <> a -> (wm = 0 \/ pid p <> wm) -> E p p';
}.

(** [k'] comes after [k]: the processes of [k] are still there, some may have been appended, at most [n] pids were used. *)
Record evolves (E : process -> process -> Prop) (a n : Z) k (l : list Z) k' (l' : list Z) : Prop := {
  ev_inv : kinv k' l';
  ev_list : exists m, l' = l ++ m;
  ev_pids : next_pid (glob k) <= next_pid (glob k') <= next_pid (glob k) + n;
  ev_idle : idle_process k' = idle_process k;
  ev_current : current_process k' = current_process k;
  ev_wm : g_wm_pid (glob k') = g_wm_pid (glob k) \/ g_wm_pid (glob k') = 0;
  ev_procs : forall x p, procs k !! x = Some p -> exists p', procs k' !! x = Some p' /\ lives E a (g_wm_pid (glob k)) x p p';
}.

Section order.
Context (E : process -> process -> Prop) `{!PreOrder E}.

Lemma lives_refl a wm x p : lives E a wm x p p.
Proof. by split. Qed.

Lemma evolves_refl a k l : kinv k l -> evolves E a 0 k l k l.
Proof.
  intros H. split; [done|exists []; by rewrite app_nil_r|lia|done|done|by left|]. intros x p Hp. exists p. split; [done|apply lives_refl].
Qed.

Lemma evolves_trans a n m k1 l1 k2 l2 k3 l3 : evolves E a n k1 l1 k2 l2 -> evolves E a m k2 l2 k3 l3 -> evolves E a (n + m) k1 l1 k3 l3.
Proof.
  intros [A1 [m1 A2] A3 A4 A5 A6 A7] [B1 [m2 B2] B3 B4 B5 B6 B7].
  split; [done|exists (m1 ++ m2); by rewrite app_assoc, <- A2|lia|congruence|congruence|destruct A6, B6; [left|right..]; congruence|].
  intros x p Hp. destruct (A7 x p Hp) as (p2 & Hp2 & [C1 C2 C3 C4]). destruct (B7 x p2 Hp2) as (p3 & Hp3 & [D1 D2 D3 D4]). exists p3. split; [done|].
  split; [congruence|congruence|auto|]. intros Hx Hw. transitivity p2; [by apply C4|]. apply D4; [done|].
  destruct A6 as [->| ->]; [|by left]. by rewrite C1.
Qed.

(** A step, then the rest. *)
Lemma wp_then {A} a n m k l k1 l1 (c : M kernel A) (P : A -> kernel -> list Z -> Prop) : evolves E a n k l k1 l1 ->
  wp c (fun x k' => exists l', evolves E a m k1 l1 k' l' /\ P x k' l') k1 -> wp c (fun x k' => exists l', evolves E a (n + m) k l k' l' /\ P x k' l') k1.
Proof. intros H Hw. eapply wp_mono; [exact Hw|]. cbv beta. intros x k' (l' & H' & HP). exists l'. split; [by eapply evolves_trans|done]. Qed.
End order.

Lemma evolves_weaken (E E' : process -> process -> Prop) a b n m k l k' l' : evolves E a n k l k' l' -> (forall p p', E p p' -> E' p p') -> n <= m ->
  (a = b \/ a = 0) -> kinv k l -> evolves E' b m k l k' l'.
Proof.
  intros [A1 A2 A3 A4 A5 A6 A7] HE Hn Ha Hk. split; [done|done|lia|done|done|done|]. intros x p Hp. destruct (A7 x p Hp) as (p' & Hp' & [C1 C2 C3 C4]). exists p'. split; [done|].
  assert (x <> 0) as Hx by (intros ->; apply (tb_nz _ _ _ (ki_table _ _ Hk)), (tb_dom _ _ _ (ki_table _ _ Hk)); by exists p).
  assert (x <> b -> x <> a) as Hxa by (intros ?; by destruct Ha as [->| ->]).
  split; auto.
Qed.

(** * Elementary steps *)

Section elementary.
Context (E : process -> process -> Prop) `{!PreOrder E}.

Lemma evolves_set a k l x p q : kinv k l -> procs k !! x = Some p -> next q = next p -> alike p q -> (mbox q = mbox p \/ mailbox_ok x (mbox q)) ->
  (x = idle_process k -> pstate q <> PROCESS_TERMINATED) -> (pstate q = PROCESS_RUNNING -> x = current_process k) -> lives E a (g_wm_pid (glob k)) x p q ->
  evolves E a 0 k l (set_procs (<[x := q]> (procs k)) k) l.
Proof.
  intros Hk Hp Hn Ha Hm Hi Hr Hl. split; [by apply kinv_set with p|exists []; by rewrite app_nil_r|cbn; lia|done|done|by left|].
  intros y r Hy. cbn. destruct (decide (y = x)) as [->|Hne].
  - rewrite lookup_insert_eq. exists q. split; [done|]. rewrite Hp in Hy. by injection Hy as <-.
  - rewrite lookup_insert_ne by done. exists r. split; [done|by apply lives_refl].
Qed.

(** A step with everything but the processes. *)
Lemma evolves_frame a k l k' : kinv k l -> procs k' = procs k -> process_list k' = process_list k -> current_process k' = current_process k ->
  idle_process k' = idle_process k -> process_count (glob k') = process_count (glob k) -> next_pid (glob k') = next_pid (glob k) ->
  (g_wm_pid (glob k') = g_wm_pid (glob k) \/ g_wm_pid (glob k') = 0) -> rest k' = rest k -> evolves E a 0 k l k' l.
Proof.
  intros Hk E1 E2 E3 E4 E5 E6 E7 E8. split; [|exists []; by rewrite app_nil_r|lia|done|done|done|].
  - apply (kinv_frame k); try done. destruct (tb_res _ _ _ (ki_table _ _ Hk)) as [O [O1 O2 O3 O4]]. exists O. split; rewrite ?E1, ?E4, ?E8; done.
  - intros x p Hp. rewrite E1. exists p. split; [done|by apply lives_refl].
Qed.

Lemma evolves_rest a k l r : kinv (set_rest r k) l -> evolves E a 0 k l (set_rest r k) l.
Proof.
  intros Hr. split; [done|exists []; by rewrite app_nil_r|cbn; lia|done|done|by left|]. intros y p Hp. exists p. split; [done|by apply lives_refl].
Qed.

Lemma wp_evolves_rest {A} (m : M R A) a k l (Q : A -> kernel -> Prop) : kinv k l -> keeps_res pe_rep m ->
  (forall x r, evolves E a 0 k l (set_rest r k) l -> Q x (set_rest r k)) -> wp (on_rest m) Q k.
Proof. intros Hk Hm HQ. apply (wp_rest_keeps _ _ _ _ Hk Hm). intros x r Hr. by apply HQ, evolves_rest. Qed.

Lemma ev_in a n k l k' l' x : evolves E a n k l k' l' -> x ∈ l -> x ∈ l'.
Proof. intros H Hx. destruct (ev_list _ _ _ _ _ _ _ H) as [m ->]. set_solver. Qed.
End elementary.

(** Loading through a pointer into the list. *)
Lemma wp_get_in x k l (Q : process -> kernel -> Prop) : kinv k l -> x ∈ l -> (forall p, procs k !! x = Some p -> Q p k) -> wp (getp x) Q k.
Proof. intros Hk Hx HQ. apply (tb_dom _ _ _ (ki_table _ _ Hk)) in Hx as [p Hp]. apply (wp_getp _ p); auto. Qed.

(** * Notifying and forgetting *)

(** What is left of the registrations once [n] is gone. *)
Definition forget (n : Z) (g : globals) : globals :=
  mk_globals (next_pid g) (process_count g) (if n =? foreground_pid g then 0 else foreground_pid g) (if n =? g_wm_pid g then 0 else g_wm_pid g)
    (if n =? g_netd_pid g then 0 else g_netd_pid g) (if n =? g_soundd_pid g then 0 else g_soundd_pid g)
    (shell_is_respawn g) (has_spawner g) (ctrl_c_pending g) (fpu_init_template g) (fallback_stack_top g).

Lemma post_evolves k l sender data : kinv k l -> zlen data <= MAX_IPC_MSG_PAYLOAD -> g_wm_pid (glob k) <> 0 ->
  wp (mailbox_post (g_wm_pid (glob k)) sender data) (fun _ k' => evolves relinked 0 0 k l k' l /\ glob k' = glob k) k.
Proof.
  intros Hk Hd Hwm. unfold mailbox_post. rewrite (proj2 (Z.ltb_ge _ _)) by lia. wstep.
  destruct (find_by_pid_outcome k l (g_wm_pid (glob k)) Hk) as (d & E & Hcase). eapply wp_Some; [exact E|].
  destruct Hcase as [(Hd0 & Hdl & o & Ho & Hpid)|[-> _]]; [|rewrite Z.eqb_refl; wstep; split; [by apply evolves_refl; [apply _|]|done]].
  rewrite (proj2 (Z.eqb_neq _ _) Hd0). wstep. apply (wp_getp _ o); [done|].
  destruct (tb_mbox _ _ _ (ki_table _ _ Hk) d o Ho) as [[q Hq] Hw]. pose proof (mr_room _ _ Hq) as Hroom.
  assert (forall q', pid q' = pid o -> ppid q' = ppid o -> (pstate q' = PROCESS_TERMINATED -> pstate o = PROCESS_TERMINATED) -> lives relinked 0 (g_wm_pid (glob k)) d o q') as Hl.
  { intros q' E1 E2 E3. split; [done|done|auto|]. intros _ [?|?]; congruence. }
  destruct (decide (zlen q = MAX_IPC_MAILBOX_SLOTS)) as [Hfull|Hfull].
  - wstep. eapply wp_lift; [by apply (enqueue_full _ q)|]. cbv beta iota. wstep. split; [by apply evolves_refl; [apply _|]|done].
  - destruct (enqueue_room (mbox o) q sender data (zlen data)) as (mb & Ee & Hnw & Hmb); [done|lia|pose proof (zlen_nonneg data); lia|lia|].
    wstep. eapply wp_lift; [exact Ee|]. cbv beta iota. wstep. apply (wp_setp _ o); [done|].
    assert (mailbox_ok d mb) as Hok by (split; [by eexists|by left]).
    assert (evolves relinked 0 0 k l (set_procs (<[d := set_mbox mb o]> (procs k)) k) l) as Hev.
    { apply evolves_set with o; [apply _|done|done|done|by split|by right|intros ->; by apply (tb_alive _ _ _ (ki_table _ _ Hk) o)| |by apply Hl].
      cbn. intros Hrun. by apply (tb_running _ _ _ (ki_table _ _ Hk) d o). }
    destruct Hw as [->| ->]; [wstep; wstep; by split|]. wstep. apply (wp_setp _ (set_mbox mb o)); [cbn; by rewrite lookup_insert_eq|]. wstep.
    split; [|done]. cbn [procs set_procs]. rewrite insert_insert_eq.
    change (evolves relinked 0 0 k l (set_procs (<[d := set_state PROCESS_READY (set_mbox mb o)]> (procs k)) k) l).
    apply evolves_set with o; [apply _|done|done|done|by split|by right|done|done|by apply Hl].
Qed.

(** Steps that use no pid, one after the other. *)
Lemma evolves_seq E `{!PreOrder E} a n k1 l1 k2 l2 k3 l3 : evolves E a n k1 l1 k2 l2 -> evolves E a 0 k2 l2 k3 l3 -> evolves E a n k1 l1 k3 l3.
Proof. intros H1 H2. replace n with (n + 0) by lia. by eapply evolves_trans. Qed.

Lemma evolves_glob E `{!PreOrder E} a k l g : kinv k l -> process_count g = process_count (glob k) -> next_pid g = next_pid (glob k) ->
  (g_wm_pid g = g_wm_pid (glob k) \/ g_wm_pid g = 0) -> evolves E a 0 k l (set_glob g k) l.
Proof. intros Hk H1 H2 H3. by apply evolves_frame. Qed.

Lemma unregister_outcome k l n : kinv k l -> wp (unregister n) (fun _ k' => evolves relinked 0 0 k l k' l /\ glob k' = forget n (glob k) /\
  forall x p, procs k !! x = Some p -> pid p = n -> exists p', procs k' !! x = Some p' /\ relinked p p') k.
Proof.
  intros Hk. unfold unregister, upd_glob. wstep. apply (wp_evolves_rest relinked _ 0 _ l); [done|apply pe_driver_release_law|]. intros _ r1 H1.
  wstep. wstep. set (k2 := set_glob _ _).
  assert (evolves relinked 0 0 k l k2 l) as H2.
  { eapply evolves_seq; [apply _|exact H1|]. apply evolves_glob; [apply _|by apply (ev_inv _ _ _ _ _ _ _ H1)| | |]; cbn; destruct (n =? _); auto. }
  assert (glob k2 = if n =? foreground_pid (glob k) then set_fg 0 (glob k) else glob k) as G2 by done. assert (procs k2 = procs k) as P2 by done. clearbody k2. wstep. wstep. wstep.
  set (Q3 := fun (_ : unit) k3 => evolves relinked 0 0 k l k3 l /\ glob k3 = mk_globals (next_pid (glob k)) (process_count (glob k))
    (if n =? foreground_pid (glob k) then 0 else foreground_pid (glob k)) (if n =? g_wm_pid (glob k) then 0 else g_wm_pid (glob k)) (g_netd_pid (glob k))
    (g_soundd_pid (glob k)) (shell_is_respawn (glob k)) (has_spawner (glob k)) (ctrl_c_pending (glob k)) (fpu_init_template (glob k)) (fallback_stack_top (glob k)) /\
    forall x p, procs k !! x = Some p -> pid p = n -> exists p', procs k3 !! x = Some p' /\ relinked p p').
  assert (g_wm_pid (glob k2) = g_wm_pid (glob k)) as Ew by (rewrite G2; by destruct (n =? _)).
  eapply wp_mono with (P := Q3).
  { subst Q3. cbv beta. rewrite Ew. destruct (n =? g_wm_pid (glob k)) eqn:Enw.
    - unfold upd_glob. wstep. wstep. assert (evolves relinked 0 0 k l (set_glob (set_daemons 0 (g_netd_pid (glob k2)) (g_soundd_pid (glob k2)) (glob k2)) k2) l) as H3.
      { eapply evolves_seq; [apply _|exact H2|]. apply evolves_glob; [apply _|by apply (ev_inv _ _ _ _ _ _ _ H2)|done|done|by right]. }
      apply (wp_evolves_rest relinked _ 0 _ l); [by apply (ev_inv _ _ _ _ _ _ _ H3)|apply pe_redraw_law|]. intros _ r4 H4.
      split_and!; [by eapply evolves_seq; [apply _|exact H3|]|cbn; rewrite G2; by destruct (n =? _)|]. intros x p Hp _. exists p. split; [cbn; by rewrite P2|done].
    - destruct (Z.eqb_spec (g_wm_pid (glob k)) 0) as [E0|E0]; cbn [negb].
      + wstep. split_and!; [done| |intros x p Hp _; exists p; by rewrite P2]. rewrite G2. destruct (glob k). cbn in *. by destruct (n =? _).
      + rewrite <- Ew. wstep. eapply wp_mono; [apply (post_evolves k2 l); [by apply (ev_inv _ _ _ _ _ _ _ H2)|done|by rewrite Ew]|]. cbv beta. intros _ k3 [H3 G3].
        wstep. split_and!; [by eapply evolves_seq; [apply _|exact H2|]| |].
        * rewrite G3, G2. destruct (glob k). cbn in *. by destruct (n =? _).
        * intros x p Hp Hpn. rewrite <- P2 in Hp. destruct (ev_procs _ _ _ _ _ _ _ H3 x p Hp) as (p' & Hp' & Hl). exists p'. split; [done|].
          apply (lv_other _ _ _ _ _ _ Hl); [|right; rewrite Ew; apply Z.eqb_neq in Enw; congruence].
          intros ->. apply (tb_nz _ _ _ (ki_table _ _ (ev_inv _ _ _ _ _ _ _ H2))), (tb_dom _ _ _ (ki_table _ _ (ev_inv _ _ _ _ _ _ _ H2))). by eexists. }
  intros _ k3 (H3 & G3 & P3). clear Q3. wstep. wstep. set (k4 := set_glob _ k3).
  assert (evolves relinked 0 0 k l k4 l) as H4.
  { eapply evolves_seq; [apply _|exact H3|]. apply evolves_glob; [apply _|by apply (ev_inv _ _ _ _ _ _ _ H3)| | |]; cbn; destruct (n =? g_netd_pid (glob k3)); auto. }
  assert (glob k4 = if n =? g_netd_pid (glob k) then set_daemons (g_wm_pid (glob k3)) 0 (g_soundd_pid (glob k3)) (glob k3) else glob k3) as G4 by (subst k4; cbn; by rewrite G3).
  assert (procs k4 = procs k3) as P4 by done. clearbody k4. wstep. wstep. assert (g_soundd_pid (glob k4) = g_soundd_pid (glob k)) as Es by (rewrite G4, G3; by destruct (n =? g_netd_pid (glob k))). rewrite Es.
  destruct (n =? g_soundd_pid (glob k)) eqn:Ens.
  - wstep. wstep. set (k5 := set_glob _ k4). assert (evolves relinked 0 0 k l k5 l) as H5.
    { eapply evolves_seq; [apply _|exact H4|]. apply evolves_glob; [apply _|by apply (ev_inv _ _ _ _ _ _ _ H4)|done|done|by left]. }
    apply (wp_evolves_rest relinked _ 0 _ l); [by apply (ev_inv _ _ _ _ _ _ _ H5)|apply pe_sound_clear_law|]. intros _ r6 H6.
    split_and!; [by eapply evolves_seq; [apply _|exact H5|]| |cbn; by rewrite P4]. subst k5. cbn. unfold forget. rewrite Ens, G4, G3. by destruct (n =? g_netd_pid (glob k)).
  - wstep. split_and!; [done| |by rewrite P4]. unfold forget. rewrite Ens, G4, G3. by destruct (n =? g_netd_pid (glob k)).
Qed.
End steps.
