(* ===== verification/ProcessExit.v ===== *)
(** The end of a process: the shell that takes the place of a dead one, the parent that waits, who gets
    the processor. *)

From S2P Require Import Prelude Interfaces Mailbox ProcessEnv Process ProcessRing ProcessSched ProcessInv ProcessLife ProcessCreate ProcessSteps.

Section ending.
Context {R : Type} `{!ProcessEnv R}.
Implicit Types (k : kernel (R := R)).

Definition registered (g : globals) : Z * Z * Z * Z := (foreground_pid g, g_wm_pid g, g_netd_pid g, g_soundd_pid g).

(** * New processes among the others *)

Lemma created_evolves k l b pb a o r : kinv (created k b a pb o r) (l ++ [a]) -> procs k !! b = Some pb -> (a ∉ l) -> kinv k l -> next_pid (glob k) + 1 < 2 ^ 32 ->
  evolves relinked 0 1 k l (created k b a pb o r) (l ++ [a]).
Proof.
  intros Hk' Hb Ha Hk Hp. split; [done|by exists [a]| |done|done|by left|].
  - pose proof (tb_next _ _ _ (ki_table _ _ Hk)). cbn. rewrite u32_small by (unfold is_u32; lia). lia.
  - intros x p Hx. assert (x <> a) as Hxa. { intros ->. by apply Ha, (tb_dom _ _ _ (ki_table _ _ Hk)). }
    unfold created, linked. cbn [procs set_glob set_procs with_rest set_rest]. rewrite lookup_insert_ne by done.
    destruct (decide (x = b)) as [->|Hne]; [rewrite lookup_insert_eq|rewrite lookup_insert_ne by done].
    + rewrite Hb in Hx. injection Hx as <-. eexists. split; [done|]. split; [done|done|done|]. intros _ _. by eexists.
    + exists p. split; [done|by apply lives_refl; apply _].
Qed.

Lemma create_evolves k l name entry c : kinv k l -> procs k !! current_process k = Some c -> next_pid (glob k) + 1 < 2 ^ 32 ->
  wp (process_create name entry) (fun x k' => exists l', evolves relinked 0 1 k l k' l' /\ registered (glob k') = registered (glob k) /\
    ((x = 0 /\ l' = l) \/ (x <> 0 /\ (x ∉ l) /\ l' = l ++ [x] /\ exists o n, procs k' !! x = Some (set_next n o) /\ newborn k c name entry o))) k.
Proof.
  intros Hk Hc Hp. eapply wp_mono; [by apply (create_outcome k l name entry c)|]. cbv beta. intros x k' (l' & H). exists l'. destruct H as [r Hr|r Hr|l0 b pb a o r El Hb Ha0 Ha Hn Hcnt Hr].
  - split_and!; [|done|by left]. apply (evolves_weaken relinked relinked 0 0 0 1); [by apply evolves_rest; [apply _|]|done|lia|by left|done].
  - split_and!; [|done|by left]. split; [done|exists []; by rewrite app_nil_r| |done|done|by left|].
    + pose proof (tb_next _ _ _ (ki_table _ _ Hk)). cbn. rewrite u32_small by (unfold is_u32; lia). lia.
    + intros y p Hy. exists p. split; [done|by apply lives_refl; apply _].
  - split_and!; [by apply created_evolves|done|right]. split_and!; [done|done|done|]. exists o, (process_list k). split; [|done].
    unfold created, linked. cbn [procs set_glob set_procs with_rest set_rest process_list]. by rewrite lookup_insert_eq.
Qed.

(** A change to a process that is not among the old ones. *)
Lemma evolves_new E `{!PreOrder E} a n k l k1 l1 x p q : evolves E a n k l k1 l1 -> kinv k l -> (x ∉ l) -> procs k1 !! x = Some p -> next q = next p ->
  alike p q -> mbox q = mbox p -> x <> idle_process k1 -> pstate q <> PROCESS_RUNNING ->
  evolves E a n k l (set_procs (<[x := q]> (procs k1)) k1) l1.
Proof.
  intros [A1 A2 A3 A4 A5 A6 A7] Hk Hx Hp Hn Ha Hm Hi Hr. split; [|done|done|done|done|done|].
  - apply kinv_set with p; [done|done|done|done|by left|done|done].
  - intros y r Hy. cbn. rewrite lookup_insert_ne; [by apply A7|]. intros <-. apply Hx, (tb_dom _ _ _ (ki_table _ _ Hk)). by exists r.
Qed.

(** * The shell that follows *)

Lemma wp_load_rest {A} a k l (m : M R A) (Q : A -> kernel -> Prop) k0 l0 n : evolves relinked a n k0 l0 k l -> keeps_res pe_rep m ->
  (forall x r, evolves relinked a n k0 l0 (set_rest r k) l -> Q x (set_rest r k)) -> wp (on_rest m) Q k.
Proof.
  intros H Hm HQ. apply (wp_evolves_rest relinked m a k l); [by apply (ev_inv _ _ _ _ _ _ _ H)|done|]. intros x r Hr. apply HQ.
  by eapply evolves_seq; [apply _|exact H|].
Qed.

Lemma spawn_outcome k l : kinv k l -> next_pid (glob k) + 1 < 2 ^ 32 ->
  wp spawn_shell_process (fun x k' => exists l', evolves relinked 0 1 k l k' l' /\ registered (glob k') = registered (glob k)) k.
Proof.
  intros Hk Hp. unfold spawn_shell_process, upd_glob. wstep. wstep. set (k1 := set_glob _ k).
  assert (evolves relinked 0 0 k l k1 l) as H1 by (apply evolves_glob; [apply _|done|done|done|by left]).
  wstep. apply (wp_load_rest 0 k1 l _ _ k l 0 H1); [apply pe_read_shell_law|]. intros ok r2 H2. set (k2 := set_rest r2 k1) in *.
  assert (registered (glob k2) = registered (glob k)) as G2 by done.
  destruct ok; cbn [negb]; [|wstep; exists l; split; [|done]; by eapply evolves_weaken; [exact H2|..|lia|by left|]].
  assert (kinv k2 l) as Hk2 by apply H2. destruct (ring_get _ _ _ (ki_ring _ _ Hk2) (tb_current _ _ _ (ki_table _ _ Hk2))) as [c Hc].
  wstep. eapply wp_mono; [apply (create_evolves k2 l SHELL_NAME 0 c Hk2 Hc Hp)|]. cbv beta. intros a k3 (l3 & H3 & G3 & Hcase).
  assert (evolves relinked 0 1 k l k3 l3) as H03 by (replace 1 with (0 + 1) by lia; by eapply evolves_trans; [apply _|exact H2|]).
  assert (registered (glob k3) = registered (glob k)) as G03 by congruence.
  destruct Hcase as [[-> ->]|(Ha0 & Ha & -> & o & n & Ho & Hnb)]; [rewrite Z.eqb_refl; wstep; by exists l|].
  rewrite (proj2 (Z.eqb_neq _ _) Ha0). assert (a <> idle_process k3) as Hai.
  { intros ->. apply Ha. rewrite (ev_idle _ _ _ _ _ _ _ H03). by apply (tb_idle _ _ _ (ki_table _ _ Hk)). }
  wstep. wstep. assert (kinv k3 (l ++ [a])) as Hk3 by apply H3. rewrite (proj2 (Z.eqb_neq _ _)); cycle 1.
  { intros E. apply (tb_nz _ _ _ (ki_table _ _ Hk3)). rewrite <- E. apply (tb_current _ _ _ (ki_table _ _ Hk3)). }
  wstep. wstep. apply (wp_get_in _ _ (l ++ [a]) _ Hk3 (tb_current _ _ _ (ki_table _ _ Hk3))). intros cc _. apply (wp_setp _ _ _ _ _ Ho).
  set (k4 := set_procs _ k3). set (o4 := set_cwd (cwd_path cc) (cwd_inode cc) (set_next n o)).
  assert (pstate o = PROCESS_READY) as Hst by (by destruct (nb_state _ _ _ _ _ Hnb)).
  assert (evolves relinked 0 1 k l k4 (l ++ [a])) as H4 by (apply evolves_new with (set_next n o); [apply _|done|done|done|done|done|by split|done|done|by cbn; rewrite Hst]).
  assert (procs k4 !! a = Some o4) as Ho4 by (cbn; by rewrite lookup_insert_eq). assert (pstate o4 = PROCESS_READY) as Hst4 by done.
  assert (registered (glob k4) = registered (glob k)) as G4 by done. assert (idle_process k4 = idle_process k3) as Ei by done. clearbody k4 o4.
  wstep. apply (wp_getp _ o4); [done|]. wstep. apply (wp_load_rest 0 k4 (l ++ [a]) _ _ k l 1 H4); [apply pe_load_shell_law|]. intros x r5 H5.
  destruct x as [[entry [[sp av] ev]]|].
  - wstep. apply (wp_setp _ o4); [done|]. wstep. exists (l ++ [a]). split; [|done].
    apply evolves_new with o4; [apply _|exact H5|done|done|done|done|by split|done|by cbn; rewrite Ei|by cbn; rewrite Hst4].
  - wstep. apply (wp_setp _ o4); [done|]. wstep. exists (l ++ [a]). split; [|done].
    apply evolves_new with o4; [apply _|exact H5|done|done|done|done|by split|done|by cbn; rewrite Ei|done].
Qed.

Lemma respawn_outcome k l a : kinv k l -> a ∈ l -> next_pid (glob k) + 1 < 2 ^ 32 ->
  wp (respawn_shell_if_needed a) (fun _ k' => exists l', evolves relinked 0 1 k l k' l' /\ registered (glob k') = registered (glob k)) k.
Proof.
  intros Hk Ha Hp. unfold respawn_shell_if_needed. wstep. apply (wp_get_in _ _ l _ Hk Ha). intros o Ho. wstep. wstep.
  destruct (negb (is_shell o) || negb (has_spawner (glob k))).
  { wstep. exists l. split; [|done]. eapply evolves_weaken; [apply (evolves_refl relinked 0 k l Hk)|done|lia|by left|done]. }
  unfold upd_glob. wstep. wstep. set (k1 := set_glob _ k).
  assert (evolves relinked 0 0 k l k1 l) as H1 by (apply evolves_glob; [apply _|done|done|done|by left]).
  wstep. eapply wp_mono; [apply (spawn_outcome k1 l); [apply H1|done]|]. cbv beta. intros x k2 (l2 & H2 & G2).
  assert (evolves relinked 0 1 k l k2 l2) as H02 by (replace 1 with (0 + 1) by lia; by eapply evolves_trans; [apply _|exact H1|]).
  destruct (x =? 0); wstep; exists l2; (split; [|done]); [|done].
  eapply evolves_seq; [apply _|exact H02|]. apply evolves_glob; [apply _|apply H2|done|done|by left].
Qed.

(** * The waiting parent *)

Lemma wake_outcome k l child : kinv k l -> wp (wake_waiting_parent child) (fun w k' =>
  (w = 0 /\ k' = k /\ (ppid child = 0 \/ forall x q, procs k !! x = Some q -> is_waiter_for child q = false)) \/
  (w ∈ l /\ ppid child <> 0 /\ exists q, procs k !! w = Some q /\ is_waiter_for child q = true /\ k' = set_procs (<[w := set_state PROCESS_READY (set_wait 0 q)]> (procs k)) k)) k.
Proof.
  intros Hk. pose proof (ki_ring _ _ Hk) as Hr. unfold wake_waiting_parent, find_waiting_parent. wstep. destruct (Z.eqb_spec (ppid child) 0) as [E0|E0].
  { wstep. rewrite Z.eqb_refl. wstep. left. auto. }
  eapply wp_Some; [by apply find_process_outcome|]. destruct (pick_spec k (is_waiter_for child) l (rg_nz _ _ Hr)) as [(Hw0 & (q & Hq & HP) & l1 & l2 & El & _)|[Ew Hf]].
  - rewrite (proj2 (Z.eqb_neq _ _) Hw0). wstep. apply (wp_setp _ q); [done|]. wstep. apply (wp_setp _ (set_wait 0 q)); [cbn; by rewrite lookup_insert_eq|]. wstep.
    right. split; [by apply (rg_dom _ _ Hr); eexists|]. split; [done|]. exists q. split_and!; [done|done|]. cbn [procs set_procs]. by rewrite insert_insert_eq.
  - rewrite Ew, Z.eqb_refl. wstep. left. split_and!; [done|done|right]. intros x q Hq. rewrite Forall_forall in Hf. specialize (Hf x). unfold sat in Hf. rewrite Hq in Hf.
    apply Hf, (rg_dom _ _ Hr). by eexists.
Qed.

Lemma is_waiter_spec child q : is_waiter_for child q = true <->
  pid q = ppid child /\ pstate q = PROCESS_BLOCKED /\ (wait_target_pid q = pid child \/ wait_target_pid q = WAIT_ANY_PID).
Proof. unfold is_waiter_for. rewrite !andb_true_iff, orb_true_iff, !Z.eqb_eq, bool_decide_eq_true. tauto. Qed.

(** * Burying *)

(** A zombie: what is left of [p], dead with [code]. *)
Definition zombie k (a : Z) (p : process) (code : Z) : Prop :=
  exists p', procs k !! a = Some p' /\ pid p' = pid p /\ ppid p' = ppid p /\ pstate p' = PROCESS_TERMINATED /\ exit_code p' = code.

Record buried (a code : Z) (p : process) (w : Z) k (l : list Z) k' (l' : list Z) : Prop := {
  bu_evolves : evolves stirred a 1 k l k' l';
  bu_forgotten : registered (glob k') = registered (forget (pid p) (glob k));
  bu_zombie : zombie k' a p code;
  bu_woken : w <> 0 -> w ∈ l' /\ w <> a /\ exists q, procs k' !! w = Some q /\ pstate q = PROCESS_READY /\ wait_target_pid q = 0 /\ pid q = ppid p;
  bu_parent : forall x q, procs k !! x = Some q -> x <> a -> ppid p <> 0 -> is_waiter_for p q = true ->
    (g_wm_pid (glob k) = 0 \/ pid q <> g_wm_pid (glob k)) -> w = x;
}.

Lemma bury_outcome k l a p code : kinv k l -> procs k !! a = Some p -> a <> idle_process k -> next_pid (glob k) + 1 < 2 ^ 32 ->
  wp (bury a code) (fun w k' => exists l', buried a code p w k l k' l') k.
Proof.
  intros Hk Hp Hai Hpid. assert (a ∈ l) as Ha by (apply (tb_dom _ _ _ (ki_table _ _ Hk)); by eexists).
  assert (a <> 0) as Ha0 by (intros ->; by apply (tb_nz _ _ _ (ki_table _ _ Hk))). unfold bury.
  wstep. apply (wp_setp _ p); [done|]. wstep. apply (wp_setp _ (set_exit code p)); [cbn; by rewrite lookup_insert_eq|].
  set (d := set_state PROCESS_TERMINATED (set_exit code p)). cbn [procs set_procs]. rewrite insert_insert_eq.
  change (set_procs (<[a := d]> (procs k)) (set_procs (<[a := set_exit code p]> (procs k)) k)) with (set_procs (<[a := d]> (procs k)) k).
  set (k1 := set_procs _ k). assert (evolves stirred a 0 k l k1 l) as H1 by (by apply evolves_set with p; [apply _|..|by left|done|done|by split]).
  assert (forall x q, x <> a -> procs k !! x = Some q -> procs k1 !! x = Some q) as Hsame by (intros x q Hx Hq; cbn; by rewrite lookup_insert_ne).
  assert (procs k1 !! a = Some d) as Hd by (cbn; by rewrite lookup_insert_eq). assert (glob k1 = glob k) as G1 by done. clearbody k1.
  wstep. apply (wp_getp _ d); [done|]. wstep. assert (kinv k1 l) as Hk1 by apply H1. eapply wp_mono; [by apply (unregister_outcome k1 l)|]. cbv beta. intros _ k2 (H2 & G2 & P2).
  assert (kinv k2 l) as Hk2 by apply H2. wstep. eapply wp_mono; [apply (respawn_outcome k2 l a Hk2 Ha)|]; [rewrite G2; cbn; by rewrite G1|]. cbv beta. intros _ k3 (l3 & H3 & G3).
  assert (evolves relinked 0 1 k1 l k3 l3) as H13 by (replace 1 with (0 + 1) by lia; by eapply evolves_trans; [apply _|exact H2|]).
  assert (evolves stirred a 1 k l k3 l3) as H03.
  { replace 1 with (0 + 1) by lia. eapply evolves_trans; [apply _|exact H1|].
    eapply evolves_weaken; [exact H13|apply relinked_stirred|lia|by right|done]. }
  assert (forall x q, procs k1 !! x = Some q -> (g_wm_pid (glob k) = 0 \/ pid q <> g_wm_pid (glob k)) -> exists q', procs k3 !! x = Some q' /\ relinked q q') as Hrel.
  { intros x q Hq Hw. destruct (ev_procs _ _ _ _ _ _ _ H13 x q Hq) as (q' & Hq' & Hl). exists q'. split; [done|]. apply (lv_other _ _ _ _ _ _ Hl).
    - intros ->. apply (tb_nz _ _ _ (ki_table _ _ Hk1)), (tb_dom _ _ _ (ki_table _ _ Hk1)). by eexists.
    - by rewrite G1. }
  assert (kinv k3 l3) as Hk3 by apply H13.
  assert (registered (glob k3) = registered (forget (pid p) (glob k))) as G03 by (by rewrite G3, G2, G1).
  assert (exists d', procs k3 !! a = Some d' /\ pid d' = pid p /\ ppid d' = ppid p /\ pstate d' = PROCESS_TERMINATED /\ exit_code d' = code) as (d' & Hd' & D1 & D2 & D3 & D4).
  { destruct (P2 a d Hd eq_refl) as (d2 & Hd2 & n2 & ->). destruct (ev_procs _ _ _ _ _ _ _ H3 a _ Hd2) as (d3 & Hd3 & Hl). exists d3. split; [done|].
    destruct (lv_other _ _ _ _ _ _ Hl) as [n3 ->]; [done| |done]. rewrite G2, G1. cbn. destruct (Z.eqb_spec (pid p) (g_wm_pid (glob k))); auto. }
  eapply wp_mono; [apply (wake_outcome k3 l3 d Hk3)|]. cbv beta. intros w k4 [(-> & -> & Hno)|(Hw & Hpp & q & Hq & Hwq & ->)].
  - exists l3. split; [done|done|by exists d'|done|]. intros x q Hq Hxa Hpp Hiw Hwm. exfalso. destruct (Hrel x q (Hsame _ _ Hxa Hq) Hwm) as (q' & Hq' & n & ->).
    destruct Hno as [Hno|Hno]; [done|]. specialize (Hno x _ Hq'). change (is_waiter_for p q = false) in Hno. congruence.
  - apply is_waiter_spec in Hwq as (W1 & W2 & W3). assert (w <> a) as Hwa by (intros ->; rewrite Hd' in Hq; injection Hq as <-; congruence).
    assert (w <> idle_process k3) as Hwi.
    { intros ->. pose proof (tb_pids _ _ _ (ki_table _ _ Hk3) _ q Hq) as Hz. rewrite Z.eqb_refl in Hz. congruence. }
    exists l3. split; [|done|exists d'; split; [|done]; cbn; by rewrite lookup_insert_ne| |].
    + eapply evolves_seq; [apply _|exact H03|]. apply evolves_set with q; [apply _|done|done|done|by split|by left|done|done|]. split; [done|done|done|].
      intros _ _ Hst. congruence.
    + intros _. split_and!; [done|done|]. eexists. split; [cbn; by rewrite lookup_insert_eq|]. done.
    + intros x r Hr Hxa _ (X1 & _ & _)%is_waiter_spec Hwm. destruct (Hrel x r (Hsame _ _ Hxa Hr) Hwm) as (r' & Hr' & n & ->).
      apply (tb_inj _ _ _ (ki_table _ _ Hk3) w x q _ Hq Hr'). cbn. rewrite W1, X1. done.
Qed.

(** * Who runs next *)

Definition kok k (l : list Z) : Prop := kinv k l /\ alive k (current_process k).

Lemma switch_kok k l nx c p : kinv k l -> procs k !! current_process k = Some c -> procs k !! nx = Some p -> nx <> current_process k ->
  kok (switch_result k (current_process k) nx c p) l.
Proof.
  intros Hk Hc Hp Hne. split; [by apply kinv_switch|]. intros q Hq. unfold switch_result in Hq. cbn in Hq. rewrite lookup_insert_eq in Hq. by injection Hq as <-.
Qed.

(** A dead process never keeps the processor. *)
Lemma hand_over_outcome k l w c : kinv k l -> procs k !! current_process k = Some c -> pstate c = PROCESS_TERMINATED ->
  (w <> 0 -> w ∈ l /\ w <> current_process k) ->
  wp (hand_over w) (fun _ k' => kok k' l /\ exists nx p, nx <> current_process k /\ procs k !! nx = Some p /\
    k' = switch_result k (current_process k) nx c p /\ (w <> 0 -> nx = w)) k.
Proof.
  intros Hk Hc Hd Hw. pose proof (ki_ring _ _ Hk) as Hr. unfold hand_over.
  assert (current_process k <> 0) as Hc0 by (intros E0; apply (rg_nz _ _ Hr); rewrite <- E0; by apply (tb_current _ _ _ (ki_table _ _ Hk))).
  destruct (Z.eqb_spec w 0) as [->|Hw0].
  - wstep. eapply wp_mono; [by apply (schedule_kinv k l c)|]. cbv beta. intros [] k' [Hk' H]; wstep.
    + destruct H as (nx & p & Hne & Hp & -> & _). split; [by apply switch_kok|]. by exists nx, p.
    + destruct H as [_ [Hi|[?|?]]]; [|congruence..]. rewrite Hi in Hc. by destruct (tb_alive _ _ _ (ki_table _ _ Hk) c Hc).
  - destruct (Hw Hw0) as [Hwl Hne]. destruct (ring_get _ _ _ Hr Hwl) as [p Hp].
    eapply wp_Some; [by apply (switch_outcome k (current_process k) w c p)|]. split; [by apply switch_kok|]. by exists w, p.
Qed.

Lemma zombie_switch k a p code nx c q : zombie k a p code -> procs k !! current_process k = Some c -> nx <> a ->
  zombie (switch_result k (current_process k) nx c q) a p code.
Proof.
  intros (p' & Hp' & H1 & H2 & H3 & H4) Hc Hne. unfold zombie, switch_result. cbn [procs]. rewrite lookup_insert_ne by done.
  destruct (decide (a = current_process k)) as [E|E].
  - rewrite <- E. rewrite lookup_insert_eq. rewrite <- E, Hp' in Hc. injection Hc as <-. eexists. split; [done|]. unfold left_by. rewrite bool_decide_eq_false_2 by congruence. done.
  - rewrite lookup_insert_ne by done. by exists p'.
Qed.

(** What a death leaves, if [cur] was running: the zombie with its code, no registration of its pid, a live
    process on the processor. *)
Record dead (a code : Z) (p : process) k (l : list Z) k' (l' : list Z) : Prop := {
  de_kok : kok k' l';
  de_list : exists m, l' = l ++ m;
  de_pids : next_pid (glob k) <= next_pid (glob k') <= next_pid (glob k) + 1;
  de_zombie : zombie k' a p code;
  de_forgotten : registered (glob k') = registered (forget (pid p) (glob k));
  de_current : current_process k' <> a;
  de_parent : forall x q, procs k !! x = Some q -> x <> a -> ppid p <> 0 -> is_waiter_for p q = true ->
    (g_wm_pid (glob k) = 0 \/ pid q <> g_wm_pid (glob k)) ->
    exists q', procs k' !! x = Some q' /\ (pstate q' = PROCESS_READY \/ pstate q' = PROCESS_RUNNING) /\ wait_target_pid q' = 0 /\ (a = current_process k -> x = current_process k');
}.

Lemma bury_hand_over k l p code : kinv k l -> procs k !! current_process k = Some p -> current_process k <> idle_process k -> next_pid (glob k) + 1 < 2 ^ 32 ->
  wp (w ← bury (current_process k) code; hand_over w) (fun _ k' => exists l', dead (current_process k) code p k l k' l') k.
Proof.
  intros Hk Hp Hi Hpid. wstep. eapply wp_mono; [by apply (bury_outcome k l _ p code)|]. cbv beta. intros w k1 (l1 & [Hev Hg Hz Hw Hpar]).
  pose proof Hz as (d & Hd & _ & _ & Hdead & _). pose proof (ev_current _ _ _ _ _ _ _ Hev) as Ec. rewrite <- Ec in Hd.
  eapply wp_mono; [apply (hand_over_outcome k1 l1 w d (ev_inv _ _ _ _ _ _ _ Hev) Hd Hdead)|].
  { intros Hw0. destruct (Hw Hw0) as (? & ? & _). split; [done|by rewrite Ec]. }
  cbv beta. intros _ k2 (Hok & nx & q & Hne & Hq & -> & Hnx). exists l1. split; try done.
  - by apply (ev_list _ _ _ _ _ _ _ Hev).
  - apply (ev_pids _ _ _ _ _ _ _ Hev).
  - apply zombie_switch; [done|done|by rewrite <- Ec].
  - cbn. by rewrite <- Ec.
  - intros x r Hr Hxa Hpp Hiw Hwm. assert (w = x) as -> by (by apply (Hpar x r)).
    assert (x <> 0) as Hx0. { intros ->. apply (tb_nz _ _ _ (ki_table _ _ Hk)), (tb_dom _ _ _ (ki_table _ _ Hk)). by eexists. }
    rewrite (Hnx Hx0) in *. exists (entered q). unfold switch_result. cbn [procs current_process]. rewrite lookup_insert_eq.
    destruct (Hw Hx0) as (_ & _ & q1 & Hq1 & _ & Hq2 & _). rewrite Hq in Hq1. injection Hq1 as <-. split_and!; [done|by right|done|done].
Qed.

(** C21: [process_exit] of a user process: it stays behind as a zombie with its exit code, its pid is no
    longer the foreground process, window server, network or sound daemon, a parent that was waiting
    for it gets the processor at once, the table keeps its invariant and the dead process does not run. *)
Theorem process_exit_correct k l c code : kok k l -> procs k !! current_process k = Some c -> current_process k <> idle_process k ->
  next_pid (glob k) + 1 < 2 ^ 32 -> wp (process_exit code) (fun _ k' => exists l', dead (current_process k) code c k l k' l') k.
Proof.
  intros [Hk _] Hc Hi Hp. unfold process_exit. wstep. wstep. rewrite (proj2 (Z.eqb_neq _ _)); [by apply (bury_hand_over k l)|].
  intros E0. apply (tb_nz _ _ _ (ki_table _ _ Hk)). rewrite <- E0. by apply (tb_current _ _ _ (ki_table _ _ Hk)).
Qed.
End ending.
