(* ===== verification/ProcessSignals.v ===== *)
(** Signals: what each signal does to its target, who dies, who runs afterwards. *)

From S2P Require Import Prelude Interfaces Mailbox ProcessEnv Process ProcessRing ProcessSched ProcessInv ProcessLife ProcessCreate ProcessSteps ProcessExit.

Section signals.
Context {R : Type} `{!ProcessEnv R}.
Implicit Types (k : kernel (R := R)).

Definition store k (a : Z) (q : process) : kernel := set_procs (<[a := q]> (procs k)) k.

Lemma store_store k a p q : store (store k a p) a q = store k a q.
Proof. unfold store. cbn [procs set_procs]. by rewrite insert_insert_eq. Qed.

Lemma store_get k a q : procs (store k a q) !! a = Some q.
Proof. cbn. by rewrite lookup_insert_eq. Qed.

(** Stores in one record, composed. *)
Lemma wp_store a q f k (Q : unit -> kernel -> Prop) : Q tt (store k a (f q)) -> wp (setp a f) Q (store k a q).
Proof. intros H. apply (wp_setp _ q); [by rewrite store_get|]. change (Q tt (store (store k a q) a (f q))). by rewrite store_store. Qed.

(** * Death by a signal *)

Lemma terminate_outcome k l a p sig : kinv k l -> procs k !! a = Some p -> a <> idle_process k -> next_pid (glob k) + 1 < 2 ^ 32 ->
  wp (terminate_process_by_signal a sig) (fun r k' => exists l', match r with
    | Ret v => v = 0 /\ ((pstate p = PROCESS_TERMINATED /\ k' = k /\ l' = l) \/
        (pstate p <> PROCESS_TERMINATED /\ a <> current_process k /\ exists w, buried a (128 + sig) p w k l k' l'))
    | Away => pstate p <> PROCESS_TERMINATED /\ a = current_process k /\ dead a (128 + sig) p k l k' l'
    end) k.
Proof.
  intros Hk Hp Hi Hpid. unfold terminate_process_by_signal. wstep. apply (wp_getp _ p); [done|].
  case_bool_decide as Hd; [wstep; exists l; split; [done|by left]|]. destruct (decide (a = current_process k)) as [->|Hne].
  - assert (forall Q : flow Z -> kernel -> Prop, wp (w ← bury (current_process k) (128 + sig); hand_over w) (fun _ k' => Q Away k') k ->
      (forall w k1, bury (current_process k) (128 + sig) k = Some (w, k1) -> current_process k1 = current_process k) ->
      wp (w ← bury (current_process k) (128 + sig); cur ← gets current_process; if current_process k =? cur then hand_over w;; mret Away else mret (Ret 0)) Q k) as Hgo.
    { intros Q HQ Hc. unfold wp, mbind, M_bind in *. destruct (bury _ _ k) as [[w k1]|]; [|done]. cbv beta iota in *. unfold gets. rewrite (Hc w k1 eq_refl), Z.eqb_refl.
      by destruct (hand_over w k1) as [[[] k2]|]. }
    apply Hgo.
    + eapply wp_mono; [by apply (bury_hand_over k l p (128 + sig))|]. cbv beta. intros _ k' (l' & H). by exists l'.
    + intros w k1 E. destruct (wp_run _ _ _ _ _ (bury_outcome k l _ p (128 + sig) Hk Hp Hi Hpid) E) as (l1 & H). apply (ev_current _ _ _ _ _ _ _ (bu_evolves _ _ _ _ _ _ _ _ H)).
  - wstep. eapply wp_mono; [by apply (bury_outcome k l a p (128 + sig))|]. cbv beta. intros w k1 (l1 & H). wstep. wstep.
    rewrite (ev_current _ _ _ _ _ _ _ (bu_evolves _ _ _ _ _ _ _ _ H)), (proj2 (Z.eqb_neq _ _)) by done. wstep. exists l1. split; [done|right]. split_and!; [done|done|by exists w].
Qed.

(** * All signals *)

Definition fatal (sig : Z) : Prop := sig = SIGINT \/ sig = SIGKILL \/ sig = SIGTERM \/ sig = SIGALRM.

(** The target, with a signal to handle; a process that slept or was blocked becomes ready. *)
Definition interrupted (sig : Z) (o : process) : process :=
  let o' := set_sg (set_pending sig (sg o)) o in
  if bool_decide (pstate o = PROCESS_BLOCKED) || bool_decide (pstate o = PROCESS_SLEEPING) then set_state PROCESS_READY o' else o'.

Inductive signalled k (l : list Z) (n sig : Z) : flow Z -> kernel (R := R) -> list Z -> Prop :=
| signalled_nobody : (forall a p, procs k !! a = Some p -> pid p = n -> a = idle_process k) -> signalled k l n sig (Ret (-1)) k l
| signalled_caught a o : procs k !! a = Some o -> pid o = n -> a <> idle_process k -> catches o sig = true ->
    signalled k l n sig (Ret 0) (store k a (interrupted sig o)) l
| signalled_gone a o : procs k !! a = Some o -> pid o = n -> catches o sig = false -> (fatal sig \/ sig = SIGSTOP) -> pstate o = PROCESS_TERMINATED ->
    signalled k l n sig (Ret 0) k l
| signalled_killed a o w k' l' : procs k !! a = Some o -> pid o = n -> a <> idle_process k -> catches o sig = false -> fatal sig -> pstate o <> PROCESS_TERMINATED ->
    a <> current_process k -> buried a (128 + sig) o w k l k' l' -> signalled k l n sig (Ret 0) k' l'
| signalled_died o k' l' : procs k !! current_process k = Some o -> pid o = n -> catches o sig = false -> fatal sig -> pstate o <> PROCESS_TERMINATED ->
    dead (current_process k) (128 + sig) o k l k' l' -> signalled k l n sig Away k' l'
| signalled_stopped a o : procs k !! a = Some o -> pid o = n -> a <> idle_process k -> sig = SIGSTOP -> pstate o <> PROCESS_TERMINATED -> a <> current_process k ->
    signalled k l n sig (Ret 0) (store k a (set_state PROCESS_STOPPED o)) l
| signalled_paused o k' nx p : procs k !! current_process k = Some o -> pid o = n -> current_process k <> idle_process k -> sig = SIGSTOP -> pstate o <> PROCESS_TERMINATED ->
    kok k' l -> nx <> current_process k -> k' = switch_result (store k (current_process k) (set_state PROCESS_STOPPED o)) (current_process k) nx (set_state PROCESS_STOPPED o) p ->
    signalled k l n sig Away k' l
| signalled_continued a o : procs k !! a = Some o -> pid o = n -> a <> idle_process k -> sig = SIGCONT -> pstate o = PROCESS_STOPPED ->
    signalled k l n sig (Ret 0) (store k a (set_state PROCESS_READY o)) l
| signalled_running a o : procs k !! a = Some o -> pid o = n -> sig = SIGCONT -> pstate o <> PROCESS_STOPPED -> signalled k l n sig (Ret 0) k l
| signalled_unsupported a o : procs k !! a = Some o -> pid o = n -> catches o sig = false -> ~ fatal sig -> sig <> SIGSTOP -> sig <> SIGCONT ->
    signalled k l n sig (Ret (-1)) k l.

Lemma catches_fatal o sig : catches o sig = true -> fatal sig.
Proof. unfold catches, fatal. rewrite !andb_true_iff, !orb_true_iff, !Z.eqb_eq. naive_solver. Qed.

Lemma kinv_state k l a o st : kinv k l -> procs k !! a = Some o -> a <> idle_process k -> st <> PROCESS_RUNNING -> kinv (store k a (set_state st o)) l.
Proof. intros Hk Ho Hi Hst. by apply kinv_set with o; [..|by left| |]. Qed.

Lemma signal_outcome k l n sig : kinv k l -> next_pid (glob k) + 1 < 2 ^ 32 ->
  wp (process_signal n sig) (fun r k' => exists l', signalled k l n sig r k' l') k.
Proof.
  intros Hk Hpid. pose proof (ki_ring _ _ Hk) as Hr. unfold process_signal. wstep. destruct (find_by_pid_outcome k l n Hk) as (a & E & Hcase). eapply wp_Some; [exact E|].
  destruct Hcase as [(Ha0 & Ha & o & Ho & Hn)|[-> Hno]].
  2:{ rewrite Z.eqb_refl. wstep. exists l. constructor. intros b p Hb Hp. by destruct (Hno b p Hb). }
  rewrite (proj2 (Z.eqb_neq _ _) Ha0). wstep. wstep. destruct (Z.eqb_spec a (idle_process k)) as [Ei|Hi].
  { wstep. exists l. constructor. intros b p Hb Hp. rewrite <- Ei. apply (tb_inj _ _ _ (ki_table _ _ Hk) b a p o); [done|done|congruence]. }
  wstep. apply (wp_getp _ o); [done|]. destruct (catches o sig) eqn:Ec.
  { wstep. apply (wp_setp _ o); [done|]. change (set_procs _ k) with (store k a (set_sg (set_pending sig (sg o)) o)).
    assert (signalled k l n sig (Ret 0) (store k a (interrupted sig o)) l) as Hs by (by constructor). unfold interrupted in Hs.
    wstep. destruct (_ || _); [apply wp_store|]; repeat wstep; by exists l. }
  destruct ((sig =? SIGINT) || (sig =? SIGKILL) || (sig =? SIGTERM) || (sig =? SIGALRM)) eqn:Ef.
  { assert (fatal sig) as Hf by (unfold fatal; rewrite !orb_true_iff, !Z.eqb_eq in Ef; tauto).
    eapply wp_mono; [by apply (terminate_outcome k l a o sig)|]. cbv beta. intros [v|] k' (l' & H); exists l'.
    - destruct H as (-> & [(Hd & -> & ->)|(Hd & Hc & w & H)]); [|by eapply signalled_killed]. apply signalled_gone with a o; auto.
    - destruct H as (Hd & -> & H). by eapply signalled_died. }
  assert (~ fatal sig) as Hf by (unfold fatal; rewrite !orb_false_iff, !Z.eqb_neq in Ef; tauto).
  destruct (Z.eqb_spec sig SIGSTOP) as [Es|Hs].
  { case_bool_decide as Hd; [wstep; exists l; apply signalled_gone with a o; auto|]. wstep. apply (wp_setp _ o); [done|].
    change (set_procs _ k) with (store k a (set_state PROCESS_STOPPED o)). wstep. wstep.
    change (current_process (store k a (set_state PROCESS_STOPPED o))) with (current_process k). destruct (Z.eqb_spec a (current_process k)) as [->|Hne]; [|wstep; exists l; by constructor].
    assert (kinv (store k (current_process k) (set_state PROCESS_STOPPED o)) l) as Hk1 by (by apply kinv_state). wstep.
    eapply wp_mono; [apply (schedule_kinv _ l _ Hk1 (store_get _ _ _))|]. cbv beta. intros [] k' [Hk' H]; wstep; exists l.
    - destruct H as (nx & p & Hnx & Hp & Ek & _). apply signalled_paused with o nx p; try done. rewrite Ek. by apply switch_kok; [|apply store_get|..].
    - destruct H as [_ [?|[?|?]]]; done. }
  destruct (Z.eqb_spec sig SIGCONT) as [Et|Ht].
  { wstep. case_bool_decide as Hd; [apply (wp_setp _ o); [done|]|]; repeat wstep; exists l; [by constructor|by apply signalled_running with a o]. }
  wstep. exists l. by apply signalled_unsupported with a o.
Qed.

(** * The rest of the kernel after a signal *)

(** The caller goes on: nobody else died who is still needed, at most [n] pids were used. *)
Record advances (n : Z) k (l : list Z) k' (l' : list Z) : Prop := {
  ad_inv : kinv k' l';
  ad_list : exists m, l' = l ++ m;
  ad_pids : next_pid (glob k) <= next_pid (glob k') <= next_pid (glob k) + n;
  ad_idle : idle_process k' = idle_process k;
  ad_current : current_process k' = current_process k;
  ad_alive : alive k (current_process k) -> alive k' (current_process k');
}.

Lemma evolves_advances E a n k l k' l' : kinv k l -> evolves E a n k l k' l' -> (a <> current_process k) -> advances n k l k' l'.
Proof.
  intros Hk [H1 H2 H3 H4 H5 H6 H7] Ha. split; try done. intros Hal q Hq Hd. rewrite H5 in Hq.
  destruct (ring_get _ _ _ (ki_ring _ _ Hk) (tb_current _ _ _ (ki_table _ _ Hk))) as [c Hc]. destruct (H7 _ c Hc) as (c' & Hc' & Hl). rewrite Hq in Hc'. injection Hc' as <-.
  apply (Hal c Hc), (lv_alive _ _ _ _ _ _ Hl); [congruence|done].
Qed.

Lemma advances_refl k l : kinv k l -> advances 0 k l k l.
Proof. intros H. split; [done|exists []; by rewrite app_nil_r|lia|done|done|done]. Qed.

Lemma advances_trans n m k1 l1 k2 l2 k3 l3 : advances n k1 l1 k2 l2 -> advances m k2 l2 k3 l3 -> advances (n + m) k1 l1 k3 l3.
Proof.
  intros [A1 [a A2] A3 A4 A5 A6] [B1 [b B2] B3 B4 B5 B6]. split; [done|exists (a ++ b); by rewrite app_assoc, <- A2|lia|congruence|congruence|auto].
Qed.

Lemma advances_le n m k l k' l' : advances n k l k' l' -> n <= m -> advances m k l k' l'.
Proof. intros [] ?. split; try done. lia. Qed.

Lemma advances_store k l a o q : kinv k l -> procs k !! a = Some o -> next q = next o -> ppid q = ppid o -> alike o q -> (mbox q = mbox o \/ mailbox_ok a (mbox q)) ->
  (pstate q = PROCESS_RUNNING -> pstate o = PROCESS_RUNNING \/ a = current_process k) ->
  (pstate q = PROCESS_TERMINATED -> pstate o = PROCESS_TERMINATED) -> advances 0 k l (store k a q) l.
Proof.
  intros Hk Ho Hn Hpp Ha Hm Hr Hd. apply (evolves_advances (fun _ _ => True) 0); [done| |].
  - apply evolves_set with o; [split; done|done|done|done|done|done| | |by destruct Ha; split].
    + intros -> Hq. by apply (tb_alive _ _ _ (ki_table _ _ Hk) o), Hd.
    + intros Hq. destruct (Hr Hq); [by apply (tb_running _ _ _ (ki_table _ _ Hk) a o)|done].
  - intros E. apply (tb_nz _ _ _ (ki_table _ _ Hk)). rewrite E. by apply (tb_current _ _ _ (ki_table _ _ Hk)).
Qed.

(** What follows an operation that may give the processor away. *)
Definition goes_on {A} (n : Z) k (l : list Z) (r : flow A) k' (l' : list Z) : Prop :=
  match r with Ret _ => advances n k l k' l' | Away => kok k' l' /\ next_pid (glob k) <= next_pid (glob k') <= next_pid (glob k) + n end.

Lemma catches_range o sig : catches o sig = true -> 0 <= sig < MAX_SIGNUM.
Proof. unfold MAX_SIGNUM. intros H%catches_fatal. destruct H as [->|[->|[->| ->]]]; unfold SIGINT, SIGKILL, SIGTERM, SIGALRM; lia. Qed.

Lemma interrupted_store k l a o sig : kinv k l -> procs k !! a = Some o -> catches o sig = true -> advances 0 k l (store k a (interrupted sig o)) l.
Proof.
  intros Hk Ho Hc. pose proof (catches_range _ _ Hc). assert (alike o (interrupted sig o)) as Hal.
  { unfold interrupted. destruct (_ || _); (split; [done..|]); by intros [? _]. }
  unfold interrupted in *. destruct (_ || _); (apply advances_store with o; [done|done|done|done|done|by left|cbn; auto|cbn; auto]); done.
Qed.

Lemma signalled_goes_on k l n sig r k' l' : kinv k l -> signalled k l n sig r k' l' -> goes_on 1 k l r k' l'.
Proof.
  intros Hk H. pose proof (advances_le 0 1 _ _ _ _ (advances_refl k l Hk) ltac:(lia)) as Hid.
  assert (forall a o st, procs k !! a = Some o -> st <> PROCESS_RUNNING -> st <> PROCESS_TERMINATED -> advances 1 k l (store k a (set_state st o)) l) as Hst.
  { intros a o st Ho H1 H2. apply (advances_le 0); [|lia]. by apply advances_store with o; [..|by left| |]. }
  destruct H as [| | |a o w k' l' Ho Hn Hi Hc Hf Hd Hne Hb|o k' l' Ho Hn Hc Hf Hd Hdead| |o k' nx p Ho Hn Hi Hs Hd Hok Hnx Ek| | |]; cbn [goes_on]; try done; try (by apply Hst).
  - apply (advances_le 0); [by apply interrupted_store|lia].
  - apply (evolves_advances stirred a); [done|apply Hb|done].
  - split; [apply Hdead|apply (de_pids _ _ _ _ _ _ _ Hdead)].
  - split; [done|]. rewrite Ek. cbn. lia.
Qed.

(** C23: [process_signal], all cases: a signal for nobody or for idle is refused; a handled one is recorded
    and ends a sleep or a wait; a fatal one leaves a zombie with code 128 + signal, and when it hits
    the caller another process runs; stopping and continuing change the state only.  The table keeps
    its invariant. *)
Theorem process_signal_correct k l n sig : kok k l -> next_pid (glob k) + 1 < 2 ^ 32 ->
  wp (process_signal n sig) (fun r k' => exists l', signalled k l n sig r k' l' /\ kok k' l') k.
Proof.
  intros [Hk Hal] Hp. eapply wp_mono; [by apply (signal_outcome k l)|]. cbv beta. intros r k' (l' & H). exists l'. split; [done|].
  pose proof (signalled_goes_on _ _ _ _ _ _ _ Hk H) as Hg. destruct r; cbn in Hg; [|apply Hg]. split; [apply Hg|by apply Hg].
Qed.
End signals.
