(* ===== verification/ProcessFork.v ===== *)
(** [process_fork]: the child's own address space, descriptors and first context, and what is undone
    when the copy fails. *)

From S2P Require Import Prelude Interfaces Mailbox ProcessEnv Process ProcessRing ProcessSched ProcessInv ProcessLife ProcessCreate ProcessSteps ProcessExit ProcessSignals.

Section fork.
Context {R : Type} `{!ProcessEnv R}.
Implicit Types (k : kernel (R := R)).

(** * Exchanging the address space of a process *)

(** The resources when the space [sp] is there and the old one and the descriptors of [c] are gone. *)
Definition swapped (O : gset res) (c sp old : Z) : gset res := (({[(RSpace, sp)]} ∪ O) ∖ {[(RSpace, old)]}) ∖ {[(RFds, c)]}.

Lemma swapped_process O c sp old x : (RProcess, x) ∈ swapped O c sp old <-> (RProcess, x) ∈ O.
Proof.
  unfold swapped. rewrite !elem_of_difference, elem_of_union, !elem_of_singleton. split; [by intros [[[[=]|?] _] _]|]. intros H.
  split; [split; [by right|by intros [=]]|by intros [=]].
Qed.

Lemma swapped_other O c sp old a p o : own a p ⊆ O -> own c o ⊆ O -> own a p ## own c o -> page_table (img o) = old -> own a p ⊆ swapped O c sp old.
Proof.
  intros Ha Hc Hd E x Hx. unfold swapped. apply elem_of_difference. split; [apply elem_of_difference; split|].
  - apply elem_of_union_r. by apply Ha.
  - intros ->%elem_of_singleton. apply (Hd _ Hx). unfold own. rewrite E. set_solver.
  - intros ->%elem_of_singleton. apply (Hd _ Hx). unfold own. set_solver.
Qed.

Lemma swapped_own O c sp o q : own c o ⊆ O -> ((RSpace, sp) ∉ O) -> page_table (img q) = sp -> ring0_stack_pages (img q) = ring0_stack_pages (img o) ->
  fpu_raw (img q) = fpu_raw (img o) -> own c q ⊆ {[(RFds, c)]} ∪ swapped O c sp (page_table (img o)).
Proof.
  intros Hc Hsp E1 E2 E3. assert (sp <> page_table (img o)) as Hne. { intros ->. apply Hsp, Hc. unfold own. set_solver. }
  assert ((RProcess, c) ∈ O /\ (RStack, ring0_stack_pages (img o)) ∈ O /\ (RFpu, fpu_raw (img o)) ∈ O) as (H1 & H2 & H3) by (split_and!; apply Hc; unfold own; set_solver).
  unfold own, swapped. rewrite E1, E2, E3. intros x Hx. rewrite !elem_of_union, !elem_of_singleton in Hx.
  destruct Hx as [[[[->| ->]| ->]| ->]| ->].
  - apply elem_of_union_r. set_solver.
  - apply elem_of_union_l. set_solver.
  - apply elem_of_union_r. rewrite !elem_of_difference. split_and!; [|by intros [=]%elem_of_singleton|by intros [=]%elem_of_singleton]. apply elem_of_union_l. set_solver.
  - apply elem_of_union_r. set_solver.
  - apply elem_of_union_r. set_solver.
Qed.

Lemma own_space c sp o q x : page_table (img q) = sp -> ring0_stack_pages (img q) = ring0_stack_pages (img o) -> fpu_raw (img q) = fpu_raw (img o) ->
  x ∈ own c q -> x = (RSpace, sp) \/ x ∈ own c o.
Proof.
  unfold own. intros -> -> ->. rewrite !elem_of_union, !elem_of_singleton. intros [[[[->| ->]| ->]| ->]| ->]; tauto.
Qed.

(** The processes after the exchange: [q] in place of [o] at [c], the others as they were. *)
Record exchanged (e : Z) (O O' : gset res) k k' (l : list Z) (c sp : Z) (o q : process) : Prop := {
  ex_rep : pe_rep (rest k') O';
  ex_idle : idle_process k' = idle_process k;
  ex_c : procs k !! c = Some o /\ procs k' !! c = Some q /\ c <> idle_process k /\ c <> 0;
  ex_q : page_table (img q) = sp /\ ring0_stack_pages (img q) = ring0_stack_pages (img o) /\ fpu_raw (img q) = fpu_raw (img o);
  ex_sp : sp <> 0 /\ ((RSpace, sp) ∉ O);
  ex_others : forall b p', b <> c -> procs k' !! b = Some p' -> exists p, procs k !! b = Some p /\ img p' = img p;
  ex_O : (e = c /\ O' = swapped O c sp (page_table (img o))) \/ (e = 0 /\ O' = {[(RFds, c)]} ∪ swapped O c sp (page_table (img o)));
}.

Lemma exchanged_owned e O O' k k' l c sp o q : owned 0 O k l -> (0 ∉ l) -> (forall a, is_Some (procs k !! a) <-> a ∈ l) ->
  exchanged e O O' k k' l c sp o q -> owned e O' k' l.
Proof.
  intros [O1 O2 O3 O4] Hz Hdom [E1 E2 (Ho & Hq & Hci & Hc0) (Q1 & Q2 & Q3) (Hs & Hsp) E4 E5].
  assert (forall a p, procs k !! a = Some p -> a <> 0) as Hnz by (intros a p Hp ->; apply Hz, Hdom; by eexists).
  destruct (O3 c o Hci Hc0 Ho) as (Hown & Hn1 & Hn2 & Hn3).
  assert (forall b p', b <> idle_process k -> b <> c -> procs k' !! b = Some p' -> exists p, procs k !! b = Some p /\ img p' = img p /\ own b p' = own b p /\ own b p ⊆ O /\ own b p ## own c o) as Hoth.
  { intros b p' Hb Hbc Hp'. destruct (E4 b p' Hbc Hp') as (p & Hp & Ei). exists p. destruct (O3 b p Hb (Hnz b p Hp) Hp) as [Hs' _].
    split_and!; [done|done|unfold own; by rewrite Ei|done|by apply O4]. }
  split; [done| |rewrite E2|rewrite E2].
  - intros x. rewrite <- O2, <- (swapped_process O c sp (page_table (img o)) x). destruct E5 as [[_ ->]|[_ ->]]; [done|].
    rewrite elem_of_union, elem_of_singleton. split; [by intros [[=]|?]|by right].
  - intros a p Hai Hae Hp. destruct (decide (a = c)) as [->|Hac].
    + destruct E5 as [[-> _]|[_ ->]]; [done|]. rewrite Hq in Hp. injection Hp as <-. split; [by apply (swapped_own _ _ _ o)|]. rewrite Q1, Q2, Q3. done.
    + destruct (Hoth a p Hai Hac Hp) as (p0 & Hp0 & Ei & -> & Hs' & Hd). rewrite Ei. destruct (O3 a p0 Hai (Hnz a p0 Hp0) Hp0) as [_ Hn].
      split; [|done]. pose proof (swapped_other O c sp _ a p0 o Hs' Hown Hd eq_refl) as Hx. destruct E5 as [[_ ->]|[_ ->]]; [done|]. by apply union_subseteq_r'.
  - assert (forall b p, b <> idle_process k -> b <> c -> procs k' !! b = Some p -> own b p ## own c q) as Hqd.
    { intros b p Hb Hbc Hp. destruct (Hoth b p Hb Hbc Hp) as (p0 & Hp0 & _ & -> & Hs' & Hd). intros x Hx Hx'.
      destruct (own_space c sp o q x Q1 Q2 Q3 Hx') as [->|?]; [by apply Hsp, Hs'|by apply (Hd x)]. }
    intros a b p s Ha Hb Hp Hs' Hab. destruct (decide (a = c)) as [->|Hac], (decide (b = c)) as [->|Hbc]; [done| | |].
    + rewrite Hq in Hp. injection Hp as <-. symmetry. by apply Hqd.
    + rewrite Hq in Hs'. injection Hs' as <-. by apply Hqd.
    + destruct (Hoth a p Ha Hac Hp) as (p0 & Hp0 & _ & -> & _). destruct (Hoth b s Hb Hbc Hs') as (s0 & Hs0 & _ & -> & _). by apply O4.
Qed.

(** * The child *)

Definition fork_context (f : syscall_frame) (space : Z) : cpu_context :=
  mk_regs 0 (f_rbx f) 0 0 0 0 (f_rbp f) 0 0 0 0 (f_r12 f) (f_r13 f) (f_r14 f) (f_r15 f) (f_user_rsp f) (f_rip f) (f_rflags f) space.

(** A fresh copy [q] of the process [p]. *)
Record copied k (f : syscall_frame) (p q : process) : Prop := {
  cp_pid : pid q = next_pid (glob k) /\ ppid q = pid p /\ pname q = cut_name (pname p);
  cp_state : pstate q = PROCESS_READY /\ first_run q = true /\ wait_target_pid q = 0 /\ is_shell q = false /\ mbox q = no_mailbox;
  cp_context : context q = fork_context f (page_table (img q)) /\ fpu_state q = fpu (hw k);
  cp_owner : uid q = uid p /\ gid q = gid p /\ cwd_path q = cwd_path p /\ cwd_inode q = cwd_inode p;
  cp_image : page_table (img q) <> 0 /\ page_table (img q) <> page_table (img p) /\ stack_base (img q) = stack_base (img p) /\ mmap_regions (img q) = mmap_regions (img p) /\
    next_mmap_addr (img q) = next_mmap_addr (img p) /\ mmap_free_ranges (img q) = mmap_free_ranges (img p) /\ sig_stack_top (img q) = sig_stack_top (img p);
  cp_signals : signal_handlers (sg q) = signal_handlers (sg p) /\ pending_signal (sg q) = 0 /\ in_signal_handler (sg q) = false /\ alarm_tick (sg q) = 0;
}.

Lemma created_relinked k b a pb o r x p : procs k !! b = Some pb -> procs k !! x = Some p -> x <> a ->
  exists p', procs (created k b a pb o r) !! x = Some p' /\ relinked p p'.
Proof.
  intros Hb Hx Hxa. unfold created, linked. cbn [procs set_glob set_procs with_rest set_rest]. rewrite lookup_insert_ne by done.
  destruct (decide (x = b)) as [->|Hne]; [rewrite lookup_insert_eq|rewrite lookup_insert_ne by done].
  - rewrite Hb in Hx. injection Hx as <-. eexists. split; [done|]. by eexists.
  - exists p. split; [done|]. exists (next p). by destruct p.
Qed.

Lemma discard_outcome k l a : kinv k (l ++ [a]) -> (a ∉ l) -> a <> idle_process k -> a <> current_process k ->
  wp (process_discard a) (fun _ k' => kinv k' l /\ next_pid (glob k') = next_pid (glob k) /\ current_process k' = current_process k /\
    forall b, b <> a -> pointwise kept (procs k !! b) (procs k' !! b)) k.
Proof.
  intros Hk Ha Hi Hc. unfold process_discard. assert (a ∈ l ++ [a]) as Hin by set_solver. destruct (ring_get _ _ _ (ki_ring _ _ Hk) Hin) as [o Ho].
  rewrite (proj2 (Z.eqb_neq _ _)) by (intros ->; by apply (tb_nz _ _ _ (ki_table _ _ Hk))).
  wstep. apply (wp_setp _ o); [done|]. change (set_procs _ k) with (store k a (set_state PROCESS_TERMINATED o)).
  eapply wp_mono; [apply (remove_outcome _ (l ++ [a]) a); [by apply kinv_state|done|done|done]|]. cbv beta. intros _ k' [(l1 & l2 & El & Hk') Hrm].
  pose proof (tb_nodup _ _ _ (ki_table _ _ Hk)) as Hnd. assert (l1 = l /\ l2 = []) as [-> ->].
  { apply NoDup_app in Hnd as (_ & Hd & _). destruct (decide (l2 = [])) as [->|Hl2].
    - apply app_inj_tail in El as [-> _]. done.
    - destruct (exists_last Hl2) as (l3 & y & ->). rewrite app_comm_cons, app_assoc in El. apply app_inj_tail in El as [-> _]. exfalso. apply Ha. set_solver. }
  rewrite app_nil_r in Hk'. split_and!; [done| | |].
  - rewrite (rm_frame _ _ _ Hrm). done.
  - rewrite (rm_frame _ _ _ Hrm). done.
  - intros b Hb. pose proof (rm_kept _ _ _ Hrm b Hb) as H. cbn in H. by rewrite lookup_insert_ne in H.
Qed.

Definition readied (p p' : process) : Prop := p' = p \/ p' = set_state PROCESS_READY p.

(** After the child's record exists. *)
Definition fork_rest (f : syscall_frame) (cur c : Z) : M kernel Z :=
  o ← getp c;
  parent ← getp cur;
  sp ← on_rest (pe_clone_space (page_table (img parent)));
  if sp =? 0 then process_discard c;; mret (u64 (-1)) else
  setp c (set_space sp);;
  on_rest (pe_free_space (page_table (img o)));;
  l ← on_rest (pe_close_fds c);
  wake_all l;;
  on_rest (pe_copy_fds c cur);;
  parent ← getp cur;
  h ← gets hw;
  setp c (inherit parent sp f (fpu h));;
  mret (pid o).

Lemma fork_rest_outcome k l f c o p : kinv k (l ++ [c]) -> (c ∉ l) -> procs k !! c = Some o -> pstate o = PROCESS_READY -> procs k !! current_process k = Some p ->
  c <> idle_process k -> current_process k <> idle_process k -> c <> current_process k ->
  wp (fork_rest f (current_process k) c) (fun v k' => next_pid (glob k') = next_pid (glob k) /\ current_process k' = current_process k /\
    (forall b, b <> c -> pointwise kept (procs k !! b) (procs k' !! b)) /\
    ((v = u64 (-1) /\ kinv k' l) \/ (v = pid o /\ kinv k' (l ++ [c]) /\ exists p' sp o', readied p p' /\ readied (set_space sp o) o' /\ sp <> 0 /\ sp <> page_table (img p) /\
      procs k' !! c = Some (inherit p' sp f (fpu (hw k)) o')))) k.
Proof.
  intros Hk Hc Ho Hst Hp Hci Hcur Hcc. pose proof Hk as [Hr Ht]. destruct (tb_res _ _ _ Ht) as [O HO]. pose proof (ow_rep _ _ _ _ HO) as Hrep.
  assert (c <> 0) as Hc0 by (intros ->; apply (tb_nz _ _ _ Ht); set_solver).
  assert (current_process k <> 0) as Hcur0 by (intros E; apply (tb_nz _ _ _ Ht); rewrite <- E; apply (tb_current _ _ _ Ht)).
  destruct (ow_own _ _ _ _ HO c o Hci Hc0 Ho) as (Hoc & Hn). destruct (ow_own _ _ _ _ HO _ p Hcur Hcur0 Hp) as (Hop & _).
  pose proof (ow_disj _ _ _ _ HO _ _ _ _ Hcur Hci Hp Ho (not_eq_sym Hcc)) as Hdis.
  unfold fork_rest. wstep. apply (wp_getp _ o); [done|]. wstep. apply (wp_getp _ p); [done|]. wstep. eapply (wp_create RSpace); [apply pe_clone_space_law|exact Hrep| |].
  { intros r Hr1. cbn [Z.eqb]. assert (kinv (set_rest r k) (l ++ [c])) as Hk1 by (apply (kinv_frame k); try done; exists O; by apply owned_keeps).
    wstep. eapply wp_mono; [by apply (discard_outcome _ l c Hk1)|]. cbv beta. intros _ k' (H1 & H2 & H3 & H4). wstep. split_and!; [done|done|done|by left]. }
  intros sp r1 Hsp HspO Hr1. rewrite (proj2 (Z.eqb_neq _ _) Hsp). wstep. apply (wp_setp _ o); [done|]. set (k2 := set_procs _ _).
  assert (sp <> page_table (img o)) as Hso. { intros ->. apply HspO, Hoc. unfold own. set_solver. }
  assert (sp <> page_table (img p)) as Hsp'. { intros ->. apply HspO, Hop. unfold own. set_solver. }
  wstep. eapply wp_release; [apply pe_free_space_law|exact Hr1| |]. { apply elem_of_union_r, Hoc. unfold own. set_solver. }
  intros r3 Hr3. wstep. apply wp_on_rest. eapply wp_mono; [apply (pe_close_fds_law _ _ c Hr3)|].
  { apply elem_of_difference. split; [apply elem_of_union_r, Hoc; unfold own; set_solver|by intros [=]%elem_of_singleton]. }
  cbv beta. intros xs r4 [Hr4 Hxs]. change (pe_rep r4 (swapped O c sp (page_table (img o)))) in Hr4.
  change (set_rest r4 (set_rest r3 k2)) with (set_rest r4 (store k c (set_space sp o))). set (k4 := set_rest r4 _).
  assert (exchanged c O (swapped O c sp (page_table (img o))) k k4 (l ++ [c]) c sp o (set_space sp o)) as Hx4.
  { split; [done|done|split_and!; [done|apply store_get|done|done]|done|done| |by left]. intros b p' Hb Hp'. cbn in Hp'. rewrite lookup_insert_ne in Hp' by done. by exists p'. }
  assert (table c k4 (l ++ [c])) as Ht4.
  { apply (table_put 0 c k r4 _ c o); [done|done|done|done|by left|done|by cbn; rewrite Hst|]. eexists. by apply (exchanged_owned _ O _ k _ _ c sp o _ HO (tb_nz _ _ _ Ht) (tb_dom _ _ _ Ht) Hx4). }
  assert (procs k4 !! c = Some (set_space sp o)) as Hc4 by (by apply store_get). assert (links k4 = links k) as L4 by (by apply links_update with o).
  assert (procs k4 !! current_process k = Some p) as Hp4 by (cbn; by rewrite lookup_insert_ne).
  assert (forall b, b <> c -> pointwise kept (procs k !! b) (procs k4 !! b)) as K4 by (intros b Hb; cbn; rewrite lookup_insert_ne by done; destruct (procs k !! b); [apply kept_refl|done]).
  assert (process_list k4 = process_list k /\ current_process k4 = current_process k /\ idle_process k4 = idle_process k /\ hw k4 = hw k /\ glob k4 = glob k /\ rest k4 = r4) as (F1 & F2 & F3 & F4 & F5 & F6) by done.
  assert (forall b p', b <> c -> procs k4 !! b = Some p' -> procs k !! b = Some p') as S4 by (intros b p' Hb Hp'; cbn in Hp'; by rewrite lookup_insert_ne in Hp').
  clearbody k4. clear k2. wstep. apply (wp_wake_all c xs k4 (l ++ [c]) _ Ht4).
  { intros x Hx. apply (ow_procs _ _ _ _ HO). pose proof (Hxs x Hx) as H. apply elem_of_difference in H as [[[=]%elem_of_singleton|H]%elem_of_union _]. done. }
  intros k5 Ht5 H5 R5. assert (forall b x, procs k4 !! b = Some x -> exists x', procs k5 !! b = Some x' /\ readied x x') as Hrd.
  { intros b x Hx. destruct (touched_lookup _ _ _ _ H5 Hx); eexists; (split; [done|]); [by left|by right]. }
  destruct (Hrd _ _ Hc4) as (o' & Hc5 & Hro). destruct (Hrd _ _ Hp4) as (p' & Hp5 & Hrp). pose proof (touched_links _ _ H5) as L5.
  assert (process_list k5 = process_list k /\ current_process k5 = current_process k /\ idle_process k5 = idle_process k /\ hw k5 = hw k /\ glob k5 = glob k) as (G1 & G2 & G3 & G4 & G5)
    by (rewrite (to_eq _ _ H5); done).
  wstep. apply wp_on_rest. eapply wp_mono; [apply (pe_copy_fds_law _ (swapped O c sp (page_table (img o))) c (current_process k))|].
  { by rewrite R5, F6. } { apply swapped_process, Hoc. unfold own. set_solver. }
  { apply (swapped_other O c sp _ _ p o Hop Hoc Hdis eq_refl). unfold own. set_solver. }
  cbv beta. intros _ r6 Hr6. wstep. apply (wp_getp _ p'); [done|]. wstep. wstep. wstep. apply (wp_setp _ o'); [done|]. wstep.
  set (q := inherit p' sp f (fpu (hw (set_rest r6 k5))) o').
  change (set_procs (<[c := q]> (procs (set_rest r6 k5))) (set_rest r6 k5)) with (set_rest r6 (store k5 c q)). set (k7 := set_rest r6 _).
  assert (page_table (img q) = sp /\ ring0_stack_pages (img q) = ring0_stack_pages (img o) /\ fpu_raw (img q) = fpu_raw (img o) /\ pid q = pid o' /\ next q = next o' /\ mbox q = mbox o') as (Q1 & Q2 & Q3 & Q4 & Q5 & Q6)
    by (destruct Hro as [->| ->]; done).
  assert (pstate q = PROCESS_READY) as Q7 by done.
  assert (exchanged 0 O ({[(RFds, c)]} ∪ swapped O c sp (page_table (img o))) k k7 (l ++ [c]) c sp o q) as Hx7.
  { split; [done|by cbn|split_and!; [done|apply store_get|done|done]|done|done| |by right]. intros b x Hb Hx. cbn in Hx. rewrite lookup_insert_ne in Hx by done.
    pose proof (to_procs _ _ H5 b) as Hb5. rewrite Hx in Hb5. destruct (procs k4 !! b) as [y|] eqn:Ey; [|done]. exists y. split; [by apply S4|]. by destruct Hb5 as [->| ->]. }
  assert (table 0 k7 (l ++ [c])) as Ht7.
  { apply (table_put c 0 k5 r6 _ c o'); [done|done|done| |by left|by rewrite Q7|by rewrite Q7|].
    { intros _. split; [by apply (tb_sig _ _ _ Ht5 _ p' Hp5)|done]. }
    eexists. by apply (exchanged_owned _ O _ k _ _ c sp o _ HO (tb_nz _ _ _ Ht) (tb_dom _ _ _ Ht) Hx7). }
  split_and!; [by cbn; rewrite G5|by cbn; rewrite G2| |right].
  - intros b Hb. cbn. rewrite lookup_insert_ne by done. specialize (K4 b Hb). pose proof (touched_kept _ _ b H5) as K5. destruct (procs k !! b), (procs k4 !! b), (procs k5 !! b); try done. by eapply kept_trans.
  - split_and!; [done| |]; [split; [|done]|].
    + eapply ring_same; [exact Hr| |by cbn; rewrite G1|by cbn; rewrite G3]. rewrite <- L4, <- L5. by apply links_update with o'.
    + exists p', sp, o'. split_and!; [done|done|done|done|]. subst q. cbn. by rewrite lookup_insert_eq, G4.
Qed.

Lemma copied_inherit k f p p1 o nx o1 o' sp : newborn k p (pname p) 0 o -> o1 = set_next nx o -> relinked p p1 -> sp <> 0 -> sp <> page_table (img p) ->
  forall p', readied p1 p' -> readied (set_space sp o1) o' -> copied k f p (inherit p' sp f (fpu (hw k)) o').
Proof.
  intros [N1 (N2 & _) (_ & N3 & N4 & N5 & _) N6 _ N7 _] -> [n ->] Hs Hsp p' Hp Ho.
  assert (pid o' = pid o /\ ppid o' = ppid o /\ pname o' = pname o /\ first_run o' = first_run o /\ wait_target_pid o' = wait_target_pid o /\ is_shell o' = is_shell o /\ mbox o' = mbox o)
    as (E1 & E2 & E3 & E4 & E5 & E6 & E7) by (destruct Ho as [->| ->]; done).
  split; cbn [inherit pid ppid pname pstate first_run wait_target_pid is_shell mbox context fpu_state uid gid cwd_path cwd_inode img sg page_table stack_base mmap_regions
    next_mmap_addr mmap_free_ranges sig_stack_top signal_handlers pending_signal in_signal_handler alarm_tick].
  - rewrite E1, E2, E3, N1, N2, N6. done.
  - rewrite E4, E5, E6, E7, N3, N4, N5, N7. done.
  - done.
  - destruct Hp as [->| ->]; done.
  - destruct Hp as [->| ->]; done.
  - destruct Hp as [->| ->]; done.
Qed.

Lemma relinked_kept p p' : relinked p p' -> kept p p'.
Proof. intros [n ->]. apply kept_next. Qed.

Lemma fork_outcome k l f p : kinv k l -> procs k !! current_process k = Some p -> current_process k <> idle_process k -> next_pid (glob k) + 1 < 2 ^ 32 ->
  wp (process_fork f) (fun v k' => current_process k' = current_process k /\ next_pid (glob k) <= next_pid (glob k') <= next_pid (glob k) + 1 /\
    (forall b, b ∈ l -> pointwise kept (procs k !! b) (procs k' !! b)) /\
    ((v = u64 (-1) /\ kinv k' l) \/ exists c q, (c ∉ l) /\ kinv k' (l ++ [c]) /\ procs k' !! c = Some q /\ v = pid q /\ copied k f p q)) k.
Proof.
  intros Hk Hp Hci Hpid. pose proof (ki_table _ _ Hk) as Ht. pose proof (tb_next _ _ _ Ht) as Hnext.
  assert (current_process k <> 0) as Hc0 by (intros E; apply (tb_nz _ _ _ Ht); rewrite <- E; apply (tb_current _ _ _ Ht)).
  unfold process_fork. wstep. wstep. rewrite (proj2 (Z.eqb_neq _ _) Hc0). wstep. apply (wp_getp _ p); [done|]. wstep.
  eapply wp_mono; [by apply (create_outcome k l (pname p) 0 p)|]. cbv beta. intros a k1 (l1 & H).
  assert (forall b, pointwise kept (procs k !! b) (procs k !! b)) as Kid by (intros b; destruct (procs k !! b); [apply kept_refl|done]).
  destruct H as [r Hr|r Hr|l0 b pb a o r El Hb Ha0 Ha Hnb Hcnt Hr].
  - rewrite Z.eqb_refl. wstep. split_and!; [done|cbn; lia|cbn; lia|done|by left].
  - rewrite Z.eqb_refl. wstep. assert (next_pid (glob (with_rest k r)) = next_pid (glob k) + 1) as E by (cbn; by rewrite u32_small by (unfold is_u32; lia)).
    split_and!; [done|lia|lia|done|by left].
  - rewrite (proj2 (Z.eqb_neq _ _) Ha0). set (k1 := created k b a pb o r) in *. assert (a <> current_process k) as Hac by (intros ->; by apply Ha, (tb_current _ _ _ Ht)).
    assert (current_process k1 = current_process k /\ idle_process k1 = idle_process k /\ hw k1 = hw k) as (Ec & Ei & Eh) by done.
    assert (next_pid (glob k1) = next_pid (glob k) + 1) as En by (cbn; by rewrite u32_small by (unfold is_u32; lia)).
    destruct (created_relinked k b a pb o r _ p Hb Hp (not_eq_sym Hac)) as (p1 & Hp1 & Hrp). fold k1 in Hp1.
    assert (procs k1 !! a = Some (set_next (process_list k) o)) as Ho1 by (subst k1; unfold created, linked; cbn [procs set_glob set_procs with_rest set_rest process_list]; by rewrite lookup_insert_eq).
    assert (forall x, x ∈ l -> pointwise kept (procs k !! x) (procs k1 !! x)) as K1.
    { intros x Hx. destruct (ring_get _ _ _ (ki_ring _ _ Hk) Hx) as [y Hy]. destruct (created_relinked k b a pb o r x y Hb Hy) as (y' & Hy' & Hry); [by intros ->|].
      fold k1 in Hy'. rewrite Hy, Hy'. by apply relinked_kept. }
    clearbody k1. change (wp (fork_rest f (current_process k) a) (fun v k' => current_process k' = current_process k /\ next_pid (glob k) <= next_pid (glob k') <= next_pid (glob k) + 1 /\
      (forall b, b ∈ l -> pointwise kept (procs k !! b) (procs k' !! b)) /\
      ((v = u64 (-1) /\ kinv k' l) \/ exists c q, (c ∉ l) /\ kinv k' (l ++ [c]) /\ procs k' !! c = Some q /\ v = pid q /\ copied k f p q)) k1).
    rewrite <- Ec in Hp1. rewrite <- Ec at 1.
    assert (pstate o = PROCESS_READY) as Hso by (by destruct (nb_state _ _ _ _ _ Hnb)).
    eapply wp_mono; [apply (fork_rest_outcome k1 l f a _ p1 Hr Ha Ho1)|]; [done|done| |by rewrite Ec, Ei|by rewrite Ec|].
    { intros E. apply Ha. rewrite E, Ei. by apply (tb_idle _ _ _ Ht). }
    cbv beta. intros v k' (H1 & H2 & H3 & H4). split_and!; [congruence|lia|lia| |].
    + intros x Hx. specialize (K1 x Hx). specialize (H3 x ltac:(by intros ->)). destruct (procs k !! x), (procs k1 !! x), (procs k' !! x); try done. by eapply kept_trans.
    + destruct H4 as [[-> Hk']|(-> & Hk' & p' & sp & o' & R1 & R2 & S1 & S2 & Hq)]; [by left|right]. exists a, (inherit p' sp f (fpu (hw k1)) o'). split_and!; [done|done|done| |].
      * destruct R2 as [->| ->]; done.
      * rewrite Eh. eapply copied_inherit; [exact Hnb|done|exact Hrp|done| |exact R1|exact R2]. by destruct Hrp as [n ->].
Qed.

End fork.
