(* ===== verification/ProcessTick.v ===== *)
(** The timer tick, and the theorem that no operation on processes faults or breaks the table. *)

From S2P Require Import Prelude Interfaces Mailbox ProcessEnv Process ProcessRing ProcessSched ProcessInv ProcessLife ProcessCreate ProcessSteps ProcessExit ProcessSignals ProcessFork.

Section tick.
Context {R : Type} `{!ProcessEnv R}.
Implicit Types (k : kernel (R := R)).

(** * A walk during which processes are added *)

(** The fuel covers the nodes left and those that can still be added. *)
Lemma wp_ring_do_grow {A} (P : list Z -> kernel -> list Z -> Prop) (Q : option A -> kernel -> Prop) start body :
  (forall a todo k l, kinv k l -> (exists seen, l = seen ++ a :: todo) -> idle_process k = start -> P (a :: todo) k l ->
    wp (body a) (fun r k' => match r with
      | Some x => Q (Some x) k'
      | None => exists m, kinv k' (l ++ m) /\ idle_process k' = start /\ P (todo ++ m) k' (l ++ m)
      end) k) ->
  (forall k l, kinv k l -> P [] k l -> Q None k) ->
  forall fuel seen a todo k, kinv k (seen ++ a :: todo) -> idle_process k = start -> P (a :: todo) k (seen ++ a :: todo) ->
    (length (a :: todo) + 33 <= fuel + length (seen ++ a :: todo))%nat -> wp (ring_do fuel start body a) Q k.
Proof.
  intros Hbody Hend fuel. induction fuel as [|fuel IH]; intros seen a todo k Hk Hi HP Hf.
  { pose proof (tb_count _ _ _ (ki_table _ _ Hk)) as [_ Hc]. unfold zlen, MAX_PROCESSES in Hc. rewrite length_app in *. cbn [length] in *. lia. }
  cbn [ring_do]. wstep. eapply wp_mono; [apply (Hbody a todo k _ Hk); [by eexists|done|done]|]. cbv beta. intros [x|] k'; [intros HQ; by wstep|].
  intros (m & Hk' & Hi' & HP'). rewrite <- app_assoc in Hk', HP'. cbn [app] in Hk', HP'. pose proof (ki_ring _ _ Hk') as Hr.
  assert (a ∈ seen ++ a :: todo ++ m) as Ha by set_solver. destruct (ring_get _ _ _ Hr Ha) as [o Ho]. wstep. apply (wp_getp _ o); [done|].
  pose proof (rg_seg _ _ Hr) as Hs. rewrite (ring_list _ _ Hr), Hi' in Hs. apply lseg_app in Hs as (z & _ & -> & y & Hy & Hs).
  unfold links in Hy. rewrite lookup_fmap, Ho in Hy. injection Hy as <-. destruct (todo ++ m) as [|d todo'] eqn:Etodo.
  - cbn in Hs. rewrite Hs, Z.eqb_refl, orb_true_r. wstep. by eapply Hend.
  - destruct Hs as [En _]. rewrite En. pose proof (rg_nodup _ _ Hr) as Hnd. destruct (rg_head _ _ Hr) as [tl E]. rewrite Hi' in E.
    rewrite (proj2 (Z.eqb_neq d 0)) by (intros ->; apply (rg_nz _ _ Hr); set_solver).
    rewrite (proj2 (Z.eqb_neq d start)); cycle 1.
    { intros ->. destruct seen as [|h seen]; cbn in E, Hnd; injection E as Eh _; apply NoDup_cons in Hnd as [Hn _]; apply Hn; rewrite Eh; set_solver. }
    cbn [orb]. replace (seen ++ a :: d :: todo') with ((seen ++ [a]) ++ d :: todo') in * by (by rewrite <- app_assoc).
    apply (IH (seen ++ [a]) d todo'); [done|done|done|]. apply (f_equal length) in Etodo. rewrite !length_app in *. cbn [length] in *. lia.
Qed.

Lemma wp_ring_walk_grow {A} (P : list Z -> kernel -> list Z -> Prop) (Q : option A -> kernel -> Prop) k l body : kinv k l -> P l k l ->
  (forall a todo k' l', kinv k' l' -> (exists seen, l' = seen ++ a :: todo) -> idle_process k' = idle_process k -> P (a :: todo) k' l' ->
    wp (body a) (fun r k'' => match r with
      | Some x => Q (Some x) k''
      | None => exists m, kinv k'' (l' ++ m) /\ idle_process k'' = idle_process k /\ P (todo ++ m) k'' (l' ++ m)
      end) k') ->
  (forall k' l', kinv k' l' -> P [] k' l' -> Q None k') -> wp (ring_walk body) Q k.
Proof.
  intros Hk HP Hbody Hend. pose proof (ki_ring _ _ Hk) as Hr. destruct (ring_idle _ _ Hr) as [Hi0 _]. unfold ring_walk. wstep. wstep. wstep. wstep.
  rewrite (ring_list _ _ Hr), (proj2 (Z.eqb_neq _ _) Hi0), (ring_size _ _ Hr). destruct (rg_head _ _ Hr) as [tl E].
  eapply (wp_ring_do_grow P Q (idle_process k) body Hbody Hend _ [] (idle_process k) tl); [by rewrite <- E|done|by rewrite <- E|].
  cbn [app]. rewrite <- E. unfold MAX_PROCESSES. lia.
Qed.

(** * Between two kernel states *)

Definition pids_within (n : Z) k k' : Prop := next_pid (glob k) <= next_pid (glob k') <= next_pid (glob k) + n.

Lemma kok_get k l : kok k l -> exists c, procs k !! current_process k = Some c /\ pstate c <> PROCESS_TERMINATED.
Proof. intros [Hk Ha]. destruct (ring_get _ _ _ (ki_ring _ _ Hk) (tb_current _ _ _ (ki_table _ _ Hk))) as [c Hc]. exists c. split; [done|by apply Ha]. Qed.

Lemma kok_current k l : kok k l -> current_process k <> 0 /\ current_process k ∈ l.
Proof.
  intros [Hk _]. pose proof (tb_current _ _ _ (ki_table _ _ Hk)) as H. split; [|done]. intros E. apply (tb_nz _ _ _ (ki_table _ _ Hk)). by rewrite <- E.
Qed.

Lemma advances_kok n k l k' l' : kok k l -> advances n k l k' l' -> kok k' l'.
Proof. intros [Hk Ha] H. split; [apply H|by apply H]. Qed.

Lemma schedule_kok k l c : kinv k l -> procs k !! current_process k = Some c -> wp schedule (fun away k' => (kok k l \/ current_process k <> idle_process k /\ pstate c <> PROCESS_RUNNING /\ pstate c <> PROCESS_READY -> kok k' l) /\
  pids_within 0 k k' /\ (away = false -> k' = k)) k.
Proof.
  intros Hk Hc. eapply wp_mono; [by apply (schedule_kinv k l c)|]. cbv beta. unfold pids_within. intros [] k' [Hk' H].
  - destruct H as (nx & p & Hne & Hp & -> & _). split_and!; [intros _; by apply switch_kok|cbn; lia|cbn; lia|done].
  - destruct H as [-> Hs]. split_and!; [|lia|lia|done]. intros [?|(? & ? & ?)]; [done|]. destruct Hs as [?|[?|?]]; done.
Qed.

(** * Sleeping and waiting *)

Lemma sleep_kok k l ms : kok k l -> current_process k <> idle_process k -> wp (process_sleep ms) (fun _ k' => kok k' l /\ pids_within 0 k k') k.
Proof.
  intros Hok Hi. destruct (kok_current _ _ Hok) as [Hc0 Hcl]. destruct (kok_get _ _ Hok) as (c & Hc & Hal). unfold process_sleep, pids_within. wstep. wstep.
  rewrite (proj2 (Z.eqb_neq _ _) Hc0). cbn [orb]. destruct (ms =? 0); [wstep; split; [done|lia]|]. wstep. wstep. wstep. apply (wp_setp _ c); [done|].
  change (set_procs _ k) with (store k (current_process k) (set_wakeup (u64 (pit_ticks (time k) + u64 (ms + 9) / 10)) c)). wstep. apply wp_store.
  set (o := set_state PROCESS_SLEEPING _). set (k1 := store k _ o).
  assert (advances 0 k l k1 l) as Had by (by apply advances_store with c; [apply Hok|..|by left| |]).
  eapply wp_mono; [apply (schedule_kok k1 l o (ad_inv _ _ _ _ _ Had) (store_get _ _ _))|]. cbv beta. intros b k' (H1 & H2 & _). split; [|done].
  apply H1. right. done.
Qed.

Lemma wait_kok k l arg : kok k l -> wp (wait_round arg) (fun r k' => exists l', kok k' l' /\ pids_within 0 k k' /\
  (match r with Blocked true => True | _ => current_process k' = current_process k end)) k.
Proof.
  intros Hok. destruct (kok_get _ _ Hok) as (me & Hme & Hal). pose proof Hok as [Hk _].
  eapply wp_mono; [by apply (wait_round_outcome k l me arg)|]. cbv beta. unfold pids_within. intros [n code| |away] k'.
  - intros (z & p & l1 & l2 & El & (Hz & _) & Hd & _ & _ & Hk' & Hrm). exists (l1 ++ l2).
    assert (current_process k' = current_process k /\ next_pid (glob k') = next_pid (glob k)) as [Ec En] by (rewrite (rm_frame _ _ _ Hrm); done).
    split_and!; [|lia|lia|done]. split; [done|]. rewrite Ec. apply (kept_alive k); [|by apply Hok]. apply (rm_kept _ _ _ Hrm). intros E. rewrite E, Hz in Hme. injection Hme as ->. done.
  - intros [-> _]. exists l. split_and!; [done|lia|lia|done].
  - intros (Hk' & _ & _ & Es). exists l. set (k1 := blocked_for k me _) in *.
    assert (procs k1 !! current_process k1 = Some (set_state PROCESS_BLOCKED (set_wait (if arg =? 0 then WAIT_ANY_PID else arg) me))) as Hme1 by (unfold k1, blocked_for; cbn; by rewrite lookup_insert_eq).
    assert (kinv k1 l) as Hk1 by (by apply kinv_set with me; [..|by left| |]).
    pose proof (wp_run _ _ _ _ _ (schedule_kok k1 l _ Hk1 Hme1) Es) as (H1 & H2 & H3). split_and!; [|apply H2|apply H2|].
    + apply H1. left. split; [done|]. intros q Hq. rewrite Hme1 in Hq. by injection Hq as <-.
    + destruct away; [done|]. by rewrite H3.
Qed.

(** * The tick *)

Lemma tick_process_outcome k l p : kinv k l -> p ∈ l -> next_pid (glob k) + 1 < 2 ^ 32 ->
  wp (tick_process p) (fun r k' => exists l', goes_on 1 k l (match r with Some _ => Away | None => Ret tt end) k' l') k.
Proof.
  intros Hk Hp Hpid. destruct (ring_get _ _ _ (ki_ring _ _ Hk) Hp) as [o Ho]. unfold tick_process. wstep. wstep. wstep. apply (wp_getp _ o); [done|].
  wstep. set (o1 := if bool_decide (pstate o = PROCESS_SLEEPING) && (wakeup_tick o <=? pit_ticks (time k)) then set_state PROCESS_READY o else o).
  assert (advances 0 k l (store k p o1) l /\ sg o1 = sg o /\ pid o1 = pid o) as (H1 & Es & Ep).
  { subst o1. destruct (_ && _); (split; [|done]); (apply advances_store with o; [done|done|done|done|by split|by left|cbn; auto|cbn; auto]); done. }
  eapply wp_mono with (P := fun _ k1 => k1 = store k p o1).
  { subst o1. destruct (_ && _); [by apply (wp_setp _ o)|]. wstep. unfold store. rewrite insert_id by done. by destruct k. }
  intros _ k1 ->. set (k1 := store k p o1) in *. assert (procs k1 !! p = Some o1) as Ho1 by apply store_get. clearbody k1.
  destruct (negb (alarm_tick (sg o) =? 0) && (alarm_tick (sg o) <=? pit_ticks (time k))).
  - wstep. apply (wp_setp _ o1); [done|]. change (set_procs _ k1) with (store k1 p (set_sg (set_alarm 0 (sg o1)) o1)). set (k2 := store k1 _ _).
    assert (advances 0 k1 l k2 l) as H2 by (apply advances_store with o1; [apply H1|done|done|done|by split|by left|cbn; auto|cbn; auto]).
    pose proof (advances_trans _ _ _ _ _ _ _ _ H1 H2) as H02. wstep. eapply wp_mono; [apply (signal_outcome k2 l); [apply H2|]|].
    { pose proof (ad_pids _ _ _ _ _ H02). lia. }
    cbv beta. intros r k3 (l3 & H3). apply signalled_goes_on in H3; [|apply H2]. wstep. exists l3. destruct r; cbn [goes_on] in *.
    + by eapply advances_trans in H3; [|exact H02].
    + destruct H3 as [Hok Hn]. split; [done|]. pose proof (ad_pids _ _ _ _ _ H02). lia.
  - wstep. exists l. cbn. by apply (advances_le 0); [|lia].
Qed.

Lemma count_tick_outcome k l : kok k l -> wp count_tick (fun _ k' => advances 0 k l k' l) k.
Proof.
  intros Hok. destruct (kok_current _ _ Hok) as [Hc0 Hcl]. destruct (kok_get _ _ Hok) as (c & Hc & Hal). pose proof Hok as [Hk _].
  unfold count_tick, process_is_idle. wstep. wstep. wstep. wstep. set (k1 := set_time _ k).
  assert (advances 0 k l k1 l) as H1.
  { apply (evolves_advances relinked 0); [done| |done]. by apply evolves_frame; [apply _|..|by left|]. }
  wstep. wstep. rewrite (proj2 (Z.eqb_neq _ _)) by done. apply (wp_setp _ c); [done|].
  replace 0 with (0 + 0) by done. eapply advances_trans; [exact H1|]. change (set_procs _ k1) with (store k1 (current_process k1) (set_ticks (u64 (cpu_ticks c + 1)) c)).
  apply advances_store with c; [apply H1|done|done|done|by split|by left|cbn; auto|cbn; auto].
Qed.

Lemma walk_outcome k l : kinv k l -> next_pid (glob k) + 33 < 2 ^ 32 ->
  wp (ring_walk tick_process) (fun r k' => exists l', goes_on 33 k l (match r with Some _ => Away | None => Ret tt end) k' l') k.
Proof.
  intros Hk Hpid. apply (wp_ring_walk_grow (fun todo k' l' => exists n, advances n k l k' l' /\ n + zlen todo <= zlen l') _ k l); [done| | |].
  - exists 0. split; [by apply advances_refl|lia].
  - intros a todo k' l' Hk' [seen El] Hi (n & Had & Hn).
    assert (zlen l' <= 33) as Hl by (pose proof (tb_count _ _ _ (ki_table _ _ Hk')) as [_ Hc]; unfold MAX_PROCESSES in Hc; lia).
    assert (zlen (a :: todo) = 1 + zlen todo) as Ez by (unfold zlen; cbn [length]; lia). pose proof (zlen_nonneg todo). pose proof (ad_pids _ _ _ _ _ Had).
    eapply wp_mono; [apply (tick_process_outcome k' l' a Hk'); [rewrite El; set_solver|lia]|]. cbv beta. intros [x|] k'' (l'' & H'').
    + cbn in H''. destruct H'' as [Hok Hn'']. exists l''. cbn. split; [done|lia].
    + cbn in H''. destruct (ad_list _ _ _ _ _ H'') as [m ->]. exists m. split_and!; [apply H''|by rewrite (ad_idle _ _ _ _ _ H'')|]. exists (n + 1). split; [by eapply advances_trans|].
      unfold zlen in *. rewrite !length_app in *. cbn [length] in *. lia.
  - intros k' l' Hk' (n & Had & Hn). exists l'. cbn. apply (advances_le n); [done|].
    pose proof (tb_count _ _ _ (ki_table _ _ Hk')) as [_ Hc]. unfold MAX_PROCESSES in Hc. unfold zlen in Hn at 1. cbn in Hn. lia.
Qed.

Lemma ctrl_c_outcome k l : kok k l -> next_pid (glob k) + 1 < 2 ^ 32 ->
  wp shell_handle_ctrl_c (fun r k' => exists l', kok k' l' /\ pids_within 1 k k' /\ (r = Ret tt -> current_process k' = current_process k)) k.
Proof.
  intros Hok Hpid. pose proof Hok as [Hk _]. unfold shell_handle_ctrl_c, pids_within. wstep. wstep. destruct (foreground_pid (glob k) =? 0).
  { wstep. exists l. split_and!; [done|lia|lia|done]. }
  wstep. eapply wp_mono; [by apply (signal_outcome k l)|]. cbv beta. intros [v|] k1 (l1 & H); apply (signalled_goes_on _ _ _ _ _ _ _ Hk) in H; cbn [goes_on] in H.
  - pose proof (advances_kok _ _ _ _ _ Hok H) as Hok1. pose proof (ad_pids _ _ _ _ _ H). pose proof (ad_current _ _ _ _ _ H) as Ec. wstep.
    eapply wp_mono; [by apply (wait_kok k1 l1)|]. cbv beta. unfold pids_within. intros w k2 (l2 & Hok2 & Hn & Hw). wstep. exists l2. split_and!; [done|lia|lia|].
    destruct w as [? ?| |[]]; [congruence..|done|done].
  - wstep. destruct H as [H1 H2]. exists l1. split_and!; [done|lia|lia|done].
Qed.

Lemma timer_outcome k l u : kok k l -> next_pid (glob k) + 34 < 2 ^ 32 ->
  wp (timer_irq_handler u) (fun b k' => exists l', kok k' l' /\ pids_within 34 k k' /\ (b = true -> current_process k' = current_process k)) k.
Proof.
  intros Hok Hpid. unfold timer_irq_handler, pids_within. wstep. eapply wp_mono; [by apply (count_tick_outcome k l)|]. cbv beta. intros _ k1 H1.
  pose proof (advances_kok _ _ _ _ _ Hok H1) as Hok1. pose proof (ad_pids _ _ _ _ _ H1). wstep. eapply wp_mono; [apply (walk_outcome k1 l); [apply Hok1|lia]|]. cbv beta.
  intros [x|] k2 (l2 & H2); cbn [goes_on] in H2.
  { wstep. exists l2. split_and!; [apply H2|lia|lia|done]. }
  pose proof (advances_kok _ _ _ _ _ Hok1 H2) as [Hk2 Ha2]. pose proof (ad_pids _ _ _ _ _ H2).
  assert (current_process k2 = current_process k) as E2 by (by rewrite (ad_current _ _ _ _ _ H2), (ad_current _ _ _ _ _ H1)).
  wstep. eapply wp_mono; [by apply (reap_outcome k2 l2)|]. cbv beta. intros _ k3 (l3 & Hk3 & Hrp & Hal3).
  assert (current_process k3 = current_process k2 /\ next_pid (glob k3) = next_pid (glob k2)) as [E3 N3] by (rewrite (rp_else _ _ _ _ Hrp); done).
  assert (kok k3 l3) as Hok3 by (split; [done|]; apply Hal3, (tb_current _ _ _ (ki_table _ _ Hk3))).
  wstep. wstep. wstep. eapply wp_mono with (P := fun f k4 => exists l4, kok k4 l4 /\ pids_within 1 k3 k4 /\ (f = Ret tt -> current_process k4 = current_process k3)).
  { destruct (ctrl_c_pending (glob k3)); [|wstep; exists l3; unfold pids_within; split_and!; [done|lia|lia|done]]. unfold upd_glob. wstep. wstep. set (k4 := set_glob _ k3).
    assert (advances 0 k3 l3 k4 l3) as H4.
    { apply (evolves_advances relinked 0); [done|by apply evolves_glob; [apply _|..|by left]|]. intros E. by apply (proj1 (kok_current _ _ Hok3)). }
    apply (ctrl_c_outcome k4 l3); [by apply (advances_kok _ _ _ _ _ Hok3 H4)|]. cbn. lia. }
  unfold pids_within. intros [[]|] k4 (l4 & Hok4 & Hn4 & E4).
  2:{ wstep. exists l4. split_and!; [done|lia|lia|done]. }
  specialize (E4 eq_refl). wstep. wstep. destruct (u && negb (current_process k4 =? 0)); [|wstep; exists l4; split_and!; [done|lia|lia|intros _; congruence]].
  wstep. wstep. cbv zeta. set (n := u32 _).
  assert (forall x, advances 0 k4 l4 (set_time x k4) l4) as Hput.
  { intros x. apply (evolves_advances relinked 0); [apply Hok4| |]; [by apply evolves_frame; [apply _|apply Hok4|..|by left|]|]. intros E. by apply (proj1 (kok_current _ _ Hok4)). }
  destruct (n =? 0).
  - wstep. wstep. match goal with |- wp _ _ ?s => set (k5 := s) end. assert (kok k5 l4) as Hok5 by (by apply (advances_kok _ _ _ _ _ Hok4 (Hput _))).
    destruct (kok_get _ _ Hok5) as (c & Hc & _). wstep. eapply wp_mono; [by apply (schedule_kok k5 l4 c (proj1 Hok5))|]. cbv beta. unfold pids_within. intros away k6 (H6 & N6 & E6). wstep.
    exists l4. assert (next_pid (glob k5) = next_pid (glob k4)) as E5 by done. split_and!; [by apply H6; left|lia|lia|]. intros Hb. rewrite (E6 ltac:(by destruct away)). cbn. congruence.
  - wstep. wstep. wstep. exists l4. split_and!; [by apply (advances_kok _ _ _ _ _ Hok4 (Hput _))|cbn; lia|cbn; lia|]. intros _. cbn. congruence.
Qed.
End tick.
