(* ===== verification/ProcessSafe.v ===== *)
(** The safety theorem: whatever sequence of operations runs, no operation on processes faults, and the
    table of processes keeps its invariant; and what signals do to user code. *)

From S2P Require Import Prelude Interfaces Mailbox ProcessEnv Process ProcessRing ProcessSched ProcessInv ProcessLife ProcessCreate ProcessSteps ProcessExit ProcessSignals ProcessFork ProcessTick.

Section safe.
Context {R : Type} `{!ProcessEnv R}.
Implicit Types (k : kernel (R := R)).

(** * Operations *)

(** Everything a system call, the timer or the idle loop asks of the process manager. *)
Inductive kop :=
| Create (name : list Z) (entry : Z) | Fork (f : syscall_frame) | Exit (code : Z) | Signal (n sig : Z) | Kill (n : Z)
| Wait (n : Z) | WaitOn (n : Z) | Sleep (ms : Z) | Tick (from_user : bool) | Reap | Yield
| Sigaction (sig handler : Z) | Alarm (ms : Z) | Deliver (f : syscall_frame) | Sigreturn (f : syscall_frame)
| RegisterWm (n : Z) | UnregisterWm (n : Z) | RegisterNetd (n : Z) | UnregisterNetd (n : Z) | RegisterSoundd (n : Z) | UnregisterSoundd (n : Z)
| Foreground (caller target : Z) | List_ (max : Z).

Definition run_op (o : kop) : M kernel unit :=
  match o with
  | Create name entry => process_create name entry;; mret tt
  | Fork f => process_fork f;; mret tt
  | Exit code => process_exit code
  | Signal n sig => process_signal n sig;; mret tt
  | Kill n => process_kill n;; mret tt
  | Wait n => wait_round n;; mret tt
  | WaitOn n => wait_resume n;; mret tt
  | Sleep ms => process_sleep ms;; mret tt
  | Tick u => timer_irq_handler u;; mret tt
  | Reap => process_reap
  | Yield => schedule;; mret tt
  | Sigaction sig h => sys_sigaction sig h;; mret tt
  | Alarm ms => sys_alarm ms;; mret tt
  | Deliver f => process_deliver_pending_signal f;; mret tt
  | Sigreturn f => process_sigreturn f;; mret tt
  | RegisterWm n => process_wm_register n;; mret tt
  | UnregisterWm n => process_wm_unregister n;; mret tt
  | RegisterNetd n => process_netd_register n;; mret tt
  | UnregisterNetd n => process_netd_unregister n;; mret tt
  | RegisterSoundd n => process_soundd_register n;; mret tt
  | UnregisterSoundd n => process_soundd_unregister n;; mret tt
  | Foreground c t => process_set_foreground c t;; mret tt
  | List_ max => process_pslist max;; mret tt
  end.

(** Idle runs no user code, so it makes none of these calls. *)
Definition allowed k (o : kop) : Prop :=
  match o with Fork _ | Exit _ | Sleep _ => current_process k <> idle_process k | _ => True end.

Lemma wp_unit {A} (m : M kernel A) k (P : kernel (R := R) -> Prop) : wp m (fun _ => P) k -> wp (m;; mret tt) (fun _ => P) k.
Proof. intros H. wstep. eapply wp_mono; [exact H|]. cbv beta. intros _ k' H'. by wstep. Qed.

Lemma kok_glob k l g : kok k l -> process_count g = process_count (glob k) -> next_pid g = next_pid (glob k) -> kok (set_glob g k) l.
Proof.
  intros [Hk Ha] H1 H2. split; [|done]. apply (kinv_frame k); try done. destruct (tb_res _ _ _ (ki_table _ _ Hk)) as [O [O1 O2 O3 O4]]. by exists O.
Qed.

(** A store of the current process in its own record that leaves it what it is. *)
Lemma kok_self k l f : kok k l -> (forall c, procs k !! current_process k = Some c -> alike c (f c) /\ next (f c) = next c /\ ppid (f c) = ppid c /\ mbox (f c) = mbox c /\ pstate (f c) = pstate c) ->
  wp (setp (current_process k) f) (fun _ k' => kok k' l /\ glob k' = glob k /\ exists c, procs k !! current_process k = Some c /\ k' = store k (current_process k) (f c)) k.
Proof.
  intros Hok Hf. destruct (kok_get _ _ Hok) as (c & Hc & Hal). destruct (Hf c Hc) as (H1 & H2 & H3 & H4 & H5). apply (wp_setp _ c); [done|].
  change (set_procs _ k) with (store k (current_process k) (f c)). split; [|split; [done|by exists c]].
  eapply advances_kok; [exact Hok|]. apply (advances_store _ _ _ c); [apply Hok|done|done|done|done|by left|rewrite H5; auto|by rewrite H5].
Qed.

Lemma ancestor_outcome k l : kinv k l -> forall n caller walk, exists b, ancestor_loop n caller walk k = Some (b, k).
Proof.
  intros Hk. induction n as [|n IH]; intros caller walk; cbn [ancestor_loop]; [by exists false|].
  destruct (walk =? 0); [by exists false|]. destruct (walk =? caller); [by exists true|]. destruct (find_by_pid_outcome k l walk Hk) as (a & E & Hcase).
  rewrite (bind_Some _ _ _ _ _ E). destruct Hcase as [(Ha0 & Ha & p & Hp & _)|[-> _]]; [|by exists false].
  rewrite (proj2 (Z.eqb_neq _ _) Ha0), (bind_Some _ _ _ _ _ (getp_eq _ _ _ Hp)). apply IH.
Qed.

Lemma foreground_kok k l c t : kok k l -> wp (process_set_foreground c t) (fun _ k' => kok k' l /\ pids_within 0 k k') k.
Proof.
  intros Hok. pose proof Hok as [Hk _]. unfold process_set_foreground, pids_within, upd_glob. destruct (t =? 0); [wstep; wstep; wstep; split; [by apply kok_glob|cbn; lia]|].
  wstep. destruct (find_by_pid_outcome k l t Hk) as (a & E & Hcase). eapply wp_Some; [exact E|]. destruct Hcase as [(Ha0 & Ha & p & Hp & _)|[-> _]].
  2:{ rewrite Z.eqb_refl. wstep. split; [done|lia]. }
  rewrite (proj2 (Z.eqb_neq _ _) Ha0). wstep. apply (wp_getp _ p); [done|]. wstep. destruct (ancestor_outcome k l Hk (Z.to_nat MAX_PROCESSES) c (ppid p)) as [b Eb].
  eapply wp_Some; [exact Eb|]. destruct b; [wstep; wstep; wstep; split; [by apply kok_glob|cbn; lia]|wstep; split; [done|lia]].
Qed.

Lemma pslist_outcome k start : forall l p fuel room, lseg (links k) p l start -> l <> [] -> (0 ∉ l) -> (start ∉ List.tl l) -> (length l <= fuel)%nat ->
  exists r, pslist_loop fuel room start p k = Some (r, k).
Proof.
  induction l as [|a l IH]; intros p fuel room Hs Hne Hz Hnot Hf; [done|]. destruct fuel as [|fuel]; [cbn in Hf; lia|].
  destruct Hs as (-> & b & Hb & Hs). unfold links in Hb. rewrite lookup_fmap in Hb. destruct (procs k !! a) as [o|] eqn:Ea; [|done]. injection Hb as Eb.
  apply not_elem_of_cons in Hz as [_ Hz]. cbn [pslist_loop]. destruct (room =? 0); [by exists []|]. rewrite (bind_Some _ _ _ _ _ (getp_eq _ _ _ Ea)), Eb. cbn in Hnot.
  destruct l as [|c l]; [cbn in Hs; rewrite Hs, Z.eqb_refl, orb_true_r; by exists [ps_of o]|]. pose proof (lseg_head _ _ _ _ _ Hs) as ->.
  rewrite (proj2 (Z.eqb_neq c 0)), (proj2 (Z.eqb_neq c start)); cycle 1. { intros ->. apply Hnot, list_elem_of_here. } { intros ->. apply Hz, list_elem_of_here. }
  cbn [orb]. destruct (IH c fuel (room - 1) Hs) as [r Hr]; [done|done|intros H; by apply Hnot, list_elem_of_further|cbn in *; lia|].
  rewrite (bind_Some _ _ _ _ _ Hr). by exists (ps_of o :: r).
Qed.

Lemma pslist_kok k l max : kok k l -> exists r, process_pslist max k = Some (r, k).
Proof.
  intros [Hk _]. pose proof (ki_ring _ _ Hk) as Hr. destruct (ring_idle _ _ Hr) as [Hi0 _]. unfold process_pslist, gets, mbind, M_bind.
  rewrite (ring_list _ _ Hr), (proj2 (Z.eqb_neq _ _) Hi0), (ring_size _ _ Hr). pose proof (rg_seg _ _ Hr) as Hs. rewrite (ring_list _ _ Hr) in Hs.
  destruct (rg_head _ _ Hr) as [tl E]. pose proof (rg_nodup _ _ Hr) as Hnd. apply (pslist_outcome k _ l); [done|by rewrite E|apply (rg_nz _ _ Hr)| |done].
  rewrite E in Hnd |- *. by apply NoDup_cons in Hnd as [? _].
Qed.

(** * Every operation *)

Definition keeps_kok (m : M (kernel (R := R)) unit) : Prop := forall k l, kok k l -> next_pid (glob k) + 34 < 2 ^ 32 ->
  wp m (fun _ k' => exists l', kok k' l' /\ pids_within 34 k k') k.

Lemma create_kok k l name entry : kok k l -> next_pid (glob k) + 1 < 2 ^ 32 ->
  wp (process_create name entry) (fun _ k' => exists l', kok k' l' /\ pids_within 1 k k') k.
Proof.
  intros Hok Hp. destruct (kok_get _ _ Hok) as (c & Hc & _). pose proof Hok as [Hk _]. eapply wp_mono; [by apply (create_evolves k l name entry c)|]. cbv beta.
  intros x k' (l' & H & _). exists l'. split; [|apply (ev_pids _ _ _ _ _ _ _ H)].
  apply (advances_kok 1 k l); [done|]. apply (evolves_advances relinked 0); [done|done|]. intros E. by apply (proj1 (kok_current _ _ Hok)).
Qed.

Lemma signal_kok k l n sig : kok k l -> next_pid (glob k) + 1 < 2 ^ 32 -> wp (process_signal n sig) (fun _ k' => exists l', kok k' l' /\ pids_within 1 k k') k.
Proof.
  intros Hok Hp. pose proof Hok as [Hk _]. eapply wp_mono; [by apply (signal_outcome k l)|]. cbv beta. intros r k' (l' & H). exists l'. apply (signalled_goes_on _ _ _ _ _ _ _ Hk) in H.
  destruct r; cbn in H; [split; [by eapply advances_kok|apply (ad_pids _ _ _ _ _ H)]|done].
Qed.

Lemma exit_kok k l code : kok k l -> current_process k <> idle_process k -> next_pid (glob k) + 1 < 2 ^ 32 ->
  wp (process_exit code) (fun _ k' => exists l', kok k' l' /\ pids_within 1 k k') k.
Proof.
  intros Hok Hi Hp. destruct (kok_get _ _ Hok) as (c & Hc & _). destruct (kok_current _ _ Hok) as [Hc0 _]. unfold process_exit. wstep. wstep.
  rewrite (proj2 (Z.eqb_neq _ _) Hc0). eapply wp_mono; [by apply (bury_hand_over k l c code (proj1 Hok))|]. cbv beta. intros _ k' (l' & H). exists l'.
  split; [apply H|apply (de_pids _ _ _ _ _ _ _ H)].
Qed.

Lemma resume_kok k l n : kok k l -> wp (wait_resume n) (fun _ k' => exists l', kok k' l' /\ pids_within 0 k k') k.
Proof.
  intros Hok. unfold wait_resume. wstep. wstep. wstep. eapply wp_mono; [apply (kok_self k l (set_wait 0) Hok); intros; by split_and!; [split|..]|].
  cbv beta. intros _ k1 (H1 & G1 & _). eapply wp_mono; [by apply (wait_kok k1 l)|]. cbv beta. unfold pids_within. rewrite G1. intros r k2 (l2 & H2 & H3 & _). by exists l2.
Qed.

Lemma self_kok k l f : kok k l ->
  (forall c, procs k !! current_process k = Some c -> alike c (f c) /\ next (f c) = next c /\ ppid (f c) = ppid c /\ mbox (f c) = mbox c /\ pstate (f c) = pstate c) ->
  wp (setp (current_process k) f) (fun _ k' => exists l', kok k' l' /\ pids_within 34 k k') k.
Proof.
  intros Hok Hf. eapply wp_mono; [by apply (kok_self k l f)|]. cbv beta. unfold pids_within. intros _ k' (H & G & _). exists l. rewrite G. split; [done|lia].
Qed.

Lemma sigaction_kok sig h : keeps_kok (sys_sigaction sig h;; mret tt).
Proof.
  intros k l Hok Hp. apply wp_unit. destruct (kok_get _ _ Hok) as (c & Hc & _). destruct (kok_current _ _ Hok) as [Hc0 _]. unfold sys_sigaction. wstep. wstep.
  rewrite (proj2 (Z.eqb_neq _ _) Hc0). destruct (negb (sig =? SIGINT) && negb (sig =? SIGTERM) && negb (sig =? SIGALRM)) eqn:E.
  { wstep. exists l. unfold pids_within. split; [done|lia]. }
  assert (0 <= sig < MAX_SIGNUM) as Hs.
  { rewrite <- !negb_orb in E. apply negb_false_iff in E. rewrite !orb_true_iff, !Z.eqb_eq in E. unfold MAX_SIGNUM, SIGINT, SIGTERM, SIGALRM in *. lia. }
  wstep. apply (wp_getp _ c); [done|]. destruct (tb_sig _ _ _ (ki_table _ _ (proj1 Hok)) _ c Hc) as [Hl Hpend]. wstep.
  eapply wp_lift; [apply zset_in; by rewrite Hl|]. wstep. eapply wp_mono; [apply (self_kok k l _ Hok)|].
  - intros c' Hc'. rewrite Hc in Hc'. injection Hc' as <-. split_and!; [split; try done|done..]. intros _. split; [cbn; by rewrite zlen_insert|done].
  - cbv beta. intros _ k' H. by wstep.
Qed.

Lemma alarm_kok ms : keeps_kok (sys_alarm ms;; mret tt).
Proof.
  intros k l Hok Hp. apply wp_unit. destruct (kok_current _ _ Hok) as [Hc0 _]. unfold sys_alarm. wstep. wstep.
  rewrite (proj2 (Z.eqb_neq _ _) Hc0). wstep. wstep. wstep. eapply wp_mono; [apply (self_kok k l _ Hok); intros; by split_and!; [split|..]|].
  cbv beta. intros _ k' H. by wstep.
Qed.

Lemma deliver_kok f : keeps_kok (process_deliver_pending_signal f;; mret tt).
Proof.
  intros k l Hok Hp. apply wp_unit. destruct (kok_get _ _ Hok) as (c & Hc & _). destruct (kok_current _ _ Hok) as [Hc0 _].
  assert (exists l', kok k l' /\ pids_within 34 k k) as Hid by (exists l; unfold pids_within; split; [done|lia]).
  unfold process_deliver_pending_signal. wstep. wstep. rewrite (proj2 (Z.eqb_neq _ _) Hc0). wstep. apply (wp_getp _ c); [done|].
  destruct (pending_signal (sg c) =? 0); [by wstep|]. destruct (tb_sig _ _ _ (ki_table _ _ (proj1 Hok)) _ c Hc) as [Hl Hpend].
  destruct (zget_Some (signal_handlers (sg c)) (pending_signal (sg c))) as [h Hh]; [by rewrite Hl|]. wstep. eapply wp_lift; [exact Hh|].
  destruct (_ || _); [by wstep|]. wstep. eapply wp_mono; [apply (self_kok k l _ Hok)|].
  - intros c' Hc'. rewrite Hc in Hc'. injection Hc' as <-. split_and!; [split; done|done..].
  - cbv beta. intros _ k' H. by wstep.
Qed.

Lemma sigreturn_kok f : keeps_kok (process_sigreturn f;; mret tt).
Proof.
  intros k l Hok Hp. apply wp_unit. destruct (kok_get _ _ Hok) as (c & Hc & _). destruct (kok_current _ _ Hok) as [Hc0 _]. unfold process_sigreturn. wstep. wstep.
  rewrite (proj2 (Z.eqb_neq _ _) Hc0). wstep. apply (wp_getp _ c); [done|]. wstep. eapply wp_mono; [apply (self_kok k l _ Hok); intros; by split_and!; [split|..]|].
  cbv beta. intros _ k' H. by wstep.
Qed.

Lemma register_kok (v : kernel (R := R) -> Z) (test : Z -> bool) (g : globals -> globals) : (forall g', process_count (g g') = process_count g' /\ next_pid (g g') = next_pid g') ->
  keeps_kok ((w ← gets v; if test w then mret (-1) else upd_glob g;; mret 0);; mret tt).
Proof.
  intros Hg k l Hok Hp. apply wp_unit. wstep. wstep. destruct (test (v k)); [wstep; exists l; unfold pids_within; split; [done|lia]|].
  unfold upd_glob. wstep. wstep. wstep. destruct (Hg (glob k)) as [H1 H2]. exists l. split; [by apply kok_glob|]. unfold pids_within. cbn. lia.
Qed.

Lemma op_kok o k l : kok k l -> allowed k o -> next_pid (glob k) + 34 < 2 ^ 32 -> wp (run_op o) (fun _ k' => exists l', kok k' l' /\ pids_within 34 k k') k.
Proof.
  intros Hok Ha Hp. pose proof Hok as [Hk Hal]. destruct (kok_get _ _ Hok) as (c & Hc & Hst). unfold pids_within.
  destruct o; cbn [run_op allowed] in *.
  - apply wp_unit. eapply wp_mono; [apply (create_kok k l name entry Hok); lia|]. cbv beta. unfold pids_within. intros _ k' (l' & H & Hn). exists l'. split; [done|lia].
  - apply wp_unit. eapply wp_mono; [apply (fork_outcome k l f c Hk Hc Ha); lia|]. cbv beta. intros v k' (E & Hn & Hkept & H). 
    assert (alive k' (current_process k')) as Hal' by (rewrite E; apply (kept_alive k); [by apply Hkept, (tb_current _ _ _ (ki_table _ _ Hk))|done]).
    destruct H as [[_ Hk']|(x & q & _ & Hk' & _)]; [exists l|exists (l ++ [x])]; (split; [by split|lia]).
  - eapply wp_mono; [apply (exit_kok k l code Hok Ha); lia|]. cbv beta. unfold pids_within. intros _ k' (l' & H & Hn). exists l'. split; [done|lia].
  - apply wp_unit. eapply wp_mono; [apply (signal_kok k l n sig Hok); lia|]. cbv beta. unfold pids_within. intros _ k' (l' & H & Hn). exists l'. split; [done|lia].
  - apply wp_unit. eapply wp_mono; [apply (signal_kok k l n SIGKILL Hok); lia|]. cbv beta. unfold pids_within. intros _ k' (l' & H & Hn). exists l'. split; [done|lia].
  - apply wp_unit. eapply wp_mono; [by apply (wait_kok k l)|]. cbv beta. unfold pids_within. intros _ k' (l' & H & Hn & _). exists l'. split; [done|lia].
  - apply wp_unit. eapply wp_mono; [by apply (resume_kok k l)|]. cbv beta. unfold pids_within. intros _ k' (l' & H & Hn). exists l'. split; [done|lia].
  - apply wp_unit. eapply wp_mono; [by apply (sleep_kok k l)|]. cbv beta. unfold pids_within. intros _ k' (H & Hn). exists l. split; [done|lia].
  - apply wp_unit. eapply wp_mono; [by apply (timer_outcome k l)|]. cbv beta. unfold pids_within. intros _ k' (l' & H & Hn & _). exists l'. split; [done|lia].
  - eapply wp_mono; [by apply (reap_outcome k l)|]. cbv beta. intros _ k' (l' & Hk' & Hrp & Hal').
    assert (next_pid (glob k') = next_pid (glob k)) as En by (rewrite (rp_else _ _ _ _ Hrp); done).
    exists l'. split; [|lia]. split; [done|]. apply Hal', (tb_current _ _ _ (ki_table _ _ Hk')).
  - apply wp_unit. eapply wp_mono; [by apply (schedule_kok k l c)|]. cbv beta. unfold pids_within. intros _ k' (H & Hn & _). exists l. split; [apply H; by left|lia].
  - exact (sigaction_kok sig handler k l Hok Hp).
  - exact (alarm_kok ms k l Hok Hp).
  - exact (deliver_kok f k l Hok Hp).
  - exact (sigreturn_kok f k l Hok Hp).
  - by apply (register_kok (fun k => g_wm_pid (glob k)) (fun w => negb (w =? 0)) (fun g => set_daemons n (g_netd_pid g) (g_soundd_pid g) g) (fun g' => conj eq_refl eq_refl) k l Hok Hp).
  - by apply (register_kok (fun k => g_wm_pid (glob k)) (fun w => negb (w =? n)) (fun g => set_daemons 0 (g_netd_pid g) (g_soundd_pid g) g) (fun g' => conj eq_refl eq_refl) k l Hok Hp).
  - by apply (register_kok (fun k => g_netd_pid (glob k)) (fun w => negb (w =? 0)) (fun g => set_daemons (g_wm_pid g) n (g_soundd_pid g) g) (fun g' => conj eq_refl eq_refl) k l Hok Hp).
  - by apply (register_kok (fun k => g_netd_pid (glob k)) (fun w => negb (w =? n)) (fun g => set_daemons (g_wm_pid g) 0 (g_soundd_pid g) g) (fun g' => conj eq_refl eq_refl) k l Hok Hp).
  - by apply (register_kok (fun k => g_soundd_pid (glob k)) (fun w => negb (w =? 0)) (fun g => set_daemons (g_wm_pid g) (g_netd_pid g) n g) (fun g' => conj eq_refl eq_refl) k l Hok Hp).
  - by apply (register_kok (fun k => g_soundd_pid (glob k)) (fun w => negb (w =? n)) (fun g => set_daemons (g_wm_pid g) (g_netd_pid g) 0 g) (fun g' => conj eq_refl eq_refl) k l Hok Hp).
  - apply wp_unit. eapply wp_mono; [by apply (foreground_kok k l)|]. cbv beta. unfold pids_within. intros _ k' (H & Hn). exists l. split; [done|lia].
  - apply wp_unit. destruct (pslist_kok k l max Hok) as [r E]. eapply wp_Some; [exact E|]. exists l. split; [done|lia].
Qed.

(** * Reachable states *)

(** [n] operations lead from [k] to [k']. *)
Inductive runs k : nat -> kernel (R := R) -> Prop :=
| runs_0 : runs k 0 k
| runs_S n k1 k2 o : runs k n k1 -> allowed k1 o -> run_op o k1 = Some (tt, k2) -> runs k (S n) k2.

Lemma runs_kok k l n k' : kok k l -> next_pid (glob k) + 34 * Z.of_nat n < 2 ^ 32 -> runs k n k' -> exists l', kok k' l' /\ pids_within (34 * Z.of_nat n) k k'.
Proof.
  intros Hok Hp H. induction H as [|n k1 k2 o H IH Ha E]; [exists l; unfold pids_within; split; [done|lia]|].
  destruct IH as (l1 & Hok1 & Hn1); [lia|]. unfold pids_within in *. destruct (wp_run _ _ _ _ _ (op_kok o k1 l1 Hok1 Ha ltac:(lia)) E) as (l2 & Hok2 & Hn2).
  exists l2. unfold pids_within in Hn2. split; [done|lia].
Qed.


(** * Creation and waiting *)

Definition process_of k (a n : Z) : Prop := process_find_by_pid n k = Some (a, k).


(** C22: A round of [process_wait]: it takes a dead child that matches, with its exit code, and removes it
    from the table once; it fails exactly when there is no such child; otherwise the caller is blocked,
    and another process runs. *)
Theorem process_wait_correct k l me arg : kok k l -> procs k !! current_process k = Some me -> current_process k <> idle_process k ->
  wp (wait_round arg) (fun r k' => match r with
    | Reaped n code => exists z p l1 l2, l = l1 ++ z :: l2 /\ child_of k me arg z p /\ pstate p = PROCESS_TERMINATED /\ n = pid p /\ code = exit_code p /\
        kok k' (l1 ++ l2) /\ removed z k k' /\ (forall a q, procs k' !! a = Some q -> pid q <> n)
    | NoChild => k' = k /\ forall a p, ~ child_of k me arg a p
    | Blocked away => away = true /\ kok k' l /\ current_process k' <> current_process k /\ (exists a p, child_of k me arg a p) /\
        (forall a p, child_of k me arg a p -> pstate p <> PROCESS_TERMINATED) /\
        exists me', procs k' !! current_process k = Some me' /\ pstate me' = PROCESS_BLOCKED /\ wait_target_pid me' = (if arg =? 0 then WAIT_ANY_PID else arg)
    end) k.
Proof.
  intros Hok Hme Hi. pose proof Hok as [Hk Hal]. pose proof (Hal me Hme) as Hst.
  destruct (wp_inv _ _ _ (wait_kok k l arg Hok)) as (r0 & k0 & E0 & l0 & Hok0 & _). pose proof (wait_round_outcome k l me arg Hk Hme Hst) as H.
  eapply wp_Some; [exact E0|]. pose proof (wp_run _ _ _ _ _ H E0) as Hr. destruct r0 as [n code| |away]; [|done|].
  - destruct Hr as (z & p & l1 & l2 & El & Hch & Hd & -> & -> & Hk' & Hrm). exists z, p, l1, l2. assert (current_process k0 = current_process k) as Ec by (rewrite (rm_frame _ _ _ Hrm); done).
    assert (z <> current_process k) as Hzc by (intros ->; destruct Hch as [Hz _]; rewrite Hme in Hz; congruence).
    split_and!; [done|done|done|done|done| |done|].
    + split; [done|]. rewrite Ec. apply (kept_alive k); [|done]. by apply (rm_kept _ _ _ Hrm), not_eq_sym.
    + intros a q Hq E. assert (a <> z) as Haz by (intros ->; rewrite (rm_gone _ _ _ Hrm) in Hq; done). pose proof (rm_kept _ _ _ Hrm a Haz) as Hkp. rewrite Hq in Hkp.
      destruct (procs k !! a) as [q0|] eqn:Ea; [|done]. apply Haz. destruct Hch as [Hz _]. apply (tb_inj _ _ _ (ki_table _ _ Hk) a z q0 p Ea Hz).
      destruct Hkp as [m [->| ->]]; exact E.
  - destruct Hr as (Hk' & Hex & Hno & Es). set (t := if arg =? 0 then WAIT_ANY_PID else arg) in *.
    assert (procs (blocked_for k me t) !! current_process (blocked_for k me t) = Some (set_state PROCESS_BLOCKED (set_wait t me))) as Hme1 by (unfold blocked_for; cbn; by rewrite lookup_insert_eq).
    assert (kinv (blocked_for k me t) l) as Hk1 by (by apply kinv_set with me; [..|by left| |]).
    pose proof (wp_run _ _ _ _ _ (schedule_kinv _ l _ Hk1 Hme1) Es) as [_ Hs]. destruct away; [|by destruct Hs as [_ [?|[?|?]]]].
    destruct Hs as (nx & p & Hne & Hp & -> & Hor). change (current_process (blocked_for k me t)) with (current_process k) in *.
    split_and!; [done|exact (switch_kok (blocked_for k me t) l nx _ p Hk1 Hme1 Hp Hne)|done|done|done|]. unfold switch_result. cbn [procs]. rewrite lookup_insert_ne, lookup_insert_eq by done.
    eexists. split; [done|]. unfold left_by. rewrite bool_decide_eq_false_2 by done. done.
Qed.

(** * Signals and user code *)

Definition handler_frame (f : syscall_frame) (sig h stack : Z) : syscall_frame :=
  mk_frame (f_r9 f) (f_r8 f) (f_r10 f) (f_rdx f) (f_rsi f) sig (f_rax f) (f_r15 f) (f_r14 f) (f_r13 f) (f_r12 f) (f_rbp f) (f_rbx f) (f_rflags f) h (f_pad f) stack.

(** [f] as [syscall_entry] reloads it, whatever the slots it skips hold. *)
Definition same_return (f g : syscall_frame) : Prop :=
  g = mk_frame (f_r9 f) (f_r8 f) (f_r10 f) (f_rdx f) (f_rsi f) (f_rdi f) (f_rax g) (f_r15 f) (f_r14 f) (f_r13 f) (f_r12 f) (f_rbp f) (f_rbx f) (f_rflags f) (f_rip f) (f_pad g) (f_user_rsp f).

(** C26: The way into a signal handler and back.  Delivery changes only instruction pointer, stack pointer and
    first argument; [process_sigreturn], called with any frame in any later state in which the process was
    not delivered another signal, brings every register of the interrupted code back, except that
    rax is the number of the system call on whose way out the signal came, not its result. *)
Theorem signal_round_trip k l c f h : kok k l -> procs k !! current_process k = Some c -> pending_signal (sg c) <> 0 ->
  zget (signal_handlers (sg c)) (pending_signal (sg c)) = Some h -> h <> 0 -> in_signal_handler (sg c) = false -> sig_stack_top (img c) <> 0 ->
  wp (process_deliver_pending_signal f) (fun f1 k1 => f1 = handler_frame f (pending_signal (sg c)) h (sig_stack_top (img c)) /\
    forall k2 l2 c2 g, kok k2 l2 -> current_process k2 = current_process k1 -> procs k2 !! current_process k2 = Some c2 ->
      (exists c1, procs k1 !! current_process k1 = Some c1 /\ saved_signal_context (sg c2) = saved_signal_context (sg c1)) ->
      wp (process_sigreturn g) (fun r k3 => same_return f (snd r) /\ fst r = f_rax f /\ kok k3 l2 /\
        exists c3, procs k3 !! current_process k3 = Some c3 /\ in_signal_handler (sg c3) = false) k2) k.
Proof.
  intros Hok Hc Hp Hh Hh0 Hin Hst. destruct (kok_current _ _ Hok) as [Hc0 _]. unfold process_deliver_pending_signal. wstep. wstep.
  rewrite (proj2 (Z.eqb_neq _ _) Hc0). wstep. apply (wp_getp _ c); [done|]. rewrite (proj2 (Z.eqb_neq _ _) Hp). wstep. eapply wp_lift; [exact Hh|].
  rewrite (proj2 (Z.eqb_neq _ _) Hh0), Hin, (proj2 (Z.eqb_neq _ _) Hst). cbn [orb]. wstep. apply (wp_setp _ c); [done|]. wstep. split; [done|].
  intros k2 l2 c2 g Hok2 Ec Hc2 (c1 & Hc1 & Es). cbn [current_process set_procs procs] in Hc1. rewrite lookup_insert_eq in Hc1. injection Hc1 as <-. cbn [sg set_sg saved_signal_context set_saved] in Es.
  destruct (kok_current _ _ Hok2) as [Hc20 _]. unfold process_sigreturn. wstep. wstep. rewrite (proj2 (Z.eqb_neq _ _) Hc20). wstep. apply (wp_getp _ c2); [done|].
  wstep. eapply wp_mono; [apply (kok_self k2 l2 _ Hok2); intros; by split_and!; [split|..]|]. cbv beta. intros _ k3 (Hok3 & _ & c' & Hc' & ->). rewrite Hc2 in Hc'. injection Hc' as <-. wstep.
  rewrite Es. split_and!; [done|done|done|]. eexists. split; [cbn; by rewrite lookup_insert_eq|done].
Qed.
End safe.
