(* ===== verification/ProcessDemo.v ===== *)
(** Booting: [process_init] establishes the invariant.  A small system on the ledger of ProcessEnv, on
    which the theorems about processes are applied. *)

From S2P Require Import Prelude Interfaces Mailbox ProcessEnv Process ProcessRing ProcessSched ProcessInv ProcessLife ProcessCreate ProcessSteps ProcessExit ProcessSignals ProcessFork ProcessTick ProcessSafe.

Section boot.
Context {R : Type} `{!ProcessEnv R}.
Implicit Types (k : kernel (R := R)).

(** The static variables as the loader leaves them. *)
Record pristine k : Prop := {
  pr_procs : procs k = ∅;
  pr_ptrs : process_list k = 0 /\ current_process k = 0 /\ idle_process k = 0;
  pr_counts : next_pid (glob k) = 1 /\ process_count (glob k) = 0;
  pr_rest : pe_rep (rest k) ∅;
}.

Lemma boot_outcome k cr template : pristine k -> wp (process_init cr template) (fun _ k' =>
  (idle_process k' = 0 /\ procs k' = ∅) \/ (kok k' [idle_process k'] /\ current_process k' = idle_process k' /\ next_pid (glob k') = 1)) k.
Proof.
  intros [P1 (P2 & P3 & P4) [P5 P6] P7]. unfold process_init, upd_glob. wstep. wstep. wstep. apply wp_on_rest. eapply wp_mono; [apply (pe_kmalloc_law _ ∅ P7)|]. cbv beta.
  intros [[a [w saved]]|] r1 H1; [|wstep; by left]. destruct H1 as (Ha0 & _ & Hr1). wstep. eapply (wp_create RFpu); [apply pe_alloc_fpu_law|exact Hr1| |].
  { intros r2 Hr2. cbn [Z.eqb]. wstep. eapply wp_release; [apply pe_kfree_law|exact Hr2|set_solver|]. intros r3 Hr3. wstep. left. by cbn. }
  intros raw r2 Hraw _ Hr2. rewrite (proj2 (Z.eqb_neq _ _) Hraw). wstep. right. cbn [procs set_rest set_glob]. rewrite P1.
  match goal with |- kok ?s _ /\ _ => set (k' := s) end. set (o := mk_process 0 0 _ _ _ _ _ _ _ _ _ _ _ _ _ _ _ _ _ _) in k'.
  assert (forall x p, procs k' !! x = Some p -> x = a /\ p = o) as Hone by (intros x p Hx; subst k'; cbn in Hx; apply lookup_singleton_Some in Hx as [<- <-]; done).
  assert (procs k' !! a = Some o) as Ho by (subst k'; cbn; by rewrite lookup_insert_eq).
  assert (forall x, is_Some (procs k' !! x) <-> x ∈ [a]) as Hdom.
  { intros x. rewrite list_elem_of_singleton. split; [by intros [p [-> _]%Hone]|intros ->; by eexists]. }
  split_and!; [|done|done]. split; [split|]; [split| |].
  - split; [done|]. exists a. split; [|done]. unfold links. rewrite lookup_fmap. change (idle_process k') with a. by rewrite Ho.
  - apply NoDup_singleton.
  - by exists [].
  - intros H%list_elem_of_singleton. done.
  - done.
  - split; try done.
    + apply NoDup_singleton.
    + intros H%list_elem_of_singleton. done.
    + apply list_elem_of_here.
    + apply list_elem_of_here.
    + change (process_count (glob k) + 1 = zlen [a] /\ zlen [a] <= MAX_PROCESSES + 1). by rewrite P6.
    + intros x p [-> ->]%Hone. change (idle_process k') with a. by rewrite Z.eqb_refl.
    + intros x y p q [-> _]%Hone [-> _]%Hone. done.
    + change (0 < next_pid (glob k)). lia.
    + by intros p [_ ->]%Hone.
    + by intros x p [-> ->]%Hone.
    + intros x p [-> ->]%Hone. apply no_mailbox_ok.
    + intros x p [-> ->]%Hone. split; [done|cbn; unfold MAX_SIGNUM; lia].
    + eexists. split.
      * exact Hr2.
      * intros x. rewrite list_elem_of_singleton. change (idle_process k') with a. set_solver.
      * intros x p Hx _ [-> _]%Hone. by destruct Hx.
      * intros x y p q Hx _ [-> _]%Hone. by destruct Hx.
  - intros p [_ ->]%Hone. done.
Qed.

(** [process_init], on the static variables as loaded, leaves either no idle process at all, when memory is
    missing, or a table that satisfies the invariant, with idle as its only and current process. *)
Theorem process_init_correct k cr template : pristine k -> wp (process_init cr template) (fun _ k' =>
  (idle_process k' = 0 /\ procs k' = ∅) \/ (kok k' [idle_process k'] /\ current_process k' = idle_process k' /\ next_pid (glob k') = 1)) k.
Proof. apply boot_outcome. Qed.
End boot.

(** * A run *)

Definition state_after {St A} (m : M St A) (s : St) : St := match m s with Some (_, s') => s' | None => s end.

Lemma wp_after {St A} (m : M St A) (Q : St -> Prop) s : wp m (fun _ => Q) s -> Q (state_after m s).
Proof. unfold wp, state_after. by destruct (m s) as [[x s']|]. Qed.

Definition power_on : kernel (R := ledger) :=
  mk_kernel ∅ 0 0 0 0 (mk_cpu no_regs [] false 0 0) (mk_clock 0 0 0 PREEMPT_TIMESLICE_TICKS)
    (mk_globals 1 0 0 0 0 0 false false false [] 0) (mk_ledger ∅ 0 100).
Definition booted : kernel := state_after (process_init 4096 []) power_on.

Lemma power_on_pristine : pristine power_on.
Proof. split; [done..|]. split_and!; [done|done|]. intros o Ho. set_solver. Qed.

Lemma booted_kok : exists l, kok booted l.
Proof.
  pose proof (wp_after _ _ _ (boot_outcome power_on 4096 [] power_on_pristine)) as H. fold booted in H. exists [idle_process booted].
  destruct H as [[H _]|[H _]]; [|exact H]. assert (idle_process booted = 1) as E by (vm_compute; reflexivity). congruence.
Qed.

(** The state after some operations. *)
Definition then_ (k : kernel (R := ledger)) (o : kop) : kernel := state_after (run_op o) k.

Lemma then_kok k o : (exists l, kok k l) -> allowed k o -> next_pid (glob k) + 34 < 2 ^ 32 -> exists l, kok (then_ k o) l.
Proof.
  intros [l Hok] Ha Hp. pose proof (wp_after _ _ _ (op_kok o k l Hok Ha Hp)) as (l' & H & _). by exists l'.
Qed.

(** Two processes, created by idle, and then the first of them runs. *)
Definition two : kernel := then_ (then_ booted (Create [0x61] 0x400000)) (Create [0x62] 0x400000).
Definition running : kernel := then_ two Yield.
(** It forks, and has a handler for SIGINT, which is pending. *)
Definition no_frame : syscall_frame := mk_frame 0 0 0 0 0 0 57 0 0 0 0 0 0 0x202 0x400010 0 0x7000.
Definition forked : kernel := then_ running (Fork no_frame).
Definition alarmed : kernel := then_ (then_ forked (Sigaction SIGINT 0x400100)) (Signal 1 SIGINT).
(** Its child, once it runs, exits. *)
Definition child_runs : kernel := then_ (then_ forked Yield) Yield.
Definition child_dead : kernel := then_ child_runs (Exit 3).

Ltac allowed_now := vm_compute; first [reflexivity | exact I | let E := fresh in intros E; discriminate E | lia].

Lemma two_kok : exists l, kok two l.
Proof. apply then_kok; [apply then_kok; [apply booted_kok|done|allowed_now]|done|allowed_now]. Qed.
Lemma running_kok : exists l, kok running l.
Proof. apply then_kok; [apply two_kok|done|allowed_now]. Qed.
Lemma forked_kok : exists l, kok forked l.
Proof. apply then_kok; [apply running_kok|allowed_now|allowed_now]. Qed.
Lemma alarmed_kok : exists l, kok alarmed l.
Proof. apply then_kok; [apply then_kok; [apply forked_kok|done|allowed_now]|done|allowed_now]. Qed.
Lemma child_runs_kok : exists l, kok child_runs l.
Proof. apply then_kok; [apply then_kok; [apply forked_kok|done|allowed_now]|done|allowed_now]. Qed.
Lemma child_dead_kok : exists l, kok child_dead l.
Proof. apply then_kok; [apply child_runs_kok|allowed_now|allowed_now]. Qed.

(** The parent waits for any child, the others run, the child is about to exit. *)
Definition awaited : kernel := then_ (then_ forked (Wait 0)) Yield.
Lemma awaited_kok : exists l, kok awaited l.
Proof. apply then_kok; [apply then_kok; [apply forked_kok|done|allowed_now]|done|allowed_now]. Qed.

Lemma state_at (k : kernel (R := ledger)) a st : pstate <$> procs k !! a = Some st -> exists p, procs k !! a = Some p /\ pstate p = st.
Proof. destruct (procs k !! a) as [p|]; [|done]. cbn. intros [= <-]. by exists p. Qed.

(** * The theorems at work *)

Lemma process_init_witness : pristine power_on /\ (idle_process booted = 0 \/ kok booted [idle_process booted]).
Proof.
  split; [exact power_on_pristine|]. pose proof (wp_after _ _ _ (process_init_correct power_on 4096 [] power_on_pristine)) as H. fold booted in H.
  destruct H as [[H _]|[H _]]; [left|right]; exact H.
Defined.

Lemma schedule_witness : exists l c away k', kinv two l /\ procs two !! current_process two = Some c /\ schedule two = Some (away, k') /\ kinv k' l.
Proof.
  destruct two_kok as [l Hok]. destruct (kok_get _ _ Hok) as (c & Hc & _). destruct (wp_inv _ _ _ (schedule_correct two l c (proj1 Hok) Hc)) as (away & k' & E & Hk' & _).
  exists l, c, away, k'. exact (conj (proj1 Hok) (conj Hc (conj E Hk'))).
Defined.

(** From idle, the second process is passed over once. *)
Lemma overtaken_once : exists k', overtaken 7 two 1 k'.
Proof.
  destruct two_kok as [l Hok]. destruct (kok_get _ _ Hok) as (c & Hc & _).
  destruct (wp_inv _ _ _ (schedule_kinv two l c (proj1 Hok) Hc)) as (away & k' & E & _). exists k'.
  apply (overtaken_S _ _ 0 two two away k'); [constructor| |exact E|].
  - split; [reflexivity..|]. apply (state_at two 7 PROCESS_READY). vm_compute. reflexivity.
  - replace k' with (state_after schedule two) by (unfold state_after; rewrite E; reflexivity). vm_compute. intros H. discriminate H.
Qed.

Lemma schedule_bounded_waiting_witness : exists (l : list Z) k', overtaken 7 two 1 k' /\ (1 < length l)%nat.
Proof.
  destruct two_kok as [l [Hk Ha]]. destruct overtaken_once as [k' Ho]. exists l, k'. split; [exact Ho|].
  apply (schedule_bounded_waiting two l 7 1 k' (ki_ring _ _ Hk) (kinv_len _ _ Hk) (tb_current _ _ _ (ki_table _ _ Hk))); [|vm_compute; lia..|exact Ho].
  apply (tb_dom _ _ _ (ki_table _ _ Hk)). destruct (state_at two 7 PROCESS_READY) as (p & Hp & _); [vm_compute; reflexivity|exists p; exact Hp].
Defined.

Lemma process_reap_witness : exists l l' k', kinv child_dead l /\ process_reap child_dead = Some (tt, k') /\ kinv k' l' /\ reaped child_dead k' l l'.
Proof.
  destruct child_dead_kok as [l [Hk Ha]]. destruct (wp_inv _ _ _ (process_reap_correct child_dead l Hk Ha)) as ([] & k' & E & l' & Hk' & Hr & _).
  exists l, l', k'. exact (conj Hk (conj E (conj Hk' Hr))).
Defined.



Lemma process_exit_witness : exists l c k', kok awaited l /\ procs awaited !! current_process awaited = Some c /\ process_exit 3 awaited = Some (tt, k') /\
  exists l', dead (current_process awaited) 3 c awaited l k' l'.
Proof.
  destruct awaited_kok as [l Hok]. destruct (kok_get _ _ Hok) as (c & Hc & _).
  destruct (wp_inv _ _ _ (process_exit_correct awaited l c 3 Hok Hc ltac:(allowed_now) ltac:(vm_compute; reflexivity))) as ([] & k' & E & H).
  exists l, c, k'. exact (conj Hok (conj Hc (conj E H))).
Defined.

Lemma process_wait_witness : exists l r k', kok child_dead l /\ wait_round 0 child_dead = Some (r, k') /\ (r = NoChild -> k' = child_dead).
Proof.
  destruct child_dead_kok as [l Hok]. destruct (kok_get _ _ Hok) as (c & Hc & _).
  destruct (wp_inv _ _ _ (process_wait_correct child_dead l c 0 Hok Hc ltac:(allowed_now))) as (r & k' & E & H). exists l, r, k'.
  split; [exact Hok|]. split; [exact E|]. intros ->. apply H.
Defined.

Lemma process_signal_witness : exists l r k', kok forked l /\ process_signal 3 SIGTERM forked = Some (r, k') /\ exists l', kok k' l'.
Proof.
  destruct forked_kok as [l Hok]. destruct (wp_inv _ _ _ (process_signal_correct forked l 3 SIGTERM Hok ltac:(vm_compute; reflexivity))) as (r & k' & E & l' & _ & H).
  exists l, r, k'. split; [exact Hok|]. split; [exact E|]. exists l'. exact H.
Defined.


Lemma signal_round_trip_witness : exists l c f1 k1, kok alarmed l /\ procs alarmed !! current_process alarmed = Some c /\
  process_deliver_pending_signal no_frame alarmed = Some (f1, k1) /\ f1 = handler_frame no_frame (pending_signal (sg c)) 0x400100 (sig_stack_top (img c)).
Proof.
  destruct alarmed_kok as [l Hok]. destruct (kok_get _ _ Hok) as (c & Hc & _).
  assert ((fun p => (pending_signal (sg p), zget (signal_handlers (sg p)) (pending_signal (sg p)), in_signal_handler (sg p), sig_stack_top (img p) =? 0)) <$> procs alarmed !! current_process alarmed =
    Some (2, Some 0x400100, false, false)) as E by (vm_compute; reflexivity).
  rewrite Hc in E. cbn in E. injection E as E1 E2 E3 E4. apply Z.eqb_neq in E4.
  destruct (wp_inv _ _ _ (signal_round_trip alarmed l c no_frame 0x400100 Hok Hc ltac:(rewrite E1; discriminate) E2 ltac:(discriminate) E3 E4)) as (f1 & k1 & E & H & _).
  exists l, c, f1, k1. exact (conj Hok (conj Hc (conj E H))).
Defined.
