(* ===== verification/Input.v ===== *)
(** Model of the input devices: kernel/drivers/keyboard/keyboard.c, kernel/drivers/mouse/mouse.c,
    kernel/drivers/usb/usb_hid.c and the event layer kernel/drivers/input/input.c.

    Scan codes, mouse bytes and HID reports become key and pointer events, which go to the window server
    when one is registered and to /dev/console otherwise.  The 8042 controller is reached through its
    ports; what the layer relies on elsewhere (timer, console, mailboxes) is the class [InputEnv]. *)

From S2P Require Import Prelude.

Definition PS2_DATA_PORT : Z := 0x60.
Definition PS2_STATUS_PORT : Z := 0x64.
Definition PS2_COMMAND_PORT : Z := 0x64.
Definition KEY_LEFT_ARROW : Z := 1.
Definition KEY_RIGHT_ARROW : Z := 2.
Definition KEY_UP_ARROW : Z := 3.
Definition KEY_DOWN_ARROW : Z := 4.
Definition KEY_CTRL_C : Z := 5.
Definition KEY_DEBOUNCE_TICKS : Z := 1.
Definition WM_INPUT_KEY : Z := 100.
Definition WM_INPUT_MOUSE : Z := 101.
Definition PS2_TIMEOUT_ITERS : Z := 200000.
Definition HID_REPEAT_INITIAL_DELAY_TICKS : Z := 50.
Definition HID_REPEAT_RATE_TICKS : Z := 5.

(** * What the layer relies on

    [ie_in] and [ie_out] are the port instructions; [ie_push] is [console_input_push], [ie_send] is
    [mailbox_send] from the kernel to the given process; [ie_screen] the screen size in pixels.  The
    calls return, and none of them changes the registered window server, the clock or the screen. *)
Class InputEnv (E : Type) := {
  ie_in : Z -> M E Z;
  ie_out : Z -> Z -> M E unit;
  ie_ticks : E -> Z;
  ie_wm_pid : E -> Z;
  ie_screen : E -> Z * Z;
  ie_is_scrolled : E -> bool;
  ie_push : Z -> M E unit;
  ie_send : Z -> list Z -> M E unit;
  ie_scroll_up : M E unit;
  ie_scroll_down : M E unit;
  ie_scroll_to_bottom : M E unit;
  ie_ctrl_c : M E unit;
  ie_ready : E -> Prop;
  ie_same e e' := ie_ticks e' = ie_ticks e /\ ie_wm_pid e' = ie_wm_pid e /\ ie_screen e' = ie_screen e;
  ie_in_spec : forall p e, ie_ready e -> wp (ie_in p) (fun r e' => is_u8 r /\ ie_ready e' /\ ie_same e e') e;
  ie_out_spec : forall p v e, ie_ready e -> wp (ie_out p v) (fun _ e' => ie_ready e' /\ ie_same e e') e;
  ie_push_spec : forall b e, ie_ready e -> is_u8 b -> wp (ie_push b) (fun _ e' => ie_ready e' /\ ie_same e e') e;
  ie_send_spec : forall n r e, ie_ready e -> zlen r = 92 -> wp (ie_send n r) (fun _ e' => ie_ready e' /\ ie_same e e') e;
  ie_view_spec : forall m e, ie_ready e -> (m = ie_scroll_up \/ m = ie_scroll_down \/ m = ie_scroll_to_bottom \/ m = ie_ctrl_c) ->
    wp m (fun _ e' => ie_ready e' /\ ie_same e e') e;
}.

(** * State *)

(** The static variables of keyboard.c. *)
Record keyboard := mk_kbd {
  shift_pressed : bool;
  caps_lock : bool;
  ctrl_pressed : bool;
  alt_pressed : bool;
  extended_scancode : bool;
  keyboard_initialized : bool;
  down_key_for_scancode : list Z;      (* 128 entries *)
}.

Definition set_shift (b : bool) (k : keyboard) : keyboard :=
  mk_kbd b (caps_lock k) (ctrl_pressed k) (alt_pressed k) (extended_scancode k) (keyboard_initialized k) (down_key_for_scancode k).
Definition set_caps (b : bool) (k : keyboard) : keyboard :=
  mk_kbd (shift_pressed k) b (ctrl_pressed k) (alt_pressed k) (extended_scancode k) (keyboard_initialized k) (down_key_for_scancode k).
Definition set_ctrl (b : bool) (k : keyboard) : keyboard :=
  mk_kbd (shift_pressed k) (caps_lock k) b (alt_pressed k) (extended_scancode k) (keyboard_initialized k) (down_key_for_scancode k).
Definition set_alt (b : bool) (k : keyboard) : keyboard :=
  mk_kbd (shift_pressed k) (caps_lock k) (ctrl_pressed k) b (extended_scancode k) (keyboard_initialized k) (down_key_for_scancode k).
Definition set_extended (b : bool) (k : keyboard) : keyboard :=
  mk_kbd (shift_pressed k) (caps_lock k) (ctrl_pressed k) (alt_pressed k) b (keyboard_initialized k) (down_key_for_scancode k).
Definition set_kbd_init (b : bool) (k : keyboard) : keyboard :=
  mk_kbd (shift_pressed k) (caps_lock k) (ctrl_pressed k) (alt_pressed k) (extended_scancode k) b (down_key_for_scancode k).
Definition set_down (l : list Z) (k : keyboard) : keyboard :=
  mk_kbd (shift_pressed k) (caps_lock k) (ctrl_pressed k) (alt_pressed k) (extended_scancode k) (keyboard_initialized k) l.

(** The last key event, for the filter of duplicates. *)
Record last_event := mk_last { last_key : Z; last_pressed : Z; last_key_tick : Z }.

Record cursor := mk_cursor { mouse_x : Z; mouse_y : Z; mouse_buttons : Z }.

(** The static variables of mouse.c. *)
Record ps2_mouse := mk_mouse { mouse_initialized : bool; packet : list Z; packet_index : Z }.

(** [hid_repeat_slot_t]: usage (0 when free) and the tick of the next repetition. *)
Record repeat_slot := mk_slot { usage : Z; next_repeat_tick : Z }.

Record input {E : Type} := mk_input {
  kbd : keyboard;
  last : last_event;
  pointer : cursor;
  mouse : ps2_mouse;
  repeat_slots : list repeat_slot;     (* 6 slots *)
  env : E;
}.
Arguments input : clear implicits.

(** The state when the kernel starts. *)
Definition kbd0 : keyboard := mk_kbd false false false false false false (replicate 128 0).
Definition input0 {E} (e : E) : input E :=
  mk_input _ kbd0 (mk_last 0 (-1) 0) (mk_cursor 0 0 0) (mk_mouse false [0; 0; 0] 0) (replicate 6 (mk_slot 0 0)) e.

(** * Scan codes *)

Definition scancode_to_char : list Z :=
  [0; 27; 49; 50; 51; 52; 53; 54; 55; 56; 57; 48; 45; 61; 8; 9; 113; 119; 101; 114; 116; 121; 117; 105; 111; 112; 91; 93;
   10; 0; 97; 115; 100; 102; 103; 104; 106; 107; 108; 59; 39; 96; 0; 92; 122; 120; 99; 118; 98; 110; 109; 44; 46; 47; 0; 42;
   0; 32] ++ replicate 70 0.

Definition scancode_to_char_shift : list Z :=
  [0; 27; 33; 64; 35; 36; 37; 94; 38; 42; 40; 41; 95; 43; 8; 9; 81; 87; 69; 82; 84; 89; 85; 73; 79; 80; 123; 125;
   10; 0; 65; 83; 68; 70; 71; 72; 74; 75; 76; 58; 34; 126; 0; 124; 90; 88; 67; 86; 66; 78; 77; 60; 62; 63; 0; 42;
   0; 32] ++ replicate 70 0.

(** The end of [keyboard_scancode_to_key]: a key of the tables is pressed. *)
Definition table_key (sc : Z) : M keyboard (Z * Z) :=
  if sc <? 128 then
    k ← get;
    let letter := ((0x10 <=? sc) && (sc <=? 0x19)) || ((0x1E <=? sc) && (sc <=? 0x26)) || ((0x2C <=? sc) && (sc <=? 0x32)) in
    let use_upper := if letter then xorb (shift_pressed k) (caps_lock k) else shift_pressed k in
    c ← lift (zget (if use_upper then scancode_to_char_shift else scancode_to_char) sc);
    d ← lift (zset (down_key_for_scancode k) sc c);
    modify (set_down d);;
    mret (c, 1)
  else mret (0, 1).

(** The key code, 0 for none, and [*out_pressed]. *)
Definition keyboard_scancode_to_key (sc : Z) : M keyboard (Z * Z) :=
  if sc =? 0xE0 then modify (set_extended true);; mret (0, 1) else
  if negb (Z.land sc 0x80 =? 0) then
    let keycode := Z.land sc 0x7F in
    k ← get;
    if extended_scancode k then
      modify (set_extended false);;
      if keycode =? 0x1D then modify (set_ctrl false);; mret (0, 0) else
      if keycode =? 0x38 then modify (set_alt false);; mret (0, 0) else
      mret (if keycode =? 0x4B then KEY_LEFT_ARROW else if keycode =? 0x4D then KEY_RIGHT_ARROW else
            if keycode =? 0x48 then KEY_UP_ARROW else if keycode =? 0x50 then KEY_DOWN_ARROW else 0, 0)
    else
    if (keycode =? 0x2A) || (keycode =? 0x36) then modify (set_shift false);; mret (0, 0) else
    if keycode =? 0x1D then modify (set_ctrl false);; mret (0, 0) else
    if keycode =? 0x38 then modify (set_alt false);; mret (0, 0) else
    if keycode <? 128 then
      key ← lift (zget (down_key_for_scancode k) keycode);
      d ← lift (zset (down_key_for_scancode k) keycode 0);
      modify (set_down d);;
      mret (key, 0)
    else mret (0, 0)
  else
  k ← get;
  if negb (extended_scancode k) then
    if (sc =? 0x2A) || (sc =? 0x36) then modify (set_shift true);; mret (0, 1) else
    if sc =? 0x3A then modify (set_caps (negb (caps_lock k)));; mret (0, 1) else
    if sc =? 0x1D then modify (set_ctrl true);; mret (0, 1) else
    if sc =? 0x38 then modify (set_alt true);; mret (0, 1) else
    if (sc =? 0x2E) && ctrl_pressed k then mret (KEY_CTRL_C, 1) else
    table_key sc
  else
    modify (set_extended false);;
    if sc =? 0x1D then modify (set_ctrl true);; mret (0, 1) else
    if sc =? 0x38 then modify (set_alt true);; mret (0, 1) else
    mret (if sc =? 0x4B then KEY_LEFT_ARROW else if sc =? 0x4D then KEY_RIGHT_ARROW else
          if sc =? 0x48 then KEY_UP_ARROW else if sc =? 0x50 then KEY_DOWN_ARROW else 0, 1).

Section input.
Context {E : Type} `{!InputEnv E}.

Definition on_env {A} (m : M E A) : M (input E) A := fun s =>
  match m (env s) with
  | Some (a, e) => Some (a, mk_input _ (kbd s) (last s) (pointer s) (mouse s) (repeat_slots s) e)
  | None => None
  end.
Definition on_kbd {A} (m : M keyboard A) : M (input E) A := fun s =>
  match m (kbd s) with
  | Some (a, k) => Some (a, mk_input _ k (last s) (pointer s) (mouse s) (repeat_slots s) (env s))
  | None => None
  end.
Definition set_last (l : last_event) (s : input E) : input E := mk_input _ (kbd s) l (pointer s) (mouse s) (repeat_slots s) (env s).
Definition set_pointer (c : cursor) (s : input E) : input E := mk_input _ (kbd s) (last s) c (mouse s) (repeat_slots s) (env s).
Definition set_mouse (m : ps2_mouse) (s : input E) : input E := mk_input _ (kbd s) (last s) (pointer s) m (repeat_slots s) (env s).
Definition set_slots (l : list repeat_slot) (s : input E) : input E := mk_input _ (kbd s) (last s) (pointer s) (mouse s) l (env s).

Definition inb (port : Z) : M (input E) Z := on_env (ie_in port).
Definition outb (port v : Z) : M (input E) unit := on_env (ie_out port v).

(** * Key events *)

(** The bytes of a [wm_request_t] with [opcode] and the first words of [a] set, the rest zero. *)
Definition word32 (x : Z) : list Z := [u8 x; u8 (Z.shiftr x 8); u8 (Z.shiftr x 16); u8 (Z.shiftr x 24)].
Definition wm_request (opcode a0 a1 a2 : Z) : list Z := word32 opcode ++ word32 a0 ++ word32 a1 ++ word32 a2 ++ replicate 76 0.

Definition keyboard_ctrl_pressed : M (input E) bool := gets (fun s => ctrl_pressed (kbd s)).
Definition keyboard_set_ctrl_state (b : bool) : M (input E) unit := on_kbd (modify (set_ctrl b)).
Definition keyboard_is_initialized : M (input E) bool := gets (fun s => keyboard_initialized (kbd s)).

(** The console's part of [input_keyboard_event_ex]: the line editor's stream, then scrolling and Ctrl+C. *)
Definition console_key (key : Z) : M (input E) unit :=
  ctrl ← keyboard_ctrl_pressed;
  (if (key =? KEY_UP_ARROW) || (key =? KEY_DOWN_ARROW) then
     if (ctrl : bool) then mret tt else on_env (ie_push (u8 key))
   else if key =? KEY_CTRL_C then mret tt
   else on_env (ie_push (u8 key)));;
  if (key =? KEY_UP_ARROW) && ctrl then on_env ie_scroll_up else
  if (key =? KEY_DOWN_ARROW) && ctrl then on_env ie_scroll_down else
  if key =? KEY_CTRL_C then
    scrolled ← gets (fun s => ie_is_scrolled (env s));
    (if (scrolled : bool) then on_env ie_scroll_to_bottom else mret tt);;
    on_env ie_ctrl_c
  else mret tt.

Definition is_duplicate (key pressed now : Z) (l : last_event) : bool :=
  (key =? last_key l) && (pressed =? last_pressed l) && (u64 (now - last_key_tick l) <? KEY_DEBOUNCE_TICKS).

Definition input_keyboard_event_ex (key pressed : Z) : M (input E) unit :=
  if key =? 0 then mret tt else
  now ← gets (fun s => ie_ticks (env s));
  l ← gets last;
  modify (set_last (mk_last key pressed now));;
  if is_duplicate key pressed now l then mret tt else
  wm ← gets (fun s => ie_wm_pid (env s));
  if negb (wm =? 0) then on_env (ie_send wm (wm_request WM_INPUT_KEY key pressed 0)) else
  if pressed =? 0 then mret tt else
  console_key key.

Definition input_keyboard_event (key : Z) : M (input E) unit := input_keyboard_event_ex key 1.

Definition keyboard_read_scancode : M (input E) Z := inb PS2_DATA_PORT.

(** One scan code, from the port to the event. *)
Definition keyboard_byte : M (input E) unit :=
  sc ← keyboard_read_scancode;
  '(key, pressed) ← on_kbd (keyboard_scancode_to_key sc);
  input_keyboard_event_ex key pressed.

(** The loop runs while the controller has output; [fuel] bounds the number of bytes. *)
Fixpoint keyboard_irq_handler (fuel : nat) : M (input E) unit :=
  st ← inb PS2_STATUS_PORT;
  if Z.land st 1 =? 0 then mret tt else
  match fuel with
  | O => fault
  | S fuel => keyboard_byte;; keyboard_irq_handler fuel
  end.

(** Polling loops [while (--timeout)]: [n - 1] rounds. *)
Definition poll (n : Z) (body : M (input E) (option Z)) : M (input E) (option Z) := for_range 0 (n - 1) (fun _ => body).

Definition keyboard_init : M (input E) unit :=
  outb PS2_COMMAND_PORT 0xFF;;
  outb PS2_COMMAND_PORT 0xAE;;
  outb PS2_COMMAND_PORT 0xAA;;
  test ← inb PS2_DATA_PORT;
  if negb (test =? 0x55) then on_kbd (modify (set_kbd_init false)) else
  on_kbd (modify (fun k => mk_kbd false false false false false (keyboard_initialized k) (down_key_for_scancode k)));;
  for_range 0 100000 (fun _ =>
    st ← inb PS2_STATUS_PORT;
    if Z.land st 1 =? 0 then mret (Some tt) else inb PS2_DATA_PORT;; mret None);;
  outb PS2_COMMAND_PORT 0xD4;;
  outb PS2_DATA_PORT 0xF6;;
  ack ← poll 1000000 (
    st ← inb PS2_STATUS_PORT;
    if Z.land st 1 =? 0 then mret None else b ← inb PS2_DATA_PORT; mret (Some b));
  on_kbd (modify (set_kbd_init (default 0 ack =? 0xFA))).

(** * The PS/2 mouse *)

Definition ps2_wait_write : M (input E) unit :=
  for_range 0 (PS2_TIMEOUT_ITERS - 1) (fun _ =>
    st ← inb PS2_STATUS_PORT; mret (if Z.land st 2 =? 0 then Some tt else None));;
  mret tt.

(** No bound in the code: [fuel] is the number of bytes it may discard. *)
Fixpoint ps2_flush_output_buffer (fuel : nat) : M (input E) unit :=
  st ← inb PS2_STATUS_PORT;
  if Z.land st 1 =? 0 then mret tt else
  match fuel with
  | O => fault
  | S fuel => inb PS2_DATA_PORT;; ps2_flush_output_buffer fuel
  end.

(** The byte read, [None] for -1. *)
Definition ps2_read_controller_data : M (input E) (option Z) :=
  poll PS2_TIMEOUT_ITERS (
    st ← inb PS2_STATUS_PORT;
    if Z.land st 1 =? 0 then mret None else b ← inb PS2_DATA_PORT; mret (Some b)).

Definition ps2_read_mouse_data : M (input E) (option Z) :=
  poll PS2_TIMEOUT_ITERS (
    st ← inb PS2_STATUS_PORT;
    if Z.land st 1 =? 0 then mret None else
    status ← inb PS2_STATUS_PORT;
    b ← inb PS2_DATA_PORT;
    mret (if Z.land status 0x20 =? 0 then None else Some b)).

Definition ps2_write_command (cmd : Z) : M (input E) unit := ps2_wait_write;; outb PS2_COMMAND_PORT cmd.
Definition ps2_write_data (b : Z) : M (input E) unit := ps2_wait_write;; outb PS2_DATA_PORT b.

Definition mouse_send_command (cmd : Z) : M (input E) Z :=
  ps2_write_command 0xD4;;
  ps2_write_data cmd;;
  ack ← ps2_read_mouse_data;
  mret (match ack with Some a => if a =? 0xFA then 0 else -1 | None => -1 end).

Fixpoint send_all (cmds : list Z) : M (input E) bool :=
  match cmds with
  | [] => mret true
  | c :: cmds => r ← mouse_send_command c; if negb (r =? 0) then mret false else send_all cmds
  end.

Definition set_initialized (b : bool) (m : ps2_mouse) : ps2_mouse := mk_mouse b (packet m) (packet_index m).

Definition mouse_init (fuel : nat) : M (input E) unit :=
  modify (fun s => set_mouse (mk_mouse false (packet (mouse s)) 0) s);;
  ps2_flush_output_buffer fuel;;
  ps2_write_command 0xA7;;
  ps2_write_command 0xAD;;
  ps2_write_command 0x20;;
  config ← ps2_read_controller_data;
  match config with
  | None => mret tt
  | Some config =>
      ps2_write_command 0x60;;
      ps2_write_data (Z.land (Z.lor (Z.lor config 2) 1) 0xDF);;
      ps2_write_command 0xA8;;
      ps2_write_command 0xAE;;
      ps2_flush_output_buffer fuel;;
      ps2_write_command 0xD4;;
      ps2_write_data 0xFF;;
      ack ← ps2_read_mouse_data;
      if negb (default 0 ack =? 0xFA) then mret tt else
      reset_ok ← ps2_read_mouse_data;
      if negb (default 0 reset_ok =? 0xAA) then mret tt else
      ps2_read_mouse_data;;
      ok ← send_all [0xF6; 0xF3; 100; 0xF4];
      if (ok : bool) then modify (fun s => set_mouse (set_initialized true (mouse s)) s) else mret tt
  end.

(** [screen_width_pixels && mouse_x >= (int)screen_width_pixels] *)
Definition clamp (x limit : Z) : Z :=
  let x := if x <? 0 then 0 else x in
  if negb (limit =? 0) && (i32 limit <=? x) then i32 limit - 1 else x.

Definition input_mouse_event (dx dy buttons : Z) : M (input E) unit :=
  c ← gets pointer;
  scr ← gets (fun s => ie_screen (env s));
  let x := clamp (i32 (mouse_x c + dx)) (fst scr) in
  let y := clamp (i32 (mouse_y c + dy)) (snd scr) in
  modify (set_pointer (mk_cursor x y buttons));;
  wm ← gets (fun s => ie_wm_pid (env s));
  if wm =? 0 then mret tt else on_env (ie_send wm (wm_request WM_INPUT_MOUSE x y buttons)).

Definition input_mouse_get_x : M (input E) Z := gets (fun s => mouse_x (pointer s)).
Definition input_mouse_get_y : M (input E) Z := gets (fun s => mouse_y (pointer s)).
Definition input_mouse_get_buttons : M (input E) Z := gets (fun s => mouse_buttons (pointer s)).

(** [if (sign) d |= 0xFFFFFF00;] on an [int] *)
Definition extend (sign : bool) (d : Z) : Z := if sign then i32 (Z.lor d 0xFFFFFF00) else d.

Definition mouse_irq_handler : M (input E) unit :=
  m ← gets mouse;
  if negb (mouse_initialized m) then mret tt else
  status ← inb PS2_STATUS_PORT;
  if Z.land status 0x20 =? 0 then mret tt else
  data ← inb PS2_DATA_PORT;
  if (packet_index m =? 0) && (Z.land data 8 =? 0) then mret tt else
  p ← lift (zset (packet m) (packet_index m) data);
  modify (set_mouse (mk_mouse true p (packet_index m + 1)));;
  if packet_index m + 1 <? 3 then mret tt else
  modify (set_mouse (mk_mouse true p 0));;
  b0 ← lift (zget p 0);
  if negb (Z.land b0 0xC0 =? 0) then mret tt else
  b1 ← lift (zget p 1);
  b2 ← lift (zget p 2);
  let dx := extend (negb (Z.land b0 0x10 =? 0)) b1 in
  let dy := extend (negb (Z.land b0 0x20 =? 0)) b2 in
  input_mouse_event dx (- dy) (Z.land b0 7).

(** * USB keyboards and mice (boot protocol) *)

Definition HID_KEY_C : Z := 0x06.

Definition hid_keycode_ascii : list Z :=
  [0; 0; 0; 0; 97; 98; 99; 100; 101; 102; 103; 104; 105; 106; 107; 108; 109; 110; 111; 112; 113; 114; 115; 116; 117; 118; 119; 120;
   121; 122; 49; 50; 51; 52; 53; 54; 55; 56; 57; 48; 10; 27; 8; 9; 32; 45; 61; 91; 93; 92; 0; 59; 39; 96; 44; 46;
   47].

Definition hid_keycode_ascii_shift : list Z :=
  [0; 0; 0; 0; 65; 66; 67; 68; 69; 70; 71; 72; 73; 74; 75; 76; 77; 78; 79; 80; 81; 82; 83; 84; 85; 86; 87; 88;
   89; 90; 33; 64; 35; 36; 37; 94; 38; 42; 40; 41; 10; 27; 8; 9; 32; 95; 43; 123; 125; 124; 0; 58; 34; 126; 60; 62;
   63].

Definition hid_decode_usage (u : Z) (shift ctrl : bool) : option Z :=
  if ctrl && (u =? HID_KEY_C) then Some KEY_CTRL_C else
  if u =? 0x50 then Some KEY_LEFT_ARROW else
  if u =? 0x4F then Some KEY_RIGHT_ARROW else
  if u =? 0x52 then Some KEY_UP_ARROW else
  if u =? 0x51 then Some KEY_DOWN_ARROW else
  if u <? 0x39 then zget (if shift then hid_keycode_ascii_shift else hid_keycode_ascii) u else
  Some 0.

(** The first slot with usage [u], -1 when there is none; 0 finds a free slot. *)
Definition hid_find_slot (u : Z) : M (input E) Z :=
  r ← for_range 0 6 (fun i =>
    l ← gets repeat_slots;
    o ← lift (zget l i);
    mret (if usage o =? u then Some i else None));
  mret (default (-1) r).

Definition put_slot (i : Z) (o : repeat_slot) : M (input E) unit :=
  l ← gets repeat_slots; l ← lift (zset l i o); modify (set_slots l).

(** One key of the report: does it fire? *)
Definition hid_track (now u : Z) : M (input E) bool :=
  slot ← hid_find_slot u;
  if slot <? 0 then
    free ← hid_find_slot 0;
    (if 0 <=? free then put_slot free (mk_slot u (u64 (now + HID_REPEAT_INITIAL_DELAY_TICKS))) else mret tt);;
    mret true
  else
    l ← gets repeat_slots;
    o ← lift (zget l slot);
    if next_repeat_tick o <=? now then
      put_slot slot (mk_slot (usage o) (u64 (now + HID_REPEAT_RATE_TICKS)));;
      mret true
    else mret false.

(** [report] holds 8 bytes: modifiers, a reserved byte, six usages. *)
Definition usb_hid_keyboard_report (report : list Z) : M (input E) unit :=
  modifier ← lift (zget report 0);
  let shift := negb (Z.land modifier 0x22 =? 0) in
  let ctrl := negb (Z.land modifier 0x11 =? 0) in
  keyboard_set_ctrl_state ctrl;;
  now ← gets (fun s => ie_ticks (env s));
  for_range (R := unit) 0 6 (fun i =>
    u ← lift (zget report (2 + i));
    if u <=? 1 then mret None else
    fire ← hid_track now u;
    (if (fire : bool) then
       key ← lift (hid_decode_usage u shift ctrl);
       if key =? 0 then mret tt else input_keyboard_event key
     else mret tt);;
    mret None);;
  for_range (R := unit) 0 6 (fun j =>
    l ← gets repeat_slots;
    o ← lift (zget l j);
    if usage o =? 0 then mret None else
    still_pressed ← for_range 0 6 (fun i => u ← lift (zget report (2 + i)); mret (if u =? usage o then Some tt else None));
    (match still_pressed with
     | Some _ => mret tt
     | None =>
         key ← lift (hid_decode_usage (usage o) shift ctrl);
         (if key =? 0 then mret tt else input_keyboard_event_ex key 0);;
         put_slot j (mk_slot 0 (next_repeat_tick o))
     end);;
    mret None);;
  mret tt.

Definition usb_hid_keyboard_detached : M (input E) unit :=
  modify (set_slots (replicate 6 (mk_slot 0 0)));;
  keyboard_set_ctrl_state false.

(** [(int8_t)b] *)
Definition usb_hid_mouse_report (report : list Z) (len : Z) : M (input E) unit :=
  if len <? 3 then mret tt else
  b0 ← lift (zget report 0);
  b1 ← lift (zget report 1);
  b2 ← lift (zget report 2);
  input_mouse_event (schar b1) (schar b2) (Z.land b0 7).
End input.
