(* ===== verification/InputConsole.v ===== *)
(** The console input ring (input.c, modelled in Vfs.v) is a bounded queue of bytes: a push appends or is
    dropped when 256 bytes are waiting, a read takes from the front. *)

From S2P Require Import Prelude Memory Interfaces Vfs VfsPipe.

Section console.
Context {HS : Type} `{!BlockAllocator HS}.
Implicit Types (s : vfs (HS := HS)).

(** [q] are the bytes waiting, oldest first. *)
Record input_ring s (q : list Z) : Prop := {
  ir_buf : zlen (console_input_buf s) = CONSOLE_INPUT_BUF_SIZE;
  ir_head : 0 <= console_input_head s < CONSOLE_INPUT_BUF_SIZE;
  ir_count : console_input_count s = zlen q;
  ir_room : zlen q <= CONSOLE_INPUT_BUF_SIZE;
  ir_bytes : forall k x, zget q k = Some x ->
    zget (console_input_buf s) ((console_input_head s - zlen q + k) mod CONSOLE_INPUT_BUF_SIZE) = Some x;
  ir_waiter : console_input_waiter s = 0 \/ is_Some (procs s !! console_input_waiter s);
}.

(** What the ring does not touch. *)
Definition ring_only s s' : Prop :=
  fobjs s' = fobjs s /\ iobjs s' = iobjs s /\ pobjs s' = pobjs s /\ kheap s' = kheap s /\ file_table s' = file_table s /\
  tables s' = tables s /\ current_fd_table s' = current_fd_table s /\ current_process s' = current_process s /\
  if_flag s' = if_flag s /\ screen s' = screen s.

Lemma ring_only_refl s : ring_only s s.
Proof. done. Qed.
Lemma ring_only_trans s1 s2 s3 : ring_only s1 s2 -> ring_only s2 s3 -> ring_only s1 s3.
Proof. unfold ring_only. intros (?&?&?&?&?&?&?&?&?&?) (?&?&?&?&?&?&?&?&?&?). split_and!; congruence. Qed.

Lemma ring_mod a : 0 <= a mod CONSOLE_INPUT_BUF_SIZE < CONSOLE_INPUT_BUF_SIZE.
Proof. by apply Z.mod_pos_bound. Qed.

Lemma ring_index_ne h n k : 0 <= h < CONSOLE_INPUT_BUF_SIZE -> 0 <= k < n -> n < CONSOLE_INPUT_BUF_SIZE ->
  (h - n + k) mod CONSOLE_INPUT_BUF_SIZE <> h.
Proof.
  intros Hh Hk Hn Heq. assert ((h - (h - n + k)) mod CONSOLE_INPUT_BUF_SIZE = 0) as Hz.
  { rewrite Zminus_mod, Heq, (Z.mod_small h), Z.sub_diag by done. done. }
  rewrite Z.mod_small in Hz by lia. lia.
Qed.

(** A push: the byte goes to the end of the queue, and whoever waits is made ready; a full ring drops it. *)
Lemma console_push_outcome s q b : input_ring s q ->
  wp (console_input_push b) (fun _ s' => ring_only s s' /\
    if zlen q <? CONSOLE_INPUT_BUF_SIZE then
      input_ring s' (q ++ [b]) /\ console_input_waiter s' = 0 /\
      procs s' = (if console_input_waiter s =? 0 then procs s else <[console_input_waiter s := PROCESS_READY]> (procs s))
    else s' = s) s.
Proof.
  intros [Hb Hh Hc Hr Hq Hw]. unfold console_input_push. wsteps. rewrite Hc.
  destruct (Z.leb_spec CONSOLE_INPUT_BUF_SIZE (zlen q)) as [Hfull|Hroom].
  { wstep. rewrite (proj2 (Z.ltb_ge _ _)) by done. done. }
  rewrite (proj2 (Z.ltb_lt _ _)) by done. wstep. eapply wp_lift; [apply zset_in; by rewrite Hb|]. cbv beta iota. wsteps.
  assert (forall s', console_input_buf s' = <[Z.to_nat (console_input_head s) := b]> (console_input_buf s) ->
    console_input_head s' = (console_input_head s + 1) `rem` CONSOLE_INPUT_BUF_SIZE -> console_input_count s' = zlen q + 1 ->
    console_input_waiter s' = 0 -> input_ring s' (q ++ [b])) as Hring.
  { intros s' E1 E2 E3 E4. rewrite Z.rem_mod_nonneg in E2 by (unfold CONSOLE_INPUT_BUF_SIZE in *; lia).
    assert (zlen (q ++ [b]) = zlen q + 1) as El by by rewrite zlen_app.
    constructor; rewrite ?E1, ?E2, ?E3, ?E4, ?El; [by rewrite zlen_insert|apply ring_mod|done|lia| |by left].
    intros k x Hk. pose proof (zget_range _ _ _ Hk) as Hkr. rewrite El in Hkr. pose proof (zlen_nonneg q).
    replace (((console_input_head s + 1) mod CONSOLE_INPUT_BUF_SIZE - (zlen q + 1) + k) mod CONSOLE_INPUT_BUF_SIZE)
      with ((console_input_head s - zlen q + k) mod CONSOLE_INPUT_BUF_SIZE)
      by (rewrite <- Z.sub_add_distr || idtac; rewrite <- (Zplus_mod_idemp_l (_ - (zlen q + 1))), Zminus_mod_idemp_l, Zplus_mod_idemp_l; f_equal; lia).
    destruct (decide (k = zlen q)) as [->|Hne].
    - rewrite zget_app_r, Z.sub_diag, zget_cons_0 in Hk by lia. simplify_eq.
      replace (console_input_head s - zlen q + zlen q) with (console_input_head s) by lia.
      rewrite Z.mod_small by done. apply zget_insert_eq. lia.
    - rewrite zget_app_l in Hk by lia. rewrite zget_insert_ne; [by apply Hq|lia|].
      intros Heq. symmetry in Heq. apply ring_index_ne in Heq; [done|done|lia|done]. }
  destruct (Z.eqb_spec (console_input_waiter s) 0) as [E0|E0].
  - wstep. split; [done|]. split; [apply Hring; try done|done]. 
  - destruct Hw as [?|Hst]; [done|]. wstep. apply wp_set_state; [exact Hst|]. wsteps. split; [done|]. split; [by apply Hring|done].
Qed.

Lemma input_copy_outcome fuel : forall start n max out s q, input_ring s q -> zlen q <= Z.of_nat fuel -> 0 <= n -> n <= max ->
  start = (console_input_head s - zlen q - n) mod CONSOLE_INPUT_BUF_SIZE ->
  wp (input_copy fuel start n max out) (fun r s' =>
    r = out ++ take (Z.to_nat (max - n)) q /\ input_ring s' (drop (Z.to_nat (max - n)) q) /\ ring_only s s' /\ procs s' = procs s) s.
Proof.
  induction fuel as [|fuel IH]; intros start n max out s q Hring Hfuel Hn Hmax Hstart; cbn [input_copy]; wsteps;
    rewrite (ir_count _ _ Hring); destruct q as [|x q]; rewrite ?zlen_cons in *; try (pose proof (zlen_nonneg q)).
  - rewrite andb_false_r. wstep. rewrite take_nil, drop_nil, app_nil_r. done.
  - lia.
  - rewrite andb_false_r. wstep. rewrite take_nil, drop_nil, app_nil_r. done.
  - rewrite (proj2 (Z.ltb_lt 0 _)), andb_true_r by lia. destruct (Z.ltb_spec n max) as [Hlt|Hge].
    2: { wstep. replace (Z.to_nat (max - n)) with O by lia. rewrite take_0, drop_0, app_nil_r. done. }
    destruct Hring as [Hb Hh Hc Hr Hq Hw]. rewrite zlen_cons in *. wsteps.
    eapply wp_lift; [|].
    { rewrite Z.rem_mod_nonneg; [|subst start; pose proof (ring_mod (console_input_head s - (zlen q + 1) - n)); lia|done].
      subst start. rewrite Zplus_mod_idemp_l. rewrite <- (Hq 0 x eq_refl). do 2 f_equal. lia. }
    cbv beta iota. wsteps. eapply wp_mono; [apply (IH start (n + 1) max (out ++ [x]) _ q)|].
    + split; cbn; try done; [lia..|]. intros k y Hk. pose proof (zget_range _ _ _ Hk).
      replace (console_input_head s - zlen q + k) with (console_input_head s - (zlen q + 1) + (k + 1)) by lia.
      apply Hq. by rewrite zget_cons_S by lia.
    + lia.
    + lia.
    + lia.
    + cbn [console_input_head set_input]. rewrite Hstart. f_equal. lia.
    + intros r s' (-> & Hring' & Hsame & Hp). replace (Z.to_nat (max - n)) with (S (Z.to_nat (max - (n + 1)))) by lia.
      cbn [take drop]. rewrite <- app_assoc. by split_and!.
Qed.

(** A read of a ring with bytes takes the oldest ones. *)
Lemma console_take_outcome s q max : input_ring s q -> q <> [] -> 0 < max ->
  wp (console_input_round max) (fun r s' => ring_only s s' /\
    r = Some (take (Z.to_nat max) q) /\ input_ring s' (drop (Z.to_nat max) q) /\ procs s' = procs s) s.
Proof.
  intros Hring Hne Hmax. unfold console_input_round. rewrite (proj2 (Z.leb_gt _ _)) by done. wsteps.
  rewrite (ir_count _ _ Hring). destruct q as [|x q]; [done|].
  pose proof (zlen_nonneg q). assert (zlen (x :: q) <> 0) as Hz by (rewrite zlen_cons; lia).
  rewrite (proj2 (Z.eqb_neq _ _) Hz). wsteps. pose proof (ir_head _ _ Hring). pose proof (ir_room _ _ Hring).
  eapply wp_mono; [apply (input_copy_outcome _ _ 0 max [] s (x :: q)); [done|lia|lia|lia|]|].
  - rewrite Z.rem_mod_nonneg by lia. rewrite Z.sub_0_r.
    replace (console_input_head s - zlen (x :: q) + CONSOLE_INPUT_BUF_SIZE) with (console_input_head s - zlen (x :: q) + 1 * CONSOLE_INPUT_BUF_SIZE) by lia.
    by rewrite Z.mod_add.
  - intros out s' (-> & Hring' & Hsame & Hp). wstep. rewrite Z.sub_0_r in *. by split_and!.
Qed.

(** A read takes the oldest bytes, or registers the caller when there are none. *)
Lemma console_round_outcome s q max : input_ring s q -> 0 < max -> is_Some (procs s !! current_process s) ->
  wp (console_input_round max) (fun r s' => ring_only s s' /\
    match q with
    | [] => r = None /\ console_input_waiter s' = current_process s /\
            procs s' = <[current_process s := PROCESS_BLOCKED]> (procs s) /\ input_ring s' []
    | _ => r = Some (take (Z.to_nat max) q) /\ input_ring s' (drop (Z.to_nat max) q) /\ procs s' = procs s
    end) s.
Proof.
  intros Hring Hmax Hme. destruct q as [|x q]; [|eapply wp_mono; [by apply (console_take_outcome s (x :: q))|done]].
  unfold console_input_round. rewrite (proj2 (Z.leb_gt _ _)) by done. wsteps. rewrite (ir_count _ _ Hring).
  change (zlen [] =? 0) with true. cbv iota. wsteps. apply wp_set_state; [exact Hme|]. wsteps.
  split; [done|]. split_and!; [done|done|done|]. destruct Hring as [Hb Hh Hc Hr Hq Hw].
  split; cbn [console_input_buf console_input_head console_input_count console_input_waiter set_procs set_input procs]; try done.
  right. rewrite lookup_insert_eq. by eexists.
Qed.
End console.
