(* ===== verification/InputTyping.v ===== *)
(** Typing: the scan codes of a text are decoded to that text (keyboard.c), and end up in the console's
    input (input.c).  The machine of this file has a controller with a queue of bytes, the console of
    Vfs.v and the mailboxes of Mailbox.v. *)

From S2P Require Import Prelude Memory Interfaces Mailbox Vfs VfsPipe InputConsole Input.

(** * Scan codes *)

(** The character of scan code [sc] with the given shift and Caps Lock. *)
Definition char_of (caps shift : bool) (sc : Z) : Z :=
  let letter := ((0x10 <=? sc) && (sc <=? 0x19)) || ((0x1E <=? sc) && (sc <=? 0x26)) || ((0x2C <=? sc) && (sc <=? 0x32)) in
  default 0 (zget (if if letter then xorb shift caps else shift then scancode_to_char_shift else scancode_to_char) sc).

Definition codes : list Z := seqZ 1 127.

(** What a keyboard sends for one character: make and break of its key, with a shift key around them
    when needed.  The empty list when the keyboard has no such character. *)
Definition keystrokes (caps : bool) (c : Z) : list Z :=
  match List.find (fun sc => char_of caps false sc =? c) codes with
  | Some sc => [sc; sc + 128]
  | None =>
      match List.find (fun sc => char_of caps true sc =? c) codes with
      | Some sc => [0x2A; sc; sc + 128; 0xAA]
      | None => []
      end
  end.

Definition typable (c : Z) : Prop := c <> 0 /\ exists sc, (sc ∈ codes) /\ (char_of false false sc = c \/ char_of false true sc = c).

(** All keys of one state of the modifiers: nothing held. *)
Record idle (k : keyboard) : Prop := {
  id_shift : shift_pressed k = false;
  id_ctrl : ctrl_pressed k = false;
  id_ext : extended_scancode k = false;
  id_down : zlen (down_key_for_scancode k) = 128;
}.

(** The codes of keys with a character. *)
Definition plain_code (sc : Z) : bool :=
  (0 <? sc) && (sc <? 0x80) && negb (sc =? 0x2A) && negb (sc =? 0x36) && negb (sc =? 0x3A) && negb (sc =? 0x1D) && negb (sc =? 0x38) && negb (sc =? 0x60).

Lemma in_codes sc : sc ∈ codes <-> 1 <= sc <= 127.
Proof. unfold codes. rewrite elem_of_seqZ. lia. Qed.

Lemma codes_forall (P : Z -> bool) : forallb P codes = true -> forall sc, 1 <= sc <= 127 -> P sc = true.
Proof. intros H sc Hsc. rewrite forallb_forall in H. apply H, list_elem_of_In, in_codes, Hsc. Qed.

Lemma char_of_plain caps shift sc : 1 <= sc <= 127 -> char_of caps shift sc <> 0 -> plain_code sc = true.
Proof.
  intros Hsc. revert sc Hsc. assert (forall sc, 1 <= sc <= 127 -> (char_of caps shift sc =? 0) || plain_code sc = true) as H.
  { apply codes_forall. destruct caps, shift; vm_compute; reflexivity. }
  intros sc Hsc Hne. specialize (H sc Hsc). apply orb_true_iff in H as [H%Z.eqb_eq|H]; [done|done].
Qed.

Lemma plain_codes sc : plain_code sc = true ->
  1 <= sc <= 127 /\ Z.land sc 0x80 = 0 /\ Z.land (sc + 128) 0x80 <> 0 /\ Z.land (sc + 128) 0x7F = sc /\ sc + 128 <> 0xE0.
Proof.
  unfold plain_code. intros H. assert (1 <= sc <= 127) as Hsc by lia. split; [done|].
  pose proof (codes_forall (fun sc => (Z.land sc 0x80 =? 0) && negb (Z.land (sc + 128) 0x80 =? 0) && (Z.land (sc + 128) 0x7F =? sc))
    ltac:(vm_compute; reflexivity) sc Hsc) as Hb. cbn beta in Hb.
  apply andb_true_iff in Hb as [[H1%Z.eqb_eq H2%negb_true_iff%Z.eqb_neq]%andb_true_iff H3%Z.eqb_eq]. split_and!; try done. lia.
Qed.

Lemma zget_table caps sc : 1 <= sc <= 127 -> zget (if (caps : bool) then scancode_to_char_shift else scancode_to_char) sc =
  Some (default 0 (zget (if caps then scancode_to_char_shift else scancode_to_char) sc)).
Proof.
  intros Hsc. destruct (zget_Some (if caps then scancode_to_char_shift else scancode_to_char) sc) as [x Hx];
    [destruct caps; unfold zlen; cbn; lia|]. by rewrite Hx.
Qed.

(** * Decoding single codes *)

Lemma key_make k sc : plain_code sc = true -> extended_scancode k = false -> ctrl_pressed k = false -> zlen (down_key_for_scancode k) = 128 ->
  let c := char_of (caps_lock k) (shift_pressed k) sc in
  keyboard_scancode_to_key sc k = Some ((c, 1), set_down (<[Z.to_nat sc := c]> (down_key_for_scancode k)) k).
Proof.
  intros Hp He Hc Hd c. destruct (plain_codes _ Hp) as (Hsc & H80 & _). unfold plain_code in Hp. unfold keyboard_scancode_to_key.
  rewrite H80, (proj2 (Z.eqb_neq sc 0xE0)) by lia. cbn [negb Z.eqb]. unfold get at 1. erewrite bind_Some by done. rewrite He. cbn [negb].
  rewrite !(proj2 (Z.eqb_neq sc _)) by lia. cbn [orb]. rewrite Hc, andb_false_r.
  unfold table_key. rewrite (proj2 (Z.ltb_lt _ _)) by lia. unfold get. erewrite bind_Some by done.
  erewrite bind_Some by (unfold lift; by rewrite zget_table). erewrite bind_Some by (unfold lift; by rewrite zset_in by lia). done.
Qed.

Lemma key_break k sc key : plain_code sc = true -> extended_scancode k = false -> zget (down_key_for_scancode k) sc = Some key ->
  keyboard_scancode_to_key (sc + 128) k = Some ((key, 0), set_down (<[Z.to_nat sc := 0]> (down_key_for_scancode k)) k).
Proof.
  intros Hp He Hg. destruct (plain_codes _ Hp) as (Hsc & _ & H80 & H7F & HE0). unfold plain_code in Hp. unfold keyboard_scancode_to_key.
  rewrite (proj2 (Z.eqb_neq _ _) H80), (proj2 (Z.eqb_neq _ _) HE0), H7F. cbn [negb]. unfold get. erewrite bind_Some by done. rewrite He.
  rewrite !(proj2 (Z.eqb_neq sc _)) by lia. cbn [orb]. rewrite (proj2 (Z.ltb_lt _ _)) by lia.
  erewrite bind_Some by (unfold lift; by rewrite Hg). apply zget_range in Hg.
  erewrite bind_Some by (unfold lift; by rewrite zset_in by lia). done.
Qed.

Lemma shift_make k : extended_scancode k = false -> keyboard_scancode_to_key 0x2A k = Some ((0, 1), set_shift true k).
Proof. destruct k. cbn. by intros ->. Qed.
Lemma shift_break k : extended_scancode k = false -> keyboard_scancode_to_key 0xAA k = Some ((0, 0), set_shift false k).
Proof. destruct k. cbn. by intros ->. Qed.

(** * Decoding a text *)

(** The key events of a sequence of scan codes. *)
Fixpoint decode (scs : list Z) : M keyboard (list (Z * Z)) :=
  match scs with
  | [] => mret []
  | sc :: scs =>
      '(key, pressed) ← keyboard_scancode_to_key sc;
      l ← decode scs;
      mret (if key =? 0 then l else (key, pressed) :: l)
  end.

Lemma decode_app l1 l2 k ev1 k1 : decode l1 k = Some (ev1, k1) ->
  decode (l1 ++ l2) k = match decode l2 k1 with Some (ev2, k2) => Some (ev1 ++ ev2, k2) | None => None end.
Proof.
  revert k ev1. induction l1 as [|sc l1 IH]; intros k ev1.
  { cbn. intros [= <- <-]. by destruct (decode l2 k) as [[??]|]. }
  cbn [decode app]. intros H. apply bind_inv in H as ([key pr] & k' & E & H). apply bind_inv in H as (l & k'' & E' & H).
  injection H as <- <-. rewrite (bind_Some _ _ _ _ _ E). unfold mbind, M_bind. rewrite (IH _ _ E').
  destruct (decode l2 k'') as [[ev2 k2]|]; [|done]. by destruct (key =? 0).
Qed.

Lemma decode_cons sc scs k key pr k1 : keyboard_scancode_to_key sc k = Some ((key, pr), k1) ->
  decode (sc :: scs) k = match decode scs k1 with Some (l, k2) => Some (if key =? 0 then l else (key, pr) :: l, k2) | None => None end.
Proof. intros E. cbn [decode]. rewrite (bind_Some _ _ _ _ _ E). done. Qed.

(** A press and release of one key reports the same key twice. *)
Lemma decode_key k sc : plain_code sc = true -> extended_scancode k = false -> ctrl_pressed k = false -> zlen (down_key_for_scancode k) = 128 ->
  let c := char_of (caps_lock k) (shift_pressed k) sc in c <> 0 ->
  exists d, zlen d = 128 /\ decode [sc; sc + 128] k = Some ([(c, 1); (c, 0)], set_down d k).
Proof.
  intros Hp He Hc Hd c Hne. destruct (plain_codes _ Hp) as (Hsc & _). pose proof (key_make k sc Hp He Hc Hd) as E1. fold c in E1.
  set (d1 := <[Z.to_nat sc := c]> (down_key_for_scancode k)) in *.
  assert (zget d1 sc = Some c) as Hg by (apply zget_insert_eq; lia).
  pose proof (key_break (set_down d1 k) sc c Hp He Hg) as E2. exists (<[Z.to_nat sc := 0]> d1).
  split; [unfold d1; by rewrite !zlen_insert|]. rewrite (decode_cons _ _ _ _ _ _ E1), (decode_cons _ _ _ _ _ _ E2).
  rewrite (proj2 (Z.eqb_neq _ _) Hne). reflexivity.
Qed.

Lemma char_of_caps sc shift : char_of false shift sc =
  char_of true (if ((0x10 <=? sc) && (sc <=? 0x19)) || ((0x1E <=? sc) && (sc <=? 0x26)) || ((0x2C <=? sc) && (sc <=? 0x32)) then negb shift else shift) sc.
Proof. unfold char_of. cbv zeta. match goal with |- context [if ?b then xorb _ _ else _] => destruct b end; by destruct shift. Qed.

Lemma typable_code caps c : typable c -> exists sc shift, 1 <= sc <= 127 /\ char_of caps shift sc = c.
Proof.
  intros (_ & sc & Hsc%in_codes & Hc). assert (exists shift, char_of false shift sc = c) as [shift E] by (destruct Hc; eauto).
  destruct caps; [|eauto]. rewrite char_of_caps in E. eauto.
Qed.

Lemma decode_keystrokes k c : idle k -> typable c -> exists k',
  decode (keystrokes (caps_lock k) c) k = Some ([(c, 1); (c, 0)], k') /\ idle k' /\ caps_lock k' = caps_lock k.
Proof.
  intros [Hs Hct He Hd] Ht. pose proof Ht as [Hne _]. destruct (typable_code (caps_lock k) c Ht) as (sc0 & shift & Hsc0 & E0).
  unfold keystrokes. destruct (List.find (fun sc => char_of (caps_lock k) false sc =? c) codes) as [sc|] eqn:Ef.
  - apply List.find_some in Ef as [Hin%list_elem_of_In%in_codes E%Z.eqb_eq]. pose proof (char_of_plain (caps_lock k) false sc Hin ltac:(congruence)) as Hp.
    rewrite <- Hs in E. destruct (decode_key k sc Hp He Hct Hd ltac:(congruence)) as (d & Hl & ->). rewrite E. eexists. split; [done|]. by split.
  - pose proof (List.find_none _ _ Ef sc0 ltac:(by apply list_elem_of_In, in_codes)) as Hno. cbn beta in Hno. apply Z.eqb_neq in Hno.
    destruct shift; [|done]. destruct (List.find (fun sc => char_of (caps_lock k) true sc =? c) codes) as [sc|] eqn:Eg.
    2: { pose proof (List.find_none _ _ Eg sc0 ltac:(by apply list_elem_of_In, in_codes)) as Hno'. cbn beta in Hno'. by apply Z.eqb_neq in Hno'. }
    apply List.find_some in Eg as [Hin%list_elem_of_In%in_codes E%Z.eqb_eq]. pose proof (char_of_plain (caps_lock k) true sc Hin ltac:(congruence)) as Hp.
    erewrite decode_cons by (by apply shift_make). change [sc; sc + 128; 0xAA] with ([sc; sc + 128] ++ [0xAA]).
    destruct (decode_key (set_shift true k) sc Hp He Hct Hd) as (d & Hl & Ed); [cbn; congruence|]. rewrite (decode_app _ _ _ _ _ Ed).
    erewrite decode_cons by (by apply shift_break). cbn [shift_pressed set_shift caps_lock]. rewrite E. eexists. split; [done|]. by split.
Qed.

Definition type_text (caps : bool) (text : list Z) : list Z := concat (keystrokes caps <$> text).

Lemma decode_type_text k text : idle k -> Forall typable text ->
  exists k', decode (type_text (caps_lock k) text) k = Some (concat ((fun c => [(c, 1); (c, 0)]) <$> text), k') /\
    idle k' /\ caps_lock k' = caps_lock k.
Proof.
  intros Hk Ht. revert k Hk. unfold type_text. induction Ht as [|c text Hc Ht IH]; intros k Hk; [by exists k|].
  cbn [fmap list_fmap concat]. destruct (decode_keystrokes k c Hk Hc) as (k1 & E1 & Hk1 & Hcaps).
  rewrite (decode_app _ _ _ _ _ E1), <- Hcaps. destruct (IH k1 Hk1) as (k2 & E2 & Hk2 & Hcaps2). rewrite E2. exists k2. split_and!; [done|done|congruence].
Qed.

(** The scan codes of a text are decoded to the text: for every text over the characters of the keyboard and either
    state of Caps Lock, the codes a keyboard sends while no other key is held are turned into one press and one
    release of each character, in order, and the decoder is left as it was found.  A release reports the character
    that was pressed although the shift key may be up again. *)
Theorem keyboard_roundtrip k text : idle k -> Forall typable text ->
  exists k', decode (type_text (caps_lock k) text) k = Some (concat ((fun c => [(c, 1); (c, 0)]) <$> text), k') /\
    idle k' /\ caps_lock k' = caps_lock k.
Proof. apply decode_type_text. Qed.

(** "Hi!" typed with Caps Lock off and on. *)
Lemma keyboard_roundtrip_witness :
  type_text false [72; 105; 33] = [0x2A; 35; 163; 0xAA; 23; 151; 0x2A; 2; 130; 0xAA] /\
  type_text true [72; 105; 33] = [35; 163; 0x2A; 23; 151; 0xAA; 0x2A; 2; 130; 0xAA] /\
  exists k', decode (type_text false [72; 105; 33]) kbd0 = Some ([(72, 1); (72, 0); (105, 1); (105, 0); (33, 1); (33, 0)], k') /\
    idle k' /\ caps_lock k' = false.
Proof.
  split; [vm_compute; reflexivity|]. split; [vm_compute; reflexivity|].
  apply (keyboard_roundtrip kbd0 [72; 105; 33]); [by split|].
  repeat constructor; try done; [exists 35|exists 23|exists 2]; (split; [apply in_codes; lia|]); [by right|by left|by right].
Defined.
