(* ===== verification/InputDesk.v ===== *)
(** Typing, from the controller to the reader: a machine whose 8042 controller holds a queue of bytes, with
    the console ring of Vfs.v and the mailboxes of Mailbox.v behind the event layer. *)

From S2P Require Import Prelude Memory Interfaces Heap Mailbox Vfs VfsPipe InputConsole Input InputTyping.

(** Sending from the kernel keeps the mailboxes consistent, whoever the receiver is. *)
Lemma mailbox_send_safe k dest sender data n : sys_inv (mk_sys k []) -> 0 <= n <= zlen data ->
  wp (mailbox_send dest sender data n) (fun _ k' => sys_inv (mk_sys k' [])) k.
Proof.
  intros Hinv Hn. unfold mailbox_send. wstep.
  assert (is_Some (send_commit dest sender data n k)) as [[[r w] k1] E].
  { destruct (Mailbox.process_find_by_pid dest k) as [d|] eqn:Hd; [|by rewrite (send_commit_absent _ _ _ _ _ Hd)].
    destruct (Hinv _ _ Hd) as (_ & _ & q & Hq & _).
    destruct (wp_inv _ _ _ (send_commit_outcome _ _ sender data n _ _ Hd Hq ltac:(lia) ltac:(lia))) as (a & s' & -> & _). by eexists. }
  apply (wp_Some _ _ _ _ _ E). cbv beta iota. pose proof (sys_step_inv _ _ Hinv (step_send (mk_sys k []) _ _ _ _ _ _ _ Hn E)) as H1.
  wstep. destruct w as [p|]; cbn [wakes kern] in H1.
  - apply (wp_Some _ _ _ tt (snd (default (tt, k1) (send_wake (Some p) k1)))); [done|]. wstep.
    exact (sys_step_inv _ _ H1 (step_wake (mk_sys k1 [p]) [] [] p _ eq_refl eq_refl)).
  - unfold send_wake. wstep. wstep. exact H1.
Qed.

Section desk.
Context {HS : Type} `{!BlockAllocator HS}.

(** What is asked of the console's view. *)
Inductive view_request := ScrollUp | ScrollDown | ScrollToBottom.

Record desk := mk_desk {
  con : vfs (HS := HS);
  mail : Mailbox.kernel;
  wm : Z;
  ticks : Z;
  pixels : Z * Z;
  scrolled : bool;
  view : list view_request;
  ctrl_c_pending : bool;
  pending : list (bool * Z);    (* bytes in the controller: from the mouse?, value *)
}.

Definition set_con (v : vfs (HS := HS)) (d : desk) : desk := mk_desk v (mail d) (wm d) (ticks d) (pixels d) (scrolled d) (view d) (ctrl_c_pending d) (pending d).
Definition set_mail (k : Mailbox.kernel) (d : desk) : desk := mk_desk (con d) k (wm d) (ticks d) (pixels d) (scrolled d) (view d) (ctrl_c_pending d) (pending d).
Definition set_view (l : list view_request) (b : bool) (d : desk) : desk := mk_desk (con d) (mail d) (wm d) (ticks d) (pixels d) (scrolled d) l b (pending d).
Definition set_pending (l : list (bool * Z)) (d : desk) : desk := mk_desk (con d) (mail d) (wm d) (ticks d) (pixels d) (scrolled d) (view d) (ctrl_c_pending d) l.

Definition on_con {A} (m : M (vfs (HS := HS)) A) : M desk A := fun d =>
  match m (con d) with Some (a, v) => Some (a, set_con v d) | None => None end.
Definition on_mail {A} (m : M Mailbox.kernel A) : M desk A := fun d =>
  match m (mail d) with Some (a, k) => Some (a, set_mail k d) | None => None end.
Definition request (v : view_request) : M desk unit := modify (fun d => set_view (view d ++ [v]) (ctrl_c_pending d) d).

(** The status register: bit 0 when a byte waits, bit 5 when it comes from the mouse. *)
Definition controller_in (port : Z) : M desk Z := fun d =>
  if port =? PS2_STATUS_PORT then Some (match pending d with [] => 0 | (aux, _) :: _ => if aux then 0x21 else 1 end, d)
  else match pending d with [] => Some (0, d) | (_, b) :: l => Some (b, set_pending l d) end.

Definition desk_ready (d : desk) : Prop :=
  sys_inv (mk_sys (mail d) []) /\ (exists q, input_ring (con d) q) /\ Forall (fun p => is_u8 (p.2)) (pending d).

#[export] Instance desk_env : InputEnv desk.
Proof.
  refine {|
    ie_in := controller_in; ie_out := fun _ _ => mret tt; ie_ticks := ticks; ie_wm_pid := wm; ie_screen := pixels;
    ie_is_scrolled := scrolled; ie_push := fun b => on_con (console_input_push b);
    ie_send := fun n r => on_mail (mailbox_send n 0 r 92);; mret tt;
    ie_scroll_up := request ScrollUp; ie_scroll_down := request ScrollDown; ie_scroll_to_bottom := request ScrollToBottom;
    ie_ctrl_c := modify (fun d => set_view (view d) true d); ie_ready := desk_ready |}.
  - intros p e (Hm & Hc & Hp). unfold controller_in, wp. destruct (p =? PS2_STATUS_PORT).
    + split; [|done]. destruct (pending e) as [|[[] b] l]; unfold is_u8; lia.
    + destruct (pending e) as [|[a b] l] eqn:E.
      * split; [unfold is_u8; lia|]. split; [|done]. split; [done|]. split; [done|]. by rewrite E.
      * apply Forall_cons in Hp as [Hb Hl]. exact (conj Hb (conj (conj Hm (conj Hc Hl)) (conj eq_refl (conj eq_refl eq_refl)))).
  - intros p v e He. wstep. by split.
  - intros b e (Hm & [q Hq] & Hp) Hb. unfold wp, on_con.
    destruct (wp_inv _ _ _ (console_push_outcome (con e) q b Hq)) as ([] & v & -> & Hout). split; [|done].
    split; [done|]. split; [|done]. destruct (_ <? _); [exists (q ++ [b]); apply Hout|]. destruct Hout as [_ ->]. by exists q.
  - intros n r e (Hm & Hc & Hp) Hr. wstep. unfold wp at 1, on_mail.
    destruct (wp_inv _ _ _ (mailbox_send_safe (mail e) n 0 r 92 Hm ltac:(lia))) as (a & k & -> & Hk). by wstep.
  - intros m e He [->|[->|[->| ->]]]; apply wp_modify; by split.
Defined.

Implicit Types (s : input desk).

Definition with_con (v : vfs (HS := HS)) s : input desk := mk_input _ (kbd s) (last s) (pointer s) (mouse s) (repeat_slots s) (set_con v (env s)).

(** * Events without a window server *)

Record typing s (q : list Z) : Prop := {
  ty_wm : wm (env s) = 0;
  ty_ring : input_ring (con (env s)) q;
}.

(** Everything but keyboard, console and controller is left alone. *)
Definition frame s s' : Prop :=
  pointer s' = pointer s /\ mouse s' = mouse s /\ repeat_slots s' = repeat_slots s /\ mail (env s') = mail (env s) /\
  view (env s') = view (env s) /\ ctrl_c_pending (env s') = ctrl_c_pending (env s) /\ ring_only (con (env s)) (con (env s')).

Lemma frame_trans s1 s2 s3 : frame s1 s2 -> frame s2 s3 -> frame s1 s3.
Proof.
  unfold frame. intros (?&?&?&?&?&?&Ha) (?&?&?&?&?&?&Hb). split_and!; [congruence..|]. by eapply ring_only_trans.
Qed.

Lemma press_outcome s q key : typing s q -> 8 <= key < 256 -> last_pressed (last s) <> 1 -> zlen q < CONSOLE_INPUT_BUF_SIZE ->
  wp (input_keyboard_event_ex key 1) (fun _ s' => typing s' (q ++ [key]) /\ kbd s' = kbd s /\ last_pressed (last s') = 1 /\
    pending (env s') = pending (env s) /\ frame s s') s.
Proof.
  intros [Hwm Hring] Hk Hl Hroom. unfold input_keyboard_event_ex. rewrite (proj2 (Z.eqb_neq key 0)) by lia. wsteps.
  unfold is_duplicate. rewrite (proj2 (Z.eqb_neq 1 _)) by congruence. rewrite andb_false_r. cbn [andb]. wsteps.
  cbn [env set_last ie_wm_pid desk_env]. rewrite Hwm. cbn [negb Z.eqb]. unfold console_key, keyboard_ctrl_pressed. wsteps.
  unfold KEY_UP_ARROW, KEY_DOWN_ARROW, KEY_CTRL_C. rewrite !(proj2 (Z.eqb_neq key _)) by lia. cbn [orb andb].
  unfold wp at 1, on_env. cbn [ie_push desk_env env set_last]. unfold on_con. rewrite u8_small by (unfold is_u8; lia).
  destruct (wp_inv _ _ _ (console_push_outcome (con (env s)) q key Hring)) as ([] & v & -> & Hsame & Hout).
  rewrite (proj2 (Z.ltb_lt _ _) Hroom) in Hout. destruct Hout as (Hq & _). wstep. cbn. by repeat split; try apply Hsame; try apply Hq.
Qed.

Lemma release_outcome s q key : typing s q ->
  wp (input_keyboard_event_ex key 0) (fun _ s' => typing s' q /\ kbd s' = kbd s /\ (key <> 0 -> last_pressed (last s') = 0) /\
    (key = 0 -> last s' = last s) /\ pending (env s') = pending (env s) /\ frame s s') s.
Proof.
  intros [Hwm Hring]. unfold input_keyboard_event_ex. destruct (Z.eqb_spec key 0) as [->|Hk]; wsteps; [by repeat split; try apply Hring|].
  destruct (is_duplicate _ _ _ _); wsteps; [by repeat split; try apply Hring|]. cbn [env set_last ie_wm_pid desk_env]. rewrite Hwm. cbn [negb Z.eqb].
  wstep. by repeat split; try apply Hring.
Qed.

(** * The interrupt handler *)

Definition presses (evs : list (Z * Z)) : list Z := fst <$> List.filter (fun e => snd e =? 1) evs.

(** No event repeats the press or release before it: the filter of duplicates lets all of them through. *)
Fixpoint alternates (p : Z) (evs : list (Z * Z)) : Prop :=
  match evs with
  | [] => True
  | (key, pr) :: evs => 8 <= key < 256 /\ (pr = 0 \/ pr = 1) /\ pr <> p /\ alternates pr evs
  end.

Lemma event_outcome s q key pr : typing s q -> 8 <= key < 256 -> (pr = 0 \/ pr = 1) -> pr <> last_pressed (last s) ->
  zlen q + zlen (presses [(key, pr)]) <= CONSOLE_INPUT_BUF_SIZE ->
  wp (input_keyboard_event_ex key pr) (fun _ s' => typing s' (q ++ presses [(key, pr)]) /\ kbd s' = kbd s /\ last_pressed (last s') = pr /\
    pending (env s') = pending (env s) /\ frame s s') s.
Proof.
  intros Hty Hk Hpr Hne Hroom. destruct Hpr as [-> | ->].
  - eapply wp_mono; [by apply (release_outcome s q)|]. intros [] s' (Hty' & Hkb & Hl & _ & Hp & Hf). change (presses [(key, 0)]) with (@nil Z).
    rewrite app_nil_r. specialize (Hl ltac:(lia)). done.
  - change (presses [(key, 1)]) with [key] in *. change (zlen [key]) with 1 in Hroom. apply press_outcome; [done|done|congruence|lia].
Qed.

Lemma presses_app l1 l2 : presses (l1 ++ l2) = presses l1 ++ presses l2.
Proof. unfold presses. by rewrite List.filter_app, fmap_app. Qed.

Lemma wp_on_kbd {A} (m : M keyboard A) Q s a k : m (kbd s) = Some (a, k) ->
  Q a (mk_input _ k (last s) (pointer s) (mouse s) (repeat_slots s) (env s)) -> wp (on_kbd m) Q s.
Proof. unfold wp, on_kbd. by intros ->. Qed.

Lemma wp_status Q s : Q (match pending (env s) with [] => 0 | (true, _) :: _ => 0x21 | _ => 1 end) s -> wp (inb PS2_STATUS_PORT) Q s.
Proof. unfold wp, inb, on_env. cbn. destruct s as [????? e]. cbn. by destruct (pending e) as [|[[] b] l]. Qed.

Lemma wp_data Q s a b l : pending (env s) = (a, b) :: l ->
  Q b (mk_input _ (kbd s) (last s) (pointer s) (mouse s) (repeat_slots s) (set_pending l (env s))) -> wp (inb PS2_DATA_PORT) Q s.
Proof. intros E. unfold wp, inb, on_env. cbn. unfold controller_in. cbn. by rewrite E. Qed.

Lemma keyboard_irq_outcome scs : forall fuel s q evs k', typing s q -> (length scs <= fuel)%nat ->
  pending (env s) = (fun b => (false, b)) <$> scs -> decode scs (kbd s) = Some (evs, k') ->
  alternates (last_pressed (last s)) evs -> zlen q + zlen (presses evs) <= CONSOLE_INPUT_BUF_SIZE ->
  wp (keyboard_irq_handler fuel) (fun _ s' => typing s' (q ++ presses evs) /\ kbd s' = k' /\ pending (env s') = [] /\ frame s s') s.
Proof.
  induction scs as [|sc scs IH]; intros fuel s q evs k' Hty Hfuel Hpend Hdec Halt Hroom; cbn [fmap list_fmap] in Hpend.
  - injection Hdec as <- <-. destruct fuel; cbn [keyboard_irq_handler]; wstep; apply wp_status; rewrite Hpend; cbn;
      (split; [split; [apply Hty|cbn; rewrite app_nil_r; apply Hty]|]); by repeat split.
  - destruct fuel as [|fuel]; [cbn in Hfuel; lia|]. apply bind_inv in Hdec as ([key pr] & k1 & E & Hdec). apply bind_inv in Hdec as (evs' & k2 & E' & Hdec).
    injection Hdec as Hevs <-. cbn [keyboard_irq_handler]. wstep. apply wp_status. rewrite Hpend.
    change (Z.land 1 1 =? 0) with false. cbv iota. wstep. unfold keyboard_byte, keyboard_read_scancode. wstep.
    eapply wp_data; [exact Hpend|]. wstep. eapply wp_on_kbd; [exact E|]. cbv beta iota.
    match goal with |- wp _ _ ?x => set (s1 := x) end.
    assert (typing s1 q) as Hty1 by (split; apply Hty). assert (frame s s1) as Hf1 by by repeat split.
    assert (pending (env s1) = (fun b => (false, b)) <$> scs) as Hp1 by done.
    destruct (Z.eqb_spec key 0) as [Ek|Ek].
    + subst key evs. cbn. apply wp_ret. eapply wp_mono; [apply (IH fuel s1 q evs' k2 Hty1); [cbn in Hfuel; lia|done|exact E'|exact Halt|exact Hroom]|].
      intros [] s' (Ha & Hb & Hc & Hd). exact (conj Ha (conj Hb (conj Hc (frame_trans _ _ _ Hf1 Hd)))).
    + subst evs. destruct Halt as (Hk & Hpr & Hne & Halt). change ((key, pr) :: evs') with ([(key, pr)] ++ evs') in *. rewrite presses_app, zlen_app in *.
      pose proof (zlen_nonneg (presses evs')).
      eapply wp_mono; [apply (event_outcome s1 q key pr Hty1 Hk Hpr); [exact Hne|lia]|].
      intros [] s2 (Hty2 & Hkb2 & Hl2 & Hp2 & Hf2). rewrite (app_assoc q). eapply wp_mono; [apply (IH fuel s2 _ evs' k2 Hty2)|].
      * cbn in Hfuel. lia.
      * by rewrite Hp2.
      * rewrite Hkb2. exact E'.
      * by rewrite Hl2.
      * rewrite zlen_app. lia.
      * intros [] s' (Ha & Hb & Hc & Hd). exact (conj Ha (conj Hb (conj Hc (frame_trans _ _ _ Hf1 (frame_trans _ _ _ Hf2 Hd))))).
Qed.

Lemma typable_range c : typable c -> 8 <= c < 256.
Proof.
  intros (Hne & sc & Hsc%in_codes & Hc).
  pose proof (codes_forall (fun sc => let a := char_of false false sc in let b := char_of false true sc in
    ((a =? 0) || (8 <=? a) && (a <? 256)) && ((b =? 0) || (8 <=? b) && (b <? 256))) ltac:(vm_compute; reflexivity) sc Hsc) as Hb.
  cbv beta zeta in Hb. destruct Hc as [E|E]; rewrite E in Hb; clear E; lia.
Qed.

Lemma text_alternates text p : Forall typable text -> p <> 1 -> alternates p (concat ((fun c => [(c, 1); (c, 0)]) <$> text)).
Proof.
  intros H. revert p. induction H as [|c text Hc Ht IH]; intros p Hp; [done|]. cbn. pose proof (typable_range c Hc).
  split_and!; try lia. by apply IH.
Qed.

Lemma text_presses text : presses (concat ((fun c => [(c, 1); (c, 0)]) <$> text)) = text.
Proof. induction text as [|c text IH]; [done|]. cbn [fmap list_fmap concat app]. unfold presses in *. cbn. by rewrite IH. Qed.

(** C27: What is typed is what the console reads: when the scan codes of a text wait in the controller, the keyboard's
    interrupt handler returns, having consumed them all and left the decoder idle, and a console read then returns the
    oldest bytes of what was waiting followed by the text.  Nothing is lost, repeated or reordered whatever the clock
    says and whether Caps Lock is on, as long as the 256 bytes of the ring are enough; mouse, mailboxes and the
    console's view are untouched. *)
Theorem typed_text_is_read s q text max : idle (kbd s) -> typing s q -> last_pressed (last s) <> 1 -> Forall typable text ->
  pending (env s) = (fun b => (false, b)) <$> type_text (caps_lock (kbd s)) text ->
  zlen q + zlen text <= CONSOLE_INPUT_BUF_SIZE -> q ++ text <> [] -> 0 < max ->
  wp (keyboard_irq_handler (length (pending (env s)));; on_env (on_con (console_input_round max)))
    (fun r s' => r = Some (take (Z.to_nat max) (q ++ text)) /\ typing s' (drop (Z.to_nat max) (q ++ text)) /\
       idle (kbd s') /\ caps_lock (kbd s') = caps_lock (kbd s) /\ pending (env s') = [] /\ frame s s') s.
Proof.
  intros Hk Hty Hl Ht Hp Hroom Hne Hmax. destruct (decode_type_text (kbd s) text Hk Ht) as (k' & E & Hk' & Hcaps).
  wstep. eapply wp_mono; [apply (keyboard_irq_outcome (type_text (caps_lock (kbd s)) text) (length (pending (env s))) s q (concat ((fun c => [(c, 1); (c, 0)]) <$> text)) k' Hty)|].
  - rewrite Hp. by rewrite length_fmap.
  - exact Hp.
  - exact E.
  - by apply text_alternates.
  - by rewrite text_presses.
  - intros [] s1 (Hty1 & Hkb1 & Hp1 & Hf1). rewrite text_presses in Hty1. subst k'.
    unfold wp, on_env. cbn. unfold on_con.
    destruct (q ++ text) as [|x l] eqn:Eq; [done|].
    destruct (wp_inv _ _ _ (console_take_outcome (con (env s1)) (x :: l) max (ty_ring _ _ Hty1) ltac:(done) Hmax)) as (r & v & -> & Hsame & -> & Hring & _).
    split; [done|]. split; [split; [apply Hty1|exact Hring]|]. split; [done|]. split; [done|]. split; [done|].
    eapply frame_trans; [exact Hf1|]. by repeat split; try apply Hsame.
Qed.

(** While a window server is registered, a key goes to it and to nobody else: a press or release that does not repeat
    the last event of the same tick is appended to the server's mailbox, from the kernel, as a [WM_INPUT_KEY] request
    carrying the key and its direction, and the console's input is left alone. *)
Theorem key_goes_to_window_server s key pr p q : key <> 0 -> wm (env s) <> 0 -> is_duplicate key pr (ticks (env s)) (last s) = false ->
  Mailbox.process_find_by_pid (wm (env s)) (mail (env s)) = Some p -> mb_rep (mbox p) q -> zlen q < MAX_IPC_MAILBOX_SLOTS ->
  wp (input_keyboard_event_ex key pr) (fun _ s' => con (env s') = con (env s) /\ view (env s') = view (env s) /\
    last s' = mk_last key pr (ticks (env s)) /\
    exists p', Mailbox.process_find_by_pid (wm (env s)) (mail (env s')) = Some p' /\
      mb_rep (mbox p') (q ++ [(0, wm_request WM_INPUT_KEY key pr 0)])) s.
Proof.
  intros Hk Hwm Hdup Hp Hq Hroom. unfold input_keyboard_event_ex. rewrite (proj2 (Z.eqb_neq _ _) Hk). wsteps.
  cbn [ie_ticks desk_env]. rewrite Hdup. wsteps. cbn [env set_last ie_wm_pid desk_env]. rewrite (proj2 (Z.eqb_neq _ _) Hwm). cbn [negb].
  set (r := wm_request WM_INPUT_KEY key pr 0). assert (zlen r = 92) as Hr by done. clearbody r.
  unfold wp, on_env. cbn [ie_send desk_env env set_last]. unfold on_mail, mbind, M_bind. unfold mailbox_send at 1.
  destruct (wp_inv _ _ _ (send_commit_outcome (mail (env s)) (wm (env s)) 0 r 92 p q Hp Hq ltac:(lia) ltac:(lia)))
    as ([c w] & k1 & E & _ & _ & [(Hbig & _)|[(_ & Hfull & _)|(_ & _ & Hres & mb' & Hrep & _ & Hfind)]]); [unfold MAX_IPC_MSG_PAYLOAD in Hbig; lia|lia|].
  injection Hres as -> ->. rewrite (bind_Some _ _ _ _ _ E).
  assert (take (Z.to_nat 92) r = r) as Htake by (apply take_ge; unfold zlen in Hr; lia). rewrite Htake in Hrep.
  pose proof (Hfind (wm (env s))) as Hf. rewrite Z.eqb_refl in Hf. unfold send_wake. destruct (waiter (mbox p)) as [x|].
  - unfold put_state. erewrite bind_Some by done. cbn. split; [done|]. split; [done|]. split; [done|].
    pose proof (find_set_procs x (fun q => mk_proc (Mailbox.pid q) PROCESS_READY (mbox q)) k1 (wm (env s)) ltac:(done)) as Hx.
    rewrite Hf in Hx. destruct (wm (env s) =? x); eexists; (split; [exact Hx|exact Hrep]).
  - cbn. split; [done|]. split; [done|]. split; [done|]. eexists. split; [exact Hf|exact Hrep].
Qed.
End desk.

(** * A desk to run on: the console of VfsPipe.v and the processes 7 and 9 of Mailbox.v *)

Definition demo_desk (server : Z) (bytes : list (bool * Z)) : input (desk (HS := heap)) :=
  input0 (mk_desk demo_vfs0 demo_kernel server 100 (800, 600) false [] false bytes).

Lemma demo_ring server bytes : input_ring (con (env (demo_desk server bytes))) [].
Proof.
  split; cbn; [done|unfold CONSOLE_INPUT_BUF_SIZE; lia|done|done| |by left].
  intros k x Hk%zget_range. unfold zlen in Hk. cbn in Hk. lia.
Qed.

(** "Hi" is typed and read in one go. *)
Lemma typed_text_is_read_witness :
  let s := demo_desk 0 ((fun b => (false, b)) <$> type_text false [72; 105]) in
  typing s [] /\ exists s', (keyboard_irq_handler (length (pending (env s)));; on_env (on_con (console_input_round 10))) s = Some (Some [72; 105], s').
Proof.
  intros s. assert (typing s []) as Hty by (split; [done|apply demo_ring]). split; [exact Hty|].
  destruct (wp_inv _ _ _ (typed_text_is_read s [] [72; 105] 10 ltac:(by split) Hty ltac:(done)
    ltac:(repeat constructor; try done; [exists 35|exists 23]; (split; [apply in_codes; lia|]); [by right|by left])
    ltac:(vm_compute; reflexivity) ltac:(unfold zlen, CONSOLE_INPUT_BUF_SIZE; cbn; lia) ltac:(done) ltac:(lia))) as (r & s' & E & -> & _).
  exists s'. exact E.
Defined.

Lemma key_goes_to_window_server_witness :
  let s := demo_desk 9 [] in
  exists s' p', input_keyboard_event_ex 65 1 s = Some (tt, s') /\ Mailbox.process_find_by_pid 9 (mail (env s')) = Some p' /\
    mb_rep (mbox p') [(0, wm_request WM_INPUT_KEY 65 1 0)].
Proof.
  intros s. destruct (wp_inv _ _ _ (key_goes_to_window_server s 65 1 (mk_proc 9 PROCESS_READY empty_box) [] ltac:(done) ltac:(done) ltac:(done)
    ltac:(done) empty_box_rep ltac:(done))) as ([] & s' & E & _ & _ & _ & p' & Hp & Hq).
  exists s', p'. exact (conj E (conj Hp Hq)).
Defined.

(** The handler of the keyboard does not look at bit 5 of the status: a byte of the mouse that waits behind a key is
    taken for a scan code (here 0x1E, the key A), and the mouse loses it. *)
Theorem keyboard_takes_mouse_byte : exists s', keyboard_irq_handler 2 (demo_desk 0 [(false, 23); (true, 0x1E)]) = Some (tt, s') /\
  pending (env s') = [] /\ input_ring (con (env s')) [105; 97].
Proof.
  destruct (keyboard_irq_handler 2 (demo_desk 0 [(false, 23); (true, 0x1E)])) as [[[] s']|] eqn:E; [|vm_compute in E; discriminate E].
  exists s'. split; [done|]. vm_compute in E. injection E as <-. split; [done|]. split; cbn [con env console_input_buf console_input_head console_input_count console_input_waiter].
  - done.
  - unfold CONSOLE_INPUT_BUF_SIZE; lia.
  - done.
  - done.
  - intros k x Hk. pose proof (zget_range _ _ _ Hk) as Hr. unfold zlen in Hr. cbn in Hr.
    assert (k = 0 \/ k = 1) as [-> | ->] by lia; exact Hk.
  - by left.
Qed.
