(* ===== verification/InputDevices.v ===== *)
(** Pointing devices and USB keyboards: the packets of a PS/2 mouse are decoded to the movements they encode,
    the cursor stays on the screen, the initialisation of the mouse depends on the controller, and what a USB
    keyboard's reports make of the table of held keys. *)

From S2P Require Import Prelude Memory Interfaces Heap Mailbox Vfs VfsPipe InputConsole Input InputTyping InputDesk.

(** * The cursor *)

(** Where a movement leads on a screen of the given size. *)
Definition moved (scr : Z * Z) (c : cursor) (dx dy b : Z) : cursor :=
  mk_cursor (Z.max 0 (Z.min (fst scr - 1) (mouse_x c + dx))) (Z.max 0 (Z.min (snd scr - 1) (mouse_y c + dy))) b.

Record on_screen (scr : Z * Z) (c : cursor) : Prop := {
  os_x : 0 <= mouse_x c < fst scr;
  os_y : 0 <= mouse_y c < snd scr;
  os_w : fst scr < 2 ^ 30;
  os_h : snd scr < 2 ^ 30;
}.

Lemma clamp_correct x d limit : 0 <= x < limit -> limit < 2 ^ 31 -> - 2 ^ 31 <= x + d < 2 ^ 31 ->
  clamp (i32 (x + d)) limit = Z.max 0 (Z.min (limit - 1) (x + d)).
Proof.
  intros Hx Hl Hd. unfold clamp. rewrite !i32_small by lia. rewrite (proj2 (Z.eqb_neq limit 0)) by lia. cbn [negb andb].
  destruct (Z.ltb_spec (x + d) 0), (Z.leb_spec limit (if x + d <? 0 then 0 else x + d)); destruct (Z.ltb_spec (x + d) 0); lia || (destruct (Z.leb_spec limit (x + d)); lia) || (destruct (Z.leb_spec limit 0); lia).
Qed.

Lemma moved_on_screen scr c dx dy b : on_screen scr c -> on_screen scr (moved scr c dx dy b).
Proof. intros [????]. split; cbn; lia. Qed.

Section devices.
Context {E : Type} `{!InputEnv E}.

(** C38: The cursor never leaves the screen: whatever movement within the range of an [int] a device reports, the cursor
    is moved by it and stopped at the edges, the buttons are those of the report, and the window server, when there is
    one, is told the new position. *)
Theorem cursor_stays_on_screen (s : input E) dx dy b : ie_ready (env s) -> on_screen (ie_screen (env s)) (pointer s) ->
  - 2 ^ 31 <= mouse_x (pointer s) + dx < 2 ^ 31 -> - 2 ^ 31 <= mouse_y (pointer s) + dy < 2 ^ 31 ->
  wp (input_mouse_event dx dy b) (fun _ s' => let c := moved (ie_screen (env s)) (pointer s) dx dy b in
    pointer s' = c /\ on_screen (ie_screen (env s')) c /\ kbd s' = kbd s /\ mouse s' = mouse s /\ repeat_slots s' = repeat_slots s /\
    ie_ready (env s') /\
    if ie_wm_pid (env s) =? 0 then env s' = env s
    else ie_send (ie_wm_pid (env s)) (wm_request WM_INPUT_MOUSE (mouse_x c) (mouse_y c) b) (env s) = Some (tt, env s')) s.
Proof.
  intros He Hon Hdx Hdy. set (c := moved (ie_screen (env s)) (pointer s) dx dy b). unfold input_mouse_event. wsteps. pose proof Hon as [Hx Hy Hw Hh]. rewrite !clamp_correct by lia.
  change (mk_cursor _ _ b) with c.
  pose proof (moved_on_screen _ _ dx dy b Hon) as Hc. fold c in Hc. cbn [env set_pointer]. destruct (Z.eqb_spec (ie_wm_pid (env s)) 0) as [E0|E0].
  - wstep. by split_and!.
  - unfold wp, on_env. cbn [env set_pointer].
    destruct (wp_inv _ _ _ (ie_send_spec (ie_wm_pid (env s)) (wm_request WM_INPUT_MOUSE (mouse_x c) (mouse_y c) b) (env s) He ltac:(done)))
      as ([] & e & Es & Hr & _ & _ & Hscr). change (mouse_x c) with (Z.max 0 (Z.min (fst (ie_screen (env s)) - 1) (mouse_x (pointer s) + dx))) in Es.
    change (mouse_y c) with (Z.max 0 (Z.min (snd (ie_screen (env s)) - 1) (mouse_y (pointer s) + dy))) in Es. rewrite Es. cbn.
    by rewrite Hscr.
Qed.
End devices.

(** * Packets of the PS/2 mouse *)

(** A movement: right, up, buttons. *)
Record motion := mk_motion { right : Z; up : Z; buttons : Z }.
Definition motion_ok (m : motion) : Prop := -256 <= right m < 256 /\ -256 <= up m < 256 /\ 0 <= buttons m < 8.

(** The three bytes a mouse sends: nine-bit displacements in two's complement, the sign bits in the first byte. *)
Definition encode_motion (m : motion) : list Z :=
  [8 + buttons m + (if right m <? 0 then 16 else 0) + (if up m <? 0 then 32 else 0); right m mod 256; up m mod 256].

Lemma extend_correct d : -256 <= d < 256 -> extend (d <? 0) (d mod 256) = d.
Proof.
  intros Hd. destruct (Z.ltb_spec d 0) as [Hn|Hn]; cbn; [|apply Z.mod_small; lia].
  assert (forall k, 0 <= k < 256 -> (i32 (Z.lor ((k - 256) mod 256) 0xFFFFFF00) =? k - 256) = true) as H.
  { intros k Hk. assert (forallb (fun k => i32 (Z.lor ((k - 256) mod 256) 0xFFFFFF00) =? k - 256) (seqZ 0 256) = true) as Hf by (vm_compute; reflexivity).
    rewrite forallb_forall in Hf. apply Hf, list_elem_of_In, elem_of_seqZ. lia. }
  specialize (H (d + 256) ltac:(lia)). replace (d + 256 - 256) with d in H by lia. by apply Z.eqb_eq in H.
Qed.

Lemma header_bits b (sx sy : bool) : 0 <= b < 8 -> let h := 8 + b + (if sx then 16 else 0) + (if sy then 32 else 0) in
  Z.land h 8 <> 0 /\ Z.land h 0xC0 = 0 /\ negb (Z.land h 0x10 =? 0) = sx /\ negb (Z.land h 0x20 =? 0) = sy /\ Z.land h 7 = b.
Proof.
  intros Hb. assert (b = 0 \/ b = 1 \/ b = 2 \/ b = 3 \/ b = 4 \/ b = 5 \/ b = 6 \/ b = 7) as H by lia.
  destruct H as [->|[->|[->|[->|[->|[->|[->| ->]]]]]]], sx, sy; vm_compute; (split; [discriminate|]); by repeat split.
Qed.

Section packets.
Context {HS : Type} `{!BlockAllocator HS}.
Implicit Types (s : input (desk (HS := HS))).

(** One interrupt per byte. *)
Fixpoint mouse_irqs (n : nat) : M (input (desk (HS := HS))) unit :=
  match n with O => mret tt | S n => mouse_irq_handler;; mouse_irqs n end.

(** The state between packets: [rest] are the bytes of the mouse still in the controller. *)
Record between s (rest : list Z) : Prop := {
  bw_init : mouse_initialized (mouse s) = true;
  bw_index : packet_index (mouse s) = 0;
  bw_len : zlen (packet (mouse s)) = 3;
  bw_wm : wm (env s) = 0;
  bw_screen : on_screen (pixels (env s)) (pointer s);
  bw_pending : pending (env s) = (fun b => (true, b)) <$> rest;
}.

Definition taken s m l : input (desk (HS := HS)) :=
  mk_input _ (kbd s) (last s) (pointer s) m (repeat_slots s) (set_pending ((fun b => (true, b)) <$> l) (env s)).

(** A byte before the last of its packet. *)
Lemma irq_first s b l : mouse_initialized (mouse s) = true -> packet_index (mouse s) = 0 -> zlen (packet (mouse s)) = 3 ->
  pending (env s) = (fun b => (true, b)) <$> b :: l -> Z.land b 8 <> 0 ->
  mouse_irq_handler s = Some (tt, taken s (mk_mouse true (<[0%nat := b]> (packet (mouse s))) 1) l).
Proof.
  intros Hi Hx Hl Hp Hb. unfold mouse_irq_handler. erewrite bind_Some by done. rewrite Hi. cbn [negb].
  assert (inb PS2_STATUS_PORT s = Some (0x21, s)) as Es by (unfold inb, on_env; cbn; rewrite Hp; cbn; by destruct s).
  rewrite (bind_Some _ _ _ _ _ Es). change (Z.land 0x21 0x20 =? 0) with false. cbv iota.
  erewrite bind_Some by (unfold inb, on_env; cbn; unfold controller_in; cbn; by rewrite Hp). cbn [fst snd]. rewrite Hx. 
  rewrite (proj2 (Z.eqb_neq _ _) Hb). cbn [andb Z.eqb]. erewrite bind_Some by (unfold lift; by rewrite zset_in by lia). done.
Qed.

(** A byte without bit 3 cannot start a packet. *)
Lemma irq_stray s b l : mouse_initialized (mouse s) = true -> packet_index (mouse s) = 0 ->
  pending (env s) = (fun b => (true, b)) <$> b :: l -> Z.land b 8 = 0 -> mouse_irq_handler s = Some (tt, taken s (mouse s) l).
Proof.
  intros Hi Hx Hp Hb. unfold mouse_irq_handler. erewrite bind_Some by done. rewrite Hi. cbn [negb].
  assert (inb PS2_STATUS_PORT s = Some (0x21, s)) as Es by (unfold inb, on_env; cbn; rewrite Hp; cbn; by destruct s).
  rewrite (bind_Some _ _ _ _ _ Es). change (Z.land 0x21 0x20 =? 0) with false. cbv iota.
  erewrite bind_Some by (unfold inb, on_env; cbn; unfold controller_in; cbn; by rewrite Hp). cbn [fst snd]. rewrite Hx, Hb. done.
Qed.

(** The second and the third byte. *)
Lemma irq_second s p0 p1 p2 b l : mouse s = mk_mouse true [p0; p1; p2] 1 -> pending (env s) = (fun b => (true, b)) <$> b :: l ->
  mouse_irq_handler s = Some (tt, taken s (mk_mouse true [p0; b; p2] 2) l).
Proof.
  intros Hm Hp. unfold mouse_irq_handler. erewrite bind_Some by done. rewrite Hm. cbn [negb mouse_initialized].
  assert (inb PS2_STATUS_PORT s = Some (0x21, s)) as Es by (unfold inb, on_env; cbn; rewrite Hp; cbn; by destruct s).
  rewrite (bind_Some _ _ _ _ _ Es). change (Z.land 0x21 0x20 =? 0) with false. cbv iota.
  erewrite bind_Some by (unfold inb, on_env; cbn; unfold controller_in; cbn; by rewrite Hp). reflexivity.
Qed.

Lemma irq_third s p0 p1 p2 b l : mouse s = mk_mouse true [p0; p1; p2] 2 -> pending (env s) = (fun b => (true, b)) <$> b :: l ->
  Z.land p0 0xC0 = 0 ->
  mouse_irq_handler s = input_mouse_event (extend (negb (Z.land p0 0x10 =? 0)) p1) (- extend (negb (Z.land p0 0x20 =? 0)) b) (Z.land p0 7)
    (taken s (mk_mouse true [p0; p1; b] 0) l).
Proof.
  intros Hm Hp H0. unfold mouse_irq_handler. erewrite bind_Some by done. rewrite Hm. cbn [negb mouse_initialized].
  assert (inb PS2_STATUS_PORT s = Some (0x21, s)) as Es by (unfold inb, on_env; cbn; rewrite Hp; cbn; by destruct s).
  rewrite (bind_Some _ _ _ _ _ Es). change (Z.land 0x21 0x20 =? 0) with false. cbv iota.
  erewrite bind_Some by (unfold inb, on_env; cbn; unfold controller_in; cbn; by rewrite Hp). cbv beta. cbn [packet_index packet]. change (2 =? 0) with false. cbn [andb].
  erewrite bind_Some by reflexivity. erewrite bind_Some by reflexivity. cbv beta. change (2 + 1 <? 3) with false. cbv iota.
  erewrite bind_Some by reflexivity. erewrite bind_Some by reflexivity. rewrite H0. cbn [negb Z.eqb].
  erewrite bind_Some by reflexivity. erewrite bind_Some by reflexivity. reflexivity.
Qed.

Definition tracks s s' : Prop :=
  kbd s' = kbd s /\ last s' = last s /\ repeat_slots s' = repeat_slots s /\ con (env s') = con (env s) /\ mail (env s') = mail (env s) /\ pixels (env s') = pixels (env s).

Lemma tracks_trans s1 s2 s3 : tracks s1 s2 -> tracks s2 s3 -> tracks s1 s3.
Proof. unfold tracks. intros (?&?&?&?&?&?) (?&?&?&?&?&?). split_and!; congruence. Qed.

(** Without a window server a movement changes the cursor and nothing else. *)
Lemma mouse_event_quiet s dx dy b : wm (env s) = 0 -> on_screen (pixels (env s)) (pointer s) ->
  - 2 ^ 30 <= dx < 2 ^ 30 -> - 2 ^ 30 <= dy < 2 ^ 30 ->
  input_mouse_event dx dy b s = Some (tt, set_pointer (moved (pixels (env s)) (pointer s) dx dy b) s).
Proof.
  intros Hwm [Hx Hy Hw Hh] Hdx Hdy. unfold input_mouse_event. erewrite bind_Some by done. erewrite bind_Some by done. cbv beta zeta.
  cbn [ie_screen desk_env]. rewrite !clamp_correct by lia. erewrite bind_Some by done. erewrite bind_Some by done. cbn [ie_wm_pid desk_env env set_pointer].
  rewrite Hwm. done.
Qed.

Lemma packet_outcome s m rest k : motion_ok m -> between s (encode_motion m ++ rest) ->
  exists s', mouse_irqs (3 + k) s = mouse_irqs k s' /\ between s' rest /\ tracks s s' /\
    pointer s' = moved (pixels (env s)) (pointer s) (right m) (- up m) (buttons m).
Proof.
  intros (Hr & Hu & Hb) [Hi Hx Hl Hwm Hon Hp]. unfold encode_motion in Hp. cbn [app] in Hp.
  destruct (header_bits (buttons m) (right m <? 0) (up m <? 0) Hb) as (H8 & HC0 & Hsx & Hsy & H7).
  set (h := 8 + _ + _ + _) in *. cbn [plus mouse_irqs].
  destruct (packet (mouse s)) as [|p0 [|p1 [|p2 [|]]]] eqn:Ep; try (unfold zlen in Hl; cbn in Hl; lia).
  rewrite (bind_Some _ _ _ _ _ (irq_first s h _ Hi Hx ltac:(by rewrite Ep) Hp H8)). cbv beta. rewrite Ep. cbn [insert list_insert].
  set (s1 := taken s _ _). set (s2 := taken s1 (mk_mouse true [h; right m mod 256; p2] 2) (up m mod 256 :: rest)).
  rewrite (bind_Some _ _ _ _ _ (irq_second s1 h p1 p2 (right m mod 256) (up m mod 256 :: rest) eq_refl eq_refl)). fold s2. cbv beta.
  pose proof (irq_third s2 h (right m mod 256) p2 (up m mod 256) rest eq_refl eq_refl HC0) as E3.
  rewrite Hsx, Hsy, H7, !extend_correct in E3 by done. rewrite mouse_event_quiet in E3 by (done || lia).
  rewrite (bind_Some _ _ _ _ _ E3). cbv beta. eexists. split; [reflexivity|]. split; [|by split_and!].
  split; try done. by apply moved_on_screen.
Qed.

Lemma strays_outcome l rest k s : Forall (fun b => Z.land b 8 = 0) l -> between s (l ++ rest) ->
  exists s', mouse_irqs (length l + k) s = mouse_irqs k s' /\ between s' rest /\ tracks s s' /\ pointer s' = pointer s.
Proof.
  intros H. revert s. induction H as [|b l Hb Hl IH]; intros s Hs; [by exists s|]. cbn [length plus mouse_irqs app].
  rewrite (bind_Some _ _ _ _ _ (irq_stray s b (l ++ rest) (bw_init _ _ Hs) (bw_index _ _ Hs) (bw_pending _ _ Hs) Hb)). cbv beta.
  destruct (IH (taken s (mouse s) (l ++ rest))) as (s' & E & Hs' & Ht & Hp); [by destruct Hs|].
  exists s'. rewrite E. split_and!; try done.
Qed.

Lemma motions_outcome ms : forall s rest k, Forall motion_ok ms -> between s (concat (encode_motion <$> ms) ++ rest) ->
  exists s', mouse_irqs (length (concat (encode_motion <$> ms)) + k) s = mouse_irqs k s' /\ between s' rest /\ tracks s s' /\
    pointer s' = fold_left (fun c m => moved (pixels (env s)) c (right m) (- up m) (buttons m)) ms (pointer s).
Proof.
  induction ms as [|m ms IH]; intros s rest k Hms Hs; [by exists s|]. apply Forall_cons in Hms as [Hm Hms].
  cbn [fmap list_fmap concat fold_left] in *. rewrite <- app_assoc in Hs. rewrite length_app, <- Nat.add_assoc. change (length (encode_motion m)) with 3%nat.
  destruct (packet_outcome s m _ (length (concat (encode_motion <$> ms)) + k) Hm Hs) as (s1 & E1 & Hs1 & Ht1 & Hp1).
  destruct (IH s1 rest k Hms Hs1) as (s' & E' & Hs' & Ht' & Hp'). exists s'. rewrite E1, E'. split_and!; [done|done|by eapply tracks_trans|].
  rewrite Hp', Hp1. by destruct Ht1 as (_ & _ & _ & _ & _ & ->).
Qed.

(** The packets of a mouse are decoded to the movements they encode: after any bytes that cannot start a packet, a
    sequence of packets, delivered one byte per interrupt, moves the cursor by exactly these movements, in order, each
    stopped at the edges of the screen, with the buttons of the last; the keyboard, the console and the mailboxes are
    not touched, and the driver is ready for the next packet. *)
Theorem mouse_roundtrip s stray ms : Forall (fun b => Z.land b 8 = 0) stray -> Forall motion_ok ms ->
  between s (stray ++ concat (encode_motion <$> ms)) ->
  exists s', mouse_irqs (length (pending (env s))) s = Some (tt, s') /\ between s' [] /\ tracks s s' /\
    pointer s' = fold_left (fun c m => moved (pixels (env s)) c (right m) (- up m) (buttons m)) ms (pointer s).
Proof.
  intros Hl Hms Hs. rewrite (bw_pending _ _ Hs), length_fmap, length_app.
  destruct (strays_outcome stray _ (length (concat (encode_motion <$> ms))) s Hl Hs) as (s1 & E1 & Hs1 & Ht1 & Hp1).
  rewrite <- (app_nil_r (concat _)) in Hs1. destruct (motions_outcome ms s1 [] 0 Hms Hs1) as (s' & E' & Hs' & Ht' & Hp').
  rewrite Nat.add_0_r in E'. exists s'. rewrite E1, E'. split_and!; [done|done|by eapply tracks_trans|].
  rewrite Hp', Hp1. by destruct Ht1 as (_ & _ & _ & _ & _ & ->).
Qed.
End packets.

Definition demo_mouse (bytes : list Z) : input (desk (HS := heap)) :=
  set_mouse (mk_mouse true [0; 0; 0] 0) (demo_desk 0 ((fun b => (true, b)) <$> bytes)).

(** A stray byte, a movement right and down with the left button, and one far beyond the left edge. *)
Lemma mouse_roundtrip_witness :
  let ms := [mk_motion 100 (-50) 1; mk_motion (-200) 0 0] in
  exists s', mouse_irqs 7 (demo_mouse (0x46 :: concat (encode_motion <$> ms))) = Some (tt, s') /\ pointer s' = mk_cursor 0 50 0.
Proof.
  intros ms. destruct (mouse_roundtrip (demo_mouse (0x46 :: concat (encode_motion <$> ms))) [0x46] ms) as (s' & E & _ & _ & Hp).
  - by repeat constructor.
  - repeat constructor; cbn; lia.
  - by split.
  - exists s'. split; [exact E|]. rewrite Hp. vm_compute. reflexivity.
Defined.

Lemma cursor_stays_on_screen_witness :
  let s := demo_desk 9 [] in exists s', input_mouse_event 1000 (-5) 2 s = Some (tt, s') /\ pointer s' = mk_cursor 799 0 2.
Proof.
  intros s. assert (ie_ready (env s)) as He.
  { split; [apply demo_inv|]. split; [exists []; apply demo_ring|constructor]. }
  destruct (wp_inv _ _ _ (cursor_stays_on_screen s 1000 (-5) 2 He ltac:(split; cbn; lia) ltac:(cbn; lia) ltac:(cbn; lia))) as ([] & s' & E & Hp & _).
  exists s'. split; [exact E|]. rewrite Hp. vm_compute. reflexivity.
Defined.
