(* ===== verification/InputHid.v ===== *)
(** USB keyboards (usb_hid.c) and the initialisation of the PS/2 devices: the table of held keys never holds
    a key twice and after a report only keys of that report; initialising the keyboard returns on every
    controller, initialising the mouse does not. *)

From S2P Require Import Prelude Input.

(** * The table of held keys *)

Definition usages (l : list repeat_slot) : list Z := usage <$> l.

Record slots_wf (l : list repeat_slot) : Prop := {
  sl_len : length l = 6%nat;
  sl_u8 : Forall is_u8 (usages l);
  sl_once : forall i j u, usages l !! i = Some u -> usages l !! j = Some u -> u <> 0 -> i = j;
}.

Lemma usages_insert l i o : usages (<[i := o]> l) = <[i := usage o]> (usages l).
Proof. apply list_fmap_insert. Qed.

Lemma zget_usages l i o : zget l i = Some o -> usages l !! Z.to_nat i = Some (usage o).
Proof. unfold zget, usages. destruct (0 <=? i); [|done]. intros H. by rewrite list_lookup_fmap, H. Qed.

(** Storing a usage that is nowhere else, or 0. *)
Lemma slots_put l i u t : slots_wf l -> 0 <= i < 6 -> is_u8 u -> (u = 0 \/ forall j, usages l !! j = Some u -> j = Z.to_nat i) ->
  slots_wf (<[Z.to_nat i := mk_slot u t]> l).
Proof.
  intros [Hl Hb Ho] Hi Hu Hn. split; [by rewrite length_insert|rewrite usages_insert; by apply Forall_insert|].
  intros a b v. rewrite usages_insert. cbn [usage]. intros Ha%list_lookup_insert_Some Hbb%list_lookup_insert_Some Hv.
  destruct Ha as [(<- & <- & _)|[Hna Ha]], Hbb as [(Eb & Ev & _)|[Hnb Hbb]]; try congruence.
  - destruct Hn as [->|Hn]; [done|]. symmetry. by apply Hn.
  - subst. destruct Hn as [->|Hn]; [done|]. by apply Hn.
  - by eapply Ho.
Qed.

Section hid.
Context {E : Type} `{!InputEnv E}.
Implicit Types (s : input E).

Lemma wp_find_slot u Q s : slots_wf (repeat_slots s) ->
  (forall r, 0 <= r < 6 -> (exists o, zget (repeat_slots s) r = Some o /\ usage o = u) -> Q r s) ->
  ((forall j, usages (repeat_slots s) !! j <> Some u) -> Q (-1) s) -> wp (hid_find_slot u) Q s.
Proof.
  intros Hwf Hfound Hnone. unfold hid_find_slot. wstep.
  assert (forall i, 0 <= i < 6 -> exists o, zget (repeat_slots s) i = Some o) as Hget.
  { intros i Hi. apply zget_Some. unfold zlen. rewrite (sl_len _ Hwf). lia. }
  apply (wp_for_search (fun i => match zget (repeat_slots s) i with Some o => usage o =? u | None => false end)).
  - intros i Hi Hp. destruct (Hget i Hi) as [o Ho]. rewrite Ho in Hp. erewrite bind_Some by done. unfold lift. 
    erewrite bind_Some by (by rewrite Ho). by rewrite Hp.
  - intros i Hi Hp _. destruct (Hget i Hi) as [o Ho]. rewrite Ho in Hp. wsteps. eapply wp_lift; [exact Ho|]. cbv beta. wstep. rewrite Hp. wstep.
    apply Hfound; [done|]. exists o. split; [done|]. by apply Z.eqb_eq.
  - intros Hall. wstep. apply Hnone. intros j Hj. unfold usages in Hj. rewrite list_lookup_fmap in Hj. apply fmap_Some in Hj as (o & Ho & ->).
    pose proof (lookup_lt_Some _ _ _ Ho) as Hlt. rewrite (sl_len _ Hwf) in Hlt. specialize (Hall (Z.of_nat j) ltac:(lia)).
    unfold zget in Hall. rewrite (proj2 (Z.leb_le 0 _)), Nat2Z.id, Ho in Hall by lia. by rewrite Z.eqb_refl in Hall.
Qed.

Lemma wp_put_slot i o Q s : slots_wf (repeat_slots s) -> 0 <= i < 6 ->
  Q tt (set_slots (<[Z.to_nat i := o]> (repeat_slots s)) s) -> wp (put_slot i o) Q s.
Proof.
  intros Hwf Hi HQ. unfold put_slot. wsteps. eapply wp_lift; [apply zset_in; unfold zlen; rewrite (sl_len _ Hwf); lia|].
  cbv beta. by apply wp_modify.
Qed.

(** Event layer, console and mailboxes leave the table alone. *)
Definition safe_event s s' : Prop := ie_ready (env s') /\ repeat_slots s' = repeat_slots s.

Lemma wp_env_op {A} (m : M E A) s (Q : E -> Prop) : wp m (fun _ e' => ie_ready e' /\ Q e') (env s) -> wp (on_env m) (fun _ => safe_event s) s.
Proof. unfold wp, on_env, safe_event. destruct (m (env s)) as [[a e]|]; [by intros [? _]|done]. Qed.

Lemma safe_trans {A} (m : M (input E) A) s s1 : safe_event s s1 -> wp m (fun _ => safe_event s1) s1 -> wp m (fun _ => safe_event s) s1.
Proof. intros [_ E1] H. eapply wp_mono; [exact H|]. intros _ s2 [H2 E2]. split; [done|congruence]. Qed.

Lemma view_safe m s : ie_ready (env s) -> (m = ie_scroll_up \/ m = ie_scroll_down \/ m = ie_scroll_to_bottom \/ m = ie_ctrl_c) ->
  wp (on_env m) (fun _ => safe_event s) s.
Proof. intros H1 Hm. eapply wp_env_op. by apply ie_view_spec. Qed.

Lemma push_safe key s : ie_ready (env s) -> wp (on_env (ie_push (u8 key))) (fun _ => safe_event s) s.
Proof. intros H1. eapply wp_env_op. apply ie_push_spec; [done|apply u8_range]. Qed.

Lemma console_key_safe key s : ie_ready (env s) -> wp (console_key key) (fun _ => safe_event s) s.
Proof.
  intros He. unfold console_key, keyboard_ctrl_pressed. wsteps. assert (safe_event s s) as Hrefl by done.
  match goal with |- wp ?m _ _ => assert (wp m (fun _ => safe_event s) s) as Hfirst end.
  { destruct (_ || _); [destruct (ctrl_pressed _)|destruct (key =? KEY_CTRL_C)]; try (by wstep); by apply push_safe. }
  eapply wp_mono; [exact Hfirst|]. intros [] s1 Hs1. pose proof Hs1 as [H1 _].
  destruct (_ && _); [apply (safe_trans _ _ _ Hs1), view_safe; eauto|]. destruct (_ && _); [apply (safe_trans _ _ _ Hs1), view_safe; eauto|].
  destruct (key =? KEY_CTRL_C); [|by wstep]. apply (safe_trans _ _ _ Hs1). wsteps. destruct (ie_is_scrolled (env s1)).
  - eapply wp_mono; [apply view_safe; eauto|]. intros [] s2 Hs2. apply (safe_trans _ _ _ Hs2), view_safe; [apply Hs2|eauto].
  - wsteps. apply view_safe; eauto.
Qed.

Lemma event_safe key pr s : ie_ready (env s) -> wp (input_keyboard_event_ex key pr) (fun _ => safe_event s) s.
Proof.
  intros He. unfold input_keyboard_event_ex. destruct (key =? 0); wsteps; [done|]. destruct (is_duplicate _ _ _ _); wsteps; [done|].
  destruct (negb _); [eapply (wp_env_op _ (set_last _ s)); by apply ie_send_spec|].
  destruct (pr =? 0); wsteps; [done|]. by apply (console_key_safe key (set_last _ s)).
Qed.

(** * A report *)

Definition report_ok (r : list Z) : Prop := zlen r = 8 /\ Forall is_u8 r.

Lemma report_get r i : report_ok r -> 0 <= i < 8 -> exists u, zget r i = Some u /\ is_u8 u.
Proof.
  intros [Hl Hu] Hi. destruct (zget_Some r i) as [u Hg]; [lia|]. exists u. split; [done|].
  unfold zget in Hg. destruct (0 <=? i); [|done]. by eapply Forall_lookup_1.
Qed.

Lemma decode_some u sh ct : is_u8 u -> exists key, hid_decode_usage u sh ct = Some key.
Proof.
  intros Hu. unfold is_u8 in Hu. unfold hid_decode_usage. repeat (case_match; [by eexists|]). case_match; [|by eexists].
  destruct sh; apply zget_Some; unfold zlen; cbn; lia.
Qed.

Lemma track_outcome now u s : slots_wf (repeat_slots s) -> is_u8 u -> 1 < u ->
  wp (hid_track now u) (fun _ s' => slots_wf (repeat_slots s') /\ env s' = env s /\
    forall v, v <> 0 -> v ∈ usages (repeat_slots s') -> v = u \/ v ∈ usages (repeat_slots s)) s.
Proof.
  intros Hwf Hu Hpos. unfold hid_track. wstep. apply wp_find_slot; [done| |].
  - intros i Hi (o & Ho & Eo). rewrite (proj2 (Z.ltb_ge i 0)) by lia. wsteps. eapply wp_lift; [exact Ho|]. cbv beta.
    destruct (_ <=? _); wsteps; [|by eauto]. apply wp_put_slot; [done|lia|]. wstep.
    assert (usages (<[Z.to_nat i := mk_slot (usage o) (u64 (now + HID_REPEAT_RATE_TICKS))]> (repeat_slots s)) = usages (repeat_slots s)) as Eu.
    { rewrite usages_insert. cbn. apply list_insert_id. by apply zget_usages. }
    split_and!; [|done|intros v Hv Hin; right; rewrite <- Eu; exact Hin]. apply slots_put; [done|lia|by rewrite Eo|]. right. intros j Hj.
    eapply (sl_once _ Hwf); [exact Hj|by apply zget_usages|lia].
  - intros Hnone. change (-1 <? 0) with true. cbv iota. wstep. apply wp_find_slot; [done| |].
    + intros i Hi _. rewrite (proj2 (Z.leb_le 0 i)) by lia. wstep. apply wp_put_slot; [done|lia|]. wstep.
      split; [|split; [done|]].
      * apply slots_put; [done|lia|done|]. right. intros j Hj. by destruct (Hnone j).
      * intros v Hv Hin. cbn [repeat_slots set_slots] in Hin. rewrite usages_insert in Hin. cbn [usage] in Hin.
        apply list_elem_of_lookup in Hin as [j Hj]. apply list_lookup_insert_Some in Hj as [(_ & <- & _)|[_ Hj]]; [by left|right].
        apply list_elem_of_lookup. eauto.
    + intros _. cbn. wsteps. eauto.
Qed.

(** The table of held keys stays sound: processing a report never leaves its arrays, no key is held twice, and
    afterwards only keys of the report are held, so a key that is up can neither repeat nor be released again. *)
Theorem hid_slots_invariant s r : slots_wf (repeat_slots s) -> ie_ready (env s) -> report_ok r ->
  wp (usb_hid_keyboard_report r) (fun _ s' => slots_wf (repeat_slots s') /\ ie_ready (env s') /\
    forall v, v <> 0 -> v ∈ usages (repeat_slots s') -> exists i, 2 <= i < 8 /\ zget r i = Some v) s.
Proof.
  intros Hwf He Hr. unfold usb_hid_keyboard_report. destruct (report_get r 0 Hr) as (m & Hm & _); [lia|].
  wstep. eapply wp_lift; [exact Hm|]. cbv beta.
  set (sh := negb (Z.land m 0x22 =? 0)). set (ct := negb (Z.land m 0x11 =? 0)).
  wstep. unfold keyboard_set_ctrl_state, on_kbd at 1, wp at 1. cbn. wsteps.
  match goal with |- wp _ _ ?x => set (s1 := x) end. assert (slots_wf (repeat_slots s1) /\ ie_ready (env s1)) as [Hwf1 He1] by done.
  clearbody s1. clear Hwf He Hm s.
  apply (wp_for_range (fun _ s' => slots_wf (repeat_slots s') /\ ie_ready (env s'))); [done|lia| |].
  { intros i s2 Hi [Hwf2 He2]. destruct (report_get r (2 + i) Hr) as (u & Hu & Hub); [lia|]. wstep. eapply wp_lift; [exact Hu|]. cbv beta.
    destruct (Z.leb_spec u 1) as [Hsm|Hbig]; [by wstep|]. wstep. eapply wp_mono; [by apply track_outcome|]. intros fire s3 (Hwf3 & E3 & _).
    wstep. rewrite <- E3 in He2. destruct (fire : bool); [|by wsteps]. destruct (decode_some u sh ct Hub) as [key Hkey]. wstep.
    eapply wp_lift; [exact Hkey|]. cbv beta. destruct (key =? 0); [by wsteps|]. eapply wp_mono; [by apply event_safe|].
    intros _ s4 [H4 E4]. wstep. by rewrite E4. }
  intros s2 [Hwf2 He2]. wsteps.
  apply (wp_for_range (fun j s' => slots_wf (repeat_slots s') /\ ie_ready (env s') /\
    forall k v, (k < Z.to_nat j)%nat -> usages (repeat_slots s') !! k = Some v -> v <> 0 -> exists i, 2 <= i < 8 /\ zget r i = Some v)).
  - split; [done|]. split; [done|]. intros k v Hk. lia.
  - lia.
  - intros j s3 Hj (Hwf3 & He3 & Hdone). destruct (zget_Some (repeat_slots s3) j) as [o Ho]; [unfold zlen; rewrite (sl_len _ Hwf3); lia|].
    wsteps. eapply wp_lift; [exact Ho|]. cbv beta. pose proof (zget_usages _ _ _ Ho) as Hou.
    assert (forall P : Z -> Prop, (forall k v, (k < Z.to_nat j)%nat -> usages (repeat_slots s3) !! k = Some v -> P v) -> P (usage o) ->
      forall k v, (k < Z.to_nat (j + 1))%nat -> usages (repeat_slots s3) !! k = Some v -> P v) as Hext.
    { intros P HP Ho' k v Hk Hv. destruct (decide (k = Z.to_nat j)) as [->|]; [by simplify_eq|]. apply (HP k); [lia|done]. }
    destruct (Z.eqb_spec (usage o) 0) as [E0|E0].
    { wstep. split; [done|]. split; [done|]. apply (Hext (fun v => v <> 0 -> _)); [exact Hdone|done]. }
    wstep. apply (wp_for_search (fun i => match zget r (2 + i) with Some u => u =? usage o | None => false end)).
    + intros i Hi Hp. destruct (report_get r (2 + i) Hr) as (u & Hu & _); [lia|]. rewrite Hu in Hp. unfold lift. erewrite bind_Some by (by rewrite Hu). by rewrite Hp.
    + intros i Hi Hp _. destruct (report_get r (2 + i) Hr) as (u & Hu & _); [lia|]. rewrite Hu in Hp. wstep. eapply wp_lift; [exact Hu|]. cbv beta. rewrite Hp. wstep. wsteps.
      split; [done|]. split; [done|]. apply (Hext (fun v => v <> 0 -> _)); [exact Hdone|]. intros _. exists (2 + i). split; [lia|].
      apply Z.eqb_eq in Hp. by rewrite <- Hp.
    + intros _. wstep. assert (is_u8 (usage o)) as Hob by (eapply Forall_lookup_1; [apply (sl_u8 _ Hwf3)|exact Hou]).
      destruct (decode_some (usage o) sh ct Hob) as [key Hkey]. wstep. eapply wp_lift; [exact Hkey|]. cbv beta. wstep.
      match goal with |- wp ?m _ _ => assert (wp m (fun _ => safe_event s3) s3) as Hev by (destruct (key =? 0); [by wstep|by apply event_safe]) end.
      eapply wp_mono; [exact Hev|]. intros _ s4 [H4 E4]. rewrite <- E4 in *. apply wp_put_slot; [done|lia|]. wstep.
      split; [apply slots_put; [done|lia|unfold is_u8; lia|by left]|]. split; [done|]. intros k v Hk Hv Hne. cbn [repeat_slots set_slots] in Hv.
      rewrite usages_insert in Hv. cbn [usage] in Hv. apply list_lookup_insert_Some in Hv as [(_ & <- & _)|[Hnk Hv]]; [done|]. apply (Hdone k); [lia|done|done].
  - intros s3 (Hwf3 & He3 & Hdone). wsteps. split; [done|]. split; [done|]. intros v Hv [k Hk]%list_elem_of_lookup.
    apply (Hdone k); [|done|done]. apply lookup_lt_Some in Hk. unfold usages in Hk. rewrite length_fmap, (sl_len _ Hwf3) in Hk. lia.
Qed.
End hid.

(** * Initialisation *)

Section init.
Context {E : Type} `{!InputEnv E}.
Implicit Types (s : input E).

Definition settled (s s' : input E) : Prop := ie_ready (env s').

Lemma inb_safe p s : ie_ready (env s) -> wp (inb p) (fun r s' => is_u8 r /\ ie_ready (env s') /\ kbd s' = kbd s) s.
Proof.
  intros He. unfold inb, wp, on_env. destruct (wp_inv _ _ _ (ie_in_spec p _ He)) as (r & e & -> & Hr & H & _). done.
Qed.

Lemma outb_safe p v s : ie_ready (env s) -> wp (outb p v) (fun _ s' => ie_ready (env s') /\ kbd s' = kbd s) s.
Proof.
  intros He. unfold outb, wp, on_env. destruct (wp_inv _ _ _ (ie_out_spec p v _ He)) as (r & e & -> & H & _). done.
Qed.

Lemma poll_safe n body s : ie_ready (env s) -> 1 <= n ->
  (forall s', ie_ready (env s') -> kbd s' = kbd s -> wp body (fun _ s'' => ie_ready (env s'') /\ kbd s'' = kbd s) s') ->
  wp (poll n body) (fun _ s' => ie_ready (env s') /\ kbd s' = kbd s) s.
Proof.
  intros He Hn Hbody. unfold poll. apply (wp_for_range (fun _ s' => ie_ready (env s') /\ kbd s' = kbd s)); [done|lia| |done].
  intros i s' _ [H1 H2]. eapply wp_mono; [by apply Hbody|]. intros [v|] s''; done.
Qed.

(** Initialising the keyboard returns on every controller, present or not, whatever its ports answer: every wait is
    bounded.  When the self test does not answer 0x55 the keyboard is marked absent and its state kept; otherwise all
    modifiers are released, and the keyboard is marked present exactly when it acknowledged the reset. *)
Theorem keyboard_init_returns s : ie_ready (env s) ->
  wp keyboard_init (fun _ s' => ie_ready (env s') /\
    (kbd s' = set_kbd_init false (kbd s) \/
     exists b, kbd s' = mk_kbd false false false false false b (down_key_for_scancode (kbd s)))) s.
Proof.
  intros He. unfold keyboard_init. wstep. eapply wp_mono; [by apply outb_safe|]. intros _ s1 [H1 K1].
  wstep. eapply wp_mono; [by apply outb_safe|]. intros _ s2 [H2 K2]. wstep. eapply wp_mono; [by apply outb_safe|]. intros _ s3 [H3 K3].
  wstep. eapply wp_mono; [by apply inb_safe|]. intros test s4 (_ & H4 & K4). assert (kbd s4 = kbd s) as K by congruence.
  destruct (negb (test =? 0x55)).
  { unfold wp, on_kbd. cbn. split; [done|left]. by rewrite K. }
  wstep. unfold wp at 1, on_kbd at 1. cbn. match goal with |- wp _ _ ?x => set (s5 := x) end.
  assert (ie_ready (env s5)) as H5 by done. assert (kbd s5 = mk_kbd false false false false false (keyboard_initialized (kbd s)) (down_key_for_scancode (kbd s))) as K5 by (cbn; by rewrite K).
  clearbody s5. wstep. eapply wp_mono.
  { apply (wp_for_range (fun _ s' => ie_ready (env s') /\ kbd s' = kbd s5) (fun _ s' => ie_ready (env s') /\ kbd s' = kbd s5)); [done|lia| |done].
    intros i s' _ [H' K']. wstep. eapply wp_mono; [by apply inb_safe|]. intros st s'' (_ & H'' & K''). destruct (_ =? 0); [wstep; split; congruence|].
    wstep. eapply wp_mono; [by apply inb_safe|]. intros b s7 (_ & H7 & K7). wstep. split; [done|congruence]. }
  intros _ s6 [H6 K6]. cbv beta. wstep. eapply wp_mono; [by apply outb_safe|]. intros _ s7 [H7 K7]. wstep. eapply wp_mono; [by apply outb_safe|]. intros _ s8 [H8 K8].
  wstep. eapply wp_mono; [apply poll_safe; [done|lia|]|].
  - intros s' H' K'. wstep. eapply wp_mono; [by apply inb_safe|]. intros st s'' (_ & H'' & K''). destruct (_ =? 0); [wstep; split; congruence|].
    wstep. eapply wp_mono; [by apply inb_safe|]. intros b s9 (_ & H9 & K9). wstep. split; [done|congruence].
  - intros ack s9 [H9 K9]. unfold wp, on_kbd. cbn. split; [done|right]. exists (default 0 ack =? 0xFA). rewrite K9, K8, K7, K6, K5. done.
Qed.
End init.

(** * A machine without an 8042 controller: reads float high *)

#[export] Instance floating_bus : InputEnv unit.
Proof.
  refine {|
    ie_in := fun _ => mret 0xFF; ie_out := fun _ _ => mret tt; ie_ticks := fun _ => 0; ie_wm_pid := fun _ => 0; ie_screen := fun _ => (800, 600);
    ie_is_scrolled := fun _ => false; ie_push := fun _ => mret tt; ie_send := fun _ _ => mret tt; ie_scroll_up := mret tt;
    ie_scroll_down := mret tt; ie_scroll_to_bottom := mret tt; ie_ctrl_c := mret tt; ie_ready := fun _ => True |}.
  all: intros; unfold wp; try done. by destruct H0 as [->|[->|[->| ->]]].
Defined.

Lemma keyboard_init_returns_witness : exists s', keyboard_init (input0 tt) = Some (tt, s') /\ keyboard_initialized (kbd s') = false.
Proof.
  destruct (wp_inv _ _ _ (keyboard_init_returns (E := unit) (input0 tt) (I : @ie_ready unit floating_bus tt))) as ([] & s' & E & _). exists s'. split; [exact E|].
  vm_compute in E. by injection E as <-.
Defined.

Lemma flush_floats fuel (s : input unit) : ps2_flush_output_buffer fuel s = None.
Proof. destruct s. induction fuel as [|fuel IH]; [done|exact IH]. Qed.

(** Initialising the mouse hangs on a machine without the controller: reads of the status port give 0xFF, the first
    flush waits for bit 0 to fall without a bound, and no amount of fuel lets it return, although the comments of
    mouse.c and kernel.c promise time limits. *)
Theorem mouse_init_hangs fuel : mouse_init fuel (input0 (tt : unit)) = None.
Proof. unfold mouse_init. erewrite bind_Some by done. unfold mbind at 1, M_bind. by rewrite flush_floats. Qed.

(** A machine that records the key events a report causes, through the window server. *)
Definition tape : Type := list (list Z).

#[export] Instance tape_env : InputEnv tape.
Proof.
  refine {|
    ie_in := fun _ => mret 0; ie_out := fun _ _ => mret tt; ie_ticks := fun _ => 7; ie_wm_pid := fun _ => 1; ie_screen := fun _ => (800, 600);
    ie_is_scrolled := fun _ => false; ie_push := fun _ => mret tt; ie_send := fun _ r => modify (fun t => t ++ [take 12 r]); ie_scroll_up := mret tt;
    ie_scroll_down := mret tt; ie_scroll_to_bottom := mret tt; ie_ctrl_c := mret tt; ie_ready := fun _ => True |}.
  all: intros; unfold wp; try done. by destruct H0 as [->|[->|[->| ->]]].
Defined.

Fixpoint reports (l : list (list Z)) (s : input tape) : option (list (Z * Z)) :=
  match l with
  | [] => Some (List.map (fun r => (default 0 (zget r 4), default 0 (zget r 8))) (env s))
  | r :: l => match usb_hid_keyboard_report r s with Some (_, s) => reports l s | None => None end
  end.

Lemma hid_slots_invariant_witness :
  exists s', usb_hid_keyboard_report [2; 0; 4; 5; 0; 0; 0; 0] (input0 []) = Some (tt, s') /\ slots_wf (repeat_slots s').
Proof.
  assert (slots_wf (repeat_slots (input0 (E := tape) []))) as Hwf.
  { split; [done|repeat constructor; unfold is_u8; cbn; lia|]. intros i j u Hi Hj Hu. exfalso. apply Hu.
    apply list_elem_of_lookup_2 in Hi. change (usages _) with (replicate 6 0) in Hi. by apply elem_of_replicate in Hi as [-> _]. }
  destruct (wp_inv _ _ _ (hid_slots_invariant (input0 (E := tape) []) [2; 0; 4; 5; 0; 0; 0; 0] Hwf (I : @ie_ready tape tape_env [])
    ltac:(split; [done|repeat constructor; unfold is_u8; lia]))) as ([] & s' & E & H & _). exists s'. exact (conj E H).
Defined.

(** A rollover report (every key 1: too many keys are down to tell which) releases the keys that are held. *)
Theorem hid_rollover_releases : reports [[0; 0; 4; 0; 0; 0; 0; 0]; [0; 0; 1; 1; 1; 1; 1; 1]] (input0 []) = Some [(97, 1); (97, 0)].
Proof. vm_compute. reflexivity. Qed.

(** When six keys are replaced by six others in one report, the new ones find no slot: they are pressed again by the
    next report, although the tick of their repetition has not come. *)
Theorem hid_untracked_fires_again :
  reports [[0; 0; 4; 5; 6; 7; 8; 9]; [0; 0; 10; 0; 0; 0; 0; 0]; [0; 0; 10; 11; 0; 0; 0; 0]] (input0 []) =
  Some [(97, 1); (98, 1); (99, 1); (100, 1); (101, 1); (102, 1); (103, 1); (97, 0); (98, 0); (99, 0); (100, 0); (101, 0); (102, 0); (103, 1); (104, 1)].
Proof. vm_compute. reflexivity. Qed.
