(* ===== verification/Ramfs.v ===== *)
(** Model of kernel/fs/ramfs/ramfs.c: the RAM file system, trees of nodes in the kernel heap, mounted by path
    prefix below the VFS.

    Nodes live in a finite map from their address, next to the objects of the VFS (Vfs.v), whose heap they
    share; a pointer to a freed node faults.  A string is its bytes before the NUL.  The data block of a node
    is its address with its contents; [fresh p n] are the contents [kmalloc] leaves in a new block of [n]
    bytes at [p], which the code does not clear. *)

From S2P Require Import Prelude Memory Interfaces Vfs.

Definition RAMFS_MAX_MOUNTS : Z := 4.
Definition RAMFS_MOUNT_PREFIX_MAX : Z := 32.
Definition RAMFS_MAX_NAME : Z := 64.
Definition O_TRUNC : Z := 8.
Definition O_APPEND : Z := 16.
Definition SEEK_SET : Z := 0.
Definition SEEK_CUR : Z := 1.
Definition SEEK_END : Z := 2.
Definition sizeof_node : Z := 112.
Definition slash : Z := 0x2F.

Record ramfs_node := mk_node {
  name : path;
  ntype : file_type;
  ndata : Z;            (* uint8_t *, 0 for NULL *)
  block : list Z;       (* the block behind it *)
  nsize : Z;
  cap : Z;
  parent : Z;
  children : Z;
  next : Z;
}.

Record ram_mount := mk_mount { in_use : bool; prefix : path; root : Z }.

Definition set_children (c : Z) (n : ramfs_node) : ramfs_node :=
  mk_node (name n) (ntype n) (ndata n) (block n) (nsize n) (cap n) (parent n) c (next n).
Definition set_next (c : Z) (n : ramfs_node) : ramfs_node :=
  mk_node (name n) (ntype n) (ndata n) (block n) (nsize n) (cap n) (parent n) (children n) c.
Definition set_data (d : Z) (b : list Z) (size c : Z) (n : ramfs_node) : ramfs_node :=
  mk_node (name n) (ntype n) d b size c (parent n) (children n) (next n).

(** The operation tables: [ramfs_file_ops] and [ramfs_dir_ops]. *)
Definition ramfs_file_ops : file_ops := fs_fops 1.
Definition ramfs_dir_ops : Z := 1.

(** * Paths *)

(** [next_component]: the next component, its length being that of the list, and what follows it. *)
Fixpoint skip_slashes (p : path) : path :=
  match p with c :: q => if c =? slash then skip_slashes q else p | [] => [] end.
Fixpoint take_component (p : path) : path * path :=
  match p with
  | c :: q => if c =? slash then ([], p) else let '(x, r) := take_component q in (c :: x, r)
  | [] => ([], [])
  end.
Definition next_component (p : path) : path * path := take_component (skip_slashes p).

Section ramfs.
Context {HS : Type} `{!BlockAllocator HS} (fresh : Z -> Z -> list Z).

Record ramfs := mk_ramfs {
  base : vfs (HS := HS);
  nodes : gmap Z ramfs_node;
  g_mounts : list ram_mount;
}.

Definition set_nodes (m : gmap Z ramfs_node) (s : ramfs) : ramfs := mk_ramfs (base s) m (g_mounts s).
Definition set_mounts (l : list ram_mount) (s : ramfs) : ramfs := mk_ramfs (base s) (nodes s) l.

Definition on_vfs {A} (m : M (vfs (HS := HS)) A) : M ramfs A := fun s =>
  match m (base s) with Some (a, v) => Some (a, mk_ramfs v (nodes s) (g_mounts s)) | None => None end.

Definition get_node (p : Z) : M ramfs ramfs_node := fun s =>
  match nodes s !! p with Some n => Some (n, s) | None => None end.
Definition put_node (p : Z) (n : ramfs_node) : M ramfs unit := modify (fun s => set_nodes (<[p := n]> (nodes s)) s).

(** [kfree] of a node. *)
Definition free_node (p : Z) : M ramfs unit :=
  on_vfs (kfree p);; modify (fun s => set_nodes (delete p (nodes s)) s).

(** 0 is NULL; the name is cut to 63 bytes. *)
Definition node_alloc (nm : path) (ty : file_type) (par : Z) : M ramfs Z :=
  p ← on_vfs (kmalloc sizeof_node);
  if p =? 0 then mret 0 else
  put_node p (mk_node (take (Z.to_nat (RAMFS_MAX_NAME - 1)) nm) ty 0 [] 0 0 par 0 0);;
  mret p.

(** The number of nodes bounds every walk along [next] and [parent] pointers. *)
Definition node_count : M ramfs nat := gets (fun s => S (stdpp.base.size (nodes s))).

Fixpoint child_loop (fuel : nat) (c : Z) (nm : path) : M ramfs Z :=
  if c =? 0 then mret 0 else
  match fuel with
  | O => fault
  | S fuel =>
      n ← get_node c;
      if bool_decide (name n = nm) then mret c else child_loop fuel (next n) nm
  end.

(** A component has no NUL, so comparing [len] bytes and a NUL after them compares the names. *)
Definition find_child (dir : Z) (nm : path) : M ramfs Z :=
  d ← get_node dir; k ← node_count; child_loop k (children d) nm.

Fixpoint resolve_loop (fuel : nat) (cur : Z) (p : path) : M ramfs Z :=
  let '(comp, rest) := next_component p in
  match comp with
  | [] => mret cur
  | _ =>
      match fuel with
      | O => fault
      | S fuel =>
          n ← get_node cur;
          if negb (bool_decide (ntype n = FT_DIRECTORY)) then mret 0 else
          c ← find_child cur comp;
          if c =? 0 then mret 0 else resolve_loop fuel c rest
      end
  end.

(** Every round consumes at least one byte of the path. *)
Definition resolve (rt : Z) (rel : path) : M ramfs Z := resolve_loop (length rel) rt rel.

(** The parent directory and the last component, [None] for -1. *)
Fixpoint resolve_parent_loop (fuel : nat) (cur : Z) (p : path) : M ramfs (option (Z * path)) :=
  let '(comp, rest) := next_component p in
  match comp with
  | [] => mret None
  | _ =>
      match fuel with
      | O => fault
      | S fuel =>
          n ← get_node cur;
          match skip_slashes rest with
          | [] =>
              if negb (bool_decide (ntype n = FT_DIRECTORY)) then mret None else
              mret (Some (cur, take (Z.to_nat (RAMFS_MAX_NAME - 1)) comp))
          | _ =>
              if negb (bool_decide (ntype n = FT_DIRECTORY)) then mret None else
              c ← find_child cur comp;
              if c =? 0 then mret None else
              o ← get_node c;
              if negb (bool_decide (ntype o = FT_DIRECTORY)) then mret None else
              resolve_parent_loop fuel c rest
          end
      end
  end.

Definition resolve_parent (rt : Z) (rel : path) : M ramfs (option (Z * path)) := resolve_parent_loop (length rel) rt rel.

(** [free_tree]: the children one after the other ([f] frees one of them), then the node.  [fuel] bounds the depth. *)
Fixpoint free_siblings (f : Z -> M ramfs unit) (k : nat) (c : Z) : M ramfs unit :=
  if c =? 0 then mret tt else
  match k with
  | O => fault
  | S k => o ← get_node c; f c;; free_siblings f k (next o)
  end.

Fixpoint free_tree (fuel : nat) (p : Z) : M ramfs unit :=
  match fuel with
  | O => fault
  | S fuel =>
      n ← get_node p;
      k ← node_count;
      free_siblings (free_tree fuel) k (children n);;
      (if ndata n =? 0 then mret tt else on_vfs (kfree (ndata n)));;
      free_node p
  end.

(** * Mounts *)

(** [strncmp(path, prefix, plen) == 0], and a path that ends or continues with a slash there. *)
Definition below (pre p : path) : bool :=
  bool_decide (take (length pre) p = pre) &&
  match drop (length pre) p with [] => true | c :: _ => c =? slash end.

(** The root of the mount a path lies below and the rest of the path, cut to 255 bytes; [None] for NULL. *)
Fixpoint find_mount_for_path (l : list ram_mount) (p : path) : option (Z * path) :=
  match l with
  | [] => None
  | m :: l =>
      if in_use m && below (prefix m) p then Some (root m, take 255 (skip_slashes (drop (length (prefix m)) p)))
      else find_mount_for_path l p
  end.

Definition vfs_ramfs_mount_count : M ramfs Z := gets (fun s => zlen (List.filter in_use (g_mounts s))).

Definition mounted_at (p : path) (m : ram_mount) : bool := in_use m && bool_decide (prefix m = p).

(** The index of the first element that satisfies [f]. *)
Definition first_index (f : ram_mount -> bool) (l : list ram_mount) : option nat := fst <$> list_find (fun m => f m = true) l.

Definition ramfs_mount (pre : path) : M ramfs Z :=
  if negb (absolute pre) then mret (-1) else
  l ← gets g_mounts;
  if existsb (mounted_at pre) l then mret (-2) else
  match first_index (fun m => negb (in_use m)) l with
  | None => mret (-3)
  | Some slot =>
      rt ← node_alloc [] FT_DIRECTORY 0;
      if rt =? 0 then mret (-4) else
      modify (fun s => set_mounts (<[slot := mk_mount true (take (Z.to_nat (RAMFS_MOUNT_PREFIX_MAX - 1)) pre) rt]> (g_mounts s)) s);;
      mret 0
  end.

Definition ramfs_unmount (pre : path) : M ramfs Z :=
  l ← gets g_mounts;
  match list_find (fun m => mounted_at pre m = true) l with
  | None => mret (-1)
  | Some (i, m) =>
      k ← node_count;
      free_tree k (root m);;
      modify (fun s => set_mounts (<[i := mk_mount false (prefix m) 0]> (g_mounts s)) s);;
      mret 0
  end.

(** * Files *)

(** The node behind an open file: 0 when a pointer on the way is NULL. *)
Definition file_node (f : Z) : M ramfs Z :=
  if f =? 0 then mret 0 else
  o ← on_vfs (get_file f);
  if finode o =? 0 then mret 0 else
  i ← on_vfs (get_inode (finode o));
  mret (private_data i).

Definition set_offset (f off : Z) : M ramfs unit :=
  o ← on_vfs (get_file f); on_vfs (put_file f (mk_file (fd o) (finode o) off (fflags o) (fops o))).

(** The result and the bytes stored in the caller's buffer. *)
Definition ramfs_file_read (f count : Z) : M ramfs (Z * list Z) :=
  p ← file_node f;
  if p =? 0 then mret (-1, []) else
  n ← get_node p;
  o ← on_vfs (get_file f);
  if nsize n <=? offset o then mret (0, []) else
  let avail := u32 (nsize n - offset o) in
  let c := if count <? avail then u32 count else avail in
  out ← lift (if offset o + c <=? zlen (block n) then Some (take (Z.to_nat c) (drop (Z.to_nat (offset o)) (block n))) else None);
  set_offset f (u32 (offset o + c));;
  mret (i32 c, out).

(** A larger block when the file's block ends before [end_]: the node with it, [None] for -1. *)
Definition grow (n : ramfs_node) (end_ : Z) : M ramfs (option ramfs_node) :=
  if cap n <? end_ then
    nb ← on_vfs (kmalloc end_);
    if nb =? 0 then mret None else
    b ← lift (if ndata n =? 0 then Some (fresh nb end_) else splice (fresh nb end_) 0 (take (Z.to_nat (nsize n)) (block n)));
    (if ndata n =? 0 then mret tt else on_vfs (kfree (ndata n)));;
    mret (Some (set_data nb b (nsize n) end_ n))
  else mret (Some n).

(** [buf] holds the [count] bytes to write. *)
Definition ramfs_file_write (f : Z) (buf : list Z) : M ramfs Z :=
  let count := zlen buf in
  p ← file_node f;
  if p =? 0 then mret (-1) else
  n ← get_node p;
  o ← on_vfs (get_file f);
  let off := if negb (Z.land (fflags o) O_APPEND =? 0) then nsize n else offset o in
  let end_ := u32 (off + u32 count) in
  n1 ← grow n end_;
  match n1 with
  | None => mret (-1)
  | Some n1 =>
      b ← lift (if count =? 0 then Some (block n1) else splice (block n1) off buf);
      let n2 := set_data (ndata n1) b (if nsize n1 <? end_ then end_ else nsize n1) (cap n1) n1 in
      put_node p n2;;
      set_offset f end_;;
      o ← on_vfs (get_file f);
      i ← on_vfs (get_inode (finode o));
      on_vfs (put_inode (finode o) (mk_inode (ino i) (type i) (nsize n2) (ref_count i) (private_data i) (iops i)));;
      mret (i32 count)
  end.

Definition ramfs_file_seek (f off whence : Z) : M ramfs Z :=
  p ← file_node f;
  if p =? 0 then mret (-1) else
  n ← get_node p;
  o ← on_vfs (get_file f);
  if whence =? SEEK_SET then set_offset f (u32 off);; mret (i32 (u32 off)) else
  if whence =? SEEK_CUR then set_offset f (u32 (offset o + u32 off));; mret (i32 (u32 (offset o + u32 off))) else
  if whence =? SEEK_END then set_offset f (u32 (nsize n + u32 off));; mret (i32 (u32 (nsize n + u32 off))) else
  mret (-1).

Definition ramfs_file_close (f : Z) : M ramfs Z := mret 0.

(** Skipping [index] children; [None] at the end. *)
Fixpoint nth_child (index : nat) (c : Z) : M ramfs Z :=
  if c =? 0 then mret 0 else
  match index with O => mret c | S index => n ← get_node c; nth_child index (next n) end.

(** The result and the directory entry: type and name. *)
Definition ramfs_dir_readdir (dir index : Z) : M ramfs (Z * option (file_type * path)) :=
  if dir =? 0 then mret (-1, None) else
  i ← on_vfs (get_inode dir);
  if private_data i =? 0 then mret (-1, None) else
  dn ← get_node (private_data i);
  c ← nth_child (Z.to_nat index) (children dn);
  if c =? 0 then mret (0, None) else
  n ← get_node c;
  mret (1, Some (ntype n, name n)).

(** * Operations on paths *)

(** A new node at the head of its parent's children: its address, 0 when there is no memory. *)
Definition add_child (par : Z) (leaf : path) (ty : file_type) : M ramfs Z :=
  p ← node_alloc leaf ty par;
  if p =? 0 then mret 0 else
  d ← get_node par;
  n ← get_node p;
  put_node p (set_next (children d) n);;
  d ← get_node par;
  put_node par (set_children p d);;
  mret p.

(** The sequence [vfs_ramfs_open] and [vfs_ramfs_mkdir] share: a new node for the last component of the
    path, 0 for the error -1. *)
Definition create_node (rt : Z) (rel : path) (ty : file_type) : M ramfs Z :=
  r ← resolve_parent rt rel;
  match r with
  | None => mret 0
  | Some (par, leaf) =>
      c ← find_child par leaf;
      if negb (c =? 0) then mret 0 else add_child par leaf ty
  end.

(** The node a path leads to, 0 for NULL. *)
Definition find_node (rt : Z) (rel : path) : M ramfs Z := match rel with [] => mret rt | _ => resolve rt rel end.

(** The node to open: the one the path leads to, or a new file; 0 for the error -1. *)
Definition open_node (rt : Z) (rel : path) (flags : Z) : M ramfs Z :=
  nd ← find_node rt rel;
  if negb (nd =? 0) then mret nd else
  if Z.land flags O_CREAT =? 0 then mret 0 else
  create_node rt rel FT_REGULAR.

Definition vfs_ramfs_open (p : path) (flags : Z) : M ramfs Z :=
  l ← gets g_mounts;
  match find_mount_for_path l p with
  | None => mret (-2)
  | Some (rt, rel) =>
      nd ← open_node rt rel flags;
      if nd =? 0 then mret (-1) else
      n ← on_vfs alloc_fd;
      if n <? 0 then mret (-1) else
      f ← on_vfs alloc_file;
      if f =? 0 then mret (-1) else
      o ← get_node nd;
      if bool_decide (ntype o = FT_DIRECTORY) then
        i ← on_vfs (vfs_create_inode 0 FT_DIRECTORY ramfs_dir_ops nd);
        if i =? 0 then mret (-1) else
        on_vfs (put_file f (mk_file n i 0 flags no_ops));;
        on_vfs (set_cur_file n f 1);;
        mret n
      else
        (if Z.land flags O_TRUNC =? 0 then mret tt else put_node nd (set_data (ndata o) (block o) 0 (cap o) o));;
        i ← on_vfs (vfs_create_inode 0 FT_REGULAR 0 nd);
        if i =? 0 then mret (-1) else
        o ← get_node nd;
        x ← on_vfs (get_inode i);
        on_vfs (put_inode i (mk_inode (ino x) (type x) (nsize o) (ref_count x) (private_data x) (iops x)));;
        on_vfs (put_file f (mk_file n i (if Z.land flags O_APPEND =? 0 then 0 else nsize o) flags ramfs_file_ops));;
        on_vfs (set_cur_file n f 1);;
        mret n
  end.

Definition vfs_ramfs_mkdir (p : path) : M ramfs Z :=
  l ← gets g_mounts;
  match find_mount_for_path l p with
  | None => mret (-2)
  | Some (rt, rel) =>
      match rel with
      | [] => mret (-1)
      | _ => n ← create_node rt rel FT_DIRECTORY; mret (if n =? 0 then -1 else 0)
      end
  end.

(** The child before [target], 0 when there is none. *)
Fixpoint before_child (fuel : nat) (p target : Z) : M ramfs Z :=
  if p =? 0 then mret 0 else
  match fuel with
  | O => fault
  | S fuel => n ← get_node p; if next n =? target then mret p else before_child fuel (next n) target
  end.

(** Taking a node out of its parent's children. *)
Definition unlink_child (par target : Z) : M ramfs unit :=
  d ← get_node par;
  t ← get_node target;
  if children d =? target then put_node par (set_children (next t) d) else
  k ← node_count;
  p ← before_child k (children d) target;
  if p =? 0 then mret tt else
  n ← get_node p;
  put_node p (set_next (next t) n).

Definition vfs_ramfs_unlink (p : path) : M ramfs Z :=
  l ← gets g_mounts;
  match find_mount_for_path l p with
  | None => mret (-2)
  | Some (rt, rel) =>
      match rel with
      | [] => mret (-1)
      | _ =>
          r ← resolve_parent rt rel;
          match r with
          | None => mret (-1)
          | Some (par, leaf) =>
              target ← find_child par leaf;
              if target =? 0 then mret (-1) else
              t ← get_node target;
              if bool_decide (ntype t = FT_DIRECTORY) && negb (children t =? 0) then mret (-1) else
              unlink_child par target;;
              (if ndata t =? 0 then mret tt else on_vfs (kfree (ndata t)));;
              free_node target;;
              mret 0
          end
      end
  end.

(** The new inode, 0 for NULL. *)
Definition vfs_ramfs_lookup (p : path) : M ramfs Z :=
  l ← gets g_mounts;
  match find_mount_for_path l p with
  | None => mret 0
  | Some (rt, rel) =>
      nd ← find_node rt rel;
      if nd =? 0 then mret 0 else
      n ← get_node nd;
      i ← on_vfs (vfs_create_inode 0 (ntype n) (if bool_decide (ntype n = FT_DIRECTORY) then ramfs_dir_ops else 0) nd);
      if i =? 0 then mret 0 else
      x ← on_vfs (get_inode i);
      on_vfs (put_inode i (mk_inode (ino x) (type x) (nsize n) (ref_count x) (private_data x) (iops x)));;
      mret i
  end.
End ramfs.
