(* ===== verification/RamfsTree.v ===== *)
(** The nodes of a RAM file system as trees: chains of children, paths that lead to nodes, and what adding,
    removing and rewriting a node does to them.  [kids p] are the children of [p] in the order of their list. *)

From S2P Require Import Prelude Memory Interfaces Vfs Ramfs.

Notation store := (gmap Z ramfs_node).

(** * Components of a path *)

Fixpoint split_slash (p : path) : list path :=
  match p with
  | [] => [[]]
  | c :: p => if c =? slash then [] :: split_slash p
              else match split_slash p with x :: xs => (c :: x) :: xs | [] => [[c]] end
  end.

Definition components (p : path) : list path := List.filter (fun x => negb (bool_decide (x = []))) (split_slash p).

Lemma components_slash p : components (slash :: p) = components p.
Proof. done. Qed.

Lemma components_skip p : components (skip_slashes p) = components p.
Proof.
  induction p as [|c p IH]; [done|]. cbn [skip_slashes]. destruct (Z.eqb_spec c slash) as [->|]; [|done]. by rewrite IH, components_slash.
Qed.

Lemma skip_shorter p : (length (skip_slashes p) <= length p)%nat.
Proof. induction p as [|c p IH]; [done|]. cbn. destruct (c =? slash); cbn; lia. Qed.

Lemma skip_head p c q : skip_slashes p = c :: q -> c <> slash.
Proof. induction p as [|d p IH]; [done|]. cbn. destruct (Z.eqb_spec d slash); [done|]. by intros [= <- <-]. Qed.

(** What [take_component] splits off. *)
Lemma take_component_split p x r : take_component p = (x, r) -> p = x ++ r /\
  match r with [] => split_slash p = [x] | c :: q => c = slash /\ split_slash p = x :: split_slash q end.
Proof.
  revert x r. induction p as [|c p IH]; intros x r; cbn [take_component].
  { by intros [= <- <-]. }
  destruct (Z.eqb_spec c slash) as [->|Hc]; [by intros [= <- <-]|]. destruct (take_component p) as [x' r'] eqn:E. intros [= <- <-].
  destruct (IH x' r' eq_refl) as [-> H]. split; [done|]. cbn [split_slash]. rewrite (proj2 (Z.eqb_neq _ _) Hc).
  destruct r' as [|d q]; [by rewrite H|]. destruct H as [-> H]. by rewrite H.
Qed.

Lemma components_next p x r : next_component p = (x, r) ->
  (x = [] /\ components p = []) \/ (x <> [] /\ components p = x :: components r /\ (length r < length p)%nat).
Proof.
  unfold next_component. intros H. rewrite <- components_skip. pose proof (skip_shorter p) as Hs.
  destruct (take_component_split _ _ _ H) as [Ep Hr]. destruct x as [|c x].
  - left. split; [done|]. destruct (skip_slashes p) as [|d q] eqn:Eq; [done|]. exfalso. apply (skip_head _ _ _ Eq).
    cbn in H. destruct (Z.eqb_spec d slash); [done|]. by destruct (take_component q).
  - right. split; [done|]. split; [|rewrite Ep, length_app in Hs; cbn in Hs; lia]. unfold components at 1.
    destruct r as [|d q]; [by rewrite Hr|]. destruct Hr as [-> Hr]. by rewrite Hr.
Qed.

Lemma components_nil p : components p = [] <-> skip_slashes p = [].
Proof.
  split; [|intros H; by rewrite <- components_skip, H]. intros H. destruct (next_component p) as [x r] eqn:E.
  destruct (components_next _ _ _ E) as [[-> _]|(_ & Hc & _)]; [|by rewrite H in Hc]. unfold next_component in E.
  destruct (skip_slashes p) as [|c q] eqn:Eq; [done|]. exfalso. apply (skip_head _ _ _ Eq). cbn in E.
  destruct (Z.eqb_spec c slash); [done|]. by destruct (take_component q).
Qed.

Lemma components_nonempty p x : x ∈ components p -> x <> [].
Proof. unfold components. intros [_ H]%list_elem_of_In%List.filter_In. apply negb_true_iff in H. by apply bool_decide_eq_false_1 in H. Qed.

(** * Chains of children *)

Fixpoint chain (m : store) (c : Z) (l : list Z) : Prop :=
  match l with
  | [] => c = 0
  | x :: l => c = x /\ x <> 0 /\ exists n, m !! x = Some n /\ chain m (next n) l
  end.

Lemma chain_frame m m' c l : chain m c l -> (forall x, x ∈ l -> next <$> m' !! x = next <$> m !! x) -> chain m' c l.
Proof.
  revert c. induction l as [|x l IH]; intros c; [done|]. cbn. intros (-> & Hx & n & Hn & Hl) H. split; [done|]. split; [done|].
  assert (next <$> m' !! x = Some (next n)) as (n' & Hn' & En)%fmap_Some by (rewrite H by (by left); by rewrite Hn).
  exists n'. split; [done|]. rewrite <- En. apply IH; [done|]. intros y Hy. apply H. by right.
Qed.

(** * The tree *)

Record tree_ok (m : store) (kids : Z -> list Z) (depth : Z -> nat) : Prop := {
  tk_nonzero : forall p n, m !! p = Some n -> p <> 0;
  tk_chain : forall p n, m !! p = Some n -> chain m (children n) (kids p);
  tk_kid : forall p c, is_Some (m !! p) -> c ∈ kids p -> exists n, m !! c = Some n /\ parent n = p;
  tk_parent : forall c n, m !! c = Some n -> parent n <> 0 -> is_Some (m !! parent n) /\ c ∈ kids (parent n) /\ depth c = S (depth (parent n));
  tk_nodup : forall p, is_Some (m !! p) -> NoDup (kids p);
  tk_names : forall p c1 c2 n1 n2, is_Some (m !! p) -> c1 ∈ kids p -> c2 ∈ kids p -> m !! c1 = Some n1 -> m !! c2 = Some n2 ->
    name n1 = name n2 -> c1 = c2;
  tk_files : forall p n, m !! p = Some n -> ntype n <> FT_DIRECTORY -> kids p = [];
}.

(** The child of the given name. *)
Definition has_name (m : store) (nm : path) (c : Z) : bool :=
  match m !! c with Some n => bool_decide (name n = nm) | None => false end.
Definition child (m : store) (l : list Z) (nm : path) : option Z := List.find (has_name m nm) l.

(** The node a path leads to. *)
Fixpoint walk (m : store) (kids : Z -> list Z) (p : Z) (xs : list path) : option Z :=
  match xs with
  | [] => Some p
  | x :: xs =>
      n ← m !! p;
      if bool_decide (ntype n = FT_DIRECTORY) then c ← child m (kids p) x; walk m kids c xs else None
  end.

Lemma walk_app m kids p xs ys : walk m kids p (xs ++ ys) = (q ← walk m kids p xs; walk m kids q ys).
Proof.
  revert p. induction xs as [|x xs IH]; intros p; [done|]. cbn. destruct (m !! p) as [n|]; [|done]. cbn.
  case_bool_decide; [|done]. destruct (child m (kids p) x) as [c|]; [|done]. cbn. apply IH.
Qed.

Section tree.
Context {m : store} {kids : Z -> list Z} {depth : Z -> nat} (Hok : tree_ok m kids depth).

Lemma child_Some p nm c : is_Some (m !! p) -> child m (kids p) nm = Some c -> c ∈ kids p /\ exists n, m !! c = Some n /\ name n = nm /\ parent n = p.
Proof.
  intros Hp H. unfold child in H. apply List.find_some in H as [Hin Hnm]. apply list_elem_of_In in Hin. split; [done|].
  destruct (tk_kid _ _ _ Hok p c Hp Hin) as (n & Hn & Hpar). exists n. split; [done|]. split; [|done].
  unfold has_name in Hnm. rewrite Hn in Hnm. by case_bool_decide.
Qed.

Lemma child_of p c n : is_Some (m !! p) -> c ∈ kids p -> m !! c = Some n -> child m (kids p) (name n) = Some c.
Proof.
  intros Hp Hc Hn. unfold child. destruct (List.find _ _) as [c'|] eqn:E.
  - destruct (child_Some p (name n) c' Hp E) as (Hc' & n' & Hn' & Hnm & _). f_equal. by apply (tk_names _ _ _ Hok p c' c n' n).
  - pose proof (List.find_none _ _ E c (proj1 (list_elem_of_In _ _) Hc)) as Hno. unfold has_name in Hno. rewrite Hn in Hno. by case_bool_decide.
Qed.

Lemma child_None p nm c n : child m (kids p) nm = None -> c ∈ kids p -> m !! c = Some n -> name n <> nm.
Proof.
  intros H Hc Hn. pose proof (List.find_none _ _ H c (proj1 (list_elem_of_In _ _) Hc)) as Hno. unfold has_name in Hno. rewrite Hn in Hno.
  by case_bool_decide.
Qed.

Lemma walk_in p xs q : is_Some (m !! p) -> walk m kids p xs = Some q -> is_Some (m !! q).
Proof.
  revert p. induction xs as [|x xs IH]; intros p Hp; cbn; [by intros [= <-]|]. pose proof Hp as [n Hn]. rewrite Hn. cbn.
  case_bool_decide; [|done]. destruct (child m (kids p) x) as [c|] eqn:E; [|done]. cbn. apply IH.
  destruct (child_Some p x c Hp E) as (_ & o & Ho & _). by eexists.
Qed.

(** The last step of a path: the parent and the name of the node it leads to. *)
Lemma walk_last p xs x q : is_Some (m !! p) -> walk m kids p (xs ++ [x]) = Some q ->
  exists n, m !! q = Some n /\ name n = x /\ walk m kids p xs = Some (parent n) /\ q ∈ kids (parent n).
Proof.
  intros Hp. rewrite walk_app. destruct (walk m kids p xs) as [r|] eqn:E; [|done]. cbn. pose proof (walk_in _ _ _ Hp E) as Hr.
  pose proof Hr as [o Ho]. rewrite Ho. cbn. case_bool_decide; [|done]. destruct (child m (kids r) x) as [c|] eqn:Ec; [|done]. cbn. intros [= <-].
  destruct (child_Some r x c Hr Ec) as (Hin & n & Hn & Hnm & Hpar). exists n. by rewrite Hpar.
Qed.

(** A node lies below one root only, and has one path from it. *)
Lemma root_end rt xs n0 : m !! rt = Some n0 -> is_Some (m !! rt) -> parent n0 = 0 -> forall p, is_Some (m !! p) -> walk m kids p xs = Some rt -> xs = [].
Proof.
  intros Hrt Hr H0 p Hp Hw. destruct xs as [|x xs _] using rev_ind; [done|]. exfalso.
  destruct (walk_last _ _ _ _ Hp Hw) as (n & Hn & _ & Hw' & _). rewrite Hrt in Hn. injection Hn as <-.
  rewrite H0 in Hw'. destruct (walk_in _ _ _ Hp Hw') as [z Hz]. by destruct (tk_nonzero _ _ _ Hok 0 z Hz).
Qed.

Lemma walk_unique rt n0 rt' n0' : m !! rt = Some n0 -> parent n0 = 0 -> m !! rt' = Some n0' -> parent n0' = 0 -> forall xs ys q,
  walk m kids rt xs = Some q -> walk m kids rt' ys = Some q -> rt = rt' /\ xs = ys.
Proof.
  intros Hrt H0 Hrt' H0' xs. assert (is_Some (m !! rt)) as Hr by by eexists. assert (is_Some (m !! rt')) as Hr' by by eexists.
  induction xs as [|x xs IH] using rev_ind; intros ys q Hx Hy.
  - injection Hx as <-. pose proof (root_end rt ys n0 Hrt Hr H0 rt' Hr' Hy) as ->. injection Hy as <-. done.
  - destruct ys as [|y ys _] using rev_ind.
    + injection Hy as <-. apply (root_end rt' _ n0' Hrt' Hr' H0' rt Hr) in Hx. by destruct xs.
    + destruct (walk_last _ _ _ _ Hr Hx) as (n & Hn & <- & Hw & _). destruct (walk_last _ _ _ _ Hr' Hy) as (n' & Hn' & <- & Hw' & _).
      simplify_eq. by destruct (IH _ _ Hw Hw') as [-> ->].
Qed.

(** A chain fits in the store. *)
Lemma kids_fit p : is_Some (m !! p) -> (length (kids p) <= stdpp.base.size m)%nat.
Proof.
  intros Hp. rewrite <- size_dom, <- (size_list_to_set (C := gset Z) (kids p)) by by apply (tk_nodup _ _ _ Hok).
  apply subseteq_size. intros c Hc%elem_of_list_to_set. destruct (tk_kid _ _ _ Hok p c Hp Hc) as (n & Hn & _). by apply elem_of_dom; eexists.
Qed.
End tree.

(** * Rewriting the contents of nodes *)

Definition shape (n : ramfs_node) : path * file_type * Z * Z * Z := (name n, ntype n, parent n, children n, next n).
Definition same_shape (m m' : store) : Prop := forall p, shape <$> m' !! p = shape <$> m !! p.

Lemma same_shape_at m m' p n' : same_shape m m' -> m' !! p = Some n' -> exists n, m !! p = Some n /\ shape n = shape n'.
Proof. intros H Hn. specialize (H p). rewrite Hn in H. cbn in H. symmetry in H. apply fmap_Some in H as (n & Hm & E). eauto. Qed.

Lemma same_shape_sym m m' : same_shape m m' -> same_shape m' m.
Proof. intros H p. by rewrite H. Qed.

Lemma chain_shape m m' c l : same_shape m m' -> chain m c l -> chain m' c l.
Proof.
  intros H Hc. apply (chain_frame m); [done|]. intros x _. specialize (H x). destruct (m' !! x), (m !! x); cbn in *; try done. by injection H as [= _ _ _ _ ->].
Qed.

Lemma tree_ok_shape m m' kids depth : same_shape m m' -> tree_ok m kids depth -> tree_ok m' kids depth.
Proof.
  intros H [H1 H2 H3 H4 H5 H6 H7]. pose proof (same_shape_sym _ _ H) as Hs.
  assert (forall p, is_Some (m' !! p) -> is_Some (m !! p)) as Hin by (intros p [n' Hn']; destruct (same_shape_at _ _ _ _ H Hn') as (n & Hn & _); by eexists).
  assert (forall p, is_Some (m !! p) -> is_Some (m' !! p)) as Hni by (intros p [n' Hn']; destruct (same_shape_at _ _ _ _ Hs Hn') as (n & Hn & _); by eexists).
  split.
  - intros p n' Hn'. destruct (same_shape_at _ _ _ _ H Hn') as (n & Hn & _). by eapply H1.
  - intros p n' Hn'. destruct (same_shape_at _ _ _ _ H Hn') as (n & Hn & E). injection E as _ _ _ Ec _. rewrite <- Ec. apply (chain_shape m); [done|]. by apply H2.
  - intros p c Hp Hc. destruct (H3 p c (Hin p Hp) Hc) as (n & Hn & Hpar). destruct (same_shape_at _ _ _ _ Hs Hn) as (n' & Hn' & E).
    injection E as _ _ Ep _ _. exists n'. split; [done|congruence].
  - intros c n' Hn' Hp. destruct (same_shape_at _ _ _ _ H Hn') as (n & Hn & E). injection E as _ _ Ep _ _. rewrite <- Ep in *.
    destruct (H4 c n Hn Hp) as (Ha & Hb & Hc). eauto.
  - intros p Hp. by apply H5, Hin.
  - intros p c1 c2 n1' n2' Hp Hc1 Hc2 Hn1' Hn2' Hnm. destruct (same_shape_at _ _ _ _ H Hn1') as (n1 & Hn1 & E1). destruct (same_shape_at _ _ _ _ H Hn2') as (n2 & Hn2 & E2).
    injection E1 as Ea _ _ _ _. injection E2 as Eb _ _ _ _. apply (H6 p c1 c2 n1 n2); [by apply Hin|done|done|done|done|congruence].
  - intros p n' Hn' Ht. destruct (same_shape_at _ _ _ _ H Hn') as (n & Hn & E). injection E as _ Et _ _ _. apply (H7 p n); [done|congruence].
Qed.

Lemma has_name_shape m m' nm c : same_shape m m' -> has_name m' nm c = has_name m nm c.
Proof. intros H. unfold has_name. specialize (H c). destruct (m' !! c), (m !! c); cbn in H; try done. by injection H as -> _ _ _ _. Qed.

Lemma find_ext {A} (f g : A -> bool) l : (forall x, x ∈ l -> f x = g x) -> List.find f l = List.find g l.
Proof. induction l as [|x l IH]; intros H; [done|]. cbn. rewrite H by by left. destruct (g x); [done|]. apply IH. intros y Hy. apply H. by right. Qed.

Lemma walk_shape m m' kids p xs : same_shape m m' -> walk m' kids p xs = walk m kids p xs.
Proof.
  intros H. revert p. induction xs as [|x xs IH]; intros p; [done|]. cbn. pose proof (H p) as Hp.
  assert (child m' (kids p) x = child m (kids p) x) as -> by (apply find_ext; intros c _; by apply has_name_shape).
  destruct (m' !! p), (m !! p); cbn in Hp |- *; try done. injection Hp as _ -> _ _ _. case_bool_decide; [|done]. destruct (child _ _ _); [|done]. apply IH.
Qed.

(** * Adding a node *)

Section insert.
Context {m : store} {kids : Z -> list Z} {depth : Z -> nat} (Hok : tree_ok m kids depth).
Context {par new : Z} {d : ramfs_node} {leaf : path} {ty : file_type}
  (Hpar : m !! par = Some d) (Hdir : ntype d = FT_DIRECTORY) (Hnew : m !! new = None) (Hnz : new <> 0)
  (Hfree : child m (kids par) leaf = None).

Definition added : store := <[par := set_children new d]> (<[new := mk_node leaf ty 0 [] 0 0 par 0 (children d)]> m).
Definition kids_added (p : Z) : list Z := if decide (p = par) then new :: kids par else if decide (p = new) then [] else kids p.
Definition depth_added (p : Z) : nat := if decide (p = new) then S (depth par) else depth p.

Lemma par_ne_new : par <> new.
Proof using Hpar Hnew. clear -Hpar Hnew. intros ->. by rewrite Hnew in Hpar. Qed.

Lemma added_new : added !! new = Some (mk_node leaf ty 0 [] 0 0 par 0 (children d)).
Proof. unfold added. rewrite lookup_insert_ne by apply par_ne_new. apply lookup_insert_eq. Qed.
Lemma added_par : added !! par = Some (set_children new d).
Proof. apply lookup_insert_eq. Qed.
Lemma added_other p : p <> par -> p <> new -> added !! p = m !! p.
Proof. intros H1 H2. unfold added. by rewrite !lookup_insert_ne by congruence. Qed.

(** Old nodes are the same up to their children. *)
Lemma added_old p n : m !! p = Some n -> exists n', added !! p = Some n' /\ name n' = name n /\ ntype n' = ntype n /\ parent n' = parent n /\ next n' = next n /\ (p <> par -> n' = n).
Proof.
  intros Hn. destruct (decide (p = par)) as [->|H1]; [rewrite added_par; eexists; split; [done|]; by simplify_eq|].
  destruct (decide (p = new)) as [->|H2]; [by rewrite Hnew in Hn|]. rewrite added_other by done. eauto 10.
Qed.

Lemma added_inv p n' : added !! p = Some n' -> p = new \/ is_Some (m !! p).
Proof.
  destruct (decide (p = new)) as [->|H2]; [by left|]. right. destruct (decide (p = par)) as [->|H1]; [by eexists|].
  rewrite added_other in H by done. by eexists.
Qed.

Lemma kids_not_new p : is_Some (m !! p) -> new ∉ kids p.
Proof. intros Hp Hin. destruct (tk_kid _ _ _ Hok p new Hp Hin) as (n & Hn & _). by rewrite Hnew in Hn. Qed.

Lemma added_chain c l : chain m c l -> new ∉ l -> chain added c l.
Proof.
  intros H Hn. apply (chain_frame m); [done|]. intros x Hx. destruct (decide (x = par)) as [->|H1]; [by rewrite added_par, Hpar|].
  rewrite added_other; [done|done|]. intros ->. done.
Qed.

Lemma tree_added : tree_ok added kids_added depth_added.
Proof.
  split.
  - intros p n Hp. destruct (added_inv _ _ Hp) as [->|[o Ho]]; [done|]. by eapply tk_nonzero.
  - intros p n Hp. unfold kids_added. destruct (decide (p = par)) as [->|H1].
    + rewrite added_par in Hp. injection Hp as <-. cbn. split; [done|]. split; [done|]. eexists. split; [apply added_new|]. cbn.
      apply added_chain; [by apply (tk_chain _ _ _ Hok par d)|apply kids_not_new; by eexists].
    + destruct (decide (p = new)) as [->|H2]; [rewrite added_new in Hp; by injection Hp as <-|]. rewrite added_other in Hp by done.
      apply added_chain; [by apply (tk_chain _ _ _ Hok p)|apply kids_not_new; by eexists].
  - intros p c [n Hp] Hc. unfold kids_added in Hc.
    assert (forall q, is_Some (m !! q) -> c ∈ kids q -> exists n, added !! c = Some n /\ parent n = q) as Hold.
    { intros q Hq Hcq. destruct (tk_kid _ _ _ Hok q c Hq Hcq) as (o & Ho & Hpo). destruct (added_old _ _ Ho) as (o' & Ho' & _ & _ & Hp' & _). exists o'. split; [done|congruence]. }
    destruct (decide (p = par)) as [->|H1].
    + apply elem_of_cons in Hc as [->|Hc]; [by eexists; rewrite added_new|]. apply Hold; [by eexists|done].
    + destruct (decide (p = new)) as [->|H2]; [by apply not_elem_of_nil in Hc|]. rewrite added_other in Hp by done. apply Hold; [by eexists|done].
  - intros c n Hc Hp. unfold depth_added, kids_added. destruct (decide (c = new)) as [->|Hcn].
    + rewrite added_new in Hc. injection Hc as <-. cbn in *. rewrite decide_True by done. rewrite (decide_False (P := par = new)) by apply par_ne_new.
      split; [rewrite added_par; by eexists|]. split; [by left|done].
    + destruct (added_inv _ _ Hc) as [->|[o Ho]]; [done|]. destruct (added_old _ _ Ho) as (o' & Ho' & _ & _ & Hpo & _ & _). rewrite Hc in Ho'. injection Ho' as <-.
      rewrite Hpo in *. destruct (tk_parent _ _ _ Hok c o Ho Hp) as ([q Hq] & Hin & Hd).
      assert (parent o <> new) as Hne by (intros E; rewrite E, Hnew in Hq; done).
      split; [destruct (added_old _ _ Hq) as (q' & -> & _); by eexists|]. split; [|by destruct (decide (parent o = new))].
      destruct (decide (parent o = par)) as [E|E]; [right; by rewrite <- E|by destruct (decide (parent o = new))].
  - intros p [n Hp]. unfold kids_added. destruct (decide (p = par)) as [->|H1].
    + apply NoDup_cons. split; [apply kids_not_new; by eexists|]. apply (tk_nodup _ _ _ Hok). by eexists.
    + destruct (decide (p = new)); [constructor|]. rewrite added_other in Hp by done. apply (tk_nodup _ _ _ Hok). by eexists.
  - intros p c1 c2 n1 n2 [n Hp] Hc1 Hc2 Hn1 Hn2 Hnm. unfold kids_added in *.
    assert (forall q c nc, is_Some (m !! q) -> c ∈ kids q -> added !! c = Some nc -> exists o, m !! c = Some o /\ name o = name nc) as Hold.
    { intros q c nc Hq Hc Hnc. destruct (tk_kid _ _ _ Hok q c Hq Hc) as (o & Ho & _). destruct (added_old _ _ Ho) as (o' & Ho' & En & _). exists o. split; [done|]. rewrite Hnc in Ho'. by injection Ho' as ->. }
    destruct (decide (p = par)) as [->|H1].
    + assert (is_Some (m !! par)) as Hpp by by eexists.
      assert (forall c nc, c ∈ kids par -> added !! c = Some nc -> name nc <> leaf) as Hno.
      { intros c nc Hc Hnc. destruct (Hold par c nc Hpp Hc Hnc) as (o & Ho & <-). exact (child_None par leaf c o Hfree Hc Ho). }
      apply elem_of_cons in Hc1, Hc2. destruct Hc1 as [->|Hc1], Hc2 as [->|Hc2].
      * done.
      * rewrite added_new in Hn1. injection Hn1 as <-. cbn in Hnm. by destruct (Hno c2 n2 Hc2 Hn2).
      * rewrite added_new in Hn2. injection Hn2 as <-. cbn in Hnm. by destruct (Hno c1 n1 Hc1 Hn1).
      * destruct (Hold _ _ _ Hpp Hc1 Hn1) as (o1 & Ho1 & E1), (Hold _ _ _ Hpp Hc2 Hn2) as (o2 & Ho2 & E2). apply (tk_names _ _ _ Hok par c1 c2 o1 o2); try done. congruence.
    + destruct (decide (p = new)) as [->|H2]; [by apply not_elem_of_nil in Hc1|]. rewrite added_other in Hp by done. assert (is_Some (m !! p)) as Hpp by by eexists.
      destruct (Hold _ _ _ Hpp Hc1 Hn1) as (o1 & Ho1 & E1), (Hold _ _ _ Hpp Hc2 Hn2) as (o2 & Ho2 & E2). apply (tk_names _ _ _ Hok p c1 c2 o1 o2); try done. congruence.
  - intros p n Hp Ht. unfold kids_added. destruct (decide (p = par)) as [->|H1].
    + rewrite added_par in Hp. injection Hp as <-. cbn in Ht. done.
    + destruct (decide (p = new)); [done|]. rewrite added_other in Hp by done. by apply (tk_files _ _ _ Hok p n).
Qed.

Lemma child_added p x : is_Some (m !! p) ->
  child added (kids_added p) x = if decide (p = par /\ x = leaf) then Some new else child m (kids p) x.
Proof.
  intros Hp. assert (child added (kids p) x = child m (kids p) x) as Hold.
  { apply find_ext. intros c Hc. destruct (tk_kid _ _ _ Hok p c Hp Hc) as (o & Ho & _). destruct (added_old _ _ Ho) as (o' & Ho' & En & _).
    unfold has_name. by rewrite Ho, Ho', En. }
  unfold kids_added. destruct (decide (p = par)) as [->|H1].
  - unfold child at 1. cbn [List.find]. unfold has_name at 1. rewrite added_new. cbn [name]. case_bool_decide as E.
    + subst. by rewrite decide_True.
    + rewrite decide_False by (intros [_ ->]; done). exact Hold.
  - rewrite (decide_False (P := p = par /\ x = leaf)) by tauto. destruct (decide (p = new)) as [->|H2]; [|done].
    destruct Hp as [? Hp]. by rewrite Hnew in Hp.
Qed.

Lemma walk_from_new xs : walk added kids_added new xs = if decide (xs = []) then Some new else None.
Proof.
  destruct xs as [|x xs]; [done|]. rewrite decide_False by done. cbn. rewrite added_new. cbn. case_bool_decide; [|done].
  unfold kids_added. rewrite decide_False by (intros E; by apply par_ne_new). by rewrite decide_True.
Qed.

(** The new node is found under its name in its parent, and nothing else changes. *)
Lemma walk_added xs : forall p r, is_Some (m !! p) ->
  (walk added kids_added p xs = Some r <-> walk m kids p xs = Some r \/ (r = new /\ exists ys, xs = ys ++ [leaf] /\ walk m kids p ys = Some par)).
Proof.
  induction xs as [|x xs IH]; intros p r Hp.
  { cbn. split; [by left|]. intros [?|(_ & ys & E & _)]; [done|]. by destruct ys. }
  pose proof Hp as [n Hn]. destruct (added_old _ _ Hn) as (n' & Hn' & _ & Et & _). cbn [walk]. rewrite Hn', Hn. cbn. rewrite Et.
  case_bool_decide as Hty.
  2: { split; [done|]. intros [?|(_ & ys & E & Hw)]; [done|]. destruct ys as [|y ys]; cbn in E, Hw.
    - injection E as -> ->. injection Hw as ->. rewrite Hpar in Hn. by injection Hn as <-.
    - injection E as -> ->. rewrite Hn in Hw. cbn in Hw. by rewrite bool_decide_eq_false_2 in Hw. }
  rewrite child_added by done. destruct (decide (p = par /\ x = leaf)) as [[-> ->]|Hne].
  - cbn. rewrite Hfree, walk_from_new. cbn. split.
    + case_decide as E; [|done]. intros [= <-]. right. split; [done|]. exists []. by subst.
    + intros [?|(-> & ys & E & Hw)]; [done|]. destruct ys as [|y ys]; [injection E as ->; by rewrite decide_True|].
      exfalso. injection E as <- ->. cbn in Hw. rewrite Hpar in Hw. cbn in Hw. rewrite bool_decide_eq_true_2, Hfree in Hw by done. done.
  - destruct (child m (kids p) x) as [c|] eqn:Ec; cbn.
    + destruct (child_Some Hok p x c Hp Ec) as (_ & o & Ho & _). rewrite IH by by eexists.
      split; (intros [?|(-> & ys & E & Hw)]; [by left|right; split; [done|]]).
      * exists (x :: ys). split; [by rewrite E|]. cbn. rewrite Hn. cbn. by rewrite bool_decide_eq_true_2, Ec.
      * destruct ys as [|y ys]; cbn in E, Hw; [injection E as -> _; injection Hw as ->; by destruct Hne|]. injection E as <- ->.
        exists ys. split; [done|]. rewrite Hn in Hw. cbn in Hw. by rewrite bool_decide_eq_true_2, Ec in Hw.
    + split; [done|]. intros [?|(-> & ys & E & Hw)]; [done|]. destruct ys as [|y ys]; cbn in E, Hw; [injection E as -> _; injection Hw as ->; by destruct Hne|].
      injection E as <- ->. rewrite Hn in Hw. cbn in Hw. by rewrite bool_decide_eq_true_2, Ec in Hw.
Qed.
End insert.

(** * Removing a node *)

Section remove.
Context {m m' : store} {kids : Z -> list Z} {depth : Z -> nat} (Hok : tree_ok m kids depth).
Context {par target : Z} {t : ramfs_node} (Ht : m !! target = Some t) (Hpar : parent t = par) (Hpz : par <> 0) (Hempty : kids target = []).

Definition kids_removed (p : Z) : list Z := if decide (p = par) then filter (fun c => c <> target) (kids par) else kids p.

(** [m'] is [m] without [target], its chains closed up. *)
Context (Hgone : m' !! target = None)
  (Hrest : forall p n', m' !! p = Some n' -> exists n, m !! p = Some n /\ name n' = name n /\ ntype n' = ntype n /\ parent n' = parent n)
  (Hkept : forall p, p <> target -> is_Some (m !! p) -> is_Some (m' !! p))
  (Hchain : forall p n', m' !! p = Some n' -> chain m' (children n') (kids_removed p)).

Lemma removed_at p n : m !! p = Some n -> p <> target -> exists n', m' !! p = Some n' /\ name n' = name n /\ ntype n' = ntype n /\ parent n' = parent n.
Proof.
  intros Hn Hp. destruct (Hkept p Hp ltac:(by eexists)) as [n' Hn']. exists n'. split; [done|].
  destruct (Hrest _ _ Hn') as (o & Ho & E). rewrite Hn in Ho. by injection Ho as <-.
Qed.

Lemma in_removed p c : is_Some (m !! p) -> c ∈ kids_removed p <-> c ∈ kids p /\ c <> target.
Proof.
  intros Hp. unfold kids_removed. destruct (decide (p = par)) as [->|Hne]; [rewrite list_elem_of_filter; tauto|].
  split; [|tauto]. intros Hc. split; [done|]. intros ->. destruct (tk_kid _ _ _ Hok p target Hp Hc) as (n & Hn & E). rewrite Ht in Hn. by simplify_eq.
Qed.

Lemma tree_removed : tree_ok m' kids_removed depth.
Proof.
  split.
  - intros p n' Hp. destruct (Hrest _ _ Hp) as (n & Hn & _). by eapply tk_nonzero.
  - done.
  - intros p c [n' Hp] Hc. destruct (Hrest _ _ Hp) as (n & Hn & _). apply in_removed in Hc as [Hc Hne]; [|by eexists].
    destruct (tk_kid _ _ _ Hok p c ltac:(by eexists) Hc) as (o & Ho & Eo). destruct (removed_at _ _ Ho Hne) as (o' & Ho' & _ & _ & E). exists o'. split; [done|congruence].
  - intros c n' Hc Hz. destruct (Hrest _ _ Hc) as (n & Hn & _ & _ & E). rewrite E in *. destruct (tk_parent _ _ _ Hok c n Hn Hz) as (Hp & Hin & Hd).
    assert (c <> target) as Hct by (intros ->; by rewrite Hgone in Hc).
    assert (parent n <> target) as Hpt by (intros Ep; rewrite Ep, Hempty in Hin; by apply not_elem_of_nil in Hin).
    split; [by apply Hkept|]. split; [by apply in_removed|done].
  - intros p [n' Hp]. destruct (Hrest _ _ Hp) as (n & Hn & _). unfold kids_removed. destruct (decide (p = par)) as [<-|]; [apply NoDup_filter|]; apply (tk_nodup _ _ _ Hok); by eexists.
  - intros p c1 c2 n1 n2 [n' Hp] Hc1 Hc2 Hn1 Hn2 Hnm. destruct (Hrest _ _ Hp) as (n & Hn & _). apply in_removed in Hc1 as [Hc1 _], Hc2 as [Hc2 _]; [|by eexists..].
    destruct (Hrest _ _ Hn1) as (o1 & Ho1 & E1 & _), (Hrest _ _ Hn2) as (o2 & Ho2 & E2 & _). apply (tk_names _ _ _ Hok p c1 c2 o1 o2); try done; congruence.
  - intros p n' Hp Hty. destruct (Hrest _ _ Hp) as (n & Hn & _ & E & _). rewrite E in Hty. pose proof (tk_files _ _ _ Hok p n Hn Hty) as Hk.
    unfold kids_removed. destruct (decide (p = par)) as [->|]; [by rewrite Hk|done].
Qed.

Lemma child_removed p x c : is_Some (m !! p) -> p <> target ->
  (child m' (kids_removed p) x = Some c <-> child m (kids p) x = Some c /\ c <> target).
Proof.
  intros Hp Hpt. pose proof tree_removed as Hok'. pose proof (Hkept p Hpt Hp) as Hp'. split.
  - intros H. destruct (child_Some Hok' p x c Hp' H) as (Hin & n' & Hn' & <- & _). apply in_removed in Hin as [Hin Hne]; [|done].
    destruct (Hrest _ _ Hn') as (n & Hn & -> & _). split; [|done]. by apply (child_of Hok).
  - intros [H Hne]. destruct (child_Some Hok p x c Hp H) as (Hin & n & Hn & <- & _). destruct (removed_at _ _ Hn Hne) as (n' & Hn' & <- & _).
    apply (child_of Hok'); [done|by apply in_removed|done].
Qed.

(** Paths lead where they led, except to the removed node. *)
Lemma walk_removed xs : forall p r, is_Some (m !! p) -> p <> target ->
  (walk m' kids_removed p xs = Some r <-> walk m kids p xs = Some r /\ r <> target).
Proof.
  induction xs as [|x xs IH]; intros p r Hp Hpt.
  { cbn. split; [intros [= <-]; done|]. by intros [? _]. }
  pose proof Hp as [n Hn]. destruct (removed_at _ _ Hn Hpt) as (n' & Hn' & _ & Et & _). cbn [walk]. rewrite Hn', Hn. cbn. rewrite Et.
  case_bool_decide; [|by split; [|intros [??]]]. destruct (child m' (kids_removed p) x) as [c|] eqn:Ec.
  - apply child_removed in Ec as [Ec Hne]; [|done|done]. rewrite Ec. cbn. apply IH; [|done]. destruct (child_Some Hok p x c Hp Ec) as (_ & o & Ho & _). by eexists.
  - cbn. split; [done|]. intros [H1 H2]. destruct (child m (kids p) x) as [c|] eqn:Ec'; [|done]. cbn in H1. destruct (decide (c = target)) as [->|Hne].
    + destruct xs as [|y xs]; cbn in H1; [congruence|]. rewrite Ht in H1. cbn in H1. case_bool_decide; [|done]. by rewrite Hempty in H1.
    + assert (child m' (kids_removed p) x = Some c) as E by by apply child_removed. by rewrite E in Ec.
Qed.
End remove.

(** ** Closing up a chain *)

Lemma chain_delete m c l target : chain m c l -> target ∉ l -> chain (delete target m) c l.
Proof. intros H Hn. apply (chain_frame m); [done|]. intros x Hx. rewrite lookup_delete_ne; [done|]. by intros ->. Qed.

(** [target] is not the first: the node before it takes over its [next]. *)
Lemma kids_chain_relink m c l1 q target l2 n t : chain m c (l1 ++ q :: target :: l2) -> NoDup (l1 ++ q :: target :: l2) ->
  m !! q = Some n -> m !! target = Some t -> chain (delete target (<[q := set_next (next t) n]> m)) c (l1 ++ q :: l2).
Proof.
  revert c. induction l1 as [|x l1 IH]; intros c; cbn; intros (-> & Hx & o & Ho & Hl) Hnd Hq Ht.
  - destruct Hl as (E & Htz & t' & Ht' & Hl). rewrite Ho in Hq. injection Hq as ->. rewrite Ht in Ht'. injection Ht' as <-.
    apply NoDup_cons in Hnd as [Hqn Hnd]. apply NoDup_cons in Hnd as [Htn _]. apply not_elem_of_cons in Hqn as [Hqt Hql].
    split; [done|]. split; [done|]. exists (set_next (next t) n). split; [rewrite lookup_delete_ne by congruence; apply lookup_insert_eq|].
    cbn. apply chain_delete; [|done]. apply (chain_frame m); [done|]. intros y Hy. rewrite lookup_insert_ne; [done|]. by intros ->.
  - apply NoDup_cons in Hnd as [Hxn Hnd]. split; [done|]. split; [done|]. assert (x <> q /\ x <> target) as [Hxq Hxt].
    { split; intros ->; apply Hxn, elem_of_app; right; [by left|right; by left]. }
    exists o. split; [|by apply IH]. by rewrite lookup_delete_ne, lookup_insert_ne by congruence.
Qed.
