(* ===== verification/RamfsOps.v ===== *)
(** Directories of the RAM file system: the invariant of a mounted system (trees of nodes, each node and each
    data block a live heap block of its own), path resolution, and the refinement of mkdir, unlink and open to
    operations on a map from paths to entries. *)

From S2P Require Import Prelude Memory Interfaces Vfs VfsPipe Ramfs RamfsTree.

(** * What a user sees: paths and their entries *)

Inductive entry := EDir | EFile (contents : list Z).

Definition entry_of (n : ramfs_node) : entry :=
  if bool_decide (ntype n = FT_DIRECTORY) then EDir else EFile (take (Z.to_nat (nsize n)) (block n)).

(** The entry at a path below the node [rt]. *)
Definition view (m : store) (kids : Z -> list Z) (rt : Z) (xs : list path) : option entry :=
  p ← walk m kids rt xs; entry_of <$> m !! p.

(** The node and the name [resolve_parent] delivers. *)
Definition parent_of (m : store) (kids : Z -> list Z) (p : Z) (xs : list path) : option (Z * path) :=
  match xs with
  | [] => None
  | _ => q ← walk m kids p (removelast xs); n ← m !! q;
         if bool_decide (ntype n = FT_DIRECTORY) then Some (q, take 63 (List.last xs [])) else None
  end.

Lemma parent_of_snoc m kids p xs leaf q n : walk m kids p xs = Some q -> m !! q = Some n -> ntype n = FT_DIRECTORY ->
  parent_of m kids p (xs ++ [leaf]) = Some (q, take 63 leaf).
Proof.
  intros Hw Hn Hd. unfold parent_of. rewrite removelast_last, List.last_last, Hw. cbn. rewrite Hn. cbn. rewrite bool_decide_eq_true_2 by done.
  by destruct xs.
Qed.

Lemma parent_of_none m kids p xs leaf : walk m kids p xs = None -> parent_of m kids p (xs ++ [leaf]) = None.
Proof. intros Hw. unfold parent_of. rewrite removelast_last, Hw. by destruct xs. Qed.

Lemma parent_of_file m kids p xs leaf q n : walk m kids p xs = Some q -> m !! q = Some n -> ntype n <> FT_DIRECTORY ->
  parent_of m kids p (xs ++ [leaf]) = None.
Proof. intros Hw Hn Hd. unfold parent_of. rewrite removelast_last, Hw. cbn. rewrite Hn. cbn. rewrite bool_decide_eq_false_2 by done. by destruct xs. Qed.

Section ops.
Context {HS : Type} `{!BlockAllocator HS}.
Implicit Types (s : ramfs (HS := HS)) (m : store) (kids : Z -> list Z) (depth : Z -> nat) (live : gset Z).

(** * The invariant *)

Record node_ok m live (p : Z) (n : ramfs_node) : Prop := {
  no_live : p ∈ live;
  no_data : ndata n <> 0 -> ndata n ∈ live /\ m !! ndata n = None;
  no_none : ndata n = 0 -> cap n = 0;
  no_block : zlen (block n) = cap n;
  no_size : 0 <= nsize n <= cap n;
  no_cap : cap n < 2 ^ 32;
}.

Record ram_ok s live kids depth : Prop := {
  rk_tree : tree_ok (nodes s) kids depth;
  rk_rep : ba_rep (kheap (base s)) live;
  rk_nodes : forall p n, nodes s !! p = Some n -> node_ok (nodes s) live p n;
  rk_apart : forall p q n o, nodes s !! p = Some n -> nodes s !! q = Some o -> ndata n = ndata o -> ndata n <> 0 -> p = q;
  rk_mounts : zlen (g_mounts s) = RAMFS_MAX_MOUNTS;
  rk_root : forall i mt, g_mounts s !! i = Some mt -> in_use mt = true ->
    exists n, nodes s !! root mt = Some n /\ parent n = 0 /\ ntype n = FT_DIRECTORY;
  rk_roots : forall i j mi mj, g_mounts s !! i = Some mi -> g_mounts s !! j = Some mj -> in_use mi = true -> in_use mj = true ->
    root mi = root mj -> i = j;
}.

(** * Searching children and resolving paths *)

Lemma get_node_run p n s : nodes s !! p = Some n -> get_node p s = Some (n, s).
Proof. unfold get_node. by intros ->. Qed.

Lemma child_loop_run s l nm : forall fuel c, chain (nodes s) c l -> (length l <= fuel)%nat ->
  child_loop fuel c nm s = Some (default 0 (child (nodes s) l nm), s).
Proof.
  induction l as [|x l IH]; intros fuel c Hc Hf; cbn in Hc; [subst; by destruct fuel|]. destruct Hc as (-> & Hx & n & Hn & Hl).
  destruct fuel as [|fuel]; [cbn in Hf; lia|]. cbn [child_loop]. rewrite (proj2 (Z.eqb_neq x 0)) by done.
  rewrite (bind_Some _ _ _ _ _ (get_node_run _ _ _ Hn)). unfold child. cbn [List.find]. unfold has_name at 1. rewrite Hn.
  case_bool_decide; [done|]. apply IH; [done|cbn in Hf; lia].
Qed.

Lemma find_child_run s kids depth dir nm : tree_ok (nodes s) kids depth -> is_Some (nodes s !! dir) ->
  find_child dir nm s = Some (default 0 (child (nodes s) (kids dir) nm), s).
Proof.
  intros Hok Hd. pose proof Hd as [d Hdn]. unfold find_child. rewrite (bind_Some _ _ _ _ _ (get_node_run _ _ _ Hdn)).
  unfold node_count. erewrite bind_Some by done. apply child_loop_run; [by apply (tk_chain _ _ _ Hok dir)|]. pose proof (kids_fit Hok dir Hd). lia.
Qed.

Lemma resolve_loop_run s kids depth : tree_ok (nodes s) kids depth -> forall fuel p rel, is_Some (nodes s !! p) -> (length rel <= fuel)%nat ->
  resolve_loop fuel p rel s = Some (default 0 (walk (nodes s) kids p (components rel)), s).
Proof.
  intros Hok. induction fuel as [|fuel IH]; intros p rel Hp Hf; cbn [resolve_loop]; destruct (next_component rel) as [x r] eqn:E;
    destruct (components_next _ _ _ E) as [[-> Hc]|(Hx & Hc & Hlen)]; rewrite Hc; [done|lia|done|].
  destruct x as [|c x]; [done|]. pose proof Hp as [n Hn]. rewrite (bind_Some _ _ _ _ _ (get_node_run _ _ _ Hn)). cbn [walk]. rewrite Hn. cbn.
  case_bool_decide; [|done]. cbn. rewrite (bind_Some _ _ _ _ _ (find_child_run s kids depth p (c :: x) Hok Hp)).
  destruct (child (nodes s) (kids p) (c :: x)) as [q|] eqn:Eq; cbn; [|done].
  destruct (child_Some Hok p (c :: x) q Hp Eq) as (_ & o & Ho & _). pose proof (tk_nonzero _ _ _ Hok q o Ho). rewrite (proj2 (Z.eqb_neq q 0)) by done.
  apply IH; [by eexists|lia].
Qed.

Lemma resolve_run s kids depth rt rel : tree_ok (nodes s) kids depth -> is_Some (nodes s !! rt) ->
  resolve rt rel s = Some (default 0 (walk (nodes s) kids rt (components rel)), s).
Proof. intros Hok Hr. by apply (resolve_loop_run s kids depth Hok). Qed.

Lemma resolve_parent_loop_run s kids depth : tree_ok (nodes s) kids depth -> forall fuel p rel, is_Some (nodes s !! p) -> (length rel <= fuel)%nat ->
  resolve_parent_loop fuel p rel s = Some (parent_of (nodes s) kids p (components rel), s).
Proof.
  intros Hok. induction fuel as [|fuel IH]; intros p rel Hp Hf; cbn [resolve_parent_loop]; destruct (next_component rel) as [x r] eqn:E;
    destruct (components_next _ _ _ E) as [[-> Hc]|(Hx & Hc & Hlen)]; rewrite Hc; [done|lia|done|].
  destruct x as [|c x]; [done|]. pose proof Hp as [n Hn]. rewrite (bind_Some _ _ _ _ _ (get_node_run _ _ _ Hn)).
  destruct (skip_slashes r) as [|d r'] eqn:Er.
  - apply components_nil in Er. rewrite Er. cbn. rewrite Hn. cbn. by case_bool_decide.
  - assert (components r <> []) as Hne by (intros H; apply components_nil in H; by rewrite H in Er).
    destruct (components r) as [|y ys] eqn:Ey; [done|]. unfold parent_of. change (removelast ((c :: x) :: y :: ys)) with ((c :: x) :: removelast (y :: ys)).
    change (List.last ((c :: x) :: y :: ys) []) with (List.last (y :: ys) []). cbn [walk]. rewrite Hn. cbn [mbind option_bind].
    case_bool_decide; [|done]. cbn [negb]. rewrite (bind_Some _ _ _ _ _ (find_child_run s kids depth p (c :: x) Hok Hp)).
    destruct (child (nodes s) (kids p) (c :: x)) as [q|] eqn:Eq; [|done]. cbn [default from_option id].
    destruct (child_Some Hok p (c :: x) q Hp Eq) as (_ & o & Ho & _). pose proof (tk_nonzero _ _ _ Hok q o Ho). rewrite (proj2 (Z.eqb_neq q 0)) by done.
    rewrite (bind_Some _ _ _ _ _ (get_node_run _ _ _ Ho)). cbn [mbind option_bind]. case_bool_decide as Ht; cbn [negb].
    + rewrite IH by (by eexists || lia). by rewrite Ey.
    + destruct ys as [|z ys]; cbn [removelast walk mbind option_bind]; rewrite Ho; cbn; by rewrite bool_decide_eq_false_2.
Qed.

Lemma resolve_parent_run s kids depth rt rel : tree_ok (nodes s) kids depth -> is_Some (nodes s !! rt) ->
  resolve_parent rt rel s = Some (parent_of (nodes s) kids rt (components rel), s).
Proof. intros Hok Hr. by apply (resolve_parent_loop_run s kids depth Hok). Qed.

(** * The heap *)

Lemma vfs_eta (v : vfs (HS := HS)) : set_objs (fobjs v) (iobjs v) (pobjs v) (kheap v) v = v.
Proof. by destruct v. Qed.

Lemma ramfs_eta s : mk_ramfs (base s) (nodes s) (g_mounts s) = s.
Proof. by destruct s. Qed.

(** The parts of the VFS that are not the heap are the same. *)
Definition vfs_frame (v v' : vfs (HS := HS)) : Prop := v' = set_objs (fobjs v') (iobjs v') (pobjs v') (kheap v') v.

Lemma wp_new_block n (Q : Z -> ramfs (HS := HS) -> Prop) s live : ba_rep (kheap (base s)) live -> 0 < n -> n + 32 <= 2 ^ 64 ->
  (ba_alloc n (kheap (base s)) = Some (0, kheap (base s)) -> Q 0 s) ->
  (forall p h, p <> 0 -> p ∉ live -> ba_rep h ({[p]} ∪ live) ->
     Q p (mk_ramfs (set_objs (fobjs (base s)) (iobjs (base s)) (pobjs (base s)) h (base s)) (nodes s) (g_mounts s))) ->
  wp (on_vfs (kmalloc n)) Q s.
Proof.
  intros Hrep Hn Hn' H0 Hp. unfold wp, on_vfs, kmalloc, on_heap.
  destruct (wp_inv _ _ _ (ba_alloc_spec _ _ _ Hrep Hn Hn')) as (p & h & E & [[-> ->]|(Hpz & Hpl & Hrep')]); rewrite E; [|by apply Hp].
  rewrite vfs_eta, ramfs_eta. by apply H0.
Qed.

Lemma wp_give_back p (Q : unit -> ramfs (HS := HS) -> Prop) s live : ba_rep (kheap (base s)) live -> p ∈ live ->
  (forall h, ba_rep h (live ∖ {[p]}) ->
     Q tt (mk_ramfs (set_objs (delete p (fobjs (base s))) (delete p (iobjs (base s))) (delete p (pobjs (base s))) h (base s)) (nodes s) (g_mounts s))) ->
  wp (on_vfs (kfree p)) Q s.
Proof.
  intros Hrep Hp HQ. unfold wp, on_vfs, kfree, on_heap, mbind, M_bind.
  destruct (wp_inv _ _ _ (ba_release_spec _ _ _ Hrep Hp)) as (u & h & -> & Hrep'). cbn. destruct (base s). by apply HQ.
Qed.

Lemma ram_ok_ext s s' live kids depth : ram_ok s live kids depth -> nodes s' = nodes s -> g_mounts s' = g_mounts s ->
  kheap (base s') = kheap (base s) -> ram_ok s' live kids depth.
Proof. intros [H1 H2 H3 H4 H5 H6 H7] En Em Eh. split; rewrite ?En, ?Em, ?Eh; done. Qed.

(** More of the heap may be in use than the file system owns. *)
Lemma node_ok_live m live live' p n : live ⊆ live' -> node_ok m live p n -> node_ok m live' p n.
Proof. intros Hs [H1 H2 H3 H4 H5 H6]. split; try done; [by apply Hs|]. intros Hd. destruct (H2 Hd). split; [by apply Hs|done]. Qed.

Lemma ram_ok_heap s s' live live' kids depth : ram_ok s live kids depth -> nodes s' = nodes s -> g_mounts s' = g_mounts s ->
  ba_rep (kheap (base s')) live' -> live ⊆ live' -> ram_ok s' live' kids depth.
Proof.
  intros [H1 H2 H3 H4 H5 H6 H7] En Em Hrep Hsub. split; rewrite ?En, ?Em; try done. intros p n Hn. by eapply node_ok_live; [|apply H3].
Qed.

(** * A new child *)

Lemma ram_ok_added s live kids depth h par d new leaf ty v : ram_ok s live kids depth -> nodes s !! par = Some d -> ntype d = FT_DIRECTORY ->
  new <> 0 -> new ∉ live -> ba_rep h ({[new]} ∪ live) -> child (nodes s) (kids par) leaf = None -> kheap v = h ->
  ram_ok (mk_ramfs v (added (m := nodes s) (par := par) (new := new) (d := d) (leaf := leaf) (ty := ty)) (g_mounts s)) ({[new]} ∪ live)
    (kids_added (kids := kids) (par := par) (new := new)) (depth_added (depth := depth) (par := par) (new := new)).
Proof.
  intros Hok Hpar Hdir Hnz Hnl Hrep Hfree Hv. pose proof Hok as [Htree _ Hn Hap Hm Hroot Hrts].
  assert (nodes s !! new = None) as Hnew.
  { destruct (nodes s !! new) as [o|] eqn:E; [|done]. destruct Hnl. apply (no_live _ _ _ _ (Hn _ _ E)). }
  assert (forall p n', added (m := nodes s) (par := par) (new := new) (d := d) (leaf := leaf) (ty := ty) !! p = Some n' ->
    (p = new /\ ndata n' = 0 /\ cap n' = 0 /\ nsize n' = 0 /\ block n' = []) \/
    exists n, nodes s !! p = Some n /\ ndata n' = ndata n /\ block n' = block n /\ nsize n' = nsize n /\ cap n' = cap n) as Hinv.
  { intros p n' Hp. destruct (decide (p = new)) as [->|H1]; [left; rewrite (added_new Hpar Hnew) in Hp; by injection Hp as <-|right].
    destruct (decide (p = par)) as [->|H2]; [rewrite added_par in Hp; injection Hp as <-; eauto 10|]. rewrite added_other in Hp by done. eauto 10. }
  split; cbn [nodes base g_mounts]; try done.
  - by apply tree_added.
  - by rewrite Hv.
  - intros p n' Hp. destruct (Hinv _ _ Hp) as [(-> & E1 & E2 & E3 & E4)|(n & Hpn & E1 & E2 & E3 & E4)].
    + split; rewrite ?E1, ?E2, ?E3, ?E4; try done. by apply elem_of_union_l, elem_of_singleton_2.
    + destruct (Hn _ _ Hpn) as [G1 G2 G3 G4 G5 G6]. split; rewrite ?E1, ?E2, ?E3, ?E4; try done; [by apply elem_of_union_r|].
      intros Hd. destruct (G2 Hd) as [G7 G8]. split; [by apply elem_of_union_r|]. rewrite added_other; [done|intros E; rewrite E in G8; congruence|by intros E; rewrite E in G7].
  - intros p q n' o' Hp Hq E Hd. destruct (Hinv _ _ Hp) as [(-> & E1 & _)|(n & Hpn & E1 & _)]; [congruence|].
    destruct (Hinv _ _ Hq) as [(-> & E2 & _)|(o & Hqo & E2 & _)]; [congruence|]. apply (Hap p q n o); congruence.
  - intros i mt Hi Hu. destruct (Hroot i mt Hi Hu) as (n & Hrn & Hp0 & Hd). destruct (added_old (ty := ty) (leaf := leaf) Hpar Hnew _ _ Hrn) as (n' & Hn' & _ & Et & Ep & _).
    exists n'. split; [done|]. split; congruence.
Qed.

(** There is no memory for another node. *)
Definition no_memory s : Prop := exists h, ba_alloc sizeof_node (kheap (base s)) = Some (0, h).

(** The effect of [add_child]: nothing when there is no memory, else one more node. *)
Lemma add_child_outcome s live kids depth par d leaf ty : ram_ok s live kids depth -> nodes s !! par = Some d -> ntype d = FT_DIRECTORY ->
  child (nodes s) (kids par) leaf = None -> (length leaf <= 63)%nat ->
  wp (add_child par leaf ty) (fun r s' =>
    (r = 0 /\ s' = s /\ no_memory s) \/
    (r <> 0 /\ nodes s !! r = None /\ nodes s' = added (m := nodes s) (par := par) (new := r) (d := d) (leaf := leaf) (ty := ty) /\
     g_mounts s' = g_mounts s /\ vfs_frame (base s) (base s') /\ fobjs (base s') = fobjs (base s) /\ iobjs (base s') = iobjs (base s) /\
     ram_ok s' ({[r]} ∪ live) (kids_added (kids := kids) (par := par) (new := r)) (depth_added (depth := depth) (par := par) (new := r)))) s.
Proof.
  intros Hok Hpar Hdir Hfree Hlen. unfold add_child, node_alloc. wstep. wstep.
  apply (wp_new_block _ _ _ _ (rk_rep _ _ _ _ Hok)); [unfold sizeof_node; lia|unfold sizeof_node; lia| |].
  { intros Hno. change (0 =? 0) with true. cbv iota. wsteps. change (0 =? 0) with true. cbv iota. wsteps. left. split_and!; [done|done|by eexists]. }
  intros p h Hp Hpl Hrep. rewrite (proj2 (Z.eqb_neq p 0)) by done. unfold put_node at 1. wsteps. rewrite (proj2 (Z.eqb_neq p 0)) by done.
  set (v := set_objs _ _ _ h _).
  assert (nodes s !! p = None) as Hnew.
  { destruct (nodes s !! p) as [o|] eqn:E; [|done]. destruct Hpl. apply (no_live _ _ _ _ (rk_nodes _ _ _ _ Hok _ _ E)). }
  assert (par <> p) as Hpp by (intros ->; by rewrite Hnew in Hpar).
  change (Z.to_nat (RAMFS_MAX_NAME - 1)) with 63%nat. rewrite (take_ge leaf) by done.
  wstep. eapply wp_Some; [apply (get_node_run par d); cbn; by rewrite lookup_insert_ne by done|]. cbv beta.
  wstep. eapply wp_Some; [apply get_node_run; apply lookup_insert_eq|]. cbv beta. unfold put_node. wsteps.
  eapply wp_Some; [apply (get_node_run par d); cbn; by rewrite !lookup_insert_ne by done|]. cbv beta. wsteps. right.
  cbn [nodes base set_nodes g_mounts]. rewrite insert_insert_eq. change (set_next (children d) _) with (mk_node leaf ty 0 [] 0 0 par 0 (children d)).
  split; [done|]. split; [done|]. split; [done|]. split; [done|]. split; [by destruct (base s)|]. split; [done|]. split; [done|].
  by apply (ram_ok_added s live kids depth h par d p leaf ty v).
Qed.

(** * Paths after a new node *)

Lemma view_root m kids rt : forall n, m !! rt = Some n -> view m kids rt [] = Some (entry_of n).
Proof. intros n Hn. unfold view. cbn. by rewrite Hn. Qed.

Lemma view_added m kids depth par new d leaf ty rt n0 xs : tree_ok m kids depth -> m !! par = Some d -> ntype d = FT_DIRECTORY ->
  m !! new = None -> child m (kids par) leaf = None -> m !! rt = Some n0 -> parent n0 = 0 -> walk m kids rt xs = Some par ->
  forall rt' n0' ys, m !! rt' = Some n0' -> parent n0' = 0 ->
  view (added (m := m) (par := par) (new := new) (d := d) (leaf := leaf) (ty := ty)) (kids_added (kids := kids) (par := par) (new := new)) rt' ys =
    if decide (rt' = rt /\ ys = xs ++ [leaf]) then Some (if bool_decide (ty = FT_DIRECTORY) then EDir else EFile []) else view m kids rt' ys.
Proof.
  intros Hok Hpar Hdir Hnew Hfree Hrt H0 Hw rt' n0' ys Hrt' H0'. assert (is_Some (m !! rt')) as Hr by by eexists.
  pose proof (walk_added Hok (ty := ty) Hpar Hdir Hnew Hfree ys rt') as Hwalk. unfold view. case_decide as E.
  - destruct E as [-> ->]. rewrite (proj2 (Hwalk new Hr)) by (right; eauto). cbn. rewrite (added_new Hpar Hnew). cbn. unfold entry_of. cbn. done.
  - destruct (walk m kids rt' ys) as [q|] eqn:Eq.
    + rewrite (proj2 (Hwalk q Hr)) by by left. cbn. destruct (walk_in Hok _ _ _ Hr Eq) as [n Hn].
      destruct (added_old (ty := ty) (leaf := leaf) Hpar Hnew _ _ Hn) as (n' & -> & _ & Et & _ & _ & Hsame). rewrite Hn. cbn. f_equal.
      destruct (decide (q = par)) as [->|Hq]; [|by rewrite Hsame]. rewrite Hpar in Hn. injection Hn as <-. unfold entry_of. by rewrite Et, !bool_decide_eq_true_2.
    + destruct (walk added _ rt' ys) as [q|] eqn:Eq'; [|done]. destruct (proj1 (Hwalk q Hr) eq_refl) as [?|(_ & zs & Ez & Hz)]; [done|].
      destruct E. destruct (walk_unique Hok rt' n0' rt n0 Hrt' H0' Hrt H0 _ _ _ Hz Hw) as [-> ->]. done.
Qed.

(** * mkdir *)

Lemma find_mount_some l p rt rel : find_mount_for_path l p = Some (rt, rel) ->
  exists i mt, l !! i = Some mt /\ in_use mt = true /\ root mt = rt /\ rel = take 255 (skip_slashes (drop (length (prefix mt)) p)).
Proof.
  induction l as [|mt l IH]; [done|]. cbn. destruct (in_use mt && below (prefix mt) p) eqn:E.
  - intros [= <- <-]. apply andb_true_iff in E as [E _]. exists 0%nat, mt. done.
  - intros (i & mt' & H)%IH. by exists (S i), mt'.
Qed.

Lemma mounted_root s live kids depth p rt rel : ram_ok s live kids depth -> find_mount_for_path (g_mounts s) p = Some (rt, rel) ->
  exists n, nodes s !! rt = Some n /\ parent n = 0 /\ ntype n = FT_DIRECTORY.
Proof. intros Hok (i & mt & Hi & Hu & <- & _)%find_mount_some. by apply (rk_root _ _ _ _ Hok i). Qed.

(** A mounted root. *)
Definition is_root s (rt : Z) : Prop := exists i mt, g_mounts s !! i = Some mt /\ in_use mt = true /\ root mt = rt.

(** The view of every mount after [e] appears at [xs] below [rt]. *)
Definition view_insert s kids s' kids' (rt : Z) (xs : list path) (e : entry) : Prop :=
  forall rt' ys, is_root s rt' -> view (nodes s') kids' rt' ys = if decide (rt' = rt /\ ys = xs) then Some e else view (nodes s) kids rt' ys.
Definition view_same s kids s' kids' : Prop := forall rt ys, is_root s rt -> view (nodes s') kids' rt ys = view (nodes s) kids rt ys.

Lemma view_dir m kids rt xs q n : walk m kids rt xs = Some q -> m !! q = Some n -> view m kids rt xs = Some (entry_of n).
Proof. intros Hw Hn. unfold view. rewrite Hw. cbn. by rewrite Hn. Qed.

Lemma view_child m kids rt xs q n x : walk m kids rt xs = Some q -> m !! q = Some n -> ntype n = FT_DIRECTORY ->
  view m kids rt (xs ++ [x]) = (c ← child m (kids q) x; entry_of <$> m !! c).
Proof.
  intros Hw Hn Hd. unfold view. rewrite walk_app, Hw. cbn. rewrite Hn. cbn. rewrite bool_decide_eq_true_2 by done. by destruct (child m (kids q) x).
Qed.

Definition entry_new (ty : file_type) : entry := if bool_decide (ty = FT_DIRECTORY) then EDir else EFile [].

(** What a run leaves alone: the mounts, and everything of the VFS but its heap objects. *)
Definition ram_frame s s' : Prop :=
  g_mounts s' = g_mounts s /\ vfs_frame (base s) (base s') /\ fobjs (base s') = fobjs (base s) /\ iobjs (base s') = iobjs (base s).

Lemma ram_frame_refl s : ram_frame s s.
Proof. split_and!; try done. unfold vfs_frame. by rewrite vfs_eta. Qed.

(** Creating a node refines inserting an entry: it fails when the parent is no directory, the entry exists or memory
    is short, and then nothing changes. *)
Lemma create_node_outcome s live kids depth rt rel xs leaf ty : ram_ok s live kids depth -> is_root s rt -> components rel = xs ++ [leaf] ->
  (length leaf <= 63)%nat ->
  wp (create_node rt rel ty) (fun r s' => ram_frame s s' /\
    ((r = 0 /\ s' = s /\ (view (nodes s) kids rt xs <> Some EDir \/ view (nodes s) kids rt (xs ++ [leaf]) <> None \/ no_memory s)) \/
     (r <> 0 /\ view (nodes s) kids rt xs = Some EDir /\ view (nodes s) kids rt (xs ++ [leaf]) = None /\
      exists live' kids' depth', ram_ok s' live' kids' depth' /\ view_insert s kids s' kids' rt (xs ++ [leaf]) (entry_new ty) /\
        walk (nodes s') kids' rt (xs ++ [leaf]) = Some r))) s.
Proof.
  intros Hok (i & mt & Hi & Hu & Hrt) Hc Hlen. destruct (rk_root _ _ _ _ Hok i mt Hi Hu) as (n0 & Hn0 & H0 & Hd0). rewrite Hrt in Hn0.
  assert (is_Some (nodes s !! rt)) as Hr by by eexists. pose proof (rk_tree _ _ _ _ Hok) as Htree.
  unfold create_node. wstep. eapply wp_Some; [apply (resolve_parent_run s kids depth rt rel Htree Hr)|]. cbv beta. rewrite Hc.
  pose proof (ram_frame_refl s) as Hfr.
  destruct (walk (nodes s) kids rt xs) as [q|] eqn:Ew.
  2: { rewrite (parent_of_none _ _ _ _ _ Ew). wstep. split; [done|]. left. split; [done|]. split; [done|]. left. unfold view. by rewrite Ew. }
  destruct (walk_in Htree _ _ _ Hr Ew) as [n Hn]. destruct (decide (ntype n = FT_DIRECTORY)) as [Hd|Hd].
  2: { rewrite (parent_of_file _ _ _ _ _ _ _ Ew Hn Hd). wstep. split; [done|]. left. split; [done|]. split; [done|]. left. rewrite (view_dir _ _ _ _ _ _ Ew Hn). unfold entry_of. by rewrite bool_decide_eq_false_2. }
  rewrite (parent_of_snoc _ _ _ _ _ _ _ Ew Hn Hd), (take_ge leaf) by done. wstep.
  eapply wp_Some; [apply (find_child_run s kids depth q leaf Htree); by eexists|]. cbv beta.
  pose proof (view_child _ _ _ _ _ _ leaf Ew Hn Hd) as Hvc. pose proof (view_dir _ _ _ _ _ _ Ew Hn) as Hvd.
  assert (entry_of n = EDir) as Een by (unfold entry_of; by rewrite bool_decide_eq_true_2).
  destruct (child (nodes s) (kids q) leaf) as [c|] eqn:Ec.
  - destruct (child_Some Htree q leaf c ltac:(by eexists) Ec) as (_ & o & Ho & _). pose proof (tk_nonzero _ _ _ Htree c o Ho). cbn [default from_option id].
    rewrite (proj2 (Z.eqb_neq c 0)) by done. cbn [negb]. wstep. split; [done|]. left. split; [done|]. split; [done|]. right; left. rewrite Hvc. cbn. by rewrite Ho.
  - cbn [default from_option id]. change (negb (0 =? 0)) with false. cbv iota.
    eapply wp_mono; [by apply (add_child_outcome s live kids depth q n leaf ty)|].
    intros r s' [(-> & -> & Hno)|(Hrz & Hnew & En & Em & Hf & Hfo & Hio & Hok')].
    + split; [done|]. left. split_and!; [done|done|]. by right; right.
    + split; [done|]. right. split; [done|]. split; [by rewrite Hvd, Een|]. split; [by rewrite Hvc|]. eexists _, _, _. split; [exact Hok'|]. split.
      * intros rt' ys (j & mj & Hj & Huj & Hrj). destruct (rk_root _ _ _ _ Hok j mj Hj Huj) as (n0' & Hn0' & H0' & _). rewrite Hrj in Hn0'. rewrite En.
        by apply (view_added _ kids depth q r n leaf ty rt n0 xs Htree Hn Hd Hnew Ec Hn0 H0 Ew rt' n0').
      * rewrite En. apply (walk_added Htree Hn Hd Hnew Ec _ _ _ Hr). right. eauto.
Qed.

Lemma mkdir_outcome s live kids depth p rt rel xs leaf : ram_ok s live kids depth ->
  find_mount_for_path (g_mounts s) p = Some (rt, rel) -> components rel = xs ++ [leaf] -> (length leaf <= 63)%nat ->
  wp (vfs_ramfs_mkdir p) (fun r s' => ram_frame s s' /\
    ((r = -1 /\ s' = s /\ (view (nodes s) kids rt xs <> Some EDir \/ view (nodes s) kids rt (xs ++ [leaf]) <> None \/ no_memory s)) \/
     (r = 0 /\ view (nodes s) kids rt xs = Some EDir /\ view (nodes s) kids rt (xs ++ [leaf]) = None /\
      exists live' kids' depth', ram_ok s' live' kids' depth' /\ view_insert s kids s' kids' rt (xs ++ [leaf]) EDir))) s.
Proof.
  intros Hok Hfind Hc Hlen. destruct (find_mount_some _ _ _ _ Hfind) as (i & mt & Hi & Hu & Hrt & _).
  unfold vfs_ramfs_mkdir. wsteps. rewrite Hfind. destruct rel as [|c rel]; [by destruct xs|]. wstep.
  eapply wp_mono; [apply (create_node_outcome s live kids depth rt (c :: rel) xs leaf FT_DIRECTORY Hok ltac:(by exists i, mt) Hc Hlen)|].
  intros r s' [Hf [(-> & -> & Hwhy)|(Hr & H1 & H2 & live' & kids' & depth' & Hok' & Hv & _)]]; wstep; (split; [done|]).
  - left. split_and!; done.
  - right. rewrite (proj2 (Z.eqb_neq r 0)) by done. split_and!; try done. by exists live', kids', depth'.
Qed.

(** Making a directory in the RAM file system is what it should be on the map from paths to entries: it returns 0 exactly when
    the parent is a directory that has no such entry and there is memory for a node, and then the map of that mount
    gains one empty directory at that path while every other path of every mount keeps its entry; otherwise it returns
    -1 and nothing changes.  Paths outside the mounts give -2, a mount's own root -1.  The invariant of the trees is kept. *)
Theorem ramfs_mkdir_refines s live kids depth p rt rel xs leaf : ram_ok s live kids depth ->
  find_mount_for_path (g_mounts s) p = Some (rt, rel) -> components rel = xs ++ [leaf] -> (length leaf <= 63)%nat ->
  wp (vfs_ramfs_mkdir p) (fun r s' => ram_frame s s' /\
    ((r = -1 /\ s' = s /\ (view (nodes s) kids rt xs <> Some EDir \/ view (nodes s) kids rt (xs ++ [leaf]) <> None \/ no_memory s)) \/
     (r = 0 /\ view (nodes s) kids rt xs = Some EDir /\ view (nodes s) kids rt (xs ++ [leaf]) = None /\
      exists live' kids' depth', ram_ok s' live' kids' depth' /\ view_insert s kids s' kids' rt (xs ++ [leaf]) EDir))) s.
Proof. apply mkdir_outcome. Qed.
End ops.
