(* ===== verification/RamfsUnlink.v ===== *)
(** Removing from the RAM file system: [unlink] takes a node out of its parent's chain and frees it; a directory
    must be empty. *)

From S2P Require Import Prelude Memory Interfaces Vfs VfsPipe Ramfs RamfsTree RamfsOps.

Section unlink.
Context {HS : Type} `{!BlockAllocator HS}.
Implicit Types (s : ramfs (HS := HS)) (m : store) (kids : Z -> list Z) (depth : Z -> nat) (live : gset Z).

(** Everything a chain update leaves alone in a node. *)
Definition same_but_links (n n' : ramfs_node) : Prop :=
  name n' = name n /\ ntype n' = ntype n /\ parent n' = parent n /\ ndata n' = ndata n /\ block n' = block n /\ nsize n' = nsize n /\ cap n' = cap n.

Lemma before_child_run s target l1 q l2 : forall fuel c, chain (nodes s) c (l1 ++ q :: target :: l2) -> NoDup (l1 ++ q :: target :: l2) ->
  (length (l1 ++ q :: target :: l2) <= fuel)%nat -> before_child fuel c target s = Some (q, s).
Proof.
  induction l1 as [|x l1 IH]; intros fuel c; cbn [app chain]; intros (-> & Hx & n & Hn & Hl) Hnd Hf; (destruct fuel as [|fuel]; [cbn in Hf; lia|]);
    cbn [before_child]; rewrite (proj2 (Z.eqb_neq _ 0)) by done; rewrite (bind_Some _ _ _ _ _ (get_node_run _ _ _ Hn)).
  - destruct Hl as (-> & _). by rewrite Z.eqb_refl.
  - apply NoDup_cons in Hnd as [Hxn Hnd]. assert (next n <> target) as Hne.
    { intros E. destruct l1 as [|y l1]; cbn in Hl; destruct Hl as (E' & _).
      - apply NoDup_cons in Hnd as [Hq _]. apply Hq. rewrite <- E', E. by left.
      - apply NoDup_cons in Hnd as [Hy _]. apply Hy. rewrite <- E', E. apply elem_of_app. right. right. by left. }
    rewrite (proj2 (Z.eqb_neq _ _) Hne). apply IH; [done|done|cbn in Hf; lia].
Qed.

Lemma filter_removed (l1 l2 : list Z) target : NoDup (l1 ++ target :: l2) -> filter (fun c => c <> target) (l1 ++ target :: l2) = l1 ++ l2.
Proof.
  intros Hnd. apply NoDup_app in Hnd as (_ & H1 & H2). apply NoDup_cons in H2 as [H2 _].
  assert (forall l : list Z, target ∉ l -> filter (fun c => c <> target) l = l) as Hid.
  { induction l as [|x l IH]; intros Hn; [done|]. apply not_elem_of_cons in Hn as [Hx Hn]. rewrite filter_cons_True by congruence. by rewrite IH. }
  rewrite filter_app, filter_cons_False by tauto. rewrite !Hid; [done|done|]. intros Hin. apply (H1 _ Hin). by left.
Qed.

(** The chains of the other nodes do not pass through the changed ones. *)
Lemma chain_aside m m1 kids depth par target p n : tree_ok m kids depth -> m !! p = Some n -> p <> par ->
  (forall t, m !! target = Some t -> parent t = par) ->
  (forall x, x <> target -> (forall o, m !! x = Some o -> parent o <> par) -> next <$> m1 !! x = next <$> m !! x) ->
  chain (delete target m1) (children n) (kids p).
Proof.
  intros Hok Hn Hp Ht Hsame. apply (chain_frame m); [by apply (tk_chain _ _ _ Hok p)|]. intros x Hx.
  destruct (tk_kid _ _ _ Hok p x ltac:(by eexists) Hx) as (o & Ho & Hpo). assert (x <> target) as Hxt.
  { intros ->. specialize (Ht o Ho). congruence. }
  rewrite lookup_delete_ne by done. apply Hsame; [done|]. intros o' Ho'. congruence.
Qed.

(** Taking [target] out of its parent's chain. *)
Lemma unlink_child_outcome s kids depth par target t : tree_ok (nodes s) kids depth -> nodes s !! target = Some t -> parent t = par -> par <> 0 ->
  exists m1, unlink_child par target s = Some (tt, set_nodes m1 s) /\
    (forall p n', m1 !! p = Some n' -> exists n, nodes s !! p = Some n /\ same_but_links n n') /\
    (forall p, is_Some (nodes s !! p) -> is_Some (m1 !! p)) /\
    (forall p n', delete target m1 !! p = Some n' -> chain (delete target m1) (children n') (kids_removed (kids := kids) (par := par) (target := target) p)).
Proof.
  intros Hok Ht Hpar Hpz. rewrite <- Hpar in *. clear Hpar par. destruct (tk_parent _ _ _ Hok target t Ht Hpz) as ([d Hd] & Hin & Hdep).
  assert (parent t <> target) as Hpt by (intros E; rewrite E in Hdep; lia).
  pose proof (tk_nodup _ _ _ Hok (parent t) ltac:(by eexists)) as Hnd. pose proof (tk_chain _ _ _ Hok _ _ Hd) as Hch.
  pose proof (kids_fit Hok (parent t) ltac:(by eexists)) as Hfit.
  apply list_elem_of_split in Hin as (l1 & l2 & El). rewrite El in Hnd, Hch, Hfit. unfold unlink_child.
  rewrite (bind_Some _ _ _ _ _ (get_node_run _ _ _ Hd)), (bind_Some _ _ _ _ _ (get_node_run _ _ _ Ht)).
  assert (kids_removed (kids := kids) (par := parent t) (target := target) (parent t) = l1 ++ l2) as Ekr.
  { unfold kids_removed. rewrite decide_True by done. rewrite El. by apply filter_removed. }
  destruct l1 as [|q l1 _] using rev_ind.
  - cbn in Hch. destruct Hch as (Ec & Htz & t' & Ht' & Hl2). rewrite Ht in Ht'. injection Ht' as <-. rewrite Ec, Z.eqb_refl. eexists. split; [reflexivity|].
    split; [|split].
    + intros p n' Hp. apply lookup_insert_Some in Hp as [[<- <-]|[_ Hp]]; [by exists d|by exists n'].
    + intros p Hp. apply lookup_insert_is_Some. destruct (decide (parent t = p)); [by left|by right].
    + intros p n' Hp. apply lookup_delete_Some in Hp as [Hpt' Hp]. destruct (decide (p = parent t)) as [->|Hpp].
      * rewrite lookup_insert_eq in Hp. injection Hp as <-. rewrite Ekr. cbn. apply NoDup_cons in Hnd as [Htn _]. apply chain_delete; [|done].
        apply (chain_frame (nodes s)); [done|]. intros x _. destruct (decide (x = parent t)) as [->|]; [by rewrite lookup_insert_eq, Hd|by rewrite lookup_insert_ne].
      * rewrite lookup_insert_ne in Hp by done. unfold kids_removed. rewrite decide_False by done.
        apply (chain_aside (nodes s) _ kids depth (parent t) target p n' Hok Hp Hpp); [intros t' E; congruence|].
        intros x _ _. destruct (decide (x = parent t)) as [->|]; [by rewrite lookup_insert_eq, Hd|by rewrite lookup_insert_ne].
  - rewrite <- app_assoc in *. cbn [app] in *. assert (children d <> target) as Hne.
    { intros E. destruct l1 as [|y l1]; cbn in Hch; destruct Hch as (E' & _).
      - apply NoDup_cons in Hnd as [Hq _]. apply Hq. rewrite <- E', E. by left.
      - apply NoDup_cons in Hnd as [Hy _]. apply Hy. rewrite <- E', E. apply elem_of_app. right. right. by left. }
    rewrite (proj2 (Z.eqb_neq _ _) Hne). unfold node_count. erewrite bind_Some by done.
    rewrite (bind_Some _ _ _ _ _ (before_child_run s target l1 q l2 (S (stdpp.base.size (nodes s))) _ Hch Hnd ltac:(lia))).
    assert (q ∈ kids (parent t)) as Hqin by (rewrite El; apply elem_of_app; right; by left).
    destruct (tk_kid _ _ _ Hok (parent t) q ltac:(by eexists) Hqin) as (n & Hn & Hqp). rewrite (proj2 (Z.eqb_neq q 0)) by (by apply (tk_nonzero _ _ _ Hok q n)).
    rewrite (bind_Some _ _ _ _ _ (get_node_run _ _ _ Hn)). eexists. split; [reflexivity|].
    assert (q <> target /\ q <> parent t) as [Hqt Hqpt].
    { split; [intros ->; apply NoDup_app in Hnd as (_ & _ & Hnd); apply NoDup_cons in Hnd as [H _]; apply H; by left|].
      intros E. destruct (tk_parent _ _ _ Hok q n Hn ltac:(congruence)) as (_ & _ & H). rewrite Hqp, E in H. lia. }
    split; [|split].
    + intros p n' Hp. apply lookup_insert_Some in Hp as [[<- <-]|[_ Hp]]; [by exists n|by exists n'].
    + intros p Hp. apply lookup_insert_is_Some. destruct (decide (q = p)); [by left|by right].
    + intros p n' Hp. apply lookup_delete_Some in Hp as [Hpt' Hp]. destruct (decide (p = parent t)) as [->|Hpp].
      * rewrite lookup_insert_ne, Hd in Hp by done. injection Hp as <-. rewrite Ekr. by apply (kids_chain_relink (nodes s) (children d) l1 q target l2 n t).
      * unfold kids_removed. rewrite decide_False by done. assert (exists o, nodes s !! p = Some o /\ children n' = children o) as (o & Ho & ->).
        { destruct (decide (q = p)) as [<-|]; [rewrite lookup_insert_eq in Hp; injection Hp as <-; eauto|rewrite lookup_insert_ne in Hp by done; eauto]. }
        apply (chain_aside (nodes s) _ kids depth (parent t) target p o Hok Ho Hpp); [intros t' E; congruence|].
        intros x _ Hx. rewrite lookup_insert_ne; [done|]. intros <-. by apply (Hx n Hn).
Qed.

(** * The view without a node *)

(** The view of every mount after the entry at [xs] below [rt] is gone. *)
Definition view_delete s kids s' kids' (rt : Z) (xs : list path) : Prop :=
  forall rt' ys, is_root s rt' -> view (nodes s') kids' rt' ys = if decide (rt' = rt /\ ys = xs) then None else view (nodes s) kids rt' ys.

Lemma entry_same n n' : same_but_links n n' -> entry_of n' = entry_of n.
Proof. intros (_ & Et & _ & _ & Eb & Es & _). unfold entry_of. by rewrite Et, Eb, Es. Qed.

(** [m'] is [nodes s] without [target], its parent's chain closed up. *)
Record cut s kids (target : Z) (t : ramfs_node) m' : Prop := {
  ct_gone : m' !! target = None;
  ct_rest : forall p n', m' !! p = Some n' -> exists n, nodes s !! p = Some n /\ same_but_links n n';
  ct_kept : forall p, p <> target -> is_Some (nodes s !! p) -> is_Some (m' !! p);
  ct_chain : forall p n', m' !! p = Some n' -> chain m' (children n') (kids_removed (kids := kids) (par := parent t) (target := target) p);
}.

Lemma cut_at s kids target t m' p n : cut s kids target t m' -> nodes s !! p = Some n -> p <> target -> exists n', m' !! p = Some n' /\ same_but_links n n'.
Proof.
  intros Hc Hn Hp. destruct (ct_kept _ _ _ _ _ Hc p Hp ltac:(by eexists)) as [n' Hn']. destruct (ct_rest _ _ _ _ _ Hc _ _ Hn') as (o & Ho & E).
  rewrite Hn in Ho. injection Ho as <-. by exists n'.
Qed.

Lemma cut_rest s kids target t m' : cut s kids target t m' -> forall p n', m' !! p = Some n' ->
  exists n, nodes s !! p = Some n /\ name n' = name n /\ ntype n' = ntype n /\ parent n' = parent n.
Proof. intros Hc p n' Hp. destruct (ct_rest _ _ _ _ _ Hc p n' Hp) as (n & Hn & H1 & H2 & H3 & _). eauto. Qed.

Lemma view_cut s live kids depth target t rt xs m' : ram_ok s live kids depth -> nodes s !! target = Some t -> parent t <> 0 -> kids target = [] ->
  cut s kids target t m' -> is_root s rt -> walk (nodes s) kids rt xs = Some target ->
  forall rt' ys, is_root s rt' -> view m' (kids_removed (kids := kids) (par := parent t) (target := target)) rt' ys =
    if decide (rt' = rt /\ ys = xs) then None else view (nodes s) kids rt' ys.
Proof.
  intros Hok Ht Hpz Hempty Hc (i & mi & Hi & Hui & Hri) Hw rt' ys (j & mj & Hj & Huj & Hrj). pose proof (rk_tree _ _ _ _ Hok) as Htree.
  destruct (rk_root _ _ _ _ Hok i mi Hi Hui) as (n0 & Hn0 & H0 & _). rewrite Hri in Hn0. destruct (rk_root _ _ _ _ Hok j mj Hj Huj) as (n0' & Hn0' & H0' & _). rewrite Hrj in Hn0'.
  assert (rt' <> target) as Hrt by (intros ->; congruence).
  assert (forall q, walk m' (kids_removed (kids := kids) (par := parent t) (target := target)) rt' ys = Some q <-> walk (nodes s) kids rt' ys = Some q /\ q <> target) as Hwalk.
  { intros q. apply (walk_removed Htree Ht eq_refl Hpz Hempty (ct_gone _ _ _ _ _ Hc) (cut_rest _ _ _ _ _ Hc) (ct_kept _ _ _ _ _ Hc) (ct_chain _ _ _ _ _ Hc)); [by eexists|done]. }
  unfold view. case_decide as E.
  - destruct E as [-> ->]. destruct (walk m' _ rt xs) as [q|] eqn:Eq; [|done]. destruct (proj1 (Hwalk q) eq_refl) as [H1 H2]. congruence.
  - destruct (walk (nodes s) kids rt' ys) as [q|] eqn:Eq.
    + assert (q <> target) as Hqt by (intros ->; destruct (walk_unique Htree rt' n0' rt n0 Hn0' H0' Hn0 H0 _ _ _ Eq Hw) as [-> ->]; by destruct E).
      rewrite (proj2 (Hwalk q)) by done. cbn. destruct (walk_in Htree rt' ys q ltac:(by eexists) Eq) as [n Hn].
      destruct (cut_at _ _ _ _ _ _ _ Hc Hn Hqt) as (n' & -> & Hs). rewrite Hn. cbn. by rewrite (entry_same _ _ Hs).
    + destruct (walk m' _ rt' ys) as [q|] eqn:Eq'; [|done]. by destruct (proj1 (Hwalk q) eq_refl) as [? _].
Qed.

Lemma ram_ok_cut s s' live live' kids depth target t m' : ram_ok s live kids depth -> nodes s !! target = Some t -> parent t <> 0 -> kids target = [] ->
  cut s kids target t m' -> nodes s' = m' -> g_mounts s' = g_mounts s -> ba_rep (kheap (base s')) live' ->
  (forall p, p ∈ live -> p <> target -> p <> ndata t -> p ∈ live') ->
  ram_ok s' live' (kids_removed (kids := kids) (par := parent t) (target := target)) depth.
Proof.
  intros Hok Ht Hpz Hempty Hc En Em Hrep Hlive. pose proof Hok as [Htree _ Hn Hap Hm Hroot Hrts].
  assert (forall p n, nodes s !! p = Some n -> p <> target -> p <> ndata t) as Hnd.
  { intros p n Hp Hpt E. destruct (decide (ndata t = 0)) as [Ez|Ez]; [by apply (tk_nonzero _ _ _ Htree p n Hp); congruence|].
    destruct (no_data _ _ _ _ (Hn _ _ Ht) Ez) as [_ H]. congruence. }
  split; rewrite ?En, ?Em; try done.
  - apply (tree_removed Htree Ht eq_refl Hpz Hempty (ct_gone _ _ _ _ _ Hc) (cut_rest _ _ _ _ _ Hc) (ct_kept _ _ _ _ _ Hc) (ct_chain _ _ _ _ _ Hc)).
  - intros p n' Hp. destruct (ct_rest _ _ _ _ _ Hc _ _ Hp) as (n & Hpn & _ & _ & _ & E1 & E2 & E3 & E4). destruct (Hn _ _ Hpn) as [G1 G2 G3 G4 G5 G6].
    assert (p <> target) as Hpt by (intros ->; rewrite (ct_gone _ _ _ _ _ Hc) in Hp; done).
    split; rewrite ?E1, ?E2, ?E3, ?E4; try done; [apply Hlive; [done|done|by apply (Hnd p n)]|]. intros Hd. destruct (G2 Hd) as [G7 G8].
    assert (m' !! ndata n = None) as Hmn.
    { destruct (m' !! ndata n) as [o'|] eqn:E; [|done]. destruct (ct_rest _ _ _ _ _ Hc _ _ E) as (o & Ho & _). congruence. }
    split; [|done]. apply Hlive; [done|intros E; rewrite E, Ht in G8; done|]. intros E. apply Hpt, (Hap p target n t); congruence.
  - intros p q n' o' Hp Hq E Hd. destruct (ct_rest _ _ _ _ _ Hc _ _ Hp) as (n & Hpn & _ & _ & _ & E1 & _). destruct (ct_rest _ _ _ _ _ Hc _ _ Hq) as (o & Hqo & _ & _ & _ & E2 & _).
    apply (Hap p q n o); congruence.
  - intros i mt Hi Hu. destruct (Hroot i mt Hi Hu) as (n & Hrn & Hp0 & Hd). assert (root mt <> target) as Hrt by (intros E; rewrite E in Hrn; congruence).
    destruct (cut_at _ _ _ _ _ _ _ Hc Hrn Hrt) as (n' & Hn' & _ & Et & Ep & _). exists n'. split; [done|]. split; congruence.
Qed.

(** The frees at the end of [vfs_ramfs_unlink] and of [free_tree]. *)
Definition free_contents (t : ramfs_node) (target : Z) : M (ramfs (HS := HS)) unit :=
  (if ndata t =? 0 then mret tt else on_vfs (kfree (ndata t)));; free_node target.

Lemma free_contents_outcome s live target t : ba_rep (kheap (base s)) live -> target ∈ live -> (ndata t <> 0 -> ndata t ∈ live /\ ndata t <> target) ->
  wp (free_contents t target) (fun _ s' => nodes s' = delete target (nodes s) /\ g_mounts s' = g_mounts s /\ vfs_frame (base s) (base s') /\
    exists live', ba_rep (kheap (base s')) live' /\ live' = live ∖ ({[target]} ∪ (if ndata t =? 0 then ∅ else {[ndata t]}))) s.
Proof.
  intros Hrep Htl Hd. unfold free_contents. wstep. destruct (Z.eqb_spec (ndata t) 0) as [Ez|Ez].
  - wstep. unfold free_node. wstep. apply (wp_give_back _ _ _ live Hrep Htl). intros h Hh. apply wp_modify. cbn.
    split; [done|]. split; [done|]. split; [by destruct (base s)|]. eexists. split; [exact Hh|]. by rewrite union_empty_r_L.
  - destruct (Hd Ez) as [Hdl Hdt]. apply (wp_give_back _ _ _ live Hrep Hdl). intros h Hh. unfold free_node. wstep.
    eapply wp_give_back; [exact Hh|apply elem_of_difference; split; [done|by apply not_elem_of_singleton_2]|]. intros h' Hh'. apply wp_modify. cbn.
    split; [done|]. split; [done|]. split; [by destruct (base s)|]. eexists. split; [exact Hh'|].
    apply leibniz_equiv. intros x. rewrite !elem_of_difference, !elem_of_union, !elem_of_singleton. tauto.
Qed.

(** C31: Unlinking in the RAM file system removes exactly one entry from the map from paths to entries: it returns 0 exactly when the
    path has an entry that is a file or an empty directory, then that path has none and every other path of every
    mount keeps its entry, and the node and its data are given back to the heap, once; otherwise it returns -1 and nothing
    changes.  The invariant of the trees is kept. *)
Theorem ramfs_unlink_refines s live kids depth p rt rel xs leaf : ram_ok s live kids depth ->
  find_mount_for_path (g_mounts s) p = Some (rt, rel) -> components rel = xs ++ [leaf] -> (length leaf <= 63)%nat ->
  wp (vfs_ramfs_unlink p) (fun r s' =>
    ((r = -1 /\ s' = s /\ (view (nodes s) kids rt (xs ++ [leaf]) = None \/ exists x, view (nodes s) kids rt ((xs ++ [leaf]) ++ [x]) <> None)) \/
     (r = 0 /\ view (nodes s) kids rt (xs ++ [leaf]) <> None /\ (forall x, view (nodes s) kids rt ((xs ++ [leaf]) ++ [x]) = None) /\
      g_mounts s' = g_mounts s /\ vfs_frame (base s) (base s') /\
      exists live' kids', ram_ok s' live' kids' depth /\ view_delete s kids s' kids' rt (xs ++ [leaf]) /\
        exists target t, nodes s !! target = Some t /\ live' = live ∖ ({[target]} ∪ (if ndata t =? 0 then ∅ else {[ndata t]}))))) s.
Proof.
  intros Hok Hfind Hc Hlen. destruct (find_mount_some _ _ _ _ Hfind) as (i & mt & Hi & Hu & Hrt & _).
  destruct (mounted_root s live kids depth p rt rel Hok Hfind) as (n0 & Hn0 & H0 & Hd0). assert (is_Some (nodes s !! rt)) as Hr by by eexists.
  pose proof (rk_tree _ _ _ _ Hok) as Htree. assert (is_root s rt) as Hroot by by exists i, mt.
  unfold vfs_ramfs_unlink. wsteps. rewrite Hfind. destruct rel as [|c rel]; [by destruct xs|]. wstep.
  eapply wp_Some; [apply (resolve_parent_run s kids depth rt _ Htree Hr)|]. cbv beta. rewrite Hc.
  destruct (walk (nodes s) kids rt xs) as [q|] eqn:Ew.
  2: { rewrite (parent_of_none _ _ _ _ _ Ew). wstep. left. split; [done|]. split; [done|]. left. unfold view. by rewrite walk_app, Ew. }
  destruct (walk_in Htree _ _ _ Hr Ew) as [n Hn]. destruct (decide (ntype n = FT_DIRECTORY)) as [Hd|Hd].
  2: { rewrite (parent_of_file _ _ _ _ _ _ _ Ew Hn Hd). wstep. left. split; [done|]. split; [done|]. left. unfold view. rewrite walk_app, Ew. cbn. rewrite Hn. cbn.
       by rewrite bool_decide_eq_false_2. }
  rewrite (parent_of_snoc _ _ _ _ _ _ _ Ew Hn Hd), (take_ge leaf) by done. wstep.
  eapply wp_Some; [apply (find_child_run s kids depth q leaf Htree); by eexists|]. cbv beta.
  pose proof (view_child _ _ _ _ _ _ leaf Ew Hn Hd) as Hvc.
  destruct (child (nodes s) (kids q) leaf) as [target|] eqn:Ec; cbn [default from_option id].
  2: { change (0 =? 0) with true. cbv iota. wstep. left. split; [done|]. split; [done|]. by left. }
  destruct (child_Some Htree q leaf target ltac:(by eexists) Ec) as (Hin & t & Ht & Hnm & Hpar). pose proof (tk_nonzero _ _ _ Htree target t Ht) as Htz.
  assert (parent t <> 0) as Hpz by (rewrite Hpar; by apply (tk_nonzero _ _ _ Htree q n)).
  assert (walk (nodes s) kids rt (xs ++ [leaf]) = Some target) as Hwt.
  { rewrite walk_app, Ew. cbn. rewrite Hn. cbn. by rewrite bool_decide_eq_true_2, Ec. }
  rewrite (proj2 (Z.eqb_neq target 0)) by done. wstep. eapply wp_Some; [apply (get_node_run _ _ _ Ht)|]. cbv beta.
  pose proof (tk_chain _ _ _ Htree _ _ Ht) as Hch. destruct (bool_decide (ntype t = FT_DIRECTORY) && negb (children t =? 0)) eqn:Eb.
  - wstep. left. split; [done|]. split; [done|]. right. apply andb_true_iff in Eb as [Eb%bool_decide_eq_true_1 Ecz].
    destruct (kids target) as [|x l] eqn:Ek; [cbn in Hch; rewrite Hch in Ecz; done|]. destruct (tk_kid _ _ _ Htree target x ltac:(by eexists) ltac:(rewrite Ek; by left)) as (o & Ho & _).
    exists (name o). rewrite (view_child _ _ _ _ _ _ (name o) Hwt Ht Eb). rewrite (child_of Htree target x o); [cbn; by rewrite Ho|by eexists|rewrite Ek; by left|done].
  - assert (kids target = []) as Hempty.
    { apply andb_false_iff in Eb as [Eb|Eb]; [apply bool_decide_eq_false_1 in Eb; by apply (tk_files _ _ _ Htree target t)|].
      apply negb_false_iff, Z.eqb_eq in Eb. destruct (kids target) as [|x l]; [done|]. cbn in Hch. destruct Hch as (E & Hx & _). congruence. }
    destruct (unlink_child_outcome s kids depth (parent t) target t Htree Ht eq_refl Hpz) as (m1 & E1 & Hrest & Hkept & Hchain). rewrite <- Hpar. wstep.
    eapply wp_Some; [exact E1|]. cbv beta.
    pose proof (rk_nodes _ _ _ _ Hok _ _ Ht) as Hno.
    assert (cut s kids target t (delete target m1)) as Hcut.
    { split; [apply lookup_delete_eq| | |done].
      - intros x n' Hx. apply lookup_delete_Some in Hx as [_ Hx]. by apply Hrest.
      - intros x Hxt Hx. rewrite lookup_delete_ne by done. by apply Hkept. }
    assert (forall Q s0, wp (free_contents t target) (fun _ s1 => Q 0 s1) s0 ->
      wp ((if ndata t =? 0 then mret tt else on_vfs (kfree (ndata t)));; free_node target;; mret 0) Q s0) as Hassoc.
    { intros Q s2 H. unfold free_contents in H. destruct (wp_inv _ _ _ H) as (u & s3 & E & HQ). apply bind_inv in E as (u' & s4 & Ea & Eb').
      apply wp_bind. apply (wp_Some _ _ _ _ _ Ea). apply wp_bind. apply (wp_Some _ _ _ _ _ Eb'). by apply wp_ret. }
    apply Hassoc. eapply wp_mono; [apply (free_contents_outcome (set_nodes m1 s) live target t (rk_rep _ _ _ _ Hok) (no_live _ _ _ _ Hno))|].
    { intros Hdz. destruct (no_data _ _ _ _ Hno Hdz) as [H1 H2]. split; [done|]. intros E. rewrite E in H2. congruence. }
    intros _ s' (En & Em & Hf & live' & Hrep & El). right. split; [done|]. split; [unfold view; rewrite Hwt; cbn; by rewrite Ht|]. split.
    + intros x. unfold view. rewrite walk_app, Hwt. cbn. rewrite Ht. cbn. case_bool_decide; [|done]. by rewrite Hempty.
    + split; [done|]. split; [done|]. exists live', (kids_removed (kids := kids) (par := parent t) (target := target)). split; [|split].
      * apply (ram_ok_cut s s' live live' kids depth target t (delete target m1) Hok Ht Hpz Hempty Hcut En Em Hrep).
        intros x Hx Hxt Hxd. rewrite El. apply elem_of_difference. split; [done|]. rewrite elem_of_union, elem_of_singleton. intros [?|Hx']; [done|].
        destruct (ndata t =? 0); [by apply elem_of_empty in Hx'|by apply elem_of_singleton in Hx'].
      * intros rt' ys Hr'. rewrite En. cbn [nodes set_nodes]. by apply (view_cut s live kids depth target t rt (xs ++ [leaf]) _ Hok Ht Hpz Hempty Hcut Hroot Hwt).
      * by exists target, t.
Qed.
End unlink.
