(* ===== verification/RamfsFile.v ===== *)
(** Files of the RAM file system: what a write stores and a read returns, and what they leave alone. *)

From S2P Require Import Prelude Memory Interfaces Heap Vfs VfsPipe Ramfs RamfsTree RamfsOps RamfsUnlink.

(** * Overwriting a piece of a block *)

Lemma overwrite_contents (b buf : list Z) (size off : nat) : (off <= length b)%nat -> (off + length buf <= length b)%nat ->
  take (Nat.max size (off + length buf)) (take off b ++ buf ++ drop (off + length buf) b) =
  take off (take size b) ++ drop size (take off b) ++ buf ++ drop (off + length buf) (take size b).
Proof.
  intros H1 H2. rewrite (app_assoc (take off (take size b))).
  assert (take off (take size b) ++ drop size (take off b) = take off b) as ->.
  { rewrite take_take. destruct (decide (off <= size)%nat) as [Hle|Hgt].
    - rewrite Nat.min_l by done. rewrite drop_ge by (rewrite length_take; lia). apply app_nil_r.
    - rewrite Nat.min_r by lia. rewrite <- (take_drop size (take off b)) at 2. rewrite take_take, Nat.min_l by lia. done. }
  rewrite take_app, length_take, (take_ge (take off b)) by (rewrite length_take; lia). f_equal. rewrite Nat.min_l by lia.
  rewrite take_app, (take_ge buf) by lia. f_equal. rewrite skipn_firstn_comm. f_equal. lia.
Qed.

Section file.
Context {HS : Type} `{!BlockAllocator HS} (fresh : Z -> Z -> list Z) (fresh_len : forall p n, 0 <= n -> zlen (fresh p n) = n).
Implicit Types (s : ramfs (HS := HS)) (m : store) (kids : Z -> list Z) (depth : Z -> nat) (live : gset Z).

Definition contents (n : ramfs_node) : list Z := take (Z.to_nat (nsize n)) (block n).

(** [f] is an open file of the node [p]. *)
Record open_at s (f p : Z) (o : file) (x : inode) : Prop := {
  oa_file : fobjs (base s) !! f = Some o;
  oa_nz : f <> 0;
  oa_inode : finode o <> 0;
  oa_obj : iobjs (base s) !! finode o = Some x;
  oa_node : private_data x = p;
  oa_pnz : p <> 0;
  oa_off : is_u32 (offset o);
}.

(** The objects of the open file are no data blocks of the file system: every heap block has one owner. *)
Definition apart s (f : Z) (o : file) : Prop := forall q n, nodes s !! q = Some n -> ndata n <> f /\ ndata n <> finode o.

Lemma get_file_run f o s : fobjs (base s) !! f = Some o -> on_vfs (get_file f) s = Some (o, s).
Proof. intros H. unfold on_vfs, get_file. rewrite H. by destruct s. Qed.
Lemma get_inode_run i x s : iobjs (base s) !! i = Some x -> on_vfs (get_inode i) s = Some (x, s).
Proof. intros H. unfold on_vfs, get_inode. rewrite H. by destruct s. Qed.

Lemma file_node_run s f p o x : open_at s f p o x -> file_node f s = Some (p, s).
Proof.
  intros [H1 H2 H3 H4 H5 H6 H7]. unfold file_node. rewrite (proj2 (Z.eqb_neq f 0)) by done. rewrite (bind_Some _ _ _ _ _ (get_file_run _ _ _ H1)).
  rewrite (proj2 (Z.eqb_neq _ 0)) by done. rewrite (bind_Some _ _ _ _ _ (get_inode_run _ _ _ H4)). by subst.
Qed.

Definition with_offset s (f : Z) (o : file) (off : Z) : ramfs (HS := HS) :=
  mk_ramfs (set_objs (<[f := mk_file (fd o) (finode o) off (fflags o) (fops o)]> (fobjs (base s))) (iobjs (base s)) (pobjs (base s)) (kheap (base s)) (base s)) (nodes s) (g_mounts s).

Lemma set_offset_run s f o off : fobjs (base s) !! f = Some o -> set_offset f off s = Some (tt, with_offset s f o off).
Proof. intros H. unfold set_offset. by rewrite (bind_Some _ _ _ _ _ (get_file_run _ _ _ H)). Qed.

(** * Reading *)

Lemma read_run s live kids depth f p o x n count : ram_ok s live kids depth -> open_at s f p o x -> nodes s !! p = Some n ->
  0 <= count < 2 ^ 64 ->
  let out := take (Z.to_nat count) (drop (Z.to_nat (offset o)) (contents n)) in
  ramfs_file_read f count s = Some ((i32 (zlen out), out), if nsize n <=? offset o then s else with_offset s f o (offset o + zlen out)).
Proof.
  intros Hok Hop Hn Hc out. unfold ramfs_file_read. rewrite (bind_Some _ _ _ _ _ (file_node_run _ _ _ _ _ Hop)).
  rewrite (proj2 (Z.eqb_neq p 0)) by apply (oa_pnz _ _ _ _ _ Hop). rewrite (bind_Some _ _ _ _ _ (get_node_run _ _ _ Hn)).
  rewrite (bind_Some _ _ _ _ _ (get_file_run _ _ _ (oa_file _ _ _ _ _ Hop))). destruct (rk_nodes _ _ _ _ Hok _ _ Hn) as [_ _ _ Hb Hs Hcap].
  pose proof (oa_off _ _ _ _ _ Hop) as Hoff. unfold is_u32 in Hoff. unfold zlen in Hb.
  assert (length (contents n) = Z.to_nat (nsize n)) as Hlen by (unfold contents; rewrite length_take; lia).
  destruct (Z.leb_spec (nsize n) (offset o)) as [Hle|Hlt].
  { unfold out. rewrite drop_ge by lia. by rewrite take_nil. }
  rewrite (u32_small (nsize n - offset o)) by (unfold is_u32; lia). set (c := if count <? nsize n - offset o then u32 count else nsize n - offset o).
  assert (c = Z.min count (nsize n - offset o)) as Ec.
  { unfold c. destruct (Z.ltb_spec count (nsize n - offset o)); [rewrite u32_small by (unfold is_u32; lia); lia|lia]. }
  assert (out = take (Z.to_nat c) (drop (Z.to_nat (offset o)) (block n))) as Eout.
  { unfold out, contents. rewrite Ec, skipn_firstn_comm, take_take. f_equal. lia. }
  assert (zlen out = c) as El by (rewrite Eout; unfold zlen; rewrite length_take, length_drop; lia).
  assert (offset o + c <= zlen (block n)) as Hin by (unfold zlen; lia).
  unfold lift. erewrite bind_Some by (by rewrite (proj2 (Z.leb_le _ _) Hin)).
  rewrite (u32_small (offset o + c)) by (unfold is_u32; lia). rewrite (bind_Some _ _ _ _ _ (set_offset_run _ _ _ _ (oa_file _ _ _ _ _ Hop))).
  by rewrite <- Eout, El.
Qed.

(** A read returns the bytes of the file at the file's offset, up to its end: the count is the smaller of what was asked
    for and what is left, the offset moves past them, and nothing else changes. *)
Theorem ramfs_read_correct s live kids depth f p o x n count : ram_ok s live kids depth -> open_at s f p o x -> nodes s !! p = Some n ->
  0 <= count < 2 ^ 64 ->
  let out := take (Z.to_nat count) (drop (Z.to_nat (offset o)) (contents n)) in
  ramfs_file_read f count s = Some ((i32 (zlen out), out), if nsize n <=? offset o then s else with_offset s f o (offset o + zlen out)).
Proof. apply read_run. Qed.

(** * Writing *)

(** A node whose block has been replaced: the same place in the tree and the same contents, with room up to [e]. *)
Record room_for (n n1 : ramfs_node) (e : Z) : Prop := {
  rf_shape : shape n1 = shape n;
  rf_type : ntype n1 = ntype n;
  rf_room : e <= cap n1 < 2 ^ 32;
  rf_block : zlen (block n1) = cap n1;
  rf_size : nsize n1 = nsize n /\ nsize n <= cap n1;
  rf_bytes : take (Z.to_nat (nsize n)) (block n1) = contents n;
  rf_none : ndata n1 = 0 -> cap n1 = 0;
}.

(** What [grow] leaves: the store still holds the old node, whose block is gone from the heap when it was replaced. *)
Lemma grow_outcome s live kids depth p n e : ram_ok s live kids depth -> nodes s !! p = Some n -> 0 <= e < 2 ^ 32 ->
  wp (grow fresh n e) (fun r s' => nodes s' = nodes s /\ g_mounts s' = g_mounts s /\ vfs_frame (base s) (base s') /\
    (forall f o, fobjs (base s) !! f = Some o -> f <> ndata n -> fobjs (base s') !! f = Some o) /\
    (forall i x, iobjs (base s) !! i = Some x -> i <> ndata n -> iobjs (base s') !! i = Some x) /\
    match r with
    | None => s' = s /\ cap n < e /\ ba_alloc e (kheap (base s)) = Some (0, kheap (base s))
    | Some n1 => room_for n n1 e /\ exists live', ba_rep (kheap (base s')) live' /\
        (forall q, q ∈ live -> q <> ndata n -> q ∈ live') /\
        (ndata n1 = ndata n \/ (ndata n1 ∉ live)) /\ (ndata n1 <> 0 -> ndata n1 ∈ live')
    end) s.
Proof using fresh_len.
  intros Hok Hn He. destruct (rk_nodes _ _ _ _ Hok _ _ Hn) as [G1 G2 G3 G4 G5 G6]. pose proof (rk_rep _ _ _ _ Hok) as Hrep. unfold grow.
  destruct (Z.ltb_spec (cap n) e) as [Hlt|Hge].
  2: { wstep. split; [done|]. split; [done|]. split; [unfold vfs_frame; by rewrite vfs_eta|]. split; [done|]. split; [done|].
       split; [by split; try done; lia|]. exists live. split; [done|]. split; [done|]. split; [by left|]. intros H. by destruct (G2 H). }
  wstep. apply (wp_new_block _ _ _ live Hrep); [lia|lia| |].
  { intros E. change (0 =? 0) with true. cbv iota. wstep. split; [done|]. split; [done|]. split; [unfold vfs_frame; by rewrite vfs_eta|]. by split_and!. }
  intros nb h Hnz Hnl Hh. rewrite (proj2 (Z.eqb_neq nb 0)) by done.
  set (b := fresh nb e). assert (zlen b = e) as Hb by (apply fresh_len; lia).
  assert (forall b', (if ndata n =? 0 then Some b else splice b 0 (take (Z.to_nat (nsize n)) (block n))) = Some b' ->
    room_for n (set_data nb b' (nsize n) e n) e) as Hroom.
  { intros b' Hb'. assert (zlen b' = e /\ take (Z.to_nat (nsize n)) b' = contents n) as [Hl Ht].
    { destruct (Z.eqb_spec (ndata n) 0) as [Ez|Ez].
      - injection Hb' as <-. split; [done|]. unfold contents. replace (nsize n) with 0 by (specialize (G3 Ez); lia). done.
      - pose proof (splice_len _ _ _ _ Hb') as Hl. split; [congruence|]. unfold zlen in *. rewrite splice_in in Hb' by (unfold zlen; rewrite ?length_take; lia).
        injection Hb' as <-. unfold contents.
        rewrite take_app, take_take, Nat.min_id, length_take. replace (Z.to_nat (nsize n) - Nat.min (Z.to_nat (nsize n)) (length (block n)))%nat with 0%nat by lia.
        by rewrite take_0, app_nil_r. }
    split; cbn; try done; [lia|lia]. }
  wstep. destruct (Z.eqb_spec (ndata n) 0) as [Ez|Ez].
  - eapply wp_lift; [reflexivity|]. cbv beta. wsteps. cbn [base nodes g_mounts]. split; [done|]. split; [done|]. split; [by destruct (base s)|].
    split; [done|]. split; [done|]. split; [by apply Hroom|]. exists ({[nb]} ∪ live). split; [done|]. split; [intros q Hq _; by apply elem_of_union_r|].
    split; [by right|]. intros _. by apply elem_of_union_l, elem_of_singleton_2.
  - destruct (G2 Ez) as [Hdl Hdn]. assert (is_Some (splice b 0 (take (Z.to_nat (nsize n)) (block n)))) as [b' Hb'].
    { unfold zlen in *. rewrite splice_in by (unfold zlen; rewrite ?length_take; lia). by eexists. }
    eapply wp_lift; [exact Hb'|]. cbv beta. wstep. eapply wp_give_back; [exact Hh|by apply elem_of_union_r|]. intros h' Hh'. wstep. cbn [base nodes g_mounts].
    split; [done|]. split; [done|]. split; [by destruct (base s)|]. split; [intros f o Hf Hne; cbn; by rewrite lookup_delete_ne|].
    split; [intros i x Hi Hne; cbn; by rewrite lookup_delete_ne|]. split; [by apply Hroom|]. eexists. split; [exact Hh'|].
    assert (nb <> ndata n) as Hne by congruence.
    split; [intros q Hq Hqn; apply elem_of_difference; split; [by apply elem_of_union_r|by apply not_elem_of_singleton_2]|]. split; [by right|].
    intros _. apply elem_of_difference. split; [by apply elem_of_union_l, elem_of_singleton_2|by apply not_elem_of_singleton_2].
Qed.

Lemma same_shape_insert m p n n2 : m !! p = Some n -> shape n2 = shape n -> same_shape m (<[p := n2]> m).
Proof. intros Hp Hsh q. destruct (decide (q = p)) as [->|]; [rewrite lookup_insert_eq, Hp; cbn; by rewrite Hsh|by rewrite lookup_insert_ne]. Qed.

(** The view after the contents of one file have changed. *)
Lemma view_data m kids p n n2 rt xs : m !! p = Some n -> shape n2 = shape n -> ntype n <> FT_DIRECTORY ->
  view (<[p := n2]> m) kids rt xs = if decide (walk m kids rt xs = Some p) then Some (EFile (contents n2)) else view m kids rt xs.
Proof.
  intros Hn Hsh Hty. unfold view. rewrite (walk_shape m) by by apply (same_shape_insert m p n). case_decide as Ew.
  - rewrite Ew. cbn. rewrite lookup_insert_eq. cbn. unfold entry_of. assert (ntype n2 = ntype n) as -> by by injection Hsh. by rewrite bool_decide_eq_false_2.
  - destruct (walk m kids rt xs) as [q|]; [|done]. cbn. by rewrite lookup_insert_ne by congruence.
Qed.

(** Replacing the data of a node keeps the invariant. *)
Lemma ram_ok_data s s' live live' kids depth p n n2 : ram_ok s live kids depth -> nodes s !! p = Some n -> shape n2 = shape n ->
  nodes s' = <[p := n2]> (nodes s) -> g_mounts s' = g_mounts s -> ba_rep (kheap (base s')) live' ->
  (forall q, q ∈ live -> q <> ndata n -> q ∈ live') -> (ndata n2 = ndata n \/ (ndata n2 ∉ live)) -> (ndata n2 <> 0 -> ndata n2 ∈ live') ->
  (ndata n2 = 0 -> cap n2 = 0) -> zlen (block n2) = cap n2 -> 0 <= nsize n2 <= cap n2 -> cap n2 < 2 ^ 32 ->
  ram_ok s' live' kids depth.
Proof.
  intros Hok Hp Hsh En Em Hrep Hlive Hdata Hdl H1 H2 H3 H4. pose proof Hok as [Htree _ Hn Hap Hm Hroot Hrts].
  pose proof (same_shape_insert _ _ _ _ Hp Hsh) as Hss.
  assert (forall q o, nodes s !! q = Some o -> q <> ndata n) as Hqn.
  { intros q o Hq E. destruct (decide (ndata n = 0)) as [Ez|Ez]; [by apply (tk_nonzero _ _ _ Htree q o Hq); congruence|].
    destruct (no_data _ _ _ _ (Hn _ _ Hp) Ez) as [_ H]. congruence. }
  assert (forall q, ndata n2 <> 0 -> nodes s !! q <> None -> ndata n2 <> q) as Hnq.
  { intros q Hz Hq E. destruct Hdata as [Ed|Ed].
    - destruct (no_data _ _ _ _ (Hn _ _ Hp) ltac:(congruence)) as [_ H]. congruence.
    - destruct (nodes s !! q) as [o|] eqn:Eq; [|done]. apply Ed. rewrite E. by apply (no_live _ _ _ _ (Hn _ _ Eq)). }
  split; rewrite ?En, ?Em; try done.
  - by apply (tree_ok_shape (nodes s)).
  - intros q o Hq. apply lookup_insert_Some in Hq as [[<- <-]|[Hqp Hq]].
    + split; try done; [apply Hlive; [apply (no_live _ _ _ _ (Hn _ _ Hp))|by apply (Hqn p n)]|]. intros Hz. split; [by apply Hdl|].
      rewrite lookup_insert_ne by (intros E; by apply (Hnq p Hz); congruence). destruct (nodes s !! ndata n2) eqn:E; [|done]. exfalso. apply (Hnq (ndata n2) Hz); congruence.
    + destruct (Hn _ _ Hq) as [G1 G2 G3 G4 G5 G6]. split; try done; [apply Hlive; [done|by apply (Hqn q o)]|]. intros Hz. destruct (G2 Hz) as [G7 G8].
      split; [apply Hlive; [done|intros E; apply Hqp; symmetry; by apply (Hap q p o n)]|]. rewrite lookup_insert_ne; [done|]. intros E. rewrite <- E in G8. congruence.
  - assert (forall q o, p <> q -> nodes s !! q = Some o -> ndata n2 = ndata o -> ndata n2 <> 0 -> False) as Hno.
    { intros q o Hpq Hq E Hz. destruct Hdata as [Ed|Ed]; [apply Hpq, (Hap p q n o); congruence|].
      apply Ed. rewrite E in *. by destruct (no_data _ _ _ _ (Hn _ _ Hq) Hz). }
    intros q1 q2 o1 o2 Hq1 Hq2 E Hz. apply lookup_insert_Some in Hq1 as [[<- <-]|[Hn1 Hq1]], Hq2 as [[<- <-]|[Hn2 Hq2]].
    + done.
    + by destruct (Hno q2 o2 Hn2 Hq2 E Hz).
    + by destruct (Hno q1 o1 Hn1 Hq1 (eq_sym E) ltac:(congruence)).
    + by apply (Hap q1 q2 o1 o2).
  - intros i mt Hi Hu. destruct (Hroot i mt Hi Hu) as (o & Ho & Hp0 & Hd). destruct (decide (root mt = p)) as [E|E].
    + rewrite E, lookup_insert_eq. exists n2. rewrite E, Hp in Ho. injection Ho as <-. injection Hsh as _ Et Ep _ _. split; [done|]. split; congruence.
    + exists o. by rewrite lookup_insert_ne.
Qed.

(** Where a write of an open file goes. *)
Definition write_offset (o : file) (n : ramfs_node) : Z := if negb (Z.land (fflags o) O_APPEND =? 0) then nsize n else offset o.

(** The contents after [buf] has been written at [off]; [gap] fills what lay between the end of the file and [off]. *)
Definition overwritten (c gap buf : list Z) (off : Z) : list Z :=
  take (Z.to_nat off) c ++ gap ++ buf ++ drop (Z.to_nat (off + zlen buf)) c.

(** What one write does to the node of the file: the contents, and with them the view of every path to it. *)
Record wrote s s' kids (f p : Z) (o : file) (n n2 : ramfs_node) (gap buf : list Z) : Prop := {
  wr_nodes : nodes s' = <[p := n2]> (nodes s);
  wr_shape : shape n2 = shape n;
  wr_contents : contents n2 = overwritten (contents n) gap buf (write_offset o n);
  wr_gap : zlen gap = Z.max 0 (write_offset o n - nsize n);
  wr_offset : fobjs (base s') !! f = Some (mk_file (fd o) (finode o) (write_offset o n + zlen buf) (fflags o) (fops o));
  wr_size : exists x, iobjs (base s') !! finode o = Some x /\ private_data x = p /\ size x = nsize n2;
  wr_view : forall rt xs, is_root s rt -> view (nodes s') kids rt xs =
    if decide (walk (nodes s) kids rt xs = Some p) then Some (EFile (contents n2)) else view (nodes s) kids rt xs;
}.

Lemma contents_len n live m p : node_ok m live p n -> zlen (contents n) = nsize n.
Proof. intros [_ _ _ Hb Hs _]. unfold contents, zlen in *. rewrite length_take. lia. Qed.

Lemma file_write_outcome s live kids depth f p o x n buf : ram_ok s live kids depth -> open_at s f p o x -> apart s f o -> nodes s !! p = Some n -> ntype n <> FT_DIRECTORY ->
  write_offset o n + zlen buf < 2 ^ 32 ->
  wp (ramfs_file_write fresh f buf) (fun r s' => g_mounts s' = g_mounts s /\ vfs_frame (base s) (base s') /\
    ((r = -1 /\ s' = s /\ ba_alloc (write_offset o n + zlen buf) (kheap (base s)) = Some (0, kheap (base s))) \/
     (r = i32 (zlen buf) /\ exists live' n2 gap, ram_ok s' live' kids depth /\ wrote s s' kids f p o n n2 gap buf))) s.
Proof using fresh_len.
  intros Hok Hop Hap Hn Hty Hfit. pose proof (rk_nodes _ _ _ _ Hok _ _ Hn) as Hno. pose proof Hno as [G1 G2 G3 G4 G5 G6].
  set (off := write_offset o n) in *. assert (0 <= off) as Hoff by (unfold off, write_offset; pose proof (oa_off _ _ _ _ _ Hop) as H; unfold is_u32 in H; case_match; lia).
  pose proof (zlen_nonneg buf). unfold ramfs_file_write. wstep. eapply wp_Some; [apply (file_node_run _ _ _ _ _ Hop)|]. cbv beta.
  rewrite (proj2 (Z.eqb_neq p 0)) by apply (oa_pnz _ _ _ _ _ Hop). wstep. eapply wp_Some; [apply (get_node_run _ _ _ Hn)|]. cbv beta.
  wstep. eapply wp_Some; [apply (get_file_run _ _ _ (oa_file _ _ _ _ _ Hop))|]. cbv beta. fold (write_offset o n). fold off.
  rewrite (u32_small (zlen buf)), (u32_small (off + zlen buf)) by (unfold is_u32; lia).
  wstep. eapply wp_mono; [apply (grow_outcome s live kids depth p n (off + zlen buf) Hok Hn); lia|].
  destruct (Hap p n Hn) as [Hdf Hdi].
  intros [n1|] s1 (En1 & Em1 & Hf1 & Hfo1 & Hio1 & Hres).
  2: { destruct Hres as (-> & _ & Hno'). wstep. split; [done|]. split; [done|]. left. done. }
  destruct Hres as ([R1 R2 R3 R4 [R5 R5'] R6 R7] & live' & Hrep' & Hlive & Hd1 & Hd2).
  set (e := off + zlen buf) in *.
  assert ((if zlen buf =? 0 then Some (block n1) else splice (block n1) off buf) =
    Some (take (Z.to_nat off) (block n1) ++ buf ++ drop (Z.to_nat e) (block n1))) as Hsp.
  { destruct (Z.eqb_spec (zlen buf) 0) as [Ez|Ez].
    - f_equal. destruct buf; [|unfold zlen in Ez; cbn in Ez; lia]. unfold e. cbn. rewrite Z.add_0_r. by rewrite take_drop.
    - rewrite splice_in by lia. done. }
  wstep. eapply wp_lift; [exact Hsp|]. cbv beta zeta. unfold put_node. wsteps.
  set (b2 := take (Z.to_nat off) (block n1) ++ buf ++ drop (Z.to_nat e) (block n1)) in *.
  assert (zlen b2 = cap n1) as Hb2.
  { unfold b2, zlen in *. rewrite !length_app, length_take, length_drop. lia. }
  assert (fobjs (base s1) !! f = Some o) as Hfo by (apply Hfo1; [apply (oa_file _ _ _ _ _ Hop)|done]).
  assert (iobjs (base s1) !! finode o = Some x) as Hio by (apply Hio1; [apply (oa_obj _ _ _ _ _ Hop)|done]).
  set (n2 := set_data (ndata n1) b2 (if nsize n1 <? e then e else nsize n1) (cap n1) n1).
  eapply wp_Some; [by apply (set_offset_run _ f o)|]. cbv beta. wstep. eapply wp_Some; [apply get_file_run; apply lookup_insert_eq|]. cbv beta. cbn [finode].
  wstep. eapply wp_Some; [apply get_inode_run; exact Hio|]. cbv beta. wstep. unfold put_inode. unfold wp at 1, on_vfs at 1. cbn. wstep.
  assert (nsize n2 = Z.max (nsize n) e) as Hn2s by (unfold n2; cbn; rewrite R5; destruct (Z.ltb_spec (nsize n) e); lia).
  assert (contents n2 = overwritten (contents n) (drop (Z.to_nat (nsize n)) (take (Z.to_nat off) (block n1))) buf off) as Hc2.
  { unfold contents at 1, overwritten. rewrite Hn2s. unfold n2. cbn [block set_data]. unfold b2. rewrite <- R6. unfold e, zlen in *.
    replace (Z.to_nat (Z.max (nsize n) (off + Z.of_nat (length buf)))) with (Nat.max (Z.to_nat (nsize n)) (Z.to_nat off + length buf)) by lia.
    replace (Z.to_nat (off + Z.of_nat (length buf))) with (Z.to_nat off + length buf)%nat by lia. apply overwrite_contents; lia. }
  split; [done|]. split; [rewrite Hf1; by destruct (base s)|]. right. split; [done|]. exists live', n2, (drop (Z.to_nat (nsize n)) (take (Z.to_nat off) (block n1))).
  assert (shape n2 = shape n) as Hsh by (rewrite <- R1; done).
  split.
  - eapply (ram_ok_data s _ live live' kids depth p n n2); cbn [nodes g_mounts base]; try done; [by rewrite En1|rewrite Hn2s; change (cap n2) with (cap n1); lia|change (cap n2) with (cap n1); lia].
  - split; cbn [nodes base]; try done.
    + by rewrite En1.
    + fold off. unfold zlen in *. rewrite length_drop, length_take. lia.
    + apply lookup_insert_eq.
    + eexists. split; [apply lookup_insert_eq|]. split; [apply (oa_node _ _ _ _ _ Hop)|done].
    + intros rt xs _. rewrite En1. by apply (view_data (nodes s) kids p n n2).
Qed.

(** A write to a file of the RAM file system stores all its bytes or nothing: it returns -1 only when there is no memory for a
    larger block, and then nothing changes; otherwise the contents become the old contents with the bytes at the file's
    offset (or at the end, for O_APPEND), every path that leads to the node shows the new contents and every other path of
    every mount what it showed, the offset moves behind the bytes, and the invariant is kept.  Between the end of the
    file and the offset lie [gap] bytes about which nothing is promised. *)
Theorem ramfs_write_correct s live kids depth f p o x n buf : ram_ok s live kids depth -> open_at s f p o x -> apart s f o -> nodes s !! p = Some n -> ntype n <> FT_DIRECTORY ->
  write_offset o n + zlen buf < 2 ^ 32 ->
  wp (ramfs_file_write fresh f buf) (fun r s' => g_mounts s' = g_mounts s /\ vfs_frame (base s) (base s') /\
    ((r = -1 /\ s' = s /\ ba_alloc (write_offset o n + zlen buf) (kheap (base s)) = Some (0, kheap (base s))) \/
     (r = i32 (zlen buf) /\ exists live' n2 gap, ram_ok s' live' kids depth /\ wrote s s' kids f p o n n2 gap buf))) s.
Proof using fresh_len. apply file_write_outcome. Qed.

(** C32: What is written is read back: after a write, seeking back to where it went and reading as many bytes returns them, unless the
    write found no memory and said so. *)
Theorem ramfs_write_read s live kids depth f p o x n buf : ram_ok s live kids depth -> open_at s f p o x -> apart s f o -> nodes s !! p = Some n ->
  ntype n <> FT_DIRECTORY -> write_offset o n + zlen buf < 2 ^ 32 -> zlen buf < 2 ^ 31 ->
  wp (r ← ramfs_file_write fresh f buf;
      if r =? -1 then mret (-1, []) else
      ramfs_file_seek f (write_offset o n) SEEK_SET;; ramfs_file_read f (zlen buf))
    (fun r s' => (r = (-1, []) /\ s' = s) \/ r = (zlen buf, buf)) s.
Proof using fresh_len.
  intros Hok Hop Hap Hn Hty Hfit Hlen. pose proof (zlen_nonneg buf) as Hb0. set (off := write_offset o n) in *.
  assert (is_u32 off) as Hoff.
  { destruct (rk_nodes _ _ _ _ Hok _ _ Hn) as [_ _ _ _ ? ?]. pose proof (oa_off _ _ _ _ _ Hop) as H. unfold is_u32 in *. unfold off, write_offset in *. case_match; lia. }
  wstep. eapply wp_mono; [by apply (file_write_outcome s live kids depth f p o x n buf)|]. intros r s1 (_ & _ & [(-> & -> & _)|(-> & live' & n2 & gap & Hok' & Hw)]).
  { change (-1 =? -1) with true. cbv iota. wstep. by left. }
  rewrite i32_small by lia. rewrite (proj2 (Z.eqb_neq (zlen buf) (-1))) by lia.
  pose proof (wr_offset _ _ _ _ _ _ _ _ _ _ Hw) as Hfo. destruct (wr_size _ _ _ _ _ _ _ _ _ _ Hw) as (x1 & Hx1 & Hpx & _). fold off in Hfo.
  set (o1 := mk_file _ _ _ _ _) in Hfo. assert (nodes s1 !! p = Some n2) as Hn2 by (rewrite (wr_nodes _ _ _ _ _ _ _ _ _ _ Hw); apply lookup_insert_eq).
  assert (is_u32 (off + zlen buf)) as Hoff1 by (unfold is_u32 in *; lia).
  assert (open_at s1 f p o1 x1) as Hop1 by (destruct Hop; by split).
  assert (ramfs_file_seek f off SEEK_SET s1 = Some (i32 off, with_offset s1 f o1 off)) as Hseek.
  { unfold ramfs_file_seek. rewrite (bind_Some _ _ _ _ _ (file_node_run _ _ _ _ _ Hop1)). rewrite (proj2 (Z.eqb_neq p 0)) by apply (oa_pnz _ _ _ _ _ Hop).
    rewrite (bind_Some _ _ _ _ _ (get_node_run _ _ _ Hn2)), (bind_Some _ _ _ _ _ (get_file_run _ _ _ Hfo)). change (SEEK_SET =? SEEK_SET) with true. cbv iota.
    rewrite (u32_small off) by done. by rewrite (bind_Some _ _ _ _ _ (set_offset_run _ _ _ _ Hfo)). }
  wstep. eapply wp_Some; [exact Hseek|]. cbv beta. set (s2 := with_offset s1 f o1 off).
  assert (open_at s2 f p (mk_file (fd o1) (finode o1) off (fflags o1) (fops o1)) x1) as Hop2.
  { destruct Hop1. split; try done. apply lookup_insert_eq. }
  assert (ram_ok s2 live' kids depth) as Hok2 by by apply (ram_ok_ext s1).
  eapply wp_Some; [apply (read_run s2 live' kids depth f p _ x1 n2 (zlen buf) Hok2 Hop2 Hn2); lia|]. right. cbn [offset].
  assert (take (Z.to_nat (zlen buf)) (drop (Z.to_nat off) (contents n2)) = buf) as Hout.
  { rewrite (wr_contents _ _ _ _ _ _ _ _ _ _ Hw). unfold overwritten. fold off. pose proof (wr_gap _ _ _ _ _ _ _ _ _ _ Hw) as Hg. fold off in Hg.
    pose proof (contents_len _ _ _ _ (rk_nodes _ _ _ _ Hok _ _ Hn)) as Hcl. destruct (rk_nodes _ _ _ _ Hok _ _ Hn) as [_ _ _ _ Hsz _]. unfold is_u32 in Hoff. unfold zlen in *.
    rewrite app_assoc, drop_app, (drop_ge (_ ++ gap)) by (rewrite length_app, length_take; lia). rewrite length_app, length_take. cbn [app].
    replace (Z.to_nat off - (Nat.min (Z.to_nat off) (length (contents n)) + length gap))%nat with 0%nat by lia. rewrite drop_0, take_app, take_ge by lia.
    replace (Z.to_nat (Z.of_nat (length buf)) - length buf)%nat with 0%nat by lia. by rewrite take_0, app_nil_r. }
  rewrite Hout. by rewrite i32_small by lia.
Qed.
End file.
