(* ===== verification/RamfsUnmount.v ===== *)
(** Unmounting a RAM file system: [free_tree] returns, frees every node below the root and its data once, and
    nothing else. *)

From S2P Require Import Prelude Memory Interfaces Vfs VfsPipe Ramfs RamfsTree RamfsOps RamfsUnlink.

(** * Descendants *)

Inductive desc (m : store) (p : Z) : Z -> Prop :=
| desc_refl : is_Some (m !! p) -> desc m p p
| desc_step q n : m !! q = Some n -> parent n <> 0 -> desc m p (parent n) -> desc m p q.

Section desc.
Context {m : store} {kids : Z -> list Z} {depth : Z -> nat} (Hok : tree_ok m kids depth).

Lemma desc_in p q : desc m p q -> is_Some (m !! q).
Proof. intros []; [done|by eexists]. Qed.

Lemma desc_depth p q : desc m p q -> (depth p <= depth q)%nat /\ (depth p = depth q -> p = q).
Proof.
  induction 1 as [|q n Hq Hz _ [IH1 IH2]]; [done|]. destruct (tk_parent _ _ _ Hok q n Hq Hz) as (_ & _ & Hd). split; [lia|]. intros E. lia.
Qed.

Lemma desc_unique c1 c2 q : desc m c1 q -> desc m c2 q -> depth c1 = depth c2 -> c1 = c2.
Proof.
  intros H1. revert c2. induction H1 as [Hc|q n Hq Hz H1 IH]; intros c2 H2 Hd.
  - symmetry. by apply (desc_depth c2 c1).
  - inversion H2 as [Hq2|q' n' Hq' Hz' H2']; subst.
    + destruct (desc_depth _ _ H1) as [Hle _]. destruct (tk_parent _ _ _ Hok _ _ Hq Hz) as (_ & _ & Hdq). lia.
    + rewrite Hq in Hq'. injection Hq' as <-. by apply IH.
Qed.

Lemma desc_child p c q : is_Some (m !! p) -> c ∈ kids p -> desc m c q -> desc m p q.
Proof.
  intros Hp Hc H. destruct (tk_kid _ _ _ Hok p c Hp Hc) as (n & Hn & Hpar).
  assert (p <> 0) as Hpz by (destruct Hp as [o Ho]; by apply (tk_nonzero _ _ _ Hok p o)).
  induction H as [|q o Hq Hz _ IH]; [|by eapply desc_step]. apply (desc_step m p c n); [done|congruence|]. rewrite Hpar. by apply desc_refl.
Qed.

Lemma desc_kids p q : desc m p q -> q = p \/ exists c, c ∈ kids p /\ desc m c q.
Proof.
  induction 1 as [|q n Hq Hz Hd IH]; [by left|right]. destruct (tk_parent _ _ _ Hok q n Hq Hz) as (Hp & Hin & _).
  destruct IH as [E|(c & Hc & Hdc)]; [rewrite <- E; exists q; split; [done|apply desc_refl; by eexists]|]. exists c. split; [done|]. by eapply desc_step.
Qed.

Lemma kid_depth p c : is_Some (m !! p) -> c ∈ kids p -> depth c = S (depth p) /\ is_Some (m !! c).
Proof.
  intros Hp Hc. destruct (tk_kid _ _ _ Hok p c Hp Hc) as (n & Hn & Hpar). assert (p <> 0) as Hpz by (destruct Hp as [o Ho]; by apply (tk_nonzero _ _ _ Hok p o)).
  destruct (tk_parent _ _ _ Hok c n Hn ltac:(congruence)) as (_ & _ & Hd). split; [congruence|by eexists].
Qed.

Lemma not_own_child p c : is_Some (m !! p) -> c ∈ kids p -> ~ desc m c p.
Proof. intros Hp Hc H. destruct (kid_depth p c Hp Hc) as [Hd _]. destruct (desc_depth _ _ H) as [Hle _]. lia. Qed.

Lemma siblings_apart p c1 c2 q : is_Some (m !! p) -> c1 ∈ kids p -> c2 ∈ kids p -> desc m c1 q -> desc m c2 q -> c1 = c2.
Proof.
  intros Hp H1 H2 Hd1 Hd2. apply (desc_unique c1 c2 q); [done|done|]. destruct (kid_depth p c1 Hp H1) as [-> _]. by destruct (kid_depth p c2 Hp H2) as [-> _].
Qed.

(** A node [k] levels below another is one of at least [k + 1] nodes. *)
Lemma desc_long p q : desc m p q -> exists l, NoDup l /\ length l = S (depth q - depth p) /\ forall x, x ∈ l -> is_Some (m !! x) /\ (depth x <= depth q)%nat.
Proof.
  induction 1 as [Hp|q n Hq Hz Hd (l & Hnd & Hl & Hin)].
  - exists [p]. split; [apply NoDup_singleton|]. split; [cbn; lia|]. intros x ->%list_elem_of_singleton. done.
  - destruct (tk_parent _ _ _ Hok q n Hq Hz) as (_ & _ & Hdq). destruct (desc_depth _ _ Hd) as [Hle _]. exists (q :: l). split; [|split].
    + apply NoDup_cons. split; [|done]. intros H. apply Hin in H as [_ H]. lia.
    + cbn. lia.
    + intros x [->|Hx]%elem_of_cons; [split; [by eexists|lia]|]. destruct (Hin x Hx). split; [done|lia].
Qed.

Lemma list_fits (l : list Z) (m0 : store) : NoDup l -> (forall x, x ∈ l -> is_Some (m0 !! x)) -> (length l <= stdpp.base.size m0)%nat.
Proof.
  intros Hnd Hin. rewrite <- size_dom, <- (size_list_to_set (C := gset Z) l) by done. apply subseteq_size. intros c Hc%elem_of_list_to_set. by apply elem_of_dom, Hin.
Qed.

Lemma desc_height p q : desc m p q -> (depth q - depth p < stdpp.base.size m)%nat.
Proof. intros H. destruct (desc_long p q H) as (l & Hnd & Hl & Hin). pose proof (list_fits l m Hnd (fun x Hx => proj1 (Hin x Hx))). lia. Qed.
End desc.

Section unmount.
Context {HS : Type} `{!BlockAllocator HS}.
Implicit Types (s : ramfs (HS := HS)) (m : store) (kids : Z -> list Z) (depth : Z -> nat) (live : gset Z).

(** The blocks a node owns. *)
Definition owns m (p x : Z) : Prop := exists n, m !! p = Some n /\ (x = p \/ x = ndata n).

(** [s'] is [s] without the nodes in [D], their blocks being free again. *)
Record swept m live s s' (D : Z -> Prop) : Prop := {
  sw_gone : forall q, D q -> nodes s' !! q = None;
  sw_kept : forall q, ~ D q -> nodes s' !! q = nodes s !! q;
  sw_mounts : g_mounts s' = g_mounts s;
  sw_frame : vfs_frame (base s) (base s');
  sw_live : exists live', ba_rep (kheap (base s')) live' /\ forall x, x ∈ live' <-> x ∈ live /\ forall q, D q -> ~ (owns m q x /\ x <> 0);
}.

Lemma swept_refl m live s : ba_rep (kheap (base s)) live -> swept m live s s (fun _ => False).
Proof.
  intros H. split; try done; [unfold vfs_frame; by rewrite vfs_eta|]. exists live. split; [done|]. intros x. split; [by split|by intros [? _]].
Qed.

Lemma swept_ext m live s s' D D' : (forall q, D q <-> D' q) -> swept m live s s' D -> swept m live s s' D'.
Proof.
  intros HD [H1 H2 H3 H4 (live' & Hr & Hl)]. split; [intros q Hq; by apply H1, HD|intros q Hq; apply H2; by rewrite HD|done|done|].
  exists live'. split; [done|]. intros x. rewrite Hl. split; intros [Ha Hb]; (split; [done|]); intros q Hq; apply Hb; by apply HD.
Qed.

Lemma vfs_frame_trans (v1 v2 v3 : vfs (HS := HS)) : vfs_frame v1 v2 -> vfs_frame v2 v3 -> vfs_frame v1 v3.
Proof. unfold vfs_frame. intros E1 E2. rewrite E2, E1. by destruct v1, v2, v3. Qed.

Lemma swept_trans m live s1 s2 s3 (D1 D2 : Z -> Prop) : swept m live s1 s2 D1 ->
  (forall live', ba_rep (kheap (base s2)) live' -> (forall x, x ∈ live' <-> x ∈ live /\ forall q, D1 q -> ~ (owns m q x /\ x <> 0)) -> swept m live' s2 s3 D2) ->
  swept m live s1 s3 (fun q => D1 q \/ D2 q).
Proof.
  intros [G1 G2 G3 G4 (live2 & Hr2 & Hl2)] H. destruct (H live2 Hr2 Hl2) as [H1 H2 H3 H4 (live3 & Hr3 & Hl3)]. split.
  - intros q [Hq|Hq]; [|by apply H1]. destruct (nodes s3 !! q) as [o|] eqn:E; [|done]. exfalso.
    assert (~ D2 q) as Hn by (intros Hd; by rewrite H1 in E). by rewrite H2, G1 in E.
  - intros q Hq. rewrite H2, G2 by tauto. done.
  - congruence.
  - by eapply vfs_frame_trans.
  - exists live3. split; [done|]. intros x. rewrite Hl3, Hl2. split; [intros [[Ha Hb] Hc]; split; [done|]; intros q [Hq|Hq]; auto|].
    intros [Ha Hb]. split; [split; [done|]|]; intros q Hq; apply Hb; tauto.
Qed.

Section free.
Context {s0 : ramfs (HS := HS)} {live0 : gset Z} {kids : Z -> list Z} {depth : Z -> nat} (Hok : ram_ok s0 live0 kids depth).
Notation m := (nodes s0).

Lemma owns_unique q1 q2 x : owns m q1 x -> owns m q2 x -> x <> 0 -> q1 = q2.
Proof.
  intros (n1 & H1 & E1) (n2 & H2 & E2) Hx. destruct E1 as [->|E1], E2 as [E2|E2].
  - done.
  - destruct (no_data _ _ _ _ (rk_nodes _ _ _ _ Hok _ _ H2) ltac:(congruence)) as [_ H]. congruence.
  - destruct (no_data _ _ _ _ (rk_nodes _ _ _ _ Hok _ _ H1) ltac:(congruence)) as [_ H]. congruence.
  - apply (rk_apart _ _ _ _ Hok q1 q2 n1 n2); congruence.
Qed.

(** The nodes in [D] are as they were, and their blocks are in use. *)
Definition intact s live (D : Z -> Prop) : Prop :=
  (forall q, D q -> nodes s !! q = m !! q) /\ (forall q x, D q -> owns m q x -> x <> 0 -> x ∈ live).

Lemma intact_after s s' live live' (D1 D2 : Z -> Prop) : intact s live D2 -> swept m live s s' D1 -> (forall q, D1 q -> D2 q -> False) ->
  (forall x, x ∈ live' <-> x ∈ live /\ forall q, D1 q -> ~ (owns m q x /\ x <> 0)) -> intact s' live' D2.
Proof.
  intros [H1 H2] Hsw Hdis Hl. split.
  - intros q Hq. rewrite (sw_kept _ _ _ _ _ Hsw) by (intros Hd; by apply (Hdis q)). by apply H1.
  - intros q x Hq Ho Hx. apply Hl. split; [by apply (H2 q)|]. intros q' Hq' [Ho' _]. pose proof (owns_unique _ _ _ Ho Ho' Hx) as <-. by apply (Hdis q).
Qed.

Lemma free_siblings_outcome (f : Z -> M (ramfs (HS := HS)) unit) p : is_Some (m !! p) ->
  (forall x s live, x ∈ kids p -> ba_rep (kheap (base s)) live -> intact s live (desc m x) -> wp (f x) (fun _ s' => swept m live s s' (desc m x)) s) ->
  forall l k c s live, chain m c l -> NoDup l -> (forall x, x ∈ l -> x ∈ kids p) -> (length l <= k)%nat -> ba_rep (kheap (base s)) live ->
  intact s live (fun q => exists x, x ∈ l /\ desc m x q) ->
  wp (free_siblings f k c) (fun _ s' => swept m live s s' (fun q => exists x, x ∈ l /\ desc m x q)) s.
Proof.
  intros Hp Hf. induction l as [|x l IH]; intros k c s live Hc Hnd Hin Hk Hrep Hint; cbn in Hc.
  - subst. destruct k; cbn; wstep; (eapply swept_ext; [|by apply swept_refl]); intros q; (split; [done|]); by intros (x & Hx%not_elem_of_nil & _).
  - destruct Hc as (-> & Hx & o & Ho & Hl). destruct k as [|k]; [cbn in Hk; lia|]. cbn [free_siblings]. rewrite (proj2 (Z.eqb_neq x 0)) by done.
    apply NoDup_cons in Hnd as [Hxl Hnd]. assert (x ∈ kids p) as Hxk by (apply Hin; by left).
    assert (intact s live (desc m x)) as Hix by (split; [intros q Hq; apply (proj1 Hint); exists x; split; [by left|done]|intros q y Hq; apply (proj2 Hint); exists x; split; [by left|done]]).
    assert (nodes s !! x = Some o) as Hos by (rewrite (proj1 Hix); [done|apply desc_refl; by eexists]).
    wstep. eapply wp_Some; [apply (get_node_run _ _ _ Hos)|]. cbv beta. wstep. eapply wp_mono; [by apply (Hf x s live)|].
    intros [] s1 Hsw. destruct (sw_live _ _ _ _ _ Hsw) as (live1 & Hr1 & Hl1).
    assert (intact s1 live1 (fun q => exists y, y ∈ l /\ desc m y q)) as Hint1.
    { apply (intact_after s s1 live live1 (desc m x)); [|done| |done].
      - split; [intros q (y & Hy & Hd); apply (proj1 Hint); exists y; split; [by right|done]|intros q z (y & Hy & Hd); apply (proj2 Hint); exists y; split; [by right|done]].
      - intros q Hd1 (y & Hy & Hd2). pose proof (siblings_apart (rk_tree _ _ _ _ Hok) p x y q Hp Hxk ltac:(apply Hin; by right) Hd1 Hd2) as ->. done. }
    eapply wp_mono; [apply (IH k (next o) s1 live1 Hl Hnd ltac:(intros y Hy; apply Hin; by right) ltac:(cbn in Hk; lia) Hr1 Hint1)|].
    intros [] s2 Hsw2. eapply swept_ext; [|eapply (swept_trans m live s s1 s2 (desc m x)); [done|]].
    2: { intros live' Hr' Hl'. assert (live' = live1) as -> by (apply leibniz_equiv; intros z; rewrite Hl', Hl1; done). exact Hsw2. }
    intros q. cbn. split.
    + intros [Hd|(y & Hy & Hd)]; [exists x; split; [by left|done]|exists y; split; [by right|done]].
    + intros (y & [->|Hy]%elem_of_cons & Hd); [by left|right; by exists y].
Qed.

(** [free_tree] of [p], when [fuel] exceeds the height of the tree below it. *)
Lemma free_tree_outcome fuel : forall p s live, is_Some (m !! p) -> ba_rep (kheap (base s)) live -> intact s live (desc m p) ->
  (forall q, desc m p q -> (depth q - depth p < fuel)%nat) -> wp (free_tree fuel p) (fun _ s' => swept m live s s' (desc m p)) s.
Proof.
  pose proof (rk_tree _ _ _ _ Hok) as Htree. induction fuel as [|fuel IH]; intros p s live Hp Hrep Hint Hfuel.
  { exfalso. pose proof (Hfuel p (desc_refl _ _ Hp)) as H. by apply Nat.nlt_0_r in H. }
  pose proof Hp as [n Hn]. assert (desc m p p) as Hpp by by apply desc_refl.
  assert (nodes s !! p = Some n) as Hns by by rewrite (proj1 Hint).
  cbn [free_tree]. wstep. eapply wp_Some; [apply (get_node_run _ _ _ Hns)|]. cbv beta. unfold node_count. wsteps.
  assert (forall c q, c ∈ kids p -> desc m c q -> desc m p q) as Hdk by (intros c q Hc Hd; by apply (desc_child Htree p c)).
  assert (intact s live (fun q => exists x, x ∈ kids p /\ desc m x q)) as Hint1.
  { split; [intros q (x & Hx & Hd); apply (proj1 Hint); by eapply Hdk|intros q y (x & Hx & Hd); apply (proj2 Hint); by eapply Hdk]. }
  eapply wp_mono; [apply (free_siblings_outcome (free_tree fuel) p Hp) with (l := kids p) (live := live)|].
  - intros x s1 live1 Hx Hr1 Hi1. destruct (kid_depth Htree p x Hp Hx) as [Hdx Hxs]. apply IH; [done|done|done|].
    intros q Hq. pose proof (Hfuel q (Hdk x q Hx Hq)). destruct (desc_depth Htree _ _ Hq) as [Hle _]. lia.
  - by apply (tk_chain _ _ _ Htree).
  - by apply (tk_nodup _ _ _ Htree).
  - done.
  - apply Nat.le_le_succ_r, (list_fits (kids p) (nodes s)); [by apply (tk_nodup _ _ _ Htree)|]. intros x Hx. destruct (kid_depth Htree p x Hp Hx) as [_ Hxs].
    rewrite (proj1 Hint1); [done|]. exists x. split; [done|by apply desc_refl].
  - done.
  - done.
  - intros [] s1 Hsw. destruct (sw_live _ _ _ _ _ Hsw) as (live1 & Hr1 & Hl1).
    assert (~ (exists x, x ∈ kids p /\ desc m x p)) as Hnp by (intros (x & Hx & Hd); by apply (not_own_child Htree p x Hp Hx)).
    assert (intact s1 live1 (fun q => q = p)) as Hi1.
    { apply (intact_after s s1 live live1 (fun q => exists x, x ∈ kids p /\ desc m x q)); [|done| |done].
      - split; [intros q ->; by apply (proj1 Hint)|intros q x ->; by apply (proj2 Hint)].
      - by intros q Hq ->. }
    assert (p <> 0) as Hpz by by apply (tk_nonzero _ _ _ Htree p n).
    assert (p ∈ live1) as Hpl by (apply (proj2 Hi1 p p); [done|exists n; split; [done|by left]|done]).
    eapply wp_mono; [apply (free_contents_outcome s1 live1 p n Hr1 Hpl)|].
    + intros Hz. split; [apply (proj2 Hi1 p); [done|exists n; split; [done|by right]|done]|]. intros E.
      destruct (no_data _ _ _ _ (rk_nodes _ _ _ _ Hok _ _ Hn) Hz) as [_ H]. rewrite E in H. congruence.
    + intros [] s2 (En & Em & Hf & live2 & Hr2 & El2).
      eapply swept_ext; [|eapply (swept_trans m live s s1 s2 (fun q => exists x, x ∈ kids p /\ desc m x q) (fun q => q = p)); [done|]].
      * intros q. cbn. split; [intros [(x & Hx & Hd)| ->]; [by eapply Hdk|done]|]. intros [->|H]%(desc_kids Htree); [by right|by left].
      * intros live' Hr' Hl'. assert (live' = live1) as -> by (apply leibniz_equiv; intros z; rewrite Hl', Hl1; done). split.
        -- intros q ->. rewrite En. apply lookup_delete_eq.
        -- intros q Hq. rewrite En. by apply lookup_delete_ne.
        -- done.
        -- done.
        -- exists live2. split; [done|]. intros x. rewrite El2, elem_of_difference, elem_of_union, elem_of_singleton. split.
           ++ intros [Hx Hnx]. split; [done|]. intros q -> ((o & Ho & Eo) & Hxz). rewrite Hn in Ho. injection Ho as <-. apply Hnx. destruct Eo as [->|Eo]; [by left|right].
              rewrite <- Eo. rewrite (proj2 (Z.eqb_neq x 0)) by done. by apply elem_of_singleton_2.
           ++ intros [Hx Hall]. split; [done|]. intros [->|Hd]; [apply (Hall p eq_refl); split; [exists n; split; [done|by left]|done]|].
              destruct (Z.eqb_spec (ndata n) 0) as [E|E]; [by apply elem_of_empty in Hd|]. apply elem_of_singleton in Hd as ->. apply (Hall p eq_refl).
              split; [exists n; split; [done|by right]|done].
Qed.

(** * The other mounts *)

(** [s'] is [s] without the tree below the root [rt]. *)
Context {s1 : ramfs (HS := HS)} {live1 : gset Z} {rt : Z} {n0 : ramfs_node} (Hrt : m !! rt = Some n0) (Hrt0 : parent n0 = 0)
  (Hgone : forall q, desc m rt q -> nodes s1 !! q = None) (Hkept : forall q, ~ desc m rt q -> nodes s1 !! q = m !! q)
  (Hlive : forall x, x ∈ live1 <-> x ∈ live0 /\ forall q, desc m rt q -> ~ (owns m q x /\ x <> 0)).

Lemma swept_old p n : nodes s1 !! p = Some n -> m !! p = Some n /\ ~ desc m rt p.
Proof using Hgone Hkept.
  intros H. assert (~ desc m rt p) as Hn by (intros Hd; by rewrite Hgone in H). by rewrite Hkept in H.
Qed.

Lemma swept_kid p c : is_Some (m !! p) -> c ∈ kids p -> desc m rt c -> desc m rt p.
Proof using Hok Hrt Hrt0.
  clear - Hok Hrt Hrt0. intros Hp Hc Hd. destruct (tk_kid _ _ _ (rk_tree _ _ _ _ Hok) p c Hp Hc) as (n & Hn & Hpar). inversion Hd as [Hs|q n' Hq Hz Hd']; subst.
  - destruct Hp as [o Ho]. rewrite Hrt in Hn. injection Hn as <-. rewrite Hrt0 in Ho. by destruct (tk_nonzero _ _ _ (rk_tree _ _ _ _ Hok) 0 o Ho).
  - rewrite Hn in Hq. by injection Hq as ->.
Qed.

Lemma tree_swept : tree_ok (nodes s1) kids depth.
Proof using Hok Hrt Hrt0 Hgone Hkept.
  pose proof (rk_tree _ _ _ _ Hok) as Htree.
  assert (forall p c, is_Some (m !! p) -> ~ desc m rt p -> c ∈ kids p -> nodes s1 !! c = m !! c) as Hkid.
  { intros p c Hp Hnp Hc. apply Hkept. intros Hd. by apply Hnp, (swept_kid p c). }
  split.
  - intros p n [Hn _]%swept_old. by apply (tk_nonzero _ _ _ Htree p n).
  - intros p n [Hn Hnp]%swept_old. apply (chain_frame m); [by apply (tk_chain _ _ _ Htree p)|]. intros x Hx. by rewrite (Hkid p) by (by eexists || done).
  - intros p c [n [Hn Hnp]%swept_old] Hc. rewrite (Hkid p) by (by eexists || done). apply (tk_kid _ _ _ Htree p c); [by eexists|done].
  - intros c n [Hc Hnc]%swept_old Hz. destruct (tk_parent _ _ _ Htree c n Hc Hz) as (Hp & Hin & Hd). split; [|done].
    rewrite Hkept; [done|]. intros H. by apply Hnc, (desc_step m rt c n).
  - intros p [n [Hn Hnp]%swept_old]. apply (tk_nodup _ _ _ Htree). by eexists.
  - intros p c1 c2 n1 n2 [n [Hn Hnp]%swept_old] Hc1 Hc2 [Hn1 _]%swept_old [Hn2 _]%swept_old. apply (tk_names _ _ _ Htree p); [by eexists|done..].
  - intros p n [Hn _]%swept_old. by apply (tk_files _ _ _ Htree p).
Qed.

Lemma walk_swept xs : forall p, is_Some (m !! p) -> ~ desc m rt p ->
  walk (nodes s1) kids p xs = walk m kids p xs /\ forall q, walk m kids p xs = Some q -> ~ desc m rt q.
Proof using Hok Hrt Hrt0 Hgone Hkept.
  pose proof (rk_tree _ _ _ _ Hok) as Htree. induction xs as [|x xs IH]; intros p Hp Hnp; [split; [done|]; by intros q [= <-]|].
  cbn [walk]. rewrite (Hkept p Hnp). pose proof Hp as [n Hn]. rewrite Hn. cbn. case_bool_decide; [|done].
  assert (child (nodes s1) (kids p) x = child m (kids p) x) as ->.
  { apply find_ext. intros c Hc. unfold has_name. rewrite Hkept; [done|]. intros Hd. by apply Hnp, (swept_kid p c). }
  destruct (child m (kids p) x) as [c|] eqn:Ec; [|done]. cbn. destruct (child_Some Htree p x c Hp Ec) as (Hc & o & Ho & _).
  apply IH; [by eexists|]. intros Hd. by apply Hnp, (swept_kid p c).
Qed.

Lemma other_root rt' n' : m !! rt' = Some n' -> parent n' = 0 -> rt' <> rt -> ~ desc m rt rt'.
Proof using. clear. intros Hn' H0 Hne Hd. inversion Hd as [|q o Hq Hz]; subst; [done|]. rewrite Hn' in Hq. by injection Hq as <-. Qed.

Lemma view_swept rt' n' ys : m !! rt' = Some n' -> parent n' = 0 -> rt' <> rt -> view (nodes s1) kids rt' ys = view m kids rt' ys.
Proof using Hok Hrt Hrt0 Hgone Hkept.
  intros Hn' H0 Hne. destruct (walk_swept ys rt' ltac:(by eexists) (other_root rt' n' Hn' H0 Hne)) as [E Hq]. unfold view. rewrite E.
  destruct (walk m kids rt' ys) as [q|]; [|done]. cbn. by rewrite (Hkept q (Hq q eq_refl)).
Qed.

(** The invariant without the mount [i] of that root. *)
Lemma ram_ok_swept i mt : g_mounts s0 !! i = Some mt -> in_use mt = true -> root mt = rt -> g_mounts s1 = <[i := mk_mount false (prefix mt) 0]> (g_mounts s0) ->
  ba_rep (kheap (base s1)) live1 -> ram_ok s1 live1 kids depth.
Proof using Hok Hrt Hrt0 Hgone Hkept Hlive.
  intros Hi Hu Hroot Em Hrep. pose proof Hok as [Htree _ Hn Hap Hm Hroots Hrts].
  assert (forall j mj, g_mounts s1 !! j = Some mj -> in_use mj = true -> j <> i /\ g_mounts s0 !! j = Some mj) as Hold.
  { intros j mj Hj Huj. rewrite Em in Hj. apply list_lookup_insert_Some in Hj as [(-> & <- & _)|[Hne Hj]]; [done|]. split; [by intros ->|done]. }
  split; [apply tree_swept|done| | | | |].
  - intros p n [Hp Hnp]%swept_old. destruct (Hn _ _ Hp) as [G1 G2 G3 G4 G5 G6]. split; try done.
    + apply Hlive. split; [done|]. intros q Hq [Ho Hz]. apply Hnp. rewrite (owns_unique p q p); [done|exists n; split; [done|by left]|done|done].
    + intros Hz. destruct (G2 Hz) as [G7 G8]. split.
      * apply Hlive. split; [done|]. intros q Hq [Ho _]. apply Hnp. rewrite (owns_unique p q (ndata n)); [done|exists n; split; [done|by right]|done|done].
      * destruct (nodes s1 !! ndata n) as [o|] eqn:E; [|done]. apply swept_old in E as [E _]. congruence.
  - intros p q n o [Hp _]%swept_old [Hq _]%swept_old. by apply (Hap p q n o).
  - rewrite Em. unfold zlen in *. by rewrite length_insert.
  - intros j mj Hj Huj. destruct (Hold j mj Hj Huj) as [Hne Hj']. destruct (Hroots j mj Hj' Huj) as (n & Hrn & Hp0 & Hd). exists n. split; [|done].
    rewrite Hkept; [done|]. apply (other_root _ n Hrn Hp0). intros E. apply Hne, (Hrts j i mj mt); congruence.
  - intros j1 j2 m1 m2 H1 H2 U1 U2. destruct (Hold j1 m1 H1 U1) as [_ H1'], (Hold j2 m2 H2 U2) as [_ H2']. by apply (Hrts j1 j2 m1 m2).
Qed.
End free.

(** Unmounting a RAM file system returns and gives back all of it and nothing else: -1, and no change, exactly when no mount has that
    prefix; otherwise 0, the mount is gone, every node below its root is freed and every block those nodes own, each once (a second
    free would fault), every other node is what it was, the other mounts show what they showed, and the invariant is kept.
    The recursion of [free_tree] ends: no tree is as high as the number of nodes. *)
Theorem ramfs_unmount_correct s live kids depth pre : ram_ok s live kids depth ->
  wp (ramfs_unmount pre) (fun r s' =>
    (r = -1 /\ s' = s /\ forall i mt, g_mounts s !! i = Some mt -> in_use mt = true -> prefix mt <> pre) \/
    (r = 0 /\ exists i mt live', g_mounts s !! i = Some mt /\ in_use mt = true /\ prefix mt = pre /\
      g_mounts s' = <[i := mk_mount false pre 0]> (g_mounts s) /\ vfs_frame (base s) (base s') /\
      (forall q, desc (nodes s) (root mt) q -> nodes s' !! q = None) /\ (forall q, ~ desc (nodes s) (root mt) q -> nodes s' !! q = nodes s !! q) /\
      (forall x, x ∈ live' <-> x ∈ live /\ forall q, desc (nodes s) (root mt) q -> ~ (owns (nodes s) q x /\ x <> 0)) /\
      ram_ok s' live' kids depth /\ forall rt ys, is_root s' rt -> view (nodes s') kids rt ys = view (nodes s) kids rt ys)) s.
Proof.
  intros Hok. pose proof (rk_tree _ _ _ _ Hok) as Htree. unfold ramfs_unmount. wsteps.
  destruct (list_find _ (g_mounts s)) as [[i mt]|] eqn:Ef.
  2: { wstep. left. split; [done|]. split; [done|]. intros i mt Hi Hu E. apply list_find_None, Forall_forall with (x := mt) in Ef; [|by eapply list_elem_of_lookup_2].
       apply Ef. unfold mounted_at. rewrite Hu. by rewrite bool_decide_eq_true_2. }
  apply list_find_Some in Ef as (Hi & Hmt & _). unfold mounted_at in Hmt. apply andb_true_iff in Hmt as [Hu E%bool_decide_eq_true_1]. subst pre.
  destruct (rk_root _ _ _ _ Hok i mt Hi Hu) as (n0 & Hn0 & H0 & Hd0). unfold node_count. wsteps.
  eapply wp_mono; [apply (free_tree_outcome Hok _ (root mt) s live); [by eexists|apply (rk_rep _ _ _ _ Hok)| |]|].
  - split; [done|]. intros q x _ (n & Hn & [->|Hx]) Hz; [by apply (no_live _ _ _ _ (rk_nodes _ _ _ _ Hok _ _ Hn))|].
    rewrite Hx. by apply (no_data _ _ _ _ (rk_nodes _ _ _ _ Hok _ _ Hn)); rewrite <- Hx.
  - intros q Hq. pose proof (desc_height Htree _ _ Hq). lia.
  - intros [] s' [G1 G2 G3 G4 (live' & Hr & Hl)]. wsteps. right. split; [done|]. exists i, mt, live'. cbn [set_mounts nodes g_mounts base]. rewrite G3.
    split; [done|]. split; [done|]. split; [done|]. split; [done|]. split; [done|]. split; [done|]. split; [done|]. split; [done|]. split.
    + by apply (ram_ok_swept Hok (s1 := set_mounts _ s') Hn0 H0 G1 G2 Hl i mt).
    + intros rt ys (j & mj & Hj & Huj & Hrj). cbn in Hj. apply list_lookup_insert_Some in Hj as [(_ & <- & _)|[Hne Hj]]; [done|].
      destruct (rk_root _ _ _ _ Hok j mj Hj Huj) as (n' & Hn' & H0' & _). subst rt.
      apply (view_swept Hok (s1 := set_mounts (<[i:=mk_mount false (prefix mt) 0]> (g_mounts s)) s') Hn0 H0 G1 G2 (root mj) n' ys Hn' H0'). intros E. apply Hne. symmetry. by apply (rk_roots _ _ _ _ Hok j i mj mt).
Qed.
End unmount.
