(* ===== verification/RamfsOpen.v ===== *)
(** Mounting a RAM file system and opening its files: a descriptor, an open file and an inode over the node of the path. *)

From S2P Require Import Prelude Memory Interfaces Vfs VfsPipe Ramfs RamfsTree RamfsOps RamfsUnlink RamfsFile.

(** * Objects of the VFS *)

Section objects.
Context {HS : Type} `{!BlockAllocator HS}.
Implicit Types (v : vfs (HS := HS)) (live : gset Z).

(** The current process has a descriptor table, and the tables have their sizes. *)
Definition fds_ok v : Prop :=
  (exists t, tables v !! current_fd_table v = Some t /\ zlen (files t) = MAX_FD_PER_PROCESS) /\ zlen (file_table v) = MAX_FILES_SYSTEM.

Lemma alloc_fd_outcome v : fds_ok v -> wp alloc_fd (fun r v' => v' = v /\ (r = -1 \/ 0 <= r < MAX_FD_PER_PROCESS)) v.
Proof.
  intros [(t & Ht & Hlen) _]. unfold alloc_fd. wstep. apply (wp_for_range (fun _ v' => v' = v)); [done|done| |].
  - intros i v' Hi ->. unfold cur_file, cur_table. wstep. wstep. eapply wp_Some; [by rewrite Ht|]. cbv beta.
    destruct (zget_Some (files t) i ltac:(lia)) as [e He]. apply (wp_lift _ _ _ _ He). wsteps. destruct (e =? 0); [|done]. wsteps. split; [done|]. by right.
  - intros v' ->. wsteps. split; [done|]. by left.
Qed.

Lemma ftable_eta v : set_ftable (file_table v) v = v.
Proof. by destruct v. Qed.

(** What [alloc_file] and [vfs_create_inode] leave alone. *)
Definition same_fds v v' : Prop := tables v' = tables v /\ current_fd_table v' = current_fd_table v /\ zlen (file_table v') = zlen (file_table v).

Lemma same_fds_ok v v' : same_fds v v' -> fds_ok v -> fds_ok v'.
Proof. intros (E1 & E2 & E3) [(t & Ht & Hl) Hf]. split; [exists t; by rewrite E1, E2|congruence]. Qed.

Lemma wp_alloc n (Q : Z -> vfs (HS := HS) -> Prop) v live : ba_rep (kheap v) live -> 0 < n -> n + 32 <= 2 ^ 64 -> Q 0 v ->
  (forall p h, p <> 0 -> p ∉ live -> ba_rep h ({[p]} ∪ live) -> Q p (set_objs (fobjs v) (iobjs v) (pobjs v) h v)) -> wp (kmalloc n) Q v.
Proof.
  intros Hrep Hn Hn' H0 Hp. unfold wp, kmalloc, on_heap.
  destruct (wp_inv _ _ _ (ba_alloc_spec _ _ _ Hrep Hn Hn')) as (p & h & E & [[-> ->]|(Hpz & Hpl & Hrep')]); rewrite E; [by rewrite vfs_eta|by apply Hp].
Qed.

Lemma alloc_file_outcome v live : fds_ok v -> ba_rep (kheap v) live ->
  wp alloc_file (fun r v' => (r = 0 /\ v' = v) \/
    (r <> 0 /\ r ∉ live /\ ba_rep (kheap v') ({[r]} ∪ live) /\ same_fds v v' /\ fobjs v' = <[r := mk_file 0 0 0 0 no_ops]> (fobjs v) /\ iobjs v' = iobjs v)) v.
Proof.
  intros [_ Hlen] Hrep. unfold alloc_file. wstep. apply (wp_for_range (fun _ v' => v' = v)); [done|done| |].
  - intros i v' Hi ->. wsteps. destruct (zget_Some (file_table v) i ltac:(lia)) as [e He]. apply (wp_lift _ _ _ _ He). wsteps.
    destruct (Z.eqb_spec e 0) as [->|]; cbn [negb]; [|by wstep]. wstep. apply (wp_alloc _ _ v live Hrep); [done|done| |].
    + wsteps. eapply wp_lift; [apply zset_in; lia|]. wsteps. change (0 =? 0) with true. cbv iota. wsteps.
      rewrite list_insert_id; [apply ftable_eta|]. unfold zget in He. by destruct (0 <=? i).
    + intros p h Hp Hpl Hh. wsteps. eapply wp_lift; [apply zset_in; cbn; lia|]. wsteps. rewrite (proj2 (Z.eqb_neq p 0)) by done. unfold put_file. wsteps. right.
      split; [done|]. split; [done|]. split; [done|]. split; [|done]. split; [done|]. split; [done|]. cbn. apply zlen_insert.
  - intros v' ->. wsteps. by left.
Qed.

Lemma create_inode_outcome v live n ty ops private : ba_rep (kheap v) live ->
  wp (vfs_create_inode n ty ops private) (fun r v' => (r = 0 /\ v' = v) \/
    (r <> 0 /\ r ∉ live /\ ba_rep (kheap v') ({[r]} ∪ live) /\ same_fds v v' /\ fobjs v' = fobjs v /\ iobjs v' = <[r := mk_inode n ty 0 1 private ops]> (iobjs v))) v.
Proof.
  intros Hrep. unfold vfs_create_inode. wstep. apply (wp_alloc _ _ v live Hrep); [done|done| |].
  - change (0 =? 0) with true. cbv iota. wsteps. by left.
  - intros p h Hp Hpl Hh. rewrite (proj2 (Z.eqb_neq p 0)) by done. unfold put_inode. wsteps. right. split_and!; try done. 
Qed.

Lemma set_cur_file_outcome v i f d : fds_ok v -> 0 <= i < MAX_FD_PER_PROCESS ->
  wp (set_cur_file i f d) (fun _ v' => fobjs v' = fobjs v /\ iobjs v' = iobjs v /\ kheap v' = kheap v /\ fds_ok v' /\ cur_file i v' = Some (f, v') /\ current_fd_table v' = current_fd_table v) v.
Proof.
  intros [(t & Ht & Hlen) Hft] Hi. unfold set_cur_file, cur_table. wstep. eapply wp_Some; [by rewrite Ht|]. cbv beta. wstep. eapply wp_lift; [apply zset_in; lia|].
  unfold put_cur. apply wp_modify. split; [done|]. split; [done|]. split; [done|]. split.
  - split; [|done]. exists (mk_table (<[Z.to_nat i := f]> (files t)) (tcount t + d)). split; [apply lookup_insert_eq|]. cbn. by rewrite zlen_insert.
  - split; [|done]. unfold cur_file, cur_table, mbind, M_bind. cbn [tables set_tables current_fd_table]. rewrite lookup_insert_eq. cbn [files]. unfold lift. by rewrite zget_insert_eq by lia.
Qed.

Lemma wp_on_vfs {A} (k : M (vfs (HS := HS)) A) Q (s : ramfs (HS := HS)) : wp k Q (base s) -> wp (on_vfs k) (fun a s' => exists v, Q a v /\ s' = mk_ramfs v (nodes s) (g_mounts s)) s.
Proof. unfold wp, on_vfs. destruct (k (base s)) as [[a v]|]; [|done]. eauto. Qed.
End objects.

Section open.
Context {HS : Type} `{!BlockAllocator HS}.
Implicit Types (s : ramfs (HS := HS)) (m : store) (kids : Z -> list Z) (depth : Z -> nat) (live : gset Z).

(** * Mounting *)

Lemma view_new_root (n : ramfs_node) m p kids rt xs : m !! p = None -> is_Some (m !! rt) -> (forall q c, is_Some (m !! q) -> c ∈ kids q -> is_Some (m !! c)) ->
  view (<[p := n]> m) (fun q => if decide (q = p) then [] else kids q) rt xs = view m kids rt xs.
Proof.
  intros Hp Hrt Hkid. set (kids' := fun q => _).
  assert (forall q, is_Some (m !! q) -> q <> p) as Hne by (intros q [o Ho] ->; congruence).
  assert (walk (<[p := n]> m) kids' rt xs = walk m kids rt xs /\ forall q, walk m kids rt xs = Some q -> is_Some (m !! q)) as [Hw Hin].
  { clear -Hrt Hkid Hne. revert rt Hrt. induction xs as [|x xs IH]; intros q Hq; [split; [done|]; by intros ? [= <-]|]. cbn [walk]. rewrite lookup_insert_ne by (intros E; by apply (Hne q)).
    destruct (m !! q) as [o|] eqn:Eo; [|done]. cbn. case_bool_decide; [|done]. assert (kids' q = kids q) as -> by (unfold kids'; by rewrite decide_False by by apply Hne).
    assert (child (<[p := n]> m) (kids q) x = child m (kids q) x) as ->.
    { apply find_ext. intros c Hc. unfold has_name. rewrite lookup_insert_ne; [done|]. intros E. destruct (Hkid q c) as [o' Ho']; [by eexists|done|]. subst. by apply (Hne c); [eexists|]. }
    destruct (child m (kids q) x) as [c|] eqn:Ec; [|done]. cbn. apply IH. apply List.find_some in Ec as [Ec%list_elem_of_In _]. apply (Hkid q); [by eexists|done]. }
  unfold view. rewrite Hw. destruct (walk m kids rt xs) as [q|]; [|done]. cbn. rewrite lookup_insert_ne; [done|]. intros E. by apply (Hne q); [apply Hin|].
Qed.

(** The mount that [ramfs_mount] makes. *)
Definition new_mount (pre : path) (rt : Z) : ram_mount := mk_mount true (take 31 pre) rt.

Lemma ram_ok_mount s live kids depth i mt pre rt h v : ram_ok s live kids depth -> g_mounts s !! i = Some mt -> in_use mt = false -> rt <> 0 -> rt ∉ live ->
  ba_rep h ({[rt]} ∪ live) -> kheap v = h ->
  ram_ok (mk_ramfs v (<[rt := mk_node [] FT_DIRECTORY 0 [] 0 0 0 0 0]> (nodes s)) (<[i := new_mount pre rt]> (g_mounts s))) ({[rt]} ∪ live)
    (fun q => if decide (q = rt) then [] else kids q) depth.
Proof.
  intros Hok Hi Hu Hz Hl Hrep Hv. pose proof Hok as [Htree _ Hn Hap Hm Hroots Hrts].
  assert (forall p n, nodes s !! p = Some n -> p <> rt) as Hne by (intros p n Hp ->; apply Hl, (no_live _ _ _ _ (Hn _ _ Hp))).
  set (m' := <[rt := _]> (nodes s)).
  assert (forall p n, m' !! p = Some n -> p <> rt -> nodes s !! p = Some n) as Hinv by (intros p n Hp Hpr; unfold m' in Hp; by rewrite lookup_insert_ne in Hp by congruence).
  assert (forall p n, nodes s !! p = Some n -> m' !! p = Some n) as Hfw by (intros p n Hp; unfold m'; rewrite lookup_insert_ne; [done|]; intros E; by apply (Hne p n)).
  assert (forall n, m' !! rt = Some n -> n = mk_node [] FT_DIRECTORY 0 [] 0 0 0 0 0) as Hrt by (intros n Hp; unfold m' in Hp; rewrite lookup_insert_eq in Hp; by injection Hp).
  split; cbn [nodes base g_mounts]; fold m'.
  - split.
    + intros p n Hp. destruct (decide (p = rt)) as [->|Hpr]; [done|]. apply (tk_nonzero _ _ _ Htree p n). by apply Hinv.
    + intros p n Hp. destruct (decide (p = rt)) as [->|Hpr]; [by rewrite (Hrt n Hp)|]. apply (chain_frame (nodes s)); [apply (tk_chain _ _ _ Htree p); by apply Hinv|].
      intros x Hx. destruct (tk_kid _ _ _ Htree p x) as (o & Ho & _); [exists n; by apply Hinv|done|]. by rewrite (Hfw x o Ho), Ho.
    + intros p c [n Hp]. destruct (decide (p = rt)) as [->|Hpr]; [by intros ?%not_elem_of_nil|]. intros Hc.
      destruct (tk_kid _ _ _ Htree p c) as (o & Ho & Hpar); [exists n; by apply Hinv|done|]. exists o. split; [by apply Hfw|done].
    + intros c n Hc Hpz. destruct (decide (c = rt)) as [->|Hcr]; [by rewrite (Hrt n Hc) in Hpz|].
      destruct (tk_parent _ _ _ Htree c n (Hinv _ _ Hc Hcr) Hpz) as ([o Ho] & Hin & Hd). rewrite decide_False by by apply (Hne _ o). split; [|done]. exists o. by apply Hfw.
    + intros p [n Hp]. destruct (decide (p = rt)); [constructor|]. apply (tk_nodup _ _ _ Htree). exists n. by apply Hinv.
    + intros p c1 c2 n1 n2 [n Hp]. destruct (decide (p = rt)) as [->|Hpr]; [by intros ?%not_elem_of_nil|]. assert (is_Some (nodes s !! p)) as Hps by (exists n; by apply Hinv). intros H1 H2 G1 G2.
      assert (forall c nc, c ∈ kids p -> m' !! c = Some nc -> nodes s !! c = Some nc) as Hc.
      { intros c nc Hc Hnc. destruct (tk_kid _ _ _ Htree p c Hps Hc) as (o & Ho & _). apply Hinv; [done|by apply (Hne c o)]. }
      apply (tk_names _ _ _ Htree p); auto.
    + intros p n Hp Hty. destruct (decide (p = rt)) as [->|Hpr]; [done|]. apply (tk_files _ _ _ Htree p n); [by apply Hinv|done].
  - by rewrite Hv.
  - intros p n Hp. destruct (decide (p = rt)) as [->|Hpr].
    + rewrite (Hrt n Hp). split; try done. by apply elem_of_union_l, elem_of_singleton_2.
    + destruct (Hn p n (Hinv _ _ Hp Hpr)) as [G1 G2 G3 G4 G5 G6]. split; try done; [by apply elem_of_union_r|]. intros Hd. destruct (G2 Hd) as [G7 G8].
      split; [by apply elem_of_union_r|]. unfold m'. rewrite lookup_insert_ne; [done|]. intros E. by rewrite <- E in G7.
  - intros p q n o Hp Hq E Hd. destruct (decide (p = rt)) as [->|Hpr]; [by rewrite (Hrt n Hp) in Hd|]. destruct (decide (q = rt)) as [->|Hqr]; [rewrite E, (Hrt o Hq) in Hd; done|].
    by apply (Hap p q n o); [apply Hinv|apply Hinv|..].
  - unfold zlen in *. by rewrite length_insert.
  - intros j mj Hj Huj. apply list_lookup_insert_Some in Hj as [(-> & <- & _)|[Hji Hj]].
    + eexists. split; [apply lookup_insert_eq|done].
    + destruct (Hroots j mj Hj Huj) as (n & Hrn & H0 & Hd). exists n. split; [by apply Hfw|done].
  - assert (forall j mj, g_mounts s !! j = Some mj -> in_use mj = true -> root mj <> rt) as Hold.
    { intros j mj Hj Huj. destruct (Hroots j mj Hj Huj) as (n & Hrn & _). by apply (Hne _ n). }
    intros j1 j2 m1 m2 H1 H2 U1 U2 E. apply list_lookup_insert_Some in H1 as [(-> & <- & _)|[N1 H1]], H2 as [(-> & <- & _)|[N2 H2]]; [done| | |by apply (Hrts j1 j2 m1 m2)].
    + by destruct (Hold j2 m2 H2 U2).
    + by destruct (Hold j1 m1 H1 U1).
Qed.

(** Mounting puts one empty directory into a free place of the table of mounts. *)
Lemma ramfs_mount_outcome s live kids depth pre : ram_ok s live kids depth ->
  wp (ramfs_mount pre) (fun r s' => (r < 0 /\ s' = s /\ (absolute pre = false \/ existsb (mounted_at pre) (g_mounts s) = true \/ (forall i mt, g_mounts s !! i = Some mt -> in_use mt = true) \/ no_memory s)) \/
    (r = 0 /\ exists i mt rt, g_mounts s !! i = Some mt /\ in_use mt = false /\ g_mounts s' = <[i := new_mount pre rt]> (g_mounts s) /\ vfs_frame (base s) (base s') /\
      fobjs (base s') = fobjs (base s) /\ iobjs (base s') = iobjs (base s) /\
      exists live' kids' depth', ram_ok s' live' kids' depth' /\ view_same s kids s' kids' /\ forall xs, view (nodes s') kids' rt xs = if decide (xs = []) then Some EDir else None)) s.
Proof.
  intros Hok. pose proof (rk_tree _ _ _ _ Hok) as Htree. unfold ramfs_mount. destruct (absolute pre) eqn:Ea; cbn [negb]; [|wstep; left; split; [done|auto]].
  wsteps. destruct (existsb _ _) eqn:Ee; [wstep; left; split; [done|auto]|]. unfold first_index. destruct (list_find _ (g_mounts s)) as [[i mt]|] eqn:Ef; cbn [fmap option_fmap option_map fst].
  2: { wstep. left. split; [done|]. split; [done|]. right; right; left. intros i mt Hi. apply list_find_None, Forall_forall with (x := mt) in Ef; [|by eapply list_elem_of_lookup_2].
       destruct (in_use mt) eqn:Eu; [done|]. by destruct Ef. }
  apply list_find_Some in Ef as (Hi & Hu%negb_true_iff & _). wstep. unfold node_alloc. wstep. apply (wp_new_block _ _ _ _ (rk_rep _ _ _ _ Hok)); [done|done| |].
  - intros Hno. change (0 =? 0) with true. cbv iota. wsteps. change (0 =? 0) with true. cbv iota. wsteps. left. split; [done|]. split; [done|]. right; right; right. by eexists.
  - intros rt h Hz Hl Hrep. rewrite (proj2 (Z.eqb_neq rt 0)) by done. unfold put_node. wsteps. rewrite (proj2 (Z.eqb_neq rt 0)) by done. wsteps. right. split; [done|]. exists i, mt, rt.
    split; [done|]. split; [done|]. split; [done|]. split; [by destruct (base s)|]. split; [done|]. split; [done|].
    eexists _, _, _. split; [by apply (ram_ok_mount s live kids depth i mt pre rt h _ Hok Hi Hu Hz Hl Hrep)|].
    assert (nodes s !! rt = None) as Hnew by (destruct (nodes s !! rt) as [o|] eqn:E; [|done]; destruct Hl; apply (no_live _ _ _ _ (rk_nodes _ _ _ _ Hok _ _ E))).
    split.
    + intros rt' ys (j & mj & Hj & Huj & <-). destruct (rk_root _ _ _ _ Hok j mj Hj Huj) as (n & Hrn & _). cbn [nodes set_nodes set_mounts]. apply view_new_root; [done|by eexists|].
      intros q c Hq Hc. destruct (tk_kid _ _ _ Htree q c Hq Hc) as (o & Ho & _). by eexists.
    + intros xs. cbn [nodes set_nodes set_mounts]. unfold view. destruct xs as [|x xs]; cbn; rewrite lookup_insert_eq; cbn; [done|]. case_bool_decide; [|done]. by rewrite decide_True.
Qed.

(** * Opening *)

Lemma find_node_run s kids depth rt rel : tree_ok (nodes s) kids depth -> is_Some (nodes s !! rt) ->
  find_node rt rel s = Some (default 0 (walk (nodes s) kids rt (components rel)), s).
Proof. intros Htree Hr. unfold find_node. destruct rel; [done|]. by apply (resolve_run s kids depth). Qed.

(** The node to open: the one at the path, or a new empty file there. *)
Lemma open_node_outcome s live kids depth rt rel xs leaf flags : ram_ok s live kids depth -> is_root s rt -> components rel = xs ++ [leaf] -> (length leaf <= 63)%nat ->
  wp (open_node rt rel flags) (fun r s' => ram_frame s s' /\ exists live' kids' depth', ram_ok s' live' kids' depth' /\
    ((r = 0 /\ view (nodes s) kids rt (xs ++ [leaf]) = None /\ view_same s kids s' kids') \/
     (r <> 0 /\ walk (nodes s') kids' rt (xs ++ [leaf]) = Some r /\ (view (nodes s) kids rt (xs ++ [leaf]) = None -> Z.land flags O_CREAT <> 0) /\
      view_insert s kids s' kids' rt (xs ++ [leaf]) (default (EFile []) (view (nodes s) kids rt (xs ++ [leaf])))))) s.
Proof.
  intros Hok Hroot Hc Hlen. pose proof (rk_tree _ _ _ _ Hok) as Htree. pose proof Hroot as (i & mt & Hi & Hu & Hrt).
  destruct (rk_root _ _ _ _ Hok i mt Hi Hu) as (n0 & Hn0 & _). rewrite Hrt in Hn0. assert (is_Some (nodes s !! rt)) as Hr by by eexists.
  unfold open_node. wstep. eapply wp_Some; [by apply (find_node_run s kids depth)|]. cbv beta. rewrite Hc.
  destruct (walk (nodes s) kids rt (xs ++ [leaf])) as [q|] eqn:Ew; cbn [default from_option id].
  - destruct (walk_in Htree _ _ _ Hr Ew) as [n Hn]. pose proof (tk_nonzero _ _ _ Htree q n Hn). rewrite (proj2 (Z.eqb_neq q 0)) by done. cbn [negb]. wstep.
    split; [apply ram_frame_refl|]. exists live, kids, depth. split; [done|]. right. split; [done|]. split; [done|]. rewrite (view_dir _ _ _ _ _ _ Ew Hn).
    split; [done|]. intros rt' ys _. case_decide as E; [|done]. destruct E as [-> ->]. by rewrite (view_dir _ _ _ _ _ _ Ew Hn).
  - assert (view (nodes s) kids rt (xs ++ [leaf]) = None) as Hv by (unfold view; by rewrite Ew). rewrite Hv. change (negb (0 =? 0)) with false. cbv iota.
    destruct (Z.eqb_spec (Z.land flags O_CREAT) 0) as [E|E]; [wstep; split; [apply ram_frame_refl|]; exists live, kids, depth; split; [done|]; by left|].
    eapply wp_mono; [by apply (create_node_outcome s live kids depth rt rel xs leaf FT_REGULAR)|].
    intros r s' [Hf [(-> & -> & _)|(Hrz & _ & _ & live' & kids' & depth' & Hok' & Hvi & Hw)]].
    + split; [done|]. exists live, kids, depth. split; [done|]. by left.
    + split; [done|]. exists live', kids', depth'. split; [done|]. right. by split_and!.
Qed.

(** Descriptor [r] is open on the file at [xs] below [rt]. *)
Record opened s kids (rt : Z) (xs : list path) (r flags : Z) : Prop := mk_opened {
  op_range : 0 <= r < MAX_FD_PER_PROCESS;
  op_file : exists f nd o x n, cur_file r (base s) = Some (f, base s) /\ open_at s f nd o x /\ apart s f o /\
    nodes s !! nd = Some n /\ ntype n <> FT_DIRECTORY /\ walk (nodes s) kids rt xs = Some nd /\ fd o = r /\ fflags o = flags /\ fops o = ramfs_file_ops /\
    size x = nsize n /\ offset o = if Z.land flags O_APPEND =? 0 then 0 else nsize n;
}.

Lemma fds_ok_frame (v v' : vfs (HS := HS)) : vfs_frame v v' -> fds_ok v -> fds_ok v'.
Proof. intros ->. done. Qed.

(** The contents of the file after an open. *)
Definition after_open (flags : Z) (e : option entry) : entry := if Z.land flags O_TRUNC =? 0 then default (EFile []) e else EFile [].

(** The end of [vfs_ramfs_open] of a file: truncation, the inode, the open file and the descriptor. *)
Lemma open_rest_outcome s live kids depth rt path nd n r f flags : ram_ok s live kids depth -> is_root s rt -> walk (nodes s) kids rt path = Some nd -> nodes s !! nd = Some n ->
  ntype n <> FT_DIRECTORY -> fds_ok (base s) -> 0 <= r < MAX_FD_PER_PROCESS -> f <> 0 -> f ∈ live -> (forall q n, nodes s !! q = Some n -> ndata n <> f) ->
  wp ((if Z.land flags O_TRUNC =? 0 then mret tt else put_node nd (set_data (ndata n) (block n) 0 (cap n) n));;
      i ← on_vfs (vfs_create_inode 0 FT_REGULAR 0 nd);
      if i =? 0 then mret (-1) else
      o ← get_node nd;
      x ← on_vfs (get_inode i);
      on_vfs (put_inode i (mk_inode (ino x) (type x) (nsize o) (ref_count x) (private_data x) (iops x)));;
      on_vfs (put_file f (mk_file r i (if Z.land flags O_APPEND =? 0 then 0 else nsize o) flags ramfs_file_ops));;
      on_vfs (set_cur_file r f 1);;
      mret r)
    (fun r' s' => g_mounts s' = g_mounts s /\ exists live' kids', ram_ok s' live' kids' depth /\
      view_insert s kids s' kids' rt path (after_open flags (view (nodes s) kids rt path)) /\ (r' = -1 \/ (r' = r /\ opened s' kids' rt path r flags))) s.
Proof.
  intros Hok Hroot Hw Hn Hty Hfds Hr Hfz Hfl Hfd. pose proof (rk_nodes _ _ _ _ Hok _ _ Hn) as [G1 G2 G3 G4 G5 G6].
  assert (exists n1, shape n1 = shape n /\ ndata n1 = ndata n /\ nsize n1 < 2 ^ 32 /\
    ram_ok (set_nodes (<[nd := n1]> (nodes s)) s) live kids depth /\ 0 <= nsize n1 /\ EFile (contents n1) = after_open flags (view (nodes s) kids rt path) /\
    (if Z.land flags O_TRUNC =? 0 then mret tt else put_node nd (set_data (ndata n) (block n) 0 (cap n) n)) s = Some (tt, set_nodes (<[nd := n1]> (nodes s)) s))
    as (n1 & Hsh & Hd1 & Hsz & Hok1 & Hnn & Hc1 & E1).
  { rewrite (view_dir _ _ _ _ _ _ Hw Hn). unfold after_open. destruct (Z.land flags O_TRUNC =? 0).
    - exists n. split; [done|]. split; [done|]. split; [lia|]. rewrite insert_id by done. split; [by destruct s|]. split; [lia|]. split; [|by destruct s].
      unfold entry_of. by rewrite bool_decide_eq_false_2.
    - exists (set_data (ndata n) (block n) 0 (cap n) n). split; [done|]. split; [done|]. split; [done|]. split; [|done].
      apply (ram_ok_data s (set_nodes (<[nd := set_data (ndata n) (block n) 0 (cap n) n]> (nodes s)) s) live live kids depth nd n (set_data (ndata n) (block n) 0 (cap n) n) Hok Hn eq_refl eq_refl eq_refl (rk_rep _ _ _ _ Hok)); cbn; try done; [by left| |lia].
      intros Hz. by apply G2. }
  wstep. eapply wp_Some; [exact E1|]. cbv beta. set (s1 := set_nodes _ s) in *.
  assert (nodes s1 !! nd = Some n1) as Hn1 by apply lookup_insert_eq.
  assert (same_shape (nodes s) (nodes s1)) as Hss by by apply (same_shape_insert _ _ n n1).
  assert (walk (nodes s1) kids rt path = Some nd) as Hw1 by by rewrite (walk_shape (nodes s)).
  assert (forall q o, nodes s1 !! q = Some o -> ndata o <> f) as Hfd1.
  { intros q o Hq. unfold s1 in Hq. cbn [nodes set_nodes] in Hq. apply lookup_insert_Some in Hq as [[<- <-]|[_ Hq]]; [rewrite Hd1; by apply (Hfd nd)|by apply (Hfd q)]. }
  assert (forall s', nodes s' = nodes s1 -> view_insert s kids s' kids rt path (after_open flags (view (nodes s) kids rt path))) as Hvi.
  { intros s' En rt' ys Hr'. rewrite En, <- Hc1. unfold s1. cbn [nodes set_nodes]. rewrite (view_data _ _ _ n n1) by done.
    destruct Hroot as (a & ma & Ha & Hua & Hra), Hr' as (b & mb & Hb & Hub & Hrb).
    destruct (rk_root _ _ _ _ Hok a ma Ha Hua) as (na & Hna & H0a & _), (rk_root _ _ _ _ Hok b mb Hb Hub) as (nb & Hnb & H0b & _). rewrite Hra in Hna. rewrite Hrb in Hnb.
    case_decide as Ew; case_decide as Ee; [done| | |done].
    - destruct Ee. by destruct (walk_unique (rk_tree _ _ _ _ Hok) rt' nb rt na Hnb H0b Hna H0a _ _ _ Ew Hw) as [-> ->].
    - destruct Ee as [-> ->]. by destruct Ew. }
  wstep. eapply wp_mono; [apply wp_on_vfs, (create_inode_outcome _ live), (rk_rep _ _ _ _ Hok)|]. cbv beta.
  intros i s2 (v & [[-> ->]|(Hiz & Hil & Hrep & Hsf & Hfo & Hio)] & ->).
  { change (0 =? 0) with true. cbv iota. wstep. split; [done|]. exists live, kids. split; [by apply (ram_ok_ext s1)|]. split; [by apply Hvi|by left]. }
  rewrite (proj2 (Z.eqb_neq i 0)) by done. wstep. eapply wp_Some; [by apply get_node_run|]. cbv beta. wstep.
  eapply wp_Some; [apply get_inode_run; cbn; rewrite Hio; apply lookup_insert_eq|]. cbv beta. cbn [ino type ref_count private_data iops].
  wstep. unfold put_inode. unfold wp at 1, on_vfs at 1. cbn. wstep. unfold put_file. unfold wp at 1, on_vfs at 1. cbn. wstep.
  eapply wp_mono; [apply wp_on_vfs, set_cur_file_outcome; [apply (same_fds_ok v); [done|by apply (same_fds_ok (base s1))]|done]|]. cbv beta.
  intros [] s3 (v3 & (Hfo3 & Hio3 & Hkh & _ & Hcur & _) & ->). cbn in Hfo3, Hio3, Hkh. wstep. split; [done|]. exists ({[i]} ∪ live), kids. split; [|split; [by apply Hvi|]].
  - apply (ram_ok_heap s1 _ live); try done; [cbn; by rewrite Hkh|]. apply union_subseteq_r.
  - right. split; [done|]. split; [done|]. exists f, nd. eexists _, _, n1. split; [exact Hcur|].
    assert (nd <> 0) as Hnz by apply (tk_nonzero _ _ _ (rk_tree _ _ _ _ Hok) nd n Hn). split.
    { split; cbn; [rewrite Hfo3; apply lookup_insert_eq|done|done|rewrite Hio3; apply lookup_insert_eq|done|done|]. unfold is_u32. cbn [offset]. destruct (Z.land flags O_APPEND =? 0); cbn; lia. }
    split; [intros q o Hq; split; [by apply (Hfd1 q)|]; cbn; intros E; apply Hil; rewrite <- E|].
    { apply (no_data _ _ _ _ (rk_nodes _ _ _ _ Hok1 _ _ Hq)). congruence. }
    split; [done|]. split; [|done]. assert (ntype n1 = ntype n) as -> by by injection Hsh. done.
Qed.

Lemma open_outcome s live kids depth p rt rel xs leaf flags : ram_ok s live kids depth -> fds_ok (base s) ->
  find_mount_for_path (g_mounts s) p = Some (rt, rel) -> components rel = xs ++ [leaf] -> (length leaf <= 63)%nat ->
  view (nodes s) kids rt (xs ++ [leaf]) <> Some EDir ->
  let e := after_open flags (view (nodes s) kids rt (xs ++ [leaf])) in
  wp (vfs_ramfs_open p flags) (fun r s' => g_mounts s' = g_mounts s /\ exists live' kids' depth', ram_ok s' live' kids' depth' /\
    ((r = -1 /\ (view_same s kids s' kids' \/ view_insert s kids s' kids' rt (xs ++ [leaf]) (default (EFile []) (view (nodes s) kids rt (xs ++ [leaf]))) \/
       view_insert s kids s' kids' rt (xs ++ [leaf]) e)) \/
     (view_insert s kids s' kids' rt (xs ++ [leaf]) e /\ opened s' kids' rt (xs ++ [leaf]) r flags))) s.
Proof.
  intros Hok Hfds Hfind Hc Hlen Hdir e. destruct (find_mount_some _ _ _ _ Hfind) as (i & mt & Hi & Hu & Hrt & _). assert (is_root s rt) as Hroot by by exists i, mt.
  unfold vfs_ramfs_open. wsteps. rewrite Hfind. wstep. eapply wp_mono; [by apply (open_node_outcome s live kids depth rt rel xs leaf flags)|].
  intros nd s1 [(Em & Hf & Hfo & Hio) (live1 & kids1 & depth1 & Hok1 & [(-> & Hv & Hvs)|(Hnz & Hw & _ & Hvi)])].
  { change (0 =? 0) with true. cbv iota. wstep. split; [done|]. exists live1, kids1, depth1. split; [done|]. left. split; [done|]. by left. }
  rewrite (proj2 (Z.eqb_neq nd 0)) by done. set (path := xs ++ [leaf]) in *. pose proof (rk_tree _ _ _ _ Hok1) as Htree1.
  assert (is_root s1 rt) as Hroot1 by (unfold is_root; by rewrite Em).
  assert (is_Some (nodes s1 !! nd)) as [n Hn].
  { apply (walk_in Htree1 rt path); [|done]. destruct Hroot1 as (j & mj & Hj & Huj & <-). destruct (rk_root _ _ _ _ Hok1 j mj Hj Huj) as (o & Ho & _). by eexists. }
  assert (entry_of n = default (EFile []) (view (nodes s) kids rt path)) as Hen.
  { pose proof (Hvi rt path Hroot) as H. rewrite decide_True, (view_dir _ _ _ _ _ _ Hw Hn) in H by done. by injection H. }
  assert (ntype n <> FT_DIRECTORY) as Hty.
  { intros E. unfold entry_of in Hen. rewrite bool_decide_eq_true_2 in Hen by done. destruct (view (nodes s) kids rt path) as [[]|]; cbn in Hen; done. }
  pose proof (fds_ok_frame _ _ Hf Hfds) as Hfds1.
  assert (forall s' kids', nodes s' = nodes s1 -> kids' = kids1 -> view_insert s kids s' kids' rt path (default (EFile []) (view (nodes s) kids rt path))) as Hvi'.
  { intros s' kids' En ->. intros rt' ys H. rewrite En. by apply Hvi. }
  wstep. eapply wp_mono; [by apply wp_on_vfs, alloc_fd_outcome|]. cbv beta. intros r s2 (v & [-> Hr] & ->). rewrite ramfs_eta.
  destruct (Z.ltb_spec r 0). { wstep. split; [done|]. exists live1, kids1, depth1. split; [done|]. left. split; [done|]. right; left. by apply Hvi'. }
  destruct Hr as [->|Hr]; [done|]. wstep. eapply wp_mono; [apply wp_on_vfs, (alloc_file_outcome _ live1); [done|apply (rk_rep _ _ _ _ Hok1)]|]. cbv beta.
  intros f s2 (v & [[-> ->]|(Hfz & Hfl & Hrep & Hsf & Hfo1 & Hio1)] & ->).
  { rewrite ramfs_eta. change (0 =? 0) with true. cbv iota. wstep. split; [done|]. exists live1, kids1, depth1. split; [done|]. left. split; [done|]. right; left. by apply Hvi'. }
  rewrite (proj2 (Z.eqb_neq f 0)) by done. set (s2 := mk_ramfs v _ _). wstep. eapply wp_Some; [by apply get_node_run|]. cbv beta.
  rewrite bool_decide_eq_false_2 by done.
  assert (ram_ok s2 ({[f]} ∪ live1) kids1 depth1) as Hok2 by (apply (ram_ok_heap s1 s2 live1); try done; apply union_subseteq_r).
  eapply wp_mono; [apply (open_rest_outcome s2 _ kids1 depth1 rt path nd n r f flags Hok2); try done|].
  - by apply (same_fds_ok (base s1)).
  - by apply elem_of_union_l, elem_of_singleton_2.
  - intros q o Hq E. apply Hfl. rewrite <- E. apply (no_data _ _ _ _ (rk_nodes _ _ _ _ Hok1 _ _ Hq)). congruence.
  - intros r' s' (Em' & live' & kids' & Hok' & Hvi2 & Hres). split; [rewrite Em'; exact Em|]. exists live', kids', depth1. split; [done|].
    assert (view_insert s kids s' kids' rt path e) as Hfin.
    { intros rt' ys Hr'. assert (is_root s2 rt') as Hr2 by (unfold is_root, s2; cbn; by rewrite Em). rewrite (Hvi2 rt' ys Hr2). change (nodes s2) with (nodes s1).
      assert (after_open flags (view (nodes s1) kids1 rt path) = e) as ->.
      { unfold e, after_open. rewrite (Hvi rt path Hroot), decide_True by done. by destruct (Z.land flags O_TRUNC =? 0). }
      case_decide as E; [done|]. rewrite (Hvi rt' ys Hr'). by rewrite decide_False. }
    destruct Hres as [->|[-> Hop]]; [left; split; [done|]; by right; right|by right].
Qed.

(** Opening a file of the RAM file system: with the path's parent a directory (or the file there) it returns a descriptor of the
    current process whose open file is over the node of the path, at offset 0, or at the end for O_APPEND; the file appears empty
    when it was absent and O_CREAT is given, is emptied for O_TRUNC, and every other path of every mount shows what it showed.
    Otherwise it returns -1, and at most that one path has changed.  The invariant is kept in every case. *)
Theorem ramfs_open_correct s live kids depth p rt rel xs leaf flags : ram_ok s live kids depth -> fds_ok (base s) ->
  find_mount_for_path (g_mounts s) p = Some (rt, rel) -> components rel = xs ++ [leaf] -> (length leaf <= 63)%nat ->
  view (nodes s) kids rt (xs ++ [leaf]) <> Some EDir ->
  let e := after_open flags (view (nodes s) kids rt (xs ++ [leaf])) in
  wp (vfs_ramfs_open p flags) (fun r s' => g_mounts s' = g_mounts s /\ exists live' kids' depth', ram_ok s' live' kids' depth' /\
    ((r = -1 /\ (view_same s kids s' kids' \/ view_insert s kids s' kids' rt (xs ++ [leaf]) (default (EFile []) (view (nodes s) kids rt (xs ++ [leaf]))) \/
       view_insert s kids s' kids' rt (xs ++ [leaf]) e)) \/
     (view_insert s kids s' kids' rt (xs ++ [leaf]) e /\ opened s' kids' rt (xs ++ [leaf]) r flags))) s.
Proof. apply open_outcome. Qed.
End open.
