(* ===== verification/RamfsDemo.v ===== *)
(** A RAM file system mounted on /tmp: the theorems at concrete inputs, and what the code does where it goes wrong. *)

From S2P Require Import Prelude Memory Interfaces Heap Vfs VfsPipe Ramfs RamfsTree RamfsOps RamfsUnlink RamfsFile RamfsUnmount RamfsOpen.

(** * The machine *)

(** New blocks hold 0xAA. *)
Definition stale (p n : Z) : list Z := replicate (Z.to_nat n) 0xAA.

Lemma stale_len p n : 0 <= n -> zlen (stale p n) = n.
Proof. intros. unfold stale, zlen. rewrite length_replicate. lia. Qed.

Notation machine := (ramfs (HS := heap)).

(** Nothing is mounted; the heap is as [heap_init] leaves it. *)
Definition demo_empty : machine := mk_ramfs demo_vfs0 ∅ (replicate 4 (mk_mount false [] 0)).

Definition after {A} (k : M machine A) (s : machine) : machine := match k s with Some (_, s') => s' | None => s end.

Definition p_tmp : path := [0x2F; 0x74; 0x6D; 0x70].
Definition p_d : path := p_tmp ++ [0x2F; 0x64].
Definition p_f : path := p_tmp ++ [0x2F; 0x66].
Definition O_RDWR : Z := 2.

Definition demo_tmp : machine := after (ramfs_mount p_tmp) demo_empty.
Definition demo_dir : machine := after (vfs_ramfs_mkdir p_d) demo_tmp.
Definition demo_open : machine := after (vfs_ramfs_open p_f (O_RDWR + O_CREAT)) demo_tmp.

(** The addresses of the root, of the file /tmp/f, of the open file and of its inode. *)
Definition demo_root : Z := KERNEL_HEAP_START + HDR.
Definition demo_nd : Z := demo_root + 136.
Definition demo_f : Z := demo_root + 272.
Definition demo_i : Z := demo_root + 328.

Lemma demo_empty_ok : ram_ok demo_empty ∅ (fun _ => []) (fun _ => 0%nat).
Proof.
  split; try done.
  - split; intros; try done; by apply lookup_empty_is_Some in H || (unfold demo_empty in *; cbn in *; by rewrite lookup_empty in * ).
  - exists [(KERNEL_HEAP_SIZE, false)]. split; [apply demo_heap_rep|]. intros p. split; [by intros ?%elem_of_empty|].
    intros (off & sz & H & _). unfold used_at in H. by apply list_elem_of_singleton in H.
  - intros i mt Hi Hu. apply lookup_replicate in Hi as [-> _]. done.
  - intros i j mi mj Hi _ Hu. apply lookup_replicate in Hi as [-> _]. done.
Qed.

(** Every run of a verified operation from a state that satisfies the invariant leaves one that does. *)
Lemma demo_tmp_ok : exists live kids depth, ram_ok demo_tmp live kids depth /\ forall xs, view (nodes demo_tmp) kids demo_root xs = if decide (xs = []) then Some EDir else None.
Proof.
  destruct (wp_inv _ _ _ (ramfs_mount_outcome demo_empty ∅ _ _ p_tmp demo_empty_ok)) as (r & s' & E & H).
  assert (s' = demo_tmp) as -> by (unfold demo_tmp, after; by rewrite E).
  destruct H as [(Hr & _)|(_ & i & mt & rt & Hi & _ & Em & _ & _ & _ & live & kids & depth & Hok & _ & Hv)].
  - assert (fst <$> ramfs_mount p_tmp demo_empty = Some 0) as H by (vm_compute; reflexivity). rewrite E in H. injection H as ->. lia.
  - exists live, kids, depth. split; [done|].
    assert (map root (List.filter in_use (g_mounts demo_tmp)) = [demo_root]) as H by (vm_compute; reflexivity).
    assert (rt = demo_root) as <-; [|done]. rewrite Em in H. destruct i as [|i]; [by injection H|]. do 3 (destruct i as [|i]; [by injection H|]).
    by apply lookup_replicate in Hi as [_ Hi].
Qed.

(** A run that yields [r] ends in the state the demo names. *)
Lemma after_run {A} (k : M machine A) s Q r : wp k Q s -> fst <$> k s = Some r -> k s = Some (r, after k s) /\ Q r (after k s).
Proof. intros (r' & s' & E & H)%wp_inv E'. rewrite E in E'. injection E' as ->. unfold after. by rewrite E. Qed.

Lemma demo_root_tmp : is_root demo_tmp demo_root.
Proof. exists 0%nat, (mk_mount true p_tmp demo_root). split_and!; vm_compute; reflexivity. Qed.

Lemma demo_dir_eq : demo_dir = after (vfs_ramfs_mkdir p_d) demo_tmp.
Proof. reflexivity. Qed.

Lemma demo_open_eq : demo_open = after (vfs_ramfs_open p_f (O_RDWR + O_CREAT)) demo_tmp.
Proof. reflexivity. Qed.

(** The demo states are evaluated by [vm_compute] alone. *)
#[local] Opaque demo_root demo_tmp demo_dir demo_open.

Lemma demo_fds : fds_ok (base demo_tmp).
Proof. split; [eexists; split|]; vm_compute; reflexivity. Qed.

Lemma decide_same_root {A} (r : Z) (ys p : list path) (x y : A) : (if decide (r = r /\ ys = p) then x else y) = if decide (ys = p) then x else y.
Proof. by destruct (decide (ys = p)), (decide (r = r /\ ys = p)); try tauto. Qed.

Lemma demo_mkdir_ok : exists live kids depth, ram_ok demo_dir live kids depth /\ g_mounts demo_dir = g_mounts demo_tmp /\
  forall ys, view (nodes demo_dir) kids demo_root ys = if decide (ys = [[0x64]]) then Some EDir else if decide (ys = []) then Some EDir else None.
Proof.
  destruct demo_tmp_ok as (live & kids & depth & Hok & Hv).
  destruct (after_run _ _ _ 0 (mkdir_outcome demo_tmp live kids depth p_d demo_root [0x64] [] [0x64] Hok ltac:(vm_compute; reflexivity) eq_refl ltac:(vm_compute; lia)) ltac:(vm_compute; reflexivity))
    as (_ & Hfin); rewrite <- demo_dir_eq in Hfin; destruct Hfin as ((Em & _) & [(H & _)|(_ & _ & _ & live' & kids' & depth' & Hok' & Hvi)]); [discriminate|].
  exists live', kids', depth'. split; [done|]. split; [done|]. intros ys. rewrite (Hvi demo_root ys demo_root_tmp), <- Hv. apply decide_same_root.
Qed.

Lemma demo_open_ok : exists live kids depth, ram_ok demo_open live kids depth /\ opened demo_open kids demo_root [[0x66]] 0 (O_RDWR + O_CREAT).
Proof.
  destruct demo_tmp_ok as (live & kids & depth & Hok & Hv).
  destruct (after_run _ _ _ 0 (open_outcome demo_tmp live kids depth p_f demo_root [0x66] [] [0x66] (O_RDWR + O_CREAT) Hok demo_fds ltac:(vm_compute; reflexivity) eq_refl ltac:(vm_compute; lia)
    ltac:(by rewrite Hv)) ltac:(vm_compute; reflexivity)) as (_ & Hfin); rewrite <- demo_open_eq in Hfin; destruct Hfin as (_ & live' & kids' & depth' & Hok' & [(H & _)|(_ & Hop)]); [discriminate|].
  by exists live', kids', depth'.
Qed.

(** * The theorems at these states *)

Lemma ramfs_mkdir_refines_witness : exists kids s' kids', vfs_ramfs_mkdir p_d demo_tmp = Some (0, s') /\
  view (nodes demo_tmp) kids demo_root [[0x64]] = None /\ view (nodes s') kids' demo_root [[0x64]] = Some EDir.
Proof.
  destruct demo_tmp_ok as (live & kids & depth & Hok & _).
  pose proof (ramfs_mkdir_refines demo_tmp live kids depth p_d demo_root [0x64] [] [0x64] Hok ltac:(vm_compute; reflexivity) eq_refl ltac:(vm_compute; lia)) as H.
  destruct (after_run _ _ _ 0 H ltac:(vm_compute; reflexivity)) as (E & _ & [(H0 & _)|(_ & _ & H1 & live' & kids' & depth' & _ & Hvi)]); [discriminate|].
  exists kids, (after (vfs_ramfs_mkdir p_d) demo_tmp), kids'. split; [exact E|]. split; [exact H1|]. rewrite (Hvi demo_root _ demo_root_tmp). apply decide_same_root.
Defined.

Lemma ramfs_unlink_refines_witness : exists kids s' kids', vfs_ramfs_unlink p_d demo_dir = Some (0, s') /\
  view (nodes demo_dir) kids demo_root [[0x64]] <> None /\ view (nodes s') kids' demo_root [[0x64]] = None.
Proof.
  destruct demo_mkdir_ok as (live & kids & depth & Hok & Em & _).
  pose proof (ramfs_unlink_refines demo_dir live kids depth p_d demo_root [0x64] [] [0x64] Hok ltac:(vm_compute; reflexivity) eq_refl ltac:(vm_compute; lia)) as H.
  destruct (after_run _ _ _ 0 H ltac:(vm_compute; reflexivity)) as (E & [(H0 & _)|(_ & H1 & _ & _ & _ & live' & kids' & _ & Hvd & _)]); [discriminate|].
  exists kids, (after (vfs_ramfs_unlink p_d) demo_dir), kids'. split; [exact E|]. split; [exact H1|].
  rewrite (Hvd demo_root _ ltac:(unfold is_root; rewrite Em; exact demo_root_tmp)). apply decide_same_root.
Defined.

Lemma ramfs_unmount_correct_witness : exists s', ramfs_unmount p_tmp demo_dir = Some (0, s') /\ nodes s' !! demo_root = None /\
  (forall i mt, g_mounts s' !! i = Some mt -> in_use mt = true -> prefix mt <> p_tmp) /\ exists live kids depth, ram_ok s' live kids depth.
Proof.
  destruct demo_mkdir_ok as (live & kids & depth & Hok & Em & _).
  destruct (after_run _ _ _ 0 (ramfs_unmount_correct demo_dir live kids depth p_tmp Hok) ltac:(vm_compute; reflexivity))
    as (E & [(H0 & _)|(_ & i & mt & live' & Hi & Hu & Hp & Em' & _ & Hgone & _ & _ & Hok' & _)]); [discriminate|].
  assert (root mt = demo_root /\ i = 0%nat) as [Hr ->].
  { rewrite Em in Hi. assert (g_mounts demo_tmp = mk_mount true p_tmp demo_root :: replicate 3 (mk_mount false [] 0)) as Hm by (vm_compute; reflexivity). rewrite Hm in Hi.
    destruct i as [|i]; [injection Hi as <-; split; reflexivity|]. apply lookup_replicate in Hi as [-> _]. discriminate Hu. }
  exists (after (ramfs_unmount p_tmp) demo_dir). split; [exact E|]. split.
  - apply Hgone. rewrite Hr. apply desc_refl. destruct (rk_root _ _ _ _ Hok 0%nat mt Hi Hu) as (n & Hn & _). rewrite Hr in Hn. exists n. exact Hn.
  - split; [|exists live', kids, depth; exact Hok']. intros j mj Hj Huj. assert (g_mounts (after (ramfs_unmount p_tmp) demo_dir) = mk_mount false p_tmp 0 :: replicate 3 (mk_mount false [] 0)) as Hm by (vm_compute; reflexivity).
    rewrite Hm in Hj. destruct j as [|j]; [injection Hj as <-; discriminate Huj|]. apply lookup_replicate in Hj as [-> _]. discriminate Huj.
Defined.

Lemma ramfs_open_correct_witness : exists s' kids', vfs_ramfs_open p_f (O_RDWR + O_CREAT) demo_tmp = Some (0, s') /\
  view (nodes s') kids' demo_root [[0x66]] = Some (EFile []) /\ opened s' kids' demo_root [[0x66]] 0 (O_RDWR + O_CREAT).
Proof.
  destruct demo_tmp_ok as (live & kids & depth & Hok & Hv). pose proof (Hv [[0x66]]) as Hf. rewrite decide_False in Hf by discriminate.
  pose proof (ramfs_open_correct demo_tmp live kids depth p_f demo_root [0x66] [] [0x66] (O_RDWR + O_CREAT) Hok demo_fds ltac:(vm_compute; reflexivity) eq_refl ltac:(vm_compute; lia)
    ltac:(change ([] ++ [[0x66]]) with [[0x66]]; rewrite Hf; discriminate)) as H.
  destruct (after_run _ _ _ 0 H ltac:(vm_compute; reflexivity)) as (E & _ & live' & kids' & depth' & _ & [(H0 & _)|(Hvi & Hop)]); [discriminate|].
  exists (after (vfs_ramfs_open p_f (O_RDWR + O_CREAT)) demo_tmp), kids'. split; [exact E|]. split; [|exact Hop].
  rewrite (Hvi demo_root _ demo_root_tmp). change ([] ++ [[0x66]]) with [[0x66]]. rewrite decide_same_root, (decide_True _ _ (eq_refl [[0x66]])), Hf. reflexivity.
Defined.

(** ** The open file *)

Definition demo_file : file := mk_file 0 demo_i 0 (O_RDWR + O_CREAT) ramfs_file_ops.
Definition demo_inode : inode := mk_inode 0 FT_REGULAR 0 1 demo_nd 0.
Definition demo_node : ramfs_node := mk_node [0x66] FT_REGULAR 0 [] 0 0 demo_root 0 0.

Lemma demo_open_at : open_at demo_open demo_f demo_nd demo_file demo_inode.
Proof. split; try (vm_compute; reflexivity); [vm_compute; discriminate..|]. unfold is_u32, demo_file. cbn. lia. Qed.

Lemma demo_node_at : nodes demo_open !! demo_nd = Some demo_node.
Proof. vm_compute. reflexivity. Qed.

Lemma demo_apart : apart demo_open demo_f demo_file.
Proof.
  intros q n Hq. assert (map_Forall (fun _ n => bool_decide (ndata n <> demo_f /\ ndata n <> demo_i) = true) (nodes demo_open)) as H.
  { apply map_Forall_to_list. assert (forallb (fun x => bool_decide (ndata x.2 <> demo_f /\ ndata x.2 <> demo_i)) (map_to_list (nodes demo_open)) = true) as H by (vm_compute; reflexivity).
    apply Forall_forall. intros [k o] Hin. cbn. apply list_elem_of_In in Hin. exact (proj1 (forallb_forall _ _) H (k, o) Hin). }
  specialize (H q n Hq). exact (bool_decide_eq_true_1 _ H).
Qed.

Lemma ramfs_write_correct_witness : exists s' live' kids n2 gap, ramfs_file_write stale demo_f [1; 2; 3] demo_open = Some (3, s') /\
  exists depth, ram_ok s' live' kids depth /\ wrote demo_open s' kids demo_f demo_nd demo_file demo_node n2 gap [1; 2; 3].
Proof.
  destruct demo_open_ok as (live & kids & depth & Hok & _).
  pose proof (ramfs_write_correct stale stale_len demo_open live kids depth demo_f demo_nd demo_file demo_inode demo_node [1; 2; 3] Hok demo_open_at demo_apart demo_node_at
    ltac:(discriminate) ltac:(vm_compute; reflexivity)) as H.
  destruct (after_run _ _ _ 3 H ltac:(vm_compute; reflexivity)) as (E & _ & _ & [(H0 & _)|(_ & live' & n2 & gap & Hok' & Hw)]); [discriminate|].
  exists (after (ramfs_file_write stale demo_f [1; 2; 3]) demo_open), live', kids, n2, gap. split; [exact E|]. exists depth. split; [exact Hok'|exact Hw].
Defined.

Lemma ramfs_write_read_witness : exists s', (r ← ramfs_file_write stale demo_f [1; 2; 3];
      if r =? -1 then mret (-1, []) else ramfs_file_seek demo_f 0 SEEK_SET;; ramfs_file_read demo_f 3) demo_open = Some ((3, [1; 2; 3]), s').
Proof.
  destruct demo_open_ok as (live & kids & depth & Hok & _).
  pose proof (ramfs_write_read stale stale_len demo_open live kids depth demo_f demo_nd demo_file demo_inode demo_node [1; 2; 3] Hok demo_open_at demo_apart demo_node_at
    ltac:(discriminate) ltac:(vm_compute; reflexivity) ltac:(vm_compute; reflexivity)) as (r & s' & E & H)%wp_inv.
  exists s'. destruct H as [(-> & ->)| ->]; [|exact E]. exfalso.
  assert (option_map (fun x => x.1.1) ((r ← ramfs_file_write stale demo_f [1; 2; 3];
      if r =? -1 then mret (-1, []) else ramfs_file_seek demo_f (write_offset demo_file demo_node) SEEK_SET;; ramfs_file_read demo_f (zlen [1; 2; 3])) demo_open) = Some 3) as H by (vm_compute; reflexivity).
  rewrite E in H. discriminate H.
Defined.

Lemma ramfs_read_correct_witness : exists live kids depth, ram_ok demo_open live kids depth /\ ramfs_file_read demo_f 10 demo_open = Some ((0, []), demo_open).
Proof.
  destruct demo_open_ok as (live & kids & depth & Hok & _). exists live, kids, depth. split; [exact Hok|].
  exact (ramfs_read_correct demo_open live kids depth demo_f demo_nd demo_file demo_inode demo_node 10 Hok demo_open_at demo_node_at ltac:(lia)).
Defined.

(** * What goes wrong *)

(** The sum of offset and count wraps at 32 bits: the block for a write of two bytes at offset 2^32 - 1 is one byte long, and the
    bytes are stored 4 GB behind it.  The model faults. *)
Lemma ramfs_write_wraps : (ramfs_file_seek demo_f 0xFFFFFFFF SEEK_SET;; ramfs_file_write stale demo_f [1; 2]) demo_open = None /\
  fst <$> (ramfs_file_seek demo_f 0xFFFFFFFF SEEK_SET;; gets (fun s => offset <$> fobjs (base s) !! demo_f)) demo_open = Some (Some 0xFFFFFFFF).
Proof. split; vm_compute; reflexivity. Qed.

(** A write behind the end of the file makes the file longer without clearing the gap: a read returns what the heap block held. *)
Lemma ramfs_gap_is_stale :
  fst <$> (ramfs_file_seek demo_f 2 SEEK_SET;; ramfs_file_write stale demo_f [7];; ramfs_file_seek demo_f 0 SEEK_SET;; ramfs_file_read demo_f 3) demo_open
  = Some (3, [0xAA; 0xAA; 7]).
Proof. vm_compute. reflexivity. Qed.

(** The file can be removed while it is open; its inode still points to the freed node, and the next read uses it. *)
Lemma ramfs_unlink_open : fst <$> vfs_ramfs_unlink p_f demo_open = Some 0 /\ (vfs_ramfs_unlink p_f;; ramfs_file_read demo_f 1) demo_open = None.
Proof. split; vm_compute; reflexivity. Qed.

(** A name of 64 bytes or more is cut to 63 when the file is made and looked up in full: the file cannot be opened again. *)
Lemma ramfs_long_name : let p := p_tmp ++ [0x2F] ++ replicate 64 0x61 in
  fst <$> vfs_ramfs_open p (O_RDWR + O_CREAT) demo_tmp = Some 0 /\
  fst <$> (vfs_ramfs_open p (O_RDWR + O_CREAT);; vfs_ramfs_open p O_RDWR) demo_tmp = Some (-1).
Proof. split; vm_compute; reflexivity. Qed.

(** A mount on "/", or with a slash at the end of its prefix, succeeds and no path below it is found. *)
Lemma ramfs_slash_mount : fst <$> (ramfs_mount [slash];; vfs_ramfs_open [slash; 0x78] (O_RDWR + O_CREAT)) demo_empty = Some (-2) /\
  fst <$> ramfs_mount [slash] demo_empty = Some 0 /\
  fst <$> (ramfs_mount (p_tmp ++ [slash]);; vfs_ramfs_open p_f (O_RDWR + O_CREAT)) demo_empty = Some (-2).
Proof. split_and!; vm_compute; reflexivity. Qed.

(** A prefix of 32 bytes or more is stored cut, so the mount is not found under the prefix it was given, neither to unmount it nor to
    refuse a second mount there. *)
Lemma ramfs_long_prefix : let p := slash :: replicate 31 0x61 in
  fst <$> (ramfs_mount p;; ramfs_unmount p) demo_empty = Some (-1) /\ fst <$> (ramfs_mount p;; ramfs_mount p) demo_empty = Some 0.
Proof. split; vm_compute; reflexivity. Qed.

(** With no descriptor free, open fails and leaves the new file behind. *)
Definition demo_full : machine :=
  mk_ramfs (set_tables (<[current_fd_table (base demo_tmp) := mk_table (replicate 16 1) 16]> (tables (base demo_tmp))) (base demo_tmp)) (nodes demo_tmp) (g_mounts demo_tmp).
Lemma ramfs_failed_open_creates : fst <$> vfs_ramfs_open p_f (O_RDWR + O_CREAT) demo_full = Some (-1) /\
  fst <$> (vfs_ramfs_open p_f (O_RDWR + O_CREAT);; gets (fun s => stdpp.base.size (nodes s))) demo_full = Some 2%nat.
Proof. split; vm_compute; reflexivity. Qed.
