(* ===== verification/Mmap.v ===== *)
(** Model of the memory system calls of kernel/system/syscall/syscall.c: mmap, munmap, device memory, DMA memory and
    shared regions.

    The state is the page tables of Paging.v with the page allocator, the heap and the shared regions below them, the drivers
    of Driver.v, the contents of the pages given to processes, and the current process. *)

From S2P Require Import Prelude Memory Interfaces Pmm Heap Shm Pci Paging Driver.

Definition MAX_MMAP_REGIONS : Z := 32.
Definition MAX_MMAP_FREE_RANGES : Z := 32.
Definition MMAP_AREA_START : Z := 0x0000600000000000.
Definition MAX_DMA_ALLOC_PAGES : Z := 4096.
Definition PROT_READ : Z := 1.
Definition PROT_WRITE : Z := 2.
Definition PROT_EXEC : Z := 4.
Definition MAP_SHARED : Z := 0x01.
Definition MAP_PRIVATE : Z := 0x02.
Definition MAP_FIXED : Z := 0x10.
Definition MAP_ANONYMOUS : Z := 0x20.
Definition PAGE_NX : Z := 2 ^ 63.
(** [(uint64_t)-1], [(uint64_t)-EINVAL] *)
Definition ERR : Z := 2 ^ 64 - 1.
Definition ERR_EINVAL : Z := 2 ^ 64 - 22.

Record mmap_region := mk_mregion { r_addr : Z; r_length : Z; shared_id : Z }.
Record mmap_free_range := mk_range { f_addr : Z; f_length : Z }.

(** The parts of [process_t] that the memory calls use. *)
Record process := mk_process {
  pid : Z;
  page_table : Z;
  mmap_regions : list mmap_region;
  next_mmap_addr : Z;
  mmap_free_ranges : list mmap_free_range;
}.

Definition set_regions (l : list mmap_region) (p : process) : process := mk_process (pid p) (page_table p) l (next_mmap_addr p) (mmap_free_ranges p).
Definition set_next (n : Z) (p : process) : process := mk_process (pid p) (page_table p) (mmap_regions p) n (mmap_free_ranges p).
Definition set_ranges (l : list mmap_free_range) (p : process) : process := mk_process (pid p) (page_table p) (mmap_regions p) (next_mmap_addr p) l.

(** What [pmm_alloc_contiguous_pages] promises: frames that follow each other and were free, or 0. *)
Class ContiguousAllocator (PS : Type) `{!PageAllocator PS} := {
  ca_alloc : Z -> M PS Z;
  ca_alloc_spec : forall s n, pa_wf s -> 0 < n < 2 ^ 32 ->
    wp (ca_alloc n) (fun r s' => pa_wf s' /\ (forall f, is_frame f -> (pa_managed s' f <-> pa_managed s f)) /\
      ((r = 0 /\ forall f, is_frame f -> (pa_free s' f <-> pa_free s f)) \/
       (r <> 0 /\ (forall i, 0 <= i < n -> is_frame (r + i * 4096) /\ pa_free s (r + i * 4096)) /\
        forall f, is_frame f -> (pa_free s' f <-> pa_free s f /\ ~ exists i, 0 <= i < n /\ f = r + i * 4096)))) s;
}.

Lemma pmm_ca_alloc s n : pmm_wf s -> 0 < n < 2 ^ 32 ->
  wp (pmm_alloc_contiguous_pages n) (fun r s' => pmm_wf s' /\ (forall f, is_frame f -> (frame_managed s' f <-> frame_managed s f)) /\
    ((r = 0 /\ forall f, is_frame f -> (frame_free s' f <-> frame_free s f)) \/
     (r <> 0 /\ (forall i, 0 <= i < n -> is_frame (r + i * 4096) /\ frame_free s (r + i * 4096)) /\
      forall f, is_frame f -> (frame_free s' f <-> frame_free s f /\ ~ exists i, 0 <= i < n /\ f = r + i * 4096)))) s.
Proof.
  intros Hwf Hn. eapply wp_mono; [by apply pmm_alloc_contiguous_outcome|]. cbv beta. intros r s' [Hwf' [H|(-> & -> & _)]]; [|split_and!; [done|done|by left]].
  destruct H as (start & bm & -> & (H0 & Hend & Hfree) & _ & -> & Hl & Hb). pose proof (wf_total s Hwf) as Ht.
  assert (512 <= start) as Hlow.
  { destruct (Z.le_gt_cases 512 start) as [|Hlt]; [done|]. pose proof (Hfree start ltac:(lia)) as Hu. by rewrite (wf_low _ Hwf) in Hu by lia. }
  assert (forall i, 0 <= i < n -> is_frame (start * PAGE_SIZE + i * 4096) /\ (start * PAGE_SIZE + i * 4096) / PAGE_SIZE = start + i) as Hfr.
  { intros i Hi. replace (start * PAGE_SIZE + i * 4096) with ((start + i) * PAGE_SIZE) by (unfold PAGE_SIZE; lia). apply page_frame. lia. }
  split; [done|]. split; [done|]. right. split; [unfold PAGE_SIZE; lia|]. split.
  - intros i Hi. destruct (Hfr i Hi) as [Hf Hd]. split; [done|]. unfold frame_free. rewrite Hd. split; [lia|]. apply Hfree. lia.
  - intros f Hf. unfold frame_free, page_used at 1. cbn [bitmap total_pages]. rewrite Hb. split.
    + intros [Hr Hu]. apply orb_false_iff in Hu as [Hu1 Hu]. split; [done|]. intros (i & Hi & ->). destruct (Hfr i Hi) as [_ Hd]. rewrite Hd in Hu1. lia.
    + intros [[Hr Hu] Hno]. split; [done|]. rewrite Hu, orb_false_r. apply andb_false_iff.
      destruct (Z.leb_spec start (f / PAGE_SIZE)); [right|by left]. apply Z.ltb_ge. destruct (Z.le_gt_cases (start + n) (f / PAGE_SIZE)) as [|Hlt]; [done|]. exfalso. apply Hno.
      exists (f / PAGE_SIZE - start). split; [lia|]. destruct (Hfr (f / PAGE_SIZE - start) ltac:(lia)) as [Hf' Hd]. apply frame_div; [done|done|]. rewrite Hd. lia.
Qed.

#[export] Instance pmm_contiguous : ContiguousAllocator pmm := {| ca_alloc := pmm_alloc_contiguous_pages; ca_alloc_spec := pmm_ca_alloc |}.

Section mmap.
Context {PS HS : Type} `{!PageAllocator PS} `{!ContiguousAllocator PS} `{!BlockAllocator HS}.

Record mm := mk_mm {
  pg : paging (PS := PS) (HS := HS);
  drv : driver;
  ram : gmap Z (list Z);           (* contents of the frames of user pages *)
  current_process : option process;
}.

Definition on_pg {A} (m : M paging A) : M mm A := fun s =>
  match m (pg s) with Some (a, p) => Some (a, mk_mm p (drv s) (ram s) (current_process s)) | None => None end.
Definition on_drv {A} (m : M driver A) : M mm A := fun s =>
  match m (drv s) with Some (a, d) => Some (a, mk_mm (pg s) d (ram s) (current_process s)) | None => None end.
Definition put_ram (f : Z) (l : list Z) : M mm unit := modify (fun s => mk_mm (pg s) (drv s) (<[f := l]> (ram s)) (current_process s)).

(** The current process, a fault when there is none: the calls have checked. *)
Definition cur : M mm process := fun s => match current_process s with Some p => Some (p, s) | None => None end.
Definition put_cur (p : process) : M mm unit := modify (fun s => mk_mm (pg s) (drv s) (ram s) (Some p)).

Definition pmm_alloc_page : M mm Z := on_pg pmm_alloc.
Definition pmm_free_page (f : Z) : M mm unit := on_pg (pmm_release f).
Definition kmalloc (n : Z) : M mm Z := on_pg (on_sh (Shm.on_heap (ba_alloc n))).
Definition kfree (p : Z) : M mm unit := on_pg (on_sh (Shm.on_heap (ba_release p))).

(** [(length + PAGE_SIZE - 1) & ~(PAGE_SIZE - 1)] *)
Definition page_align (len : Z) : Z := Z.land (u64 (u64 (len + 4096) - 1)) (not64 (4096 - 1)).

(** * Virtual addresses *)

Definition mmap_alloc_va (aligned_len : Z) : M mm Z :=
  r ← for_range 0 MAX_MMAP_FREE_RANGES (fun i =>
        p ← cur;
        r ← lift (zget (mmap_free_ranges p) i);
        if (aligned_len <=? f_length r) && (0 <? f_length r) then
          l ← lift (zset (mmap_free_ranges p) i
                (if f_length r =? aligned_len then mk_range 0 0
                 else mk_range (u64 (f_addr r + aligned_len)) (u64 (f_length r - aligned_len))));
          put_cur (set_ranges l p);;
          mret (Some (f_addr r))
        else mret None);
  match r with
  | Some base => mret base
  | None => p ← cur; put_cur (set_next (u64 (next_mmap_addr p + aligned_len)) p);; mret (next_mmap_addr p)
  end.

Definition mmap_free_va (addr length : Z) : M mm unit :=
  for_range 0 MAX_MMAP_FREE_RANGES (fun i =>
    p ← cur;
    r ← lift (zget (mmap_free_ranges p) i);
    if f_length r =? 0 then
      l ← lift (zset (mmap_free_ranges p) i (mk_range addr length));
      put_cur (set_ranges l p);;
      mret (Some tt)
    else mret None);;
  mret tt.

(** The first free slot of [mmap_regions], -1 for none. *)
Definition find_slot : M mm Z :=
  p ← cur;
  r ← for_range 0 MAX_MMAP_REGIONS (fun i => r ← lift (zget (mmap_regions p) i); mret (if r_length r =? 0 then Some i else None));
  mret (default (-1) r).

Definition put_region (slot : Z) (r : mmap_region) : M mm unit :=
  p ← cur; l ← lift (zset (mmap_regions p) slot r); put_cur (set_regions l p).

(** * Pages *)

(** Memory can be addressed there: the 16 high bits repeat bit 47. *)
Definition canonical (v : Z) : bool := (v <? 2 ^ 47) || (2 ^ 64 - 2 ^ 47 <=? v).

(** [memset((void* )virt, 0, PAGE_SIZE)] in the current address space. *)
Definition zero_page (virt : Z) : M mm unit :=
  if negb (canonical virt) then fault else
  f ← on_pg (get_physical_address virt);
  if f =? 0 then fault else put_ram f (replicate 4096 0).

(** [for (i = 0; i < n; i++) unmap_page(virt + i * PAGE_SIZE)] *)
Fixpoint unmap_pages (n : nat) (virt : Z) : M mm unit :=
  match n with O => mret tt | S n => on_pg (unmap_page virt);; unmap_pages n (u64 (virt + 4096)) end.

(** The loops that allocate and map page by page: the frames mapped, fewer than [n] when memory ran out. *)
Fixpoint map_fresh (n : nat) (pml4 virt flags : Z) : M mm (list Z) :=
  match n with
  | O => mret []
  | S n =>
      phys ← pmm_alloc_page;
      if phys =? 0 then mret [] else
      r ← on_pg (map_page_in_pml4 pml4 virt phys flags);
      if negb (r =? 0) then pmm_free_page phys;; mret [] else
      zero_page virt;;
      l ← map_fresh n pml4 (u64 (virt + 4096)) flags;
      mret (phys :: l)
  end.

(** Undoing a partial mapping: [unmap_page] for each page, and the addresses back. *)
Definition roll_back (n base len : Z) : M mm unit := unmap_pages (Z.to_nat n) base;; mmap_free_va base len.

Definition num_pages_of (len : Z) : Z := len / PAGE_SIZE.

(** * The calls: [None] as the current process is NULL *)

Definition sys_mmap (len prot flags : Z) : M mm Z :=
  c ← gets current_process;
  match c with
  | None => mret ERR
  | Some p =>
      if len =? 0 then mret ERR else
      if Z.land flags MAP_ANONYMOUS =? 0 then mret ERR else
      if negb (Z.land flags MAP_FIXED =? 0) then mret ERR else
      let aligned_len := page_align len in
      let num_pages := num_pages_of aligned_len in
      let want_shared := negb (Z.land flags MAP_SHARED =? 0) in
      if want_shared && (MAX_SHARED_REGION_PAGES <? num_pages) then mret ERR_EINVAL else
      slot ← find_slot;
      if slot <? 0 then mret ERR else
      base ← mmap_alloc_va aligned_len;
      let page_flags := Z.lor PAGE_PRESENT PAGE_USER in
      let page_flags := if negb (Z.land prot PROT_WRITE =? 0) then Z.lor page_flags PAGE_WRITE else page_flags in
      let page_flags := if Z.land prot PROT_EXEC =? 0 then Z.lor page_flags PAGE_NX else page_flags in
      let page_flags := if want_shared then Z.lor page_flags PAGE_MMAP_SHARED else page_flags in
      shared_pages ← (if want_shared then kmalloc (u64 (num_pages * 8)) else mret 0);
      if want_shared && (shared_pages =? 0) then mret ERR else
      frames ← map_fresh (Z.to_nat num_pages) (page_table p) base page_flags;
      if zlen frames <? num_pages then
        unmap_pages (length frames) base;;
        (if want_shared then kfree shared_pages else mret tt);;
        mmap_free_va base aligned_len;;
        mret ERR
      else
      id ← (if want_shared then
              id ← on_pg (on_sh (shm_create frames num_pages));
              kfree shared_pages;;
              mret id
            else mret (-1));
      if want_shared && (id <? 0) then
        roll_back num_pages base aligned_len;; mret ERR
      else
      put_region slot (mk_mregion base aligned_len id);;
      mret base
  end.

Definition sys_munmap (addr len : Z) : M mm Z :=
  c ← gets current_process;
  match c with
  | None => mret ERR
  | Some p =>
      if len =? 0 then mret ERR else
      let aligned_len := page_align len in
      r ← for_range 0 MAX_MMAP_REGIONS (fun i =>
            p ← cur;
            r ← lift (zget (mmap_regions p) i);
            if negb (r_length r =? 0) && (r_addr r =? addr) && (r_length r =? aligned_len) then
              unmap_pages (Z.to_nat (num_pages_of aligned_len)) addr;;
              put_region i (mk_mregion 0 0 (shared_id r));;
              mmap_free_va addr aligned_len;;
              mret (Some 0)
            else mret None);
      mret (default ERR r)
  end.

(** The loop of [sys_mmap_mmio]: [false] when a page could not be mapped and the ones before it are unmapped again. *)
Definition map_device (pml4 base phys_page flags n : Z) : M mm bool :=
  r ← for_range 0 n (fun i =>
        r ← on_pg (map_page_in_pml4 pml4 (u64 (base + i * PAGE_SIZE)) (u64 (phys_page + i * PAGE_SIZE)) flags);
        if negb (r =? 0) then unmap_pages (Z.to_nat i) base;; mret (Some tt) else mret None);
  mret (match r with Some _ => false | None => true end).

Definition sys_mmap_mmio (phys_addr length : Z) : M mm Z :=
  c ← gets current_process;
  match c with
  | None => mret ERR
  | Some p =>
      if length =? 0 then mret ERR else
      ok ← on_drv (driver_mmio_allowed (pid p) phys_addr length);
      if negb ok then mret ERR else
      slot ← find_slot;
      if slot <? 0 then mret ERR else
      let phys_page := Z.land phys_addr (not64 (4096 - 1)) in
      let phys_offset := u64 (phys_addr - phys_page) in
      let map_len := page_align (u64 (phys_offset + length)) in
      base ← mmap_alloc_va map_len;
      ok ← map_device (page_table p) base phys_page
             (Z.lor (Z.lor (Z.lor (Z.lor PAGE_PRESENT PAGE_WRITE) PAGE_USER) PAGE_PCD) PAGE_MMIO_NOFREE) (num_pages_of map_len);
      if negb ok then mmap_free_va base map_len;; mret ERR else
      put_region slot (mk_mregion base map_len (-1));;
      mret (u64 (base + phys_offset))
  end.

(** The loop of [sys_dma_alloc]: how many pages were mapped. *)
Fixpoint map_dma (n : nat) (pml4 virt phys flags : Z) : M mm Z :=
  match n with
  | O => mret 0
  | S n =>
      r ← on_pg (map_page_in_pml4 pml4 virt phys flags);
      if negb (r =? 0) then mret 0 else
      zero_page virt;;
      k ← map_dma n pml4 (u64 (virt + 4096)) (u64 (phys + 4096)) flags;
      mret (k + 1)
  end.

(** The result, and the word stored at [phys_out_ptr]. *)
Definition sys_dma_alloc (num_pages phys_out_ptr : Z) : M mm (Z * option Z) :=
  c ← gets current_process;
  match c with
  | None => mret (ERR, None)
  | Some p =>
      if (num_pages =? 0) || (MAX_DMA_ALLOC_PAGES <? num_pages) then mret (ERR, None) else
      reg ← on_drv (driver_is_registered (pid p));
      if negb reg then mret (ERR, None) else
      ok ← on_pg (is_user_range_valid (page_table p) phys_out_ptr 8 true);
      if negb ok then mret (ERR, None) else
      slot ← find_slot;
      if slot <? 0 then mret (ERR, None) else
      phys_base ← on_pg (on_sh (on_frames (ca_alloc num_pages)));
      if phys_base =? 0 then mret (ERR, None) else
      base ← mmap_alloc_va (num_pages * PAGE_SIZE);
      mapped ← map_dma (Z.to_nat num_pages) (page_table p) base phys_base (Z.lor (Z.lor PAGE_PRESENT PAGE_WRITE) PAGE_USER);
      if mapped <? num_pages then
        unmap_pages (Z.to_nat mapped) base;;
        for_range (R := unit) mapped num_pages (fun i => pmm_free_page (u64 (phys_base + i * PAGE_SIZE));; mret None);;
        mmap_free_va base (num_pages * PAGE_SIZE);;
        mret (ERR, None)
      else
      put_region slot (mk_mregion base (num_pages * PAGE_SIZE) (-1));;
      mret (base, Some phys_base)
  end.

Definition SHM_FLAGS : Z := Z.lor (Z.lor (Z.lor PAGE_PRESENT PAGE_WRITE) PAGE_USER) PAGE_MMAP_SHARED.

(** The result, and the id stored at [id_out_ptr]. *)
Definition sys_shm_create (num_pages id_out_ptr : Z) : M mm (Z * option Z) :=
  c ← gets current_process;
  match c with
  | None => mret (ERR, None)
  | Some p =>
      if (num_pages =? 0) || (MAX_SHARED_REGION_PAGES <? num_pages) then mret (ERR, None) else
      ok ← on_pg (is_user_range_valid (page_table p) id_out_ptr 4 true);
      if negb ok then mret (ERR, None) else
      slot ← find_slot;
      if slot <? 0 then mret (ERR, None) else
      pages ← kmalloc (num_pages * 8);
      if pages =? 0 then mret (ERR, None) else
      let len := num_pages * PAGE_SIZE in
      base ← mmap_alloc_va len;
      frames ← map_fresh (Z.to_nat num_pages) (page_table p) base SHM_FLAGS;
      if zlen frames <? num_pages then
        unmap_pages (length frames) base;; kfree pages;; mmap_free_va base len;; mret (ERR, None)
      else
      id ← on_pg (on_sh (shm_create frames num_pages));
      kfree pages;;
      if id <? 0 then roll_back num_pages base len;; mret (ERR, None) else
      put_region slot (mk_mregion base len id);;
      mret (base, Some id)
  end.

(** The loop of [sys_shm_attach]. *)
Definition map_shared (pml4 id base : Z) (pages : list Z) (n : Z) : M mm bool :=
  r ← for_range 0 n (fun i =>
        f ← lift (zget pages i);
        r ← on_pg (map_page_in_pml4 pml4 (u64 (base + i * PAGE_SIZE)) f SHM_FLAGS);
        if negb (r =? 0) then unmap_pages (Z.to_nat i) base;; mret (Some tt)
        else on_pg (on_sh (shm_add_ref id));; mret None);
  mret (match r with Some _ => false | None => true end).

Definition sys_shm_attach (shm_id : Z) : M mm Z :=
  c ← gets current_process;
  match c with
  | None => mret ERR
  | Some p =>
      let id := i32 shm_id in
      num_pages ← on_pg (on_sh (shm_get_num_pages id));
      if num_pages =? 0 then mret ERR else
      buf ← kmalloc (u64 (num_pages * 8));
      if buf =? 0 then mret ERR else
      '(r, pages, n) ← on_pg (on_sh (shm_get_pages id num_pages));
      if negb (r =? 0) then kfree buf;; mret ERR else
      slot ← find_slot;
      if slot <? 0 then kfree buf;; mret ERR else
      let len := u64 (n * PAGE_SIZE) in
      base ← mmap_alloc_va len;
      ok ← map_shared (page_table p) id base pages n;
      kfree buf;;
      if negb ok then mmap_free_va base len;; mret ERR else
      put_region slot (mk_mregion base len id);;
      mret base
  end.

(** * Strings of a process *)

(** The byte at a user address. *)
Definition load (v : Z) : M mm Z :=
  if negb (canonical v) then fault else
  a ← on_pg (get_physical_address v);
  m ← gets ram;
  lift (l ← m !! Z.land a FRAME_MASK; zget l (Z.land a 0xFFF)).

(** One round of [validate_user_string], [page] is the page checked last. *)
Fixpoint string_loop (n : nat) (pml4 addr i : Z) (page : option Z) : M mm Z :=
  match n with
  | O => mret (-1)
  | S n =>
      let c := u64 (addr + i) in
      let pg := Z.land c (not64 (4096 - 1)) in
      ok ← (if bool_decide (page = Some pg) then mret true else on_pg (is_user_accessible pml4 pg false));
      if negb ok then mret (-1) else
      b ← load c;
      if b =? 0 then mret i else string_loop n pml4 addr (i + 1) (Some pg)
  end.

Definition validate_user_string (pml4 addr max_len : Z) : M mm Z :=
  if addr =? 0 then mret (-1) else string_loop (Z.to_nat max_len) pml4 addr 0 None.
End mmap.
