(* ===== verification/MmapSpace.v ===== *)
(** The address space of a process under the memory system calls: its regions and the ranges it can use again never
    overlap. *)

From S2P Require Import Prelude Memory Interfaces Pmm Heap Shm Pci Paging Driver Mmap.

(** * Spans

    Spans 0 to 31 are the regions, 32 to 63 the free ranges. *)

Definition span (p : process) (i : Z) : Z * Z :=
  if i <? MAX_MMAP_REGIONS then match zget (mmap_regions p) i with Some r => (r_addr r, r_length r) | None => (0, 0) end
  else match zget (mmap_free_ranges p) (i - MAX_MMAP_REGIONS) with Some r => (f_addr r, f_length r) | None => (0, 0) end.

Definition SPANS : Z := MAX_MMAP_REGIONS + MAX_MMAP_FREE_RANGES.
Definition USER_END : Z := 2 ^ 47.

(** Page-aligned and inside the area that was handed out. *)
Definition inside (p : process) (iv : Z * Z) : Prop :=
  0 <= snd iv /\ snd iv mod 4096 = 0 /\ (0 < snd iv -> fst iv mod 4096 = 0 /\ MMAP_AREA_START <= fst iv /\ fst iv + snd iv <= next_mmap_addr p).

Definition apart (a b : Z * Z) : Prop := 0 < snd a -> 0 < snd b -> fst a + snd a <= fst b \/ fst b + snd b <= fst a.

Record space_ok (p : process) : Prop := {
  so_regions : zlen (mmap_regions p) = MAX_MMAP_REGIONS;
  so_ranges : zlen (mmap_free_ranges p) = MAX_MMAP_FREE_RANGES;
  so_next : MMAP_AREA_START <= next_mmap_addr p <= USER_END;
  so_aligned : next_mmap_addr p mod 4096 = 0;
  so_inside : forall i, 0 <= i < SPANS -> inside p (span p i);
  so_apart : forall i j, 0 <= i < SPANS -> 0 <= j < SPANS -> i <> j -> apart (span p i) (span p j);
}.

(** [iv] is in no span. *)
Definition spare (p : process) (iv : Z * Z) : Prop := inside p iv /\ forall i, 0 <= i < SPANS -> apart iv (span p i).

Lemma apart_sym a b : apart a b -> apart b a.
Proof. unfold apart. intros H Ha Hb. destruct (H Hb Ha); auto. Qed.

Lemma apart_empty a b : snd a = 0 -> apart a b.
Proof. unfold apart. lia. Qed.

(** The spans after one of them was replaced. *)
Definition replaced (p p' : process) (k : Z) (iv : Z * Z) : Prop :=
  zlen (mmap_regions p') = zlen (mmap_regions p) /\ zlen (mmap_free_ranges p') = zlen (mmap_free_ranges p) /\ next_mmap_addr p' = next_mmap_addr p /\
  forall i, 0 <= i < SPANS -> span p' i = if i =? k then iv else span p i.

Lemma region_replaced p k r : space_ok p -> 0 <= k < MAX_MMAP_REGIONS ->
  replaced p (set_regions (<[Z.to_nat k := r]> (mmap_regions p)) p) k (r_addr r, r_length r).
Proof.
  intros Hp Hk. split; [cbn; by rewrite zlen_insert|]. split; [done|]. split; [done|]. intros i Hi. pose proof (so_regions _ Hp) as Hl.
  unfold span, set_regions. cbn [mmap_regions mmap_free_ranges]. destruct (Z.ltb_spec i MAX_MMAP_REGIONS).
  - destruct (Z.eqb_spec i k) as [->|Hne]; [by rewrite zget_insert_eq by lia|by rewrite zget_insert_ne by lia].
  - destruct (Z.eqb_spec i k); [lia|done].
Qed.

Lemma range_replaced p k r : space_ok p -> 0 <= k < MAX_MMAP_FREE_RANGES ->
  replaced p (set_ranges (<[Z.to_nat k := r]> (mmap_free_ranges p)) p) (MAX_MMAP_REGIONS + k) (f_addr r, f_length r).
Proof.
  intros Hp Hk. split; [done|]. split; [cbn; by rewrite zlen_insert|]. split; [done|]. intros i Hi. pose proof (so_ranges _ Hp) as Hl.
  unfold span, set_ranges. cbn [mmap_regions mmap_free_ranges]. destruct (Z.ltb_spec i MAX_MMAP_REGIONS).
  - destruct (Z.eqb_spec i (MAX_MMAP_REGIONS + k)); [lia|done].
  - destruct (Z.eqb_spec i (MAX_MMAP_REGIONS + k)) as [->|Hne].
    + replace (MAX_MMAP_REGIONS + k - MAX_MMAP_REGIONS) with k by lia. by rewrite zget_insert_eq by lia.
    + by rewrite zget_insert_ne by lia.
Qed.

(** A spare interval takes the place of a span, all but what is left of that span. *)
Lemma replace_ok p p' k iv : space_ok p -> 0 <= k < SPANS -> replaced p p' k iv -> inside p iv ->
  (forall i, 0 <= i < SPANS -> i <> k -> apart iv (span p i)) -> space_ok p'.
Proof.
  intros [H1 H2 H3 H4 H5 H6] Hk (E1 & E2 & E3 & Es) Hi Ha. split; rewrite ?E1, ?E2, ?E3; try done.
  - intros i Hir. unfold inside. rewrite E3, Es by done. destruct (Z.eqb_spec i k); [exact Hi|by apply H5].
  - intros i j Hir Hjr Hne. rewrite !Es by done. destruct (Z.eqb_spec i k) as [->|Hik], (Z.eqb_spec j k) as [->|Hjk].
    + done.
    + by apply Ha.
    + by apply apart_sym, Ha.
    + by apply H6.
Qed.

Lemma spare_replaced p p' k iv jv : 0 <= k < SPANS -> replaced p p' k iv -> inside p jv -> apart jv iv ->
  (forall i, 0 <= i < SPANS -> i <> k -> apart jv (span p i)) -> spare p' jv.
Proof.
  intros Hk (_ & _ & E3 & Es) Hj Hjv Ha. split; [unfold inside; by rewrite E3|]. intros i Hi. rewrite Es by done.
  destruct (Z.eqb_spec i k); [done|by apply Ha].
Qed.

Section space.
Context {PS HS : Type} `{!PageAllocator PS} `{!ContiguousAllocator PS} `{!BlockAllocator HS}.
Implicit Types (s : mm (PS := PS) (HS := HS)) (p : process).

Definition with_cur p s : mm := mk_mm (pg s) (drv s) (ram s) (Some p).

Lemma with_cur_id s p : current_process s = Some p -> with_cur p s = s.
Proof. destruct s. cbn. by intros ->. Qed.

Lemma wp_cur Q s p : current_process s = Some p -> Q p s -> wp cur Q s.
Proof. intros E H. unfold wp, cur. by rewrite E. Qed.

(** * The allocator of addresses *)

(** The parts that it leaves alone. *)
Definition like p p' : Prop := pid p' = pid p /\ page_table p' = page_table p /\ mmap_regions p' = mmap_regions p.

Lemma take_range p k r len : space_ok p -> 0 <= k < MAX_MMAP_FREE_RANGES -> zget (mmap_free_ranges p) k = Some r -> 0 <= len -> len mod 4096 = 0 -> len <= f_length r -> 0 < f_length r ->
  let r' := if f_length r =? len then mk_range 0 0 else mk_range (u64 (f_addr r + len)) (u64 (f_length r - len)) in
  let p' := set_ranges (<[Z.to_nat k := r']> (mmap_free_ranges p)) p in
  space_ok p' /\ spare p' (f_addr r, len).
Proof.
  intros Hp Hk Hr Hl Hlm Hle Hpos r' p'. set (i := MAX_MMAP_REGIONS + k). assert (0 <= i < SPANS) as Hi by (unfold i, SPANS, MAX_MMAP_REGIONS in *; lia).
  assert (span p i = (f_addr r, f_length r)) as Es.
  { unfold span. rewrite (proj2 (Z.ltb_ge _ _)) by lia. replace (i - MAX_MMAP_REGIONS) with k by lia. by rewrite Hr. }
  pose proof (so_inside _ Hp i Hi) as (Hn & Hm & Hin). rewrite Es in Hn, Hm, Hin. cbn [fst snd] in *. destruct (Hin Hpos) as (Ham & Hlo & Hhi).
  pose proof (so_next _ Hp) as Hnx. unfold USER_END, MMAP_AREA_START in *.
  assert ((f_length r = len /\ (f_addr r', f_length r') = (0, 0)) \/ (len < f_length r /\ (f_addr r', f_length r') = (f_addr r + len, f_length r - len))) as Hr'.
  { unfold r'. destruct (Z.eqb_spec (f_length r) len); [by left|right]. split; [lia|]. cbn. by rewrite !u64_small by (unfold is_u64; lia). }
  assert (replaced p p' i (f_addr r', f_length r')) as Hrep by by apply range_replaced.
  assert (forall j, 0 <= j < SPANS -> j <> i -> apart (f_addr r, f_length r) (span p j)) as Hap by (intros j Hj Hji; rewrite <- Es; by apply (so_apart _ Hp)).
  assert (forall j, 0 <= j < SPANS -> j <> i -> forall a l, f_addr r <= a -> 0 <= l -> a + l <= f_addr r + f_length r -> apart (a, l) (span p j)) as Hsub.
  { intros j Hj Hji a l Ha Hl0 Hal. pose proof (Hap j Hj Hji) as H. unfold apart in *. cbn [fst snd] in *. intros ? ?. destruct H; lia. }
  split.
  - apply (replace_ok p p' i (f_addr r', f_length r') Hp Hi Hrep).
    + destruct Hr' as [[_ ->]|[Hlt ->]]; [split; [done|split; [done|cbn; lia]]|]. split; [cbn; lia|]. cbn [fst snd]. split.
      * rewrite Zminus_mod, Hm, Hlm. done.
      * intros _. split; [by rewrite Zplus_mod, Ham, Hlm|]. unfold MMAP_AREA_START. lia.
    + intros j Hj Hji. destruct Hr' as [[_ ->]|[Hlt ->]]; [by apply apart_empty|]. apply Hsub; [done|done|lia..].
  - apply (spare_replaced p p' i _ _ Hi Hrep).
    + split; [done|]. split; [done|]. cbn. unfold MMAP_AREA_START. lia.
    + destruct Hr' as [[_ ->]|[Hlt ->]]; [by apply apart_sym, apart_empty|]. intros ? ?. cbn. lia.
    + intros j Hj Hji. apply Hsub; [done|done|lia..].
Qed.

Lemma alloc_va_outcome s p len : current_process s = Some p -> space_ok p -> 0 <= len -> len mod 4096 = 0 -> next_mmap_addr p + len <= USER_END ->
  wp (mmap_alloc_va len) (fun base s' => exists p', s' = with_cur p' s /\ like p p' /\ space_ok p' /\ spare p' (base, len)) s.
Proof.
  intros Hs Hp Hl Hlm Hroom. pose proof (so_ranges _ Hp) as Hz. unfold mmap_alloc_va. wstep.
  apply (wp_for_range (fun _ s' => s' = s)); [done|done| |].
  - intros i s' Hi ->. wstep. apply (wp_cur _ _ p Hs). destruct (zget_Some (mmap_free_ranges p) i ltac:(lia)) as [r Hr]. wstep. apply (wp_lift _ _ _ _ Hr).
    destruct (Z.leb_spec len (f_length r)) as [Hle|]; cbn [andb]; [|by wstep]. destruct (Z.ltb_spec 0 (f_length r)) as [Hpos|]; [|by wstep].
    wstep. eapply wp_lift; [apply zset_in; lia|]. unfold put_cur. wsteps.
    destruct (take_range p i r len Hp ltac:(lia) Hr Hl Hlm Hle Hpos) as [Hok Hsp]. by eexists.
  - intros s' ->. wsteps. apply (wp_cur _ _ p Hs). unfold put_cur. wsteps. pose proof (so_next _ Hp) as Hn. unfold USER_END, MMAP_AREA_START in *.
    rewrite u64_small by (unfold is_u64; lia). eexists. split; [done|]. split; [done|]. set (p' := set_next _ p).
    assert (forall i, span p' i = span p i) as Es by done. assert (forall iv, inside p iv -> inside p' iv) as Hgrow.
    { intros iv (? & ? & H). split; [done|]. split; [done|]. intros Hpos. destruct (H Hpos) as (? & ? & ?). split; [done|]. split; [done|]. cbn. lia. }
    split.
    + destruct Hp as [H1 H2 H3 H4 H5 H6]. split; [done|done|cbn; unfold USER_END, MMAP_AREA_START; lia| | |].
      * cbn. by rewrite Zplus_mod, H4, Hlm.
      * intros i Hi. rewrite Es. by apply Hgrow, H5.
      * intros i j. rewrite !Es. apply H6.
    + split.
      * split; [done|]. split; [done|]. intros _. cbn. split; [apply Hp|]. unfold MMAP_AREA_START. lia.
      * intros i Hi. rewrite Es. intros H1 H2. right. destruct (so_inside _ Hp i Hi) as (_ & _ & H). destruct (H H2) as (_ & _ & ?). cbn. lia.
Qed.

Lemma free_va_outcome s p iv : current_process s = Some p -> space_ok p -> spare p iv ->
  wp (mmap_free_va (fst iv) (snd iv)) (fun _ s' => exists p', s' = with_cur p' s /\ like p p' /\ space_ok p') s.
Proof.
  intros Hs Hp [Hin Hap]. pose proof (so_ranges _ Hp) as Hz. unfold mmap_free_va. wstep. apply (wp_for_range (fun _ s' => s' = s)); [done|done| |].
  - intros i s' Hi ->. wstep. apply (wp_cur _ _ p Hs). destruct (zget_Some (mmap_free_ranges p) i ltac:(lia)) as [r Hr]. wstep. apply (wp_lift _ _ _ _ Hr).
    destruct (f_length r =? 0); [|by wstep]. wstep. eapply wp_lift; [apply zset_in; lia|]. unfold put_cur. wsteps. eexists. split; [done|]. split; [done|].
    eapply (replace_ok p _ (MAX_MMAP_REGIONS + i) iv Hp); [unfold SPANS, MAX_MMAP_REGIONS in *; lia| |done|].
    + pose proof (range_replaced p i (mk_range (fst iv) (snd iv)) Hp ltac:(lia)) as H. cbn [f_addr f_length] in H. by rewrite <- surjective_pairing in H.
    + intros j Hj _. by apply Hap.
  - intros s' ->. wsteps. exists p. by rewrite with_cur_id.
Qed.

(** * The regions *)

Lemma put_region_outcome s p slot r : current_process s = Some p -> space_ok p -> 0 <= slot < MAX_MMAP_REGIONS -> spare p (r_addr r, r_length r) ->
  wp (put_region slot r) (fun _ s' => exists p', s' = with_cur p' s /\ p' = set_regions (<[Z.to_nat slot := r]> (mmap_regions p)) p /\ space_ok p') s.
Proof.
  intros Hs Hp Hi [Hin Hap]. pose proof (so_regions _ Hp) as Hz. unfold put_region. wstep. apply (wp_cur _ _ p Hs). wstep. eapply wp_lift; [apply zset_in; lia|].
  unfold put_cur. wsteps. eexists. split; [done|]. split; [done|].
  apply (replace_ok p _ slot (r_addr r, r_length r) Hp); [unfold SPANS, MAX_MMAP_REGIONS, MAX_MMAP_FREE_RANGES in *; lia|by apply region_replaced|done|].
  intros j Hj _. by apply Hap.
Qed.

(** Clearing a region makes its addresses spare. *)
Lemma clear_region_outcome s p slot r sid : current_process s = Some p -> space_ok p -> 0 <= slot < MAX_MMAP_REGIONS -> zget (mmap_regions p) slot = Some r ->
  wp (put_region slot (mk_mregion 0 0 sid)) (fun _ s' => exists p', s' = with_cur p' s /\ p' = set_regions (<[Z.to_nat slot := mk_mregion 0 0 sid]> (mmap_regions p)) p /\ space_ok p' /\ spare p' (r_addr r, r_length r)) s.
Proof.
  intros Hs Hp Hi Hr. pose proof (so_regions _ Hp) as Hz. unfold put_region. wstep. apply (wp_cur _ _ p Hs). wstep. eapply wp_lift; [apply zset_in; lia|].
  unfold put_cur. wsteps. eexists. split; [done|]. split; [done|]. pose proof (region_replaced p slot (mk_mregion 0 0 sid) Hp Hi) as Hrep.
  assert (0 <= slot < SPANS) as Hsp by (unfold SPANS, MAX_MMAP_REGIONS, MAX_MMAP_FREE_RANGES in *; lia).
  assert (span p slot = (r_addr r, r_length r)) as Es by (unfold span; rewrite (proj2 (Z.ltb_lt _ _)) by lia; by rewrite Hr). split.
  - apply (replace_ok p _ slot (0, 0) Hp Hsp Hrep); [split; [done|split; [done|cbn; lia]]|]. intros j Hj _. by apply apart_empty.
  - apply (spare_replaced p _ slot (0, 0) _ Hsp Hrep).
    + pose proof (so_inside _ Hp slot Hsp) as H. by rewrite Es in H.
    + by apply apart_sym, apart_empty.
    + intros j Hj Hne. rewrite <- Es. by apply (so_apart _ Hp).
Qed.

(** * Whatever a call that returns leaves *)

Definition wlp {A} (m : M (mm (PS := PS) (HS := HS)) A) (Q : A -> mm -> Prop) s : Prop := forall a s', m s = Some (a, s') -> Q a s'.

Lemma wlp_wp {A} (m : M mm A) Q s : wp m Q s -> wlp m Q s.
Proof. unfold wp, wlp. intros H a s' E. by rewrite E in H. Qed.

Lemma wlp_ret {A} (a : A) Q s : Q a s -> wlp (mret a) Q s.
Proof. intros H a' s' E. by injection E as <- <-. Qed.

Lemma wlp_bind {A B} (m : M mm A) (k : A -> M mm B) Q s : wlp m (fun a s' => wlp (k a) Q s') s -> wlp (m ≫= k) Q s.
Proof. intros H b s' E. unfold mbind, M_bind in E. destruct (m s) as [[a s1]|] eqn:E1; [|done]. by apply (H a s1). Qed.

Lemma wlp_mono {A} (m : M mm A) (P Q : A -> mm -> Prop) s : wlp m P s -> (forall a s', P a s' -> Q a s') -> wlp m Q s.
Proof. intros H HQ a s' E. apply HQ, (H a s' E). Qed.

Lemma wlp_for_range {R} (I : Z -> mm -> Prop) (Q : option R -> mm -> Prop) lo hi body s : I lo s -> lo <= hi ->
  (forall i s', lo <= i < hi -> I i s' -> wlp (body i) (fun r s'' => match r with Some v => Q (Some v) s'' | None => I (i + 1) s'' end) s') ->
  (forall s', I hi s' -> Q None s') -> wlp (for_range lo hi body) Q s.
Proof.
  intros HI Hle Hstep Hend. unfold for_range. assert (forall n i s', lo <= i -> i + Z.of_nat n = hi -> I i s' -> wlp (for_loop n i body) Q s') as Hgen.
  { induction n as [|n IH]; intros i s' Hlo Hn Hi; cbn [for_loop].
    - apply wlp_ret, Hend. by replace hi with i by lia.
    - apply wlp_bind. eapply wlp_mono; [apply Hstep; [lia|done]|]. intros [v|] s'' H; [by apply wlp_ret|]. apply IH; [lia..|done]. }
  apply Hgen; [lia..|done].
Qed.

(** Programs that do not touch the process. *)
Definition quiet {A} (m : M (mm (PS := PS) (HS := HS)) A) : Prop := forall s, wlp m (fun _ s' => current_process s' = current_process s) s.

Lemma quiet_ret {A} (a : A) : quiet (mret a).
Proof. intros s. by apply wlp_ret. Qed.
Lemma quiet_fault {A} : quiet (fault : M mm A).
Proof. by intros s a s'. Qed.
Lemma quiet_bind {A B} (m : M mm A) (k : A -> M mm B) : quiet m -> (forall a, quiet (k a)) -> quiet (m ≫= k).
Proof. intros Hm Hk s. apply wlp_bind. eapply wlp_mono; [apply Hm|]. cbv beta. intros a s1 <-. apply Hk. Qed.
Lemma quiet_pg {A} (m : M paging A) : quiet (on_pg m).
Proof. intros s a s' E. unfold on_pg in E. destruct (m (pg s)) as [[x p]|]; [|done]. by injection E as <- <-. Qed.
Lemma quiet_drv {A} (m : M driver A) : quiet (on_drv m : M mm A).
Proof. intros s a s' E. unfold on_drv in E. destruct (m (drv s)) as [[x p]|]; [|done]. by injection E as <- <-. Qed.
Lemma quiet_gets {A} (f : mm -> A) : quiet (gets f).
Proof. intros s a s' E. by injection E as <- <-. Qed.
Lemma quiet_put_ram f l : quiet (put_ram f l).
Proof. intros s a s' E. by injection E as <- <-. Qed.
Lemma quiet_lift {A} (o : option A) : quiet (lift o : M mm A).
Proof. intros s a s' E. unfold lift in E. destruct o; [|done]. by injection E as <- <-. Qed.
Lemma quiet_if {A} (b : bool) (m1 m2 : M mm A) : quiet m1 -> quiet m2 -> quiet (if b then m1 else m2).
Proof. by destruct b. Qed.
Lemma quiet_for_range {R} lo hi (body : Z -> M mm (option R)) : (forall i, quiet (body i)) -> quiet (for_range lo hi body).
Proof.
  intros Hb s. destruct (Z.le_gt_cases lo hi) as [Hle|Hgt]; [|intros a s' E; rewrite for_range_empty in E by lia; by injection E as <- <-].
  apply (wlp_for_range (fun _ s' => current_process s' = current_process s)); [done|done| |done]. intros i s' _ <-.
  eapply wlp_mono; [apply Hb|]. cbv beta. intros [v|] s''; done.
Qed.

Lemma wlp_quiet {A} (m : M mm A) Q s : quiet m -> (forall a s', current_process s' = current_process s -> Q a s') -> wlp m Q s.
Proof. intros Hm HQ. eapply wlp_mono; [apply Hm|]. exact HQ. Qed.
End space.

#[export] Hint Resolve quiet_ret quiet_fault quiet_pg quiet_drv quiet_gets quiet_put_ram quiet_lift : quiet.
Ltac quiet := repeat first [apply quiet_bind; [|intros]|apply quiet_if|apply quiet_for_range; intros|solve [auto with quiet]|case_match].

(** * The calls *)

Section calls.
Context {PS HS : Type} `{!PageAllocator PS} `{!ContiguousAllocator PS} `{!BlockAllocator HS}.
Implicit Types (s : mm (PS := PS) (HS := HS)) (p : process).

Lemma quiet_zero_page v : quiet (zero_page (PS := PS) (HS := HS) v).
Proof. unfold zero_page. quiet. Qed.
Hint Resolve quiet_zero_page : quiet.

Lemma quiet_unmap_pages n : forall v, quiet (unmap_pages (PS := PS) (HS := HS) n v).
Proof. induction n as [|n IH]; intros v; cbn [unmap_pages]; quiet. Qed.
Lemma quiet_map_fresh n : forall pml4 v fl, quiet (map_fresh (PS := PS) (HS := HS) n pml4 v fl).
Proof. induction n as [|n IH]; intros pml4 v fl; cbn [map_fresh]; unfold pmm_alloc_page, pmm_free_page; quiet. Qed.
Lemma quiet_map_dma n : forall pml4 v ph fl, quiet (map_dma (PS := PS) (HS := HS) n pml4 v ph fl).
Proof. induction n as [|n IH]; intros pml4 v ph fl; cbn [map_dma]; quiet. Qed.
Hint Resolve quiet_unmap_pages quiet_map_fresh quiet_map_dma : quiet.
Lemma quiet_map_device pml4 b ph fl n : quiet (map_device (PS := PS) (HS := HS) pml4 b ph fl n).
Proof. unfold map_device. quiet. Qed.
Lemma quiet_map_shared pml4 id b l n : quiet (map_shared (PS := PS) (HS := HS) pml4 id b l n).
Proof. unfold map_shared. quiet. Qed.
Hint Resolve quiet_map_device quiet_map_shared : quiet.

(** The process has a good address space, and [iv] is spare in it. *)
Definition good s : Prop := exists p, current_process s = Some p /\ space_ok p.
Definition good_iv (iv : Z * Z) s : Prop := exists p, current_process s = Some p /\ space_ok p /\ spare p iv.

Lemma good_same s s' : current_process s' = current_process s -> good s -> good s'.
Proof. intros E (p & Hp & Ho). exists p. by rewrite E. Qed.
Lemma good_iv_same iv s s' : current_process s' = current_process s -> good_iv iv s -> good_iv iv s'.
Proof. intros E (p & Hp & Ho). exists p. by rewrite E. Qed.
Lemma good_iv_good iv s : good_iv iv s -> good s.
Proof. intros (p & Hp & Ho & _). by exists p. Qed.

Lemma find_slot_range s : wlp find_slot (fun slot s' => s' = s /\ (slot < 0 \/ 0 <= slot < MAX_MMAP_REGIONS)) s.
Proof.
  unfold find_slot. apply wlp_bind. intros p s1 E. unfold cur in E. destruct (current_process s); [|done]. injection E as <- <-.
  apply wlp_bind. apply (wlp_for_range (fun _ s' => s' = s)); [done|done| |].
  - intros i s' Hi ->. apply wlp_bind. intros r s1 E. unfold lift in E. destruct (zget _ _); [|done]. injection E as <- <-. apply wlp_ret.
    destruct (r_length _ =? 0); [|done]. apply wlp_ret. split; [done|]. right. done.
  - intros s' ->. apply wlp_ret. split; [done|]. left. done.
Qed.

Definition room len s : Prop := forall p, current_process s = Some p -> next_mmap_addr p + len <= USER_END.

Lemma room_same len s s' : current_process s' = current_process s -> room len s -> room len s'.
Proof. unfold room. by intros ->. Qed.

Lemma good_alloc s len : good s -> room len s -> 0 <= len -> len mod 4096 = 0 -> wlp (mmap_alloc_va len) (fun base s' => good_iv (base, len) s') s.
Proof.
  intros (p & Hp & Ho) Hr Hl Hm. apply wlp_wp. eapply wp_mono; [by apply (alloc_va_outcome s p); [..|apply Hr]|]. cbv beta. intros base s' (p' & -> & _ & Ho' & Hs). by exists p'.
Qed.

Lemma good_free s a len : good_iv (a, len) s -> wlp (mmap_free_va a len) (fun _ s' => good s') s.
Proof.
  intros (p & Hp & Ho & Hs). apply wlp_wp. eapply wp_mono; [by apply (free_va_outcome s p (a, len))|]. cbv beta. intros _ s' (p' & -> & _ & Ho'). by exists p'.
Qed.

Lemma good_put s slot a len sid : good_iv (a, len) s -> 0 <= slot < MAX_MMAP_REGIONS -> wlp (put_region slot (mk_mregion a len sid)) (fun _ s' => good s') s.
Proof.
  intros (p & Hp & Ho & Hs) Hi. apply wlp_wp. eapply wp_mono; [by apply (put_region_outcome s p slot (mk_mregion a len sid))|]. cbv beta. intros _ s' (p' & -> & _ & Ho'). by exists p'.
Qed.

Lemma page_align_range len : 0 <= page_align len < 2 ^ 64 /\ page_align len mod 4096 = 0.
Proof.
  unfold page_align. set (a := u64 _). assert (is_u64 a) as Ha by apply u64_range. rewrite page_floor by done. unfold is_u64 in Ha.
  pose proof (Z.div_mod a 4096 ltac:(lia)). pose proof (Z.mod_pos_bound a 4096 ltac:(lia)). split; [lia|]. rewrite Z.mul_comm. by apply Z.mod_mul.
Qed.

Lemma kmalloc_quiet n : quiet (kmalloc (PS := PS) (HS := HS) n).
Proof. unfold kmalloc. quiet. Qed.
Lemma kfree_quiet n : quiet (kfree (PS := PS) (HS := HS) n).
Proof. unfold kfree. quiet. Qed.
Lemma pmm_free_quiet n : quiet (pmm_free_page (PS := PS) (HS := HS) n).
Proof. unfold pmm_free_page. quiet. Qed.
Hint Resolve kmalloc_quiet kfree_quiet pmm_free_quiet : quiet.

(** The current process is read. *)
Lemma wlp_current {A} (k : process -> M mm A) e Q s : Q e s -> (forall p, current_process s = Some p -> wlp (k p) Q s) ->
  wlp (c ← gets current_process; match c with None => mret e | Some p => k p end) Q s.
Proof. intros He Hk. apply wlp_bind. intros c s' E. injection E as <- <-. destruct (current_process s); [by apply Hk|by apply wlp_ret]. Qed.

Ltac skip_quiet H := apply wlp_bind, wlp_quiet; [quiet|let E := fresh "E" in intros ? ? E; first [apply (good_iv_same _ _ _ E) in H|apply (good_same _ _ E) in H]].
Ltac early := apply wlp_ret; first [assumption|by eapply good_iv_good].

(** Unmapping what was mapped, and giving the addresses back. *)
Lemma good_roll_back s n base len : good_iv (base, len) s -> wlp (roll_back n base len) (fun _ s' => good s') s.
Proof. intros H. unfold roll_back. skip_quiet H. by apply good_free. Qed.

Lemma mmap_good s len prot flags : good s -> room (page_align len) s -> wlp (sys_mmap len prot flags) (fun _ s' => good s') s.
Proof.
  intros Hg Hr. destruct (page_align_range len) as [Hal Ham]. unfold sys_mmap. apply wlp_current; [done|]. intros p Hp.
  destruct (len =? 0); [early|]. destruct (Z.land flags MAP_ANONYMOUS =? 0); [early|]. destruct (negb (Z.land flags MAP_FIXED =? 0)); [early|]. cbv zeta.
  set (shared := negb (Z.land flags MAP_SHARED =? 0)). destruct (shared && _); [early|].
  apply wlp_bind. eapply wlp_mono; [apply find_slot_range|]. cbv beta. intros slot s1 [-> Hslot]. destruct (Z.ltb_spec slot 0); [early|]. destruct Hslot as [|Hslot]; [lia|].
  apply wlp_bind. eapply wlp_mono; [by apply good_alloc; [..|lia|]|]. cbv beta. intros base s1 H1.
  skip_quiet H1. destruct (shared && _); [early|]. skip_quiet H1. destruct (_ <? _).
  - skip_quiet H1. skip_quiet H1. apply wlp_bind. eapply wlp_mono; [by apply good_free|]. cbv beta. intros _ s2 H2. early.
  - skip_quiet H1. destruct (shared && _).
    + apply wlp_bind. eapply wlp_mono; [by apply good_roll_back|]. cbv beta. intros _ s2 H2. early.
    + apply wlp_bind. eapply wlp_mono; [by apply good_put|]. cbv beta. intros _ s2 H2. early.
Qed.

Lemma munmap_good s addr len : good s -> wlp (sys_munmap addr len) (fun _ s' => good s') s.
Proof.
  intros Hg. unfold sys_munmap. apply wlp_current; [done|]. intros p0 Hp0. destruct (len =? 0); [early|]. cbv zeta.
  apply wlp_bind. apply (wlp_for_range (fun _ s' => good s')); [done|done| |intros; early]. clear s Hg p0 Hp0. intros i s Hi Hg.
  pose proof Hg as (p & Hp & Ho). apply wlp_bind. intros p' s' E. unfold cur in E. rewrite Hp in E. injection E as <- <-.
  apply wlp_bind. intros r s' E. unfold lift in E. destruct (zget (mmap_regions p) i) as [r'|] eqn:Hr; [|done]. injection E as -> <-.
  destruct (negb (r_length r =? 0)); cbn [andb]; [|early]. destruct (Z.eqb_spec (r_addr r) addr) as [Ea|]; cbn [andb]; [|early]. destruct (Z.eqb_spec (r_length r) (page_align len)) as [El|]; [|early].
  apply wlp_bind, wlp_quiet; [quiet|]. intros _ s1 E1. rewrite <- E1 in Hp.
  apply wlp_bind. apply wlp_wp. eapply wp_mono; [by apply (clear_region_outcome s1 p i r)|]. cbv beta. intros _ s2 (p2 & -> & _ & Ho2 & Hs2). rewrite Ea, El in Hs2.
  apply wlp_bind. eapply wlp_mono; [apply good_free; by exists p2|]. cbv beta. intros _ s3 H3. apply wlp_ret. by apply wlp_ret.
Qed.

(** Finding a slot and taking addresses, as the calls do. *)
Lemma slot_and_va {A} s (e : A) (k : Z -> M mm A) (Q : A -> mm -> Prop) : good s -> Q e s ->
  (forall slot, 0 <= slot < MAX_MMAP_REGIONS -> wlp (k slot) Q s) -> wlp (slot ← find_slot; if slot <? 0 then mret e else k slot) Q s.
Proof.
  intros Hg He Hk. apply wlp_bind. eapply wlp_mono; [apply find_slot_range|]. cbv beta. intros slot s1 [-> Hslot].
  destruct (Z.ltb_spec slot 0); [by apply wlp_ret|]. apply Hk. destruct Hslot; [lia|done].
Qed.

Lemma mmap_mmio_good s phys len : good s -> (forall off, room (page_align (u64 (off + len))) s) -> wlp (sys_mmap_mmio phys len) (fun _ s' => good s') s.
Proof.
  intros Hg Hr. unfold sys_mmap_mmio. apply wlp_current; [done|]. intros p Hp. destruct (len =? 0); [early|].
  apply wlp_bind, wlp_quiet; [quiet|]. intros ok s1 E1. apply (good_same _ _ E1) in Hg. assert (forall off, room (page_align (u64 (off + len))) s1) as Hr1 by (intros off; by apply (room_same _ _ _ E1)).
  destruct (negb ok); [early|]. apply slot_and_va; [done|done|]. intros slot Hslot. cbv zeta. set (off := u64 (phys - _)). destruct (page_align_range (u64 (off + len))) as [Hal Ham].
  apply wlp_bind. eapply wlp_mono; [apply good_alloc; [done|apply Hr1|lia|done]|]. cbv beta. intros base s2 H2. skip_quiet H2. destruct (negb _).
  - apply wlp_bind. eapply wlp_mono; [by apply good_free|]. cbv beta. intros _ s3 H3. early.
  - apply wlp_bind. eapply wlp_mono; [by apply good_put|]. cbv beta. intros _ s3 H3. early.
Qed.

Lemma pages_len n : 0 <= n -> 0 <= n * PAGE_SIZE /\ (n * PAGE_SIZE) mod 4096 = 0.
Proof. intros Hn. unfold PAGE_SIZE. split; [lia|by apply Z.mod_mul]. Qed.

Lemma dma_alloc_good s n out : good s -> 0 <= n -> (n <= MAX_DMA_ALLOC_PAGES -> room (n * PAGE_SIZE) s) -> wlp (sys_dma_alloc n out) (fun _ s' => good s') s.
Proof.
  intros Hg Hn Hr. destruct (pages_len n Hn) as [Hl Hm]. unfold sys_dma_alloc. apply wlp_current; [done|]. intros p Hp.
  destruct (Z.eqb_spec n 0); cbn [orb]; [early|]. destruct (Z.ltb_spec MAX_DMA_ALLOC_PAGES n); [early|]. specialize (Hr ltac:(lia)).
  apply wlp_bind, wlp_quiet; [quiet|]. intros reg s1 E1. apply (good_same _ _ E1) in Hg. apply (room_same _ _ _ E1) in Hr. destruct (negb reg); [early|].
  apply wlp_bind, wlp_quiet; [quiet|]. intros ok s2 E2. apply (good_same _ _ E2) in Hg. apply (room_same _ _ _ E2) in Hr. destruct (negb ok); [early|].
  apply slot_and_va; [done|done|]. intros slot Hslot.
  apply wlp_bind, wlp_quiet; [quiet|]. intros ph s3 E3. apply (good_same _ _ E3) in Hg. apply (room_same _ _ _ E3) in Hr. destruct (ph =? 0); [early|].
  apply wlp_bind. eapply wlp_mono; [by apply good_alloc|]. cbv beta. intros base s4 H4. skip_quiet H4. destruct (_ <? n).
  - skip_quiet H4. skip_quiet H4. apply wlp_bind. eapply wlp_mono; [by apply good_free|]. cbv beta. intros _ s5 H5. early.
  - apply wlp_bind. eapply wlp_mono; [by apply good_put|]. cbv beta. intros _ s5 H5. early.
Qed.

Lemma shm_create_good s n out : good s -> 0 <= n -> (n <= MAX_SHARED_REGION_PAGES -> room (n * PAGE_SIZE) s) -> wlp (sys_shm_create n out) (fun _ s' => good s') s.
Proof.
  intros Hg Hn Hr. destruct (pages_len n Hn) as [Hl Hm]. unfold sys_shm_create. apply wlp_current; [done|]. intros p Hp.
  destruct (Z.eqb_spec n 0); cbn [orb]; [early|]. destruct (Z.ltb_spec MAX_SHARED_REGION_PAGES n); [early|]. specialize (Hr ltac:(lia)).
  apply wlp_bind, wlp_quiet; [quiet|]. intros ok s1 E1. apply (good_same _ _ E1) in Hg. apply (room_same _ _ _ E1) in Hr. destruct (negb ok); [early|].
  apply slot_and_va; [done|done|]. intros slot Hslot.
  apply wlp_bind, wlp_quiet; [quiet|]. intros ph s3 E3. apply (good_same _ _ E3) in Hg. apply (room_same _ _ _ E3) in Hr. destruct (ph =? 0); [early|]. cbv zeta.
  apply wlp_bind. eapply wlp_mono; [by apply good_alloc|]. cbv beta. intros base s4 H4. skip_quiet H4. destruct (_ <? n).
  - skip_quiet H4. skip_quiet H4. apply wlp_bind. eapply wlp_mono; [by apply good_free|]. cbv beta. intros _ s5 H5. early.
  - skip_quiet H4. skip_quiet H4. destruct (_ <? 0).
    + apply wlp_bind. eapply wlp_mono; [by apply good_roll_back|]. cbv beta. intros _ s5 H5. early.
    + apply wlp_bind. eapply wlp_mono; [by apply good_put|]. cbv beta. intros _ s5 H5. early.
Qed.

(** The number of pages that attaching reads from the registry. *)
Lemma shm_pages_read s id m : wlp (on_pg (on_sh (shm_get_pages id m)) : M (mm (PS := PS) (HS := HS)) (Z * list Z * Z)) (fun a s' => current_process s' = current_process s /\
  (fst (fst a) = 0 -> exists r, region_at (sh (pg s)) id r /\ snd a = num_pages r)) s.
Proof.
  intros a s' E. split; [by apply (quiet_pg _ _ _ _ E)|]. unfold on_pg, on_sh in E. destruct (shm_get_pages id m (sh (pg s))) as [[x h]|] eqn:E'; [|done]. cbn in E. injection E as <- <-.
  unfold shm_get_pages, live_region, get_region, mret, M_ret, mbind, M_bind in E'. destruct (_ || _); [injection E' as <- <-; cbn; lia|]. cbn in E'.
  destruct (zget (g_regions (sh (pg s))) id) as [r|] eqn:Hr; [|done]. cbn in E'. destruct (in_use r) eqn:Hu; [|injection E' as <- <-; cbn; lia].
  unfold lift in E'. cbn in E'. destruct (_ <=? zlen (pages r)); [|done]. injection E' as <- <-. intros _. by exists r.
Qed.

Lemma kmalloc_regions s n : wlp (kmalloc n) (fun _ s' => current_process s' = current_process s /\ g_regions (sh (pg s')) = g_regions (sh (pg s))) s.
Proof.
  intros a s' E. split; [by apply (kmalloc_quiet _ _ _ _ E)|]. unfold kmalloc, on_pg, on_sh, Shm.on_heap in E. destruct (ba_alloc n _) as [[x h]|]; [|done].
  cbn in E. by injection E as <- <-.
Qed.

Lemma num_pages_same s id n s1 : on_pg (on_sh (shm_get_num_pages id)) s = Some (n, s1) -> s1 = s.
Proof.
  unfold on_pg, on_sh. destruct (shm_get_num_pages id (sh (pg s))) as [[a h]|] eqn:E; [|done]. cbn. intros [= <- <-].
  assert (h = sh (pg s)) as ->; [|by destruct s as [[? [] ? ? ? ?] ? ? ?]].
  unfold shm_get_num_pages, live_region, get_region, mret, M_ret, mbind, M_bind in E. destruct (_ || _); [by injection E|].
  cbn in E. destruct (zget _ _) as [r|]; [|done]. cbn in E. destruct (in_use r); by injection E.
Qed.

Lemma shm_attach_good s id : good s -> room (MAX_SHARED_REGION_PAGES * PAGE_SIZE) s -> (forall i r, region_at (sh (pg s)) i r -> 0 <= num_pages r <= MAX_SHARED_REGION_PAGES) ->
  wlp (sys_shm_attach id) (fun _ s' => good s') s.
Proof.
  intros Hg Hr Hreg. unfold sys_shm_attach. apply wlp_current; [done|]. intros p Hp. cbv zeta.
  apply wlp_bind. intros np s1 E1.
  apply num_pages_same in E1 as ->.
  destruct (np =? 0); [early|]. apply wlp_bind. eapply wlp_mono; [apply kmalloc_regions|]. cbv beta. intros buf s1 [E1 Eg].
  apply (good_same _ _ E1) in Hg. apply (room_same _ _ _ E1) in Hr. destruct (buf =? 0); [early|].
  apply wlp_bind. eapply wlp_mono; [apply shm_pages_read|]. cbv beta. intros [[r pages] n] s2 [E2 Hn]. cbn [fst snd] in Hn.
  apply (good_same _ _ E2) in Hg. apply (room_same _ _ _ E2) in Hr. destruct (Z.eqb_spec r 0) as [->|]; cbn [negb]; [|skip_quiet Hg; early].
  destruct (Hn eq_refl) as (x & Hx & ->). unfold region_at in Hx. rewrite Eg in Hx. pose proof (Hreg _ _ Hx) as Hb.
  apply wlp_bind. eapply wlp_mono; [apply find_slot_range|]. cbv beta. intros slot s3 [-> Hslot]. destruct (Z.ltb_spec slot 0); [skip_quiet Hg; early|]. destruct Hslot as [|Hslot]; [lia|].
  destruct (pages_len (num_pages x) ltac:(lia)) as [Hl Hm]. unfold MAX_SHARED_REGION_PAGES, PAGE_SIZE in Hb, Hl, Hm, Hr |- *. rewrite u64_small by (unfold is_u64; lia).
  apply wlp_bind. eapply wlp_mono; [apply good_alloc; [done| |done|done]|].
  { intros q Hq. specialize (Hr q Hq). lia. }
  cbv beta. intros base s4 H4. skip_quiet H4. skip_quiet H4. destruct (negb _).
  - apply wlp_bind. eapply wlp_mono; [by apply good_free|]. cbv beta. intros _ s5 H5. early.
  - apply wlp_bind. eapply wlp_mono; [by apply good_put|]. cbv beta. intros _ s5 H5. early.
Qed.

(** * Sequences of calls

    Each call is one that finds room: the code never compares an address with the end of user space. *)
Inductive mm_step : mm (PS := PS) (HS := HS) -> mm (PS := PS) (HS := HS) -> Prop :=
  | step_mmap s len prot flags r s' : room (page_align len) s -> sys_mmap len prot flags s = Some (r, s') -> mm_step s s'
  | step_munmap s addr len r s' : sys_munmap addr len s = Some (r, s') -> mm_step s s'
  | step_mmio s phys len r s' : (forall off, room (page_align (u64 (off + len))) s) -> sys_mmap_mmio phys len s = Some (r, s') -> mm_step s s'
  | step_dma s n out r s' : 0 <= n -> (n <= MAX_DMA_ALLOC_PAGES -> room (n * PAGE_SIZE) s) -> sys_dma_alloc n out s = Some (r, s') -> mm_step s s'
  | step_shm_create s n out r s' : 0 <= n -> (n <= MAX_SHARED_REGION_PAGES -> room (n * PAGE_SIZE) s) -> sys_shm_create n out s = Some (r, s') -> mm_step s s'
  | step_shm_attach s id r s' : room (MAX_SHARED_REGION_PAGES * PAGE_SIZE) s -> (forall i x, region_at (sh (pg s)) i x -> 0 <= num_pages x <= MAX_SHARED_REGION_PAGES) ->
      sys_shm_attach id s = Some (r, s') -> mm_step s s'
  | step_else s s' : current_process s' = current_process s -> mm_step s s'.   (* the process and the rest of the kernel run *)

Inductive mm_reach (s0 : mm (PS := PS) (HS := HS)) : mm (PS := PS) (HS := HS) -> Prop :=
  | reach_start : mm_reach s0 s0
  | reach_step s s' : mm_reach s0 s -> mm_step s s' -> mm_reach s0 s'.

Lemma mm_step_good s s' : good s -> mm_step s s' -> good s'.
Proof.
  intros Hg H. destruct H as [s len prot flags r s' Hr E|s addr len r s' E|s phys len r s' Hr E|s n out r s' Hn Hr E|s n out r s' Hn Hr E|s id r s' Hr Hw E|s s' E].
  - exact (mmap_good s len prot flags Hg Hr r s' E).
  - exact (munmap_good s addr len Hg r s' E).
  - exact (mmap_mmio_good s phys len Hg Hr r s' E).
  - exact (dma_alloc_good s n out Hg Hn Hr r s' E).
  - exact (shm_create_good s n out Hg Hn Hr r s' E).
  - exact (shm_attach_good s id Hg Hr Hw r s' E).
  - by apply (good_same s).
Qed.

(** As [process_create] leaves it. *)
Definition fresh_process p : Prop := mmap_regions p = replicate 32 (mk_mregion 0 0 0) /\ mmap_free_ranges p = replicate 32 (mk_range 0 0) /\ next_mmap_addr p = MMAP_AREA_START.

Lemma fresh_span p i : fresh_process p -> 0 <= i < SPANS -> span p i = (0, 0).
Proof.
  intros (E1 & E2 & _) Hi. unfold span, SPANS, MAX_MMAP_REGIONS, MAX_MMAP_FREE_RANGES in *. rewrite E1, E2. destruct (Z.ltb_spec i 32).
  - by rewrite zget_replicate by lia.
  - by rewrite zget_replicate by lia.
Qed.

Lemma fresh_ok p : fresh_process p -> space_ok p.
Proof.
  intros Hf. pose proof Hf as (E1 & E2 & E3). split; [by rewrite E1|by rewrite E2|rewrite E3; unfold MMAP_AREA_START, USER_END; lia|by rewrite E3| |].
  - intros i Hi. rewrite fresh_span by done. split; [done|]. split; [done|]. cbn. lia.
  - intros i j Hi Hj _. rewrite !fresh_span by done. by apply apart_empty.
Qed.

(** C28: The address space under the memory calls: whatever sequence of mmap, munmap, device, DMA and shared-memory calls a new process makes,
    succeeding or failing, its live regions are page-aligned, lie between the start of the area and the next address, and do not overlap one another
    or a range that will be handed out again. *)
Theorem mmap_regions_disjoint s0 s p0 : current_process s0 = Some p0 -> fresh_process p0 -> mm_reach s0 s ->
  exists p, current_process s = Some p /\ zlen (mmap_regions p) = MAX_MMAP_REGIONS /\ zlen (mmap_free_ranges p) = MAX_MMAP_FREE_RANGES /\
    (forall i r, zget (mmap_regions p) i = Some r -> r_length r <> 0 ->
       0 < r_length r /\ r_length r mod 4096 = 0 /\ r_addr r mod 4096 = 0 /\ MMAP_AREA_START <= r_addr r /\ r_addr r + r_length r <= next_mmap_addr p /\ next_mmap_addr p <= USER_END) /\
    (forall i j a b, zget (mmap_regions p) i = Some a -> zget (mmap_regions p) j = Some b -> i <> j -> r_length a <> 0 -> r_length b <> 0 ->
       r_addr a + r_length a <= r_addr b \/ r_addr b + r_length b <= r_addr a) /\
    (forall i j a b, zget (mmap_regions p) i = Some a -> zget (mmap_free_ranges p) j = Some b -> r_length a <> 0 -> f_length b <> 0 ->
       r_addr a + r_length a <= f_addr b \/ f_addr b + f_length b <= r_addr a).
Proof.
  intros Hp0 Hf Hreach. assert (good s) as (p & Hp & Ho).
  { induction Hreach as [|s s' _ IH Hs]; [exists p0; split; [done|by apply fresh_ok]|]. by apply (mm_step_good s). }
  exists p. split; [done|]. split; [apply Ho|]. split; [apply Ho|].
  assert (forall i r, zget (mmap_regions p) i = Some r -> 0 <= i < MAX_MMAP_REGIONS /\ span p i = (r_addr r, r_length r)) as Hreg.
  { intros i r Hr. pose proof (zget_range _ _ _ Hr) as Hi. rewrite (so_regions _ Ho) in Hi. split; [done|]. unfold span. rewrite (proj2 (Z.ltb_lt _ _)) by lia. by rewrite Hr. }
  assert (forall j b, zget (mmap_free_ranges p) j = Some b -> MAX_MMAP_REGIONS <= MAX_MMAP_REGIONS + j < SPANS /\ span p (MAX_MMAP_REGIONS + j) = (f_addr b, f_length b)) as Hran.
  { intros j b Hb. pose proof (zget_range _ _ _ Hb) as Hj. rewrite (so_ranges _ Ho) in Hj. split; [unfold SPANS; lia|]. unfold span. rewrite (proj2 (Z.ltb_ge _ _)) by lia.
    replace (MAX_MMAP_REGIONS + j - MAX_MMAP_REGIONS) with j by lia. by rewrite Hb. }
  assert (forall i, 0 <= i < SPANS -> 0 <= snd (span p i)) as Hnn by (intros i Hi; apply (so_inside _ Ho i Hi)).
  assert (forall i, 0 <= i < MAX_MMAP_REGIONS -> 0 <= i < SPANS) as Hin by (unfold SPANS, MAX_MMAP_REGIONS, MAX_MMAP_FREE_RANGES; lia). split_and!.
  - intros i r Hr Hl. destruct (Hreg i r Hr) as [Hi Es]. pose proof (so_inside _ Ho i (Hin i Hi)) as (H1 & H2 & H3). rewrite Es in H1, H2, H3. cbn [fst snd] in *.
    destruct (H3 ltac:(lia)) as (? & ? & ?). pose proof (so_next _ Ho). split_and!; try done; lia.
  - intros i j a b Ha Hb Hne Hla Hlb. destruct (Hreg i a Ha) as [Hi Ea], (Hreg j b Hb) as [Hj Eb].
    pose proof (so_apart _ Ho i j (Hin i Hi) (Hin j Hj) Hne) as H. pose proof (Hnn i (Hin i Hi)). pose proof (Hnn j (Hin j Hj)). rewrite Ea, Eb in *. cbn in *. apply H; cbn; lia.
  - intros i j a b Ha Hb Hla Hlb. destruct (Hreg i a Ha) as [Hi Ea], (Hran j b Hb) as [Hj Eb]. assert (0 <= MAX_MMAP_REGIONS + j < SPANS) as Hj' by (unfold MAX_MMAP_REGIONS in *; lia).
    pose proof (so_apart _ Ho i (MAX_MMAP_REGIONS + j) (Hin i Hi) Hj' ltac:(lia)) as H. pose proof (Hnn i (Hin i Hi)). pose proof (Hnn _ Hj'). rewrite Ea, Eb in *. cbn in *. apply H; cbn; lia.
Qed.
End calls.
