(* ===== verification/PagingFrames.v ===== *)
(** Frames under the page tables: what mapping and unmapping a page take from the page allocator and give back. *)

From S2P Require Import Prelude Memory Interfaces Pmm Heap Shm Pci Paging.

Section frames.
Context {PS HS : Type} `{!PageAllocator PS} `{!BlockAllocator HS}.
Implicit Types (s : paging (PS := PS) (HS := HS)).

Definition free s (f : Z) : Prop := pa_free (Shm.frames (sh s)) f.
Definition managed s (f : Z) : Prop := pa_managed (Shm.frames (sh s)) f.
Definition in_tree s (root f : Z) : Prop := exists p, (length p <= 3)%nat /\ node s root p = Some f.

(** No frame is left to hand out. *)
Definition exhausted s : Prop := forall f, is_frame f -> managed s f -> ~ free s f.

(** From [s] to [s'] the tree of [root] only grew, by frames that were free; its leaf tables are as they were. *)
Record grows s s' (root : Z) : Prop := {
  gr_nodes : forall p f, (length p <= 3)%nat -> node s root p = Some f -> node s' root p = Some f;
  gr_leaf : forall i j k f x, node s root [k; j; i] = Some f -> ent s' f x = ent s f x;
  gr_managed : forall f, managed s' f <-> managed s f;
  gr_less : forall f, is_frame f -> free s' f -> free s f;
  gr_used : forall f, is_frame f -> free s f -> free s' f \/ in_tree s' root f;
  gr_fresh : forall p f, (length p <= 3)%nat -> node s' root p = Some f -> node s root p = Some f \/ (is_frame f /\ free s f);
  gr_regions : g_regions (sh s') = g_regions (sh s);
  gr_heap : kheap (sh s') = kheap (sh s);
}.

Lemma grows_refl s root : grows s s root.
Proof. split; try done; [intros f _ H; by left|intros p f _ H; by left]. Qed.

Lemma in_tree_grows s s' root f : grows s s' root -> in_tree s root f -> in_tree s' root f.
Proof. intros Hg (p & Hl & Hp). exists p. split; [done|]. by apply (gr_nodes _ _ _ Hg). Qed.

Lemma grows_trans s1 s2 s3 root : grows s1 s2 root -> grows s2 s3 root -> grows s1 s3 root.
Proof.
  intros H1 H2. split.
  - intros p f Hl Hp. by apply (gr_nodes _ _ _ H2), (gr_nodes _ _ _ H1).
  - intros i j k f x Hp. rewrite (gr_leaf _ _ _ H2 i j k f x), (gr_leaf _ _ _ H1 i j k f x Hp); [done|]. apply (gr_nodes _ _ _ H1); [simpl; lia|done].
  - intros f. by rewrite (gr_managed _ _ _ H2), (gr_managed _ _ _ H1).
  - intros f Hf H. by apply (gr_less _ _ _ H1), (gr_less _ _ _ H2).
  - intros f Hf H. destruct (gr_used _ _ _ H1 f Hf H) as [H'|H']; [by apply (gr_used _ _ _ H2)|right; by apply (in_tree_grows s2)].
  - intros p f Hp Hf. destruct (gr_fresh _ _ _ H2 p f Hp Hf) as [Hf'|[Hfr Hf']]; [by apply (gr_fresh _ _ _ H1)|]. right. split; [done|by apply (gr_less _ _ _ H1)].
  - by rewrite (gr_regions _ _ _ H2), (gr_regions _ _ _ H1).
  - by rewrite (gr_heap _ _ _ H2), (gr_heap _ _ _ H1).
Qed.

Lemma take_frame Q s : pa_wf (Shm.frames (sh s)) -> (exhausted s -> Q 0 s) ->
  (forall n h, is_frame n -> free s n -> managed s n -> pa_wf (Shm.frames h) -> g_regions h = g_regions (sh s) -> kheap h = kheap (sh s) ->
     (forall f, pa_managed (Shm.frames h) f <-> managed s f) -> (forall f, is_frame f -> (pa_free (Shm.frames h) f <-> free s f /\ f <> n)) -> Q n (set_sh h s)) ->
  wp pmm_alloc Q s.
Proof.
  intros Hwf H0 HQ. pose proof (pa_alloc_spec _ Hwf) as Ha. unfold wp, pmm_alloc, on_sh, on_frames in *.
  destruct (pa_alloc (Shm.frames (sh s))) as [[n p]|]; [|done]. cbn. destruct Ha as (Hp & Hm & Ha). destruct Ha as [(H1 & H2 & H3 & H4)|(-> & -> & Hex)].
  - by apply HQ.
  - specialize (H0 Hex). unfold set_sh. by destruct s as [? [] ? ? ? ?].
Qed.

Lemma give_frame Q s f : pa_wf (Shm.frames (sh s)) -> is_frame f -> managed s f ->
  (forall h, pa_wf (Shm.frames h) -> g_regions h = g_regions (sh s) -> kheap h = kheap (sh s) -> (forall a, pa_managed (Shm.frames h) a <-> managed s a) ->
     (forall a, is_frame a -> (pa_free (Shm.frames h) a <-> free s a \/ a = f)) -> Q tt (set_sh h s)) ->
  wp (pmm_release f) Q s.
Proof.
  intros Hwf Hf Hm HQ. pose proof (pa_release_spec _ _ Hwf Hf Hm) as Ha. unfold wp, pmm_release, on_sh, on_frames in *.
  destruct (pa_release f (Shm.frames (sh s))) as [[[] p]|]; [|done]. cbn. destruct Ha as (Hp & Hm' & Ha). by apply HQ.
Qed.

(** A leaf table is not a table closer to the root. *)
Lemma leaf_table_ne s root P f i j k pt : tree_wf s root -> (length P <= 2)%nat -> node s root P = Some f -> node s root [k; j; i] = Some pt -> pt <> f.
Proof.
  intros Hwf Hl Hf Hpt ->. assert (P = [k; j; i]) as -> by (apply (tw_inj _ _ Hwf _ _ f); [lia|simpl; lia|done|done]). simpl in Hl. lia.
Qed.

Lemma install_grows s root f i n e P h g : tree_wf s root -> node s root P = Some f -> (length P <= 2)%nat -> 0 <= i < 512 -> is_frame n -> free s n ->
  pa_wf (Shm.frames h) -> (forall f, is_frame f -> (pa_free (Shm.frames h) f <-> free s f /\ f <> n)) ->
  next (length P) (ent s f i) = None -> next (length P) e = Some n -> ((length P <= 1)%nat -> forall x, has (g x) PAGE_PRESENT = false) ->
  (forall f, pa_managed (Shm.frames h) f <-> managed s f) -> g_regions h = g_regions (sh s) -> kheap h = kheap (sh s) ->
  grows s (filled n g (upd f i e (set_sh h s))) root.
Proof.
  intros Hwf HP Hl Hi Hn Hfree Hpa Hiff Hold Hset Hempty Hm Hg Hk.
  destruct (install_wf s root f i n e P h g Hwf HP Hl Hi Hn Hfree Hpa Hiff Hold Hset Hempty) as (_ & Hch & Hwf' & Hnode & Hkeep). split; try done.
  - intros i0 j0 k0 pt x Hpt. apply Hch.
    + intros ->. apply (free_fresh s root n Hwf Hfree [k0; j0; i0]); [simpl; lia|done].
    + intros [-> _]. by apply (leaf_table_ne s root P f i0 j0 k0 f Hwf Hl HP Hpt).
  - intros a Ha. unfold free at 1. cbn. rewrite Hiff by done. tauto.
  - intros a Ha Hfa. unfold free at 1. cbn. rewrite Hiff by done. destruct (decide (a = n)) as [->|]; [right; exists (i :: P); split; [simpl; lia|done]|by left].
  - intros p a Hp Ha. assert (has_table (filled n g (upd f i e (set_sh h s))) n) as Htn by apply has_table_filled_eq.
    apply (new_node s (filled n g (upd f i e (set_sh h s))) root f i n P) in Ha; try done.
    + destruct Ha as [[_ ->]|Ha]; [by right|by left].
    + by apply (free_fresh s root n Hwf).
    + rewrite ent_filled_ne by (intros ->; apply (free_fresh s root n Hwf Hfree P); [lia|done]). rewrite ent_upd_eq by (done || by apply (tw_tab _ _ Hwf P f ltac:(lia) HP)). done.
    + intros Hl1 x. destruct (decide (0 <= x < 512)); [rewrite ent_filled_eq by done; by apply Hempty|by rewrite ent_filled_out].
    + split; [done|]. cbn. rewrite Hiff by done. tauto.
Qed.

(** The table under a present entry is not frame 0. *)
Lemma next_nonzero s root P f i : tree_wf s root -> node s root P = Some f -> (length P <= 2)%nat -> is_Some (next (length P) (ent s f i)) -> frame_of (ent s f i) <> 0.
Proof.
  intros Hwf HP Hl [t Ht]. assert (node s root (i :: P) = Some t) as Hn by (cbn [node]; rewrite HP; exact Ht).
  destruct (tw_held _ _ Hwf (i :: P) t ltac:(simpl; lia) Hn) as [[? _] _]. revert Ht. unfold next. destruct (has _ _); [|done]. destruct (_ && _); [done|]. intros [= ->]. lia.
Qed.

Lemma goct_grows s root P f i : tree_wf s root -> node s root P = Some f -> (length P <= 2)%nat -> 0 <= i < 512 ->
  (has (ent s f i) PAGE_PRESENT = true -> is_Some (next (length P) (ent s f i))) ->
  wp (get_or_create_table f i true) (fun r s' => grows s s' root /\ (r = 0 -> exhausted s')) s.
Proof.
  intros Hwf HP Hl Hi Hsome. pose proof (tw_tab _ _ Hwf P f ltac:(lia) HP) as Htab. unfold get_or_create_table. wstep. apply wp_rd; [done..|].
  destruct (has (ent s f i) PAGE_PRESENT) eqn:E; cbn [negb]; cbv iota.
  - destruct (user_bit_same s root P f i Hwf HP Hl Hi (Hsome eq_refl)) as (_ & _ & Hn). wstep. apply wp_wr; [done..|]. wstep. apply wp_rd; [by apply has_table_upd|done|]. wstep. rewrite ent_upd_eq, frame_or_user by done.
    pose proof (user_bit_alike s f i Htab Hi) as Ha. split; [|by intros Hz; apply (next_nonzero s root P f i Hwf HP Hl (Hsome eq_refl)) in Hz].
    split; try done; [|intros a _ Hfa; by left|intros p g _; rewrite (node_alike s _ Ha); by left]. intros i0 j0 k0 pt x Hpt. apply ent_upd_ne; [lia|]. intros [-> _]. by apply (leaf_table_ne s root P f i0 j0 k0 f Hwf Hl HP Hpt).
  - wstep. apply take_frame; [apply Hwf| |].
    + intros Hex. rewrite Z.eqb_refl. wstep. split; [apply grows_refl|done].
    + intros n h Hn Hfree _ Hpa Hg Hk Hm Hiff. destruct (Z.eqb_spec n 0); [destruct Hn; lia|]. wstep. apply wp_wr; [done..|]. wstep. apply wp_modify. wstep. split; [|done].
      apply (install_grows s root f i n _ P h (fun _ => 0)); try done; [by apply next_absent|by apply next_paddr].
Qed.

Lemma split_grows s root i j k pd : tree_wf s root -> node s root [j; i] = Some pd -> 0 <= k < 512 ->
  wp (split_huge pd k) (fun b s' => grows s s' root /\ (b = false -> exhausted s')) s.
Proof.
  intros Hwf HP Hk. pose proof (tw_tab _ _ Hwf [j; i] pd ltac:(simpl; lia) HP) as Htab. unfold split_huge. wstep. apply wp_rd; [done..|].
  destruct (has (ent s pd k) PAGE_PRESENT) eqn:E1; cbn [andb]; [|by wstep; split; [apply grows_refl|]]. destruct (has (ent s pd k) PAGE_HUGE) eqn:E2; cbn [andb]; [|by wstep; split; [apply grows_refl|]].
  set (e := ent s pd k) in *. cbv zeta. wstep. apply take_frame; [apply Hwf|intros Hex; rewrite Z.eqb_refl; wstep; by split; [apply grows_refl|]|].
  intros n h Hn Hfree _ Hpa Hg Hkh Hm Hiff. destruct (Z.eqb_spec n 0); [destruct Hn; lia|].
  assert (pd <> n) as Hne by (intros ->; apply (free_fresh s root n Hwf Hfree [j; i]); [simpl; lia|done]).
  wstep. apply wp_modify. wstep. apply wp_wr; [by apply has_table_filled|done|]. wstep. fold (split_flags e).
  change (fun i : Z => paddr_to_entry (u64 (frame_of e + i * 4096)) (Z.lor (split_flags e) PAGE_IDENTITY_SHARED)) with (split_pte e).
  fold (filled n (split_pte e) (set_sh h s)). rewrite upd_filled by done. split; [|done].
  assert (next 2 (paddr_to_entry n (split_flags e)) = Some n) as Hset.
  { unfold next. rewrite frame_paddr, frame_of_frame by done. change PAGE_PRESENT with (2 ^ 0) in *. change PAGE_HUGE with (2 ^ 7). by rewrite !has_paddr, !has_split_flags, E1 by lia. }
  apply (install_grows s root pd k n _ [j; i] h (split_pte e)); try done; [unfold next; fold e; by rewrite E1, E2|simpl; lia].
Qed.

(** * Leaf entries *)

(** The entry of the page of [v] in a leaf table, where there is such a table. *)
Definition leaf s (root v : Z) : option Z :=
  match node s root [PD_INDEX v; PDPT_INDEX v; PML4_INDEX v] with Some pt => Some (ent s pt (PT_INDEX v)) | None => None end.

(** The same without the leaf tables. *)
Record accounts s s' (root : Z) : Prop := {
  ac_nodes : forall p f, (length p <= 3)%nat -> node s root p = Some f -> node s' root p = Some f;
  ac_managed : forall f, managed s' f <-> managed s f;
  ac_less : forall f, is_frame f -> free s' f -> free s f;
  ac_used : forall f, is_frame f -> free s f -> free s' f \/ in_tree s' root f;
  ac_fresh : forall p f, (length p <= 3)%nat -> node s' root p = Some f -> node s root p = Some f \/ (is_frame f /\ free s f);
  ac_regions : g_regions (sh s') = g_regions (sh s);
  ac_heap : kheap (sh s') = kheap (sh s);
}.

Lemma grows_accounts s s' root : grows s s' root -> accounts s s' root.
Proof. by intros []. Qed.

Lemma grows_leaf s s' root v e : grows s s' root -> leaf s root v = Some e -> leaf s' root v = Some e.
Proof.
  intros Hg. unfold leaf. destruct (node s root _) as [pt|] eqn:Hpt; [|done]. intros [= <-].
  rewrite (gr_nodes _ _ _ Hg [PD_INDEX v; PDPT_INDEX v; PML4_INDEX v] pt ltac:(simpl; lia) Hpt). by rewrite (gr_leaf _ _ _ Hg _ _ _ _ _ Hpt).
Qed.

Lemma node_upd_leaf s root i j k pt l e q : tree_wf s root -> node s root [k; j; i] = Some pt -> 0 <= l -> (length q <= 3)%nat -> node (upd pt l e s) root q = node s root q.
Proof.
  intros Hwf HP Hl Hq. assert (fresh s root (-1)) as Hfr.
  { intros p Hp Hn. destruct (tw_held _ _ Hwf p _ Hp Hn) as [[??] _]. lia. }
  apply (node_changed s _ root pt l (-1) [k; j; i]); try done.
  - intros a x _ Hx. by rewrite ent_upd_ne by (done || lia).
  - intros Hs%suffix_length. simpl in Hs. lia.
Qed.

Lemma page_of_eq v v' : PML4_INDEX v' = PML4_INDEX v -> PDPT_INDEX v' = PDPT_INDEX v -> PD_INDEX v' = PD_INDEX v -> PT_INDEX v' = PT_INDEX v -> page_of v' = page_of v.
Proof. unfold page_of. by intros -> -> -> ->. Qed.

Lemma leaf_upd s root v pt e v' : tree_wf s root -> node s root [PD_INDEX v; PDPT_INDEX v; PML4_INDEX v] = Some pt ->
  leaf (upd pt (PT_INDEX v) e s) root v' = if decide (page_of v' = page_of v) then Some e else leaf s root v'.
Proof.
  intros Hwf Hpt. pose proof (index_range (Z.shiftr v 12)) as Hl. fold (PT_INDEX v) in Hl. unfold leaf. rewrite (node_upd_leaf s root _ _ _ pt _ e _ Hwf Hpt) by (simpl; lia).
  pose proof (tw_tab _ _ Hwf [PD_INDEX v; PDPT_INDEX v; PML4_INDEX v] pt ltac:(simpl; lia) Hpt) as Htab. case_decide as Hp.
  - unfold page_of in Hp. injection Hp as E1 E2 E3 E4. rewrite E1, E2, E3, E4, Hpt. by rewrite ent_upd_eq.
  - destruct (node s root [PD_INDEX v'; _; _]) as [pt'|] eqn:Hpt'; [|done]. rewrite ent_upd_ne; [done|lia|]. intros [-> Hx]. apply Hp.
    pose proof (tw_inj _ _ Hwf [PD_INDEX v; PDPT_INDEX v; PML4_INDEX v] [PD_INDEX v'; PDPT_INDEX v'; PML4_INDEX v'] pt ltac:(simpl; lia) ltac:(simpl; lia) Hpt Hpt') as E. injection E as E1 E2 E3. by apply page_of_eq.
Qed.

Lemma upd_accounts s s1 root i j k pt l e : tree_wf s1 root -> grows s s1 root -> node s1 root [k; j; i] = Some pt -> 0 <= l -> accounts s (upd pt l e s1) root.
Proof.
  intros Hwf Hg Hpt Hl. assert (forall q, (length q <= 3)%nat -> node (upd pt l e s1) root q = node s1 root q) as Hn by (intros q Hq; by apply (node_upd_leaf s1 root i j k)).
  destruct Hg as [G1 _ G3 G4 G5 G6 G7 G8]. split; try done.
  - intros p f Hp Hf. rewrite Hn by done. by apply G1.
  - intros f Hf H. destruct (G5 f Hf H) as [?|(p & Hp & Hpf)]; [by left|right]. exists p. split; [done|]. by rewrite Hn.
  - intros p f Hp. rewrite Hn by done. by apply G6.
Qed.

(** The entry that [map_page_in_pml4] writes. *)
Definition new_leaf (phys flags : Z) : Z := Z.lor (Z.lor (Z.land phys FRAME_MASK) (Z.land flags 0xFFF)) PAGE_PRESENT.

Lemma wp_both {A} (m : M (paging (PS := PS) (HS := HS)) A) P Q s : wp m P s -> wp m Q s -> wp m (fun a s' => P a s' /\ Q a s') s.
Proof. unfold wp. destruct (m s) as [[a s']|]; [|done]. by split. Qed.

Lemma goct_both s root P f i : tree_wf s root -> node s root P = Some f -> (length P <= 2)%nat -> 0 <= i < 512 ->
  (has (ent s f i) PAGE_PRESENT = true -> is_Some (next (length P) (ent s f i))) ->
  wp (get_or_create_table f i true) (fun r s' => (same s s' root /\ cr3 s' = cr3 s /\ (r = 0 \/ (r <> 0 /\ node s' root (i :: P) = Some r))) /\ (grows s s' root /\ (r = 0 -> exhausted s'))) s.
Proof. intros. apply wp_both; [by apply get_or_create_table_same|by apply (goct_grows s root P)]. Qed.

Lemma map_page_steps s root virt phys flags : tree_wf s root -> wp (map_page_in_pml4 root virt phys flags) (fun r s' => (r = -1 /\ grows s s' root /\ exhausted s') \/
  (r = 0 /\ exists s1 pt, tree_wf s1 root /\ grows s s1 root /\ node s1 root [PD_INDEX virt; PDPT_INDEX virt; PML4_INDEX virt] = Some pt /\
    s' = upd pt (PT_INDEX virt) (new_leaf phys flags) s1)) s.
Proof.
  intros Hwf. unfold map_page_in_pml4. wstep. eapply wp_mono; [apply (goct_both s root []); [done|done|simpl; lia|apply index_range|]|].
  { intros. by apply next_some. }
  intros pdpt s1 [(S1 & _ & H1) [G1 X1]]. destruct (Z.eqb_spec pdpt 0) as [->|Hn1]; [wstep; left; by auto|]. destruct H1 as [|[_ N1]]; [done|].
  wstep. eapply wp_mono; [apply (goct_both s1 root [PML4_INDEX virt]); [apply S1|done|simpl; lia|apply index_range|]|].
  { intros. by apply next_some. }
  intros pd s2 [(S2 & _ & H2) [G2 X2]]. assert (grows s s2 root) as G02 by by apply (grows_trans s s1). destruct (Z.eqb_spec pd 0) as [->|Hn2]; [wstep; left; by auto|]. destruct H2 as [|[_ N2]]; [done|].
  cbv zeta. wstep. eapply wp_mono; [apply wp_both; [apply (split_huge_same s2 root (PML4_INDEX virt) (PDPT_INDEX virt)); [apply S2|done|apply index_range]|apply (split_grows s2 root (PML4_INDEX virt) (PDPT_INDEX virt)); [apply S2|done|apply index_range]]|].
  intros b s3 [(S3 & _ & Hb) [G3 X3]]. assert (grows s s3 root) as G03 by by apply (grows_trans s s2). destruct b; cbn [negb]; [|wstep; left; by auto].
  assert (node s3 root [PDPT_INDEX virt; PML4_INDEX virt] = Some pd) as N3 by (apply S3; [simpl; lia|done]).
  wstep. eapply wp_mono; [apply (goct_both s3 root [PDPT_INDEX virt; PML4_INDEX virt]); [apply S3|done|simpl; lia|apply index_range|]|].
  { intros. apply next_some; auto. }
  intros pt s4 [(S4 & _ & H4) [G4 X4]]. assert (grows s s4 root) as G04 by by apply (grows_trans s s3). destruct (Z.eqb_spec pt 0) as [->|Hn4]; [wstep; left; by auto|]. destruct H4 as [|[_ N4]]; [done|].
  wstep. apply wp_wr; [eapply (tw_tab _ _ (proj1 S4)); [|exact N4]; simpl; lia|apply index_range|]. wstep. right. split; [done|]. exists s4, pt. split; [apply S4|]. split_and!; done.
Qed.

Record map_effect s (root virt phys flags r : Z) s' : Prop := {
  me_wf : tree_wf s' root;
  me_cr3 : cr3 s' = cr3 s;
  me_result : r = 0 \/ r = -1;
  me_translate : forall v, r = -1 \/ page_of v <> page_of virt -> translate s' root v = translate s root v;
  me_mapped : r = 0 -> translate s' root virt = Some (frame_of phys, rights flags) /\ leaf s' root virt = Some (new_leaf phys flags);
  me_leaf : forall v e, r = -1 \/ page_of v <> page_of virt -> leaf s root v = Some e -> leaf s' root v = Some e;
  me_accounts : accounts s s' root;
  me_full : r = -1 -> exhausted s';
}.

Lemma map_page_frames s root virt phys flags : tree_wf s root -> wp (map_page_in_pml4 root virt phys flags) (map_effect s root virt phys flags) s.
Proof.
  intros Hwf. pose proof (map_page_steps s root virt phys flags Hwf) as H2. destruct (wp_inv _ _ _ (map_page_in_pml4_outcome s root virt phys flags Hwf)) as (r & s' & E & W & C & H). pose proof (wp_run _ _ _ _ _ H2 E) as H2'.
    eapply wp_Some; [exact E|]. assert (r = 0 \/ r = -1) as Hr by naive_solver. split; [done|done|done| | | | |].
    - unfold translate. intros v Hv. destruct H as [[-> H]|(-> & _ & H)]; [by rewrite H|]. destruct Hv; [done|by apply H].
    - intros ->. destruct H as [[? _]|(_ & H & _)]; [done|]. split; [done|]. destruct H2' as [(? & _ & _)|(_ & s1 & pt & W1 & _ & Hpt & ->)]; [done|].
      rewrite (leaf_upd s1) by done. by rewrite decide_True.
    - intros v e Hv He. destruct H2' as [(-> & Hg & _)|(-> & s1 & pt & W1 & Hg & Hpt & ->)]; [by apply (grows_leaf s)|]. destruct Hv as [|Hv]; [done|].
      rewrite (leaf_upd s1) by done. rewrite decide_False by done. by apply (grows_leaf s).
    - destruct H2' as [(-> & Hg & _)|(-> & s1 & pt & W1 & Hg & Hpt & ->)]; [by apply grows_accounts|].
      eapply (upd_accounts s s1); [done|done|exact Hpt|]. pose proof (index_range (Z.shiftr virt 12)) as Hl. fold (PT_INDEX virt) in Hl. lia.
    - intros ->. destruct H2' as [(_ & _ & Hx)|[? _]]; done.
Qed.

(** * Unmapping *)

(** A page whose frame belongs to it alone: [unmap_page] hands the frame back. *)
Record owned s (root e : Z) : Prop := {
  ow_shared : has e PAGE_MMAP_SHARED = false;
  ow_nofree : has e PAGE_MMIO_NOFREE = false;
  ow_frame : is_frame (frame_of e);
  ow_managed : managed s (frame_of e);
  ow_fresh : ~ in_tree s root (frame_of e);
}.

Record unmap_effect s (root v f : Z) s' : Prop := {
  ue_wf : tree_wf s' root;
  ue_cr3 : cr3 s' = cr3 s;
  ue_page : translate s' root v = None;
  ue_translate : forall v', page_of v' <> page_of v -> translate s' root v' = translate s root v';
  ue_leaf : forall v', page_of v' <> page_of v -> leaf s' root v' = leaf s root v';
  ue_nodes : forall p, (length p <= 3)%nat -> node s' root p = node s root p;
  ue_managed : forall a, managed s' a <-> managed s a;
  ue_free : forall a, is_frame a -> (free s' a <-> free s a \/ a = f);
  ue_regions : g_regions (sh s') = g_regions (sh s);
  ue_heap : kheap (sh s') = kheap (sh s);
}.

Lemma unmap_page_frames s v e : tree_wf s (cr3 s) -> leaf s (cr3 s) v = Some e -> owned s (cr3 s) e ->
  wp (unmap_page v) (fun _ s' => unmap_effect s (cr3 s) v (frame_of e) s') s.
Proof.
  intros Hwf He [Hs Hn Hf Hm Hfr]. unfold leaf in He. destruct (node s (cr3 s) _) as [pt|] eqn:Hpt; [|done]. injection He as He.
  apply (unmap_walk s v pt _ Hwf Hpt). rewrite He. pose proof Hf as [Hf0 _]. rewrite (proj2 (Z.eqb_neq _ 0)) by lia. cbn [negb]. wstep. unfold release_leaf. rewrite Hs, Hn.
  apply give_frame; [apply Hwf|done|done|]. intros h Hpa Hg Hk Hmh Hfh.
  assert (has_table (set_sh h s) pt) as Ht by (eapply (tw_tab _ _ Hwf); [|exact Hpt]; simpl; lia).
  apply wp_wr; [exact Ht|apply index_range|]. assert (tree_wf (set_sh h s) (cr3 s)) as Wh.
  { apply (release_wf s (cr3 s) (frame_of e)); [done| |done|done]. intros p Hp Hnp. apply Hfr. by exists p. }
  assert (node (set_sh h s) (cr3 s) [PD_INDEX v; PDPT_INDEX v; PML4_INDEX v] = Some pt) as Hpt' by (rewrite node_sh; exact Hpt).
  destruct (leaf_write _ (cr3 s) _ _ _ (PT_INDEX v) pt 0 Wh Hpt' (index_range _)) as (W & X & O). pose proof (index_range (Z.shiftr v 12)) as Hl. fold (PT_INDEX v) in Hl.
  split; try done.
  - intros v' Hv. by apply O.
  - intros v' Hv. rewrite (leaf_upd (set_sh h s)), decide_False by done. unfold leaf. by rewrite node_sh.
  - intros p Hp. rewrite (node_upd_leaf (set_sh h s) _ _ _ _ _ _ _ _ Wh Hpt') by (done || lia). by rewrite node_sh.
Qed.
End frames.
