(* ===== verification/MmapPages.v ===== *)
(** Runs of pages: mapping fresh frames one after the other, and unmapping them. *)

From S2P Require Import Prelude Memory Interfaces Pmm Heap Shm Pci Paging PagingFrames Driver Mmap MmapSpace.

(** * Addresses of pages *)

Lemma index_div v k : 0 <= v -> 0 <= k -> Z.land (Z.shiftr v k) 0x1FF = (v / 2 ^ k) mod 512.
Proof. intros Hv Hk. change 0x1FF with (Z.ones 9). by rewrite Z.land_ones, Z.shiftr_div_pow2 by lia. Qed.

(** Below 2^48 the indices of the walk tell pages apart. *)
Lemma page_of_inj a b : 0 <= a < 2 ^ 48 -> 0 <= b < 2 ^ 48 -> page_of a = page_of b -> a / 4096 = b / 4096.
Proof.
  intros Ha Hb. unfold page_of, PT_INDEX, PD_INDEX, PDPT_INDEX, PML4_INDEX. rewrite !index_div by lia. intros [= E1 E2 E3 E4].
  assert (forall v, 0 <= v < 2 ^ 48 -> v / 4096 = (((v / 2 ^ 39) mod 512 * 512 + (v / 2 ^ 30) mod 512) * 512 + (v / 2 ^ 21) mod 512) * 512 + (v / 2 ^ 12) mod 512) as Hv.
  { intros v Hv. assert (forall k, 0 <= k -> v / 2 ^ (k + 9) = v / 2 ^ k / 512) as Hd by (intros k Hk; rewrite Z.pow_add_r, Z.div_div by lia; done).
    pose proof (Hd 12 ltac:(lia)) as D1. pose proof (Hd 21 ltac:(lia)) as D2. pose proof (Hd 30 ltac:(lia)) as D3. cbn [Z.add] in D1, D2, D3.
    replace (12 + 9) with 21 in D1 by lia. replace (21 + 9) with 30 in D2 by lia. replace (30 + 9) with 39 in D3 by lia.
    assert (v / 2 ^ 39 < 512) by (apply Z.div_lt_upper_bound; lia). assert (0 <= v / 2 ^ 39) by (apply Z.div_pos; lia).
    rewrite (Z.mod_small (v / 2 ^ 39)) by lia. change 4096 with (2 ^ 12).
    pose proof (Z.div_mod (v / 2 ^ 30) 512 ltac:(lia)). pose proof (Z.div_mod (v / 2 ^ 21) 512 ltac:(lia)). pose proof (Z.div_mod (v / 2 ^ 12) 512 ltac:(lia)).
    rewrite D3, D2, D1 in *. lia. }
  by rewrite (Hv a Ha), (Hv b Hb), E1, E2, E3, E4.
Qed.

(** Page [i] of a run. *)
Definition pg_at (base i : Z) : Z := base + 4096 * i.

Lemma pg_at_ne base i j : 0 <= base -> base mod 4096 = 0 -> 0 <= i -> 0 <= j -> pg_at base i < 2 ^ 48 -> pg_at base j < 2 ^ 48 -> i <> j -> page_of (pg_at base i) <> page_of (pg_at base j).
Proof.
  unfold pg_at. intros Hb Hm Hi Hj Hib Hjb Hne E%page_of_inj; [|lia..]. rewrite !(Z.mul_comm 4096), !Z.div_add in E by lia. lia.
Qed.

Lemma has_new_leaf phys flags k : 0 < k < 12 -> has (new_leaf phys flags) (2 ^ k) = has flags (2 ^ k).
Proof.
  intros Hk. rewrite <- (has_paddr phys flags) by lia. unfold new_leaf. fold (paddr_to_entry phys flags). rewrite !has_testbit by lia. rewrite Z.lor_spec.
  change PAGE_PRESENT with (2 ^ 0). rewrite Z.pow2_bits_false by lia. apply orb_false_r.
Qed.

Lemma frame_new_leaf f flags : is_frame f -> frame_of (new_leaf f flags) = f.
Proof. intros Hf. destruct (leaf_entry f flags) as (_ & H & _). unfold new_leaf. rewrite H. by apply frame_of_frame. Qed.

Section run.
Context {PS HS : Type} `{!PageAllocator PS} `{!ContiguousAllocator PS} `{!BlockAllocator HS}.
Implicit Types (s : mm (PS := PS) (HS := HS)).

Definition outside (base n v : Z) : Prop := forall i, 0 <= i < n -> page_of v <> page_of (pg_at base i).

(** The pages from [base] are the frames [l], with these flags, and belong to nobody else. *)
Record run_of s (root base : Z) (l : list Z) (flags : Z) : Prop := {
  ru_leaf : forall i f, zget l i = Some f -> leaf (pg s) root (pg_at base i) = Some (new_leaf f flags) /\ translate (pg s) root (pg_at base i) = Some (f, rights flags);
  ru_nodup : NoDup l;
  ru_own : forall f, f ∈ l -> is_frame f /\ managed (pg s) f /\ ~ free (pg s) f /\ ~ in_tree (pg s) root f;
}.

(** What mapping the run changed. *)
Record run_effect s (root base : Z) (l : list Z) (flags : Z) (s' : mm) : Prop := {
  re_wf : tree_wf (pg s') root;
  re_cr3 : cr3 (pg s') = cr3 (pg s);
  re_proc : current_process s' = current_process s;
  re_drv : drv s' = drv s;
  re_run : run_of s' root base l flags;
  re_was : forall f, f ∈ l -> free (pg s) f;
  re_zero : forall f, f ∈ l -> ram s' !! f = Some (replicate 4096 0);
  re_ram : forall f, f ∉ l -> ram s' !! f = ram s !! f;
  re_translate : forall v, outside base (zlen l) v -> translate (pg s') root v = translate (pg s) root v;
  re_leaf : forall v e, outside base (zlen l) v -> leaf (pg s) root v = Some e -> leaf (pg s') root v = Some e;
  re_nodes : forall p f, (length p <= 3)%nat -> node (pg s) root p = Some f -> node (pg s') root p = Some f;
  re_managed : forall f, managed (pg s') f <-> managed (pg s) f;
  re_less : forall f, is_frame f -> free (pg s') f -> free (pg s) f;
  re_used : forall f, is_frame f -> free (pg s) f -> free (pg s') f \/ in_tree (pg s') root f \/ f ∈ l;
  re_fresh : forall p f, (length p <= 3)%nat -> node (pg s') root p = Some f -> node (pg s) root p = Some f \/ (is_frame f /\ free (pg s) f);
  re_regions : g_regions (sh (pg s')) = g_regions (sh (pg s));
  re_heap : kheap (sh (pg s')) = kheap (sh (pg s));
}.

Definition with_pg (p : paging) s : mm (PS := PS) (HS := HS) := mk_mm p (drv s) (ram s) (current_process s).

Lemma wp_pg {A} (m : M paging A) Q s : wp m (fun a p => Q a (with_pg p s)) (pg s) -> wp (on_pg m) Q s.
Proof. unfold wp, on_pg. destruct (m (pg s)) as [[a p]|]; [|done]. done. Qed.

Lemma empty_effect s root base flags : tree_wf (pg s) root -> run_effect s root base [] flags s.
Proof.
  intros Hwf. split; try done.
  - split; [intros i f Hf; by rewrite zget_empty in Hf|constructor|intros f Hf; by apply elem_of_nil in Hf].
  - intros f Hf. by apply elem_of_nil in Hf.
  - intros f Hf. by apply elem_of_nil in Hf.
  - intros f _ Hf. by left.
  - intros p f _ Hp. by left.
Qed.

(** Nothing mapped, at most new tables. *)
Lemma accounts_effect s p root base flags : tree_wf p root -> cr3 p = cr3 (pg s) -> (forall v, translate p root v = translate (pg s) root v) ->
  (forall v e, leaf (pg s) root v = Some e -> leaf p root v = Some e) -> accounts (pg s) p root -> run_effect s root base [] flags (with_pg p s).
Proof.
  intros Hwf Hc Ht Hl [A1 A2 A3 A4 A5 A6 A7]. split; try done.
  - split; [intros i f Hf; by rewrite zget_empty in Hf|constructor|intros f Hf; by apply elem_of_nil in Hf].
  - intros f Hf. by apply elem_of_nil in Hf.
  - intros f Hf. by apply elem_of_nil in Hf.
  - intros v e _. apply Hl.
  - intros f Hf H. destruct (A4 f Hf H); auto.
Qed.

Lemma pg_at_next base i : pg_at (base + 4096) i = pg_at base (i + 1).
Proof. unfold pg_at. lia. Qed.

(** One page, and then a run behind it. *)
Lemma cons_effect s s2 s' root base f l flags : 0 <= base -> base mod 4096 = 0 -> base + 4096 * zlen (f :: l) <= USER_END ->
  run_effect s root base [f] flags s2 -> run_effect s2 root (base + 4096) l flags s' -> run_effect s root base (f :: l) flags s'.
Proof.
  intros Hb Hm Hfit E1 E2. pose proof (zlen_nonneg l) as Hl. rewrite zlen_cons in Hfit. unfold USER_END in Hfit.
  assert (forall v, outside base (zlen (f :: l)) v -> outside base 1 v /\ outside (base + 4096) (zlen l) v) as Hout.
  { intros v Hv. rewrite zlen_cons in Hv. split; [intros i Hi; apply Hv; lia|]. intros i Hi. rewrite pg_at_next. apply Hv. lia. }
  assert (f ∉ l) as Hfl.
  { intros Hin. destruct (ru_own _ _ _ _ _ (re_run _ _ _ _ _ _ E1) f) as (_ & _ & Hnf & _); [by left|]. by apply Hnf, (re_was _ _ _ _ _ _ E2). }
  assert (zget (f :: l) 0 = Some f) as H0 by done.
  assert (outside (base + 4096) (zlen l) (pg_at base 0)) as Hfirst by (intros i Hi; rewrite pg_at_next; apply pg_at_ne; unfold pg_at; lia).
  destruct (ru_leaf _ _ _ _ _ (re_run _ _ _ _ _ _ E1) 0 f eq_refl) as [L1 T1]. split.
  - apply E2.
  - by rewrite (re_cr3 _ _ _ _ _ _ E2), (re_cr3 _ _ _ _ _ _ E1).
  - by rewrite (re_proc _ _ _ _ _ _ E2), (re_proc _ _ _ _ _ _ E1).
  - by rewrite (re_drv _ _ _ _ _ _ E2), (re_drv _ _ _ _ _ _ E1).
  - split.
    + intros i g Hg. pose proof (zget_range _ _ _ Hg) as Hi. destruct (decide (i = 0)) as [->|Hne].
      * rewrite H0 in Hg. injection Hg as <-. split; [by apply (re_leaf _ _ _ _ _ _ E2)|]. by rewrite (re_translate _ _ _ _ _ _ E2).
      * replace i with (i - 1 + 1) in Hg |- * by lia. rewrite zget_cons_S in Hg by lia. rewrite <- pg_at_next. by apply (ru_leaf _ _ _ _ _ (re_run _ _ _ _ _ _ E2)).
    + constructor; [done|apply (re_run _ _ _ _ _ _ E2)].
    + intros g [->|Hg]%elem_of_cons; [|by apply (ru_own _ _ _ _ _ (re_run _ _ _ _ _ _ E2))].
      destruct (ru_own _ _ _ _ _ (re_run _ _ _ _ _ _ E1) f) as (H1 & H2 & H3 & H4); [by left|]. split; [done|]. split; [by apply (re_managed _ _ _ _ _ _ E2)|]. split.
      * intros Hfree. by apply H3, (re_less _ _ _ _ _ _ E2).
      * intros (p & Hp & Hn). destruct (re_fresh _ _ _ _ _ _ E2 p f Hp Hn) as [Ho|[_ Hfree]]; [|done]. apply H4. by exists p.
  - intros g [->|Hg]%elem_of_cons; [apply (re_was _ _ _ _ _ _ E1); by left|]. destruct (ru_own _ _ _ _ _ (re_run _ _ _ _ _ _ E2) g Hg) as (Hgf & _).
    by apply (re_less _ _ _ _ _ _ E1), (re_was _ _ _ _ _ _ E2).
  - intros g [->|Hg]%elem_of_cons; [|by apply (re_zero _ _ _ _ _ _ E2)]. rewrite (re_ram _ _ _ _ _ _ E2) by done. apply (re_zero _ _ _ _ _ _ E1). by left.
  - intros g Hg. rewrite (re_ram _ _ _ _ _ _ E2), (re_ram _ _ _ _ _ _ E1); [done|rewrite list_elem_of_singleton; set_solver|set_solver].
  - intros v Hv. destruct (Hout v Hv) as [Hv1 Hv2]. by rewrite (re_translate _ _ _ _ _ _ E2), (re_translate _ _ _ _ _ _ E1).
  - intros v e Hv He. destruct (Hout v Hv) as [Hv1 Hv2]. apply (re_leaf _ _ _ _ _ _ E2); [done|]. by apply (re_leaf _ _ _ _ _ _ E1).
  - intros p g Hp Hg. by apply (re_nodes _ _ _ _ _ _ E2), (re_nodes _ _ _ _ _ _ E1).
  - intros g. by rewrite (re_managed _ _ _ _ _ _ E2), (re_managed _ _ _ _ _ _ E1).
  - intros g Hg H. by apply (re_less _ _ _ _ _ _ E1), (re_less _ _ _ _ _ _ E2).
  - intros g Hg H. destruct (re_used _ _ _ _ _ _ E1 g Hg H) as [H'|[(p & Hp & Hpg)|H']].
    + destruct (re_used _ _ _ _ _ _ E2 g Hg H') as [?|[?|?]]; [by left|right; by left|right; right; by right].
    + right. left. exists p. split; [done|]. by apply (re_nodes _ _ _ _ _ _ E2).
    + right. right. apply list_elem_of_singleton in H' as ->. by left.
  - intros p g Hp Hg. destruct (re_fresh _ _ _ _ _ _ E2 p g Hp Hg) as [Ho|[Hgf Ho]]; [by apply (re_fresh _ _ _ _ _ _ E1)|]. right. split; [done|]. by apply (re_less _ _ _ _ _ _ E1).
  - by rewrite (re_regions _ _ _ _ _ _ E2), (re_regions _ _ _ _ _ _ E1).
  - by rewrite (re_heap _ _ _ _ _ _ E2), (re_heap _ _ _ _ _ _ E1).
Qed.

Lemma with_pg_id s : with_pg (pg s) s = s.
Proof. by destruct s. Qed.

(** Taking a frame from the allocator keeps the tables. *)
Lemma take_wf (p : paging (PS := PS) (HS := HS)) root h f : tree_wf p root -> pa_wf (Shm.frames h) ->
  (forall a, is_frame a -> (pa_free (Shm.frames h) a <-> free p a /\ a <> f)) -> tree_wf (set_sh h p) root.
Proof.
  intros [H1 H2 H3 H4 H5] Hpa Hiff. constructor; [done|intros *; rewrite ?node_sh..]; [apply H2|apply H3| |apply H5].
  intros Hl Hp. destruct (H4 _ _ Hl Hp) as [Ha Hna]. split; [done|]. cbn. rewrite Hiff by done. by intros [? _].
Qed.

Lemma wp_zero_page s root v f r Q : tree_wf (pg s) root -> cr3 (pg s) = root -> is_frame f -> v < 2 ^ 47 -> v mod 4096 = 0 -> translate (pg s) root v = Some (f, r) ->
  Q tt (mk_mm (pg s) (drv s) (<[f := replicate 4096 0]> (ram s)) (current_process s)) -> wp (zero_page v) Q s.
Proof.
  intros Hwf Hc Hf Hlow Hv Ht HQ. unfold zero_page, canonical. rewrite (proj2 (Z.ltb_lt _ _) Hlow). cbn [orb negb]. wstep. apply wp_pg. unfold get_physical_address, get_current_pml4. wstep. wstep. rewrite Hc.
  eapply wp_Some; [by apply get_physical_address_walk|]. unfold phys_of. rewrite Ht. change 0xFFF with (Z.ones 12). rewrite Z.land_ones by lia. change (2 ^ 12) with 4096. rewrite Hv, Z.add_0_r.
  destruct Hf as [Hf _]. rewrite u64_small by (unfold is_u64; lia). rewrite (proj2 (Z.eqb_neq f 0)) by lia. rewrite with_pg_id. apply wp_modify. exact HQ.
Qed.

(** One page of a frame just taken. *)
Lemma fresh_page_effect s root v f h flags p2 : tree_wf (pg s) root -> is_frame f -> free (pg s) f -> managed (pg s) f ->
  g_regions h = g_regions (sh (pg s)) -> kheap h = kheap (sh (pg s)) -> (forall a, pa_managed (Shm.frames h) a <-> managed (pg s) a) ->
  (forall a, is_frame a -> (pa_free (Shm.frames h) a <-> free (pg s) a /\ a <> f)) -> tree_wf (set_sh h (pg s)) root -> map_effect (set_sh h (pg s)) root v f flags 0 p2 ->
  run_effect s root v [f] flags (mk_mm p2 (drv s) (<[f := replicate 4096 0]> (ram s)) (current_process s)).
Proof.
  intros Hwf Hf Hfree Hman Hg Hk Hm Hiff Hwf1 [M1 M2 _ M4 M5 M6 [A1 A2 A3 A4 A5 A6 A7] MX]. destruct (M5 eq_refl) as [T L].
  assert (forall v', outside v (zlen [f]) v' -> page_of v' <> page_of v) as Hout.
  { intros v' Ho. specialize (Ho 0 ltac:(unfold zlen; cbn; lia)). unfold pg_at in Ho. by rewrite Z.mul_0_r, Z.add_0_r in Ho. }
  assert (~ free p2 f) as Hnf by (intros Hx; apply (A3 f Hf) in Hx; unfold free in Hx; cbn in Hx; apply Hiff in Hx; naive_solver).
  split; cbn [pg drv ram current_process]; try done.
  - split.
    + intros i g Hi. pose proof (zget_range _ _ _ Hi) as Hr. change (zlen [f]) with 1 in Hr. assert (i = 0) as -> by lia. injection Hi as <-.
      unfold pg_at. rewrite Z.mul_0_r, Z.add_0_r. split; [done|]. cbn [pg]. by rewrite T, frame_of_frame.
    + apply NoDup_singleton.
    + intros g ->%list_elem_of_singleton. split; [done|]. split; [cbn; rewrite A2; unfold managed; cbn; by apply Hm|]. split; [done|]. intros (q & Hq & Hn).
      destruct (A5 q f Hq Hn) as [Ho|[_ Ho]]; [|unfold free in Ho; cbn in Ho; apply Hiff in Ho; naive_solver]. rewrite node_sh in Ho. by apply (free_fresh (pg s) root f Hwf Hfree q).
  - by intros g ->%list_elem_of_singleton.
  - intros g ->%list_elem_of_singleton. apply lookup_insert_eq.
  - intros g Hg'. apply lookup_insert_ne. intros ->. apply Hg'. by left.
  - intros v' Ho. rewrite M4 by (right; by apply Hout). by apply (xlate_alike (pg s)).
  - intros v' e Ho He. apply M6; [right; by apply Hout|]. unfold leaf. by rewrite node_sh.
  - intros q g Hq Hn. apply A1; [done|]. by rewrite node_sh.
  - intros g. rewrite A2. apply Hm.
  - intros g Hg' H. apply A3 in H; [|done]. unfold free in H. cbn in H. apply Hiff in H; naive_solver.
  - intros g Hg' H. destruct (decide (g = f)) as [->|Hne]; [right; right; by left|]. destruct (A4 g Hg') as [?|?]; [unfold free; cbn; by apply Hiff|by left|right; by left].
  - intros q g Hq Hn. destruct (A5 q g Hq Hn) as [Ho|[Hgf Ho]]; [left; by rewrite node_sh in Ho|]. right. split; [done|]. unfold free in Ho. cbn in Ho. apply Hiff in Ho; naive_solver.
  - by rewrite A6.
  - by rewrite A7.
Qed.

(** A page that could not be mapped: its frame goes back. *)
Lemma failed_page_effect s root v f h flags p2 h3 : tree_wf (pg s) root -> is_frame f -> free (pg s) f ->
  g_regions h = g_regions (sh (pg s)) -> kheap h = kheap (sh (pg s)) -> (forall a, pa_managed (Shm.frames h) a <-> managed (pg s) a) ->
  (forall a, is_frame a -> (pa_free (Shm.frames h) a <-> free (pg s) a /\ a <> f)) -> map_effect (set_sh h (pg s)) root v f flags (-1) p2 ->
  pa_wf (Shm.frames h3) -> g_regions h3 = g_regions (sh p2) -> kheap h3 = kheap (sh p2) -> (forall a, pa_managed (Shm.frames h3) a <-> managed p2 a) ->
  (forall a, is_frame a -> (pa_free (Shm.frames h3) a <-> free p2 a \/ a = f)) -> run_effect s root v [] flags (with_pg (set_sh h3 p2) s).
Proof.
  intros Hwf Hf Hfree Hg Hk Hm Hiff [M1 M2 _ M4 _ M6 [A1 A2 A3 A4 A5 A6 A7] MX] Hpa Hg3 Hk3 Hm3 Hiff3.
  assert (~ in_tree p2 root f) as Hnt.
  { intros (q & Hq & Hn). destruct (A5 q f Hq Hn) as [Ho|[_ Ho]]; [|unfold free in Ho; cbn in Ho; apply Hiff in Ho; naive_solver]. rewrite node_sh in Ho. by apply (free_fresh (pg s) root f Hwf Hfree q). }
  apply accounts_effect.
  - apply (release_wf p2 root f h3); [done| |done|done]. intros q Hq Hn. apply Hnt. by exists q.
  - done.
  - intros v'. rewrite <- (M4 v' (or_introl eq_refl)) at 1. by apply (xlate_alike p2).
  - intros v' e He. unfold leaf. rewrite node_sh. change (ent (set_sh h3 p2)) with (ent p2). apply M6; [by left|]. unfold leaf. by rewrite node_sh.
  - split.
    + intros q g Hq Hn. rewrite node_sh. apply A1; [done|]. by rewrite node_sh.
    + intros g. unfold managed at 1. cbn. rewrite Hm3, A2. apply Hm.
    + intros g Hg' H. unfold free in H. cbn in H. apply Hiff3 in H; [|done]. destruct H as [H| ->]; [|done]. apply A3 in H; [|done]. unfold free in H. cbn in H. apply Hiff in H; naive_solver.
    + intros g Hg' H. unfold free at 1. cbn. rewrite Hiff3 by done. destruct (decide (g = f)) as [->|Hne]; [left; by right|].
      destruct (A4 g Hg') as [?|(q & Hq & Hn)]; [unfold free; cbn; by apply Hiff|left; by left|right]. exists q. split; [done|]. by rewrite node_sh.
    + intros q g Hq. rewrite node_sh. intros Hn. destruct (A5 q g Hq Hn) as [Ho|[Hgf Ho]]; [left; by rewrite node_sh in Ho|]. right. split; [done|]. unfold free in Ho. cbn in Ho. apply Hiff in Ho; naive_solver.
    + cbn. by rewrite Hg3, A6.
    + cbn. by rewrite Hk3, A7.
Qed.

(** What a run that stopped early says: the frames free before were at most the pages asked for, but for those that became tables. *)
Definition ran_out s (root n : Z) (s' : mm (PS := PS) (HS := HS)) : Prop :=
  exists l : list Z, zlen l <= n /\ forall f, is_frame f -> managed (pg s) f -> free (pg s) f -> f ∈ l \/ in_tree (pg s') root f.

Lemma ran_out_next s root v f flags s1 n s2 l : run_effect s root v [f] flags s1 -> run_effect s1 root (v + 4096) l flags s2 -> ran_out s1 root n s2 -> ran_out s root (n + 1) s2.
Proof.
  intros E1 E2 (k & Hk & H). exists (f :: k : list Z). rewrite zlen_cons. split; [lia|]. intros g Hg Hm Hf. rewrite elem_of_cons.
  destruct (re_used _ _ _ _ _ _ E1 g Hg Hf) as [H'|[(p & Hp & Hn)|H']].
  - destruct (H g Hg) as [?|?]; [by apply (re_managed _ _ _ _ _ _ E1)|done|left; by right|by right].
  - right. exists p. split; [done|]. by apply (re_nodes _ _ _ _ _ _ E2).
  - apply list_elem_of_singleton in H' as ->. left. by left.
Qed.

Lemma map_fresh_outcome n : forall s root v flags, tree_wf (pg s) root -> cr3 (pg s) = root -> 0 <= v -> v mod 4096 = 0 -> v + 4096 * Z.of_nat n <= USER_END ->
  wp (map_fresh n root v flags) (fun l s' => zlen l <= Z.of_nat n /\ run_effect s root v l flags s' /\ (zlen l < Z.of_nat n -> ran_out s root (Z.of_nat n) s')) s.
Proof.
  induction n as [|n IH]; intros s root v flags Hwf Hc Hv Hvm Hfit; cbn [map_fresh]; [wstep; split; [done|split; [by apply empty_effect|done]]|].
  wstep. unfold pmm_alloc_page. apply wp_pg, take_frame; [apply Hwf| |].
  { intros Hex. rewrite with_pg_id. change (0 =? 0) with true. cbv iota. wstep. split; [unfold zlen; cbn; lia|]. split; [by apply empty_effect|].
    intros _. exists []. split; [unfold zlen; cbn; lia|]. intros g Hg Hm Hfr. by destruct (Hex g Hg Hm). }
  intros f h Hf Hfree Hman Hpa Hg Hk Hm Hiff. rewrite (proj2 (Z.eqb_neq f 0)) by (destruct Hf; lia). set (p1 := set_sh h (pg s)).
  assert (tree_wf p1 root) as Hwf1 by by apply (take_wf _ _ _ f). wstep. apply wp_pg. eapply wp_mono; [by apply map_page_frames|]. cbv beta. intros r p2 M. destruct (me_result _ _ _ _ _ _ _ M) as [-> | ->].
  - change (negb (0 =? 0)) with false. cbv iota. destruct (me_mapped _ _ _ _ _ _ _ M eq_refl) as [T _]. rewrite frame_of_frame in T by done.
    wstep. eapply (wp_zero_page _ root); [apply M|cbn; rewrite (me_cr3 _ _ _ _ _ _ _ M); exact Hc|exact Hf|unfold USER_END in Hfit; lia|exact Hvm|exact T|]. cbn [pg drv ram current_process with_pg].
    set (s2 := mk_mm p2 _ _ _). assert (run_effect s root v [f] flags s2) as E1 by by apply (fresh_page_effect s root v f h). unfold USER_END in Hfit. rewrite u64_small by (unfold is_u64; lia).
    wstep. eapply wp_mono; [apply (IH s2 root (v + 4096)); [apply M|cbn; rewrite (me_cr3 _ _ _ _ _ _ _ M); exact Hc|lia|by rewrite Zplus_mod, Hvm|unfold USER_END; lia]|].
    cbv beta. intros l s3 (Hl & E2 & Hshort). wstep. pose proof (zlen_cons f l). split; [lia|]. split; [apply (cons_effect s s2); [done|done|unfold USER_END; lia|done|done]|].
    intros Hlt. rewrite Nat2Z.inj_succ, <- Z.add_1_r. apply (ran_out_next s root v f flags s2 _ _ l E1 E2), Hshort. lia.
  - change (negb (-1 =? 0)) with true. cbv iota. wstep. unfold pmm_free_page. apply wp_pg. cbn [pg with_pg]. pose proof M as [M1 M2 _ M4 _ M6 [A1 A2 A3 A4 A5 A6 A7] MX].
    apply give_frame; [apply M|done|by apply A2, Hm|]. intros h3 Hpa3 Hg3 Hk3 Hm3 Hiff3. wstep. split; [unfold zlen; cbn; lia|].
    change (with_pg (set_sh h3 p2) (with_pg p2 s)) with (with_pg (set_sh h3 p2) s). split; [by apply (failed_page_effect s root v f h flags p2 h3)|].
    intros _. exists [f]. split; [change (zlen [f]) with 1; lia|]. intros a Ha Hma Hfr. rewrite list_elem_of_singleton. destruct (decide (a = f)) as [->|Hne]; [by left|right].
    destruct (A4 a Ha) as [H|(q & Hq & Hn)]; [unfold free; cbn; by apply Hiff| |exists q; split; [done|cbn [pg with_pg]; by rewrite node_sh]].
    destruct (MX eq_refl a Ha); [|done]. by apply A2, Hm.
Qed.

(** * Unmapping a run *)

(** Pages whose frames belong to them alone. *)
Definition private_run s (root base : Z) (l : list Z) : Prop := forall i f, zget l i = Some f ->
  exists e, leaf (pg s) root (pg_at base i) = Some e /\ frame_of e = f /\ owned (pg s) root e.

Lemma run_private s root base l flags : run_of s root base l flags -> has flags PAGE_MMAP_SHARED = false -> has flags PAGE_MMIO_NOFREE = false -> private_run s root base l.
Proof.
  intros Hrun Hs Hn i f Hf. destruct (ru_leaf _ _ _ _ _ Hrun i f Hf) as [Hl _]. assert (f ∈ l) as Hin.
  { unfold zget in Hf. destruct (0 <=? i); [|done]. by eapply list_elem_of_lookup_2. }
  destruct (ru_own _ _ _ _ _ Hrun f Hin) as (H1 & H2 & _ & H4). exists (new_leaf f flags). split; [done|]. rewrite frame_new_leaf by done. split; [done|].
  change PAGE_MMAP_SHARED with (2 ^ 10) in *. change PAGE_MMIO_NOFREE with (2 ^ 11) in *.
  split; rewrite ?frame_new_leaf by done; try done; [change PAGE_MMAP_SHARED with (2 ^ 10)|change PAGE_MMIO_NOFREE with (2 ^ 11)]; by rewrite has_new_leaf by lia.
Qed.

Record unrun_effect s (root base : Z) (l : list Z) (s' : mm) : Prop := {
  un_wf : tree_wf (pg s') root;
  un_cr3 : cr3 (pg s') = cr3 (pg s);
  un_proc : current_process s' = current_process s;
  un_drv : drv s' = drv s;
  un_ram : ram s' = ram s;
  un_pages : forall i, 0 <= i < zlen l -> translate (pg s') root (pg_at base i) = None;
  un_translate : forall v, outside base (zlen l) v -> translate (pg s') root v = translate (pg s) root v;
  un_leaf : forall v, outside base (zlen l) v -> leaf (pg s') root v = leaf (pg s) root v;
  un_nodes : forall p, (length p <= 3)%nat -> node (pg s') root p = node (pg s) root p;
  un_managed : forall f, managed (pg s') f <-> managed (pg s) f;
  un_free : forall f, is_frame f -> (free (pg s') f <-> free (pg s) f \/ f ∈ l);
  un_regions : g_regions (sh (pg s')) = g_regions (sh (pg s));
  un_heap : kheap (sh (pg s')) = kheap (sh (pg s));
}.

Lemma owned_kept (p p' : paging (PS := PS) (HS := HS)) root e : (forall q, (length q <= 3)%nat -> node p' root q = node p root q) -> (forall f, managed p' f <-> managed p f) ->
  owned p root e -> owned p' root e.
Proof.
  intros Hn Hm [H1 H2 H3 H4 H5]. split; try done; [by apply Hm|]. intros (q & Hq & Hnq). apply H5. exists q. split; [done|]. by rewrite <- Hn.
Qed.

Lemma unmap_pages_outcome root l : forall s base, tree_wf (pg s) root -> cr3 (pg s) = root -> 0 <= base -> base mod 4096 = 0 -> base + 4096 * zlen l <= USER_END ->
  private_run s root base l -> wp (unmap_pages (length l) base) (fun _ s' => unrun_effect s root base l s') s.
Proof.
  induction l as [|f l IH]; intros s base Hwf Hc Hb Hbm Hfit Hrun; cbn [length unmap_pages].
  { wstep. split; try done; [intros i Hi; unfold zlen in Hi; cbn in Hi; lia|]. intros g Hg. rewrite elem_of_nil. tauto. }
  pose proof (zlen_nonneg l) as Hl. rewrite zlen_cons in Hfit. unfold USER_END in Hfit. destruct (Hrun 0 f eq_refl) as (e & He & Hfe & Ho). unfold pg_at in He. rewrite Z.mul_0_r, Z.add_0_r in He.
  wstep. apply wp_pg. rewrite <- Hc in Hwf, He, Ho. eapply wp_mono; [by apply (unmap_page_frames (pg s) base e)|]. cbv beta. intros _ p2 U. rewrite Hc, Hfe in U. rewrite Hc in Hwf, He, Ho.
  rewrite u64_small by (unfold is_u64; lia). set (s2 := with_pg p2 s).
  assert (forall i, 0 <= i < zlen l + 1 -> i <> 0 -> page_of (pg_at base i) <> page_of base) as Hne.
  { intros i Hi Hi0. replace base with (pg_at base 0) at 2 by (unfold pg_at; lia). apply pg_at_ne; unfold pg_at; lia. }
  eapply wp_mono; [apply (IH s2 (base + 4096)); [apply U|cbn; by rewrite (ue_cr3 _ _ _ _ _ U)|lia|by rewrite Zplus_mod, Hbm|unfold USER_END; lia|]|].
  { intros i g Hg. pose proof (zget_range _ _ _ Hg) as Hi. destruct (Hrun (i + 1) g) as (e' & He' & Hfe' & Ho'); [by rewrite zget_cons_S by lia|]. exists e'.
    rewrite pg_at_next. cbn [pg s2 with_pg]. rewrite (ue_leaf _ _ _ _ _ U) by (apply Hne; lia). split; [done|]. split; [done|]. apply (owned_kept (pg s)); [apply U|apply U|done]. }
  cbv beta. intros _ s3 E.
  assert (forall v, outside base (zlen (f :: l)) v -> page_of v <> page_of base /\ outside (base + 4096) (zlen l) v) as Hout.
  { intros v Hv. rewrite zlen_cons in Hv. split; [specialize (Hv 0 ltac:(lia)); unfold pg_at in Hv; by rewrite Z.mul_0_r, Z.add_0_r in Hv|]. intros i Hi. rewrite pg_at_next. apply Hv. lia. }
  destruct E as [E1 E2 E3 E4 E5 E6 E7 E8 E9 E10 E11 E12 E13]. split; try done.
  - rewrite E2. apply U.
  - intros i Hi. rewrite zlen_cons in Hi. destruct (decide (i = 0)) as [->|Hi0].
    + rewrite E7; [unfold pg_at; rewrite Z.mul_0_r, Z.add_0_r; apply U|]. intros j Hj. rewrite pg_at_next. apply pg_at_ne; unfold pg_at; lia.
    + replace i with (i - 1 + 1) by lia. rewrite <- pg_at_next. apply E6. lia.
  - intros v Hv. destruct (Hout v Hv) as [Hv1 Hv2]. rewrite E7 by done. by apply U.
  - intros v Hv. destruct (Hout v Hv) as [Hv1 Hv2]. rewrite E8 by done. by apply U.
  - intros q Hq. rewrite E9 by done. by apply U.
  - intros g. rewrite E10. apply U.
  - intros g Hg. rewrite E11 by done. cbn [pg s2 with_pg]. rewrite (ue_free _ _ _ _ _ U) by done. rewrite elem_of_cons. tauto.
  - rewrite E12. apply U.
  - rewrite E13. apply U.
Qed.
End run.
