(* ===== verification/MmapCalls.v ===== *)
(** mmap and munmap of private memory: what a call changes in the page tables, in the frames and in the address space. *)

From S2P Require Import Prelude Memory Interfaces Pmm Heap Shm Pci Paging PagingFrames Driver Mmap MmapSpace MmapPages.

(** Flags of the pages of a private mapping. *)
Definition prot_flags (prot : Z) : Z :=
  let fl := Z.lor PAGE_PRESENT PAGE_USER in
  let fl := if negb (Z.land prot PROT_WRITE =? 0) then Z.lor fl PAGE_WRITE else fl in
  if Z.land prot PROT_EXEC =? 0 then Z.lor fl PAGE_NX else fl.

Lemma prot_flags_private prot : has (prot_flags prot) PAGE_MMAP_SHARED = false /\ has (prot_flags prot) PAGE_MMIO_NOFREE = false /\
  rights (prot_flags prot) = (negb (Z.land prot PROT_WRITE =? 0), true).
Proof. unfold prot_flags. by destruct (Z.land prot PROT_WRITE =? 0), (Z.land prot PROT_EXEC =? 0). Qed.

Section calls.
Context {PS HS : Type} `{!PageAllocator PS} `{!ContiguousAllocator PS} `{!BlockAllocator HS}.
Implicit Types (s : mm (PS := PS) (HS := HS)) (p : process).

(** Only the pages of live regions are mapped in the area of the memory calls. *)
Definition vacant s p : Prop := forall v, MMAP_AREA_START <= v < USER_END ->
  (forall i r, zget (mmap_regions p) i = Some r -> ~ r_addr r <= v < r_addr r + r_length r) -> translate (pg s) (cr3 (pg s)) v = None.

(** Process [p] runs in its own address space. *)
Record ready s p : Prop := {
  rd_proc : current_process s = Some p;
  rd_cr3 : page_table p = cr3 (pg s);
  rd_wf : tree_wf (pg s) (cr3 (pg s));
  rd_space : space_ok p;
  rd_vacant : vacant s p;
}.

(** The frames: nothing is lost but what now holds page tables. *)
Definition frames_back s s' : Prop := (forall f, is_frame f -> free (pg s') f -> free (pg s) f) /\
  forall f, is_frame f -> free (pg s) f -> free (pg s') f \/ in_tree (pg s') (cr3 (pg s)) f.

(** A call fails when the table of regions is full, or when the frames free before are no more than the pages asked for and the new page tables. *)
Definition no_room s p (n : Z) (s' : mm) : Prop :=
  (forall i r, zget (mmap_regions p) i = Some r -> r_length r <> 0) \/ ran_out s (cr3 (pg s)) n s'.

Record mmap_failed s p (s' : mm) : Prop := {
  mf_ready : exists p', ready s' p' /\ mmap_regions p' = mmap_regions p;
  mf_translate : forall v, translate (pg s') (cr3 (pg s)) v = translate (pg s) (cr3 (pg s)) v;
  mf_frames : frames_back s s';
}.

Record mmap_done s p (len flags r : Z) (s' : mm) (p' : process) (slot : Z) (l : list Z) : Prop := {
  md_ready : ready s' p';
  md_slot : exists old, zget (mmap_regions p) slot = Some old /\ r_length old = 0;
  md_regions : mmap_regions p' = <[Z.to_nat slot := mk_mregion r len (-1)]> (mmap_regions p);
  md_place : r mod 4096 = 0 /\ MMAP_AREA_START <= r /\ r + len <= USER_END;
  md_pages : 4096 * zlen l = len;
  md_vacant : forall i, 0 <= i < zlen l -> translate (pg s) (cr3 (pg s)) (pg_at r i) = None;
  md_effect : run_effect (with_cur p' s) (cr3 (pg s)) r l flags s';
}.

Lemma wp_unbind {A B} (m : M (mm (PS := PS) (HS := HS)) A) (k : A -> M mm B) Q s : wp (m ≫= k) Q s -> wp m (fun a s' => wp (k a) Q s') s.
Proof. unfold wp, mbind, M_bind. by destruct (m s) as [[? ?]|]. Qed.

Lemma find_slot_outcome s p : current_process s = Some p -> space_ok p ->
  wp find_slot (fun slot s' => s' = s /\ (slot = -1 /\ (forall i r, zget (mmap_regions p) i = Some r -> r_length r <> 0) \/ 0 <= slot < MAX_MMAP_REGIONS /\ exists r, zget (mmap_regions p) slot = Some r /\ r_length r = 0)) s.
Proof.
  intros Hp Ho. pose proof (so_regions _ Ho) as Hz. unfold find_slot. wstep. apply (wp_cur _ _ p Hp). wstep.
  apply (wp_for_range (fun k s' => s' = s /\ forall i r, i < k -> zget (mmap_regions p) i = Some r -> r_length r <> 0)); [|done| |].
  - split; [done|]. intros i r Hi Hr. apply zget_range in Hr. lia.
  - intros i s' Hi [-> Hall]. destruct (zget_Some (mmap_regions p) i ltac:(lia)) as [r Hr]. wstep. apply (wp_lift _ _ _ _ Hr). wstep.
    destruct (Z.eqb_spec (r_length r) 0) as [Hl|Hl]; [|split; [done|]]. { wstep. split; [done|]. right. split; [done|]. by exists r. }
    intros j x Hj Hx. destruct (decide (j = i)) as [->|]; [|apply (Hall j x); [lia|done]]. rewrite Hr in Hx. by injection Hx as <-.
  - intros s' [-> Hall]. wsteps. split; [done|]. left. split; [done|]. intros i r Hr. apply (Hall i r); [|done]. apply zget_range in Hr. lia.
Qed.

(** A spare interval meets no live region. *)
Lemma spare_outside p base len v : space_ok p -> spare p (base, len) -> base <= v < base + len -> forall i r, zget (mmap_regions p) i = Some r -> ~ r_addr r <= v < r_addr r + r_length r.
Proof.
  intros Ho [Hin Hap] Hv i r Hr Hr'. pose proof (zget_range _ _ _ Hr) as Hi. rewrite (so_regions _ Ho) in Hi.
  assert (0 <= i < SPANS) as His by (unfold SPANS, MAX_MMAP_REGIONS, MAX_MMAP_FREE_RANGES in *; lia). specialize (Hap i His).
  assert (span p i = (r_addr r, r_length r)) as Es by (unfold span; rewrite (proj2 (Z.ltb_lt _ _)) by lia; by rewrite Hr).
  rewrite Es in Hap. unfold apart in Hap. cbn [fst snd] in Hap. lia.
Qed.

(** An address outside a run of pages is in another page. *)
Lemma outside_run base n v : 0 <= base -> base mod 4096 = 0 -> base + 4096 * n <= USER_END -> 0 <= v < USER_END -> ~ base <= v < base + 4096 * n -> outside base n v.
Proof.
  intros Hb Hbm Hfit Hv Hno i Hi E. unfold USER_END, pg_at in *. apply page_of_inj in E; [|lia..]. apply Hno.
  rewrite (Z.mul_comm 4096), Z.div_add in E by lia. pose proof (Z.div_mod v 4096 ltac:(lia)). pose proof (Z.mod_pos_bound v 4096 ltac:(lia)).
  pose proof (Z.div_mod base 4096 ltac:(lia)). lia.
Qed.

(** Inside a run, an address is in one of its pages. *)
Lemma inside_run base n v : 0 <= base -> base mod 4096 = 0 -> base <= v < base + 4096 * n -> exists i, 0 <= i < n /\ pg_at base i <= v < pg_at base i + 4096.
Proof.
  intros Hb Hm Hv. exists ((v - base) / 4096). unfold pg_at. pose proof (Z.div_mod (v - base) 4096 ltac:(lia)). pose proof (Z.mod_pos_bound (v - base) 4096 ltac:(lia)).
  split; [|lia]. split; [apply Z.div_pos; lia|]. apply Z.div_lt_upper_bound; lia.
Qed.

Lemma same_page_translate (q : paging (PS := PS) (HS := HS)) root a v : a mod 4096 = 0 -> a <= v < a + 4096 -> translate q root v = translate q root a.
Proof.
  intros Ha Hv. assert (page_of v = page_of a) as E.
  { apply page_of_floor. pose proof (Z.div_mod a 4096 ltac:(lia)). symmetry. apply (Z.div_unique v 4096 _ (v - a)); lia. }
  unfold translate. unfold page_of in E. injection E as -> -> -> ->. done.
Qed.

Lemma effect_proc s p1 p' root b l fl s2 : run_effect (with_cur p1 s) root b l fl s2 -> run_effect (with_cur p' s) root b l fl (with_cur p' s2).
Proof. intros [H1 H2 H3 H4 [R1 R2 R3] H6 H7 H8 H9 H10 H11 H12 H13 H14 H15 H16 H17]. by split; [..|split| | | | | | | | | | | |]. Qed.

Lemma regions_same_vacant s s' p p' : vacant s p -> mmap_regions p' = mmap_regions p -> cr3 (pg s') = cr3 (pg s) ->
  (forall v, translate (pg s') (cr3 (pg s)) v = translate (pg s) (cr3 (pg s)) v) -> vacant s' p'.
Proof. intros Hv Hr Hc Ht v Hvr Hno. rewrite Hc, Ht. apply Hv; [done|]. by rewrite <- Hr. Qed.

(** The addresses of a call that got [base]. *)
Record placed p p1 (base len : Z) : Prop := {
  pl_like : like p p1;
  pl_space : space_ok p1;
  pl_spare : spare p1 (base, len);
  pl_len : 0 < len /\ len mod 4096 = 0;
}.

Lemma placed_bounds p p1 base len : placed p p1 base len -> base mod 4096 = 0 /\ MMAP_AREA_START <= base /\ base + len <= USER_END.
Proof. intros [_ Ho [[_ [_ H]] _] [Hl _]]. cbn in H. destruct (H Hl) as (? & ? & ?). pose proof (so_next _ Ho). split; [done|]. lia. Qed.

(** Nothing is mapped there. *)
Lemma placed_vacant s p p1 base len i : ready s p -> placed p p1 base len -> 0 <= i < len / 4096 -> translate (pg s) (cr3 (pg s)) (pg_at base i) = None.
Proof.
  intros Hr Hpl Hi. destruct (placed_bounds _ _ _ _ Hpl) as (Hbm & Hlo & Hhi). destruct Hpl as [(_ & _ & Hl) Ho Hs [Hl0 Hlm]].
  pose proof (Z.div_mod len 4096 ltac:(lia)). unfold pg_at. apply (rd_vacant _ _ Hr); [lia|]. intros j r Hj. rewrite <- Hl in Hj. apply (spare_outside p1 base len (base + 4096 * i) Ho Hs ltac:(lia) j r Hj).
Qed.

(** Unmapping a run that was just mapped. *)
Lemma undone_translate s s2 s3 root base l fl : run_effect s root base l fl s2 -> unrun_effect s2 root base l s3 ->
  (forall i, 0 <= i < zlen l -> translate (pg s) root (pg_at base i) = None) -> forall v, translate (pg s3) root v = translate (pg s) root v.
Proof.
  intros E U Hno v. destruct (decide (Exists (fun i => page_of v = page_of (pg_at base i)) (seqZ 0 (zlen l)))) as [Hx|Hx].
  - apply Exists_exists in Hx as (i & Hi & Hv). apply elem_of_seqZ in Hi. unfold translate. unfold page_of in Hv. injection Hv as Ev1 Ev2 Ev3 Ev4. rewrite Ev1, Ev2, Ev3, Ev4.
    change (translate (pg s3) root (pg_at base i) = translate (pg s) root (pg_at base i)). rewrite (un_pages _ _ _ _ _ U) by lia. symmetry. apply Hno. lia.
  - assert (outside base (zlen l) v) as Hout by (intros i Hi Ev; apply Hx, Exists_exists; exists i; split; [apply elem_of_seqZ; lia|done]).
    by rewrite (un_translate _ _ _ _ _ U), (re_translate _ _ _ _ _ _ E).
Qed.

Lemma undone_frames s s2 s3 root base l fl : run_effect s root base l fl s2 -> unrun_effect s2 root base l s3 ->
  (forall f, is_frame f -> free (pg s3) f -> free (pg s) f) /\ forall f, is_frame f -> free (pg s) f -> free (pg s3) f \/ in_tree (pg s3) root f.
Proof.
  intros E U. split.
  - intros f Hf H. apply (un_free _ _ _ _ _ U) in H; [|done]. destruct H as [H|H]; [by apply (re_less _ _ _ _ _ _ E)|by apply (re_was _ _ _ _ _ _ E)].
  - intros f Hf H. rewrite (un_free _ _ _ _ _ U) by done. destruct (re_used _ _ _ _ _ _ E f Hf H) as [H'|[(q & Hq & Hn')|H']]; [left; by left|right|left; by right].
    exists q. split; [done|]. by rewrite (un_nodes _ _ _ _ _ U).
Qed.

Lemma roll_back_failed s p p1 base len fl l s2 : ready s p -> placed p p1 base len -> 4096 * zlen l <= len ->
  has fl PAGE_MMAP_SHARED = false -> has fl PAGE_MMIO_NOFREE = false -> ran_out s (cr3 (pg s)) (len / 4096) s2 -> run_effect (with_cur p1 s) (cr3 (pg s)) base l fl s2 ->
  wp (unmap_pages (length l) base) (fun _ s3 => wp (mmap_free_va base len) (fun _ s' => mmap_failed s p s' /\ no_room s p (len / 4096) s') s3) s2.
Proof.
  intros Hr Hpl Hn Hsh Hnf (k & Hk & Hfew) E. destruct (placed_bounds _ _ _ _ Hpl) as (Hbm & Hlo & Hhi). pose proof Hpl as [Hlike Ho Hsp [Hl0 Hlm]]. set (root := cr3 (pg s)) in *. unfold MMAP_AREA_START in Hlo.
  assert (cr3 (pg s2) = root) as Hc2 by apply (re_cr3 _ _ _ _ _ _ E).
  eapply wp_mono; [apply (unmap_pages_outcome root l s2 base); [apply E|done|lia|done|lia|by eapply run_private; [apply E|..]]|]. cbv beta. intros _ s3 U.
  assert (current_process s3 = Some p1) as Hp3 by (by rewrite (un_proc _ _ _ _ _ U), (re_proc _ _ _ _ _ _ E)).
  eapply wp_mono; [by apply (free_va_outcome s3 p1 (base, len))|]. cbv beta. intros _ s4 (p4 & -> & (Hk1 & Hk2 & Hk3) & Ho4). destruct Hlike as (Hl1 & Hl2 & Hl3).
  assert (zlen l <= len / 4096) as Hln by (apply Z.div_le_lower_bound; lia).
  pose proof (undone_translate _ _ _ _ _ _ _ E U ltac:(intros i Hi; apply (placed_vacant s p p1 base len i Hr Hpl); lia)) as Ht. cbn [pg with_cur] in Ht.
  split; [|right; exists k; split; [done|]; intros f Hf Hm H; destruct (Hfew f Hf Hm H) as [?|(q & Hq & Hnq)]; [by left|right; exists q; split; [done|]; cbn [pg with_cur]; by rewrite (un_nodes _ _ _ _ _ U)]].
  split.
  - exists p4. split; [|by rewrite Hk3, Hl3]. split; cbn [current_process pg with_cur].
    + done.
    + rewrite Hk2, Hl2, (rd_cr3 _ _ Hr), (un_cr3 _ _ _ _ _ U), Hc2. done.
    + rewrite (un_cr3 _ _ _ _ _ U), Hc2. apply U.
    + done.
    + apply (regions_same_vacant s _ p); [apply Hr|by rewrite Hk3, Hl3|cbn; by rewrite (un_cr3 _ _ _ _ _ U)|done].
  - exact Ht.
  - apply (undone_frames _ _ _ _ _ _ _ E U).
Qed.
(** The process after the region is recorded. *)
Lemma mmap_done_intro s p p1 base len flags slot old l s2 : ready s p -> placed p p1 base len -> 0 <= slot < MAX_MMAP_REGIONS ->
  zget (mmap_regions p) slot = Some old -> r_length old = 0 -> 4096 * zlen l = len -> run_effect (with_cur p1 s) (cr3 (pg s)) base l flags s2 ->
  wp (put_region slot (mk_mregion base len (-1))) (fun _ s' => exists p', mmap_done s p len flags base s' p' slot l) s2.
Proof.
  intros Hr Hpl Hi Hold Hl0 Hn E. destruct (placed_bounds _ _ _ _ Hpl) as (Hbm & Hlo & Hhi). pose proof Hpl as [(K1 & K2 & K3) Ho Hsp [Hlen Hlm]].
  assert (current_process s2 = Some p1) as Hp2 by by rewrite (re_proc _ _ _ _ _ _ E).
  eapply wp_mono; [by apply (put_region_outcome s2 p1 slot (mk_mregion base len (-1)))|]. cbv beta. intros _ s3 (p3 & -> & Ep & Ho3). exists p3.
  assert (mmap_regions p3 = <[Z.to_nat slot := mk_mregion base len (-1)]> (mmap_regions p)) as Er by (rewrite Ep; cbn; by rewrite K3).
  assert (0 <= slot < zlen (mmap_regions p)) as Hsl by (by rewrite (so_regions _ (rd_space _ _ Hr))).
  assert (cr3 (pg s2) = cr3 (pg s)) as Hc by by rewrite (re_cr3 _ _ _ _ _ _ E).
  split; [split; cbn [current_process pg with_cur]| | | | | |].
  - done.
  - by rewrite Ep, Hc, <- (rd_cr3 _ _ Hr).
  - rewrite Hc. apply E.
  - done.
  - intros v Hv Hno. cbn [pg with_cur]. rewrite Hc. assert (~ base <= v < base + len) as Hnb.
    { apply (Hno slot (mk_mregion base len (-1))). rewrite Er. by apply zget_insert_eq. }
    unfold MMAP_AREA_START in *. rewrite (re_translate _ _ _ _ _ _ E) by (apply outside_run; lia).
    apply (rd_vacant _ _ Hr); [done|]. intros i r Hri Hin. destruct (decide (i = slot)) as [->|Hne]; [rewrite Hold in Hri; injection Hri as <-; lia|].
    apply (Hno i r); [|done]. by rewrite Er, zget_insert_ne by lia.
  - by exists old.
  - done.
  - done.
  - done.
  - intros i Hx. apply (placed_vacant s p p1 base len i Hr Hpl). rewrite <- Hn, (Z.mul_comm 4096), Z.div_mul by lia. done.
  - by apply (effect_proc s p1).
Qed.

Lemma failed_same s p : ready s p -> mmap_failed s p s.
Proof. intros Hr. split; [by exists p|done|]. split; [done|]. intros f _ H. by left. Qed.

Lemma sys_mmap_outcome s p len prot flags : ready s p -> Z.land flags MAP_SHARED = 0 -> 0 < page_align len -> next_mmap_addr p + page_align len <= USER_END ->
  wp (sys_mmap len prot flags) (fun r s' => (r = ERR /\ s' = s /\ (len = 0 \/ Z.land flags MAP_ANONYMOUS = 0 \/ Z.land flags MAP_FIXED <> 0)) \/
    (r = ERR /\ mmap_failed s p s' /\ no_room s p (page_align len / 4096) s') \/
    (len <> 0 /\ Z.land flags MAP_ANONYMOUS <> 0 /\ Z.land flags MAP_FIXED = 0 /\ exists p' slot l, mmap_done s p (page_align len) (prot_flags prot) r s' p' slot l)) s.
Proof.
  intros Hr Hsh Hpos Hroom. destruct (page_align_range len) as [Hal Ham]. pose proof (rd_proc _ _ Hr) as Hp. pose proof (rd_space _ _ Hr) as Ho. pose proof (failed_same s p Hr) as Hsame.
  unfold sys_mmap. wsteps. rewrite Hp. destruct (Z.eqb_spec len 0) as [|Hl]; [wstep; left; by auto|]. destruct (Z.eqb_spec (Z.land flags MAP_ANONYMOUS) 0) as [|Ha]; [wstep; left; by auto|].
  destruct (Z.eqb_spec (Z.land flags MAP_FIXED) 0) as [Hf|]; cbn [negb]; [|wstep; left; by auto]. rewrite Hsh. cbn [negb andb]. change (0 =? 0) with true. cbv zeta. cbn [negb andb]. cbv iota.
  set (n := page_align len) in *. wstep. eapply wp_mono; [by apply (find_slot_outcome s p)|]. cbv beta. intros slot s1 [-> Hslot].
  destruct (Z.ltb_spec slot 0) as [|Hs0].
  { wstep. right. left. destruct Hslot as [[_ Hall]|]; [|lia]. split; [done|]. split; [done|]. by left. }
  destruct Hslot as [[-> _]|(Hs & old & Hold & Hl0)]; [done|].
  wstep. eapply wp_mono; [apply (alloc_va_outcome s p n); (done || lia)|]. cbv beta. intros base s1 (p1 & -> & Hlike & Ho1 & Hsp).
  assert (placed p p1 base n) as Hpl by by split. destruct (placed_bounds _ _ _ _ Hpl) as (Hbm & Hlo & Hhi). unfold MMAP_AREA_START in Hlo.
  wsteps. fold (prot_flags prot). destruct (prot_flags_private prot) as (F1 & F2 & _).
  assert (num_pages_of n = n / 4096) as Hnp by done. pose proof (Z.div_mod n 4096 ltac:(lia)). assert (0 <= n / 4096) by (apply Z.div_pos; lia).
  rewrite (rd_cr3 _ _ Hr). eapply wp_mono; [apply (map_fresh_outcome (Z.to_nat (num_pages_of n)) (with_cur p1 s) (cr3 (pg s)) base (prot_flags prot));
    [apply Hr|done|lia|done|rewrite Hnp, Z2Nat.id by lia; lia]|].
  cbv beta. intros l s2 (Hll & E & Hshort). rewrite Hnp, Z2Nat.id in Hll, Hshort by lia. rewrite Hnp. destruct (Z.ltb_spec (zlen l) (n / 4096)) as [Hlt|Hge].
  - wstep. eapply wp_mono; [apply (roll_back_failed s p p1 base n (prot_flags prot) l); (done || lia || by apply Hshort)|]. cbv beta. intros _ s3 W. wsteps.
    eapply wp_mono; [exact W|]. cbv beta. intros _ s4 F. wstep. right. by left.
  - wsteps. eapply wp_mono; [apply (mmap_done_intro s p p1 base n (prot_flags prot) slot old l); (done || lia)|]. cbv beta. intros _ s3 (p3 & D). wstep. right. right.
    split_and!; try done. by exists p3, slot, l.
Qed.

(** * munmap *)

Definition matches (addr len : Z) (r : mmap_region) : Prop := r_length r <> 0 /\ r_addr r = addr /\ r_length r = page_align len.

#[export] Instance matches_dec addr len r : Decision (matches addr len r).
Proof. unfold matches. apply _. Defined.

(** Regions do not share their first address. *)
Lemma matches_unique p addr len i j a b : space_ok p -> zget (mmap_regions p) i = Some a -> zget (mmap_regions p) j = Some b ->
  matches addr len a -> matches addr len b -> i = j.
Proof.
  intros Ho Ha Hb (A1 & A2 & A3) (B1 & B2 & B3). destruct (decide (i = j)) as [|Hne]; [done|]. exfalso.
  pose proof (zget_range _ _ _ Ha) as Hi. pose proof (zget_range _ _ _ Hb) as Hj. rewrite (so_regions _ Ho) in Hi, Hj.
  assert (forall k, 0 <= k < MAX_MMAP_REGIONS -> 0 <= k < SPANS) as Hin by (unfold SPANS, MAX_MMAP_REGIONS, MAX_MMAP_FREE_RANGES; lia).
  pose proof (so_apart _ Ho i j (Hin i Hi) (Hin j Hj) Hne) as H. pose proof (so_inside _ Ho i (Hin i Hi)) as [H0 _]. unfold apart, span in *.
  rewrite !(proj2 (Z.ltb_lt _ _)), Ha, Hb in H by lia. rewrite (proj2 (Z.ltb_lt _ _)), Ha in H0 by lia. cbn [fst snd] in *. lia.
Qed.

Record munmap_done s p (addr : Z) (l : list Z) (slot : Z) (s' : mm) (p' : process) : Prop := {
  ud_ready : ready s' p';
  ud_regions : exists sid, mmap_regions p' = <[Z.to_nat slot := mk_mregion 0 0 sid]> (mmap_regions p);
  ud_effect : unrun_effect (with_cur p' s) (cr3 (pg s)) addr l s';
}.

Lemma unrun_proc s p1 p' root b l s2 : unrun_effect (with_cur p1 s) root b l s2 -> unrun_effect (with_cur p' s) root b l (with_cur p' s2).
Proof. intros [H1 H2 H3 H4 H5 H6 H7 H8 H9 H10 H11 H12 H13]. by split. Qed.

(** The first part of the body of the loop, where the region matches. *)
Lemma munmap_body s p slot r l : ready s p -> zget (mmap_regions p) slot = Some r -> 0 < r_length r -> 4096 * zlen l = r_length r -> private_run s (cr3 (pg s)) (r_addr r) l ->
  wp (unmap_pages (length l) (r_addr r);; put_region slot (mk_mregion 0 0 (shared_id r));; mmap_free_va (r_addr r) (r_length r))
    (fun _ s' => exists p', munmap_done s p (r_addr r) l slot s' p') s.
Proof.
  intros Hr Hreg Hpos Hn Hrun. pose proof (rd_space _ _ Hr) as Ho. pose proof (zget_range _ _ _ Hreg) as Hs. rewrite (so_regions _ Ho) in Hs.
  assert (0 <= slot < SPANS) as Hsp by (unfold SPANS, MAX_MMAP_REGIONS, MAX_MMAP_FREE_RANGES in *; lia). pose proof (so_inside _ Ho slot Hsp) as Hin.
  unfold inside, span in Hin. rewrite (proj2 (Z.ltb_lt _ _)), Hreg in Hin by lia. cbn [fst snd] in Hin. destruct Hin as (_ & Hm & Hin). destruct (Hin Hpos) as (Hbm & Hlo & Hhi).
  pose proof (so_next _ Ho) as Hnx. unfold MMAP_AREA_START in Hlo. set (root := cr3 (pg s)) in *.
  wstep. eapply wp_mono; [apply (unmap_pages_outcome root l s (r_addr r)); (done || lia || apply Hr)|]. cbv beta. intros _ s1 U.
  assert (current_process s1 = Some p) as Hp1 by by rewrite (un_proc _ _ _ _ _ U), (rd_proc _ _ Hr).
  wstep. eapply wp_mono; [by apply (clear_region_outcome s1 p slot r)|]. cbv beta. intros _ s2 (p2 & -> & Ep & Ho2 & Hspare).
  eapply wp_mono; [by apply (free_va_outcome _ p2 (r_addr r, r_length r))|]. cbv beta. intros _ s3 (p3 & -> & (K1 & K2 & K3) & Ho3). exists p3.
  assert (mmap_regions p3 = <[Z.to_nat slot := mk_mregion 0 0 (shared_id r)]> (mmap_regions p)) as Er by (by rewrite K3, Ep).
  assert (unrun_effect (with_cur p3 s) root (r_addr r) l (with_cur p3 s1)) as U3.
  { apply (unrun_proc s p). by rewrite with_cur_id by apply Hr. }
  split; [split; cbn [current_process pg with_cur]|by exists (shared_id r)|exact U3].
  - done.
  - rewrite K2, Ep, (un_cr3 _ _ _ _ _ U). cbn. apply Hr.
  - rewrite (un_cr3 _ _ _ _ _ U). apply U.
  - done.
  - intros v Hv Hno. cbn [pg with_cur]. rewrite (un_cr3 _ _ _ _ _ U). fold root.
    destruct (decide (r_addr r <= v < r_addr r + 4096 * zlen l)) as [Hin'|Hout].
    + destruct (inside_run (r_addr r) (zlen l) v ltac:(lia) Hbm Hin') as (i & Hi & Hvi). rewrite (same_page_translate _ root (pg_at (r_addr r) i)); [by apply U| |done].
      unfold pg_at. by rewrite Z.mul_comm, Z_mod_plus_full.
    + unfold MMAP_AREA_START in Hv. rewrite (un_translate _ _ _ _ _ U) by (apply outside_run; lia). apply (rd_vacant _ _ Hr); [done|].
      intros i x Hx Hvx. destruct (decide (i = slot)) as [->|Hne]; [rewrite Hreg in Hx; injection Hx as <-; lia|]. apply (Hno i x); [|done].
      by rewrite Er, zget_insert_ne by lia.
Qed.

Lemma sys_munmap_outcome s p addr len slot r l : ready s p -> len <> 0 -> zget (mmap_regions p) slot = Some r -> matches addr len r ->
  4096 * zlen l = r_length r -> private_run s (cr3 (pg s)) addr l -> wp (sys_munmap addr len) (fun ret s' => ret = 0 /\ exists p', munmap_done s p addr l slot s' p') s.
Proof.
  intros Hr Hl Hreg Hmat Hn Hrun. pose proof (rd_proc _ _ Hr) as Hp. pose proof (rd_space _ _ Hr) as Ho. pose proof (so_regions _ Ho) as Hz. pose proof (zlen_nonneg l) as Hl0.
  unfold sys_munmap. wsteps. rewrite Hp. rewrite (proj2 (Z.eqb_neq len 0)) by done. wstep.
  apply (wp_for_range (fun i s' => s' = s /\ i <= slot)); [|done| |].
  - split; [done|]. apply (zget_range _ _ _ Hreg).
  - intros i s' Hi [-> Hle]. wstep. apply (wp_cur _ _ p Hp). destruct (zget_Some (mmap_regions p) i ltac:(lia)) as [x Hx]. wstep. apply (wp_lift _ _ _ _ Hx).
    destruct (negb (r_length x =? 0) && (r_addr x =? addr) && (r_length x =? page_align len)) eqn:E.
    + assert (matches addr len x) as Hmx by (unfold matches; lia). assert (i = slot) as -> by by apply (matches_unique p addr len i slot x r).
      rewrite Hreg in Hx. injection Hx as <-. destruct Hmat as (M1 & M2 & M3). subst addr. rewrite <- M3. pose proof (proj1 (page_align_range len)).
      assert (Z.to_nat (num_pages_of (r_length r)) = length l) as ->. { unfold num_pages_of, PAGE_SIZE. rewrite <- Hn, Z.mul_comm, Z.div_mul by lia. unfold zlen. lia. }
      pose proof (munmap_body s p slot r l Hr Hreg ltac:(lia) Hn Hrun) as H0. wstep. apply wp_unbind in H0. eapply wp_mono; [exact H0|]. cbv beta. intros _ s1 H1.
      wstep. apply wp_unbind in H1. eapply wp_mono; [exact H1|]. cbv beta. intros _ s2 H2. wstep. eapply wp_mono; [exact H2|]. cbv beta. intros _ s3 H3. wsteps. by split.
    + wstep. split; [done|]. assert (i <> slot); [|lia]. intros ->. rewrite Hreg in Hx. injection Hx as <-. destruct Hmat as (M1 & M2 & M3). lia.
  - intros s' [_ Hle]. exfalso. pose proof (zget_range _ _ _ Hreg). lia.
Qed.

Lemma sys_munmap_nothing_outcome s p addr len : ready s p -> (len = 0 \/ forall i r, zget (mmap_regions p) i = Some r -> ~ matches addr len r) ->
  wp (sys_munmap addr len) (fun ret s' => ret = ERR /\ s' = s) s.
Proof.
  intros Hr Hno. pose proof (rd_proc _ _ Hr) as Hp. pose proof (so_regions _ (rd_space _ _ Hr)) as Hz. unfold sys_munmap. wsteps. rewrite Hp.
  destruct (Z.eqb_spec len 0) as [|Hl]; [by wstep|]. destruct Hno as [|Hno]; [done|]. wstep. apply (wp_for_range (fun _ s' => s' = s)); [done|done| |].
  - intros i s' Hi ->. wstep. apply (wp_cur _ _ p Hp). destruct (zget_Some (mmap_regions p) i ltac:(lia)) as [x Hx]. wstep. apply (wp_lift _ _ _ _ Hx).
    destruct (negb (r_length x =? 0) && (r_addr x =? addr) && (r_length x =? page_align len)) eqn:E; [|by wstep]. exfalso. apply (Hno i x Hx). unfold matches. lia.
  - intros s' ->. by wsteps.
Qed.

(** * Properties *)



End calls.
