(* ===== verification/MmapString.v ===== *)
(** Strings that a process hands to a system call: what [validate_user_string] has checked when it accepts one. *)

From S2P Require Import Prelude Memory Interfaces Pmm Heap Shm Pci Paging Driver Mmap MmapSpace MmapPages.

(** A frame and an offset in it. *)
Lemma frame_split f o : is_frame f -> 0 <= o < 4096 -> Z.land (f + o) FRAME_MASK = f /\ Z.land (f + o) 0xFFF = o.
Proof.
  intros [Hf Hm] Ho. pose proof (Z.div_mod f 4096 ltac:(lia)) as Hd. assert ((f + o) / 4096 = f / 4096) as Hq by (symmetry; apply (Z.div_unique _ _ _ o); lia). split.
  - change FRAME_MASK with (Z.land (not64 (4096 - 1)) (Z.ones 52)). assert (f + o < 2 ^ 52) by (assert (f / 4096 < 2 ^ 40) by (apply Z.div_lt_upper_bound; lia); lia).
    rewrite Z.land_assoc, page_floor by (unfold is_u64; lia). rewrite Z.land_ones, Hq, Z.mod_small by lia. lia.
  - change 0xFFF with (Z.ones 12). rewrite Z.land_ones by lia. change (2 ^ 12) with 4096. symmetry. apply (Z.mod_unique _ _ (f / 4096)); lia.
Qed.

Section string.
Context {PS HS : Type} `{!PageAllocator PS} `{!ContiguousAllocator PS} `{!BlockAllocator HS}.
Implicit Types (s : mm (PS := PS) (HS := HS)).

(** The byte a process reads at [v]. *)
Definition byte_at s (root v : Z) : option Z :=
  match translate (pg s) root v with Some (f, _) => l ← ram s !! f; zget l (v mod 4096) | None => None end.

Definition readable s (root v : Z) : bool := accessible (pg s) root v false.

(** The pages a process can read have contents. *)
Definition backed s (root : Z) : Prop := forall v, readable s root v = true ->
  exists f r l, translate (pg s) root v = Some (f, r) /\ is_frame f /\ ram s !! f = Some l /\ zlen l = 4096.

Lemma low_bits v : 0 <= v -> Z.land v 0xFFF = v mod 4096.
Proof. intros Hv. change 0xFFF with (Z.ones 12). by rewrite Z.land_ones by lia. Qed.

Lemma load_byte s root v : tree_wf (pg s) root -> cr3 (pg s) = root -> backed s root -> 0 <= v < 2 ^ 47 -> readable s root v = true ->
  exists b, byte_at s root v = Some b /\ load v s = Some (b, s).
Proof.
  intros Hwf Hc Hb Hv Hr. destruct (Hb v Hr) as (f & r & l & Ht & Hf & Hl & Hz). pose proof (Z.mod_pos_bound v 4096 ltac:(lia)) as Hm.
  destruct (zget_Some l (v mod 4096) ltac:(lia)) as [b Hb']. exists b. split.
  - unfold byte_at. rewrite Ht, Hl. exact Hb'.
  - unfold load, canonical. rewrite (proj2 (Z.ltb_lt _ _)) by lia. cbn [orb negb].
    assert (wp (a ← on_pg (get_physical_address v); m ← gets ram; lift (l ← m !! Z.land a FRAME_MASK; zget l (Z.land a 0xFFF))) (fun a s' => a = b /\ s' = s) s) as Hw.
    2: { apply wp_inv in Hw as (a & s' & E & -> & ->). exact E. }
    wstep. unfold get_physical_address, get_current_pml4. apply wp_pg. wstep. wstep. rewrite Hc. eapply wp_Some; [by apply get_physical_address_walk|].
    unfold phys_of. rewrite Ht, (low_bits v) by lia. destruct Hf as [Hf Hfm]. rewrite u64_small by (unfold is_u64; lia). rewrite with_pg_id. wsteps.
    eapply wp_lift; [|done]. destruct (frame_split f (v mod 4096) (conj Hf Hfm) Hm) as [-> ->]. rewrite Hl. exact Hb'.
Qed.

(** How a check of the bytes from [addr + i] on ends. *)
Definition string_result s (root addr i max r : Z) : Prop :=
  (r = -1 /\ exists k, i <= k <= max /\ (k < max -> readable s root (addr + k) = false) /\
     forall j, i <= j < k -> readable s root (addr + j) = true /\ exists b, byte_at s root (addr + j) = Some b /\ b <> 0) \/
  (i <= r < max /\ readable s root (addr + r) = true /\ byte_at s root (addr + r) = Some 0 /\
     forall j, i <= j < r -> readable s root (addr + j) = true /\ exists b, byte_at s root (addr + j) = Some b /\ b <> 0).

Lemma string_result_next s root addr i max r b : readable s root (addr + i) = true -> byte_at s root (addr + i) = Some b -> b <> 0 ->
  string_result s root addr (i + 1) max r -> string_result s root addr i max r.
Proof.
  intros Hr Hb Hn Hres. assert (forall k, (forall j, i + 1 <= j < k -> readable s root (addr + j) = true /\ exists b, byte_at s root (addr + j) = Some b /\ b <> 0) ->
    forall j, i <= j < k -> readable s root (addr + j) = true /\ exists b, byte_at s root (addr + j) = Some b /\ b <> 0) as Hext.
  { intros k H j Hj. destruct (decide (j = i)) as [->|]; [split; [done|by exists b]|apply H; lia]. }
  destruct Hres as [(-> & k & Hk & Hk' & H)|(Hi & Hr' & Hb' & H)].
  - left. split; [done|]. exists k. split; [lia|]. split; [done|]. by apply Hext.
  - right. split; [lia|]. split; [done|]. split; [done|]. by apply Hext.
Qed.

(** The page checked last, if any, is one the process can read. *)
Definition checked s root (page : option Z) : Prop := match page with Some p => forall v, 0 <= v < 2 ^ 47 -> p = 4096 * (v / 4096) -> readable s root v = true | None => True end.

Lemma readable_page s root v : 0 <= v < 2 ^ 47 -> readable s root (4096 * (v / 4096)) = readable s root v.
Proof. intros Hv. apply accessible_page, page_of_floor. by rewrite Z.mul_comm, Z.div_mul by lia. Qed.

Lemma string_loop_outcome s root addr : tree_wf (pg s) root -> cr3 (pg s) = root -> backed s root -> forall n i page, 0 <= addr + i -> addr + i + Z.of_nat n <= 2 ^ 47 -> checked s root page ->
  exists r, string_loop n root addr i page s = Some (r, s) /\ string_result s root addr i (i + Z.of_nat n) r.
Proof.
  intros Hwf Hc Hb. induction n as [|n IH]; intros i page Hlo Hhi Hp; cbn [string_loop].
  { exists (-1). split; [done|]. left. split; [done|]. exists i. split; [lia|]. split; lia. }
  rewrite u64_small by (unfold is_u64; lia). set (c := addr + i) in *. rewrite page_floor by (unfold is_u64; lia).
  assert ((if bool_decide (page = Some (4096 * (c / 4096))) then mret true else on_pg (is_user_accessible root (4096 * (c / 4096)) false)) s = Some (readable s root c, s)) as E.
  { case_bool_decide as Hpage; [subst page; unfold checked in Hp; rewrite (Hp c ltac:(lia) eq_refl); done|]. unfold on_pg. rewrite is_user_accessible_walk by done.
    fold (readable s root (4096 * (c / 4096))). rewrite readable_page by lia. by destruct s. }
  erewrite bind_Some by exact E. destruct (readable s root c) eqn:Hr; cbn [negb].
  2: { exists (-1). split; [done|]. left. split; [done|]. exists i. split; [lia|]. split; [done|lia]. }
  destruct (load_byte s root c Hwf Hc Hb ltac:(lia) Hr) as (b & Hby & Hl). erewrite bind_Some by exact Hl. destruct (Z.eqb_spec b 0) as [->|Hn].
  - exists i. split; [done|]. right. split; [lia|]. split; [done|]. split; [done|]. lia.
  - destruct (IH (i + 1) (Some (4096 * (c / 4096)))) as (r & Er & Hres); [lia|lia| |].
    { unfold checked. intros v Hv Hpv. rewrite <- (readable_page s root v Hv), <- Hpv, readable_page; [done|lia]. }
    exists r. split; [exact Er|]. replace (i + Z.of_nat (S n)) with (i + 1 + Z.of_nat n) by lia. by apply (string_result_next s root addr i _ r b).
Qed.

(** C30: [validate_user_string] looks at no byte the process may not read, changes nothing and ends after at most [max_len] bytes: it returns the length of the
    string at [addr] when a zero byte ends it within [max_len] bytes and every byte up to that one is in a page the process may read; otherwise, for a null
    pointer, for a string that runs into another page first, or for one that is too long, it returns -1. *)
Theorem validate_user_string_correct s root addr max : tree_wf (pg s) root -> cr3 (pg s) = root -> backed s root -> 0 <= addr -> 0 <= max -> addr + max <= 2 ^ 47 ->
  exists r, validate_user_string root addr max s = Some (r, s) /\ ((addr = 0 /\ r = -1) \/ (addr <> 0 /\ string_result s root addr 0 max r)).
Proof.
  intros Hwf Hc Hb Ha Hm Hfit. unfold validate_user_string. destruct (Z.eqb_spec addr 0) as [|Hn]; [exists (-1); split; [done|by left]|].
  destruct (string_loop_outcome s root addr Hwf Hc Hb (Z.to_nat max) 0 None) as (r & E & H); [lia|lia|done|]. exists r. split; [exact E|]. right. split; [done|].
  rewrite Z.add_0_l, Z2Nat.id in H by done. exact H.
Qed.
End string.
