(* ===== verification/MmapDemo.v ===== *)
(** A machine on which the theorems about the memory calls are run, and what the model shows about them. *)

From S2P Require Import Prelude Memory Interfaces Pmm Heap Shm Pci Paging PagingFrames Driver Mmap MmapSpace MmapPages MmapCalls MmapString.

(** A new process under the page tables of Paging.v; it owns the sound card of Driver.v. *)
Definition demo_proc : process := mk_process 42 0x5000 (replicate 32 (mk_mregion 0 0 0)) MMAP_AREA_START (replicate 32 (mk_range 0 0)).
Definition demo_mm : mm (PS := pmm) (HS := heap) := mk_mm demo_paging claimed_drv ∅ (Some demo_proc).

Lemma demo_proc_fresh : fresh_process demo_proc.
Proof. done. Qed.

Lemma area_index v : MMAP_AREA_START <= v < USER_END -> 192 <= PML4_INDEX v < 256.
Proof.
  unfold MMAP_AREA_START, USER_END, PML4_INDEX. intros Hv. rewrite index_div by lia.
  assert (192 <= v / 2 ^ 39 < 256) by (split; [apply Z.div_le_lower_bound; lia|apply Z.div_lt_upper_bound; lia]). by rewrite Z.mod_small by lia.
Qed.

Lemma demo_ready : ready demo_mm demo_proc.
Proof.
  split; [done|done|apply demo_paging_wf|apply fresh_ok, demo_proc_fresh|]. intros v Hv _. change (translate demo_paging 0x5000 v = None).
  apply area_index in Hv. unfold translate, xlate. cbn [node]. change (node demo_paging 0x5000 []) with (Some 0x5000). cbn [mbind option_bind length].
  rewrite (demo_ent 0x5000 [(0, 0x6007)]); [done|done|]. repeat constructor; lia.
Qed.

(** The live regions a run leaves. *)
Definition regions_of (s : mm (PS := pmm) (HS := heap)) : list mmap_region := default [] (mmap_regions <$> current_process s).
Definition live (l : list mmap_region) : list (Z * Z * Z) := (fun r => (r_addr r, r_length r, shared_id r)) <$> List.filter (fun r => negb (r_length r =? 0)) l.

(** Calls one after the other. *)
Definition two_maps : M (mm (PS := pmm) (HS := heap)) (Z * Z) :=
  a ← sys_mmap 4097 3 0x22; b ← sys_mmap 1 1 0x22; mret (a, b).


Lemma mmap_regions_disjoint_witness : exists a b s' p, two_maps demo_mm = Some ((a, b), s') /\ live (mmap_regions p) = [(MMAP_AREA_START, 8192, -1); (MMAP_AREA_START + 8192, 4096, -1)] /\
  current_process s' = Some p /\ forall i j x y, zget (mmap_regions p) i = Some x -> zget (mmap_regions p) j = Some y -> i <> j -> r_length x <> 0 -> r_length y <> 0 ->
    r_addr x + r_length x <= r_addr y \/ r_addr y + r_length y <= r_addr x.
Proof.
  destruct (sys_mmap 4097 3 0x22 demo_mm) as [[a s1]|] eqn:E1; [|vm_compute in E1; discriminate E1].
  destruct (sys_mmap 1 1 0x22 s1) as [[b s2]|] eqn:E2; [|exfalso; assert (is_Some (two_maps demo_mm)) as [x Hx] by (vm_compute; eauto); unfold two_maps in Hx; unfold mbind, M_bind in Hx; rewrite E1, E2 in Hx; discriminate Hx].
  assert (two_maps demo_mm = Some ((a, b), s2)) as E by (unfold two_maps, mbind, M_bind; rewrite E1, E2; reflexivity).
  assert (option_map (fun x => live (regions_of x.2)) (two_maps demo_mm) = Some [(MMAP_AREA_START, 8192, -1); (MMAP_AREA_START + 8192, 4096, -1)]) as El by (vm_compute; reflexivity).
  assert (option_map (fun x => next_mmap_addr <$> current_process x.2) (sys_mmap 4097 3 0x22 demo_mm) = Some (Some (MMAP_AREA_START + 8192))) as En by (vm_compute; reflexivity).
  destruct (mmap_regions_disjoint demo_mm s2 demo_proc eq_refl demo_proc_fresh) as (p & Hp & _ & _ & _ & Hd & _).
  - apply (reach_step _ s1 s2); [apply (reach_step _ demo_mm s1); [apply reach_start|]|].
    + apply (step_mmap demo_mm 4097 3 0x22 a); [|exact E1]. intros p [= <-]. vm_compute. discriminate.
    + apply (step_mmap s1 1 1 0x22 b); [|exact E2]. rewrite E1 in En. cbn in En. intros p Hp. rewrite Hp in En. injection En as ->. vm_compute. discriminate.
  - exists a, b, s2, p. rewrite E in El. cbn [option_map snd] in El. apply (inj Some) in El. unfold regions_of in El. rewrite Hp in El.
    split; [exact E|]. split; [exact El|]. split; [exact Hp|exact Hd].
Defined.

(** After the first call of [two_maps]. *)
Lemma demo_mapped : exists s1 p1 slot l, sys_mmap 4097 3 0x22 demo_mm = Some (MMAP_AREA_START, s1) /\ mmap_done demo_mm demo_proc 8192 (prot_flags 3) MMAP_AREA_START s1 p1 slot l.
Proof.
  assert (option_map fst (sys_mmap 4097 3 0x22 demo_mm) = Some MMAP_AREA_START) as E' by (vm_compute; reflexivity).
  assert (page_align 4097 = 8192) as El by (vm_compute; reflexivity).
  pose proof (sys_mmap_outcome demo_mm demo_proc 4097 3 0x22 demo_ready ltac:(vm_compute; reflexivity) ltac:(vm_compute; reflexivity) ltac:(vm_compute; discriminate)) as H.
  apply wp_inv in H as (r & s1 & E & H). rewrite E in E'. injection E' as ->. rewrite El in *.
  destruct H as [(H & _)|[(H & _)|(_ & _ & _ & p1 & slot & l & D)]]; [vm_compute in H; discriminate H..|]. exists s1, p1, slot, l. split; [exact E|exact D].
Qed.



(** ** A string *)

Definition string_mm : mm (PS := pmm) (HS := heap) := mk_mm demo_paging claimed_drv {[ 0x200000 := [104; 105; 0] ++ replicate 4093 7 ]} (Some demo_proc).

(** The process can read the page at 2 MiB only. *)
Lemma demo_readable v : readable string_mm 0x5000 v = true -> translate demo_paging 0x5000 v = Some (0x200000, (true, true)).
Proof.
  unfold readable, accessible. change (pg string_mm) with demo_paging. intros [_ H]%andb_true_iff. revert H. unfold translate, xlate.
  set (i := PML4_INDEX v). set (j := PDPT_INDEX v). set (k := PD_INDEX v). set (l := PT_INDEX v).
  destruct (node demo_paging 0x5000 [j; i]) as [pd|] eqn:Hn; [|done]. apply demo_node in Hn; [|simpl; lia].
  assert (pd = 0x7000) as -> by (set_unfold; destruct Hn as [G|[G|[G|[G|[]]]]]; by inversion G).
  destruct (decide (k = 0)) as [->|H0]; [destruct (_ && _); vm_compute; discriminate|]. destruct (decide (k = 1)) as [->|H1].
  - change (frame_of (ent demo_paging 0x7000 1)) with 0x8000. destruct (decide (l = 0)) as [->|H2]; [vm_compute; reflexivity|].
    rewrite (demo_ent 0x8000 [(0, 0x200007)] l); [vm_compute; discriminate|done|]. repeat constructor; lia.
  - rewrite (demo_ent 0x7000 [(0, 0x83); (1, 0x8007)] k); [vm_compute; discriminate|done|]. repeat constructor; lia.
Qed.

Lemma validate_user_string_witness : validate_user_string 0x5000 0x200000 256 string_mm = Some (2, string_mm) /\ string_result string_mm 0x5000 0x200000 0 256 2.
Proof.
  destruct (validate_user_string_correct string_mm 0x5000 0x200000 256 demo_paging_wf eq_refl) as (r & E & H).
  - intros v Hv%demo_readable. exists 0x200000, (true, true), ([104; 105; 0] ++ replicate 4093 7). split; [exact Hv|]. split; [split; [lia|reflexivity]|]. split; [apply lookup_singleton_eq|reflexivity].
  - lia.
  - lia.
  - lia.
  - assert (option_map fst (validate_user_string 0x5000 0x200000 256 string_mm) = Some 2) as E' by (vm_compute; reflexivity).
    rewrite E in E'. apply (inj Some) in E'. cbn [fst] in E'. subst r. destruct H as [(Hx & _)|(_ & H)]; [discriminate Hx|]. split; [exact E|exact H].
Defined.

(** * What the model shows *)

(** A pointer with its high bits changed names an accessible page for the check, and the access that follows faults in the kernel. *)
Lemma string_pointer_faults : validate_user_string 0x5000 (0x200000 + 2 ^ 48) 256 string_mm = None.
Proof. vm_compute. reflexivity. Qed.


(** The rounding wraps to 0 for the last page of lengths: the call answers with an address and has mapped and recorded nothing. *)
Lemma mmap_length_wraps : option_map (fun x => (x.1, live (regions_of x.2), translate (pg x.2) 0x5000 MMAP_AREA_START)) (sys_mmap (2 ^ 64 - 1) 3 0x22 demo_mm) =
  Some (MMAP_AREA_START, [], None).
Proof. vm_compute. reflexivity. Qed.

(** The leaf entry is the same with and without PROT_EXEC: the bit PAGE_NX is lost in the 12 low bits that are kept. *)
Lemma prot_exec_ignored f prot : new_leaf f (prot_flags (Z.lor prot PROT_EXEC)) = new_leaf f (prot_flags prot).
Proof.
  assert (forall fl, Z.land (Z.lor fl PAGE_NX) 0xFFF = Z.land fl 0xFFF) as Hnx.
  { intros fl. rewrite Z.land_lor_distr_l. change (Z.land PAGE_NX 0xFFF) with 0. apply Z.lor_0_r. }
  assert (Z.land (Z.lor prot PROT_EXEC) PROT_WRITE = Z.land prot PROT_WRITE) as Hw.
  { rewrite Z.land_lor_distr_l. change (Z.land PROT_EXEC PROT_WRITE) with 0. apply Z.lor_0_r. }
  unfold new_leaf, prot_flags. rewrite Hw. by destruct (_ =? 0), (Z.land prot PROT_WRITE =? 0), (Z.land prot PROT_EXEC =? 0); cbn [negb]; rewrite ?Hnx.
Qed.

(** The owner of any memory BAR gets a user mapping of frame 0: phys + length wraps in the check, phys_page + i * PAGE_SIZE in the loop. *)
Lemma mmio_maps_frame_0 : option_map (fun x => (x.1, translate (pg x.2) 0x5000 (MMAP_AREA_START + 4096))) (sys_mmap_mmio (2 ^ 64 - 4096) 8192 demo_mm) =
  Some (MMAP_AREA_START, Some (0, (true, true))).
Proof. vm_compute. reflexivity. Qed.

(** Without a heap block a shared mapping fails and keeps its addresses. *)
Definition full_heap : heap := default demo_heap (snd <$> Heap.kmalloc (KERNEL_HEAP_SIZE - 64) demo_heap).
Definition low_mm : mm (PS := pmm) (HS := heap) :=
  mk_mm (set_sh (mk_shm (replicate 16 no_region) demo_pmm full_heap) demo_paging) claimed_drv ∅ (Some demo_proc).

Lemma shared_mmap_leaks_addresses : option_map (fun x => (x.1, (fun p => (next_mmap_addr p, List.filter (fun r => 0 <? f_length r) (mmap_free_ranges p))) <$> current_process x.2))
  (sys_mmap (4096 * 1024) 3 0x21 low_mm) = Some (ERR, Some (MMAP_AREA_START + 4096 * 1024, [])).
Proof. vm_compute. reflexivity. Qed.
