(* ===== verification/LufirafsPath.v ===== *)
(** Paths of LufiraFS: [lufirafs_lookup] follows the entries of the directories along the components of the path. *)

From S2P Require Import Prelude Memory Interfaces Lufirafs LufirafsView LufirafsFile LufirafsDir.
From S2P Require RamfsTree.

Notation components := RamfsTree.components.
Notation split_slash := RamfsTree.split_slash.

(** Components of at most 59 bytes; longer ones the code cuts in pieces. *)
Definition short_names (p : list Z) : Prop := Forall (fun c => zlen c <= LUFIRAFS_MAX_NAME) (split_slash p).

Lemma components_skip_slashes p : components (skip_slashes p) = components p.
Proof. induction p as [|c p IH]; [done|]. cbn [skip_slashes]. destruct (Z.eqb_spec c SLASH) as [->|]; [|done]. by rewrite IH. Qed.

Lemma short_skip p : short_names p -> short_names (skip_slashes p).
Proof.
  induction p as [|c p IH]; [done|]. cbn [skip_slashes]. destruct (Z.eqb_spec c SLASH) as [->|]; [|done]. intros H. apply IH.
  unfold short_names in *. cbn in H. by apply Forall_cons in H as [_ H].
Qed.

Lemma skip_len p : (length (skip_slashes p) <= length p)%nat.
Proof. induction p as [|c p IH]; [done|]. cbn. destruct (c =? SLASH); cbn; lia. Qed.

(** A component that fits is taken whole. *)
Lemma take_component_spec n : forall p a r, (length (hd [] (split_slash p)) <= n)%nat -> take_component n p = (a, r) ->
  p = a ++ r /\ match r with [] => split_slash p = [a] | c :: q => c = SLASH /\ split_slash p = a :: split_slash q end.
Proof.
  induction n as [|n IH]; intros p a r Hf; cbn [take_component].
  - intros [= <- <-]. split; [done|]. destruct p as [|c p]; [done|]. cbn [RamfsTree.split_slash] in *. unfold Ramfs.slash, SLASH in *.
    destruct (Z.eqb_spec c 47) as [->|]; [done|]. destruct (split_slash p); cbn in Hf; lia.
  - destruct p as [|c p]; [by intros [= <- <-]|]. cbn [RamfsTree.split_slash] in *. unfold Ramfs.slash, SLASH in *.
    destruct (Z.eqb_spec c 47) as [->|Hc]; [by intros [= <- <-]|]. destruct (take_component n p) as [a' r'] eqn:E. intros [= <- <-].
    assert (length (hd [] (split_slash p)) <= n)%nat as Hf' by (destruct (split_slash p); cbn in Hf |- *; lia).
    destruct (IH p a' r' Hf' E) as [-> H]. split; [done|]. destruct r' as [|d q]; [by rewrite H|]. destruct H as [-> H]. by rewrite H.
Qed.

(** One round of the loop: the next component and what is left. *)
Lemma round_spec p a r : short_names p -> p <> [] -> take_component (Z.to_nat LUFIRAFS_MAX_NAME) p = (a, r) ->
  components p = (if decide (a = []) then [] else [a]) ++ components (skip_slashes r) /\ short_names (skip_slashes r) /\ (length (skip_slashes r) < length p)%nat.
Proof.
  intros Hs Hne E. assert (length (hd [] (split_slash p)) <= Z.to_nat LUFIRAFS_MAX_NAME)%nat as Hh.
  { unfold short_names in Hs. destruct (split_slash p) as [|x xs]; [cbn; lia|]. apply Forall_cons in Hs as [Hx _]. unfold zlen, LUFIRAFS_MAX_NAME in *. cbn. lia. }
  destruct (take_component_spec _ _ _ _ Hh E) as [Ep Hr]. pose proof (skip_len r) as Hl. rewrite components_skip_slashes. destruct r as [|c q].
  - split; [|split; [apply Forall_singleton; done|]].
    + unfold RamfsTree.components. rewrite Hr. cbn. rewrite app_nil_r. case_decide as Ea; [by rewrite Ea|]. by rewrite bool_decide_eq_false_2.
    + rewrite app_nil_r in Ep. subst a. cbn. destruct p; [done|cbn; lia].
  - destruct Hr as [-> Hr]. unfold RamfsTree.components. rewrite Hr. split; [|split].
    + cbn [List.filter RamfsTree.split_slash]. change (SLASH =? Ramfs.slash) with true. cbv iota. cbn [List.filter].
      change (negb (bool_decide (@nil Z = []))) with false. cbv iota. case_decide as Ea; [by rewrite Ea|]. by rewrite bool_decide_eq_false_2.
    + apply short_skip. unfold short_names in *. rewrite Hr in Hs. apply Forall_cons in Hs as [_ Hs]. cbn. apply Forall_cons. split; [done|exact Hs].
    + rewrite Ep, length_app. pose proof (skip_len q). change (skip_slashes (SLASH :: q)) with (skip_slashes q). cbn. lia.
Qed.

(** * Following a path *)

Fixpoint leads v (cur : Z) (comps : list (list Z)) (x : Z) : Prop :=
  match comps with
  | [] => x = cur
  | c :: comps => mode (v_ino v cur) = LUFIRAFS_MODE_DIR /\ exists y, entry v cur c y /\ leads v y comps x
  end.

(** Every directory is well-formed and its entries lead to inodes. *)
Definition dirs_wf v : Prop := forall d, is_ino d -> mode (v_ino v d) = LUFIRAFS_MODE_DIR ->
  (exists n, dir_wf v (v_ino v d) n) /\ forall nm x, entry v d nm x -> is_ino x.

Section path.
Context {HS DS : Type} `{!BlockAllocator HS} `{!BlockDevice DS}.
Implicit Types (s : lufirafs (HS := HS) (DS := DS)) (g : geom) (v : view).

Lemma lookup_any s g live v d nm : has_view s g live v -> fs_wf g v -> dirs_wf v -> is_ino d ->
  wp (lookup_in_dir d nm) (fun r s' => has_view s' g live v /\
    match r with
    | Some x => mode (v_ino v d) = LUFIRAFS_MODE_DIR /\ entry v d nm x /\ is_ino x
    | None => heap_refuses (HS := HS) \/ (mode (v_ino v d) = LUFIRAFS_MODE_DIR -> forall x, ~ entry v d nm x)
    end) s.
Proof.
  intros Hv Hwf Hd Hi. destruct (decide (mode (v_ino v d) = LUFIRAFS_MODE_DIR)) as [Hm|Hm].
  - destruct (Hd d Hi Hm) as [[n Hdir] Hent]. eapply wp_mono; [by apply (lookup_outcome s g live v d n nm)|]. cbv beta.
    intros [x|] s' [Hv' H]; (split; [done|]); [split; [done|]; split; [done|]; by eapply Hent|]. destruct H as [H|H]; [by left|by right].
  - unfold lookup_in_dir. wstep. apply (wp_read_inode _ _ _ _ _ _ Hv Hi). rewrite (proj2 (Z.eqb_neq _ _) Hm). cbn [negb]. wstep. split; [done|]. right. by intros ?.
Qed.

(** Entries of a directory have one inode each. *)
Lemma entry_unique v d nm x y : is_ino d -> dirs_wf v -> mode (v_ino v d) = LUFIRAFS_MODE_DIR -> entry v d nm x -> entry v d nm y -> x = y.
Proof.
  intros Hi Hd Hm Hx Hy. destruct (Hd d Hi Hm) as [[n Hdir] _]. apply (entry_n _ _ n) in Hx, Hy; [|done..].
  destruct Hx as (Hx0 & k & Hk & Ek), Hy as (Hy0 & k' & Hk' & Ek'). pose proof (dw_uniq _ _ _ Hdir) as Hu.
  assert (k = k') as <- by (apply Hu; [done|done|rewrite Ek; done|rewrite Ek'; done|by rewrite Ek, Ek']). rewrite Ek in Ek'. by injection Ek'.
Qed.

Lemma lookup_loop_outcome g live v : fs_wf g v -> dirs_wf v -> forall fuel cur p s, has_view s g live v -> is_ino cur -> short_names p -> (length p <= fuel)%nat ->
  wp (lookup_loop fuel cur p) (fun r s' => has_view s' g live v /\
    match r with Some x => leads v cur (components p) x /\ is_ino x | None => heap_refuses (HS := HS) \/ forall x, ~ leads v cur (components p) x end) s.
Proof.
  intros Hwf Hd. induction fuel as [|fuel IH]; intros cur p s Hv Hi Hs Hf; destruct p as [|c p]; cbn [lookup_loop]; [by wstep|cbn in Hf; lia|by wstep|].
  destruct (take_component _ (c :: p)) as [a r] eqn:E. destruct (round_spec (c :: p) a r Hs ltac:(done) E) as (Ec & Hs' & Hl). rewrite Ec. cbv zeta.
  case_bool_decide as Ea; [rewrite decide_True by done; apply IH; [done|done|done|lia]|]. rewrite decide_False by done. cbn [app leads].
  wstep. eapply wp_mono; [by apply (lookup_any s g live v cur a)|]. cbv beta. intros [y|] s1 [Hv1 H1].
  - destruct H1 as (Hm & He & Hy). eapply wp_mono; [apply IH; [done|done|done|lia]|]. cbv beta. intros [x|] s2 [Hv2 H2]; (split; [done|]).
    + destruct H2 as [H2 Hx]. split; [|done]. split; [done|]. by exists y.
    + destruct H2 as [H2|H2]; [by left|right]. intros x (_ & y' & He' & Hl'). rewrite (entry_unique v cur a y' y) in Hl' by done. by apply (H2 x).
  - wstep. split; [done|]. destruct H1 as [H1|H1]; [by left|right]. intros x (Hm & y & He & _). by apply (H1 Hm y).
Qed.

(** Where a path starts. *)
Definition start_of (s : lufirafs (HS := HS) (DS := DS)) (base : Z) (p : list Z) : Z :=
  match p with c :: _ => if c =? SLASH then root_inode (sb s) else base | [] => base end.

Lemma path_lookup_outcome s g live v base p : has_view s g live v -> fs_wf g v -> dirs_wf v -> is_ino (start_of s base p) -> short_names p ->
  wp (lufirafs_lookup base p) (fun r s' => has_view s' g live v /\
    match r with Some x => leads v (start_of s base p) (components p) x /\ is_ino x | None => heap_refuses (HS := HS) \/ forall x, ~ leads v (start_of s base p) (components p) x end) s.
Proof.
  intros Hv Hwf Hd Hi Hs. unfold lufirafs_lookup. wstep. wstep. destruct p as [|c p]; [by wstep|]. unfold start_of in *. destruct (Z.eqb_spec c SLASH) as [->|Hc].
  - change (components (SLASH :: p)) with (components p). apply lookup_loop_outcome; [done|done|done|done| |cbn; lia].
    unfold short_names in *. cbn in Hs. by apply Forall_cons in Hs as [_ Hs].
  - apply lookup_loop_outcome; [done|done|done|done|done|done].
Qed.

(** C35: Looking up a path follows the directory entries of its components: it yields the inode they lead to, from the root when the
    path begins with a slash and else from the given directory; it fails only when the components lead nowhere or there is
    no buffer; repeated and trailing slashes make no difference, and nothing is changed. *)
Theorem lufirafs_lookup_correct s g live v base p : has_view s g live v -> fs_wf g v -> dirs_wf v -> is_ino (start_of s base p) -> short_names p ->
  wp (lufirafs_lookup base p) (fun r s' => has_view s' g live v /\
    match r with Some x => leads v (start_of s base p) (components p) x /\ is_ino x | None => heap_refuses (HS := HS) \/ forall x, ~ leads v (start_of s base p) (components p) x end) s.
Proof. apply path_lookup_outcome. Qed.
End path.
