(* ===== verification/LufirafsVfs.v ===== *)
(** Model of kernel/fs/lufirafs/lufirafs_vfs.c: LufiraFS below the VFS.

    The VFS (Vfs.v) is over any heap; here it is the [world]: the state of LufiraFS with its heap, the private
    records that the inodes of the VFS point to, and the credentials of the current process.  The operations
    are of the types the VFS model takes as arguments, so [lufira_fs] and [lufira_paths] instantiate it:
    [vfs_open], [vfs_read] and the others of Vfs.v run on LufiraFS. *)

From S2P Require Import Prelude Memory Interfaces Vfs.
From S2P Require Lufirafs.

Definition O_TRUNC : Z := 8.
Definition O_APPEND : Z := 16.
Definition SEEK_SET : Z := 0.
Definition SEEK_CUR : Z := 1.
Definition SEEK_END : Z := 2.
Definition LUFIRAFS_DEFAULT_FILE_PERM : Z := 0x1A4.   (* 0644 *)
Definition LUFIRAFS_DEFAULT_DIR_PERM : Z := 0x1ED.    (* 0755 *)

(** The tables of operations. *)
Definition lufirafs_file_ops : file_ops := fs_fops 2.
Definition lufirafs_dir_ops : file_ops := fs_fops 3.
Definition lufirafs_inode_ops : Z := 2.

(** The cursor [dir] of a directory is over the inode itself: its inode is [pr_ino]. *)
Record private := mk_private { pr_ino : Z; is_dir : bool; index : Z }.
Definition sizeof_private : Z := 24.

(** [vfs_dirent_t] *)
Record dirent := mk_dirent { d_ino : Z; d_type : file_type; d_name : list Z }.

Section world.
Context {HS DS : Type} `{!BlockAllocator HS} `{!BlockDevice DS}.

Record world := mk_world {
  lufirafs_fs : Lufirafs.lufirafs (HS := HS) (DS := DS);   (* the variable [lufirafs] *)
  privs : gmap Z private;
  cred_uid : Z;                                            (* of [current_process], 0 without one *)
  cred_gid : Z;
}.

Definition set_fs (l : Lufirafs.lufirafs) (w : world) : world := mk_world l (privs w) (cred_uid w) (cred_gid w).
Definition set_privs (m : gmap Z private) (w : world) : world := mk_world (lufirafs_fs w) m (cred_uid w) (cred_gid w).

Definition in_fs {A} (m : M (Lufirafs.lufirafs (HS := HS) (DS := DS)) A) : M world A := fun w =>
  match m (lufirafs_fs w) with Some (a, l) => Some (a, set_fs l w) | None => None end.

Definition world_alloc (n : Z) : M world Z := in_fs (Lufirafs.on_heap (ba_alloc n)).
Definition world_release (p : Z) : M world unit := in_fs (Lufirafs.on_heap (ba_release p)).
Definition world_rep (w : world) (live : gset Z) : Prop := ba_rep (Lufirafs.kheap (lufirafs_fs w)) live.

Lemma world_alloc_spec w live n : world_rep w live -> 0 < n -> n + 32 <= 2 ^ 64 ->
  wp (world_alloc n) (fun p w' => (p = 0 /\ w' = w) \/ (p <> 0 /\ (p ∉ live) /\ world_rep w' ({[p]} ∪ live))) w.
Proof.
  intros Hr Hn Hn'. pose proof (ba_alloc_spec _ _ _ Hr Hn Hn') as H. unfold wp, world_alloc, in_fs, Lufirafs.on_heap in *.
  destruct (ba_alloc n _) as [[p h]|]; [|done]. destruct H as [[-> ->]|H]; [left; split; [done|]|by right].
  destruct w as [l ? ? ?]. by destruct l.
Qed.

Lemma world_release_spec w live p : world_rep w live -> p ∈ live -> wp (world_release p) (fun _ w' => world_rep w' (live ∖ {[p]})) w.
Proof.
  intros Hr Hp. pose proof (ba_release_spec _ _ _ Hr Hp) as H. unfold wp, world_release, in_fs, Lufirafs.on_heap in *.
  destruct (ba_release p _) as [[[] h]|]; [exact H|done].
Qed.

(** One heap serves the VFS and LufiraFS. *)
#[export] Instance world_allocator : BlockAllocator world := {|
  ba_rep := world_rep; ba_alloc := world_alloc; ba_release := world_release;
  ba_alloc_spec := world_alloc_spec; ba_release_spec := world_release_spec;
|}.

Notation kernel := (vfs (HS := world)).

Definition on_fs {A} (m : M (Lufirafs.lufirafs (HS := HS) (DS := DS)) A) : M kernel A := on_heap (in_fs m).

Definition get_priv (p : Z) : M kernel private := fun s =>
  match privs (kheap s) !! p with Some o => Some (o, s) | None => None end.
Definition put_priv (p : Z) (o : private) : M kernel unit := on_heap (modify (fun w => set_privs (<[p := o]> (privs w)) w)).
(** [kfree] of a private record. *)
Definition free_priv (p : Z) : M kernel unit := kfree p;; on_heap (modify (fun w => set_privs (delete p (privs w)) w)).

Definition set_offset (f off : Z) : M kernel unit :=
  o ← get_file f; put_file f (mk_file (fd o) (finode o) off (fflags o) (fops o)).
Definition set_size (i n : Z) : M kernel unit :=
  x ← get_inode i; put_inode i (mk_inode (ino x) (type x) n (ref_count x) (private_data x) (iops x)).
Definition clear_private (i : Z) : M kernel unit :=
  x ← get_inode i; put_inode i (mk_inode (ino x) (type x) (size x) (ref_count x) 0 (iops x)).

(** * Files *)

(** The private record behind an open file: 0 when a pointer on the way is NULL. *)
Definition file_priv (f : Z) : M kernel Z :=
  if f =? 0 then mret 0 else
  o ← get_file f;
  if finode o =? 0 then mret 0 else
  i ← get_inode (finode o);
  mret (private_data i).

(** The result and the bytes stored in the caller's buffer; [buf] says that there is one. *)
Definition lufirafs_file_read (f : Z) (buf : bool) (count : Z) : M kernel (Z * list Z) :=
  p ← file_priv f;
  if p =? 0 then mret (-1, []) else
  pr ← get_priv p;
  if is_dir pr then mret (-1, []) else
  if negb buf then mret (-1, []) else
  o ← get_file f;
  '(n, l) ← on_fs (Lufirafs.lufirafs_read (pr_ino pr) (offset o) (u32 count));
  (if 0 <? n then set_offset f (u32 (offset o + n)) else mret tt);;
  mret (n, l).

Definition lufirafs_file_write (f : Z) (buf : option (list Z)) (count : Z) : M kernel Z :=
  p ← file_priv f;
  if p =? 0 then mret (-1) else
  pr ← get_priv p;
  if is_dir pr then mret (-1) else
  match buf with
  | None => mret (-1)
  | Some src =>
      o ← get_file f;
      i ← get_inode (finode o);
      let off := if negb (Z.land (fflags o) O_APPEND =? 0) then size i else offset o in
      src ← lift (if u32 count <=? zlen src then Some (take (Z.to_nat (u32 count)) src) else None);
      n ← on_fs (Lufirafs.lufirafs_write (pr_ino pr) off src);
      (if 0 <? n then
         set_offset f (u32 (off + n));;
         x ← on_fs (Lufirafs.lufirafs_read_inode (pr_ino pr));
         (match x with Some x => set_size (finode o) (Lufirafs.size x) | None => mret tt end);;
         on_fs Lufirafs.lufirafs_sync
       else mret tt);;
      mret n
  end.

Definition lufirafs_file_seek (f off whence : Z) : M kernel Z :=
  if f =? 0 then mret (-1) else
  o ← get_file f;
  if finode o =? 0 then mret (-1) else
  i ← get_inode (finode o);
  let target :=
    if whence =? SEEK_SET then Some (u32 off) else
    if whence =? SEEK_CUR then Some (u32 (offset o + u32 off)) else
    if whence =? SEEK_END then Some (u32 (size i + u32 off)) else None in
  match target with
  | None => mret (-1)
  | Some t => let t := if size i <? t then size i else t in set_offset f t;; mret (i32 t)
  end.

(** [lufirafs_file_close] and [lufirafs_dir_close] *)
Definition lufirafs_file_close (f : Z) : M kernel Z :=
  if f =? 0 then mret (-1) else
  o ← get_file f;
  if finode o =? 0 then mret (-1) else
  i ← get_inode (finode o);
  if private_data i =? 0 then mret 0 else
  free_priv (private_data i);;
  clear_private (finode o);;
  mret 0.

(** * Inodes of the VFS *)

Definition inode_type (x : Lufirafs.inode) : file_type :=
  if Lufirafs.mode x =? Lufirafs.LUFIRAFS_MODE_DIR then FT_DIRECTORY else FT_REGULAR.

(** 0 is NULL. *)
Definition build_inode (n : Z) : M kernel Z :=
  d ← on_fs (Lufirafs.lufirafs_read_inode n);
  match d with
  | None => mret 0
  | Some d =>
      p ← kmalloc sizeof_private;
      if p =? 0 then mret 0 else
      put_priv p (mk_private n (Lufirafs.mode d =? Lufirafs.LUFIRAFS_MODE_DIR) 0);;
      i ← vfs_create_inode n (inode_type d) lufirafs_inode_ops p;
      if i =? 0 then free_priv p;; mret 0 else
      set_size i (Lufirafs.size d);;
      mret i
  end.

(** [!dir || !dir->private_data], [!priv->is_dir]: the private record of a directory, [None] for -1. *)
Definition dir_priv (dir : Z) : M kernel (option (Z * private)) :=
  if dir =? 0 then mret None else
  i ← get_inode dir;
  if private_data i =? 0 then mret None else
  pr ← get_priv (private_data i);
  mret (if is_dir pr then Some (private_data i, pr) else None).

(** [kmalloc] would return NULL for a block. *)
Definition no_buffer : M kernel bool := gets (fun s : kernel =>
  match ba_alloc Lufirafs.LUFIRAFS_BLOCK_SIZE (Lufirafs.kheap (lufirafs_fs (kheap s))) with Some (p, _) => p =? 0 | None => false end).

(** The cursor after a [lufirafs_readdir] that found no entry: behind the last one, unless the inode could not be read or there was
    no buffer. *)
Definition end_index (pr : private) (d : option Lufirafs.inode) (stuck : bool) : Z :=
  match d with
  | Some d => if stuck then index pr else Z.max (index pr) (Lufirafs.nblocks (Lufirafs.size d) * Lufirafs.LUFIRAFS_DIRENTS_PER_BLOCK)
  | None => index pr
  end.

(** The result and the entry.  The inode of the entry is read into a variable that keeps its old bytes when the read
    fails; a directory whose entries lead to inodes does not let it fail, and the model faults. *)
Definition lufirafs_inode_readdir (dir : Z) : M kernel (Z * option dirent) :=
  r ← dir_priv dir;
  match r with
  | None => mret (-1, None)
  | Some (p, pr) =>
      b ← on_fs (Lufirafs.lufirafs_readdir (pr_ino pr) (index pr));
      match b with
      | None =>
          d ← on_fs (Lufirafs.lufirafs_read_inode (pr_ino pr));
          stuck ← no_buffer;
          put_priv p (mk_private (pr_ino pr) true (end_index pr d stuck));;
          mret (0, None)
      | Some (n, nm, k) =>
          put_priv p (mk_private (pr_ino pr) true k);;
          d ← on_fs (Lufirafs.lufirafs_read_inode n);
          d ← lift d;
          mret (1, Some (mk_dirent n (inode_type d) nm))
      end
  end.

Definition lufirafs_inode_lookup (dir : Z) (nm : list Z) : M kernel Z :=
  if bool_decide (nm = []) then mret 0 else
  r ← dir_priv dir;
  match r with
  | None => mret 0
  | Some (_, pr) =>
      fuel ← on_fs (Lufirafs.dir_fuel (pr_ino pr));
      n ← on_fs (Lufirafs.readdir_loop fuel (pr_ino pr) 0 None (fun _ n x => mret (if bool_decide (x = nm) then inr (Some n) else inl None)));
      match n with None => mret 0 | Some n => build_inode n end
  end.

(** [lufirafs_sync] after an operation that returned 0. *)
Definition sync_if_ok (r : Z) : M kernel Z := (if r =? 0 then on_fs Lufirafs.lufirafs_sync else mret tt);; mret r.

Definition create_in (parent : Z) (nm : list Z) (mode perm : Z) : M kernel Z :=
  u ← gets (fun s : kernel => cred_uid (kheap s));
  g ← gets (fun s : kernel => cred_gid (kheap s));
  '(r, _) ← on_fs (Lufirafs.lufirafs_create parent nm mode u g perm);
  sync_if_ok r.

Definition lufirafs_inode_create (dir : Z) (nm : list Z) (ty : file_type) : M kernel Z :=
  if bool_decide (nm = []) then mret (-1) else
  r ← dir_priv dir;
  match r with
  | None => mret (-1)
  | Some (_, pr) =>
      if bool_decide (ty = FT_DIRECTORY) then create_in (pr_ino pr) nm Lufirafs.LUFIRAFS_MODE_DIR LUFIRAFS_DEFAULT_DIR_PERM
      else create_in (pr_ino pr) nm Lufirafs.LUFIRAFS_MODE_FILE LUFIRAFS_DEFAULT_FILE_PERM
  end.

Definition unlink_in (parent : Z) (nm : list Z) : M kernel Z :=
  r ← on_fs (Lufirafs.lufirafs_unlink parent nm); sync_if_ok r.

Definition lufirafs_inode_remove (dir : Z) (nm : list Z) : M kernel Z :=
  if bool_decide (nm = []) then mret (-1) else
  r ← dir_priv dir;
  match r with None => mret (-1) | Some (_, pr) => unlink_in (pr_ino pr) nm end.

(** * Paths *)

Definition root : M kernel Z := gets (fun s : kernel => Lufirafs.root_inode (Lufirafs.sb (lufirafs_fs (kheap s)))).

(** [path[0] == '/' && path[1] == 'd' && path[2] == 'e' && path[3] == 'v'] *)
Definition dev_prefix : path := [0x2F; 0x64; 0x65; 0x76].
Definition starts_dev (p : path) : bool := bool_decide (take 4 p = dev_prefix).

Definition truncate_open (f i p : Z) : M kernel unit :=
  pr ← get_priv p;
  on_fs (Lufirafs.lufirafs_truncate (pr_ino pr) 0);;
  set_size i 0;;
  set_offset f 0.

Definition vfs_lufirafs_open_at (base : Z) (p : path) (flags : Z) : M kernel Z :=
  if no_path p then mret (-1) else
  if starts_dev p then mret (-1) else
  n ← on_fs (Lufirafs.lufirafs_lookup base p);
  match n with
  | None => mret (-1)
  | Some n =>
      d ← alloc_fd;
      if d <? 0 then mret (-1) else
      i ← build_inode n;
      if i =? 0 then mret (-1) else
      x ← get_inode i;
      f ← alloc_file;
      if f =? 0 then free_priv (private_data x);; kfree i;; mret (-1) else
      let is_d := bool_decide (type x = FT_DIRECTORY) in
      put_file f (mk_file d i (if Z.land flags O_APPEND =? 0 then 0 else size x) flags (if is_d then lufirafs_dir_ops else lufirafs_file_ops));;
      (if negb (Z.land flags O_TRUNC =? 0) && negb is_d then truncate_open f i (private_data x) else mret tt);;
      set_cur_file d f 1;;
      mret d
  end.

Definition vfs_open_lufirafs (p : path) (flags : Z) : M kernel Z := r ← root; vfs_lufirafs_open_at r p flags.

Definition vfs_lufirafs_create_at (base : Z) (p : path) : M kernel Z :=
  if no_path p then mret (-1) else
  r ← on_fs (Lufirafs.lufirafs_resolve_parent base p);
  match r with None => mret (-1) | Some (parent, nm) => create_in parent nm Lufirafs.LUFIRAFS_MODE_FILE LUFIRAFS_DEFAULT_FILE_PERM end.

Definition slash_path : path := [0x2F].

Definition vfs_lufirafs_mkdir_at (base : Z) (p : path) : M kernel Z :=
  if no_path p then mret (-1) else
  if bool_decide (p = slash_path) then mret (-2) else
  r ← on_fs (Lufirafs.lufirafs_resolve_parent base p);
  match r with None => mret (-1) | Some (parent, nm) => create_in parent nm Lufirafs.LUFIRAFS_MODE_DIR LUFIRAFS_DEFAULT_DIR_PERM end.

Definition vfs_lufirafs_unlink_at (base : Z) (p : path) : M kernel Z :=
  if no_path p then mret (-1) else
  if bool_decide (p = slash_path) then mret (-2) else
  r ← on_fs (Lufirafs.lufirafs_resolve_parent base p);
  match r with None => mret (-1) | Some (parent, nm) => unlink_in parent nm end.

Definition vfs_lufirafs_lookup_at (base : Z) (p : path) : M kernel Z :=
  if no_path p then mret 0 else
  n ← on_fs (Lufirafs.lufirafs_lookup base p);
  match n with None => mret 0 | Some n => build_inode n end.

Definition vfs_lufirafs_create (p : path) : M kernel Z := r ← root; vfs_lufirafs_create_at r p.
Definition vfs_lufirafs_mkdir (p : path) : M kernel Z := r ← root; vfs_lufirafs_mkdir_at r p.
Definition vfs_lufirafs_unlink (p : path) : M kernel Z := r ← root; vfs_lufirafs_unlink_at r p.
Definition vfs_lufirafs_lookup (p : path) : M kernel Z := r ← root; vfs_lufirafs_lookup_at r p.
Definition vfs_lufirafs_get_root : M kernel Z := r ← root; build_inode r.

(** * What the VFS takes *)

Definition lufira_paths : Vfs.lufirafs (HS := world) := {|
  l_open := vfs_open_lufirafs; l_create := vfs_lufirafs_create; l_mkdir := vfs_lufirafs_mkdir; l_unlink := vfs_lufirafs_unlink;
  l_lookup := vfs_lufirafs_lookup; l_get_root := vfs_lufirafs_get_root;
  l_open_at := vfs_lufirafs_open_at; l_create_at := vfs_lufirafs_create_at; l_mkdir_at := vfs_lufirafs_mkdir_at;
  l_unlink_at := vfs_lufirafs_unlink_at; l_lookup_at := vfs_lufirafs_lookup_at;
|}.

Definition readdir_op (ops dir idx : Z) : M kernel Z := '(r, _) ← lufirafs_inode_readdir dir; mret r.

(** [lufirafs_dir_read] calls [vfs_readdir], which uses no other operation of the file system than [readdir]. *)
Definition dir_only : fs_ops (HS := world) := {|
  fs_read := fun _ _ _ _ => fault; fs_write := fun _ _ _ _ => fault; fs_seek := fun _ _ _ _ => fault; fs_close := fun _ _ => fault;
  fs_readdir := readdir_op;
|}.

Definition lufirafs_dir_read (f : Z) (buf : bool) (count : Z) : M kernel (Z * list Z) :=
  if f =? 0 then mret (-1, []) else
  o ← get_file f;
  if (finode o =? 0) || negb buf then mret (-1, []) else
  r ← vfs_readdir dir_only (fd o); mret (r, []).

(** Table 2 is [lufirafs_file_ops], table 3 [lufirafs_dir_ops], which has no [write] and no [seek]. *)
Definition lufira_fs : fs_ops (HS := world) := {|
  fs_read := fun k f buf count => if k =? 2 then lufirafs_file_read f buf count else lufirafs_dir_read f buf count;
  fs_write := fun k f buf count => if k =? 2 then lufirafs_file_write f buf count else mret (-1);
  fs_seek := fun k f off whence => if k =? 2 then lufirafs_file_seek f off whence else mret (-1);
  fs_close := fun k f => lufirafs_file_close f;
  fs_readdir := readdir_op;
|}.
End world.
