(* ===== verification/LufirafsFd.v ===== *)
(** Files of LufiraFS through descriptors: the operations of the VFS run on those of LufiraFS. *)

From S2P Require Import Prelude Memory Interfaces Vfs VfsPipe LufirafsVfs.
From S2P Require Lufirafs LufirafsView LufirafsFile LufirafsDisk.

Import LufirafsView (has_view, geom, view, v_ino, is_ino, heap_refuses).
Import LufirafsFile (fs_wf, file_written, content, is_pos).

Section fd.
Context {HS DS : Type} `{!BlockAllocator HS} `{!BlockDevice DS}.
Notation kernel := (vfs (HS := world (HS := HS) (DS := DS))).
Implicit Types (s : kernel) (g : geom) (v : view) (live : gset Z).

(** The state of LufiraFS, and the kernel with another one. *)
Definition kfs s : Lufirafs.lufirafs (HS := HS) (DS := DS) := lufirafs_fs (kheap s).
Definition with_fs (l : Lufirafs.lufirafs) s : kernel := set_objs (fobjs s) (iobjs s) (pobjs s) (set_fs l (kheap s)) s.

Lemma wp_lufira {A} (m : M (Lufirafs.lufirafs (HS := HS) (DS := DS)) A) Q s : wp m (fun a l => Q a (with_fs l s)) (kfs s) -> wp (on_fs m) Q s.
Proof. unfold wp, on_fs, on_heap, in_fs, kfs. destruct (m _) as [[a l]|]; [|done]. done. Qed.

(** Descriptor [d] is open on the file with the private record [pr]. *)
Record fd_open s (d f : Z) (o : file) (x : inode) (p : Z) (pr : private) : Prop := {
  fo_range : 0 <= d < MAX_FD_PER_PROCESS;
  fo_table : current_fd_table s <> 0;
  fo_entry : cur_file d s = Some (f, s);
  fo_nz : f <> 0;
  fo_file : fobjs s !! f = Some o;
  fo_ops : fops o = lufirafs_file_ops;
  fo_inz : finode o <> 0;
  fo_inode : iobjs s !! finode o = Some x;
  fo_private : private_data x = p;
  fo_pnz : p <> 0;
  fo_priv : privs (kheap s) !! p = Some pr;
  fo_plain : is_dir pr = false;
  fo_ino : is_ino (pr_ino pr);
  fo_offset : is_u32 (offset o);
}.

Definition with_off (o : file) (off : Z) : file := mk_file (fd o) (finode o) off (fflags o) (fops o).
Definition with_size (x : inode) (n : Z) : inode := mk_inode (ino x) (type x) n (ref_count x) (private_data x) (iops x).

(** The kernel with that file's offset and cached size changed. *)
Definition touched s (f : Z) (o : file) (x : inode) (off n : Z) : kernel :=
  set_objs (<[f := with_off o off]> (fobjs s)) (<[finode o := with_size x n]> (iobjs s)) (pobjs s) (kheap s) s.

Lemma cur_file_same s s' d f : tables s' = tables s -> current_fd_table s' = current_fd_table s -> cur_file d s = Some (f, s) -> cur_file d s' = Some (f, s').
Proof.
  intros Et Ec. unfold cur_file, cur_table, mbind, M_bind. rewrite Et, Ec. destruct (tables s !! current_fd_table s) as [t|]; [|done].
  unfold lift. destruct (zget (files t) d); [|done]. intros E. by injection E as ->.
Qed.

Lemma fd_open_fs s l d f o x p pr : fd_open s d f o x p pr -> fd_open (with_fs l s) d f o x p pr.
Proof. intros []. split; try done. by apply (cur_file_same s). Qed.

Lemma fd_open_touched s d f o x p pr off n : fd_open s d f o x p pr -> is_u32 off -> fd_open (touched s f o x off n) d f (with_off o off) (with_size x n) p pr.
Proof. intros [] Hoff. split; try done; [by apply (cur_file_same s)|apply lookup_insert_eq|apply lookup_insert_eq]. Qed.

Lemma get_file_at s f o : fobjs s !! f = Some o -> get_file f s = Some (o, s).
Proof. unfold get_file. by intros ->. Qed.
Lemma get_inode_at s i x : iobjs s !! i = Some x -> get_inode i s = Some (x, s).
Proof. unfold get_inode. by intros ->. Qed.

Lemma file_priv_run s d f o x p pr : fd_open s d f o x p pr -> file_priv f s = Some (p, s) /\ get_priv p s = Some (pr, s).
Proof.
  intros []. split; [|unfold get_priv; by rewrite fo_priv0]. unfold file_priv. rewrite (proj2 (Z.eqb_neq f 0)) by done.
  rewrite (bind_Some _ _ _ _ _ (get_file_at _ _ _ fo_file0)). rewrite (proj2 (Z.eqb_neq _ 0)) by done.
  rewrite (bind_Some _ _ _ _ _ (get_inode_at _ _ _ fo_inode0)). by subst.
Qed.

Lemma fd_file_run s d f o x p pr : fd_open s d f o x p pr -> fd_file d s = Some (f, s).
Proof.
  intros []. unfold fd_file. rewrite (proj2 (Z.ltb_ge d 0)), (proj2 (Z.leb_gt _ d)) by lia. cbn [orb]. unfold gets.
  erewrite bind_Some by done. by rewrite (proj2 (Z.eqb_neq _ 0)).
Qed.

(** * Writing *)

Definition write_off (o : file) (x : inode) : Z := if negb (Z.land (fflags o) O_APPEND =? 0) then size x else offset o.

Lemma file_write_fd s g live v d f o x p pr buf : fd_open s d f o x p pr -> has_view (kfs s) g live v -> fs_wf g v -> is_u32 (size x) ->
  Forall is_u8 buf -> zlen buf < 2 ^ 32 ->
  wp (lufirafs_file_write f (Some buf) (zlen buf)) (fun r s' =>
    (r = -1 /\ exists l, s' = with_fs l s /\ has_view l g live v /\
       (Lufirafs.LUFIRAFS_MAX_FILE_SIZE < write_off o x + zlen buf \/ heap_refuses (HS := HS))) \/
    exists n v' l, has_view l g live v' /\ file_written (HS := HS) g v (pr_ino pr) (write_off o x) buf n v' /\ r = (if (n =? 0) && negb (zlen buf =? 0) then -1 else n) /\
      s' = if 0 <? n then touched (with_fs l s) f o x (write_off o x + n) (Lufirafs.size (v_ino v' (pr_ino pr))) else with_fs l s) s.
Proof.
  intros Hop Hv Hwf Hsz Hbuf Hlen. pose proof (zlen_nonneg buf). destruct (file_priv_run _ _ _ _ _ _ _ Hop) as [E1 E2]. unfold lufirafs_file_write.
  wstep. eapply wp_Some; [exact E1|]. cbv beta. rewrite (proj2 (Z.eqb_neq p 0)) by apply (fo_pnz _ _ _ _ _ _ _ Hop).
  wstep. eapply wp_Some; [exact E2|]. cbv beta. rewrite (fo_plain _ _ _ _ _ _ _ Hop).
  wstep. eapply wp_Some; [by apply get_file_at, (fo_file _ _ _ _ _ _ _ Hop)|]. cbv beta.
  wstep. eapply wp_Some; [by apply get_inode_at, (fo_inode _ _ _ _ _ _ _ Hop)|]. cbv beta zeta. fold (write_off o x). set (off := write_off o x).
  assert (0 <= off < 2 ^ 32) as Hoff by (unfold off, write_off; pose proof (fo_offset _ _ _ _ _ _ _ Hop) as H0; unfold is_u32 in *; case_match; lia).
  rewrite (u32_small (zlen buf)) by (unfold is_u32; lia). wstep. eapply wp_lift; [by rewrite Z.leb_refl|]. cbv beta.
  rewrite take_ge by (unfold zlen; lia). wstep. apply wp_lufira.
  eapply wp_mono; [apply (LufirafsFile.write_outcome (kfs s) g live v (pr_ino pr) off buf Hv Hwf (fo_ino _ _ _ _ _ _ _ Hop)); [lia|done]|]. cbv beta.
  intros r l [(-> & Hv' & Hwhy)|(n & v' & Hv' & Hw & ->)].
  - change (0 <? -1) with false. cbv iota. wsteps. left. split; [done|]. by exists l.
  - pose proof (LufirafsFile.fl_n _ _ _ _ _ _ _ Hw) as [Hn Hfit]. destruct (Z.ltb_spec 0 n) as [Hpos|Hnp].
    + rewrite (proj2 (Z.eqb_neq n 0)) by lia. cbn [andb]. rewrite (proj2 (Z.ltb_lt 0 n)) by done.
      assert (Lufirafs.LUFIRAFS_MAX_FILE_SIZE < 2 ^ 32) by done. rewrite (u32_small (off + n)) by (unfold is_u32; lia).
      unfold set_offset, put_file. wstep. wstep. wstep. eapply wp_Some; [by apply get_file_at; cbn; apply (fo_file _ _ _ _ _ _ _ Hop)|]. cbv beta. wsteps.
      apply wp_lufira. change (kfs _) with l. apply (LufirafsView.wp_read_inode _ _ _ _ _ _ Hv' (fo_ino _ _ _ _ _ _ _ Hop)).
      unfold set_size, put_inode. wstep. wstep. eapply wp_Some; [apply get_inode_at; cbn; by apply (fo_inode _ _ _ _ _ _ _ Hop)|]. cbv beta. wsteps.
      apply wp_lufira. match goal with |- wp _ _ (kfs ?X) => change (kfs X) with l end. eapply wp_mono; [by apply (LufirafsDisk.sync_view l g live v')|].
      cbv beta. intros [] l' Hv2. wstep. right. exists n, v', l'. split; [done|]. split; [done|]. rewrite (proj2 (Z.eqb_neq n 0)) by lia. split; [done|].
      rewrite (proj2 (Z.ltb_lt 0 n)) by done. done.
    + assert (n = 0) as -> by lia. assert ((0 <? (if (0 =? 0) && negb (zlen buf =? 0) then -1 else 0)) = false) as -> by (by destruct (zlen buf =? 0)).
      wsteps. right. exists 0, v', l. done.
Qed.

(** * Seeking and reading *)

Lemma file_seek_fd s d f o x p pr off : fd_open s d f o x p pr -> is_u32 off -> off <= size x ->
  lufirafs_file_seek f off SEEK_SET s = Some (i32 off, set_objs (<[f := with_off o off]> (fobjs s)) (iobjs s) (pobjs s) (kheap s) s).
Proof.
  intros Hop Hoff Hle. unfold lufirafs_file_seek. rewrite (proj2 (Z.eqb_neq f 0)) by apply (fo_nz _ _ _ _ _ _ _ Hop).
  rewrite (bind_Some _ _ _ _ _ (get_file_at _ _ _ (fo_file _ _ _ _ _ _ _ Hop))), (proj2 (Z.eqb_neq _ 0)) by apply (fo_inz _ _ _ _ _ _ _ Hop).
  rewrite (bind_Some _ _ _ _ _ (get_inode_at _ _ _ (fo_inode _ _ _ _ _ _ _ Hop))). change (SEEK_SET =? SEEK_SET) with true. cbv zeta iota.
  rewrite (u32_small off), (proj2 (Z.ltb_ge (size x) off)) by done. unfold set_offset.
  erewrite bind_Some; [done|]. by rewrite (bind_Some _ _ _ _ _ (get_file_at _ _ _ (fo_file _ _ _ _ _ _ _ Hop))).
Qed.

Lemma fd_open_seek s d f o x p pr off : fd_open s d f o x p pr -> is_u32 off ->
  fd_open (set_objs (<[f := with_off o off]> (fobjs s)) (iobjs s) (pobjs s) (kheap s) s) d f (with_off o off) x p pr.
Proof. intros [] Hoff. split; try done; [by apply (cur_file_same s)|apply lookup_insert_eq]. Qed.

Lemma file_read_fd s g live v d f o x p pr count (Q : Z * list Z -> kernel -> Prop) : fd_open s d f o x p pr -> has_view (kfs s) g live v -> fs_wf g v ->
  0 <= count < 2 ^ 31 -> offset o + count < 2 ^ 32 ->
  (forall r l lf, has_view lf g live v -> (r = -1 /\ l = [] /\ heap_refuses (HS := HS)) \/
     (r = Z.max 0 (Z.min count (Lufirafs.size (v_ino v (pr_ino pr)) - offset o)) /\ zlen l = r /\ LufirafsFile.reads (HS := HS) v (v_ino v (pr_ino pr)) (offset o) l) ->
     Q (r, l) (if 0 <? r then set_objs (<[f := with_off o (offset o + r)]> (fobjs s)) (iobjs s) (pobjs s) (set_fs lf (kheap s)) s else with_fs lf s)) ->
  wp (lufirafs_file_read f true count) Q s.
Proof.
  intros Hop Hv Hwf Hc Hfit HQ. destruct (file_priv_run _ _ _ _ _ _ _ Hop) as [E1 E2]. pose proof (fo_offset _ _ _ _ _ _ _ Hop) as Hoff. unfold is_u32 in Hoff. unfold lufirafs_file_read.
  wstep. eapply wp_Some; [exact E1|]. cbv beta. rewrite (proj2 (Z.eqb_neq p 0)) by apply (fo_pnz _ _ _ _ _ _ _ Hop).
  wstep. eapply wp_Some; [exact E2|]. cbv beta. rewrite (fo_plain _ _ _ _ _ _ _ Hop). cbn [negb].
  wstep. eapply wp_Some; [by apply get_file_at, (fo_file _ _ _ _ _ _ _ Hop)|]. cbv beta. rewrite (u32_small count) by (unfold is_u32; lia).
  wstep. apply wp_lufira. eapply wp_mono; [apply (LufirafsFile.read_outcome (kfs s) g live v (pr_ino pr) (offset o) count Hv Hwf (fo_ino _ _ _ _ _ _ _ Hop)); [lia|lia|lia]|].
  cbv beta iota. intros [r l] lf [Hv' Hr]. specialize (HQ r l lf Hv' Hr). destruct (Z.ltb_spec 0 r) as [Hpos|Hn].
  - assert (r <= count) as Hle by (destruct Hr as [(-> & _)|(-> & _)]; lia). rewrite (u32_small (offset o + r)) by (unfold is_u32; lia).
    unfold set_offset, put_file. wstep. wstep. eapply wp_Some; [by apply get_file_at; cbn; apply (fo_file _ _ _ _ _ _ _ Hop)|]. cbv beta. wsteps. exact HQ.
  - wsteps. exact HQ.
Qed.

(** * The VFS on top *)

Context (sched : M kernel unit) (fuel : nat).

Lemma vfs_write_fd s d f o x p pr buf Q : fd_open s d f o x p pr ->
  wp (lufirafs_file_write f (Some buf) (zlen buf)) Q s -> wp (vfs_write lufira_fs sched fuel d (Some buf) (zlen buf)) Q s.
Proof.
  intros Hop H. unfold vfs_write. wstep. eapply wp_Some; [by apply (fd_file_run _ _ _ _ _ _ _ Hop)|]. cbv beta. rewrite (proj2 (Z.eqb_neq f 0)) by apply (fo_nz _ _ _ _ _ _ _ Hop).
  wstep. eapply wp_Some; [by apply get_file_at, (fo_file _ _ _ _ _ _ _ Hop)|]. cbv beta. by rewrite (fo_ops _ _ _ _ _ _ _ Hop).
Qed.

Lemma vfs_seek_fd s d f o x p pr off w : fd_open s d f o x p pr -> vfs_seek lufira_fs d off w s = lufirafs_file_seek f off w s.
Proof.
  intros Hop. unfold vfs_seek. rewrite (bind_Some _ _ _ _ _ (fd_file_run _ _ _ _ _ _ _ Hop)), (proj2 (Z.eqb_neq f 0)) by apply (fo_nz _ _ _ _ _ _ _ Hop).
  rewrite (bind_Some _ _ _ _ _ (get_file_at _ _ _ (fo_file _ _ _ _ _ _ _ Hop))). by rewrite (fo_ops _ _ _ _ _ _ _ Hop).
Qed.

Lemma vfs_read_fd s d f o x p pr count Q : fd_open s d f o x p pr -> wp (lufirafs_file_read f true count) Q s -> wp (vfs_read lufira_fs sched fuel d true count) Q s.
Proof.
  intros Hop H. unfold vfs_read. wstep. eapply wp_Some; [by apply (fd_file_run _ _ _ _ _ _ _ Hop)|]. cbv beta. rewrite (proj2 (Z.eqb_neq f 0)) by apply (fo_nz _ _ _ _ _ _ _ Hop).
  wstep. eapply wp_Some; [by apply get_file_at, (fo_file _ _ _ _ _ _ _ Hop)|]. cbv beta. by rewrite (fo_ops _ _ _ _ _ _ _ Hop).
Qed.

(** C5: Through descriptors: after [vfs_write] accepted [r] bytes, seeking back to where they went and [vfs_read] of [r] bytes
    yields the first [r] bytes of the buffer, through the VFS, the glue and LufiraFS with its blocks on the disk, unless a read
    buffer is refused; the offset is at the end for O_APPEND and the file's offset otherwise. *)
Theorem vfs_lufira_write_read s g live v d f o x p pr buf : fd_open s d f o x p pr -> has_view (kfs s) g live v -> fs_wf g v ->
  size x = Lufirafs.size (v_ino v (pr_ino pr)) -> offset o <= size x -> Forall is_u8 buf -> zlen buf < 2 ^ 31 ->
  wp (r ← vfs_write lufira_fs sched fuel d (Some buf) (zlen buf);
      vfs_seek lufira_fs d (write_off o x) SEEK_SET;;
      '(k, l) ← vfs_read lufira_fs sched fuel d true (Z.max 0 r);
      mret (r, k, l)) (fun '(r, k, l) s' => exists v', has_view (kfs s') g live v' /\ fs_wf g v' /\
    (0 <= r -> (k = -1 /\ heap_refuses (HS := HS)) \/
      (k = r /\ zlen l = r /\ r <= zlen buf /\ forall t, 0 <= t < r -> zget l t = zget buf t \/
         (zget l t = Some 0 /\ heap_refuses (HS := HS) /\ Lufirafs.LUFIRAFS_DIRECT_BLOCKS * Lufirafs.LUFIRAFS_BLOCK_SIZE <= write_off o x + t)))) s.
Proof using Type.
  intros Hop Hv Hwf Hsize Hle Hbuf Hlen. assert (Lufirafs.LUFIRAFS_MAX_FILE_SIZE < 2 ^ 31) as Hbig by done. pose proof (zlen_nonneg buf) as Hb0.
  assert (is_u32 (size x)) as Hsz.
  { rewrite Hsize. destruct (LufirafsFile.fw_ok _ _ Hwf _ (fo_ino _ _ _ _ _ _ _ Hop)) as [Hw _]. unfold LufirafsView.inode_words in Hw.
    apply Forall_cons in Hw as [_ Hw]. by apply Forall_cons in Hw as [? _]. }
  set (off := write_off o x). assert (is_u32 off /\ off <= size x) as [Hoff Hofs].
  { unfold off, write_off. pose proof (fo_offset _ _ _ _ _ _ _ Hop). case_match; [split; [done|lia]|split; [done|lia]]. }
  wstep. apply (vfs_write_fd s d f o x p pr buf _ Hop). eapply wp_mono; [apply (file_write_fd s g live v d f o x p pr buf Hop Hv Hwf Hsz Hbuf); lia|]. cbv beta.
  assert (forall r s1 o1 x1 v1, fd_open s1 d f o1 x1 p pr -> has_view (kfs s1) g live v1 -> fs_wf g v1 -> off <= size x1 -> Z.max 0 r < 2 ^ 31 -> off + Z.max 0 r < 2 ^ 32 ->
    (0 <= r -> Z.max 0 (Z.min r (Lufirafs.size (v_ino v1 (pr_ino pr)) - off)) = r /\ r <= zlen buf /\
      forall t, 0 <= t < r -> content v1 (v_ino v1 (pr_ino pr)) (off + t) = default 0 (zget buf t)) ->
    wp (vfs_seek lufira_fs d off SEEK_SET;; '(k, l) ← vfs_read lufira_fs sched fuel d true (Z.max 0 r); mret (r, k, l)) (fun '(r, k, l) s' =>
      exists v', has_view (kfs s') g live v' /\ fs_wf g v' /\ (0 <= r -> (k = -1 /\ heap_refuses (HS := HS)) \/
      (k = r /\ zlen l = r /\ r <= zlen buf /\ forall t, 0 <= t < r -> zget l t = zget buf t \/
         (zget l t = Some 0 /\ heap_refuses (HS := HS) /\ Lufirafs.LUFIRAFS_DIRECT_BLOCKS * Lufirafs.LUFIRAFS_BLOCK_SIZE <= off + t)))) s1) as Hrest.
  { intros r s1 o1 x1 v1 Hop1 Hv1 Hwf1 Hfit1 Hr1 Hr2 Hc. wstep. eapply wp_Some.
    { rewrite (vfs_seek_fd _ _ _ _ _ _ _ _ _ Hop1). by apply (file_seek_fd _ _ _ _ _ _ _ off Hop1). }
    cbv beta. pose proof (fd_open_seek _ _ _ _ _ _ _ off Hop1 Hoff) as Hop2. set (s2 := set_objs _ _ _ _ _) in *.
    wstep. apply (vfs_read_fd _ _ _ _ _ _ _ _ _ Hop2). apply (file_read_fd s2 g live v1 d f _ x1 p pr _ _ Hop2 Hv1 Hwf1); [lia|cbn; lia|].
    intros k l lf Hv2 Hres. cbn [offset with_off] in Hres. wstep. exists v1.
    split; [by destruct (0 <? k)|]. split; [done|]. intros Hr0. rewrite (Z.max_r 0 r) in Hres by done.
    destruct (Hc Hr0) as (Em & Hrb & Hcon). destruct Hres as [(-> & _ & Hh)|(Ek & Hl & Hrd)]; [by left|right]. assert (k = r) as -> by (rewrite Ek; exact Em).
    split_and!; [done|done|done|]. intros t Ht. destruct (Hrd t ltac:(lia)) as [E|E]; [left|by right]. rewrite E, Hcon by done. destruct (zget_Some buf t ltac:(lia)) as [y ->]. done. }
  intros r s1 [(-> & l & -> & Hv' & _)|(n & v' & l & Hv' & Hw & -> & ->)].
  - apply (Hrest (-1) _ o x v); [by apply fd_open_fs|done|done|done|lia|unfold is_u32 in Hoff; lia|lia].
  - pose proof (LufirafsFile.fl_n _ _ _ _ _ _ _ Hw) as [Hn Hfit]. fold off in Hfit. unfold is_u32 in Hoff.
    assert (Lufirafs.size (v_ino v' (pr_ino pr)) = Z.max (size x) (off + n)) as Hsz' by (rewrite (LufirafsFile.fl_size _ _ _ _ _ _ _ Hw), Hsize; done).
    set (r := if (n =? 0) && negb (zlen buf =? 0) then -1 else n). assert (r = n \/ r = -1) as Hr by (unfold r; destruct (_ && _); auto).
    assert (0 <= r -> Z.max 0 (Z.min r (Lufirafs.size (v_ino v' (pr_ino pr)) - off)) = r /\ r <= zlen buf /\
      forall t, 0 <= t < r -> content v' (v_ino v' (pr_ino pr)) (off + t) = default 0 (zget buf t)) as Hc.
    { intros Hr0. assert (r = n) as -> by lia. split; [lia|]. split; [lia|]. intros t Ht. rewrite (LufirafsFile.fl_content _ _ _ _ _ _ _ Hw) by (unfold is_pos; lia).
      rewrite (proj2 (Z.leb_le _ _)), (proj2 (Z.ltb_lt _ _)) by (fold off; lia). cbn [andb]. do 2 f_equal. fold off. lia. }
    pose proof (LufirafsFile.fl_wf _ _ _ _ _ _ _ Hw) as Hwf'. destruct (Z.ltb_spec 0 n) as [Hpos|Hn0].
    + apply (Hrest r _ (with_off o (off + n)) (with_size x (Lufirafs.size (v_ino v' (pr_ino pr)))) v'); [|done|done|cbn; lia|lia|lia|done].
      apply fd_open_touched; [by apply fd_open_fs|unfold is_u32; lia].
    + apply (Hrest r _ o x v'); [by apply fd_open_fs|done|done|done|lia|lia|done].
Qed.
End fd.
