(* ===== verification/LufirafsOpen.v ===== *)
(** Opening a path of LufiraFS: a descriptor, an open file, an inode of the VFS and its private record over the inode of the path. *)

From S2P Require Import Prelude Memory Interfaces Vfs VfsPipe LufirafsVfs RamfsOpen LufirafsPath LufirafsFd.
From S2P Require Lufirafs LufirafsView LufirafsFile LufirafsDisk.

Import LufirafsView (has_view, geom, view, v_ino, is_ino).
Import LufirafsFile (fs_wf).

Section open.
Context {HS DS : Type} `{!BlockAllocator HS} `{!BlockDevice DS}.
Notation kernel := (vfs (HS := world (HS := HS) (DS := DS))).
Implicit Types (s : kernel) (g : geom) (v : view) (live : gset Z).

(** Some state of the heap refuses a request. *)
Definition refuses : Prop := exists (h : HS) live n h', ba_rep h live /\ ba_alloc n h = Some (0, h').

Lemma block_refused : LufirafsView.heap_refuses (HS := HS) -> refuses.
Proof. intros (h & live & h' & Hr & E). by exists h, live, Lufirafs.LUFIRAFS_BLOCK_SIZE, h'. Qed.

(** The descriptors, and the objects at the addresses in [live], are the same. *)
Record objs_kept live s s' : Prop := {
  kp_tables : tables s' = tables s;
  kp_current : current_fd_table s' = current_fd_table s;
  kp_files : file_table s' = file_table s;
  kp_live : forall q, q ∈ live -> fobjs s' !! q = fobjs s !! q /\ iobjs s' !! q = iobjs s !! q /\ privs (kheap s') !! q = privs (kheap s) !! q;
}.

Lemma objs_kept_refl live s : objs_kept live s s.
Proof. by split. Qed.
Lemma objs_kept_trans live s1 s2 s3 : objs_kept live s1 s2 -> objs_kept live s2 s3 -> objs_kept live s1 s3.
Proof. intros [A1 A2 A3 A4] [B1 B2 B3 B4]. split; [congruence..|]. intros q Hq. destruct (B4 q Hq) as (-> & -> & ->). apply (A4 q Hq). Qed.
Lemma objs_kept_fs live s l : objs_kept live s (with_fs l s).
Proof. by split. Qed.

(** * The heap under the kernel *)

Lemma with_fs_eta s : with_fs (kfs s) s = s.
Proof. unfold with_fs, kfs, set_fs, set_objs. destruct s as [? ? ? []]. done. Qed.

Lemma wp_kernel_kmalloc s g live v n Q : has_view (kfs s) g live v -> 0 < n -> n + 32 <= 2 ^ 64 -> (refuses -> Q 0 s) ->
  (forall p h, p <> 0 -> p ∉ live -> has_view (Lufirafs.set_heap h (kfs s)) g ({[p]} ∪ live) v -> Q p (with_fs (Lufirafs.set_heap h (kfs s)) s)) -> wp (kmalloc n) Q s.
Proof.
  intros Hv Hn Hn' H0 Hp. assert (ba_rep (Lufirafs.kheap (kfs s)) live) as Hrep by apply Hv.
  destruct (wp_inv _ _ _ (ba_alloc_spec _ _ _ Hrep Hn Hn')) as (p & h & E & H).
  assert (kmalloc n s = Some (p, with_fs (Lufirafs.set_heap h (kfs s)) s)) as Ek.
  { unfold kmalloc, on_heap. cbn. unfold world_alloc, in_fs, Lufirafs.on_heap. unfold kfs in E. rewrite E. done. }
  eapply wp_Some; [exact Ek|]. destruct H as [[-> ->]|(Hpz & Hpl & Hrep')].
  - replace (Lufirafs.set_heap _ (kfs s)) with (kfs s) by (by destruct (kfs s)). rewrite with_fs_eta. apply H0. by exists (Lufirafs.kheap (kfs s)), live, n, (Lufirafs.kheap (kfs s)).
  - apply Hp; [done|done|]. by apply (LufirafsView.has_view_heap _ g live).
Qed.

Definition freed (p : Z) s : kernel := set_objs (delete p (fobjs s)) (delete p (iobjs s)) (delete p (pobjs s)) (kheap s) s.

Lemma wp_kernel_kfree s g live v p Q : has_view (kfs s) g ({[p]} ∪ live) v -> p ∉ live ->
  (forall h, has_view (Lufirafs.set_heap h (kfs s)) g live v -> Q tt (freed p (with_fs (Lufirafs.set_heap h (kfs s)) s))) -> wp (kfree p) Q s.
Proof.
  intros Hv Hp HQ. assert (ba_rep (Lufirafs.kheap (kfs s)) ({[p]} ∪ live)) as Hrep by apply Hv.
  destruct (wp_inv _ _ _ (ba_release_spec _ _ p Hrep ltac:(set_solver))) as ([] & h & E & H).
  replace (({[p]} ∪ live) ∖ {[p]}) with live in H by set_solver. unfold kfree. wstep. eapply wp_Some.
  { unfold on_heap. cbn. unfold world_release, in_fs, Lufirafs.on_heap. unfold kfs in E. by rewrite E. }
  apply wp_modify. apply (HQ h). by apply (LufirafsView.has_view_heap _ g ({[p]} ∪ live)).
Qed.

Lemma freed_kept live s p : p ∉ live -> objs_kept live s (freed p s).
Proof. intros Hp. split; [done..|]. intros q Hq. assert (p <> q) by (by intros ->). cbn. by rewrite !lookup_delete_ne. Qed.

(** * The pieces of an open file *)

Definition no_fd s : Prop := forall i f, 0 <= i < MAX_FD_PER_PROCESS -> cur_file i s = Some (f, s) -> f <> 0.
Definition no_slot s : Prop := forall i, 0 <= i < MAX_FILES_SYSTEM -> zget (file_table s) i <> Some 0.

Lemma fd_free s : fds_ok s -> wp alloc_fd (fun r s' => s' = s /\ ((r = -1 /\ no_fd s) \/ 0 <= r < MAX_FD_PER_PROCESS)) s.
Proof.
  intros [(t & Ht & Hlen) _]. unfold alloc_fd. wstep.
  apply (wp_for_range (fun i s' => s' = s /\ forall k f, 0 <= k < i -> cur_file k s = Some (f, s) -> f <> 0)); [by split; [|lia]|done| |].
  - intros i s' Hi [-> Hk]. destruct (zget_Some (files t) i ltac:(lia)) as [e He]. assert (cur_file i s = Some (e, s)) as Ec.
    { unfold cur_file, cur_table, mbind, M_bind. rewrite Ht. unfold lift. by rewrite He. }
    wstep. eapply wp_Some; [exact Ec|]. wsteps. destruct (Z.eqb_spec e 0) as [->|Hne]; [wsteps; by split; [|right]|].
    split; [done|]. intros k f Hki Ef. destruct (decide (k = i)) as [->|]; [|apply (Hk k f); [lia|done]]. rewrite Ec in Ef. by injection Ef as <-.
  - intros s' [-> Hk]. wsteps. split; [done|]. left. by split.
Qed.

Definition with_privs m s : kernel := set_objs (fobjs s) (iobjs s) (pobjs s) (set_privs m (kheap s)) s.

Lemma wp_privs (f : world -> gmap Z private) Q s : Q tt (with_privs (f (kheap s)) s) -> wp (on_heap (modify (fun w => set_privs (f w) w))) Q s.
Proof. done. Qed.

Lemma privs_kept live s p m : p ∉ live -> (forall q, p <> q -> m !! q = privs (kheap s) !! q) -> objs_kept live s (with_privs m s).
Proof. intros Hp Hm. split; [done..|]. intros q Hq. assert (p <> q) by (by intros ->). cbn. by rewrite Hm. Qed.

Lemma inode_kept live s i x : i ∉ live -> objs_kept live s (set_objs (fobjs s) (<[i := x]> (iobjs s)) (pobjs s) (kheap s) s).
Proof. intros Hi. split; [done..|]. intros q Hq. assert (i <> q) by (by intros ->). cbn. by rewrite lookup_insert_ne. Qed.

Lemma wp_free_priv s live g v p Q : has_view (kfs s) g ({[p]} ∪ live) v -> p ∉ live ->
  (forall s', objs_kept live s s' -> has_view (kfs s') g live v -> Q tt s') -> wp (free_priv p) Q s.
Proof.
  intros Hv Hp HQ. unfold free_priv. wstep. apply (wp_kernel_kfree s g live v p _ Hv Hp). intros h Hh. apply (wp_privs (fun w => delete p (privs w))). apply HQ; [|exact Hh].
  set (s1 := with_fs _ s). apply (objs_kept_trans live s (freed p s1)); [|apply (privs_kept live _ p); [done|intros; by rewrite lookup_delete_ne]]. apply (objs_kept_trans live s s1); [apply objs_kept_fs|by apply freed_kept].
Qed.

(** [build_inode]: NULL only when memory is refused, with nothing left behind; else an inode over a private record. *)
Lemma build_inode_outcome s live g v n : has_view (kfs s) g live v -> is_ino n ->
  wp (build_inode n) (fun i s' => objs_kept live s s' /\ ((i = 0 /\ refuses /\ has_view (kfs s') g live v) \/
    (i <> 0 /\ exists p, p <> 0 /\ (p ∉ live) /\ (i ∉ {[p]} ∪ live) /\ has_view (kfs s') g ({[i]} ∪ ({[p]} ∪ live)) v /\
      iobjs s' !! i = Some (mk_inode n (inode_type (v_ino v n)) (Lufirafs.size (v_ino v n)) 1 p lufirafs_inode_ops) /\
      privs (kheap s') !! p = Some (mk_private n (Lufirafs.mode (v_ino v n) =? Lufirafs.LUFIRAFS_MODE_DIR) 0)))) s.
Proof.
  intros Hv Hn. unfold build_inode. wstep. apply wp_lufira. apply (LufirafsView.wp_read_inode _ _ _ _ _ _ Hv Hn). rewrite with_fs_eta.
  wstep. apply (wp_kernel_kmalloc s g live v _ _ Hv); [done|done| |].
  - intros Href. cbv beta. change (0 =? 0) with true. cbv iota. wsteps. split; [apply objs_kept_refl|by left].
  - intros p h Hp Hpl Hv1. rewrite (proj2 (Z.eqb_neq p 0)) by done. unfold put_priv. wsteps. set (s1 := with_fs _ s) in *.
    set (pr := mk_private _ _ _). apply (wp_privs (fun w => <[p := pr]> (privs w))). set (s2 := with_privs _ s1).
    assert (has_view (kfs s2) g ({[p]} ∪ live) v) as Hv2 by done.
    assert (objs_kept live s s2) as Hk2 by (apply (objs_kept_trans live s s1); [apply objs_kept_fs|apply (privs_kept live _ p); [done|intros; by rewrite lookup_insert_ne]]).
    unfold vfs_create_inode. cbv beta. wsteps. apply (wp_kernel_kmalloc s2 g ({[p]} ∪ live) v _ _ Hv2); [done|done| |].
    + intros Href. cbv beta. change (0 =? 0) with true. cbv iota. wsteps. change (0 =? 0) with true. cbv iota. wstep. apply (wp_free_priv s2 live g v p _ Hv2 Hpl). intros s3 Hk3 Hv3. wsteps.
      split; [by eapply objs_kept_trans|]. by left.
    + intros i h2 Hi Hil Hv3. rewrite (proj2 (Z.eqb_neq i 0)) by done. unfold put_inode. wsteps. unfold set_size. wsteps.
      rewrite (proj2 (Z.eqb_neq i 0)) by done. wsteps.
      eapply wp_Some; [apply get_inode_at, lookup_insert_eq|]. unfold put_inode. wsteps. split; [|right].
      * eapply objs_kept_trans; [exact Hk2|]. eapply objs_kept_trans; [apply objs_kept_fs|]. assert (i ∉ live) as Hil' by set_solver. clearbody s2.
        eapply objs_kept_trans; [by apply (inode_kept live _ i)|]. by apply (inode_kept live).
      * split; [done|]. exists p. split_and!; try done; [cbn; apply lookup_insert_eq|]. cbn. apply lookup_insert_eq.
Qed.

Lemma file_outcome s live g v : has_view (kfs s) g live v -> fds_ok s ->
  wp alloc_file (fun f s' => (f = 0 /\ (refuses \/ no_slot s) /\ s' = s) \/
    (f <> 0 /\ (f ∉ live) /\ has_view (kfs s') g ({[f]} ∪ live) v /\ tables s' = tables s /\ current_fd_table s' = current_fd_table s /\
      zlen (file_table s') = zlen (file_table s) /\ fobjs s' = <[f := mk_file 0 0 0 0 no_ops]> (fobjs s) /\ iobjs s' = iobjs s /\ privs (kheap s') = privs (kheap s))) s.
Proof.
  intros Hv [_ Hlen]. unfold alloc_file. wstep.
  apply (wp_for_range (fun i s' => s' = s /\ (refuses \/ forall k, 0 <= k < i -> zget (file_table s) k <> Some 0))); [split; [done|right; lia]|done| |].
  - intros i s' Hi [-> Hk]. wsteps. destruct (zget_Some (file_table s) i ltac:(lia)) as [e He]. apply (wp_lift _ _ _ _ He). wsteps.
    destruct (Z.eqb_spec e 0) as [->|Hne]; cbn [negb].
    + wstep. apply (wp_kernel_kmalloc s g live v _ _ Hv); [done|done| |].
      * intros Href. wsteps. eapply wp_lift; [apply zset_in; lia|]. wsteps. change (0 =? 0) with true. cbv iota. wsteps. split; [|by left].
        rewrite list_insert_id; [apply ftable_eta|]. unfold zget in He. by destruct (0 <=? i).
      * intros f h Hf Hfl Hv1. wsteps. eapply wp_lift; [apply zset_in; cbn; lia|]. wsteps. rewrite (proj2 (Z.eqb_neq f 0)) by done. unfold put_file. wsteps. right.
        split_and!; try done. cbn. apply zlen_insert.
    + wsteps. split; [done|]. destruct Hk as [Hk|Hk]; [by left|right]. intros k Hki. destruct (decide (k = i)) as [->|]; [rewrite He; congruence|]. apply Hk. lia.
  - intros s' [-> Hk]. wsteps. left. split; [done|]. split; [|done]. destruct Hk as [Hk|Hk]; [by left|right]. intros k Hki. by apply Hk.
Qed.

(** * Opening *)

(** What [vfs_open_lufirafs] makes in state [s]: descriptor [d] on a new file, inode and private record for inode [n]. *)
Record opened g live v s (flags d n : Z) (s' : kernel) : Prop := {
  op_range : 0 <= d < MAX_FD_PER_PROCESS;
  op_rest : exists f i p, f <> 0 /\ i <> 0 /\ p <> 0 /\ f ∉ live /\ i ∉ live /\ p ∉ live /\
    cur_file d s' = Some (f, s') /\ current_fd_table s' = current_fd_table s /\
    fobjs s' !! f = Some (mk_file d i (if Z.land flags O_APPEND =? 0 then 0 else Lufirafs.size (v_ino v n)) flags
      (if Lufirafs.mode (v_ino v n) =? Lufirafs.LUFIRAFS_MODE_DIR then lufirafs_dir_ops else lufirafs_file_ops)) /\
    iobjs s' !! i = Some (mk_inode n (inode_type (v_ino v n)) (Lufirafs.size (v_ino v n)) 1 p lufirafs_inode_ops) /\
    privs (kheap s') !! p = Some (mk_private n (Lufirafs.mode (v_ino v n) =? Lufirafs.LUFIRAFS_MODE_DIR) 0) /\
    has_view (kfs s') g ({[f]} ∪ ({[i]} ∪ ({[p]} ∪ live))) v;
  op_live : forall q, q ∈ live -> fobjs s' !! q = fobjs s !! q /\ iobjs s' !! q = iobjs s !! q /\ privs (kheap s') !! q = privs (kheap s) !! q;
}.

(** A plain file opened so is ready for the theorems about descriptors. *)
Lemma opened_fd g live v s flags d n s' : opened g live v s flags d n s' -> is_ino n -> current_fd_table s <> 0 ->
  is_u32 (Lufirafs.size (v_ino v n)) -> Lufirafs.mode (v_ino v n) <> Lufirafs.LUFIRAFS_MODE_DIR -> exists f o x p pr, fd_open s' d f o x p pr /\ pr_ino pr = n /\
    size x = Lufirafs.size (v_ino v n) /\ offset o <= size x /\ exists live', has_view (kfs s') g live' v.
Proof.
  intros [Hr (f & i & p & Hf & Hi & Hp & _ & _ & _ & Hc & Ht & Ef & Ei & Ep & Hv) _] Hn Hcur Hs Hm. rewrite (proj2 (Z.eqb_neq _ _) Hm) in Ef, Ep. unfold is_u32 in Hs.
  eexists f, _, (mk_inode n (inode_type (v_ino v n)) (Lufirafs.size (v_ino v n)) 1 p lufirafs_inode_ops), p, (mk_private n false 0).
  split; [|split; [reflexivity|split; [reflexivity|split]]].
  - split; try done; [by rewrite Ht|]. cbn. destruct (Z.land flags O_APPEND =? 0); [unfold is_u32; lia|done].
  - cbn. destruct (Z.land flags O_APPEND =? 0); lia.
  - by eexists.
Qed.

Lemma open_at_outcome s g live v base p flags : fds_ok s -> has_view (kfs s) g live v -> fs_wf g v -> dirs_wf v -> is_ino (start_of (kfs s) base p) -> short_names p ->
  no_path p = false -> starts_dev p = false -> Z.land flags O_TRUNC = 0 ->
  wp (vfs_lufirafs_open_at base p flags) (fun d s' =>
    (d = -1 /\ (forall q, q ∈ live -> fobjs s' !! q = fobjs s !! q /\ iobjs s' !! q = iobjs s !! q /\ privs (kheap s') !! q = privs (kheap s) !! q) /\ has_view (kfs s') g live v /\
      (refuses \/ no_fd s \/ no_slot s \/ forall x, ~ leads v (start_of (kfs s) base p) (components p) x)) \/
    exists n, leads v (start_of (kfs s) base p) (components p) n /\ is_ino n /\ opened g live v s flags d n s') s.
Proof.
  intros Hfd Hv Hwf Hd Hi Hs Hnp Hdev Htr. unfold vfs_lufirafs_open_at. rewrite Hnp, Hdev. wstep. apply wp_lufira.
  eapply wp_mono; [by apply path_lookup_outcome|]. cbv beta. intros [n|] l [Hvl H]; [|wsteps; left; split_and!; try done; destruct H as [H|H]; [left; by apply block_refused|auto]].
  destruct H as [Hlead Hn]. set (s0 := with_fs l s). wstep. assert (has_view (kfs s0) g live v) as Hv0 by done.
  eapply wp_mono; [by apply (fd_free s0)|]. cbv beta. intros d s' [-> [[-> Hno]|Hdr]].
  { change (-1 <? 0) with true. cbv iota. wsteps. left. split_and!; try done. right. left. intros i f Hir Ef. apply (Hno i f Hir). by apply (cur_file_same s). }
  rewrite (proj2 (Z.ltb_ge d 0)) by lia. wstep. eapply wp_mono; [by apply (build_inode_outcome s0 live g v n)|]. cbv beta. intros i s1 [Hk1 [(-> & Href & Hv1)|H]].
  { change (0 =? 0) with true. cbv iota. wsteps. left. split_and!; [done|apply Hk1|done|by left]. }
  destruct H as (Hi0 & p' & Hp0 & Hpl & Hil & Hv1 & Ei & Ep). rewrite (proj2 (Z.eqb_neq i 0)) by done.
  wstep. eapply wp_Some; [by apply get_inode_at|]. cbv beta. cbn [private_data type size].
  assert (fds_ok s1) as Hfd1 by (destruct Hfd as [Ha Hb]; split; [by rewrite (kp_tables _ _ _ Hk1), (kp_current _ _ _ Hk1)|by rewrite (kp_files _ _ _ Hk1)]).
  wstep. eapply wp_mono; [by apply (file_outcome s1 _ g v Hv1)|]. cbv beta. intros f s2 [(-> & Hwhy & ->)|(Hf0 & Hfl & Hv2 & Et & Ec & Ez & Eo & Eio & Epr)].
  - change (0 =? 0) with true. cbv iota. wsteps. replace ({[i]} ∪ ({[p']} ∪ live)) with ({[p']} ∪ ({[i]} ∪ live)) in Hv1 by set_solver.
    apply (wp_free_priv s1 _ _ _ _ _ Hv1); [set_solver|]. intros s2 Hk2 Hv2. wsteps. apply (wp_kernel_kfree s2 g live v i _ Hv2); [set_solver|]. intros h Hv3. wsteps. left.
    split; [done|]. split; [|split; [exact Hv3|]].
    + intros q Hq. assert (i <> q) as Hiq by set_solver. destruct (kp_live _ _ _ Hk2 q ltac:(set_solver)) as (E1 & E2 & E3), (kp_live _ _ _ Hk1 q Hq) as (E4 & E5 & E6).
      cbn. rewrite !lookup_delete_ne by done. rewrite E1, E2, E3, E4, E5, E6. done.
    + destruct Hwhy as [H|H]; [by left|]. right. right. left. unfold no_slot in *. by rewrite (kp_files _ _ _ Hk1) in H.
  - rewrite (proj2 (Z.eqb_neq f 0)) by done. unfold put_file. rewrite Htr. change (negb (0 =? 0)) with false. cbn [andb]. wsteps. set (s3 := set_objs _ _ _ _ s2).
    assert (fds_ok s3) as Hfd3 by (destruct Hfd1 as [Ha Hb]; split; cbn; [by rewrite Et, Ec|by rewrite Ez]).
    eapply wp_mono; [by apply (set_cur_file_outcome s3 d f 1)|]. cbv beta. intros [] s4 (E1 & E2 & E3 & Hfd4 & Hcur & Hct). wsteps. right. exists n. split; [done|]. split; [done|].
    split; [done|..].
    + assert (i <> f) by set_solver. exists f, i, p'. assert (inode_type (v_ino v n) = if Lufirafs.mode (v_ino v n) =? Lufirafs.LUFIRAFS_MODE_DIR then FT_DIRECTORY else FT_REGULAR) as Ety by done.
      split_and!; [done|done|done|set_solver|set_solver|done|done|by rewrite Hct; cbn; rewrite Ec, (kp_current _ _ _ Hk1)|..].
      * rewrite E1. cbn. rewrite lookup_insert_eq. rewrite Ety. by destruct (_ =? Lufirafs.LUFIRAFS_MODE_DIR).
      * by rewrite E2; cbn; rewrite Eio.
      * by rewrite E3; cbn; rewrite Epr.
      * unfold kfs. rewrite E3. exact Hv2.
    + intros q Hq. assert (f <> q) by set_solver. destruct (kp_live _ _ _ Hk1 q Hq) as (A1 & A2 & A3). rewrite E1, E2, E3. cbn. rewrite lookup_insert_ne by done.
      rewrite Eo, lookup_insert_ne, Eio, Epr by done. by rewrite A1, A2, A3.
Qed.

End open.
