(* ===== verification/LufirafsVfsDemo.v ===== *)
(** LufiraFS below the VFS on the small disk of LufirafsDemo.v: the theorems at concrete inputs, and what the code does
    where it goes wrong. *)

From S2P Require Import Prelude Memory Interfaces Heap Ramdisk Vfs VfsPipe LufirafsVfs RamfsOpen LufirafsFd LufirafsPath LufirafsOpen.
From S2P Require Lufirafs LufirafsView LufirafsDemo LufirafsFile LufirafsDir.

Import Lufirafs (LUFIRAFS_MODE_DIR).

(** * The machine *)

Notation demo_world := (world (HS := heap) (DS := sector_disk)).
Notation machine := (vfs (HS := demo_world)).

Definition after {A} (k : M machine A) (s : machine) : machine := match k s with Some (_, s') => s' | None => s end.

(** No other file system is mounted: its operations answer -2. *)
Definition unmounted : mount (HS := demo_world) := {|
  m_open := fun _ _ => mret (-2); m_mkdir := fun _ => mret (-2); m_unlink := fun _ => mret (-2); m_lookup := fun _ => mret 0;
|}.

(** The file system of LufirafsDemo.v with a root directory in inode 1, as the image maker leaves it. *)
Definition bare_fs : Lufirafs.lufirafs (HS := heap) (DS := sector_disk) :=
  Lufirafs.mk_fs (Lufirafs.image LufirafsDemo.demo_fs) 2048 LufirafsDemo.demo_sb (replicate 1 0) 7 (sd_put ∅ 2048 16 (Lufirafs.encode_sb LufirafsDemo.demo_sb)) demo_heap.
Definition bare_world : demo_world := mk_world bare_fs ∅ 1000 1000.
Definition bare_kernel : machine :=
  mk_vfs ∅ ∅ ∅ bare_world (replicate 256 0) (<[100 := mk_table (replicate 16 0) 0]> ∅) 100 ∅ 1 200 true [] (replicate 256 0) 0 0 0.
Definition make_root : M machine unit :=
  on_fs (Lufirafs.lufirafs_write_inode 1 (Lufirafs.mk_inode LUFIRAFS_MODE_DIR 0 2 (replicate 12 0) 0 0 0 493));;
  on_fs (Lufirafs.add_dirent 1 [0x2E] 1);; on_fs (Lufirafs.add_dirent 1 [0x2E; 0x2E] 1);; mret tt.
Definition demo_kernel : machine := after make_root bare_kernel.

Definition open := vfs_open unmounted unmounted unmounted unmounted (lufira_paths (HS := heap) (DS := sector_disk)).
Definition unlink := vfs_unlink unmounted unmounted unmounted unmounted (lufira_paths (HS := heap) (DS := sector_disk)).
Definition write (d : Z) (l : list Z) : M machine Z := vfs_write lufira_fs (mret tt) 1 d (Some l) (zlen l).
Definition read (d n : Z) : M machine (Z * list Z) := vfs_read lufira_fs (mret tt) 1 d true n.
Definition close : Z -> M machine Z := vfs_close lufira_fs.

(** /f, and flags of [vfs_open] *)
Definition p_f : path := [0x2F; 0x66].
Definition p_g : path := [0x2F; 0x67].
Definition RW_CREAT : Z := 2 + O_CREAT.

Lemma demo_run : fst <$> (d ← open p_f RW_CREAT; r ← write d [1; 2; 3]; k ← vfs_seek lufira_fs d 0 SEEK_SET; x ← read d 10; mret (d, r, k, x)) demo_kernel = Some (0, 3, 0, (3, [1; 2; 3])).
Proof. vm_compute. reflexivity. Qed.

(** * The theorems at concrete inputs *)

(** A directory in inode 2 whose entry a leads to inode 5. *)
Lemma demo_tree : exists s v, LufirafsView.has_view s LufirafsDemo.demo_geom ∅ v /\ LufirafsFile.fs_wf LufirafsDemo.demo_geom v /\ dirs_wf v /\ leads v 2 (components LufirafsDir.demo_name) 5.
Proof.
  destruct LufirafsDir.demo_dir_state as (s & s' & Hv & E). assert (is_u32 5) as H5 by (unfold is_u32; lia).
  pose proof (LufirafsDir.add_outcome s LufirafsDemo.demo_geom ∅ LufirafsDir.demo_dir_view 2 0 LufirafsDir.demo_name 5 Hv LufirafsDir.demo_dir_fs_wf
    LufirafsDir.is_ino_2 LufirafsDir.demo_dir_wf ltac:(reflexivity) LufirafsDir.demo_name_ok H5 ltac:(discriminate) (LufirafsDir.demo_dir_empty LufirafsDir.demo_name)) as H.
  apply (fun H => wp_run _ _ _ _ _ H E) in H. destruct H as [(? & _)|(_ & v' & n' & Hv' & _ & [Hwf Hdir _ He Ho])]; [discriminate|]. exists s', v'. split; [exact Hv'|]. split; [exact Hwf|]. split.
  - intros d Hd Hm. destruct (decide (d = 2)) as [->|Hne].
    + split; [by exists n'|]. intros nm x Hx%He. destruct Hx as [[_ ->]|Hx]; [unfold LufirafsView.is_ino, Lufirafs.LUFIRAFS_INODE_COUNT; lia|by apply LufirafsDir.demo_dir_empty in Hx].
    + destruct (Ho d Hd Hne) as [Ei _]. rewrite Ei in Hm. unfold LufirafsDir.demo_dir_view in Hm. rewrite LufirafsFile.put_ino_ne, LufirafsFile.demo_inode in Hm by done. discriminate.
  - split; [by apply (LufirafsDir.dw_mode _ _ _ Hdir)|]. exists 5. split; [apply He; by left|done].
Qed.

Lemma lufirafs_lookup_witness : exists s v, leads v 2 (components [0x61]) 5 /\
  wp (Lufirafs.lufirafs_lookup (HS := heap) (DS := ramdisk) 2 [0x61]) (fun r s' => LufirafsView.has_view s' LufirafsDemo.demo_geom ∅ v /\
    match r with Some x => leads v 2 (components [0x61]) x /\ LufirafsView.is_ino x
    | None => LufirafsView.heap_refuses (HS := heap) \/ forall x, ~ leads v 2 (components [0x61]) x end) s.
Proof.
  destruct demo_tree as (s & v & Hv & Hwf & Hd & Hl). exists s, v. split; [exact Hl|].
  refine (lufirafs_lookup_correct s LufirafsDemo.demo_geom ∅ v 2 [0x61] Hv Hwf Hd LufirafsDir.is_ino_2 _). apply Forall_singleton. discriminate.
Defined.

Notation small_kernel := (vfs (HS := world (HS := heap) (DS := ramdisk))).

(** One process with no open file. *)
Definition closed_kernel (l : Lufirafs.lufirafs (HS := heap) (DS := ramdisk)) : small_kernel :=
  mk_vfs ∅ ∅ ∅ (mk_world l ∅ 1000 1000) (replicate 256 0) (<[100 := mk_table (replicate 16 0) 0]> ∅) 100 ∅ 1 200 true [] (replicate 256 0) 0 0 0.

Lemma closed_fds l : fds_ok (closed_kernel l).
Proof. split; [|done]. exists (mk_table (replicate 16 0) 0). done. Qed.


(** Descriptor 3 on the file of inode 3. *)
Definition demo_open_file : file := mk_file 3 2000 0 2 lufirafs_file_ops.
Definition demo_open_inode : inode := mk_inode 3 FT_REGULAR 0 1 3000 lufirafs_inode_ops.
Definition fd_kernel : small_kernel :=
  mk_vfs (<[1000 := demo_open_file]> ∅) (<[2000 := demo_open_inode]> ∅) ∅ (mk_world LufirafsDemo.demo_fs (<[3000 := mk_private 3 false 0]> ∅) 1000 1000)
    (<[0%nat := 1000]> (replicate 256 0)) (<[100 := mk_table (<[3%nat := 1000]> (replicate 16 0)) 1]> ∅) 100 ∅ 1 200 true [] (replicate 256 0) 0 0 0.

Lemma demo_fd_open : fd_open fd_kernel 3 1000 demo_open_file demo_open_inode 3000 (mk_private 3 false 0).
Proof. split; try reflexivity; try discriminate; unfold LufirafsView.is_ino, Lufirafs.LUFIRAFS_INODE_COUNT, MAX_FD_PER_PROCESS, is_u32; cbn; lia. Qed.

Lemma demo_empty_file : Lufirafs.size (LufirafsView.v_ino LufirafsDemo.demo_view 3) = 0.
Proof. rewrite LufirafsFile.demo_inode; [reflexivity|]. unfold LufirafsView.is_ino, Lufirafs.LUFIRAFS_INODE_COUNT. lia. Qed.

Lemma vfs_lufira_write_read_witness : wp (r ← vfs_write lufira_fs (mret tt) 1 3 (Some [1; 2; 3]) (zlen [1; 2; 3]);
      vfs_seek lufira_fs 3 (write_off demo_open_file demo_open_inode) SEEK_SET;;
      '(k, l) ← vfs_read lufira_fs (mret tt) 1 3 true (Z.max 0 r);
      mret (r, k, l)) (fun '(r, k, l) s' => exists v', LufirafsView.has_view (kfs s') LufirafsDemo.demo_geom ∅ v' /\ LufirafsFile.fs_wf LufirafsDemo.demo_geom v' /\
    (0 <= r -> (k = -1 /\ LufirafsView.heap_refuses (HS := heap)) \/
      (k = r /\ zlen l = r /\ r <= zlen [1; 2; 3] /\ forall t, 0 <= t < r -> zget l t = zget [1; 2; 3] t \/
         (zget l t = Some 0 /\ LufirafsView.heap_refuses (HS := heap) /\
            Lufirafs.LUFIRAFS_DIRECT_BLOCKS * Lufirafs.LUFIRAFS_BLOCK_SIZE <= write_off demo_open_file demo_open_inode + t)))) fd_kernel.
Proof.
  refine (vfs_lufira_write_read (mret tt) 1 fd_kernel LufirafsDemo.demo_geom ∅ LufirafsDemo.demo_view 3 1000 demo_open_file demo_open_inode 3000 (mk_private 3 false 0) [1; 2; 3]
    demo_fd_open LufirafsDemo.demo_has_view LufirafsFile.demo_wf _ _ _ _).
  - symmetry. exact demo_empty_file.
  - cbn. lia.
  - repeat (apply Forall_cons_2; [unfold is_u8; lia|]). apply Forall_nil_2.
  - unfold zlen. cbn. lia.
Defined.

(** * Where the code goes wrong *)

(** A descriptor duplicated by [vfs_dup2] (and one inherited over [fork]) shares the private record of the file, and the first
    [vfs_close] of either frees it: the other descriptor is still open, and every read and write on it answers -1. *)
Theorem lufira_close_breaks_dup :
  fst <$> (d ← open p_f RW_CREAT; w ← write d [1; 2; 3]; e ← vfs_dup2 lufira_fs d 5; c ← close d; a ← write e [4]; x ← read e 10; mret (d, w, e, c, a, x)) demo_kernel =
  Some (0, 3, 5, 0, -1, (-1, [])).
Proof. vm_compute. reflexivity. Qed.

(** Two descriptors opened with O_APPEND do not append to each other: each writes at the size that its own inode of the VFS
    keeps, and the second write lands on the bytes of the first. *)
Theorem lufira_append_overwrites :
  fst <$> (d ← open p_f (RW_CREAT + O_APPEND); e ← open p_f (RW_CREAT + O_APPEND); a ← write d [1; 2; 3]; b ← write e [4; 5];
    g ← open p_f 0; x ← read g 10; mret (a, b, x)) demo_kernel = Some (3, 2, (3, [4; 5; 3])).
Proof. vm_compute. reflexivity. Qed.

(** /devices *)
Definition p_devices : path := [0x2F; 0x64; 0x65; 0x76; 0x69; 0x63; 0x65; 0x73].

(** A path that begins with the four bytes of /dev is never opened, whatever follows; creating it succeeds first.  [vfs_open] with O_CREAT
    returns -1 and leaves the file behind. *)
Theorem lufira_dev_prefix :
  fst <$> (n ← vfs_lufirafs_lookup p_devices; d ← open p_devices RW_CREAT; m ← vfs_lufirafs_lookup p_devices; e ← open p_devices 0; mret (n =? 0, d, m =? 0, e)) demo_kernel =
  Some (true, -1, false, -1).
Proof. vm_compute. reflexivity. Qed.

(** Removing a file that is open frees its inode and its blocks at once; a file created afterwards takes the inode, and the old descriptor reads
    and writes the new file. *)
Theorem lufira_unlink_open :
  fst <$> (d ← open p_f RW_CREAT; a ← write d [1; 2; 3]; u ← unlink p_f; e ← open p_g RW_CREAT; b ← write e [7; 8; 9];
    k ← vfs_seek lufira_fs d 0 SEEK_SET; x ← read d 10; mret (a, u, b, k, x)) demo_kernel = Some (3, 0, 3, 0, (3, [7; 8; 9])).
Proof. vm_compute. reflexivity. Qed.

(** [vfs_readdir] takes no notice of its index: the cursor is in the private record of the directory, so that after the last entry
    index 0 answers that there is none. *)
Theorem lufira_readdir_cursor :
  fst <$> (i ← vfs_lufirafs_get_root; a ← lufirafs_inode_readdir i; b ← lufirafs_inode_readdir i; c ← lufirafs_inode_readdir i; d ← readdir_op 0 i 0;
    mret (fst a, d_name <$> snd a, fst b, d_name <$> snd b, fst c, d)) demo_kernel = Some (1, Some [0x2E], 1, Some [0x2E; 0x2E], 0, 0).
Proof. vm_compute. reflexivity. Qed.

(** A component of more than 59 bytes is cut in pieces that are looked up one below the other: with a directory of 59 letters a and
    a file b in it, the path of 59 letters a and a b, without a slash between them, leads to that file. *)
Definition p_long : path := 0x2F :: replicate 59 0x61.
Theorem lufirafs_long_component :
  fst <$> (m ← vfs_lufirafs_mkdir p_long; c ← vfs_lufirafs_create (p_long ++ [0x2F; 0x62]);
    x ← on_fs (Lufirafs.lufirafs_lookup 1 (p_long ++ [0x2F; 0x62])); y ← on_fs (Lufirafs.lufirafs_lookup 1 (p_long ++ [0x62])); mret (m, c, bool_decide (x = y), bool_decide (x = None))) demo_kernel =
  Some (0, 0, true, false).
Proof. vm_compute. reflexivity. Qed.
